(* ===== verification/_CoqProject ===== *)
-Q . S2P
Prelude.v
Cpu.v
Decode.v
Interp.v
InterpOk.v
InterpSpec.v
Translate.v
Block.v
Scan.v
BlockCache.v
Links.v
JitFlags.v
JitFlagsOk.v
Smc.v
FoldOk.v
FilterOk.v
Liveness.v
LivenessOk.v
HostRel.v
Run.v
RunOk.v
VerifyOk.v
Video.v
VideoOk.v
Kbd.v
KbdOk.v
HostFs.v
Disk.v
DiskOk.v
SearchOk.v
Term.v
Render.v
RenderOk.v
Console.v
ConsoleOk.v
Bdos.v
BdosOk.v
Loader.v
Native.v
NativeOk.v
Mkdsk.v
MkdskOk.v
X86.v
EmitX64.v
EmitX64Ok.v
TransX64.v
HostX64.v
RulesX64.v
GuestX64.v
FlagsX64.v
AluX64Ok.v
OpsX64Ok.v
ArithX64Ok.v
OpX64Ok.v
BlockX64Ok.v
