(* ===== verification/Prelude.v ===== *)
(** * z80-monster: a verification development

    The program (src/) runs Z80 and CP/M software on a modern host.  It has a
    reference interpreter, a dynamic binary translator with an x86-64 and an
    AArch64 backend that must do exactly what the interpreter does, CP/M
    services answered by traps, and a Kaypro console.  The parts and the
    files that model them:

    - src/core/z80.h, z80_state.c: the CPU context, memory and the hooks to
      the rest.  [Cpu]: [z80_cpu] is the guest-visible part of [z80_cpu_t],
      memory a total map on 16-bit addresses; [Host] is the class of the
      hooks (the translator's store hook, ports, console, CP/M traps).
      Operations work on [mach W], a context with a host state [W].
    - src/core/z80_decode.c: [Decode], every page and prefix.
    - src/core/z80_interp.c: [Interp], one definition per operation in the
      order of the switch; [exec] is the switch, [z80_step] the function.
      [InterpOk] (widths), [InterpSpec] (meaning), [HostRel] (what a step
      can do to its host), [Block] (running decoded instructions).
    - src/dbt/dbt_x64.c, phases 1 and 2 and the matchers of phase 3:
      [Translate]; [Scan] (block extents), [Liveness] and [LivenessOk] (dead
      flags and MEMPTR stores).
    - src/dbt/block_cache.c, dbt.h: [BlockCache]: the cache, the code bitmap,
      the registry of direct links; [Links] and [Smc] are its theorems.
    - src/dbt/dbt_flags.c: [JitFlags]: the helpers and tables translated code
      calls; [JitFlagsOk], [FoldOk], [FilterOk].
    - src/dbt/dbt_common.c, the entry of dbt_translate_block, the loop of
      src/main.c: [Run]: [dbt_run] with its host events, limits, fallback and
      -V lockstep check; [RunOk], [VerifyOk].
    - src/dbt/emit_x64.h: [EmitX64], one emitter per function, bytes into
      the code buffer; [X86] is the processor that reads them (a decoder and
      the effect of each instruction of the subset, written from the
      architecture), [EmitX64Ok] the encoding theorems.
    - src/dbt/dbt_x64.c, the code of one instruction: [TransX64], up to
      [emit_op] with each of its cases.  [HostX64] (the host's picture of a
      Z80 state), [RulesX64] and [GuestX64] (what emitted code does to it),
      [FlagsX64] and [AluX64Ok] (the inline ALU), [OpsX64Ok] and [ArithX64Ok]
      (the instruction families), [OpX64Ok] (the whole switch), [BlockX64Ok]
      (a stretch of a block).
    - src/kaypro/kaypro_video.c: [Video], [VideoOk].
    - src/kaypro/kaypro_kbd.c: [Kbd], [KbdOk].
    - src/kaypro/kaypro_render_tty.c: [Render], [RenderOk]; the terminal it
      paints on is the class [TtyHost] of [Term], with an executable one.
    - src/cpm/cpm_disk.c: [Disk]; the host's files are the class [HostFs],
      with a file system in memory that has its laws; [DiskOk] (records),
      [SearchOk] (directory search).
    - src/cpm/cpm_bios.c and cpm_bdos.c: [Console], [ConsoleOk] (console and
      line editor), [Bdos], [BdosOk] (dispatch, the shim as a [Host], with
      the latch ports of cpm_ports.c).
    - src/cpm/cpm_loader.c: [Loader]; src/cpm/cpm_host.c: [Native],
      [NativeOk] (a real system image booted over host ports).
    - src/tools/mkdsk.c: [Mkdsk], [MkdskOk].

    How they interact.  [dbt_run] asks the cache for a block; on a miss it
    scans and translates one and inserts it; a block the translator refuses
    runs in the interpreter, one step at a time.  Every store of the
    interpreter goes through [mem_w] and so through the host's store hook,
    which drops the blocks covering the byte; helpers that write memory in
    bulk sweep the cache afterwards; translated PUSH, CALL and EX (SP),HL and
    the shim's writes to FCBs do neither.  Links between blocks follow the cache.  The code
    emitted for an instruction keeps the Z80 registers in host registers and
    checks a store against the code bitmap itself, calling the same hook from
    an out-of-line slow path, here any function that keeps what the call
    convention keeps ([rejoins]).  The console
    and the CP/M services are reached only through [Host], so the theorems on
    the interpreter and the translator hold for any of them that satisfies
    [HostOk] (stores keep memory within its type).

    What the theorems show, by group:
    - the interpreter is well typed on every input ([steps_preserve_ok]),
      fails in exactly one case ([step_error]) and means what the processor's
      manual says of arithmetic, BCD and block moves ([alu_arithmetic],
      [daa_bcd], [ldir_copies], [ldir_fills], [io_block_ends]);
    - the decoder is local, bounded and total ([decode_local],
      [decode_bounds], [decode_unknown]);
    - the translator's helpers, tables and closed-form loops equal the
      interpreter's operations ([jit_alu_equiv], [jit_unary_equiv],
      [flag_tables_correct], [jit_ldir_equiv], [fold_copy_correct],
      [fold_fill_correct], [fold_filter_correct]); the bits it leaves
      uncomputed are never observed ([liveness_sound]);
    - a live block is current except where it reaches the top of memory or
      a store without the check hit it ([no_stale_code], with both exceptions
      shown: [wrapped_block_survives_stores], [pushed_over];
      [mem_w_invalidates], [sweep_invalidates]), and patched branches follow
      the cache ([registry_partition], [links_follow_cache]);
    - the run loop enters only code emitted for the block at PC, follows that
      protocol and returns as it may ([dbt_run_follows]; what entered code
      computes is left open there), and under -V, with nothing assumed of
      native code, stays in lockstep with the interpreter ([verify_sound]);
    - emitted bytes are the instructions they are meant to be
      ([emitted_instruction]) and branches land ([branches_land]); the code
      of every accepted straight-line instruction takes the picture of a Z80
      state to the picture of the interpreter's next state, on the flags and
      MEMPTR of its masks ([emitted_op_correct]); with the masks the liveness
      pass computes, the code of a stretch of a block does what the
      interpreter does on it ([emitted_stretch_correct]);
    - the screen and the console input: bounds, completeness of the dirty
      mask, layout, the escape collector ([VideoOk]); the ring as a queue, no
      key lost in draining, scripts delivered exactly ([KbdOk]); the terminal
      shows the screen after a flush ([flush_shows_screen]);
    - CP/M services: the machine stays in range whatever a program calls
      ([cpm_steps_in_range]); FCB reads and writes are an array of records
      ([record_file_refines]), a search lists the directory
      ([search_lists_directory]), the line editor and the string printer do
      what they are for and end ([read_line], [print_string]); a program is
      loaded as the CCP would ([loaded_program]); the disk ports of a native
      system store records ([image_records_refine]), and it boots
      ([warm_boot]);
    - disk images: adding a file refines insertion into a map of files and
      fails exactly when the image is full ([files_added], [full_exactly]);
      saving and loading, and adding and extracting, give the files back
      ([saved_image], [extracted]).
    Where the code deviates from its comments or from the processor, the
    definitions follow the code; [wrapped_block_survives_stores],
    [pushed_over], [ret_zero_exits] (RET to 0000 ends a run of the
    interpreter, RET cc and RETN there do not), [parse_text_overflow], [long_name_overruns],
    [buffer_at_80_works_once], [bios_entries] and [ffff_store_loses_byte]
    state such behaviour.

    Conventions.  A w-bit integer is a [Z] with [u8], [u16], [u32], [u64]
    written where the code wraps.  C arrays that are large and sparse are
    maps with a default, small ones lists.  A native code address is an
    offset in the code buffer.  [None] in the console input is the
    emulator's exit.

    Fuel.  Loops inside an interpreter step carry fuel that is shown to be
    enough: BC passes (65536 for 0) for LDIR/LDDR, 256 for the port loops;
    the prefix loop of the decoder is bounded by its own test; the walks over
    link lists take the number of records in use plus one; the filtered copy
    takes any fuel of at least 256 passes; a script's steps are finite and
    every turn passes one; BDOS 9 gets 65536 bytes, past which it has seen
    every address and never ends; the line editor takes the number of keys
    and of waits as arguments, and any that cover the line are enough; a walk
    over an image's extents gets 4097 steps for at most 2049 entries.
    Host code is run over the finite list of instructions its bytes
    disassemble to.  [dbt_run] and the interpreter loop need not end
    (a guest need not), so they carry fuel as an argument and the theorems
    speak of every state they reach.

    Not modelled: the AArch64 backend (emit_a64.h, dbt_a64.c); of the x86-64
    one, what joins the stretches of a block: block tails and edges, the
    return-address stack, the trampoline, link patching in the bytes, the
    code of folded loops and the placing of the slow paths.  So
    [dbt_run_follows] takes entering native code as a parameter, of which it
    assumes only that memory and the cache change by stores and sweeps, and
    [emitted_stretch_correct] says what the straight-line part of a block
    computes; ports and LDIR/LDDR, which call C helpers, are emitted but
    outside it.  Nor: the mmap mirroring of z80_state.c; the
    statistics and diagnostics; the @-command lines of keyboard scripts; the
    option parsing, terminal modes and signal handlers of main.c; the
    printed layout of an image listing; the tools that write fixed test
    programs (mked.c, mkalu.c and the like). *)

From Stdlib Require Import ZArith Lia Bool List.
From stdpp Require Import base gmap list.

#[export] Set Default Goal Selector "!".

(** ** Scope and notation *)

Declare Scope z80_scope.
Delimit Scope z80_scope with z80.
Open Scope Z_scope.

(** C's [&], [|], [^], [<<] and [>>] on the non-negative values the code
    handles; widths are wrapped explicitly with [u8], [u16], ... *)
Notation "a &' b" := (Z.land a b) (at level 40, left associativity) : z80_scope.
Notation "a |' b" := (Z.lor a b) (at level 50, left associativity) : z80_scope.
Notation "a ^' b" := (Z.lxor a b) (at level 50, left associativity) : z80_scope.
Notation "a <<' n" := (Z.shiftl a n) (at level 40, left associativity) : z80_scope.
Notation "a >>' n" := (Z.shiftr a n) (at level 40, left associativity) : z80_scope.
Notation "a &~ b" := (Z.ldiff a b) (at level 40, left associativity) : z80_scope.
Open Scope z80_scope.

(** ** Machine integers *)

(** Conversion to [uint8_t], [uint16_t], [uint32_t], [uint64_t]: wrap-around. *)
Definition u8 (x : Z) : Z := x mod 256.
Definition u16 (x : Z) : Z := x mod 65536.
Definition u32 (x : Z) : Z := x mod 4294967296.
Definition u64 (x : Z) : Z := x mod 18446744073709551616.
(** [(int8_t)] of a byte. *)
Definition s8 (b : Z) : Z := if b <? 128 then b else b - 256.

Definition is_byte (x : Z) : Prop := 0 <= x < 256.
Definition is_word (x : Z) : Prop := 0 <= x < 65536.
Definition is_dword (x : Z) : Prop := 0 <= x < 4294967296.
Definition is_qword (x : Z) : Prop := 0 <= x < 18446744073709551616.

(** A C condition [if (x)] on an integer, and [f |= m] under a condition. *)
Definition nz (x : Z) : bool := negb (x =? 0).
Definition flag_if (b : bool) (m : Z) : Z := if b then m else 0.

Create HintDb z80.

Lemma u8_byte x : is_byte (u8 x).
Proof. apply Z.mod_pos_bound. lia. Qed.
Lemma u16_word x : is_word (u16 x).
Proof. apply Z.mod_pos_bound. lia. Qed.
Lemma u64_qword x : is_qword (u64 x).
Proof. apply Z.mod_pos_bound. lia. Qed.
Lemma u8_id x : is_byte x → u8 x = x.
Proof. intros ?. apply Z.mod_small. done. Qed.
Lemma u16_id x : is_word x → u16 x = x.
Proof. intros ?. apply Z.mod_small. done. Qed.
Lemma u16_add_l x y : u16 (u16 x + y) = u16 (x + y).
Proof. unfold u16. by rewrite Zplus_mod_idemp_l. Qed.
Lemma byte_word x : is_byte x → is_word x.
Proof. unfold is_byte, is_word. lia. Qed.
Lemma byte_0 : is_byte 0. Proof. unfold is_byte. lia. Qed.
Lemma byte_1 : is_byte 1. Proof. unfold is_byte. lia. Qed.
Lemma word_0 : is_word 0. Proof. unfold is_word. lia. Qed.
#[export] Hint Resolve u8_byte u16_word u64_qword byte_word byte_0 byte_1 word_0 : z80.

(** A value below [2^n] is one whose bits from [n] up are clear. *)
Lemma bounded_testbit n x :
  0 <= n → 0 <= x < 2 ^ n ↔ (0 <= x ∧ ∀ i, n <= i → Z.testbit x i = false).
Proof.
  intros Hn. split.
  - intros Hx. split; [lia|]. intros i Hi.
    rewrite <- (Z.mod_small x (2 ^ n)) by done.
    apply Z.mod_pow2_bits_high. lia.
  - intros [Hx Hb]. split; [done|].
    destruct (Z.eq_dec x 0) as [->|]; [apply Z.pow_pos_nonneg; lia|].
    apply Z.log2_lt_pow2; [lia|].
    destruct (Z.lt_ge_cases (Z.log2 x) n) as [|Hge]; [done|].
    pose proof (Z.bit_log2 x ltac:(lia)) as Hl. by rewrite Hb in Hl.
Qed.

Lemma lor_bounded n a b :
  0 <= n → 0 <= a < 2 ^ n → 0 <= b < 2 ^ n → 0 <= a |' b < 2 ^ n.
Proof.
  intros Hn Ha Hb. apply bounded_testbit in Ha as [Ha Ha']; [|done].
  apply bounded_testbit in Hb as [Hb Hb']; [|done].
  apply bounded_testbit; [done|]. split; [apply Z.lor_nonneg; lia|].
  intros i Hi. rewrite Z.lor_spec, Ha', Hb' by done. done.
Qed.

Lemma lxor_bounded n a b :
  0 <= n → 0 <= a < 2 ^ n → 0 <= b < 2 ^ n → 0 <= a ^' b < 2 ^ n.
Proof.
  intros Hn Ha Hb. apply bounded_testbit in Ha as [Ha Ha']; [|done].
  apply bounded_testbit in Hb as [Hb Hb']; [|done].
  apply bounded_testbit; [done|]. split; [apply Z.lxor_nonneg; lia|].
  intros i Hi. rewrite Z.lxor_spec, Ha', Hb' by done. done.
Qed.

Lemma land_bounded n a b : 0 <= n → 0 <= a < 2 ^ n → 0 <= a &' b < 2 ^ n.
Proof.
  intros Hn Ha. apply bounded_testbit in Ha as [Ha Ha']; [|done].
  apply bounded_testbit; [done|]. split; [apply Z.land_nonneg; lia|].
  intros i Hi. rewrite Z.land_spec, Ha' by done. done.
Qed.

Lemma byte_lor a b : is_byte a → is_byte b → is_byte (a |' b).
Proof. apply (lor_bounded 8). lia. Qed.
Lemma byte_lxor a b : is_byte a → is_byte b → is_byte (a ^' b).
Proof. apply (lxor_bounded 8). lia. Qed.
Lemma byte_land a b : is_byte a → is_byte (a &' b).
Proof. apply (land_bounded 8). lia. Qed.
Lemma byte_land_r a b : is_byte b → is_byte (a &' b).
Proof. rewrite Z.land_comm. apply byte_land. Qed.
Lemma word_lor a b : is_word a → is_word b → is_word (a |' b).
Proof. apply (lor_bounded 16). lia. Qed.
Lemma word_land a b : is_word a → is_word (a &' b).
Proof. apply (land_bounded 16). lia. Qed.
Lemma byte_ldiff a b : is_byte a → is_byte (a &~ b).
Proof. rewrite Z.ldiff_land. apply byte_land. Qed.
Lemma byte_flag_if c m : is_byte m → is_byte (flag_if c m).
Proof. destruct c; unfold is_byte; simpl; lia. Qed.
Lemma byte_if (c : bool) a b : is_byte a → is_byte b → is_byte (if c then a else b).
Proof. by destruct c. Qed.
Lemma word_if (c : bool) a b : is_word a → is_word b → is_word (if c then a else b).
Proof. by destruct c. Qed.
#[export] Hint Resolve byte_lor byte_lxor byte_land byte_land_r byte_ldiff word_lor word_land
  byte_flag_if byte_if word_if : z80.

(** Masks and small constants. *)
#[export] Hint Extern 3 (is_byte (Zpos _)) => (unfold is_byte; lia) : z80.
#[export] Hint Extern 3 (is_word (Zpos _)) => (unfold is_word; lia) : z80.

Lemma byte_shr a n : 0 <= n → is_byte a → is_byte (a >>' n).
Proof.
  unfold is_byte. intros Hn Ha. rewrite Z.shiftr_div_pow2 by done.
  split; [apply Z.div_pos; [lia|apply Z.pow_pos_nonneg; lia]|].
  apply Z.le_lt_trans with a; [|lia].
  apply Z.div_le_upper_bound; [apply Z.pow_pos_nonneg; lia|].
  assert (1 <= 2 ^ n) by (apply (Z.pow_le_mono_r 2 0 n); lia). nia.
Qed.
Lemma byte_hi a : is_word a → is_byte (a >>' 8).
Proof.
  unfold is_word, is_byte. rewrite Z.shiftr_div_pow2 by lia. intros.
  change (2 ^ 8) with 256. split; [apply Z.div_pos; lia|apply Z.div_lt_upper_bound; lia].
Qed.
#[export] Hint Resolve byte_hi : z80.
#[export] Hint Extern 2 (is_byte (_ >>' _)) => (apply byte_shr; [lia|]) : z80.

(** ** Little-endian byte pairs: [lo | (hi << 8)] *)

Definition word_of (lo hi : Z) : Z := lo |' (hi <<' 8).

Lemma word_of_add lo hi : is_byte lo → 0 <= hi → word_of lo hi = lo + 256 * hi.
Proof.
  unfold is_byte, word_of. intros Hlo Hhi.
  rewrite Z.shiftl_mul_pow2 by lia. change (2 ^ 8) with 256.
  pose proof (Z.add_lor_land lo (hi * 256)) as Hsum.
  assert (lo &' (hi * 256) = 0) as H0; [|lia].
  apply Z.bits_inj'. intros i Hi.
  rewrite Z.land_spec, Z.bits_0. replace (hi * 256) with (hi * 2 ^ 8) by lia.
  destruct (Z.lt_ge_cases i 8).
  - rewrite (Z.mul_pow2_bits_low hi 8 i) by done. apply andb_false_r.
  - assert (0 <= lo < 2 ^ 8) as [_ ->]%bounded_testbit by lia; [done|lia|done].
Qed.

Lemma word_of_word lo hi : is_byte lo → is_byte hi → is_word (word_of lo hi).
Proof.
  intros Hlo Hhi. rewrite word_of_add; unfold is_byte, is_word in *; lia.
Qed.
#[export] Hint Resolve word_of_word : z80.

Lemma lo_land x : x &' 255 = u8 x.
Proof. change 255 with (Z.ones 8). rewrite Z.land_ones by lia. done. Qed.
Lemma word_land_ffff x : x &' 65535 = u16 x.
Proof. change 65535 with (Z.ones 16). rewrite Z.land_ones by lia. done. Qed.

Lemma word_of_split w : is_word w → word_of (u8 w) (w >>' 8) = w.
Proof.
  intros Hw. rewrite word_of_add; [| apply u8_byte | apply byte_hi in Hw; unfold is_byte in *; lia].
  unfold u8. rewrite Z.shiftr_div_pow2 by lia. change (2 ^ 8) with 256.
  pose proof (Z.div_mod w 256). lia.
Qed.
Lemma word_of_lo lo hi : is_byte lo → is_byte hi → u8 (word_of lo hi) = lo.
Proof.
  intros Hlo Hhi. unfold is_byte in *. rewrite word_of_add by (unfold is_byte; lia).
  unfold u8. rewrite Z.mul_comm, Z_mod_plus_full, Z.mod_small; lia.
Qed.
Lemma word_of_hi lo hi : is_byte lo → is_byte hi → word_of lo hi >>' 8 = hi.
Proof.
  intros Hlo Hhi. unfold is_byte in *. rewrite word_of_add by (unfold is_byte; lia).
  rewrite Z.shiftr_div_pow2 by lia. change (2 ^ 8) with 256.
  rewrite Z.mul_comm, Z.div_add, Z.div_small; lia.
Qed.

Lemma lor_shift_add n a b : 0 <= n → 0 <= a < 2 ^ n → 0 <= b → a |' (b <<' n) = a + b * 2 ^ n.
Proof.
  intros Hn Ha Hb. rewrite Z.shiftl_mul_pow2 by lia. pose proof (Z.add_lor_land a (b * 2 ^ n)) as Hs.
  assert (a &' (b * 2 ^ n) = 0) as E; [|lia].
  apply Z.bits_inj'. intros i Hi. rewrite Z.land_spec, Z.bits_0.
  apply bounded_testbit in Ha as [_ Ha]; [|lia].
  destruct (Z.lt_ge_cases i n); [by rewrite (Z.mul_pow2_bits_low b n i), andb_false_r|by rewrite Ha].
Qed.

(** ** Guest memory: 64 KB of bytes, absent keys read as zero *)

Abbreviation memory := (gmap Z Z).

Definition mget (m : memory) (a : Z) : Z := default 0 (m !! a).
Definition mset (a v : Z) (m : memory) : memory := <[a:=v]> m.

(** [lo | (hi << 8)] of two consecutive bytes, the address wrapping at 64K. *)
Definition mget16 (m : memory) (a : Z) : Z := word_of (mget m (u16 a)) (mget m (u16 (a + 1))).

Definition mem_ok (m : memory) : Prop := ∀ a, is_byte (mget m a).

Lemma mget_mset a b v m : mget (mset a v m) b = if decide (a = b) then v else mget m b.
Proof. unfold mget, mset. rewrite lookup_insert. by case_decide. Qed.
Lemma mget_mset_eq a v m : mget (mset a v m) a = v.
Proof. rewrite mget_mset. by case_decide. Qed.
Lemma mget_mset_ne a b v m : a ≠ b → mget (mset a v m) b = mget m b.
Proof. intros. rewrite mget_mset. by case_decide. Qed.
Lemma mem_ok_empty : mem_ok ∅.
Proof. intros a. unfold mget. rewrite lookup_empty. apply byte_0. Qed.
Lemma mem_ok_mset a v m : mem_ok m → is_byte v → mem_ok (mset a v m).
Proof. intros Hm Hv b. rewrite mget_mset. by case_decide. Qed.
Lemma mget_byte m a : mem_ok m → is_byte (mget m a).
Proof. intros H. apply H. Qed.
Lemma mget16_word m a : mem_ok m → is_word (mget16 m a).
Proof. intros H. apply word_of_word; apply H. Qed.
#[export] Hint Resolve mem_ok_empty mem_ok_mset mget_byte mget16_word : z80.

(** A program image at [a]. *)
Fixpoint mset_list (a : Z) (bs : list Z) (m : memory) : memory :=
  match bs with [] => m | b :: bs => mset_list (a + 1) bs (mset a b m) end.

Lemma mem_ok_mset_list a bs m : mem_ok m → Forall is_byte bs → mem_ok (mset_list a bs m).
Proof.
  intros Hm Hbs. revert a m Hm. induction Hbs; intros a m Hm; simpl; auto with z80.
Qed.
#[export] Hint Resolve mem_ok_mset_list : z80.
#[export] Hint Extern 4 (Forall is_byte _) =>
  (repeat (constructor; [unfold is_byte; lia|]); constructor) : z80.

(** ** Deciding a byte statement by running it on all bytes *)

Fixpoint zseq (start : Z) (n : nat) : list Z :=
  match n with O => [] | S n => start :: zseq (start + 1) n end.

Lemma elem_of_zseq x s n : In x (zseq s n) ↔ s <= x < s + Z.of_nat n.
Proof.
  revert s. induction n as [|n IH]; intros s; simpl; [lia|].
  rewrite IH. lia.
Qed.
Lemma length_zseq s n : length (zseq s n) = n.
Proof. revert s. induction n as [|n IH]; intros s; [done|]. cbn. by rewrite IH. Qed.
Lemma nth_zseq s n i : (i < n)%nat → nth i (zseq s n) 0 = s + Z.of_nat i.
Proof.
  revert s i. induction n as [|n IH]; intros s [|i] Hi; simpl; try lia. rewrite IH by lia. lia.
Qed.
Lemma zseq_snoc s n : zseq s (S n) = zseq s n ++ [s + Z.of_nat n].
Proof.
  revert s. induction n as [|n IH]; intros s; [cbn; by rewrite Z.add_0_r|].
  change (zseq s (S (S n))) with (s :: zseq (s + 1) (S n)). rewrite IH. cbn. do 3 f_equal. lia.
Qed.

Lemma map_zseq_ext (f g : Z → Z) s n :
  (∀ i, s <= i < s + Z.of_nat n → f i = g i) → map f (zseq s n) = map g (zseq s n).
Proof. intros H. apply map_ext_in. intros i Hi. apply H. by apply elem_of_zseq. Qed.

Lemma map_zseq_shift (f : Z → Z) s n : map f (zseq (s + 1) n) = map (λ i, f (i + 1)) (zseq s n).
Proof. revert s. induction n as [|n IH]; intros s; [done|]. cbn. by rewrite IH. Qed.

Definition bytes : list Z := zseq 0 256.

Lemma forall_bytes (P : Z → bool) :
  forallb P bytes = true → ∀ x, is_byte x → P x = true.
Proof.
  intros H x Hx. rewrite forallb_forall in H. apply H.
  apply elem_of_zseq. unfold is_byte in Hx. lia.
Qed.

Lemma forall_bytes2 (P : Z → Z → bool) :
  forallb (λ x, forallb (P x) bytes) bytes = true →
  ∀ x y, is_byte x → is_byte y → P x y = true.
Proof.
  intros H x y Hx Hy. apply (forall_bytes (P x)); [|done].
  by apply (forall_bytes (λ x, forallb (P x) bytes)).
Qed.

Lemma forall_zseq (P : Z → bool) s n :
  forallb P (zseq s n) = true → ∀ x, s <= x < s + Z.of_nat n → P x = true.
Proof. intros H x Hx. rewrite forallb_forall in H. apply H. by apply elem_of_zseq. Qed.

(** Ranges by [eauto] with the library's lemmas. *)
Ltac in_range := eauto 12 with z80.
