(* ===== verification/Cpu.v ===== *)
(** * Cpu: the Z80 context, its registers and the host interface

    The guest-visible part of [z80_cpu_t] (src/core/z80.h), the register
    access helpers of the interpreter (src/core/z80_interp.c), guest memory
    writes, power-on and reset (src/core/z80_state.c), and the class [Host]
    through which the interpreter reaches everything that is not the CPU:
    the translator's store hook, the I/O ports, the console and the CP/M
    call traps.  [cpu_ok] is the width invariant; [HostOk] is what a host
    has to promise for the interpreter to keep it. *)

From Stdlib Require Import ZArith Lia Bool List.
From stdpp Require Import base gmap list.
From S2P Require Import Prelude.

Open Scope Z_scope.
Open Scope z80_scope.

(** ** Flag bits *)

Definition FLAG_S : Z := 0x80.
Definition FLAG_Z : Z := 0x40.
Definition FLAG_5 : Z := 0x20.
Definition FLAG_H : Z := 0x10.
Definition FLAG_3 : Z := 0x08.
Definition FLAG_PV : Z := 0x04.
Definition FLAG_N : Z := 0x02.
Definition FLAG_C : Z := 0x01.
Definition FLAG_35 : Z := FLAG_5 |' FLAG_3.

(** ** The context

    The [af]/[bc]/[de]/[hl] unions are kept as their bytes (little-endian:
    the low register is the second letter); the shadow pairs are only ever
    accessed as 16-bit words.  [memptr] and [rQ] are the internal MEMPTR
    register and the "F was just written" flip-flop. *)

Set Primitive Projections.
Record z80_cpu := mk_cpu {
  rA : Z;
  rF : Z;
  rB : Z;
  rC : Z;
  rD : Z;
  rE : Z;
  rH : Z;
  rL : Z;
  af_ : Z;
  bc_ : Z;
  de_ : Z;
  hl_ : Z;
  rIX : Z;
  rIY : Z;
  rSP : Z;
  rPC : Z;
  rI : Z;
  rR : Z;
  iff1 : Z;
  iff2 : Z;
  im : Z;
  mem : memory;
  host_event : Z;
  defer_traps : Z;
  insn_count : Z;
  r_epoch : Z;
  memptr : Z;
  rQ : Z
}.

Unset Primitive Projections.

Definition set_rA (v : Z) (c : z80_cpu) : z80_cpu :=
  mk_cpu v (rF c) (rB c) (rC c) (rD c) (rE c) (rH c) (rL c) (af_ c) (bc_ c) (de_ c)
    (hl_ c) (rIX c) (rIY c) (rSP c) (rPC c) (rI c) (rR c) (iff1 c) (iff2 c) (im c)
    (mem c) (host_event c) (defer_traps c) (insn_count c) (r_epoch c) (memptr c) (rQ c).
Definition set_rF (v : Z) (c : z80_cpu) : z80_cpu :=
  mk_cpu (rA c) v (rB c) (rC c) (rD c) (rE c) (rH c) (rL c) (af_ c) (bc_ c) (de_ c)
    (hl_ c) (rIX c) (rIY c) (rSP c) (rPC c) (rI c) (rR c) (iff1 c) (iff2 c) (im c)
    (mem c) (host_event c) (defer_traps c) (insn_count c) (r_epoch c) (memptr c) (rQ c).
Definition set_rB (v : Z) (c : z80_cpu) : z80_cpu :=
  mk_cpu (rA c) (rF c) v (rC c) (rD c) (rE c) (rH c) (rL c) (af_ c) (bc_ c) (de_ c)
    (hl_ c) (rIX c) (rIY c) (rSP c) (rPC c) (rI c) (rR c) (iff1 c) (iff2 c) (im c)
    (mem c) (host_event c) (defer_traps c) (insn_count c) (r_epoch c) (memptr c) (rQ c).
Definition set_rC (v : Z) (c : z80_cpu) : z80_cpu :=
  mk_cpu (rA c) (rF c) (rB c) v (rD c) (rE c) (rH c) (rL c) (af_ c) (bc_ c) (de_ c)
    (hl_ c) (rIX c) (rIY c) (rSP c) (rPC c) (rI c) (rR c) (iff1 c) (iff2 c) (im c)
    (mem c) (host_event c) (defer_traps c) (insn_count c) (r_epoch c) (memptr c) (rQ c).
Definition set_rD (v : Z) (c : z80_cpu) : z80_cpu :=
  mk_cpu (rA c) (rF c) (rB c) (rC c) v (rE c) (rH c) (rL c) (af_ c) (bc_ c) (de_ c)
    (hl_ c) (rIX c) (rIY c) (rSP c) (rPC c) (rI c) (rR c) (iff1 c) (iff2 c) (im c)
    (mem c) (host_event c) (defer_traps c) (insn_count c) (r_epoch c) (memptr c) (rQ c).
Definition set_rE (v : Z) (c : z80_cpu) : z80_cpu :=
  mk_cpu (rA c) (rF c) (rB c) (rC c) (rD c) v (rH c) (rL c) (af_ c) (bc_ c) (de_ c)
    (hl_ c) (rIX c) (rIY c) (rSP c) (rPC c) (rI c) (rR c) (iff1 c) (iff2 c) (im c)
    (mem c) (host_event c) (defer_traps c) (insn_count c) (r_epoch c) (memptr c) (rQ c).
Definition set_rH (v : Z) (c : z80_cpu) : z80_cpu :=
  mk_cpu (rA c) (rF c) (rB c) (rC c) (rD c) (rE c) v (rL c) (af_ c) (bc_ c) (de_ c)
    (hl_ c) (rIX c) (rIY c) (rSP c) (rPC c) (rI c) (rR c) (iff1 c) (iff2 c) (im c)
    (mem c) (host_event c) (defer_traps c) (insn_count c) (r_epoch c) (memptr c) (rQ c).
Definition set_rL (v : Z) (c : z80_cpu) : z80_cpu :=
  mk_cpu (rA c) (rF c) (rB c) (rC c) (rD c) (rE c) (rH c) v (af_ c) (bc_ c) (de_ c)
    (hl_ c) (rIX c) (rIY c) (rSP c) (rPC c) (rI c) (rR c) (iff1 c) (iff2 c) (im c)
    (mem c) (host_event c) (defer_traps c) (insn_count c) (r_epoch c) (memptr c) (rQ c).
Definition set_af_ (v : Z) (c : z80_cpu) : z80_cpu :=
  mk_cpu (rA c) (rF c) (rB c) (rC c) (rD c) (rE c) (rH c) (rL c) v (bc_ c) (de_ c)
    (hl_ c) (rIX c) (rIY c) (rSP c) (rPC c) (rI c) (rR c) (iff1 c) (iff2 c) (im c)
    (mem c) (host_event c) (defer_traps c) (insn_count c) (r_epoch c) (memptr c) (rQ c).
Definition set_bc_ (v : Z) (c : z80_cpu) : z80_cpu :=
  mk_cpu (rA c) (rF c) (rB c) (rC c) (rD c) (rE c) (rH c) (rL c) (af_ c) v (de_ c)
    (hl_ c) (rIX c) (rIY c) (rSP c) (rPC c) (rI c) (rR c) (iff1 c) (iff2 c) (im c)
    (mem c) (host_event c) (defer_traps c) (insn_count c) (r_epoch c) (memptr c) (rQ c).
Definition set_de_ (v : Z) (c : z80_cpu) : z80_cpu :=
  mk_cpu (rA c) (rF c) (rB c) (rC c) (rD c) (rE c) (rH c) (rL c) (af_ c) (bc_ c) v
    (hl_ c) (rIX c) (rIY c) (rSP c) (rPC c) (rI c) (rR c) (iff1 c) (iff2 c) (im c)
    (mem c) (host_event c) (defer_traps c) (insn_count c) (r_epoch c) (memptr c) (rQ c).
Definition set_hl_ (v : Z) (c : z80_cpu) : z80_cpu :=
  mk_cpu (rA c) (rF c) (rB c) (rC c) (rD c) (rE c) (rH c) (rL c) (af_ c) (bc_ c) (de_ c)
    v (rIX c) (rIY c) (rSP c) (rPC c) (rI c) (rR c) (iff1 c) (iff2 c) (im c) (mem c)
    (host_event c) (defer_traps c) (insn_count c) (r_epoch c) (memptr c) (rQ c).
Definition set_rIX (v : Z) (c : z80_cpu) : z80_cpu :=
  mk_cpu (rA c) (rF c) (rB c) (rC c) (rD c) (rE c) (rH c) (rL c) (af_ c) (bc_ c) (de_ c)
    (hl_ c) v (rIY c) (rSP c) (rPC c) (rI c) (rR c) (iff1 c) (iff2 c) (im c) (mem c)
    (host_event c) (defer_traps c) (insn_count c) (r_epoch c) (memptr c) (rQ c).
Definition set_rIY (v : Z) (c : z80_cpu) : z80_cpu :=
  mk_cpu (rA c) (rF c) (rB c) (rC c) (rD c) (rE c) (rH c) (rL c) (af_ c) (bc_ c) (de_ c)
    (hl_ c) (rIX c) v (rSP c) (rPC c) (rI c) (rR c) (iff1 c) (iff2 c) (im c) (mem c)
    (host_event c) (defer_traps c) (insn_count c) (r_epoch c) (memptr c) (rQ c).
Definition set_rSP (v : Z) (c : z80_cpu) : z80_cpu :=
  mk_cpu (rA c) (rF c) (rB c) (rC c) (rD c) (rE c) (rH c) (rL c) (af_ c) (bc_ c) (de_ c)
    (hl_ c) (rIX c) (rIY c) v (rPC c) (rI c) (rR c) (iff1 c) (iff2 c) (im c) (mem c)
    (host_event c) (defer_traps c) (insn_count c) (r_epoch c) (memptr c) (rQ c).
Definition set_rPC (v : Z) (c : z80_cpu) : z80_cpu :=
  mk_cpu (rA c) (rF c) (rB c) (rC c) (rD c) (rE c) (rH c) (rL c) (af_ c) (bc_ c) (de_ c)
    (hl_ c) (rIX c) (rIY c) (rSP c) v (rI c) (rR c) (iff1 c) (iff2 c) (im c) (mem c)
    (host_event c) (defer_traps c) (insn_count c) (r_epoch c) (memptr c) (rQ c).
Definition set_rI (v : Z) (c : z80_cpu) : z80_cpu :=
  mk_cpu (rA c) (rF c) (rB c) (rC c) (rD c) (rE c) (rH c) (rL c) (af_ c) (bc_ c) (de_ c)
    (hl_ c) (rIX c) (rIY c) (rSP c) (rPC c) v (rR c) (iff1 c) (iff2 c) (im c) (mem c)
    (host_event c) (defer_traps c) (insn_count c) (r_epoch c) (memptr c) (rQ c).
Definition set_rR (v : Z) (c : z80_cpu) : z80_cpu :=
  mk_cpu (rA c) (rF c) (rB c) (rC c) (rD c) (rE c) (rH c) (rL c) (af_ c) (bc_ c) (de_ c)
    (hl_ c) (rIX c) (rIY c) (rSP c) (rPC c) (rI c) v (iff1 c) (iff2 c) (im c) (mem c)
    (host_event c) (defer_traps c) (insn_count c) (r_epoch c) (memptr c) (rQ c).
Definition set_iff1 (v : Z) (c : z80_cpu) : z80_cpu :=
  mk_cpu (rA c) (rF c) (rB c) (rC c) (rD c) (rE c) (rH c) (rL c) (af_ c) (bc_ c) (de_ c)
    (hl_ c) (rIX c) (rIY c) (rSP c) (rPC c) (rI c) (rR c) v (iff2 c) (im c) (mem c)
    (host_event c) (defer_traps c) (insn_count c) (r_epoch c) (memptr c) (rQ c).
Definition set_iff2 (v : Z) (c : z80_cpu) : z80_cpu :=
  mk_cpu (rA c) (rF c) (rB c) (rC c) (rD c) (rE c) (rH c) (rL c) (af_ c) (bc_ c) (de_ c)
    (hl_ c) (rIX c) (rIY c) (rSP c) (rPC c) (rI c) (rR c) (iff1 c) v (im c) (mem c)
    (host_event c) (defer_traps c) (insn_count c) (r_epoch c) (memptr c) (rQ c).
Definition set_im (v : Z) (c : z80_cpu) : z80_cpu :=
  mk_cpu (rA c) (rF c) (rB c) (rC c) (rD c) (rE c) (rH c) (rL c) (af_ c) (bc_ c) (de_ c)
    (hl_ c) (rIX c) (rIY c) (rSP c) (rPC c) (rI c) (rR c) (iff1 c) (iff2 c) v (mem c)
    (host_event c) (defer_traps c) (insn_count c) (r_epoch c) (memptr c) (rQ c).
Definition set_mem (v : memory) (c : z80_cpu) : z80_cpu :=
  mk_cpu (rA c) (rF c) (rB c) (rC c) (rD c) (rE c) (rH c) (rL c) (af_ c) (bc_ c) (de_ c)
    (hl_ c) (rIX c) (rIY c) (rSP c) (rPC c) (rI c) (rR c) (iff1 c) (iff2 c) (im c) v
    (host_event c) (defer_traps c) (insn_count c) (r_epoch c) (memptr c) (rQ c).
Definition set_host_event (v : Z) (c : z80_cpu) : z80_cpu :=
  mk_cpu (rA c) (rF c) (rB c) (rC c) (rD c) (rE c) (rH c) (rL c) (af_ c) (bc_ c) (de_ c)
    (hl_ c) (rIX c) (rIY c) (rSP c) (rPC c) (rI c) (rR c) (iff1 c) (iff2 c) (im c)
    (mem c) v (defer_traps c) (insn_count c) (r_epoch c) (memptr c) (rQ c).
Definition set_defer_traps (v : Z) (c : z80_cpu) : z80_cpu :=
  mk_cpu (rA c) (rF c) (rB c) (rC c) (rD c) (rE c) (rH c) (rL c) (af_ c) (bc_ c) (de_ c)
    (hl_ c) (rIX c) (rIY c) (rSP c) (rPC c) (rI c) (rR c) (iff1 c) (iff2 c) (im c)
    (mem c) (host_event c) v (insn_count c) (r_epoch c) (memptr c) (rQ c).
Definition set_insn_count (v : Z) (c : z80_cpu) : z80_cpu :=
  mk_cpu (rA c) (rF c) (rB c) (rC c) (rD c) (rE c) (rH c) (rL c) (af_ c) (bc_ c) (de_ c)
    (hl_ c) (rIX c) (rIY c) (rSP c) (rPC c) (rI c) (rR c) (iff1 c) (iff2 c) (im c)
    (mem c) (host_event c) (defer_traps c) v (r_epoch c) (memptr c) (rQ c).
Definition set_r_epoch (v : Z) (c : z80_cpu) : z80_cpu :=
  mk_cpu (rA c) (rF c) (rB c) (rC c) (rD c) (rE c) (rH c) (rL c) (af_ c) (bc_ c) (de_ c)
    (hl_ c) (rIX c) (rIY c) (rSP c) (rPC c) (rI c) (rR c) (iff1 c) (iff2 c) (im c)
    (mem c) (host_event c) (defer_traps c) (insn_count c) v (memptr c) (rQ c).
Definition set_memptr (v : Z) (c : z80_cpu) : z80_cpu :=
  mk_cpu (rA c) (rF c) (rB c) (rC c) (rD c) (rE c) (rH c) (rL c) (af_ c) (bc_ c) (de_ c)
    (hl_ c) (rIX c) (rIY c) (rSP c) (rPC c) (rI c) (rR c) (iff1 c) (iff2 c) (im c)
    (mem c) (host_event c) (defer_traps c) (insn_count c) (r_epoch c) v (rQ c).
Definition set_rQ (v : Z) (c : z80_cpu) : z80_cpu :=
  mk_cpu (rA c) (rF c) (rB c) (rC c) (rD c) (rE c) (rH c) (rL c) (af_ c) (bc_ c) (de_ c)
    (hl_ c) (rIX c) (rIY c) (rSP c) (rPC c) (rI c) (rR c) (iff1 c) (iff2 c) (im c)
    (mem c) (host_event c) (defer_traps c) (insn_count c) (r_epoch c) (memptr c) v.

(** ** Pair views of the byte registers (the unions) *)

Definition rAF (c : z80_cpu) : Z := word_of (rF c) (rA c).
Definition rBC (c : z80_cpu) : Z := word_of (rC c) (rB c).
Definition rDE (c : z80_cpu) : Z := word_of (rE c) (rD c).
Definition rHL (c : z80_cpu) : Z := word_of (rL c) (rH c).
Definition set_AF (v : Z) (c : z80_cpu) : z80_cpu := set_rF (u8 v) (set_rA (v >>' 8) c).
Definition set_BC (v : Z) (c : z80_cpu) : z80_cpu := set_rC (u8 v) (set_rB (v >>' 8) c).
Definition set_DE (v : Z) (c : z80_cpu) : z80_cpu := set_rE (u8 v) (set_rD (v >>' 8) c).
Definition set_HL (v : Z) (c : z80_cpu) : z80_cpu := set_rL (u8 v) (set_rH (v >>' 8) c).

(** ** The width invariant *)

Record cpu_ok (c : z80_cpu) : Prop := {
  ok_rA : is_byte (rA c);
  ok_rF : is_byte (rF c);
  ok_rB : is_byte (rB c);
  ok_rC : is_byte (rC c);
  ok_rD : is_byte (rD c);
  ok_rE : is_byte (rE c);
  ok_rH : is_byte (rH c);
  ok_rL : is_byte (rL c);
  ok_af_ : is_word (af_ c);
  ok_bc_ : is_word (bc_ c);
  ok_de_ : is_word (de_ c);
  ok_hl_ : is_word (hl_ c);
  ok_rIX : is_word (rIX c);
  ok_rIY : is_word (rIY c);
  ok_rSP : is_word (rSP c);
  ok_rPC : is_word (rPC c);
  ok_rI : is_byte (rI c);
  ok_rR : is_byte (rR c);
  ok_iff1 : is_byte (iff1 c);
  ok_iff2 : is_byte (iff2 c);
  ok_im : is_byte (im c);
  ok_mem : mem_ok (mem c);
  ok_host_event : is_byte (host_event c);
  ok_defer_traps : is_byte (defer_traps c);
  ok_insn_count : is_qword (insn_count c);
  ok_r_epoch : is_qword (r_epoch c);
  ok_memptr : is_word (memptr c);
  ok_rQ : is_byte (rQ c)
}.

Lemma ok_set_rA v c : cpu_ok c → is_byte v → cpu_ok (set_rA v c).
Proof. intros [] ?. by constructor. Qed.
Lemma ok_set_rF v c : cpu_ok c → is_byte v → cpu_ok (set_rF v c).
Proof. intros [] ?. by constructor. Qed.
Lemma ok_set_rB v c : cpu_ok c → is_byte v → cpu_ok (set_rB v c).
Proof. intros [] ?. by constructor. Qed.
Lemma ok_set_rC v c : cpu_ok c → is_byte v → cpu_ok (set_rC v c).
Proof. intros [] ?. by constructor. Qed.
Lemma ok_set_rD v c : cpu_ok c → is_byte v → cpu_ok (set_rD v c).
Proof. intros [] ?. by constructor. Qed.
Lemma ok_set_rE v c : cpu_ok c → is_byte v → cpu_ok (set_rE v c).
Proof. intros [] ?. by constructor. Qed.
Lemma ok_set_rH v c : cpu_ok c → is_byte v → cpu_ok (set_rH v c).
Proof. intros [] ?. by constructor. Qed.
Lemma ok_set_rL v c : cpu_ok c → is_byte v → cpu_ok (set_rL v c).
Proof. intros [] ?. by constructor. Qed.
Lemma ok_set_af_ v c : cpu_ok c → is_word v → cpu_ok (set_af_ v c).
Proof. intros [] ?. by constructor. Qed.
Lemma ok_set_bc_ v c : cpu_ok c → is_word v → cpu_ok (set_bc_ v c).
Proof. intros [] ?. by constructor. Qed.
Lemma ok_set_de_ v c : cpu_ok c → is_word v → cpu_ok (set_de_ v c).
Proof. intros [] ?. by constructor. Qed.
Lemma ok_set_hl_ v c : cpu_ok c → is_word v → cpu_ok (set_hl_ v c).
Proof. intros [] ?. by constructor. Qed.
Lemma ok_set_rIX v c : cpu_ok c → is_word v → cpu_ok (set_rIX v c).
Proof. intros [] ?. by constructor. Qed.
Lemma ok_set_rIY v c : cpu_ok c → is_word v → cpu_ok (set_rIY v c).
Proof. intros [] ?. by constructor. Qed.
Lemma ok_set_rSP v c : cpu_ok c → is_word v → cpu_ok (set_rSP v c).
Proof. intros [] ?. by constructor. Qed.
Lemma ok_set_rPC v c : cpu_ok c → is_word v → cpu_ok (set_rPC v c).
Proof. intros [] ?. by constructor. Qed.
Lemma ok_set_rI v c : cpu_ok c → is_byte v → cpu_ok (set_rI v c).
Proof. intros [] ?. by constructor. Qed.
Lemma ok_set_rR v c : cpu_ok c → is_byte v → cpu_ok (set_rR v c).
Proof. intros [] ?. by constructor. Qed.
Lemma ok_set_iff1 v c : cpu_ok c → is_byte v → cpu_ok (set_iff1 v c).
Proof. intros [] ?. by constructor. Qed.
Lemma ok_set_iff2 v c : cpu_ok c → is_byte v → cpu_ok (set_iff2 v c).
Proof. intros [] ?. by constructor. Qed.
Lemma ok_set_im v c : cpu_ok c → is_byte v → cpu_ok (set_im v c).
Proof. intros [] ?. by constructor. Qed.
Lemma ok_set_mem v c : cpu_ok c → mem_ok v → cpu_ok (set_mem v c).
Proof. intros [] ?. by constructor. Qed.
Lemma ok_set_host_event v c : cpu_ok c → is_byte v → cpu_ok (set_host_event v c).
Proof. intros [] ?. by constructor. Qed.
Lemma ok_set_defer_traps v c : cpu_ok c → is_byte v → cpu_ok (set_defer_traps v c).
Proof. intros [] ?. by constructor. Qed.
Lemma ok_set_insn_count v c : cpu_ok c → is_qword v → cpu_ok (set_insn_count v c).
Proof. intros [] ?. by constructor. Qed.
Lemma ok_set_r_epoch v c : cpu_ok c → is_qword v → cpu_ok (set_r_epoch v c).
Proof. intros [] ?. by constructor. Qed.
Lemma ok_set_memptr v c : cpu_ok c → is_word v → cpu_ok (set_memptr v c).
Proof. intros [] ?. by constructor. Qed.
Lemma ok_set_rQ v c : cpu_ok c → is_byte v → cpu_ok (set_rQ v c).
Proof. intros [] ?. by constructor. Qed.
#[export] Hint Resolve ok_set_rA ok_set_rF ok_set_rB ok_set_rC ok_set_rD ok_set_rE
  ok_set_rH ok_set_rL ok_set_af_ ok_set_bc_ ok_set_de_ ok_set_hl_ ok_set_rIX ok_set_rIY
  ok_set_rSP ok_set_rPC ok_set_rI ok_set_rR ok_set_iff1 ok_set_iff2 ok_set_im ok_set_mem
  ok_set_host_event ok_set_defer_traps ok_set_insn_count ok_set_r_epoch ok_set_memptr
  ok_set_rQ : z80.
#[export] Hint Resolve ok_rA ok_rF ok_rB ok_rC ok_rD ok_rE ok_rH ok_rL ok_af_ ok_bc_
  ok_de_ ok_hl_ ok_rIX ok_rIY ok_rSP ok_rPC ok_rI ok_rR ok_iff1 ok_iff2 ok_im ok_mem
  ok_host_event ok_defer_traps ok_insn_count ok_r_epoch ok_memptr ok_rQ : z80.

Lemma ok_rAF c : cpu_ok c → is_word (rAF c).
Proof. intros []. by apply word_of_word. Qed.
Lemma ok_rBC c : cpu_ok c → is_word (rBC c).
Proof. intros []. by apply word_of_word. Qed.
Lemma ok_rDE c : cpu_ok c → is_word (rDE c).
Proof. intros []. by apply word_of_word. Qed.
Lemma ok_rHL c : cpu_ok c → is_word (rHL c).
Proof. intros []. by apply word_of_word. Qed.
Lemma ok_set_AF v c : cpu_ok c → is_word v → cpu_ok (set_AF v c).
Proof. unfold set_AF. in_range. Qed.
Lemma ok_set_BC v c : cpu_ok c → is_word v → cpu_ok (set_BC v c).
Proof. unfold set_BC. in_range. Qed.
Lemma ok_set_DE v c : cpu_ok c → is_word v → cpu_ok (set_DE v c).
Proof. unfold set_DE. in_range. Qed.
Lemma ok_set_HL v c : cpu_ok c → is_word v → cpu_ok (set_HL v c).
Proof. unfold set_HL. in_range. Qed.
#[export] Hint Resolve ok_rAF ok_rBC ok_rDE ok_rHL ok_set_AF ok_set_BC ok_set_DE ok_set_HL : z80.

(** ** The host interface *)

(** The machine the interpreter works on: the CPU context and the rest of
    the emulator's state, of a type [W] the interpreter never looks into. *)
Definition mach (W : Type) : Type := z80_cpu * W.

(** What the interpreter calls outside the CPU.
    - [smc_store a]: what [z80_mem_w] does after a byte landed at [a] (the
      translator's invalidation; nothing when no translator is attached);
    - [port_in_hook], [port_out_hook]: [cpu->port_in], [cpu->port_out],
      [None] for a NULL pointer; arguments port, high address byte (and the
      value for OUT);
    - [console_wait]: [cpm_console_wait];
    - [traps_enabled]: [cpm_traps_enabled];
    - [bdos_dispatch], [bios_dispatch]: [cpm_bdos_dispatch] and
      [cpm_bios_dispatch], [true] to continue the program. *)
Class Host (W : Type) := {
  smc_store : Z → W → W;
  port_in_hook : option (Z → Z → mach W → Z * mach W);
  port_out_hook : option (Z → Z → Z → mach W → mach W);
  console_wait : W → W;
  traps_enabled : W → bool;
  bdos_dispatch : mach W → bool * mach W;
  bios_dispatch : mach W → bool * mach W;
}.

(** What a host promises: its callbacks keep the registers and memory in
    range, a port delivers a byte, and a port callback leaves B alone (no
    device of src/cpm writes the registers; the port loops count in B). *)
Class HostOk (W : Type) `{Host W} : Prop := {
  port_in_ok hook p h c w : port_in_hook = Some hook → cpu_ok c →
    is_byte (hook p h (c, w)).1 ∧ cpu_ok (hook p h (c, w)).2.1;
  port_out_ok hook p h v c w : port_out_hook = Some hook → cpu_ok c →
    cpu_ok (hook p h v (c, w)).1;
  port_in_B hook p h c w : port_in_hook = Some hook → rB (hook p h (c, w)).2.1 = rB c;
  port_out_B hook p h v c w : port_out_hook = Some hook → rB (hook p h v (c, w)).1 = rB c;
  bdos_ok c w : cpu_ok c → cpu_ok (bdos_dispatch (c, w)).2.1;
  bios_ok c w : cpu_ok c → cpu_ok (bios_dispatch (c, w)).2.1;
}.

(** The interpreter with nothing attached: no ports, no translator, no
    traps.  This is the host of the lockstep shadow CPU. *)
#[export] Instance bare_host : Host unit := {|
  smc_store _ w := w;
  port_in_hook := None;
  port_out_hook := None;
  console_wait w := w;
  traps_enabled _ := false;
  bdos_dispatch s := (true, s);
  bios_dispatch s := (true, s);
|}.

#[export] Instance bare_host_ok : HostOk unit.
Proof. by split. Qed.

(** ** Lifting and memory writes *)

(** An operation on the context alone. *)
Definition on_cpu {W} (f : z80_cpu → z80_cpu) (s : mach W) : mach W := (f s.1, s.2).

(** [z80_mem_w]: store the byte, then let the host react to it. *)
Definition mem_w `{Host W} (addr val : Z) (s : mach W) : mach W :=
  (set_mem (mset (u16 addr) val (mem s.1)) s.1, smc_store (u16 addr) s.2).

(** Two bytes, low first: the PUSH/CALL/LD (nn),rr idiom. *)
Definition mem_w16 `{Host W} (addr val : Z) (s : mach W) : mach W :=
  mem_w (u16 (addr + 1)) (val >>' 8) (mem_w addr (u8 val) s).

Lemma ok_mem_w `{Host W} addr val (s : mach W) :
  cpu_ok s.1 → is_byte val → cpu_ok (mem_w addr val s).1.
Proof. destruct s as [c w]. simpl. in_range. Qed.
Lemma ok_mem_w16 `{Host W} addr val (s : mach W) :
  cpu_ok s.1 → is_word val → cpu_ok (mem_w16 addr val s).1.
Proof. intros. unfold mem_w16. apply ok_mem_w; [apply ok_mem_w|]; in_range. Qed.
Lemma ok_on_cpu {W} f (s : mach W) : cpu_ok (f s.1) → cpu_ok (on_cpu f s).1.
Proof. done. Qed.
#[export] Hint Resolve ok_mem_w ok_mem_w16 ok_on_cpu : z80.

(** ** Power-on and reset *)

Definition zero_cpu (m : memory) : z80_cpu :=
  mk_cpu 0 0 0 0 0 0 0 0  0 0 0 0  0 0 0 0  0 0 0 0 0  m  0 0 0 0 0 0.

(** [z80_cpu_init]: everything zero, a fresh zeroed memory, SP at the top,
    interrupt mode 1. *)
Definition z80_cpu_init : z80_cpu := set_im 1 (set_rSP 0xFFFF (zero_cpu ∅)).

(** [z80_cpu_reset]: the same, on the memory the context already has. *)
Definition z80_cpu_reset (c : z80_cpu) : z80_cpu := set_im 1 (set_rSP 0xFFFF (zero_cpu (mem c))).

(** [z80_materialize_flags]: flags are eager, F is what it says. *)
Definition z80_materialize_flags (c : z80_cpu) : Z := rF c.

Lemma zero_cpu_ok m : mem_ok m → cpu_ok (zero_cpu m).
Proof. intros Hm. by constructor. Qed.
Lemma z80_cpu_init_ok : cpu_ok z80_cpu_init.
Proof. unfold z80_cpu_init. pose proof (zero_cpu_ok ∅ mem_ok_empty). in_range. Qed.
Lemma z80_cpu_reset_ok c : cpu_ok c → cpu_ok (z80_cpu_reset c).
Proof.
  intros Hc. unfold z80_cpu_reset. pose proof (zero_cpu_ok (mem c) (ok_mem _ Hc)). in_range.
Qed.
#[export] Hint Resolve z80_cpu_init_ok z80_cpu_reset_ok : z80.

(** ** Reading back a pair *)

Lemma rAF_set_AF v c : is_word v → rAF (set_AF v c) = v.
Proof. intros. by apply word_of_split. Qed.
Lemma rBC_set_BC v c : is_word v → rBC (set_BC v c) = v.
Proof. intros. by apply word_of_split. Qed.
Lemma rDE_set_DE v c : is_word v → rDE (set_DE v c) = v.
Proof. intros. by apply word_of_split. Qed.
Lemma rHL_set_HL v c : is_word v → rHL (set_HL v c) = v.
Proof. intros. by apply word_of_split. Qed.
