(* ===== verification/Decode.v ===== *)
(** * Decode: the instruction decoder (src/core/z80_decode.c)

    [z80_decode_one] with its four parts: the DD/FD prefix loop, the CB and
    ED pages, the indexed (IX+d)/(IY+d) remapping, and the main opcode
    table.  The theorems bound the length it reports and show that its
    answer depends only on the bytes inside that length, the fact the
    translator's per-block invalidation span rests on. *)

From Stdlib Require Import ZArith Lia Bool List.
From stdpp Require Import base gmap list.
From S2P Require Import Prelude Cpu.

Open Scope Z_scope.
Open Scope z80_scope.

(** ** Decoded instructions *)

Inductive z80_op_type : Set :=
  | Z80_OP_UNKNOWN | Z80_OP_NOP | Z80_OP_LD_R_N | Z80_OP_LD_R_R | Z80_OP_LD_RR_NN
  | Z80_OP_LD_HL_N | Z80_OP_LD_A_BC | Z80_OP_LD_A_DE | Z80_OP_LD_A_NN | Z80_OP_LD_BC_A
  | Z80_OP_LD_DE_A | Z80_OP_LD_NN_A | Z80_OP_LD_SP_HL | Z80_OP_PUSH_RR | Z80_OP_POP_RR
  | Z80_OP_ADD_A_R | Z80_OP_ADD_A_N | Z80_OP_SUB_A_R | Z80_OP_SUB_A_N | Z80_OP_AND_A_R
  | Z80_OP_AND_A_N | Z80_OP_OR_A_R | Z80_OP_OR_A_N | Z80_OP_XOR_A_R | Z80_OP_XOR_A_N
  | Z80_OP_CP_A_R | Z80_OP_CP_A_N | Z80_OP_INC_R | Z80_OP_DEC_R | Z80_OP_INC_RR
  | Z80_OP_DEC_RR | Z80_OP_JP_NN | Z80_OP_JP_CC_NN | Z80_OP_JR_E | Z80_OP_JR_CC_E
  | Z80_OP_CALL_NN | Z80_OP_CALL_CC_NN | Z80_OP_RET | Z80_OP_RET_CC | Z80_OP_RST
  | Z80_OP_OUT_N_A | Z80_OP_IN_A_N | Z80_OP_EX_DE_HL | Z80_OP_EX_AF_AF | Z80_OP_EXX
  | Z80_OP_DJNZ | Z80_OP_LDIR | Z80_OP_LDDR | Z80_OP_ADD_HL_RR | Z80_OP_LD_HL_indNN
  | Z80_OP_LD_NN_HL | Z80_OP_CPL | Z80_OP_SCF | Z80_OP_CCF | Z80_OP_DAA | Z80_OP_NEG
  | Z80_OP_LDI | Z80_OP_LDD | Z80_OP_CB | Z80_OP_RLCA | Z80_OP_RRCA | Z80_OP_RLA
  | Z80_OP_RRA | Z80_OP_JP_HL | Z80_OP_LD_A_HL_ind | Z80_OP_LD_HL_A_ind
  | Z80_OP_LD_R_HL_ind | Z80_OP_LD_HL_R_ind | Z80_OP_LD_HL_N_ind | Z80_OP_INC_HL_ind
  | Z80_OP_DEC_HL_ind | Z80_OP_ADD_A_HL_ind | Z80_OP_SUB_A_HL_ind | Z80_OP_AND_A_HL_ind
  | Z80_OP_XOR_A_HL_ind | Z80_OP_OR_A_HL_ind | Z80_OP_CP_A_HL_ind | Z80_OP_LD_A_IXH
  | Z80_OP_LD_A_IXL | Z80_OP_ADC_A_R | Z80_OP_ADC_A_N | Z80_OP_ADC_A_HL_ind
  | Z80_OP_SBC_A_R | Z80_OP_SBC_A_N | Z80_OP_SBC_A_HL_ind | Z80_OP_EX_SP_HL | Z80_OP_DI
  | Z80_OP_EI | Z80_OP_HALT | Z80_OP_ADC_HL_RR | Z80_OP_SBC_HL_RR | Z80_OP_LD_NN_RR
  | Z80_OP_LD_RR_NN_IND | Z80_OP_CPI | Z80_OP_CPD | Z80_OP_CPIR | Z80_OP_CPDR
  | Z80_OP_RRD | Z80_OP_RLD | Z80_OP_IN_R_C | Z80_OP_OUT_C_R | Z80_OP_INI | Z80_OP_IND
  | Z80_OP_INIR | Z80_OP_INDR | Z80_OP_OUTI | Z80_OP_OUTD | Z80_OP_OTIR | Z80_OP_OTDR
  | Z80_OP_IM | Z80_OP_RETN | Z80_OP_LD_I_A | Z80_OP_LD_R_A | Z80_OP_LD_A_I
  | Z80_OP_LD_A_R.

#[export] Instance z80_op_type_eq_dec : EqDecision z80_op_type.
Proof. solve_decision. Defined.

Set Primitive Projections.
Record z80_decoded := mk_dec {
  dtype : z80_op_type;
  prefix : Z;
  opcode : Z;
  reg1 : Z;
  reg2 : Z;
  cc : Z;
  imm16 : Z;
  imm8 : Z;
  disp : Z;      (** [int8_t] *)
  nbytes : Z     (** [bytes], also the return value *)
}.
Unset Primitive Projections.

Definition ty (t : z80_op_type) (d : z80_decoded) : z80_decoded :=
  mk_dec t (prefix d) (opcode d) (reg1 d) (reg2 d) (cc d) (imm16 d) (imm8 d) (disp d) (nbytes d).
Definition r1 (r : Z) (d : z80_decoded) : z80_decoded :=
  mk_dec (dtype d) (prefix d) (opcode d) r (reg2 d) (cc d) (imm16 d) (imm8 d) (disp d) (nbytes d).
Definition r2 (r : Z) (d : z80_decoded) : z80_decoded :=
  mk_dec (dtype d) (prefix d) (opcode d) (reg1 d) r (cc d) (imm16 d) (imm8 d) (disp d) (nbytes d).
Definition on_cc (k : Z) (d : z80_decoded) : z80_decoded :=
  mk_dec (dtype d) (prefix d) (opcode d) (reg1 d) (reg2 d) k (imm16 d) (imm8 d) (disp d) (nbytes d).
Definition i16 (v : Z) (d : z80_decoded) : z80_decoded :=
  mk_dec (dtype d) (prefix d) (opcode d) (reg1 d) (reg2 d) (cc d) v (imm8 d) (disp d) (nbytes d).
Definition i8 (v : Z) (d : z80_decoded) : z80_decoded :=
  mk_dec (dtype d) (prefix d) (opcode d) (reg1 d) (reg2 d) (cc d) (imm16 d) v (disp d) (nbytes d).
Definition dsp (v : Z) (d : z80_decoded) : z80_decoded :=
  mk_dec (dtype d) (prefix d) (opcode d) (reg1 d) (reg2 d) (cc d) (imm16 d) (imm8 d) v (nbytes d).
Definition more (n : Z) (d : z80_decoded) : z80_decoded :=
  mk_dec (dtype d) (prefix d) (opcode d) (reg1 d) (reg2 d) (cc d) (imm16 d) (imm8 d) (disp d)
    (nbytes d + n).

(** The memset-cleared [*out] with the fields every path fills. *)
Definition dec0 (pfx op n : Z) : z80_decoded := mk_dec Z80_OP_UNKNOWN pfx op 0 0 0 0 0 0 n.

(** ** Encodings *)

Definition CC_NZ := 0.
Definition CC_Z := 1.
Definition CC_NC := 2.
Definition CC_C := 3.
Definition CC_PO := 4.
Definition CC_PE := 5.
Definition CC_P := 6.
Definition CC_M := 7.
Definition R_B := 0.
Definition R_C := 1.
Definition R_D := 2.
Definition R_E := 3.
Definition R_H := 4.
Definition R_L := 5.
Definition R_HL_IND := 6.
Definition R_A := 7.
Definition RR_BC := 0.
Definition RR_DE := 1.
Definition RR_HL := 2.
Definition RR_AF := 3.

(** ** Operand bytes: [pc] is the address of the opcode byte *)

Definition rd8 (m : memory) (pc : Z) (d : z80_decoded) : z80_decoded :=
  more 1 (i8 (mget m (u16 (pc + 1))) d).
Definition rddisp (m : memory) (pc : Z) (d : z80_decoded) : z80_decoded :=
  more 1 (dsp (s8 (mget m (u16 (pc + 1)))) d).
Definition rd16 (m : memory) (pc : Z) (d : z80_decoded) : z80_decoded :=
  more 2 (i16 (word_of (mget m (u16 (pc + 1))) (mget m (u16 (pc + 2)))) d).

(** ** The main table *)

(** The [default] arm: the register-coded rows 40-BF, and the immediate
    ALU opcodes once more. *)
Definition decode_default (m : memory) (pc op : Z) (d : z80_decoded) : z80_decoded :=
  if (0x40 <=? op) && (op <=? 0x7F) then r2 (op &' 7) (r1 ((op >>' 3) &' 7) (ty Z80_OP_LD_R_R d))
  else if (0x80 <=? op) && (op <=? 0x87) then r1 (op &' 7) (ty Z80_OP_ADD_A_R d)
  else if (0x88 <=? op) && (op <=? 0x8F) then r1 (op &' 7) (ty Z80_OP_ADC_A_R d)
  else if op =? 0xC6 then rd8 m pc (ty Z80_OP_ADD_A_N d)
  else if op =? 0xCE then rd8 m pc (ty Z80_OP_ADC_A_N d)
  else if (0x90 <=? op) && (op <=? 0x97) then r1 (op &' 7) (ty Z80_OP_SUB_A_R d)
  else if (0x98 <=? op) && (op <=? 0x9F) then r1 (op &' 7) (ty Z80_OP_SBC_A_R d)
  else if op =? 0xD6 then rd8 m pc (ty Z80_OP_SUB_A_N d)
  else if op =? 0xDE then rd8 m pc (ty Z80_OP_SBC_A_N d)
  else if (0xA0 <=? op) && (op <=? 0xA7) then r1 (op &' 7) (ty Z80_OP_AND_A_R d)
  else if op =? 0xE6 then rd8 m pc (ty Z80_OP_AND_A_N d)
  else if (0xB0 <=? op) && (op <=? 0xB7) then r1 (op &' 7) (ty Z80_OP_OR_A_R d)
  else if op =? 0xF6 then rd8 m pc (ty Z80_OP_OR_A_N d)
  else if (0xA8 <=? op) && (op <=? 0xAF) then r1 (op &' 7) (ty Z80_OP_XOR_A_R d)
  else if op =? 0xEE then rd8 m pc (ty Z80_OP_XOR_A_N d)
  else if (0xB8 <=? op) && (op <=? 0xBF) then r1 (op &' 7) (ty Z80_OP_CP_A_R d)
  else if op =? 0xFE then rd8 m pc (ty Z80_OP_CP_A_N d)
  else d.

Definition decode_00_3F (m : memory) (pc op : Z) (d : z80_decoded) : z80_decoded :=
  match op with
  | 0x00 => ty Z80_OP_NOP d
  | 0x01 => rd16 m pc (r1 RR_BC (ty Z80_OP_LD_RR_NN d))
  | 0x02 => ty Z80_OP_LD_BC_A d
  | 0x03 => r1 RR_BC (ty Z80_OP_INC_RR d)
  | 0x04 => r1 R_B (ty Z80_OP_INC_R d)
  | 0x05 => r1 R_B (ty Z80_OP_DEC_R d)
  | 0x06 => rd8 m pc (r1 R_B (ty Z80_OP_LD_R_N d))
  | 0x07 => ty Z80_OP_RLCA d
  | 0x08 => ty Z80_OP_EX_AF_AF d
  | 0x09 => r1 RR_BC (ty Z80_OP_ADD_HL_RR d)
  | 0x0A => ty Z80_OP_LD_A_BC d
  | 0x0B => r1 RR_BC (ty Z80_OP_DEC_RR d)
  | 0x0C => r1 R_C (ty Z80_OP_INC_R d)
  | 0x0D => r1 R_C (ty Z80_OP_DEC_R d)
  | 0x0E => rd8 m pc (r1 R_C (ty Z80_OP_LD_R_N d))
  | 0x0F => ty Z80_OP_RRCA d
  | 0x10 => rddisp m pc (ty Z80_OP_DJNZ d)
  | 0x11 => rd16 m pc (r1 RR_DE (ty Z80_OP_LD_RR_NN d))
  | 0x12 => ty Z80_OP_LD_DE_A d
  | 0x13 => r1 RR_DE (ty Z80_OP_INC_RR d)
  | 0x14 => r1 R_D (ty Z80_OP_INC_R d)
  | 0x15 => r1 R_D (ty Z80_OP_DEC_R d)
  | 0x16 => rd8 m pc (r1 R_D (ty Z80_OP_LD_R_N d))
  | 0x17 => ty Z80_OP_RLA d
  | 0x18 => rddisp m pc (ty Z80_OP_JR_E d)
  | 0x19 => r1 RR_DE (ty Z80_OP_ADD_HL_RR d)
  | 0x1A => ty Z80_OP_LD_A_DE d
  | 0x1B => r1 RR_DE (ty Z80_OP_DEC_RR d)
  | 0x1C => r1 R_E (ty Z80_OP_INC_R d)
  | 0x1D => r1 R_E (ty Z80_OP_DEC_R d)
  | 0x1E => rd8 m pc (r1 R_E (ty Z80_OP_LD_R_N d))
  | 0x1F => ty Z80_OP_RRA d
  | 0x20 => rddisp m pc (on_cc CC_NZ (ty Z80_OP_JR_CC_E d))
  | 0x21 => rd16 m pc (r1 RR_HL (ty Z80_OP_LD_RR_NN d))
  | 0x22 => rd16 m pc (ty Z80_OP_LD_NN_HL d)
  | 0x23 => r1 RR_HL (ty Z80_OP_INC_RR d)
  | 0x24 => r1 R_H (ty Z80_OP_INC_R d)
  | 0x25 => r1 R_H (ty Z80_OP_DEC_R d)
  | 0x26 => rd8 m pc (r1 R_H (ty Z80_OP_LD_R_N d))
  | 0x27 => ty Z80_OP_DAA d
  | 0x28 => rddisp m pc (on_cc CC_Z (ty Z80_OP_JR_CC_E d))
  | 0x29 => r1 RR_HL (ty Z80_OP_ADD_HL_RR d)
  | 0x2A => rd16 m pc (ty Z80_OP_LD_HL_indNN d)
  | 0x2B => r1 RR_HL (ty Z80_OP_DEC_RR d)
  | 0x2C => r1 R_L (ty Z80_OP_INC_R d)
  | 0x2D => r1 R_L (ty Z80_OP_DEC_R d)
  | 0x2E => rd8 m pc (r1 R_L (ty Z80_OP_LD_R_N d))
  | 0x2F => ty Z80_OP_CPL d
  | 0x30 => rddisp m pc (on_cc CC_NC (ty Z80_OP_JR_CC_E d))
  | 0x31 => rd16 m pc (r1 3 (ty Z80_OP_LD_RR_NN d))
  | 0x32 => rd16 m pc (ty Z80_OP_LD_NN_A d)
  | 0x33 => r1 3 (ty Z80_OP_INC_RR d)
  | 0x34 => r1 6 (ty Z80_OP_INC_R d)
  | 0x35 => r1 6 (ty Z80_OP_DEC_R d)
  | 0x36 => rd8 m pc (ty Z80_OP_LD_HL_N d)
  | 0x37 => ty Z80_OP_SCF d
  | 0x38 => rddisp m pc (on_cc CC_C (ty Z80_OP_JR_CC_E d))
  | 0x39 => r1 3 (ty Z80_OP_ADD_HL_RR d)
  | 0x3A => rd16 m pc (ty Z80_OP_LD_A_NN d)
  | 0x3B => r1 3 (ty Z80_OP_DEC_RR d)
  | 0x3C => r1 R_A (ty Z80_OP_INC_R d)
  | 0x3D => r1 R_A (ty Z80_OP_DEC_R d)
  | 0x3E => rd8 m pc (r1 R_A (ty Z80_OP_LD_R_N d))
  | 0x3F => ty Z80_OP_CCF d
  | _ => decode_default m pc op d
  end.

Definition decode_C0_FF (m : memory) (pc op : Z) (d : z80_decoded) : z80_decoded :=
  match op with
  | 0xC0 => on_cc CC_NZ (ty Z80_OP_RET_CC d)
  | 0xC1 => r1 RR_BC (ty Z80_OP_POP_RR d)
  | 0xC2 => rd16 m pc (on_cc CC_NZ (ty Z80_OP_JP_CC_NN d))
  | 0xC3 => rd16 m pc (ty Z80_OP_JP_NN d)
  | 0xC4 => rd16 m pc (on_cc CC_NZ (ty Z80_OP_CALL_CC_NN d))
  | 0xC5 => r1 RR_BC (ty Z80_OP_PUSH_RR d)
  | 0xC6 => rd8 m pc (ty Z80_OP_ADD_A_N d)
  | 0xC7 => i8 0x00 (ty Z80_OP_RST d)
  | 0xC8 => on_cc CC_Z (ty Z80_OP_RET_CC d)
  | 0xC9 => ty Z80_OP_RET d
  | 0xCA => rd16 m pc (on_cc CC_Z (ty Z80_OP_JP_CC_NN d))
  | 0xCC => rd16 m pc (on_cc CC_Z (ty Z80_OP_CALL_CC_NN d))
  | 0xCD => rd16 m pc (ty Z80_OP_CALL_NN d)
  | 0xCE => rd8 m pc (ty Z80_OP_ADC_A_N d)
  | 0xCF => i8 0x08 (ty Z80_OP_RST d)
  | 0xD0 => on_cc CC_NC (ty Z80_OP_RET_CC d)
  | 0xD1 => r1 RR_DE (ty Z80_OP_POP_RR d)
  | 0xD2 => rd16 m pc (on_cc CC_NC (ty Z80_OP_JP_CC_NN d))
  | 0xD3 => rd8 m pc (ty Z80_OP_OUT_N_A d)
  | 0xD4 => rd16 m pc (on_cc CC_NC (ty Z80_OP_CALL_CC_NN d))
  | 0xD5 => r1 RR_DE (ty Z80_OP_PUSH_RR d)
  | 0xD6 => rd8 m pc (ty Z80_OP_SUB_A_N d)
  | 0xD7 => i8 0x10 (ty Z80_OP_RST d)
  | 0xD8 => on_cc CC_C (ty Z80_OP_RET_CC d)
  | 0xD9 => ty Z80_OP_EXX d
  | 0xDA => rd16 m pc (on_cc CC_C (ty Z80_OP_JP_CC_NN d))
  | 0xDB => rd8 m pc (ty Z80_OP_IN_A_N d)
  | 0xDC => rd16 m pc (on_cc CC_C (ty Z80_OP_CALL_CC_NN d))
  | 0xDE => rd8 m pc (ty Z80_OP_SBC_A_N d)
  | 0xDF => i8 0x18 (ty Z80_OP_RST d)
  | 0xE0 => on_cc CC_PO (ty Z80_OP_RET_CC d)
  | 0xE1 => r1 RR_HL (ty Z80_OP_POP_RR d)
  | 0xE2 => rd16 m pc (on_cc CC_PO (ty Z80_OP_JP_CC_NN d))
  | 0xE3 => ty Z80_OP_EX_SP_HL d
  | 0xE4 => rd16 m pc (on_cc CC_PO (ty Z80_OP_CALL_CC_NN d))
  | 0xE5 => r1 RR_HL (ty Z80_OP_PUSH_RR d)
  | 0xE6 => rd8 m pc (ty Z80_OP_AND_A_N d)
  | 0xE7 => i8 0x20 (ty Z80_OP_RST d)
  | 0xE8 => on_cc CC_PE (ty Z80_OP_RET_CC d)
  | 0xE9 => ty Z80_OP_JP_HL d
  | 0xEA => rd16 m pc (on_cc CC_PE (ty Z80_OP_JP_CC_NN d))
  | 0xEB => ty Z80_OP_EX_DE_HL d
  | 0xEC => rd16 m pc (on_cc CC_PE (ty Z80_OP_CALL_CC_NN d))
  | 0xEE => rd8 m pc (ty Z80_OP_XOR_A_N d)
  | 0xEF => i8 0x28 (ty Z80_OP_RST d)
  | 0xF0 => on_cc CC_P (ty Z80_OP_RET_CC d)
  | 0xF1 => r1 RR_AF (ty Z80_OP_POP_RR d)
  | 0xF2 => rd16 m pc (on_cc CC_P (ty Z80_OP_JP_CC_NN d))
  | 0xF3 => ty Z80_OP_DI d
  | 0xF4 => rd16 m pc (on_cc CC_P (ty Z80_OP_CALL_CC_NN d))
  | 0xF5 => r1 RR_AF (ty Z80_OP_PUSH_RR d)
  | 0xF6 => rd8 m pc (ty Z80_OP_OR_A_N d)
  | 0xF7 => i8 0x30 (ty Z80_OP_RST d)
  | 0xF8 => on_cc CC_M (ty Z80_OP_RET_CC d)
  | 0xF9 => ty Z80_OP_LD_SP_HL d
  | 0xFA => rd16 m pc (on_cc CC_M (ty Z80_OP_JP_CC_NN d))
  | 0xFB => ty Z80_OP_EI d
  | 0xFC => rd16 m pc (on_cc CC_M (ty Z80_OP_CALL_CC_NN d))
  | 0xFE => rd8 m pc (ty Z80_OP_CP_A_N d)
  | 0xFF => i8 0x38 (ty Z80_OP_RST d)
  | _ => decode_default m pc op d
  end.

Definition decode_main (m : memory) (pc op : Z) (d : z80_decoded) : z80_decoded :=
  if op <? 0x40 then decode_00_3F m pc op d
  else if op =? 0x76 then ty Z80_OP_HALT d
  else if op <? 0xC0 then decode_default m pc op d
  else decode_C0_FF m pc op d.

(** ** The ED page *)

Definition im_mode (k : Z) : Z := match k with 2 => 1 | 3 => 2 | _ => 0 end.

Definition decode_ed (m : memory) (pc op : Z) (d : z80_decoded) : z80_decoded :=
  match op with
  | 0x42 => r1 RR_BC (ty Z80_OP_SBC_HL_RR d)
  | 0x52 => r1 RR_DE (ty Z80_OP_SBC_HL_RR d)
  | 0x62 => r1 RR_HL (ty Z80_OP_SBC_HL_RR d)
  | 0x72 => r1 3 (ty Z80_OP_SBC_HL_RR d)
  | 0x4A => r1 RR_BC (ty Z80_OP_ADC_HL_RR d)
  | 0x5A => r1 RR_DE (ty Z80_OP_ADC_HL_RR d)
  | 0x6A => r1 RR_HL (ty Z80_OP_ADC_HL_RR d)
  | 0x7A => r1 3 (ty Z80_OP_ADC_HL_RR d)
  | 0x43 | 0x53 | 0x63 | 0x73 => rd16 m pc (r1 ((op >>' 4) - 4) (ty Z80_OP_LD_NN_RR d))
  | 0x4B | 0x5B | 0x6B | 0x7B => rd16 m pc (r1 ((op >>' 4) - 4) (ty Z80_OP_LD_RR_NN_IND d))
  | 0x44 | 0x4C | 0x54 | 0x5C | 0x64 | 0x6C | 0x74 | 0x7C => ty Z80_OP_NEG d
  | 0x45 | 0x4D | 0x55 | 0x5D | 0x65 | 0x6D | 0x75 | 0x7D => ty Z80_OP_RETN d
  | 0x46 | 0x4E | 0x56 | 0x5E | 0x66 | 0x6E | 0x76 | 0x7E => i8 (im_mode ((op >>' 3) &' 3)) (ty Z80_OP_IM d)
  | 0x47 => ty Z80_OP_LD_I_A d
  | 0x4F => ty Z80_OP_LD_R_A d
  | 0x57 => ty Z80_OP_LD_A_I d
  | 0x5F => ty Z80_OP_LD_A_R d
  | 0x67 => ty Z80_OP_RRD d
  | 0x6F => ty Z80_OP_RLD d
  | 0xA0 => ty Z80_OP_LDI d
  | 0xA1 => ty Z80_OP_CPI d
  | 0xA8 => ty Z80_OP_LDD d
  | 0xA9 => ty Z80_OP_CPD d
  | 0xB0 => ty Z80_OP_LDIR d
  | 0xB1 => ty Z80_OP_CPIR d
  | 0xB8 => ty Z80_OP_LDDR d
  | 0xB9 => ty Z80_OP_CPDR d
  | 0xA2 => ty Z80_OP_INI d
  | 0xAA => ty Z80_OP_IND d
  | 0xB2 => ty Z80_OP_INIR d
  | 0xBA => ty Z80_OP_INDR d
  | 0xA3 => ty Z80_OP_OUTI d
  | 0xAB => ty Z80_OP_OUTD d
  | 0xB3 => ty Z80_OP_OTIR d
  | 0xBB => ty Z80_OP_OTDR d
  | _ =>
    if (op &' 0xC7) =? 0x40 then r1 ((op >>' 3) &' 7) (ty Z80_OP_IN_R_C d)
    else if (op &' 0xC7) =? 0x41 then r1 ((op >>' 3) &' 7) (ty Z80_OP_OUT_C_R d)
    else ty Z80_OP_NOP d
  end.

(** ** DD/FD: which opcodes take a displacement, and what they become *)

Definition needs_disp (op : Z) : bool :=
  match op with
  | 0x34 | 0x35 | 0x36
  | 0x46 | 0x4E | 0x56 | 0x5E | 0x66 | 0x6E | 0x7E
  | 0x70 | 0x71 | 0x72 | 0x73 | 0x74 | 0x75 | 0x77
  | 0x86 | 0x8E | 0x96 | 0x9E | 0xA6 | 0xAE | 0xB6 | 0xBE => true
  | _ => false
  end.

(** The remapping switch; [pc] is past the displacement when there is one.
    [None]: not remapped, the main table decides. *)
Definition decode_idx (m : memory) (pc op : Z) (d : z80_decoded) : option z80_decoded :=
  match op with
  | 0x7E => Some (r1 6 (ty Z80_OP_LD_A_HL_ind d))
  | 0x77 => Some (r1 6 (ty Z80_OP_LD_HL_A_ind d))
  | 0x46 | 0x4E | 0x56 | 0x5E | 0x66 | 0x6E =>
      Some (r2 ((op >>' 3) &' 7) (r1 6 (ty Z80_OP_LD_R_HL_ind d)))
  | 0x70 | 0x71 | 0x72 | 0x73 | 0x74 | 0x75 =>
      Some (r2 (op &' 7) (r1 6 (ty Z80_OP_LD_HL_R_ind d)))
  | 0x34 => Some (r1 6 (ty Z80_OP_INC_HL_ind d))
  | 0x35 => Some (r1 6 (ty Z80_OP_DEC_HL_ind d))
  | 0x36 => Some (more 1 (i8 (mget m (u16 pc)) (r1 6 (ty Z80_OP_LD_HL_N_ind d))))
  | 0x86 => Some (r1 6 (ty Z80_OP_ADD_A_HL_ind d))
  | 0x8E => Some (r1 6 (ty Z80_OP_ADC_A_HL_ind d))
  | 0x96 => Some (r1 6 (ty Z80_OP_SUB_A_HL_ind d))
  | 0x9E => Some (r1 6 (ty Z80_OP_SBC_A_HL_ind d))
  | 0xA6 => Some (r1 6 (ty Z80_OP_AND_A_HL_ind d))
  | 0xAE => Some (r1 6 (ty Z80_OP_XOR_A_HL_ind d))
  | 0xB6 => Some (r1 6 (ty Z80_OP_OR_A_HL_ind d))
  | 0xBE => Some (r1 6 (ty Z80_OP_CP_A_HL_ind d))
  | 0x7C => Some (ty Z80_OP_LD_A_IXH d)
  | 0x7D => Some (ty Z80_OP_LD_A_IXL d)
  | 0xE1 => Some (r1 4 (ty Z80_OP_POP_RR d))
  | 0xE5 => Some (r1 4 (ty Z80_OP_PUSH_RR d))
  | _ => None
  end.

(** H and L of the register-only forms name the index register's halves. *)
Definition half_code (r : Z) : Z := if r =? 4 then 8 else if r =? 5 then 9 else r.
Definition half_remap (d : z80_decoded) : z80_decoded :=
  match dtype d with
  | Z80_OP_LD_R_R | Z80_OP_LD_R_N | Z80_OP_INC_R | Z80_OP_DEC_R
  | Z80_OP_ADD_A_R | Z80_OP_ADC_A_R | Z80_OP_SUB_A_R | Z80_OP_SBC_A_R
  | Z80_OP_AND_A_R | Z80_OP_OR_A_R | Z80_OP_XOR_A_R | Z80_OP_CP_A_R =>
      r2 (half_code (reg2 d)) (r1 (half_code (reg1 d)) d)
  | _ => d
  end.

(** ** The decoder *)

(** Consume up to [k] leading DD/FD bytes, the last one winning.
    Returns the prefix, the address and value of the first other byte, and
    the bytes consumed so far. *)
Fixpoint skip_prefixes (k : nat) (m : memory) (pfx pc n : Z) : Z * Z * Z :=
  let op := mget m (u16 pc) in
  match k with
  | O => (pfx, pc, n)
  | S k =>
      if (op =? 0xDD) || (op =? 0xFD) then skip_prefixes k m op (u16 (pc + 1)) (n + 1)
      else (pfx, pc, n)
  end.

Definition decode_cb (m : memory) (pfx pc n : Z) : z80_decoded :=
  let d :=
    if nz pfx then
      more 2 (i8 (mget m (u16 (pc + 2))) (dsp (s8 (mget m (u16 (pc + 1)))) (dec0 pfx 0 n)))
    else more 1 (i8 (mget m (u16 (pc + 1))) (dec0 0xCB 0 n)) in
  mk_dec Z80_OP_CB (prefix d) (imm8 d) 0 0 0 0 (imm8 d) (disp d) (nbytes d).

(** A DD/FD-prefixed opcode: the displacement first, then the remapping
    switch, then the main table with H/L naming the index register's halves. *)
Definition decode_indexed (m : memory) (pfx pc op n : Z) : z80_decoded :=
  let d := dec0 pfx op n in
  let '(d, pc) :=
    if needs_disp op then (more 1 (dsp (s8 (mget m (u16 (pc + 1)))) d), u16 (pc + 2))
    else (d, pc) in
  match decode_idx m pc op d with
  | Some d => d
  | None => half_remap (decode_main m pc op d)
  end.

(** The function's body after the prefix loop. *)
Definition decode_opcode (m : memory) (pfx pc n : Z) : z80_decoded :=
  let op := mget m (u16 pc) in
  if op =? 0xCB then decode_cb m pfx pc n
  else if op =? 0xED then
    let pc := u16 (pc + 1) in
    let op := mget m (u16 pc) in
    decode_ed m pc op (dec0 0xED op (n + 1))
  else if (pfx =? 0xDD) || (pfx =? 0xFD) then decode_indexed m pfx pc op n
  else decode_main m pc op (dec0 pfx op n).

Definition z80_decode_one (m : memory) (pc0 : Z) : z80_decoded :=
  let '(pfx, pc, n) := skip_prefixes 4 m 0 pc0 1 in
  decode_opcode m pfx pc n.

(** ** Field ranges *)

(** [b]: a bound on the bytes consumed so far. *)
Record dec_ok (b : Z) (d : z80_decoded) : Prop := {
  ok_prefix : is_byte (prefix d);
  ok_opcode : is_byte (opcode d);
  ok_reg1 : 0 <= reg1 d <= 9;
  ok_reg2 : 0 <= reg2 d <= 9;
  ok_cc : 0 <= cc d <= 7;
  ok_imm16 : is_word (imm16 d);
  ok_imm8 : is_byte (imm8 d);
  ok_disp : -128 <= disp d <= 127;
  ok_nbytes : 1 <= nbytes d <= b
}.

Section DecodeOk.
Context (m : memory) (Hm : mem_ok m).

Lemma dec_ok_weaken b b' d : dec_ok b d → b <= b' → dec_ok b' d.
Proof. intros [] ?. constructor; try done. lia. Qed.
Lemma dec_ok_dec0 p o n : is_byte p → is_byte o → 1 <= n → dec_ok n (dec0 p o n).
Proof. intros. constructor; simpl; unfold is_byte, is_word in *; lia. Qed.
Lemma dec_ok_ty b t d : dec_ok b d → dec_ok b (ty t d).
Proof. intros []. by constructor. Qed.
Lemma dec_ok_r1 b r d : dec_ok b d → 0 <= r <= 9 → dec_ok b (r1 r d).
Proof. intros []. by constructor. Qed.
Lemma dec_ok_r2 b r d : dec_ok b d → 0 <= r <= 9 → dec_ok b (r2 r d).
Proof. intros []. by constructor. Qed.
Lemma dec_ok_on_cc b k d : dec_ok b d → 0 <= k <= 7 → dec_ok b (on_cc k d).
Proof. intros []. by constructor. Qed.
Lemma dec_ok_i8 b v d : dec_ok b d → is_byte v → dec_ok b (i8 v d).
Proof. intros []. by constructor. Qed.
Lemma s8_range b : is_byte b → -128 <= s8 b <= 127.
Proof. unfold s8, is_byte. destruct (Z.ltb_spec b 128); lia. Qed.
Lemma dec_ok_more b v d : dec_ok (b - v) d → 0 <= v → dec_ok b (more v d).
Proof. intros [] ?. constructor; try done. simpl. lia. Qed.
Lemma dec_ok_dsp b v d : dec_ok b d → is_byte v → dec_ok b (dsp (s8 v) d).
Proof. intros [] Hv%s8_range. by constructor. Qed.
Lemma dec_ok_rd8 b pc d : dec_ok (b - 1) d → dec_ok b (rd8 m pc d).
Proof. intros. apply dec_ok_more; [|lia]. apply dec_ok_i8; in_range. Qed.
Lemma dec_ok_rddisp b pc d : dec_ok (b - 1) d → dec_ok b (rddisp m pc d).
Proof. intros. apply dec_ok_more; [|lia]. apply dec_ok_dsp; in_range. Qed.
Lemma dec_ok_rd16 b pc d : dec_ok (b - 2) d → dec_ok b (rd16 m pc d).
Proof.
  intros []. apply dec_ok_more; [|lia]. constructor; simpl; try done. in_range.
Qed.
Lemma low3_range a : 0 <= a &' 7 <= 9.
Proof. change 7 with (Z.ones 3). rewrite Z.land_ones by lia. pose proof (Z.mod_pos_bound a (2^3)). lia. Qed.

#[local] Hint Resolve dec_ok_ty dec_ok_r1 dec_ok_r2 dec_ok_on_cc dec_ok_i8 dec_ok_rd8
  dec_ok_rddisp dec_ok_rd16 low3_range : z80.
#[local] Hint Extern 4 (_ <= _ <= _) => (unfold RR_BC, RR_DE, RR_HL, RR_AF, R_B, R_C, R_D,
  R_E, R_H, R_L, R_A, CC_NZ, CC_Z, CC_NC, CC_C, CC_PO, CC_PE, CC_P, CC_M; lia) : z80.
#[local] Hint Extern 8 (dec_ok _ _) => (eapply dec_ok_weaken; [eassumption|lia]) : z80.

Lemma dec_ok_default b pc op d : dec_ok (b - 2) d → dec_ok b (decode_default m pc op d).
Proof. intros. unfold decode_default. repeat case_match; eauto 6 with z80. Qed.
#[local] Hint Resolve dec_ok_default : z80.

Lemma dec_ok_00_3F b pc op d : dec_ok (b - 2) d → dec_ok b (decode_00_3F m pc op d).
Proof. intros. unfold decode_00_3F. repeat case_match; eauto 6 with z80. Qed.
Lemma dec_ok_C0_FF b pc op d : dec_ok (b - 2) d → dec_ok b (decode_C0_FF m pc op d).
Proof. intros. unfold decode_C0_FF. repeat case_match; eauto 6 with z80. Qed.
#[local] Hint Resolve dec_ok_00_3F dec_ok_C0_FF : z80.
Lemma dec_ok_main b pc op d : dec_ok (b - 2) d → dec_ok b (decode_main m pc op d).
Proof. intros. unfold decode_main. repeat case_match; eauto with z80. Qed.

Lemma im_mode_byte k : is_byte (im_mode k).
Proof. unfold im_mode. repeat case_match; in_range. Qed.
#[local] Hint Resolve im_mode_byte : z80.
#[local] Hint Extern 3 (_ <= (_ >>' _) - _ <= _) => (vm_compute; split; discriminate) : z80.
Lemma dec_ok_ed b pc op d : dec_ok (b - 2) d → dec_ok b (decode_ed m pc op d).
Proof. intros. unfold decode_ed. repeat case_match; subst; eauto 6 with z80. Qed.

Lemma dec_ok_idx b pc op d d' :
  dec_ok (b - 1) d → decode_idx m pc op d = Some d' → dec_ok b d'.
Proof.
  intros Hd. unfold decode_idx.
  repeat case_match; intros; simplify_eq; eauto 6 using dec_ok_more, mget_byte with z80 lia.
Qed.

Lemma half_code_range r : 0 <= r <= 9 → 0 <= half_code r <= 9.
Proof. unfold half_code. repeat case_match; lia. Qed.
Lemma dec_ok_half b d : dec_ok b d → dec_ok b (half_remap d).
Proof.
  intros Hd. unfold half_remap. pose proof (half_code_range _ (ok_reg1 _ _ Hd)).
  pose proof (half_code_range _ (ok_reg2 _ _ Hd)). case_match; eauto with z80.
Qed.
End DecodeOk.

(** ** The prefix loop *)

Definition is_idx (p : Z) : bool := (p =? 0xDD) || (p =? 0xFD).

Lemma skip_prefixes_spec k m pfx pc n p pc' n' :
  is_word pc → skip_prefixes k m pfx pc n = (p, pc', n') →
  n <= n' <= n + Z.of_nat k ∧ pc' = u16 (pc + (n' - n)) ∧ is_word pc' ∧
  (∀ j, 0 <= j < n' - n → is_idx (mget m (u16 (pc + j))) = true) ∧
  (n' < n + Z.of_nat k → is_idx (mget m (u16 pc')) = false) ∧
  p = (if decide (n' = n) then pfx else mget m (u16 (pc + (n' - n - 1)))).
Proof.
  revert pfx pc n. induction k as [|k IH]; intros pfx pc n Hpc; simpl.
  - intros [= <- <- <-]. rewrite Z.sub_diag.
    split_and!; try lia; try done; [by rewrite Z.add_0_r, u16_id|by rewrite decide_True].
  - fold (is_idx (mget m (u16 pc))). destruct (is_idx (mget m (u16 pc))) eqn:Hi.
    + intros H. apply IH in H as (Hn & Hpc' & Hw & Hall & Hlast & Hp); [|in_range].
      rewrite u16_add_l in Hpc'. replace (pc + 1 + (n' - (n + 1))) with (pc + (n' - n)) in Hpc' by lia.
      split_and!; try lia; try done.
      * intros j Hj. destruct (Z.eq_dec j 0) as [->|]; [by rewrite Z.add_0_r|].
        specialize (Hall (j - 1) ltac:(lia)). rewrite u16_add_l in Hall.
        by replace (pc + 1 + (j - 1)) with (pc + j) in Hall by lia.
      * intros. apply Hlast. lia.
      * rewrite Hp, (decide_False (P := n' = n)) by lia. rewrite u16_add_l.
        replace (pc + 1 + (n' - (n + 1) - 1)) with (pc + (n' - n - 1)) by lia.
        case_decide; [|done]. subst. do 2 f_equal. lia.
    + intros [= <- <- <-]. rewrite Z.sub_diag.
      split_and!; try lia; try done.
      * by rewrite Z.add_0_r, u16_id.
      * by rewrite decide_True.
Qed.

(** ** Length and field ranges of the answer *)

Lemma dec_ok_indexed m pfx pc op n :
  mem_ok m → is_byte pfx → is_byte op → 1 <= n <= 5 → dec_ok 8 (decode_indexed m pfx pc op n).
Proof.
  intros Hm Hp Ho Hn. unfold decode_indexed.
  assert (dec_ok 5 (dec0 pfx op n)) as Hd
    by (apply (dec_ok_weaken n); [apply dec_ok_dec0; in_range; lia|lia]).
  destruct (needs_disp _).
  - assert (dec_ok 6 (more 1 (dsp (s8 (mget m (u16 (pc + 1)))) (dec0 pfx op n)))) as Hd'
      by (apply dec_ok_more; [|lia]; apply dec_ok_dsp; in_range).
    case_match.
    + apply (dec_ok_weaken 7); [eapply dec_ok_idx; [done| |eassumption]|lia]. done.
    + apply dec_ok_half, dec_ok_main; done.
  - case_match.
    + apply (dec_ok_weaken 6); [eapply dec_ok_idx; [done| |eassumption]|lia]. done.
    + apply dec_ok_half, dec_ok_main; [done|]. by eapply dec_ok_weaken; [eassumption|lia].
Qed.

Lemma dec_ok_opcode m pfx pc n :
  mem_ok m → is_byte pfx → 1 <= n <= 5 → dec_ok 8 (decode_opcode m pfx pc n).
Proof.
  intros Hm Hp Hn. unfold decode_opcode. case_match.
  { unfold decode_cb. destruct (nz pfx); constructor; simpl; try done; try in_range; try lia.
    all: try (unfold is_word; lia). apply s8_range; in_range. }
  case_match.
  { apply dec_ok_ed; [done|].
    apply (dec_ok_weaken (n + 1)); [apply dec_ok_dec0; in_range; lia|lia]. }
  case_match; [apply dec_ok_indexed; in_range|].
  apply dec_ok_main; [done|].
  apply (dec_ok_weaken n); [apply dec_ok_dec0; in_range; lia|lia].
Qed.

Lemma decode_ok m pc : mem_ok m → is_word pc → dec_ok 8 (z80_decode_one m pc).
Proof.
  intros Hm Hpc. unfold z80_decode_one.
  destruct (skip_prefixes 4 m 0 pc 1) as [[pfx pc'] n] eqn:Hs.
  apply skip_prefixes_spec in Hs as (Hn & _ & _ & _ & _ & Hp); [|done]. simpl in Hn.
  apply dec_ok_opcode; [done| |lia]. rewrite Hp. case_decide; in_range.
Qed.

(** ** The answer depends only on the bytes it covers *)

Section Locality.
Context (m1 m2 : memory).

(** The operand bytes of an opcode at [pc] agree up to offset [n]. *)
Definition operands_agree (pc n : Z) : Prop :=
  ∀ j, 1 <= j <= n → mget m2 (u16 (pc + j)) = mget m1 (u16 (pc + j)).

Ltac local_op H :=
  unfold rd8, rddisp, rd16 in *; simpl in *;
  repeat (rewrite H by (simpl in *; lia)); reflexivity.

Lemma decode_default_local pc op d :
  operands_agree pc (nbytes (decode_default m1 pc op d) - nbytes d) →
  decode_default m2 pc op d = decode_default m1 pc op d.
Proof. unfold decode_default. intros H. repeat case_match; local_op H. Qed.

Lemma decode_00_3F_local pc op d :
  operands_agree pc (nbytes (decode_00_3F m1 pc op d) - nbytes d) →
  decode_00_3F m2 pc op d = decode_00_3F m1 pc op d.
Proof.
  unfold decode_00_3F. intros H.
  repeat case_match; try (by apply decode_default_local); local_op H.
Qed.

Lemma decode_C0_FF_local pc op d :
  operands_agree pc (nbytes (decode_C0_FF m1 pc op d) - nbytes d) →
  decode_C0_FF m2 pc op d = decode_C0_FF m1 pc op d.
Proof.
  unfold decode_C0_FF. intros H.
  repeat case_match; try (by apply decode_default_local); local_op H.
Qed.

Lemma decode_main_local pc op d :
  operands_agree pc (nbytes (decode_main m1 pc op d) - nbytes d) →
  decode_main m2 pc op d = decode_main m1 pc op d.
Proof.
  unfold decode_main. repeat case_match;
    auto using decode_00_3F_local, decode_default_local, decode_C0_FF_local.
Qed.

Lemma decode_ed_local pc op d :
  operands_agree pc (nbytes (decode_ed m1 pc op d) - nbytes d) →
  decode_ed m2 pc op d = decode_ed m1 pc op d.
Proof. unfold decode_ed. intros H. repeat case_match; local_op H. Qed.
End Locality.

Lemma decode_default_grows m pc op d : nbytes d <= nbytes (decode_default m pc op d).
Proof. unfold decode_default. repeat case_match; simpl; lia. Qed.
Lemma decode_main_grows m pc op d : nbytes d <= nbytes (decode_main m pc op d).
Proof.
  unfold decode_main, decode_00_3F, decode_C0_FF.
  repeat case_match; try apply decode_default_grows; simpl; lia.
Qed.
Lemma decode_ed_grows m pc op d : nbytes d <= nbytes (decode_ed m pc op d).
Proof. unfold decode_ed. repeat case_match; simpl; lia. Qed.
Lemma decode_idx_local m1 m2 pc op d :
  match decode_idx m1 pc op d with
  | Some d' => nbytes d <= nbytes d' ∧
      ((nbytes d < nbytes d' → mget m2 (u16 pc) = mget m1 (u16 pc)) → decode_idx m2 pc op d = Some d')
  | None => decode_idx m2 pc op d = None
  end.
Proof.
  unfold decode_idx. repeat case_match; try done;
    simplify_eq; simpl in *; split; try lia; try done.
  intros H. by rewrite H by lia.
Qed.
Lemma half_remap_nbytes d : nbytes (half_remap d) = nbytes d.
Proof. unfold half_remap. by case_match. Qed.

Lemma skip_prefixes_local m1 m2 k pfx pc n p pc' n' :
  is_word pc → skip_prefixes k m1 pfx pc n = (p, pc', n') →
  (∀ j, 0 <= j <= n' - n → mget m2 (u16 (pc + j)) = mget m1 (u16 (pc + j))) →
  skip_prefixes k m2 pfx pc n = (p, pc', n').
Proof.
  revert pfx pc n. induction k as [|k IH]; intros pfx pc n Hpc; simpl; [done|].
  fold (is_idx (mget m1 (u16 pc))) (is_idx (mget m2 (u16 pc))).
  destruct (is_idx (mget m1 (u16 pc))) eqn:Hi; intros H Hag.
  - pose proof H as H'. apply skip_prefixes_spec in H' as (Hn & _); [|in_range].
    pose proof (Hag 0 ltac:(lia)) as H0. rewrite Z.add_0_r in H0. rewrite H0, Hi.
    apply IH; [in_range|done|]. intros j Hj. rewrite !u16_add_l.
    replace (pc + 1 + j) with (pc + (j + 1)) by lia. apply Hag. lia.
  - simplify_eq. pose proof (Hag 0 ltac:(lia)) as H0. rewrite Z.add_0_r in H0. by rewrite H0, Hi.
Qed.

Lemma operands_agree_at m1 m2 pc0 k pc n b :
  pc = u16 (pc0 + k) → k + n < b → 0 <= k →
  (∀ j, 0 <= j < b → mget m2 (u16 (pc0 + j)) = mget m1 (u16 (pc0 + j))) →
  operands_agree m1 m2 pc n.
Proof.
  intros -> Hb Hk H j Hj. rewrite u16_add_l. replace (pc0 + k + j) with (pc0 + (k + j)) by lia.
  apply H. lia.
Qed.

Lemma decode_indexed_grows m pfx pc op n : n <= nbytes (decode_indexed m pfx pc op n).
Proof.
  unfold decode_indexed. destruct (needs_disp op).
  all: match goal with |- context [decode_idx _ ?p _ ?d] =>
         pose proof (decode_idx_local m m p op d) as Hi end.
  all: destruct (decode_idx _ _ _ _); [simpl in Hi; lia|].
  all: rewrite half_remap_nbytes; etrans; [|apply decode_main_grows]; simpl; lia.
Qed.

Lemma decode_opcode_grows m pfx pc n : n <= nbytes (decode_opcode m pfx pc n).
Proof.
  unfold decode_opcode. case_match; [unfold decode_cb; destruct (nz pfx); simpl; lia|].
  case_match; [etrans; [|apply decode_ed_grows]; simpl; lia|].
  case_match; [apply decode_indexed_grows|etrans; [|apply decode_main_grows]; simpl; lia].
Qed.

#[local] Arguments decode_idx : simpl never.
#[local] Arguments decode_main : simpl never.
#[local] Arguments decode_ed : simpl never.
#[local] Arguments half_remap : simpl never.
Lemma idx_disp op m pc d : needs_disp op = true → decode_idx m pc op d ≠ None.
Proof. unfold needs_disp, decode_idx. repeat case_match; done. Qed.

Lemma decode_indexed_local m1 m2 pfx pc op n :
  operands_agree m1 m2 pc (nbytes (decode_indexed m1 pfx pc op n) - n) →
  decode_indexed m2 pfx pc op n = decode_indexed m1 pfx pc op n.
Proof.
  unfold decode_indexed. destruct (needs_disp op) eqn:Hd.
  - pose proof (decode_idx_local m1 m2 (u16 (pc + 2)) op
      (more 1 (dsp (s8 (mget m1 (u16 (pc + 1)))) (dec0 pfx op n)))) as Hi.
    intros H. assert (mget m2 (u16 (pc + 1)) = mget m1 (u16 (pc + 1))) as ->.
    { destruct (decode_idx m1 _ _ _); [destruct Hi; apply H; simpl in *; lia|].
      rewrite half_remap_nbytes in H. apply H.
      pose proof (decode_main_grows m1 (u16 (pc + 2)) op (more 1 (dsp (s8 (mget m1 (u16 (pc + 1)))) (dec0 pfx op n)))).
      simpl in *. lia. }
    destruct (decode_idx m1 _ _ _) as [d'|].
    + destruct Hi as [_ ->]; [done|]. intros Hlt. rewrite (u16_id (u16 _)) by apply u16_word.
      apply H. simpl in *. lia.
    + by destruct (idx_disp op m2 (u16 (pc + 2)) (more 1 (dsp (s8 (mget m1 (u16 (pc + 1)))) (dec0 pfx op n)))).
  - pose proof (decode_idx_local m1 m2 pc op (dec0 pfx op n)) as Hi.
    intros H. destruct (decode_idx m1 _ _ _) as [d'|] eqn:Hd'.
    + assert (nbytes d' = n) as Hn.
      { unfold needs_disp, decode_idx in *. repeat case_match; simplify_eq; done. }
      destruct Hi as [_ ->]; [done|]. simpl. lia.
    + rewrite Hi. apply (f_equal half_remap), decode_main_local. by rewrite half_remap_nbytes in H.
Qed.

Lemma decode_opcode_local m1 m2 pc0 pfx pc n b :
  pc = u16 (pc0 + (n - 1)) → 1 <= n →  b = nbytes (decode_opcode m1 pfx pc n) →
  (∀ j, 0 <= j < b → mget m2 (u16 (pc0 + j)) = mget m1 (u16 (pc0 + j))) →
  decode_opcode m2 pfx pc n = decode_opcode m1 pfx pc n.
Proof.
  intros Hpc Hn Hb Hag. pose proof (decode_opcode_grows m1 pfx pc n) as Hgr.
  assert (u16 pc = pc) as Hu by (subst pc; apply u16_id, u16_word).
  assert (∀ k, k + n <= b → operands_agree m1 m2 pc k) as Hops.
  { intros k Hk. eapply (operands_agree_at m1 m2 pc0 (n - 1)); [done| |lia|done]. lia. }
  unfold decode_opcode in *. rewrite Hu in *.
  assert (mget m2 pc = mget m1 pc) as Hop.
  { specialize (Hag (n - 1) ltac:(lia)). by rewrite Hpc. }
  rewrite Hop. case_match.
  { unfold decode_cb in *. destruct (nz pfx); simpl in Hb.
    - rewrite !(Hops 2 ltac:(lia)) by lia. done.
    - rewrite !(Hops 1 ltac:(lia)) by lia. done. }
  case_match.
  { set (pc' := u16 (pc + 1)) in *. assert (u16 pc' = pc') as Hu' by (apply u16_id, u16_word).
    rewrite Hu' in *.
    pose proof (decode_ed_grows m1 pc' (mget m1 pc') (dec0 237 (mget m1 pc') (n + 1))) as Hg. simpl in Hg.
    assert (mget m2 pc' = mget m1 pc') as Hop' by (apply (Hops 1); lia).
    rewrite Hop'. apply decode_ed_local. simpl. intros j Hj. unfold pc'. rewrite u16_add_l.
    replace (pc + 1 + j) with (pc + (1 + j)) by lia.
    apply (Hops (b - n)); lia. }
  case_match.
  - apply decode_indexed_local, Hops. lia.
  - apply decode_main_local, Hops. simpl. lia.
Qed.

Lemma decode_agree m1 m2 pc :
  is_word pc →
  (∀ j, 0 <= j < nbytes (z80_decode_one m1 pc) →
        mget m2 (u16 (pc + j)) = mget m1 (u16 (pc + j))) →
  z80_decode_one m2 pc = z80_decode_one m1 pc.
Proof.
  intros Hpc. unfold z80_decode_one.
  destruct (skip_prefixes 4 m1 0 pc 1) as [[p pc'] n'] eqn:Hs. intros Hag.
  pose proof Hs as Hs'. apply skip_prefixes_spec in Hs' as (Hn & Hpc' & _); [|done].
  pose proof (decode_opcode_grows m1 p pc' n').
  rewrite (skip_prefixes_local m1 m2 4 0 pc 1 p pc' n'); [|done|done|intros; apply Hag; lia].
  eapply decode_opcode_local; [done|lia|done|done].
Qed.

(** The decoder reads nothing beyond the instruction it reports: two
    memories that agree on the [nbytes] bytes at [pc] (addresses wrapping at
    64K) decode there to the same instruction.  Invalidating a translated
    block when one of the bytes of its instructions changes is therefore
    enough to keep every decode the block was built from current. *)
Theorem decode_local m1 m2 pc :
  is_word pc →
  (∀ j, 0 <= j < nbytes (z80_decode_one m1 pc) →
        mget m2 (u16 (pc + j)) = mget m1 (u16 (pc + j))) →
  z80_decode_one m2 pc = z80_decode_one m1 pc.
Proof. apply decode_agree. Qed.

Example decode_local_witness :
  let m1 := mset_list 0x100 [0xDD; 0x36; 0x05; 0x2A] ∅ in
  let m2 := mset 0x104 0xFF (mset 0xFF 0xED m1) in
  nbytes (z80_decode_one m1 0x100) = 4 ∧ z80_decode_one m2 0x100 = z80_decode_one m1 0x100.
Proof.
  split; [by vm_compute|]. apply decode_local; [in_range|].
  intros j Hj. change (nbytes _) with 4 in Hj.
  assert (j = 0 ∨ j = 1 ∨ j = 2 ∨ j = 3) as [-> | [-> | [-> | ->]]] by lia; by vm_compute.
Defined.

(** ** What the decoder refuses *)

Definition is_unknown (d : z80_decoded) : bool := bool_decide (dtype d = Z80_OP_UNKNOWN).

Lemma decode_ed_known m pc d op : is_byte op → is_unknown (decode_ed m pc op d) = false.
Proof.
  intros Hop. apply negb_true_iff.
  apply (forall_bytes (λ op, negb (is_unknown (decode_ed m pc op d)))); [by vm_compute|done].
Qed.

Lemma decode_main_known m pc d op :
  is_byte op → dtype d = Z80_OP_UNKNOWN → op ≠ 0xCB → op ≠ 0xED →
  is_unknown (decode_main m pc op d) = is_idx op.
Proof.
  intros Hop Hd Hcb Hed. apply eqb_prop.
  pose proof (forall_bytes (λ op, (op =? 0xCB) || (op =? 0xED) || eqb (is_unknown (decode_main m pc op (ty Z80_OP_UNKNOWN d))) (is_idx op))) as H.
  specialize (H ltac:(by vm_compute) op Hop). simpl in H.
  apply orb_prop in H as [H|H]; [apply orb_prop in H as [H|H]; apply Z.eqb_eq in H; done|].
  destruct d; simpl in *. subst. exact H.
Qed.

Lemma is_unknown_half d : is_unknown (half_remap d) = is_unknown d.
Proof. unfold half_remap, is_unknown. destruct d as [[]]; reflexivity. Qed.

Lemma decode_idx_known m pc d op d' : decode_idx m pc op d = Some d' → is_unknown d' = false.
Proof. unfold decode_idx. repeat case_match; intros; simplify_eq; done. Qed.

Lemma decode_opcode_unknown m pfx pc n :
  mem_ok m → is_unknown (decode_opcode m pfx pc n) = is_idx (mget m (u16 pc)).
Proof.
  intros Hm. unfold decode_opcode. set (op := mget m (u16 pc)).
  assert (is_byte op) as Hop by apply Hm.
  destruct (Z.eqb_spec op 0xCB) as [->|Hcb]; [unfold decode_cb; by destruct (nz pfx)|].
  destruct (Z.eqb_spec op 0xED) as [->|Hed]; [by apply decode_ed_known|].
  case_match; [|by apply decode_main_known].
  unfold decode_indexed. destruct (needs_disp op) eqn:Hnd.
  all: match goal with |- context [decode_idx ?m ?p ?o ?d] => destruct (decode_idx m p o d) eqn:Hi end.
  all: try (rewrite is_unknown_half; by apply decode_main_known).
  all: rewrite (decode_idx_known _ _ _ _ _ Hi).
  all: unfold is_idx; destruct (Z.eqb_spec op 0xDD) as [Hx|]; [rewrite Hx in *; done|].
  all: destruct (Z.eqb_spec op 0xFD) as [Hx|]; [rewrite Hx in *; done|done].
Qed.

Lemma unknown_iff m pc :
  mem_ok m → is_word pc →
  (dtype (z80_decode_one m pc) = Z80_OP_UNKNOWN ↔
   ∀ j, 0 <= j < 5 → is_idx (mget m (u16 (pc + j))) = true).
Proof.
  intros Hm Hpc. transitivity (is_unknown (z80_decode_one m pc) = true).
  { unfold is_unknown. by rewrite bool_decide_eq_true. }
  unfold z80_decode_one. destruct (skip_prefixes 4 m 0 pc 1) as [[p pc'] n] eqn:Hs.
  apply skip_prefixes_spec in Hs as (Hn & -> & Hw & Hall & Hlast & _); [|done].
  simpl in *. rewrite decode_opcode_unknown, (u16_id (u16 _)) by (done || apply u16_word).
  rewrite (u16_id (u16 _)) in Hlast by apply u16_word. split.
  - intros Hi j Hj. destruct (Z.eq_dec n 5) as [->|].
    + destruct (Z.eq_dec j 4) as [->|]; [done|]. apply Hall. lia.
    + rewrite Hlast in Hi by lia. done.
  - intros H. apply H. lia.
Qed.

(** The decoder is total over memory contents: the only byte sequence
    it leaves UNKNOWN (the interpreter then stops with an error) is a run of
    five DD/FD prefixes; every other byte sequence, undocumented and
    unassigned opcodes included, decodes to an operation. *)
Theorem decode_unknown m pc :
  mem_ok m → is_word pc →
  (dtype (z80_decode_one m pc) = Z80_OP_UNKNOWN ↔
   ∀ j, 0 <= j < 5 → is_idx (mget m (u16 (pc + j))) = true).
Proof. apply unknown_iff. Qed.

Example decode_unknown_witness :
  let m := mset_list 0 [0xDD; 0xFD; 0xDD; 0xDD; 0xDD; 0x21] ∅ in
  dtype (z80_decode_one m 0) = Z80_OP_UNKNOWN ∧ dtype (z80_decode_one m 1) = Z80_OP_LD_RR_NN.
Proof.
  split; [|by vm_compute]. apply decode_unknown.
  - in_range.
  - in_range.
  - intros j Hj.
    assert (j = 0 ∨ j = 1 ∨ j = 2 ∨ j = 3 ∨ j = 4) as [-> | [-> | [-> | [-> | ->]]]] by lia; by vm_compute.
Defined.

(** The decoder never reports more than eight bytes, and every field is
    within the range its consumers assume (register codes 0-9, condition
    codes 0-7, a signed byte displacement). *)
Theorem decode_bounds m pc :
  mem_ok m → is_word pc →
  1 <= nbytes (z80_decode_one m pc) <= 8 ∧
  0 <= reg1 (z80_decode_one m pc) <= 9 ∧ 0 <= reg2 (z80_decode_one m pc) <= 9 ∧
  0 <= cc (z80_decode_one m pc) <= 7 ∧ -128 <= disp (z80_decode_one m pc) <= 127 ∧
  is_word (imm16 (z80_decode_one m pc)) ∧ is_byte (imm8 (z80_decode_one m pc)).
Proof. intros Hm Hpc. by destruct (decode_ok m pc Hm Hpc). Qed.

Example decode_bounds_witness :
  1 <= nbytes (z80_decode_one ∅ 0xFFFF) <= 8.
Proof. apply decode_bounds; [apply mem_ok_empty|in_range]. Defined.
