(* ===== verification/Interp.v ===== *)
(** * Interp: the reference interpreter (src/core/z80_interp.c)

    One definition per operation of [z80_step], in the order of its switch;
    [exec] is the switch and [z80_step] the whole function.  An operation
    that touches only the context is a [z80_cpu → z80_cpu]; one that stores
    to memory or calls the host works on [mach W].  The repeating
    instructions run inside one step, so their loops carry fuel: BC for
    LDIR/LDDR and 256 for the port block forms; InterpOk shows both are
    enough. *)

From Stdlib Require Import ZArith Lia Bool List.
From stdpp Require Import base gmap list.
From S2P Require Import Prelude Cpu Decode.

Open Scope Z_scope.
Open Scope z80_scope.

(** ** Register access by code *)

(** [*reg8_ptr_p(cpu, r, prefix)]; [None] for the NULL pointer. *)
Definition reg8_p (r pfx : Z) (c : z80_cpu) : option Z :=
  match r with
  | 0 => Some (rB c)
  | 1 => Some (rC c)
  | 2 => Some (rD c)
  | 3 => Some (rE c)
  | 4 => Some (rH c)
  | 5 => Some (rL c)
  | 7 => Some (rA c)
  | 8 => Some ((if pfx =? 0xFD then rIY c else rIX c) >>' 8)
  | 9 => Some (u8 (if pfx =? 0xFD then rIY c else rIX c))
  | _ => None
  end.

(** [if (p) *p = v] through the same pointer. *)
Definition set_reg8_p (r pfx v : Z) (c : z80_cpu) : z80_cpu :=
  match r with
  | 0 => set_rB v c
  | 1 => set_rC v c
  | 2 => set_rD v c
  | 3 => set_rE v c
  | 4 => set_rH v c
  | 5 => set_rL v c
  | 7 => set_rA v c
  | 8 => if pfx =? 0xFD then set_rIY (word_of (u8 (rIY c)) v) c
         else set_rIX (word_of (u8 (rIX c)) v) c
  | 9 => if pfx =? 0xFD then set_rIY (word_of v (rIY c >>' 8)) c
         else set_rIX (word_of v (rIX c >>' 8)) c
  | _ => c
  end.

Definition effective_addr (d : z80_decoded) (hl_fallback : Z) (c : z80_cpu) : Z :=
  if prefix d =? 0xDD then u16 (rIX c + disp d)
  else if prefix d =? 0xFD then u16 (rIY c + disp d)
  else hl_fallback.

Definition read_reg8 (r : Z) (d : z80_decoded) (c : z80_cpu) : Z :=
  if r =? 6 then mget (mem c) (effective_addr d (rHL c) c)
  else default 0 (reg8_p r (prefix d) c).

Definition write_reg8 `{Host W} (r val : Z) (d : z80_decoded) (s : mach W) : mach W :=
  if r =? 6 then mem_w (effective_addr d (rHL s.1) s.1) val s
  else on_cpu (set_reg8_p r (prefix d) val) s.

Definition read_rr (rr : Z) (c : z80_cpu) : Z :=
  match rr with 0 => rBC c | 1 => rDE c | 2 => rHL c | 3 => rSP c | _ => 0 end.

Definition write_rr (rr val : Z) (c : z80_cpu) : z80_cpu :=
  match rr with
  | 0 => set_BC val c
  | 1 => set_DE val c
  | 2 => set_HL val c
  | 3 => set_rSP val c
  | _ => c
  end.

(** The "HL position" of an opcode under a DD/FD prefix. *)
Definition idx16 (pfx : Z) (c : z80_cpu) : Z :=
  if pfx =? 0xDD then rIX c else if pfx =? 0xFD then rIY c else rHL c.
Definition set_idx16 (pfx v : Z) (c : z80_cpu) : z80_cpu :=
  if pfx =? 0xDD then set_rIX v c else if pfx =? 0xFD then set_rIY v c else set_HL v c.

(** ** Flag helpers *)

Definition xy_from (b : Z) : Z := b &' FLAG_35.

Definition parity8 (v : Z) : Z :=
  let v := v ^' (v >>' 4) in
  let v := v ^' (v >>' 2) in
  let v := v ^' (v >>' 1) in
  if nz (v &' 1) then 0 else FLAG_PV.

(** [if (r == 0) f |= Z; if (r & 0x80) f |= S]. *)
Definition sz (r : Z) : Z := flag_if (r =? 0) FLAG_Z |' flag_if (nz (r &' 0x80)) FLAG_S.

(** Signed overflow of an addition and of a subtraction, from the sign bits
    of the operands and the result. *)
Definition ovf_add (sign a b res : Z) : bool := ((a ^' b) &' sign =? 0) && nz ((res ^' a) &' sign).
Definition ovf_sub (sign a b res : Z) : bool := nz ((a ^' b) &' sign) && nz ((res ^' a) &' sign).

(** [cpu->f = f; cpu->q = 1]. *)
Definition with_f (f : Z) (c : z80_cpu) : z80_cpu := set_rQ 1 (set_rF f c).

Definition add_flags (a b res : Z) : Z :=
  xy_from res |' sz res |' flag_if (0xF <? (a &' 0xF) + (b &' 0xF)) FLAG_H
  |' flag_if (0xFF <? a + b) FLAG_C |' flag_if (ovf_add 0x80 a b res) FLAG_PV.
Definition set_flags_add (a b res : Z) : z80_cpu → z80_cpu := with_f (add_flags a b res).

Definition sub_flags (a b res : Z) : Z :=
  FLAG_N |' xy_from res |' sz res |' flag_if (a &' 0xF <? b &' 0xF) FLAG_H
  |' flag_if (a <? b) FLAG_C |' flag_if (ovf_sub 0x80 a b res) FLAG_PV.
Definition set_flags_sub (a b res : Z) : z80_cpu → z80_cpu := with_f (sub_flags a b res).

(** The undocumented bits come from the operand. *)
Definition cp_flags (a b res : Z) : Z :=
  FLAG_N |' xy_from b |' sz res |' flag_if (a &' 0xF <? b &' 0xF) FLAG_H
  |' flag_if (a <? b) FLAG_C |' flag_if (ovf_sub 0x80 a b res) FLAG_PV.
Definition set_flags_cp (a b res : Z) : z80_cpu → z80_cpu := with_f (cp_flags a b res).

Definition logic_flags (res : Z) : Z := xy_from res |' sz res |' parity8 res.
Definition set_flags_logic (res : Z) : z80_cpu → z80_cpu := with_f (logic_flags res).

Definition cond_true (k : Z) (c : z80_cpu) : bool :=
  match k with
  | 0 => negb (nz (rF c &' FLAG_Z))
  | 1 => nz (rF c &' FLAG_Z)
  | 2 => negb (nz (rF c &' FLAG_C))
  | 3 => nz (rF c &' FLAG_C)
  | 4 => negb (nz (rF c &' FLAG_PV))
  | 5 => nz (rF c &' FLAG_PV)
  | 6 => negb (nz (rF c &' FLAG_S))
  | 7 => nz (rF c &' FLAG_S)
  | _ => false
  end.

(** ** Port I/O *)

Definition io_in `{Host W} (port high : Z) (s : mach W) : Z * mach W :=
  match port_in_hook with Some hook => hook port high s | None => (0xFF, s) end.
Definition io_out `{Host W} (port high val : Z) (s : mach W) : mach W :=
  match port_out_hook with Some hook => hook port high val s | None => s end.

Definition io_read_r8 (r : Z) (c : z80_cpu) : Z :=
  match r with
  | 0 => rB c | 1 => rC c | 2 => rD c | 3 => rE c | 4 => rH c | 5 => rL c | _ => rA c
  end.
Definition io_write_r8 (r v : Z) (c : z80_cpu) : z80_cpu :=
  match r with
  | 0 => set_rB v c | 1 => set_rC v c | 2 => set_rD v c | 3 => set_rE v c
  | 4 => set_rH v c | 5 => set_rL v c | _ => set_rA v c
  end.

(** One pass of [io_block]'s loop body: the byte moved, [k], and the state. *)
Definition io_body_in `{Host W} (step : Z) (s : mach W) : Z * Z * mach W :=
  let '(v, s) := io_in (rC s.1) (rB s.1) s in
  let s := on_cpu (λ c, set_memptr (u16 (rBC c + step)) c) s in
  let s := mem_w (rHL s.1) v s in
  let s := on_cpu (λ c, set_rB (u8 (rB c - 1)) c) s in
  let s := on_cpu (λ c, set_HL (u16 (rHL c + step)) c) s in
  (v, v + u8 (rC s.1 + step), s).

Definition io_body_out `{Host W} (step : Z) (s : mach W) : Z * Z * mach W :=
  let v := mget (mem s.1) (rHL s.1) in
  let s := on_cpu (λ c, set_rB (u8 (rB c - 1)) c) s in
  let s := io_out (rC s.1) (rB s.1) v s in
  let s := on_cpu (λ c, set_HL (u16 (rHL c + step)) c) s in
  let s := on_cpu (λ c, set_memptr (u16 (rBC c + step)) c) s in
  (v, v + rL s.1, s).

Definition io_dir_in (t : z80_op_type) : bool :=
  match t with Z80_OP_INI | Z80_OP_IND | Z80_OP_INIR | Z80_OP_INDR => true | _ => false end.
Definition io_down (t : z80_op_type) : bool :=
  match t with Z80_OP_IND | Z80_OP_INDR | Z80_OP_OUTD | Z80_OP_OTDR => true | _ => false end.
Definition io_rep (t : z80_op_type) : bool :=
  match t with Z80_OP_INIR | Z80_OP_INDR | Z80_OP_OTIR | Z80_OP_OTDR => true | _ => false end.

(** [do body while (rep && cpu->b != 0)], [fuel] bounding the extra passes. *)
Fixpoint io_loop {W} (fuel : nat) (rep : bool) (body : mach W → Z * Z * mach W) (s : mach W)
    : Z * Z * mach W :=
  let '(v, k, s) := body s in
  match fuel with
  | O => (v, k, s)
  | S fuel => if rep && negb (rB s.1 =? 0) then io_loop fuel rep body s else (v, k, s)
  end.

Definition io_flags (b v k : Z) : Z :=
  xy_from b |' sz b |' flag_if (nz (v &' 0x80)) FLAG_N
  |' flag_if (255 <? k) (FLAG_H |' FLAG_C) |' parity8 (u8 ((k &' 7) ^' b)).

Definition io_block `{Host W} (t : z80_op_type) (s : mach W) : mach W :=
  let step := if io_down t then -1 else 1 in
  let body := if io_dir_in t then io_body_in step else io_body_out step in
  let '(v, k, s) := io_loop 255 (io_rep t) body s in
  on_cpu (λ c, with_f (io_flags (rB c) v k) c) s.

(** ** Loads *)

Definition op_LD_RR_NN (d : z80_decoded) (c : z80_cpu) : z80_cpu :=
  if reg1 d =? 3 then set_rSP (imm16 d) c
  else if (reg1 d =? 2) && (prefix d =? 0xDD) then set_rIX (imm16 d) c
  else if (reg1 d =? 2) && (prefix d =? 0xFD) then set_rIY (imm16 d) c
  else write_rr (reg1 d) (imm16 d) c.

Definition op_LD_R_N `{Host W} (d : z80_decoded) (s : mach W) : mach W :=
  write_reg8 (reg1 d) (imm8 d) d s.
Definition op_LD_R_R `{Host W} (d : z80_decoded) (s : mach W) : mach W :=
  write_reg8 (reg1 d) (read_reg8 (reg2 d) d s.1) d s.

(** The flags of INC and DEC of the new value [v]; C is kept from [f]. *)
Definition inc_flags (f v : Z) : Z :=
  (f &' FLAG_C) |' xy_from v |' sz v |' flag_if (v &' 0xF =? 0) FLAG_H
  |' flag_if (v =? 0x80) FLAG_PV.
Definition dec_flags (f v : Z) : Z :=
  (f &' FLAG_C) |' FLAG_N |' xy_from v |' sz v |' flag_if (v &' 0xF =? 0xF) FLAG_H
  |' flag_if (v =? 0x7F) FLAG_PV.

Definition op_INC_HL_ind `{Host W} (d : z80_decoded) (s : mach W) : mach W :=
  let a := effective_addr d (rHL s.1) s.1 in
  let v := u8 (mget (mem s.1) a + 1) in
  on_cpu (λ c, with_f (inc_flags (rF c) v) c) (mem_w a v s).
Definition op_DEC_HL_ind `{Host W} (d : z80_decoded) (s : mach W) : mach W :=
  let a := effective_addr d (rHL s.1) s.1 in
  let v := u8 (mget (mem s.1) a - 1) in
  on_cpu (λ c, with_f (dec_flags (rF c) v) c) (mem_w a v s).

Definition op_LD_NN_A `{Host W} (d : z80_decoded) (s : mach W) : mach W :=
  on_cpu (λ c, set_memptr (word_of (u8 (imm16 d + 1)) (rA c)) c) (mem_w (imm16 d) (rA s.1) s).
Definition op_LD_A_NN (d : z80_decoded) (c : z80_cpu) : z80_cpu :=
  set_memptr (u16 (imm16 d + 1)) (set_rA (mget (mem c) (imm16 d)) c).
Definition op_LD_A_BC (c : z80_cpu) : z80_cpu :=
  set_memptr (u16 (rBC c + 1)) (set_rA (mget (mem c) (rBC c)) c).
Definition op_LD_A_DE (c : z80_cpu) : z80_cpu :=
  set_memptr (u16 (rDE c + 1)) (set_rA (mget (mem c) (rDE c)) c).
Definition op_LD_A_HL_ind (d : z80_decoded) (c : z80_cpu) : z80_cpu :=
  set_rA (read_reg8 6 d c) c.
Definition op_LD_HL_A_ind `{Host W} (d : z80_decoded) (s : mach W) : mach W :=
  write_reg8 6 (rA s.1) d s.
Definition op_LD_R_HL_ind `{Host W} (d : z80_decoded) (s : mach W) : mach W :=
  write_reg8 (reg2 d) (read_reg8 6 d s.1) d s.
Definition op_LD_HL_R_ind `{Host W} (d : z80_decoded) (s : mach W) : mach W :=
  write_reg8 6 (read_reg8 (reg2 d) d s.1) d s.
Definition op_LD_HL_N `{Host W} (d : z80_decoded) (s : mach W) : mach W :=
  write_reg8 6 (imm8 d) d s.
Definition op_LD_DE_A `{Host W} (s : mach W) : mach W :=
  on_cpu (λ c, set_memptr (word_of (u8 (rDE c + 1)) (rA c)) c) (mem_w (rDE s.1) (rA s.1) s).
Definition op_LD_BC_A `{Host W} (s : mach W) : mach W :=
  on_cpu (λ c, set_memptr (word_of (u8 (rBC c + 1)) (rA c)) c) (mem_w (rBC s.1) (rA s.1) s).

(** ** INC and DEC *)

Definition op_INC_R `{Host W} (d : z80_decoded) (s : mach W) : mach W :=
  if reg1 d =? 6 then op_INC_HL_ind d s
  else match reg8_p (reg1 d) (prefix d) s.1 with
       | Some p => let v := u8 (p + 1) in
                   on_cpu (λ c, with_f (inc_flags (rF c) v) (set_reg8_p (reg1 d) (prefix d) v c)) s
       | None => s
       end.
Definition op_DEC_R `{Host W} (d : z80_decoded) (s : mach W) : mach W :=
  if reg1 d =? 6 then op_DEC_HL_ind d s
  else match reg8_p (reg1 d) (prefix d) s.1 with
       | Some p => let v := u8 (p - 1) in
                   on_cpu (λ c, with_f (dec_flags (rF c) v) (set_reg8_p (reg1 d) (prefix d) v c)) s
       | None => s
       end.

Definition op_INC_RR (d : z80_decoded) (c : z80_cpu) : z80_cpu :=
  if reg1 d =? 3 then set_rSP (u16 (rSP c + 1)) c
  else if (reg1 d =? 2) && (prefix d =? 0xDD) then set_rIX (u16 (rIX c + 1)) c
  else if (reg1 d =? 2) && (prefix d =? 0xFD) then set_rIY (u16 (rIY c + 1)) c
  else write_rr (reg1 d) (u16 (read_rr (reg1 d) c + 1)) c.
Definition op_DEC_RR (d : z80_decoded) (c : z80_cpu) : z80_cpu :=
  if reg1 d =? 3 then set_rSP (u16 (rSP c - 1)) c
  else if (reg1 d =? 2) && (prefix d =? 0xDD) then set_rIX (u16 (rIX c - 1)) c
  else if (reg1 d =? 2) && (prefix d =? 0xFD) then set_rIY (u16 (rIY c - 1)) c
  else write_rr (reg1 d) (u16 (read_rr (reg1 d) c - 1)) c.

(** ** The accumulator's arithmetic, with [b] the operand *)

Definition alu_ADD (b : Z) (c : z80_cpu) : z80_cpu :=
  let res := u8 (rA c + b) in set_rA res (set_flags_add (rA c) b res c).
Definition alu_SUB (b : Z) (c : z80_cpu) : z80_cpu :=
  let res := u8 (rA c - b) in set_rA res (set_flags_sub (rA c) b res c).
Definition alu_CP (b : Z) (c : z80_cpu) : z80_cpu :=
  let res := u8 (rA c - b) in set_flags_cp (rA c) b res c.
Definition alu_AND (b : Z) (c : z80_cpu) : z80_cpu :=
  let c := set_rA (rA c &' b) c in
  let c := set_flags_logic (rA c) c in
  set_rF (((rF c &~ FLAG_N) &~ FLAG_C) |' FLAG_H) c.
Definition alu_XOR (b : Z) (c : z80_cpu) : z80_cpu :=
  let c := set_rA (rA c ^' b) c in
  let c := set_flags_logic (rA c) c in
  set_rF (((rF c &~ FLAG_N) &~ FLAG_C) &~ FLAG_H) c.
Definition alu_OR (b : Z) (c : z80_cpu) : z80_cpu :=
  let c := set_rA (rA c |' b) c in
  let c := set_flags_logic (rA c) c in
  set_rF (((rF c &~ FLAG_N) &~ FLAG_C) &~ FLAG_H) c.

Definition carry_in (f : Z) : Z := if nz (f &' FLAG_C) then 1 else 0.

Definition adc_flags (a b cin : Z) : Z :=
  let wide := a + b + cin in
  let res := u8 wide in
  xy_from res |' sz res |' flag_if (0xF <? (a &' 0xF) + (b &' 0xF) + cin) FLAG_H
  |' flag_if (0xFF <? wide) FLAG_C |' flag_if (ovf_add 0x80 a b res) FLAG_PV.
Definition alu_ADC (b : Z) (c : z80_cpu) : z80_cpu :=
  let cin := carry_in (rF c) in
  set_rA (u8 (rA c + b + cin)) (with_f (adc_flags (rA c) b cin) c).

Definition sbc_flags (a b cin : Z) : Z :=
  let wide := a - b - cin in
  let res := u8 wide in
  FLAG_N |' xy_from res |' sz res
  |' flag_if (nz (((a &' 0xF) - (b &' 0xF) - cin) &' 0x10)) FLAG_H
  |' flag_if (wide <? 0) FLAG_C |' flag_if (ovf_sub 0x80 a b res) FLAG_PV.
Definition alu_SBC (b : Z) (c : z80_cpu) : z80_cpu :=
  let cin := carry_in (rF c) in
  set_rA (u8 (rA c - b - cin)) (with_f (sbc_flags (rA c) b cin) c).

(** Operands: register, immediate and (HL)/(IX+d) forms. *)
Definition op_ADD_A_R d c : z80_cpu := alu_ADD (read_reg8 (reg1 d) d c) c.
Definition op_ADD_A_N d c : z80_cpu := alu_ADD (imm8 d) c.
Definition op_ADD_A_HL_ind d c : z80_cpu := alu_ADD (read_reg8 6 d c) c.
Definition op_SUB_A_HL_ind d c : z80_cpu := alu_SUB (read_reg8 6 d c) c.
Definition op_AND_A_HL_ind d c : z80_cpu := alu_AND (read_reg8 6 d c) c.
Definition op_XOR_A_HL_ind d c : z80_cpu := alu_XOR (read_reg8 6 d c) c.
Definition op_OR_A_HL_ind d c : z80_cpu := alu_OR (read_reg8 6 d c) c.
Definition op_CP_A_HL_ind d c : z80_cpu := alu_CP (read_reg8 6 d c) c.
Definition op_SUB_A_R d c : z80_cpu := alu_SUB (read_reg8 (reg1 d) d c) c.
Definition op_ADC_A_R d c : z80_cpu := alu_ADC (read_reg8 (reg1 d) d c) c.
Definition op_ADC_A_HL_ind d c : z80_cpu := alu_ADC (read_reg8 6 d c) c.
Definition op_ADC_A_N d c : z80_cpu := alu_ADC (imm8 d) c.
Definition op_SBC_A_R d c : z80_cpu := alu_SBC (read_reg8 (reg1 d) d c) c.
Definition op_SBC_A_HL_ind d c : z80_cpu := alu_SBC (read_reg8 6 d c) c.
Definition op_SBC_A_N d c : z80_cpu := alu_SBC (imm8 d) c.
Definition op_SUB_A_N d c : z80_cpu := alu_SUB (imm8 d) c.
Definition op_AND_A_R d c : z80_cpu := alu_AND (read_reg8 (reg1 d) d c) c.
Definition op_AND_A_N d c : z80_cpu := alu_AND (imm8 d) c.
Definition op_OR_A_R d c : z80_cpu := alu_OR (read_reg8 (reg1 d) d c) c.
Definition op_OR_A_N d c : z80_cpu := alu_OR (imm8 d) c.
Definition op_XOR_A_R d c : z80_cpu := alu_XOR (read_reg8 (reg1 d) d c) c.
Definition op_XOR_A_N d c : z80_cpu := alu_XOR (imm8 d) c.
Definition op_CP_A_R d c : z80_cpu := alu_CP (read_reg8 (reg1 d) d c) c.
Definition op_CP_A_N d c : z80_cpu := alu_CP (imm8 d) c.

(** ** Stack, interrupts, I and R *)

Definition op_EX_SP_HL `{Host W} (d : z80_decoded) (s : mach W) : mach W :=
  let v := mget16 (mem s.1) (rSP s.1) in
  let s := mem_w16 (rSP s.1) (idx16 (prefix d) s.1) s in
  on_cpu (λ c, set_memptr v (set_idx16 (prefix d) v c)) s.

Definition op_DI (c : z80_cpu) : z80_cpu := set_iff2 0 (set_iff1 0 c).
Definition op_EI (c : z80_cpu) : z80_cpu := set_iff2 1 (set_iff1 1 c).
Definition op_IM (d : z80_decoded) (c : z80_cpu) : z80_cpu := set_im (imm8 d) c.

(** [pc = pop16(); sp += 2]. *)
Definition pop_pc (c : z80_cpu) : z80_cpu :=
  set_rSP (u16 (rSP c + 2)) (set_rPC (mget16 (mem c) (rSP c)) c).

Definition op_RETN (c : z80_cpu) : z80_cpu :=
  let c := pop_pc c in
  let c := set_memptr (rPC c) c in
  set_iff1 (iff2 c) c.
Definition op_LD_I_A (c : z80_cpu) : z80_cpu := set_rI (rA c) c.
Definition op_LD_R_A (c : z80_cpu) : z80_cpu := set_r_epoch (insn_count c) (set_rR (rA c) c).

(** The synthesised refresh register. *)
Definition read_R (c : z80_cpu) : Z :=
  u8 ((rR c &' 0x80) |' (u64 (rR c + u64 (insn_count c - r_epoch c)) &' 0x7F)).
Definition ld_a_ir_flags (f v ff2 : Z) : Z :=
  (f &' FLAG_C) |' (v &' (FLAG_S |' FLAG_35)) |' flag_if (v =? 0) FLAG_Z
  |' flag_if (nz ff2) FLAG_PV.
Definition op_LD_A_IR (t : z80_op_type) (c : z80_cpu) : z80_cpu :=
  let v := match t with Z80_OP_LD_A_I => rI c | _ => read_R c end in
  let c := set_rA v c in
  with_f (ld_a_ir_flags (rF c) v (iff2 c)) c.

Definition op_HALT `{Host W} (s : mach W) : mach W := (s.1, console_wait s.2).

(** ** Jumps, calls and the CP/M traps *)

(** What [z80_step] returns: 0, 1 (clean exit), -1 (error). *)
Inductive step_rc : Set := RC_OK | RC_EXIT | RC_ERR.

Definition CPM_BDOS_ENTRY : Z := 0x0005.
Definition CPM_WBOOT_ENTRY : Z := 0x0000.
Definition CPM_BIOS_BASE : Z := 0xF200.

Definition traps_on `{Host W} (s : mach W) : bool := (defer_traps s.1 =? 0) && traps_enabled s.2.
Definition in_bios (pc : Z) : bool := (CPM_BIOS_BASE <=? pc) && (pc <? CPM_BIOS_BASE + 0x80).

(** Dispatch, then return to the caller's return address. *)
Definition run_trap {W} (dispatch : mach W → bool * mach W) (s : mach W) : step_rc * mach W :=
  let '(cont, s) := dispatch s in
  if cont then (RC_OK, on_cpu pop_pc s) else (RC_EXIT, s).

Definition jump_traps `{Host W} (s : mach W) : step_rc * mach W :=
  if traps_on s && (rPC s.1 =? CPM_BDOS_ENTRY) then run_trap bdos_dispatch s
  else if traps_on s && in_bios (rPC s.1) then run_trap bios_dispatch s
  else (RC_OK, s).

Definition op_JP_NN `{Host W} (d : z80_decoded) (s : mach W) : step_rc * mach W :=
  jump_traps (on_cpu (λ c, set_memptr (imm16 d) (set_rPC (imm16 d) c)) s).

Definition op_JP_CC_NN `{Host W} (d : z80_decoded) (s : mach W) : step_rc * mach W :=
  let s := on_cpu (set_memptr (imm16 d)) s in
  if cond_true (cc d) s.1 then jump_traps (on_cpu (set_rPC (imm16 d)) s) else (RC_OK, s).

Definition op_LD_SP_HL (d : z80_decoded) (c : z80_cpu) : z80_cpu := set_rSP (idx16 (prefix d) c) c.

Definition op_JP_HL `{Host W} (s : mach W) : step_rc * mach W :=
  jump_traps (on_cpu (λ c, set_rPC (rHL c) c) s).

(** [old_pc]: the instruction's own address. *)
Definition jr_to (old_pc : Z) (d : z80_decoded) (c : z80_cpu) : z80_cpu :=
  let t := u16 (old_pc + nbytes d + disp d) in set_memptr t (set_rPC t c).
Definition op_JR_E (old_pc : Z) (d : z80_decoded) (c : z80_cpu) : z80_cpu := jr_to old_pc d c.
Definition op_JR_CC_E (old_pc : Z) (d : z80_decoded) (c : z80_cpu) : z80_cpu :=
  if cond_true (cc d) c then jr_to old_pc d c else c.

(** [sp -= 2], then the two bytes, low first. *)
Definition push16 `{Host W} (v : Z) (s : mach W) : mach W :=
  let s := on_cpu (λ c, set_rSP (u16 (rSP c - 2)) c) s in mem_w16 (rSP s.1) v s.

Definition call_traps `{Host W} (s : mach W) : step_rc * mach W :=
  let '(rc, s) :=
    if traps_on s && ((rPC s.1 =? CPM_BDOS_ENTRY) || (rPC s.1 =? CPM_WBOOT_ENTRY))
    then run_trap bdos_dispatch s else (RC_OK, s) in
  match rc with
  | RC_OK => if traps_on s && in_bios (rPC s.1) then run_trap bios_dispatch s else (RC_OK, s)
  | _ => (rc, s)
  end.

Definition op_CALL_NN `{Host W} (d : z80_decoded) (s : mach W) : step_rc * mach W :=
  let s := push16 (rPC s.1) s in
  call_traps (on_cpu (λ c, set_memptr (imm16 d) (set_rPC (imm16 d) c)) s).

Definition op_CALL_CC_NN `{Host W} (d : z80_decoded) (s : mach W) : mach W :=
  let s := on_cpu (set_memptr (imm16 d)) s in
  if cond_true (cc d) s.1 then on_cpu (set_rPC (imm16 d)) (push16 (rPC s.1) s) else s.

Definition ret_to (c : z80_cpu) : z80_cpu := let c := pop_pc c in set_memptr (rPC c) c.
Definition op_RET {W} (s : mach W) : step_rc * mach W :=
  let s := on_cpu ret_to s in
  (if rPC s.1 =? 0 then RC_EXIT else RC_OK, s).
Definition op_RET_CC (d : z80_decoded) (c : z80_cpu) : z80_cpu :=
  if cond_true (cc d) c then ret_to c else c.

Definition op_PUSH_RR `{Host W} (d : z80_decoded) (s : mach W) : mach W :=
  let c := s.1 in
  let v := if reg1 d =? 4 then (if prefix d =? 0xFD then rIY c else rIX c)
           else if reg1 d =? 3 then rAF c else read_rr (reg1 d) c in
  push16 v s.
Definition op_POP_RR (d : z80_decoded) (c : z80_cpu) : z80_cpu :=
  let v := mget16 (mem c) (rSP c) in
  let c := set_rSP (u16 (rSP c + 2)) c in
  if reg1 d =? 4 then (if prefix d =? 0xFD then set_rIY v c else set_rIX v c)
  else if reg1 d =? 3 then set_AF v c else write_rr (reg1 d) v c.

Definition op_EX_DE_HL (c : z80_cpu) : z80_cpu :=
  let t := rDE c in let c := set_DE (rHL c) c in set_HL t c.
Definition op_EX_AF_AF (c : z80_cpu) : z80_cpu :=
  let t := rAF c in let c := set_AF (af_ c) c in set_af_ t c.

(** ** Accumulator rotates: [q] is not set *)

Definition rot_a_flags (f a : Z) (carry : bool) : Z :=
  (f &' (FLAG_S |' FLAG_Z |' FLAG_PV)) |' flag_if carry FLAG_C |' (a &' (FLAG_3 |' FLAG_5)).
Definition op_RLCA (c : z80_cpu) : z80_cpu :=
  let k := nz (rA c &' 0x80) in
  let a := u8 ((rA c <<' 1) |' flag_if k 1) in
  set_rF (rot_a_flags (rF c) a k) (set_rA a c).
Definition op_RRCA (c : z80_cpu) : z80_cpu :=
  let k := rA c &' 1 in
  let a := u8 ((rA c >>' 1) |' (k <<' 7)) in
  set_rF (rot_a_flags (rF c) a (nz k)) (set_rA a c).
Definition op_RLA (c : z80_cpu) : z80_cpu :=
  let k := nz (rA c &' 0x80) in
  let a := u8 ((rA c <<' 1) |' carry_in (rF c)) in
  set_rF (rot_a_flags (rF c) a k) (set_rA a c).
Definition op_RRA (c : z80_cpu) : z80_cpu :=
  let k := rA c &' 1 in
  let a := (rA c >>' 1) |' flag_if (nz (rF c &' FLAG_C)) 0x80 in
  set_rF (rot_a_flags (rF c) a (nz k)) (set_rA a c).

Definition op_EXX (c : z80_cpu) : z80_cpu :=
  let t := rBC c in let c := set_bc_ t (set_BC (bc_ c) c) in
  let t := rDE c in let c := set_de_ t (set_DE (de_ c) c) in
  let t := rHL c in set_hl_ t (set_HL (hl_ c) c).

Definition op_DJNZ (old_pc : Z) (d : z80_decoded) (c : z80_cpu) : z80_cpu :=
  let c := set_rB (u8 (rB c - 1)) c in
  if rB c =? 0 then c else jr_to old_pc d c.

Definition op_RST `{Host W} (d : z80_decoded) (s : mach W) : mach W :=
  let s := push16 (rPC s.1) s in
  on_cpu (λ c, set_memptr (imm8 d) (set_rPC (imm8 d) c)) s.

(** ** Ports *)

Definition op_OUT_N_A `{Host W} (d : z80_decoded) (s : mach W) : mach W :=
  let s := io_out (imm8 d) (rA s.1) (rA s.1) s in
  on_cpu (λ c, set_memptr (word_of (u8 (imm8 d + 1)) (rA c)) c) s.
Definition op_IN_A_N `{Host W} (d : z80_decoded) (s : mach W) : mach W :=
  let addr := word_of (imm8 d) (rA s.1) in
  let '(v, s) := io_in (imm8 d) (rA s.1) s in
  on_cpu (λ c, set_memptr (u16 (addr + 1)) (set_rA v c)) s.
Definition op_IN_R_C `{Host W} (d : z80_decoded) (s : mach W) : mach W :=
  let '(v, s) := io_in (rC s.1) (rB s.1) s in
  on_cpu (λ c,
    let c := set_memptr (u16 (rBC c + 1)) c in
    let c := if reg1 d =? 6 then c else io_write_r8 (reg1 d) v c in
    let c := set_flags_logic v c in
    with_f (rF c &~ FLAG_H) c) s.
Definition op_OUT_C_R `{Host W} (d : z80_decoded) (s : mach W) : mach W :=
  let s := io_out (rC s.1) (rB s.1) (if reg1 d =? 6 then 0 else io_read_r8 (reg1 d) s.1) s in
  on_cpu (λ c, set_memptr (u16 (rBC c + 1)) c) s.

(** ** Block moves and compares *)

(** One byte of LDI/LDD/LDIR/LDDR: the byte, and the state after the three
    counters moved. *)
Definition ld_one `{Host W} (incr : Z) (s : mach W) : Z * mach W :=
  let v := mget (mem s.1) (rHL s.1) in
  let s := mem_w (rDE s.1) v s in
  let s := on_cpu (λ c, set_HL (u16 (rHL c + incr)) c) s in
  let s := on_cpu (λ c, set_DE (u16 (rDE c + incr)) c) s in
  (v, on_cpu (λ c, set_BC (u16 (rBC c - 1)) c) s).

(** [while (cpu->bc != 0)]; [fuel] bounds the passes. *)
Fixpoint ld_loop `{Host W} (fuel : nat) (incr last : Z) (s : mach W) : Z * mach W :=
  match fuel with
  | O => (last, s)
  | S fuel => if rBC s.1 =? 0 then (last, s)
              else let '(v, s) := ld_one incr s in ld_loop fuel incr v s
  end.

(** Bits 3 and 1 of [n] land in X and Y. *)
Definition xy_block (n : Z) : Z := (n &' FLAG_3) |' flag_if (nz (n &' 0x02)) FLAG_5.

Definition ldir_flags (f a last : Z) : Z :=
  (f &' (FLAG_S |' FLAG_Z |' FLAG_C)) |' xy_block (u8 (a + last)).
Definition op_LDIR_LDDR `{Host W} (t : z80_op_type) (s : mach W) : mach W :=
  let incr := match t with Z80_OP_LDIR => 1 | _ => -1 end in
  let '(last, s) := ld_loop (Z.to_nat (rBC s.1)) incr 0 s in
  on_cpu (λ c, with_f (ldir_flags (rF c) (rA c) last) c) s.

Definition ldi_flags (f a v bc : Z) : Z :=
  (f &' (FLAG_S |' FLAG_Z |' FLAG_C)) |' flag_if (negb (bc =? 0)) FLAG_PV
  |' xy_block (u8 (a + v)).
Definition op_LDI_LDD `{Host W} (t : z80_op_type) (s : mach W) : mach W :=
  let incr := match t with Z80_OP_LDI => 1 | _ => -1 end in
  let '(v, s) := ld_one incr s in
  on_cpu (λ c, with_f (ldi_flags (rF c) (rA c) v (rBC c)) c) s.

(** ** 16-bit arithmetic *)

Definition add16_flags (f dst src : Z) : Z :=
  let res := dst + src in
  let r := u16 res in
  let f := f &' (FLAG_S |' FLAG_Z |' FLAG_PV) in
  let f := f |' flag_if (nz (res &' 0x10000)) FLAG_C in
  let f := f |' flag_if (nz (((dst &' 0x0FFF) + (src &' 0x0FFF)) &' 0x1000)) FLAG_H in
  let f := (f &~ FLAG_N) &~ (FLAG_5 |' FLAG_3) in
  f |' xy_from (r >>' 8).
Definition op_ADD_HL_RR (d : z80_decoded) (c : z80_cpu) : z80_cpu :=
  let dst := idx16 (prefix d) c in
  let src := if reg1 d =? 3 then rSP c else if reg1 d =? 2 then dst else read_rr (reg1 d) c in
  let c := set_memptr (u16 (dst + 1)) c in
  let c := with_f (add16_flags (rF c) dst src) c in
  set_idx16 (prefix d) (u16 (dst + src)) c.

(** The second operand of ADC/SBC HL and LD (nn),rr. *)
Definition rr_operand (d : z80_decoded) (c : z80_cpu) : Z :=
  if reg1 d =? 3 then rSP c else read_rr (reg1 d) c.

Definition adc16_flags (a b cin : Z) : Z :=
  let res := a + b + cin in
  let r := u16 res in
  xy_from (r >>' 8) |' flag_if (r =? 0) FLAG_Z |' flag_if (nz (r &' 0x8000)) FLAG_S
  |' flag_if (nz (((a &' 0x0FFF) + (b &' 0x0FFF) + cin) &' 0x1000)) FLAG_H
  |' flag_if (nz (res &' 0x10000)) FLAG_C |' flag_if (ovf_add 0x8000 a b r) FLAG_PV.
Definition op_ADC_HL_RR (d : z80_decoded) (c : z80_cpu) : z80_cpu :=
  let a := rHL c in
  let b := rr_operand d c in
  let cin := carry_in (rF c) in
  set_HL (u16 (a + b + cin)) (with_f (adc16_flags a b cin) (set_memptr (u16 (a + 1)) c)).

Definition sbc16_flags (a b cin : Z) : Z :=
  let res := u32 (a - b - cin) in
  let r := u16 res in
  FLAG_N |' xy_from (r >>' 8) |' flag_if (r =? 0) FLAG_Z |' flag_if (nz (r &' 0x8000)) FLAG_S
  |' flag_if (nz (((a &' 0x0FFF) - (b &' 0x0FFF) - cin) &' 0x1000)) FLAG_H
  |' flag_if (nz (res &' 0x10000)) FLAG_C |' flag_if (ovf_sub 0x8000 a b r) FLAG_PV.
Definition op_SBC_HL_RR (d : z80_decoded) (c : z80_cpu) : z80_cpu :=
  let a := rHL c in
  let b := rr_operand d c in
  let cin := carry_in (rF c) in
  set_HL (u16 (u32 (a - b - cin))) (with_f (sbc16_flags a b cin) (set_memptr (u16 (a + 1)) c)).

Definition op_LD_NN_RR `{Host W} (d : z80_decoded) (s : mach W) : mach W :=
  on_cpu (set_memptr (u16 (imm16 d + 1))) (mem_w16 (imm16 d) (rr_operand d s.1) s).
Definition op_LD_RR_NN_IND (d : z80_decoded) (c : z80_cpu) : z80_cpu :=
  let v := mget16 (mem c) (imm16 d) in
  let c := if reg1 d =? 3 then set_rSP v c else write_rr (reg1 d) v c in
  set_memptr (u16 (imm16 d + 1)) c.
Definition op_LD_NN_HL `{Host W} (d : z80_decoded) (s : mach W) : mach W :=
  on_cpu (set_memptr (u16 (imm16 d + 1))) (mem_w16 (imm16 d) (idx16 (prefix d) s.1) s).
Definition op_LD_HL_indNN (d : z80_decoded) (c : z80_cpu) : z80_cpu :=
  set_memptr (u16 (imm16 d + 1)) (set_idx16 (prefix d) (mget16 (mem c) (imm16 d)) c).

(** ** Complement, carry, decimal adjust *)

Definition op_CPL (c : z80_cpu) : z80_cpu :=
  let c := set_rA (u8 (Z.lnot (rA c))) c in
  with_f ((rF c &~ (FLAG_5 |' FLAG_3)) |' FLAG_H |' FLAG_N |' xy_from (rA c)) c.

(** The Q quirk: X and Y come from A alone when the previous instruction
    wrote F, from [A | F] otherwise. *)
Definition q_xy_src (prev_q : Z) (c : z80_cpu) : Z := if nz prev_q then rA c else rA c |' rF c.
Definition op_SCF (prev_q : Z) (c : z80_cpu) : z80_cpu :=
  with_f ((rF c &' (FLAG_S |' FLAG_Z |' FLAG_PV)) |' FLAG_C |' xy_from (q_xy_src prev_q c)) c.
Definition op_CCF (prev_q : Z) (c : z80_cpu) : z80_cpu :=
  let old_c := nz (rF c &' FLAG_C) in
  with_f ((rF c &' (FLAG_S |' FLAG_Z |' FLAG_PV)) |' flag_if old_c FLAG_H
          |' flag_if (negb old_c) FLAG_C |' xy_from (q_xy_src prev_q c)) c.

(** DAA on (A, F): the new A and F. *)
Definition daa (a f : Z) : Z * Z :=
  let fcin := nz (f &' FLAG_C) in
  let fhin := nz (f &' FLAG_H) in
  let fnin := nz (f &' FLAG_N) in
  let hi := (0x99 <? a) || fcin in
  let corr := flag_if ((9 <? a &' 0x0F) || fhin) 0x06 |' flag_if hi 0x60 in
  let new_a := if fnin then u8 (a - corr) else u8 (a + corr) in
  let new_h := if fnin then fhin && (a &' 0x0F <? 6) else 9 <? a &' 0x0F in
  (new_a, (f &' FLAG_N) |' flag_if hi FLAG_C |' flag_if new_h FLAG_H |' xy_from new_a
          |' sz new_a |' parity8 new_a).
Definition op_DAA (c : z80_cpu) : z80_cpu :=
  let '(a, f) := daa (rA c) (rF c) in with_f f (set_rA a c).

Definition op_NEG (c : z80_cpu) : z80_cpu :=
  let a := rA c in
  let res := u8 (0 - a) in set_rA res (set_flags_sub 0 a res c).

Definition szp_flags (f a : Z) : Z := (f &' FLAG_C) |' xy_from a |' sz a |' parity8 a.
Definition op_RRD_RLD `{Host W} (t : z80_op_type) (s : mach W) : mach W :=
  let c := s.1 in
  let m := mget (mem c) (rHL c) in
  let a_lo := rA c &' 0x0F in
  let a_hi := rA c &' 0xF0 in
  let m_lo := m &' 0x0F in
  let m_hi := (m &' 0xF0) >>' 4 in
  let '(new_a, new_m) :=
    match t with
    | Z80_OP_RRD => (a_hi |' m_lo, u8 (a_lo <<' 4) |' m_hi)
    | _ => (a_hi |' m_hi, u8 (m_lo <<' 4) |' a_lo)
    end in
  let s := mem_w (rHL c) new_m (on_cpu (set_rA new_a) s) in
  on_cpu (λ c, with_f (szp_flags (rF c) new_a) c) s.

Definition cpi_flags (f a v bc : Z) : Z :=
  let res := u8 (a - v) in
  let h := a &' 0xF <? v &' 0xF in
  let n := u8 (res - flag_if h 1) in
  (f &' FLAG_C) |' FLAG_N |' sz res |' flag_if h FLAG_H |' xy_block n
  |' flag_if (negb (bc =? 0)) FLAG_PV.
Definition op_CPI_CPD (t : z80_op_type) (old_pc : Z) (c : z80_cpu) : z80_cpu :=
  let v := mget (mem c) (rHL c) in
  let incr := match t with Z80_OP_CPI | Z80_OP_CPIR => 1 | _ => -1 end in
  let rep := match t with Z80_OP_CPIR | Z80_OP_CPDR => true | _ => false end in
  let c := set_HL (u16 (rHL c + incr)) c in
  let c := set_BC (u16 (rBC c - 1)) c in
  let c := with_f (cpi_flags (rF c) (rA c) v (rBC c)) c in
  if rep && negb (rBC c =? 0) && negb (u8 (rA c - v) =? 0) then set_rPC old_pc c else c.

(** ** The CB page *)

(** Rotates and shifts: the carry out and the result. *)
Definition cb_shift (grp val : Z) (carry : bool) : bool * Z :=
  let top := nz (val &' 0x80) in
  let bot := nz (val &' 0x01) in
  match grp with
  | 0 => (top, u8 ((val <<' 1) |' flag_if top 1))
  | 1 => (bot, (val >>' 1) |' flag_if bot 0x80)
  | 2 => (top, u8 ((val <<' 1) |' flag_if carry 1))
  | 3 => (bot, (val >>' 1) |' flag_if carry 0x80)
  | 4 => (top, u8 (val <<' 1))
  | 5 => (bot, (val >>' 1) |' (val &' 0x80))
  | 6 => (top, u8 ((val <<' 1) |' 1))
  | _ => (bot, val >>' 1)
  end.
Definition cb_shift_flags (new_c : bool) (result : Z) : Z :=
  flag_if new_c FLAG_C |' sz result |' parity8 result |' xy_from result.

Definition cb_bit_flags (f val bit xy_byte : Z) : Z :=
  let b := nz (val &' (1 <<' bit)) in
  (f &' FLAG_C) |' flag_if (negb b) (FLAG_Z |' FLAG_PV) |' FLAG_H
  |' flag_if (b && (bit =? 7)) FLAG_S |' xy_from xy_byte.

(** The operand: register [r], or a memory address. *)
Definition cb_indexed (d : z80_decoded) : bool := (prefix d =? 0xDD) || (prefix d =? 0xFD).
Definition cb_mem (d : z80_decoded) (r : Z) : bool := cb_indexed d || (r =? 6).
Definition cb_addr (d : z80_decoded) (c : z80_cpu) : Z :=
  if cb_indexed d then u16 ((if prefix d =? 0xDD then rIX c else rIY c) + disp d) else rHL c.
Definition cb_operand (d : z80_decoded) (r : Z) (c : z80_cpu) : Z :=
  if cb_mem d r then mget (mem c) (cb_addr d c) else default 0 (reg8_p r 0 c).

(** The write-back; an indexed form also copies the result to register [r]. *)
Definition cb_write `{Host W} (d : z80_decoded) (r result : Z) (s : mach W) : mach W :=
  if cb_mem d r then
    let s := mem_w (cb_addr d s.1) result s in
    if cb_indexed d && negb (r =? 6) then on_cpu (set_reg8_p r 0 result) s else s
  else on_cpu (set_reg8_p r 0 result) s.

Definition op_CB `{Host W} (d : z80_decoded) (s : mach W) : mach W :=
  let sub := imm8 d in
  let r := sub &' 7 in
  let grp := (sub >>' 3) &' 7 in
  let val := cb_operand d r s.1 in
  let f := rF s.1 in
  if (0x40 <=? sub) && (sub <? 0x80) then
    let xy_byte := if cb_indexed d then cb_addr d s.1 >>' 8
                   else if r =? 6 then memptr s.1 >>' 8 else val in
    on_cpu (with_f (cb_bit_flags f val grp xy_byte)) s
  else if (0x80 <=? sub) && (sub <? 0xC0) then cb_write d r (val &~ (1 <<' grp)) s
  else if 0xC0 <=? sub then cb_write d r (val |' (1 <<' grp)) s
  else
    let '(new_c, result) := cb_shift grp val (nz (f &' FLAG_C)) in
    on_cpu (with_f (cb_shift_flags new_c result)) (cb_write d r result s).

Definition op_LD_A_IXH (c : z80_cpu) : z80_cpu := set_rA (rIX c >>' 8) c.
Definition op_LD_A_IXL (c : z80_cpu) : z80_cpu := set_rA (u8 (rIX c)) c.

(** ** The switch and the step *)

Section Step.
Context `{Host W}.

(** A case that only touches the context, and one that runs on the machine. *)
Definition pure (f : z80_cpu → z80_cpu) (s : mach W) : step_rc * mach W := (RC_OK, on_cpu f s).
Definition run (f : mach W → mach W) (s : mach W) : step_rc * mach W := (RC_OK, f s).

(** [switch (dec.type)]; the state already has PC advanced and [q] cleared. *)
Definition exec (d : z80_decoded) (old_pc prev_q : Z) : mach W → step_rc * mach W :=
  match dtype d with
  | Z80_OP_NOP => λ s, (RC_OK, s)
  | Z80_OP_LD_RR_NN => pure (op_LD_RR_NN d)
  | Z80_OP_LD_R_N => run (op_LD_R_N d)
  | Z80_OP_LD_R_R => run (op_LD_R_R d)
  | Z80_OP_INC_HL_ind => run (op_INC_HL_ind d)
  | Z80_OP_DEC_HL_ind => run (op_DEC_HL_ind d)
  | Z80_OP_LD_NN_A => run (op_LD_NN_A d)
  | Z80_OP_LD_A_NN => pure (op_LD_A_NN d)
  | Z80_OP_LD_A_BC => pure op_LD_A_BC
  | Z80_OP_LD_A_DE => pure op_LD_A_DE
  | Z80_OP_LD_A_HL_ind => pure (op_LD_A_HL_ind d)
  | Z80_OP_LD_HL_A_ind => run (op_LD_HL_A_ind d)
  | Z80_OP_LD_R_HL_ind => run (op_LD_R_HL_ind d)
  | Z80_OP_LD_HL_R_ind => run (op_LD_HL_R_ind d)
  | Z80_OP_LD_HL_N_ind | Z80_OP_LD_HL_N => run (op_LD_HL_N d)
  | Z80_OP_LD_DE_A => run op_LD_DE_A
  | Z80_OP_LD_BC_A => run op_LD_BC_A
  | Z80_OP_INC_R => run (op_INC_R d)
  | Z80_OP_DEC_R => run (op_DEC_R d)
  | Z80_OP_INC_RR => pure (op_INC_RR d)
  | Z80_OP_DEC_RR => pure (op_DEC_RR d)
  | Z80_OP_ADD_A_R => pure (op_ADD_A_R d)
  | Z80_OP_ADD_A_N => pure (op_ADD_A_N d)
  | Z80_OP_ADD_A_HL_ind => pure (op_ADD_A_HL_ind d)
  | Z80_OP_SUB_A_HL_ind => pure (op_SUB_A_HL_ind d)
  | Z80_OP_AND_A_HL_ind => pure (op_AND_A_HL_ind d)
  | Z80_OP_XOR_A_HL_ind => pure (op_XOR_A_HL_ind d)
  | Z80_OP_OR_A_HL_ind => pure (op_OR_A_HL_ind d)
  | Z80_OP_CP_A_HL_ind => pure (op_CP_A_HL_ind d)
  | Z80_OP_SUB_A_R => pure (op_SUB_A_R d)
  | Z80_OP_ADC_A_R => pure (op_ADC_A_R d)
  | Z80_OP_ADC_A_HL_ind => pure (op_ADC_A_HL_ind d)
  | Z80_OP_ADC_A_N => pure (op_ADC_A_N d)
  | Z80_OP_SBC_A_R => pure (op_SBC_A_R d)
  | Z80_OP_SBC_A_HL_ind => pure (op_SBC_A_HL_ind d)
  | Z80_OP_SBC_A_N => pure (op_SBC_A_N d)
  | Z80_OP_EX_SP_HL => run (op_EX_SP_HL d)
  | Z80_OP_DI => pure op_DI
  | Z80_OP_EI => pure op_EI
  | Z80_OP_IM => pure (op_IM d)
  | Z80_OP_RETN => pure op_RETN
  | Z80_OP_LD_I_A => pure op_LD_I_A
  | Z80_OP_LD_R_A => pure op_LD_R_A
  | Z80_OP_LD_A_I => pure (op_LD_A_IR Z80_OP_LD_A_I)
  | Z80_OP_LD_A_R => pure (op_LD_A_IR Z80_OP_LD_A_R)
  | Z80_OP_HALT => run op_HALT
  | Z80_OP_SUB_A_N => pure (op_SUB_A_N d)
  | Z80_OP_AND_A_R => pure (op_AND_A_R d)
  | Z80_OP_AND_A_N => pure (op_AND_A_N d)
  | Z80_OP_OR_A_R => pure (op_OR_A_R d)
  | Z80_OP_OR_A_N => pure (op_OR_A_N d)
  | Z80_OP_XOR_A_R => pure (op_XOR_A_R d)
  | Z80_OP_XOR_A_N => pure (op_XOR_A_N d)
  | Z80_OP_CP_A_R => pure (op_CP_A_R d)
  | Z80_OP_CP_A_N => pure (op_CP_A_N d)
  | Z80_OP_JP_NN => op_JP_NN d
  | Z80_OP_JP_CC_NN => op_JP_CC_NN d
  | Z80_OP_LD_SP_HL => pure (op_LD_SP_HL d)
  | Z80_OP_JP_HL => op_JP_HL
  | Z80_OP_JR_E => pure (op_JR_E old_pc d)
  | Z80_OP_JR_CC_E => pure (op_JR_CC_E old_pc d)
  | Z80_OP_CALL_NN => op_CALL_NN d
  | Z80_OP_CALL_CC_NN => run (op_CALL_CC_NN d)
  | Z80_OP_RET => op_RET
  | Z80_OP_RET_CC => pure (op_RET_CC d)
  | Z80_OP_PUSH_RR => run (op_PUSH_RR d)
  | Z80_OP_POP_RR => pure (op_POP_RR d)
  | Z80_OP_EX_DE_HL => pure op_EX_DE_HL
  | Z80_OP_EX_AF_AF => pure op_EX_AF_AF
  | Z80_OP_RLCA => pure op_RLCA
  | Z80_OP_RRCA => pure op_RRCA
  | Z80_OP_RLA => pure op_RLA
  | Z80_OP_RRA => pure op_RRA
  | Z80_OP_EXX => pure op_EXX
  | Z80_OP_DJNZ => pure (op_DJNZ old_pc d)
  | Z80_OP_RST => run (op_RST d)
  | Z80_OP_OUT_N_A => run (op_OUT_N_A d)
  | Z80_OP_IN_A_N => run (op_IN_A_N d)
  | Z80_OP_IN_R_C => run (op_IN_R_C d)
  | Z80_OP_OUT_C_R => run (op_OUT_C_R d)
  | Z80_OP_INI | Z80_OP_IND | Z80_OP_INIR | Z80_OP_INDR
  | Z80_OP_OUTI | Z80_OP_OUTD | Z80_OP_OTIR | Z80_OP_OTDR => run (io_block (dtype d))
  | Z80_OP_LDIR | Z80_OP_LDDR => run (op_LDIR_LDDR (dtype d))
  | Z80_OP_ADD_HL_RR => pure (op_ADD_HL_RR d)
  | Z80_OP_ADC_HL_RR => pure (op_ADC_HL_RR d)
  | Z80_OP_LD_NN_RR => run (op_LD_NN_RR d)
  | Z80_OP_LD_RR_NN_IND => pure (op_LD_RR_NN_IND d)
  | Z80_OP_SBC_HL_RR => pure (op_SBC_HL_RR d)
  | Z80_OP_LD_NN_HL => run (op_LD_NN_HL d)
  | Z80_OP_LD_HL_indNN => pure (op_LD_HL_indNN d)
  | Z80_OP_CPL => pure op_CPL
  | Z80_OP_SCF => pure (op_SCF prev_q)
  | Z80_OP_CCF => pure (op_CCF prev_q)
  | Z80_OP_DAA => pure op_DAA
  | Z80_OP_NEG => pure op_NEG
  | Z80_OP_LDI | Z80_OP_LDD => run (op_LDI_LDD (dtype d))
  | Z80_OP_RRD | Z80_OP_RLD => run (op_RRD_RLD (dtype d))
  | Z80_OP_CPI | Z80_OP_CPD | Z80_OP_CPIR | Z80_OP_CPDR => pure (op_CPI_CPD (dtype d) old_pc)
  | Z80_OP_CB => run (op_CB d)
  | Z80_OP_LD_A_IXH => pure op_LD_A_IXH
  | Z80_OP_LD_A_IXL => pure op_LD_A_IXL
  | Z80_OP_UNKNOWN => λ s, (RC_ERR, s)
  end.

(** Advance PC past the instruction and clear [q]. *)
Definition advance (d : z80_decoded) (c : z80_cpu) : z80_cpu :=
  set_rQ 0 (set_rPC (u16 (rPC c + nbytes d)) c).

Definition bump_insn (c : z80_cpu) : z80_cpu := set_insn_count (u64 (insn_count c + 1)) c.

Definition z80_step (s : mach W) : step_rc * mach W :=
  let d := z80_decode_one (mem s.1) (rPC s.1) in
  let '(rc, s') := exec d (rPC s.1) (rQ s.1) (on_cpu (advance d) s) in
  match rc with
  | RC_OK => (RC_OK, on_cpu bump_insn s')
  | _ => (rc, s')
  end.

(** A run of [n] steps, stopping when one does not return 0. *)
Fixpoint z80_steps (n : nat) (s : mach W) : step_rc * mach W :=
  match n with
  | O => (RC_OK, s)
  | S n => match z80_step s with
           | (RC_OK, s') => z80_steps n s'
           | stopped => stopped
           end
  end.
End Step.
