(* ===== verification/InterpOk.v ===== *)
(** * InterpOk: every step of the interpreter keeps the machine well-formed

    [ok_op_*]: each operation keeps the width invariant [cpu_ok]; the claim
    theorems put them together for [z80_step] and for runs, and show that
    the in-step loops end by their own condition. *)

From Stdlib Require Import ZArith Lia Bool List.
From stdpp Require Import base gmap list.
From S2P Require Import Prelude Cpu Decode Interp.

Open Scope Z_scope.
Open Scope z80_scope.

(** ** Ranges of operands and flags *)

Lemma byte_xy b : is_byte (xy_from b).
Proof. apply byte_land_r. by vm_compute. Qed.
Lemma byte_sz r : is_byte (sz r).
Proof. apply byte_lor; apply byte_flag_if; by vm_compute. Qed.
Lemma byte_parity8 v : is_byte (parity8 v).
Proof. unfold parity8. case_match; by vm_compute. Qed.
Lemma byte_low b : is_byte (b &' 255).
Proof. apply byte_land_r. by vm_compute. Qed.
#[export] Hint Resolve byte_xy byte_sz byte_parity8 byte_low : z80.

Lemma carry_in_01 f : carry_in f = 0 ∨ carry_in f = 1.
Proof. unfold carry_in. case_match; auto. Qed.

Ltac flags_byte :=
  unfold FLAG_35, FLAG_S, FLAG_Z, FLAG_5, FLAG_H, FLAG_3, FLAG_PV, FLAG_N, FLAG_C; in_range.

Lemma byte_add_flags a b r : is_byte (add_flags a b r).
Proof. unfold add_flags. flags_byte. Qed.
Lemma byte_sub_flags a b r : is_byte (sub_flags a b r).
Proof. unfold sub_flags. flags_byte. Qed.
Lemma byte_cp_flags a b r : is_byte (cp_flags a b r).
Proof. unfold cp_flags. flags_byte. Qed.
Lemma byte_logic_flags r : is_byte (logic_flags r).
Proof. unfold logic_flags. flags_byte. Qed.
Lemma byte_adc_flags a b r : is_byte (adc_flags a b r).
Proof. unfold adc_flags. flags_byte. Qed.
Lemma byte_sbc_flags a b r : is_byte (sbc_flags a b r).
Proof. unfold sbc_flags. flags_byte. Qed.
Lemma byte_inc_flags f v : is_byte (inc_flags f v).
Proof. unfold inc_flags. flags_byte. Qed.
Lemma byte_dec_flags f v : is_byte (dec_flags f v).
Proof. unfold dec_flags. flags_byte. Qed.
Lemma byte_io_flags b v k : is_byte (io_flags b v k).
Proof. unfold io_flags. flags_byte. Qed.
Lemma byte_ld_a_ir_flags f v g : is_byte (ld_a_ir_flags f v g).
Proof. unfold ld_a_ir_flags. flags_byte. Qed.
Lemma byte_rot_a_flags f a k : is_byte (rot_a_flags f a k).
Proof. unfold rot_a_flags. flags_byte. Qed.
Lemma byte_xy_block n : is_byte (xy_block n).
Proof. unfold xy_block. flags_byte. Qed.
#[export] Hint Resolve byte_xy_block : z80.
Lemma byte_ldir_flags f a v : is_byte (ldir_flags f a v).
Proof. unfold ldir_flags. flags_byte. Qed.
Lemma byte_ldi_flags f a v n : is_byte (ldi_flags f a v n).
Proof. unfold ldi_flags. flags_byte. Qed.
Lemma byte_add16_flags f a b : is_byte (add16_flags f a b).
Proof. unfold add16_flags. flags_byte. Qed.
Lemma byte_adc16_flags a b k : is_byte (adc16_flags a b k).
Proof. unfold adc16_flags. flags_byte. Qed.
Lemma byte_sbc16_flags a b k : is_byte (sbc16_flags a b k).
Proof. unfold sbc16_flags. flags_byte. Qed.
Lemma byte_szp_flags f a : is_byte (szp_flags f a).
Proof. unfold szp_flags. flags_byte. Qed.
Lemma byte_cpi_flags f a v n : is_byte (cpi_flags f a v n).
Proof. unfold cpi_flags. flags_byte. Qed.
Lemma byte_cb_shift_flags k r : is_byte (cb_shift_flags k r).
Proof. unfold cb_shift_flags. flags_byte. Qed.
Lemma byte_cb_bit_flags f v b x : is_byte (cb_bit_flags f v b x).
Proof. unfold cb_bit_flags. flags_byte. Qed.
#[export] Hint Resolve byte_add_flags byte_sub_flags byte_cp_flags byte_logic_flags
  byte_adc_flags byte_sbc_flags byte_inc_flags byte_dec_flags byte_io_flags
  byte_ld_a_ir_flags byte_rot_a_flags byte_ldir_flags byte_ldi_flags byte_add16_flags
  byte_adc16_flags byte_sbc16_flags byte_szp_flags byte_cpi_flags byte_cb_shift_flags
  byte_cb_bit_flags : z80.

#[export] Hint Resolve ok_imm8 ok_imm16 ok_disp ok_prefix : z80.

Lemma ok_with_f f c : cpu_ok c → is_byte f → cpu_ok (with_f f c).
Proof. unfold with_f. in_range. Qed.
#[export] Hint Resolve ok_with_f : z80.

Lemma reg8_p_byte r p c v : cpu_ok c → reg8_p r p c = Some v → is_byte v.
Proof. unfold reg8_p. intros Hc. repeat case_match; intros; simplify_eq; in_range. Qed.
Lemma default_reg8_byte r p c : cpu_ok c → is_byte (default 0 (reg8_p r p c)).
Proof.
  intros Hc. destruct (reg8_p r p c) eqn:E; simpl; [by eapply reg8_p_byte|in_range].
Qed.
Lemma ok_set_reg8_p r p v c : cpu_ok c → is_byte v → cpu_ok (set_reg8_p r p v c).
Proof. unfold set_reg8_p. intros. repeat case_match; in_range. Qed.
Lemma effective_addr_word d x c : cpu_ok c → is_word x → is_word (effective_addr d x c).
Proof. unfold effective_addr. intros. repeat case_match; in_range. Qed.
Lemma read_reg8_byte r d c : cpu_ok c → is_byte (read_reg8 r d c).
Proof. unfold read_reg8. intros. case_match; [in_range|by apply default_reg8_byte]. Qed.
Lemma read_rr_word rr c : cpu_ok c → is_word (read_rr rr c).
Proof. unfold read_rr. intros. repeat case_match; in_range. Qed.
Lemma ok_write_rr rr v c : cpu_ok c → is_word v → cpu_ok (write_rr rr v c).
Proof. unfold write_rr. intros. repeat case_match; in_range. Qed.
Lemma idx16_word p c : cpu_ok c → is_word (idx16 p c).
Proof. unfold idx16. intros. repeat case_match; in_range. Qed.
Lemma ok_set_idx16 p v c : cpu_ok c → is_word v → cpu_ok (set_idx16 p v c).
Proof. unfold set_idx16. intros. repeat case_match; in_range. Qed.
Lemma rr_operand_word d c : cpu_ok c → is_word (rr_operand d c).
Proof. unfold rr_operand. intros. case_match; [in_range|by apply read_rr_word]. Qed.
#[export] Hint Resolve default_reg8_byte ok_set_reg8_p effective_addr_word read_reg8_byte
  read_rr_word ok_write_rr idx16_word ok_set_idx16 rr_operand_word : z80.

(** ** Operations on the context *)

Tactic Notation "ok_op" reference(f) := intros; unfold f; repeat case_match; in_range.

Section Alu.
Context (c : z80_cpu) (Hc : cpu_ok c) (b : Z) (Hb : is_byte b).

Lemma ok_alu_ADD : cpu_ok (alu_ADD b c).
Proof. unfold alu_ADD, set_flags_add. in_range. Qed.
Lemma ok_alu_SUB : cpu_ok (alu_SUB b c).
Proof. unfold alu_SUB, set_flags_sub. in_range. Qed.
Lemma ok_alu_CP : cpu_ok (alu_CP b c).
Proof. unfold alu_CP, set_flags_cp. in_range. Qed.
Lemma ok_alu_AND : cpu_ok (alu_AND b c).
Proof. unfold alu_AND, set_flags_logic. flags_byte. Qed.
Lemma ok_alu_XOR : cpu_ok (alu_XOR b c).
Proof. unfold alu_XOR, set_flags_logic. flags_byte. Qed.
Lemma ok_alu_OR : cpu_ok (alu_OR b c).
Proof. unfold alu_OR, set_flags_logic. flags_byte. Qed.
Lemma ok_alu_ADC : cpu_ok (alu_ADC b c).
Proof. unfold alu_ADC. in_range. Qed.
Lemma ok_alu_SBC : cpu_ok (alu_SBC b c).
Proof. unfold alu_SBC. in_range. Qed.
End Alu.
#[export] Hint Resolve ok_alu_ADD ok_alu_SUB ok_alu_CP ok_alu_AND ok_alu_XOR ok_alu_OR
  ok_alu_ADC ok_alu_SBC : z80.

Lemma ok_pop_pc c : cpu_ok c → cpu_ok (pop_pc c).
Proof. unfold pop_pc. in_range. Qed.
Lemma ok_ret_to c : cpu_ok c → cpu_ok (ret_to c).
Proof. pose proof ok_pop_pc. unfold ret_to. in_range. Qed.
Lemma ok_jr_to old_pc d c : cpu_ok c → cpu_ok (jr_to old_pc d c).
Proof. unfold jr_to. in_range. Qed.
#[export] Hint Resolve ok_pop_pc ok_ret_to ok_jr_to : z80.

Lemma byte_u8_lor a b : is_byte (u8 a |' flag_if b 1).
Proof. apply byte_lor; in_range. Qed.
Lemma read_R_byte c : is_byte (read_R c).
Proof. apply u8_byte. Qed.
Lemma daa_byte a f : is_byte (daa a f).1 ∧ is_byte (daa a f).2.
Proof. unfold daa. simpl. split; [case_match; in_range|flags_byte]. Qed.
#[export] Hint Resolve read_R_byte : z80.

Section PureOps.
Context (d : z80_decoded) (Hd : dec_ok 8 d) (c : z80_cpu) (Hc : cpu_ok c).

Lemma ok_op_LD_RR_NN : cpu_ok (op_LD_RR_NN d c).
Proof. ok_op op_LD_RR_NN. Qed.
Lemma ok_op_LD_A_NN : cpu_ok (op_LD_A_NN d c).
Proof. ok_op op_LD_A_NN. Qed.
Lemma ok_op_LD_A_BC : cpu_ok (op_LD_A_BC c).
Proof. ok_op op_LD_A_BC. Qed.
Lemma ok_op_LD_A_DE : cpu_ok (op_LD_A_DE c).
Proof. ok_op op_LD_A_DE. Qed.
Lemma ok_op_LD_A_HL_ind : cpu_ok (op_LD_A_HL_ind d c).
Proof. ok_op op_LD_A_HL_ind. Qed.
Lemma ok_op_INC_RR : cpu_ok (op_INC_RR d c).
Proof. ok_op op_INC_RR. Qed.
Lemma ok_op_DEC_RR : cpu_ok (op_DEC_RR d c).
Proof. ok_op op_DEC_RR. Qed.
Lemma ok_op_ADD_A_R : cpu_ok (op_ADD_A_R d c).
Proof. ok_op op_ADD_A_R. Qed.
Lemma ok_op_ADD_A_N : cpu_ok (op_ADD_A_N d c).
Proof. ok_op op_ADD_A_N. Qed.
Lemma ok_op_ADD_A_HL_ind : cpu_ok (op_ADD_A_HL_ind d c).
Proof. ok_op op_ADD_A_HL_ind. Qed.
Lemma ok_op_SUB_A_HL_ind : cpu_ok (op_SUB_A_HL_ind d c).
Proof. ok_op op_SUB_A_HL_ind. Qed.
Lemma ok_op_AND_A_HL_ind : cpu_ok (op_AND_A_HL_ind d c).
Proof. ok_op op_AND_A_HL_ind. Qed.
Lemma ok_op_XOR_A_HL_ind : cpu_ok (op_XOR_A_HL_ind d c).
Proof. ok_op op_XOR_A_HL_ind. Qed.
Lemma ok_op_OR_A_HL_ind : cpu_ok (op_OR_A_HL_ind d c).
Proof. ok_op op_OR_A_HL_ind. Qed.
Lemma ok_op_CP_A_HL_ind : cpu_ok (op_CP_A_HL_ind d c).
Proof. ok_op op_CP_A_HL_ind. Qed.
Lemma ok_op_SUB_A_R : cpu_ok (op_SUB_A_R d c).
Proof. ok_op op_SUB_A_R. Qed.
Lemma ok_op_ADC_A_R : cpu_ok (op_ADC_A_R d c).
Proof. ok_op op_ADC_A_R. Qed.
Lemma ok_op_ADC_A_HL_ind : cpu_ok (op_ADC_A_HL_ind d c).
Proof. ok_op op_ADC_A_HL_ind. Qed.
Lemma ok_op_ADC_A_N : cpu_ok (op_ADC_A_N d c).
Proof. ok_op op_ADC_A_N. Qed.
Lemma ok_op_SBC_A_R : cpu_ok (op_SBC_A_R d c).
Proof. ok_op op_SBC_A_R. Qed.
Lemma ok_op_SBC_A_HL_ind : cpu_ok (op_SBC_A_HL_ind d c).
Proof. ok_op op_SBC_A_HL_ind. Qed.
Lemma ok_op_SBC_A_N : cpu_ok (op_SBC_A_N d c).
Proof. ok_op op_SBC_A_N. Qed.
Lemma ok_op_SUB_A_N : cpu_ok (op_SUB_A_N d c).
Proof. ok_op op_SUB_A_N. Qed.
Lemma ok_op_AND_A_R : cpu_ok (op_AND_A_R d c).
Proof. ok_op op_AND_A_R. Qed.
Lemma ok_op_AND_A_N : cpu_ok (op_AND_A_N d c).
Proof. ok_op op_AND_A_N. Qed.
Lemma ok_op_OR_A_R : cpu_ok (op_OR_A_R d c).
Proof. ok_op op_OR_A_R. Qed.
Lemma ok_op_OR_A_N : cpu_ok (op_OR_A_N d c).
Proof. ok_op op_OR_A_N. Qed.
Lemma ok_op_XOR_A_R : cpu_ok (op_XOR_A_R d c).
Proof. ok_op op_XOR_A_R. Qed.
Lemma ok_op_XOR_A_N : cpu_ok (op_XOR_A_N d c).
Proof. ok_op op_XOR_A_N. Qed.
Lemma ok_op_CP_A_R : cpu_ok (op_CP_A_R d c).
Proof. ok_op op_CP_A_R. Qed.
Lemma ok_op_CP_A_N : cpu_ok (op_CP_A_N d c).
Proof. ok_op op_CP_A_N. Qed.
Lemma ok_op_DI : cpu_ok (op_DI c).
Proof. ok_op op_DI. Qed.
Lemma ok_op_EI : cpu_ok (op_EI c).
Proof. ok_op op_EI. Qed.
Lemma ok_op_IM : cpu_ok (op_IM d c).
Proof. ok_op op_IM. Qed.
Lemma ok_op_RETN : cpu_ok (op_RETN c).
Proof. ok_op op_RETN. Qed.
Lemma ok_op_LD_I_A : cpu_ok (op_LD_I_A c).
Proof. ok_op op_LD_I_A. Qed.
Lemma ok_op_LD_R_A : cpu_ok (op_LD_R_A c).
Proof. ok_op op_LD_R_A. Qed.
Lemma ok_op_LD_SP_HL : cpu_ok (op_LD_SP_HL d c).
Proof. ok_op op_LD_SP_HL. Qed.
Lemma ok_op_RET_CC : cpu_ok (op_RET_CC d c).
Proof. ok_op op_RET_CC. Qed.
Lemma ok_op_POP_RR : cpu_ok (op_POP_RR d c).
Proof. ok_op op_POP_RR. Qed.
Lemma ok_op_EX_DE_HL : cpu_ok (op_EX_DE_HL c).
Proof. ok_op op_EX_DE_HL. Qed.
Lemma ok_op_EX_AF_AF : cpu_ok (op_EX_AF_AF c).
Proof. ok_op op_EX_AF_AF. Qed.
Lemma ok_op_RLCA : cpu_ok (op_RLCA c).
Proof. ok_op op_RLCA. Qed.
Lemma ok_op_RRCA : cpu_ok (op_RRCA c).
Proof. ok_op op_RRCA. Qed.
Lemma ok_op_RLA : cpu_ok (op_RLA c).
Proof. ok_op op_RLA. Qed.
Lemma ok_op_RRA : cpu_ok (op_RRA c).
Proof. ok_op op_RRA. Qed.
Lemma ok_op_EXX : cpu_ok (op_EXX c).
Proof.
  unfold op_EXX. set (c1 := set_bc_ _ _).
  assert (cpu_ok c1) by (subst c1; in_range). clearbody c1.
  set (c2 := set_de_ _ _). assert (cpu_ok c2) by (subst c2; in_range). clearbody c2.
  in_range.
Qed.
Lemma ok_op_ADD_HL_RR : cpu_ok (op_ADD_HL_RR d c).
Proof. ok_op op_ADD_HL_RR. Qed.
Lemma ok_op_ADC_HL_RR : cpu_ok (op_ADC_HL_RR d c).
Proof. ok_op op_ADC_HL_RR. Qed.
Lemma ok_op_SBC_HL_RR : cpu_ok (op_SBC_HL_RR d c).
Proof. ok_op op_SBC_HL_RR. Qed.
Lemma ok_op_LD_RR_NN_IND : cpu_ok (op_LD_RR_NN_IND d c).
Proof. ok_op op_LD_RR_NN_IND. Qed.
Lemma ok_op_LD_HL_indNN : cpu_ok (op_LD_HL_indNN d c).
Proof. ok_op op_LD_HL_indNN. Qed.
Lemma ok_op_CPL : cpu_ok (op_CPL c).
Proof. ok_op op_CPL. Qed.
Lemma ok_op_NEG : cpu_ok (op_NEG c).
Proof. ok_op op_NEG. Qed.
Lemma ok_op_LD_A_IXH : cpu_ok (op_LD_A_IXH c).
Proof. ok_op op_LD_A_IXH. Qed.
Lemma ok_op_LD_A_IXL : cpu_ok (op_LD_A_IXL c).
Proof. ok_op op_LD_A_IXL. Qed.
Lemma ok_op_LD_A_IR t : cpu_ok (op_LD_A_IR t c).
Proof. ok_op op_LD_A_IR. Qed.
Lemma ok_op_JR_E old_pc : cpu_ok (op_JR_E old_pc d c).
Proof. ok_op op_JR_E. Qed.
Lemma ok_op_JR_CC_E old_pc : cpu_ok (op_JR_CC_E old_pc d c).
Proof. ok_op op_JR_CC_E. Qed.
Lemma ok_op_DJNZ old_pc : cpu_ok (op_DJNZ old_pc d c).
Proof. ok_op op_DJNZ. Qed.
Lemma ok_op_SCF q : cpu_ok (op_SCF q c).
Proof. ok_op op_SCF. Qed.
Lemma ok_op_CCF q : cpu_ok (op_CCF q c).
Proof. ok_op op_CCF. Qed.
Lemma ok_op_DAA : cpu_ok (op_DAA c).
Proof.
  unfold op_DAA. pose proof (daa_byte (rA c) (rF c)) as [H1 H2].
  destruct (daa _ _). simpl in *. in_range.
Qed.
Lemma ok_op_CPI_CPD t old_pc : is_word old_pc → cpu_ok (op_CPI_CPD t old_pc c).
Proof. ok_op op_CPI_CPD. Qed.
End PureOps.

(** ** Operations on the machine *)

Section MachOps.
Context `{HostOk W} (d : z80_decoded) (Hd : dec_ok 8 d) (s : mach W) (Hs : cpu_ok s.1).

Lemma ok_write_reg8 r v : is_byte v → cpu_ok (write_reg8 r v d s).1.
Proof. ok_op write_reg8. Qed.
Lemma ok_push16 v : is_word v → cpu_ok (push16 v s).1.
Proof. ok_op push16. Qed.
Lemma ok_io_in p h : is_byte (io_in p h s).1 ∧ cpu_ok (io_in p h s).2.1.
Proof.
  unfold io_in. destruct s as [c w]. destruct port_in_hook eqn:E; [by eapply port_in_ok|].
  simpl. split; in_range.
Qed.
Lemma ok_io_out p h v : cpu_ok (io_out p h v s).1.
Proof.
  unfold io_out. destruct s as [c w]. destruct port_out_hook eqn:E; [by eapply port_out_ok|done].
Qed.
Lemma ok_run_trap_bdos : cpu_ok (run_trap bdos_dispatch s).2.1.
Proof.
  unfold run_trap. destruct s as [c w]. pose proof (bdos_ok c w Hs).
  destruct (bdos_dispatch _) as [[] [c' w']]; simpl in *; in_range.
Qed.
Lemma ok_run_trap_bios : cpu_ok (run_trap bios_dispatch s).2.1.
Proof.
  unfold run_trap. destruct s as [c w]. pose proof (bios_ok c w Hs).
  destruct (bios_dispatch _) as [[] [c' w']]; simpl in *; in_range.
Qed.
Lemma ok_jump_traps : cpu_ok (jump_traps s).2.1.
Proof.
  unfold jump_traps. repeat case_match; auto using ok_run_trap_bdos, ok_run_trap_bios.
Qed.
End MachOps.
#[export] Hint Resolve ok_write_reg8 ok_push16 ok_io_out : z80.

Section MachOps2.
Context `{HostOk W} (d : z80_decoded) (Hd : dec_ok 8 d) (s : mach W) (Hs : cpu_ok s.1).

Lemma ok_call_traps : cpu_ok (call_traps s).2.1.
Proof.
  unfold call_traps. set (p := if _ : bool then run_trap _ _ else _).
  assert (cpu_ok p.2.1) by (subst p; case_match; auto using ok_run_trap_bdos). clearbody p.
  destruct p as [[] s']; try done. case_match; auto using ok_run_trap_bios.
Qed.
End MachOps2.

Section MachOps3.
Context `{HostOk W} (d : z80_decoded) (Hd : dec_ok 8 d) (s : mach W) (Hs : cpu_ok s.1).

Lemma ok_op_LD_R_N : cpu_ok (op_LD_R_N d s).1.
Proof. ok_op op_LD_R_N. Qed.
Lemma ok_op_LD_R_R : cpu_ok (op_LD_R_R d s).1.
Proof. ok_op op_LD_R_R. Qed.
Lemma ok_op_INC_HL_ind : cpu_ok (op_INC_HL_ind d s).1.
Proof. ok_op op_INC_HL_ind. Qed.
Lemma ok_op_DEC_HL_ind : cpu_ok (op_DEC_HL_ind d s).1.
Proof. ok_op op_DEC_HL_ind. Qed.
Lemma ok_op_LD_NN_A : cpu_ok (op_LD_NN_A d s).1.
Proof. ok_op op_LD_NN_A. Qed.
Lemma ok_op_LD_HL_A_ind : cpu_ok (op_LD_HL_A_ind d s).1.
Proof. ok_op op_LD_HL_A_ind. Qed.
Lemma ok_op_LD_R_HL_ind : cpu_ok (op_LD_R_HL_ind d s).1.
Proof. ok_op op_LD_R_HL_ind. Qed.
Lemma ok_op_LD_HL_R_ind : cpu_ok (op_LD_HL_R_ind d s).1.
Proof. ok_op op_LD_HL_R_ind. Qed.
Lemma ok_op_LD_HL_N : cpu_ok (op_LD_HL_N d s).1.
Proof. ok_op op_LD_HL_N. Qed.
Lemma ok_op_LD_DE_A : cpu_ok (op_LD_DE_A s).1.
Proof. ok_op op_LD_DE_A. Qed.
Lemma ok_op_LD_BC_A : cpu_ok (op_LD_BC_A s).1.
Proof. ok_op op_LD_BC_A. Qed.
Lemma ok_op_INC_R : cpu_ok (op_INC_R d s).1.
Proof. pose proof ok_op_INC_HL_ind. ok_op op_INC_R. Qed.
Lemma ok_op_DEC_R : cpu_ok (op_DEC_R d s).1.
Proof. pose proof ok_op_DEC_HL_ind. ok_op op_DEC_R. Qed.
Lemma ok_op_EX_SP_HL : cpu_ok (op_EX_SP_HL d s).1.
Proof. ok_op op_EX_SP_HL. Qed.
Lemma ok_op_HALT : cpu_ok (op_HALT s).1.
Proof. done. Qed.
Lemma ok_op_JP_NN : cpu_ok (op_JP_NN d s).2.1.
Proof. unfold op_JP_NN. apply ok_jump_traps. in_range. Qed.
Lemma ok_op_JP_CC_NN : cpu_ok (op_JP_CC_NN d s).2.1.
Proof. unfold op_JP_CC_NN. case_match; [apply ok_jump_traps|]; simpl; in_range. Qed.
Lemma ok_op_JP_HL : cpu_ok (op_JP_HL s).2.1.
Proof. unfold op_JP_HL. apply ok_jump_traps. in_range. Qed.
Lemma ok_op_CALL_NN : cpu_ok (op_CALL_NN d s).2.1.
Proof.
  unfold op_CALL_NN. apply ok_call_traps. assert (cpu_ok (push16 (rPC s.1) s).1) by in_range.
  in_range.
Qed.
Lemma ok_op_CALL_CC_NN : cpu_ok (op_CALL_CC_NN d s).1.
Proof. unfold op_CALL_CC_NN. case_match; apply ok_on_cpu; in_range. Qed.
Lemma ok_op_RET : cpu_ok (op_RET s).2.1.
Proof. unfold op_RET. simpl. in_range. Qed.
Lemma ok_op_PUSH_RR : cpu_ok (op_PUSH_RR d s).1.
Proof. unfold op_PUSH_RR. apply ok_push16; [done|]. repeat case_match; in_range. Qed.
Lemma ok_op_RST : cpu_ok (op_RST d s).1.
Proof. unfold op_RST. apply ok_on_cpu. in_range. Qed.
Lemma ok_op_OUT_N_A : cpu_ok (op_OUT_N_A d s).1.
Proof.
  unfold op_OUT_N_A. apply ok_on_cpu.
  assert (cpu_ok (io_out (imm8 d) (rA s.1) (rA s.1) s).1) by in_range. in_range.
Qed.
Lemma ok_op_IN_A_N : cpu_ok (op_IN_A_N d s).1.
Proof.
  unfold op_IN_A_N. pose proof (ok_io_in s Hs (imm8 d) (rA s.1)) as [Hv Hc].
  destruct (io_in _ _ _). simpl in *. in_range.
Qed.
Lemma ok_io_write_r8 r v c : cpu_ok c → is_byte v → cpu_ok (io_write_r8 r v c).
Proof. ok_op io_write_r8. Qed.
Lemma ok_op_IN_R_C : cpu_ok (op_IN_R_C d s).1.
Proof.
  pose proof ok_io_write_r8. unfold op_IN_R_C.
  pose proof (ok_io_in s Hs (rC s.1) (rB s.1)) as [Hv Hc].
  destruct (io_in _ _ _). simpl in *. unfold set_flags_logic.
  assert (∀ c, cpu_ok c → cpu_ok (with_f (rF c &~ FLAG_H) c)) as Hh by in_range.
  apply Hh, ok_with_f; [|in_range]. case_match; in_range.
Qed.
Lemma ok_op_OUT_C_R : cpu_ok (op_OUT_C_R d s).1.
Proof.
  unfold op_OUT_C_R. apply ok_on_cpu.
  assert (∀ v, cpu_ok (io_out (rC s.1) (rB s.1) v s).1) by in_range. in_range.
Qed.
Lemma ok_ld_one incr : cpu_ok (ld_one incr s).2.1.
Proof. unfold ld_one. simpl. in_range. Qed.
Lemma ok_op_LD_NN_RR : cpu_ok (op_LD_NN_RR d s).1.
Proof. ok_op op_LD_NN_RR. Qed.
Lemma ok_op_LD_NN_HL : cpu_ok (op_LD_NN_HL d s).1.
Proof. ok_op op_LD_NN_HL. Qed.
Lemma ok_op_LDI_LDD t : cpu_ok (op_LDI_LDD t s).1.
Proof. unfold op_LDI_LDD. simpl. in_range. Qed.
Lemma ok_op_RRD_RLD t : cpu_ok (op_RRD_RLD t s).1.
Proof.
  assert (cpu_ok s.1 → is_byte (mget (mem s.1) (rHL s.1))) by in_range.
  unfold op_RRD_RLD. destruct (match t with Z80_OP_RRD => _ | _ => _ end) as [a m] eqn:E.
  assert (is_byte a ∧ is_byte m) as [].
  { destruct t; injection E as <- <-; split; in_range. }
  in_range.
Qed.
Lemma cb_addr_word : is_word (cb_addr d s.1).
Proof. ok_op cb_addr. Qed.
Lemma cb_operand_byte r : is_byte (cb_operand d r s.1).
Proof. ok_op cb_operand. Qed.
Lemma ok_cb_write r v : is_byte v → cpu_ok (cb_write d r v s).1.
Proof. ok_op cb_write. Qed.
End MachOps3.

Lemma cb_shift_byte g v k : is_byte v → is_byte (cb_shift g v k).2.
Proof. unfold cb_shift. intros. repeat case_match; simpl; in_range. Qed.
Lemma byte_or_bit v b : is_byte v → 0 <= b <= 7 → is_byte (v |' (1 <<' b)).
Proof.
  intros Hv Hb. apply byte_lor; [done|]. rewrite Z.shiftl_1_l.
  split; [apply Z.pow_nonneg; lia|]. apply (Z.pow_lt_mono_r 2 b 8); lia.
Qed.
Lemma low3_bound a : 0 <= a &' 7 <= 7.
Proof.
  pose proof (Z.land_ones a 3 ltac:(lia)) as E. change (Z.ones 3) with 7 in E.
  pose proof (Z.mod_pos_bound a (2 ^ 3)). lia.
Qed.

Lemma ok_op_CB `{HostOk W} d (s : mach W) : cpu_ok s.1 → cpu_ok (op_CB d s).1.
Proof.
  intros Hs. unfold op_CB. pose proof (cb_operand_byte d s Hs (imm8 d &' 7)) as Hv.
  case_match; [in_range|]. case_match; [apply ok_cb_write; in_range|].
  case_match; [apply ok_cb_write, byte_or_bit; auto using low3_bound|].
  destruct (cb_shift _ _ _) as [k r] eqn:E.
  pose proof (cb_shift_byte ((imm8 d >>' 3) &' 7) _ (nz (rF s.1 &' FLAG_C)) Hv) as Hr.
  rewrite E in Hr. apply ok_on_cpu, ok_with_f; [by apply ok_cb_write|in_range].
Qed.

(** ** The in-step loops *)

Section Loops.
Context `{HostOk W}.
Implicit Types s : mach W.

Lemma ok_io_body_in step s : cpu_ok s.1 → cpu_ok (io_body_in step s).2.1.
Proof.
  intros Hs. unfold io_body_in. pose proof (ok_io_in s Hs (rC s.1) (rB s.1)) as [Hv Hc].
  destruct (io_in _ _ _) as [v s']. simpl in *. in_range.
Qed.
Lemma ok_io_body_out step s : cpu_ok s.1 → cpu_ok (io_body_out step s).2.1.
Proof.
  intros Hs. unfold io_body_out. cbv zeta. set (s' := on_cpu (λ c, set_rB _ c) s).
  assert (cpu_ok s'.1) by (subst s'; in_range).
  assert (cpu_ok (io_out (rC s'.1) (rB s'.1) (mget (mem s.1) (rHL s.1)) s').1) by in_range.
  simpl. in_range.
Qed.
Lemma ok_io_loop fuel rep body s :
  (∀ s, cpu_ok s.1 → cpu_ok (body s).2.1) → cpu_ok s.1 →
  cpu_ok (io_loop fuel rep body s).2.1.
Proof.
  intros Hb. revert s. induction fuel as [|fuel IH]; intros s Hs; simpl;
    pose proof (Hb s Hs); destruct (body s) as [[v k] s']; [done|]. case_match; auto.
Qed.
Lemma ok_io_block t s : cpu_ok s.1 → cpu_ok (io_block t s).1.
Proof.
  intros Hs. unfold io_block. set (body := if io_dir_in t then _ else _).
  assert (cpu_ok (io_loop 255 (io_rep t) body s).2.1) as Hl.
  { apply ok_io_loop; [|done]. subst body. intros s'. case_match;
      [apply ok_io_body_in|apply ok_io_body_out]. }
  destruct (io_loop _ _ _ _) as [[v k] s']. simpl in *. in_range.
Qed.

Lemma io_in_B p h s : rB (io_in p h s).2.1 = rB s.1.
Proof.
  unfold io_in. destruct s. destruct port_in_hook eqn:E; [by eapply port_in_B|done].
Qed.
Lemma io_out_B p h v s : rB (io_out p h v s).1 = rB s.1.
Proof.
  unfold io_out. destruct s. destruct port_out_hook eqn:E; [by eapply port_out_B|done].
Qed.

(** Each pass decrements B, whatever the devices do. *)
Lemma io_body_B t s :
  rB ((if io_dir_in t then io_body_in else io_body_out)
        (if io_down t then -1 else 1) s).2.1 = u8 (rB s.1 - 1).
Proof.
  generalize (if io_down t then -1 else 1). intros step. case_match.
  - unfold io_body_in. pose proof (io_in_B (rC s.1) (rB s.1) s) as HB.
    destruct (io_in _ _ _) as [v [c' w']]. simpl in *. by rewrite <- HB.
  - unfold io_body_out. cbv zeta. set (s' := on_cpu (λ c, set_rB _ c) s).
    change (rB (io_out (rC s'.1) (rB s'.1) (mget (mem s.1) (rHL s.1)) s').1 = u8 (rB s.1 - 1)).
    by rewrite io_out_B.
Qed.

Lemma io_loop_B t fuel s :
  cpu_ok s.1 → io_rep t = true → u8 (rB s.1 - 1) <= Z.of_nat fuel →
  rB (io_loop fuel true ((if io_dir_in t then io_body_in else io_body_out)
        (if io_down t then -1 else 1)) s).2.1 = 0.
Proof.
  set (body := (if io_dir_in t then _ else _) _).
  assert (∀ s, cpu_ok s.1 → cpu_ok (body s).2.1) as Hok.
  { intros s'. subst body. case_match; [apply ok_io_body_in|apply ok_io_body_out]. }
  pose proof (io_body_B t : ∀ s, rB (body s).2.1 = _) as HB. clearbody body.
  intros Hs Ht. revert s Hs. induction fuel as [|fuel IH]; intros s Hs Hf; simpl;
    pose proof (HB s) as HB'; pose proof (Hok s Hs) as Hs';
    destruct (body s) as [[v k] s'] eqn:E; simpl in *.
  - pose proof (u8_byte (rB s.1 - 1)) as Hu. unfold is_byte in Hu. lia.
  - destruct (Z.eqb_spec (rB s'.1) 0) as [|Hne]; simpl; [done|].
    apply IH; [done|]. pose proof (ok_rB _ Hs') as Hb. unfold is_byte in Hb.
    unfold u8. rewrite Z.mod_small by lia. lia.
Qed.

Lemma ok_ld_loop fuel incr last s :
  cpu_ok s.1 → cpu_ok (ld_loop fuel incr last s).2.1.
Proof.
  revert last s. induction fuel as [|fuel IH]; intros last s Hs; simpl; [done|].
  case_match; [done|]. apply IH. by apply ok_ld_one.
Qed.
Lemma ok_op_LDIR_LDDR t s : cpu_ok s.1 → cpu_ok (op_LDIR_LDDR t s).1.
Proof.
  intros Hs. unfold op_LDIR_LDDR. set (incr := match t with Z80_OP_LDIR => 1 | _ => -1 end).
  pose proof (ok_ld_loop (Z.to_nat (rBC s.1)) incr 0 s Hs) as Hl.
  destruct (ld_loop _ _ _ _). simpl in *. in_range.
Qed.
End Loops.

(** ** The step *)

Create HintDb opsdb.
#[local] Hint Resolve ok_op_LD_RR_NN ok_op_LD_R_N ok_op_LD_R_R ok_op_INC_HL_ind
  ok_op_DEC_HL_ind ok_op_LD_NN_A ok_op_LD_A_NN ok_op_LD_A_BC ok_op_LD_A_DE ok_op_LD_A_HL_ind
  ok_op_LD_HL_A_ind ok_op_LD_R_HL_ind ok_op_LD_HL_R_ind ok_op_LD_HL_N ok_op_LD_DE_A
  ok_op_LD_BC_A ok_op_INC_R ok_op_DEC_R ok_op_INC_RR ok_op_DEC_RR ok_op_ADD_A_R ok_op_ADD_A_N
  ok_op_ADD_A_HL_ind ok_op_SUB_A_HL_ind ok_op_AND_A_HL_ind ok_op_XOR_A_HL_ind
  ok_op_OR_A_HL_ind ok_op_CP_A_HL_ind ok_op_SUB_A_R ok_op_ADC_A_R ok_op_ADC_A_HL_ind
  ok_op_ADC_A_N ok_op_SBC_A_R ok_op_SBC_A_HL_ind ok_op_SBC_A_N ok_op_EX_SP_HL ok_op_DI
  ok_op_EI ok_op_IM ok_op_RETN ok_op_LD_I_A ok_op_LD_R_A ok_op_LD_A_IR ok_op_HALT
  ok_op_SUB_A_N ok_op_AND_A_R ok_op_AND_A_N ok_op_OR_A_R ok_op_OR_A_N ok_op_XOR_A_R
  ok_op_XOR_A_N ok_op_CP_A_R ok_op_CP_A_N ok_op_JP_NN ok_op_JP_CC_NN ok_op_LD_SP_HL
  ok_op_JP_HL ok_op_JR_E ok_op_JR_CC_E ok_op_CALL_NN ok_op_CALL_CC_NN ok_op_RET ok_op_RET_CC
  ok_op_PUSH_RR ok_op_POP_RR ok_op_EX_DE_HL ok_op_EX_AF_AF ok_op_RLCA ok_op_RRCA ok_op_RLA
  ok_op_RRA ok_op_EXX ok_op_DJNZ ok_op_RST ok_op_OUT_N_A ok_op_IN_A_N ok_op_IN_R_C
  ok_op_OUT_C_R ok_io_block ok_op_LDIR_LDDR ok_op_ADD_HL_RR ok_op_ADC_HL_RR ok_op_LD_NN_RR
  ok_op_LD_RR_NN_IND ok_op_SBC_HL_RR ok_op_LD_NN_HL ok_op_LD_HL_indNN ok_op_CPL ok_op_SCF
  ok_op_CCF ok_op_DAA ok_op_NEG ok_op_LDI_LDD ok_op_RRD_RLD ok_op_CPI_CPD ok_op_CB
  ok_op_LD_A_IXH ok_op_LD_A_IXL : opsdb.

Section StepOk.
Context `{HostOk W}.
Implicit Types s : mach W.

Lemma ok_pure f s : cpu_ok (f s.1) → cpu_ok (pure f s).2.1.
Proof. done. Qed.
Lemma ok_run f s : cpu_ok (f s).1 → cpu_ok (run f s).2.1.
Proof. done. Qed.

Lemma ok_exec d old_pc q s :
  dec_ok 8 d → is_word old_pc → cpu_ok s.1 → cpu_ok (exec d old_pc q s).2.1.
Proof.
  intros Hd Hpc Hs. unfold exec.
  destruct (dtype d); try done.
  all: try lazymatch goal with
    | |- cpu_ok (pure _ _).2.1 => apply ok_pure
    | |- cpu_ok (run _ _).2.1 => apply ok_run
    end; auto with opsdb.
Qed.

Lemma ok_advance d c : cpu_ok c → cpu_ok (advance d c).
Proof. unfold advance. in_range. Qed.
Lemma ok_bump_insn c : cpu_ok c → cpu_ok (bump_insn c).
Proof. unfold bump_insn. in_range. Qed.

Lemma ok_z80_step s : cpu_ok s.1 → cpu_ok (z80_step s).2.1.
Proof.
  intros Hs. unfold z80_step.
  set (d := z80_decode_one _ _). assert (dec_ok 8 d) by (apply decode_ok; in_range).
  assert (cpu_ok (exec d (rPC s.1) (rQ s.1) (on_cpu (advance d) s)).2.1) as He.
  { apply ok_exec; [done|in_range|]. by apply ok_on_cpu, ok_advance. }
  destruct (exec _ _ _ _) as [[] s']; [by apply ok_on_cpu, ok_bump_insn|done|done].
Qed.
End StepOk.
