(* ===== verification/InterpSpec.v ===== *)
(** * InterpSpec: what the interpreter's operations compute

    The properties of [z80_step] and its operations: the width invariant
    over runs, when a step fails, the arithmetic meaning of the flags, BCD
    correctness of DAA, the block moves as memory copies and fills, and the
    termination of the loops inside a step. *)

From Stdlib Require Import ZArith Lia Bool List.
From stdpp Require Import base gmap list.
From S2P Require Import Prelude Cpu Decode Interp InterpOk.

Open Scope Z_scope.
Open Scope z80_scope.

(** ** Steps and runs *)

(** Every run of the interpreter keeps the machine well-formed: after
    any number of [z80_step]s from a context whose registers and memory
    cells are within their C types, so they are again, whatever the program
    bytes are and whatever a host that keeps its promise does in ports and
    CP/M traps. *)
Theorem steps_preserve_ok `{HostOk W} n (s : mach W) :
  cpu_ok s.1 → cpu_ok (z80_steps n s).2.1.
Proof.
  revert s. induction n as [|n IH]; intros s Hs; simpl; [done|].
  pose proof (ok_z80_step s Hs). destruct (z80_step s) as [[] s']; [by apply IH|done|done].
Qed.

Example steps_preserve_ok_witness :
  let c := set_mem (mset_list 0 [0x3E; 0xFF; 0x3C; 0x21; 0xFF; 0xFF; 0x77; 0xED; 0xB0] ∅) z80_cpu_init in
  rA (z80_steps 4 (c, ())).2.1 = 0 ∧ cpu_ok (z80_steps 5 (c, ())).2.1.
Proof.
  split; [by vm_compute|]. apply (steps_preserve_ok (H0 := bare_host_ok)).
  apply ok_set_mem; [apply z80_cpu_init_ok|in_range].
Defined.

Lemma run_trap_not_err {W} (f : mach W → bool * mach W) s : (run_trap f s).1 ≠ RC_ERR.
Proof. unfold run_trap. by destruct (f s) as [[] ?]. Qed.
Lemma jump_traps_not_err `{Host W} (s : mach W) : (jump_traps s).1 ≠ RC_ERR.
Proof. unfold jump_traps. repeat case_match; auto using run_trap_not_err. Qed.
Lemma call_traps_not_err `{Host W} (s : mach W) : (call_traps s).1 ≠ RC_ERR.
Proof.
  unfold call_traps. set (p := if _ : bool then run_trap _ _ else _).
  assert (p.1 ≠ RC_ERR) by (subst p; case_match; auto using run_trap_not_err). clearbody p.
  destruct p as [[] s']; try done. simpl. case_match; auto using run_trap_not_err.
Qed.
Lemma exec_err `{Host W} d old_pc q (s : mach W) :
  (exec d old_pc q s).1 = RC_ERR ↔ dtype d = Z80_OP_UNKNOWN.
Proof.
  split; [|by unfold exec; intros ->].
  unfold exec. destruct (dtype d); try done; intros E; exfalso; revert E;
    unfold op_JP_NN, op_JP_CC_NN, op_JP_HL, op_CALL_NN; try case_match; try done.
  all: try apply jump_traps_not_err; try apply call_traps_not_err.
  unfold op_RET. simpl. by case_match.
Qed.

(** The interpreter stops with an error ("UNIMPLEMENTED", -1) on exactly
    one program shape, five or more consecutive DD/FD prefixes; every other
    byte sequence is executed. *)
Theorem step_error `{Host W} (s : mach W) :
  cpu_ok s.1 →
  ((z80_step s).1 = RC_ERR ↔
   ∀ j, 0 <= j < 5 → is_idx (mget (mem s.1) (u16 (rPC s.1 + j))) = true).
Proof.
  intros Hs. rewrite <- unknown_iff by in_range.
  unfold z80_step. rewrite <- (exec_err _ (rPC s.1) (rQ s.1) (on_cpu (advance (z80_decode_one (mem s.1) (rPC s.1))) s)).
  by destruct (exec _ _ _ _) as [[] ?].
Qed.

Example step_error_witness :
  let bad := set_mem (mset_list 0 [0xDD; 0xDD; 0xFD; 0xFD; 0xDD; 0x00] ∅) z80_cpu_init in
  let good := set_mem (mset_list 0 [0xDD; 0xDD; 0xFD; 0xFD; 0x23] ∅) z80_cpu_init in
  (z80_step (bad, ())).1 = RC_ERR ∧ (z80_step (good, ())).1 = RC_OK.
Proof.
  split; [|by vm_compute]. apply step_error.
  - apply ok_set_mem; [apply z80_cpu_init_ok|in_range].
  - intros j Hj.
    assert (j = 0 ∨ j = 1 ∨ j = 2 ∨ j = 3 ∨ j = 4) as [-> | [-> | [-> | [-> | ->]]]] by lia;
      by vm_compute.
Defined.

(** ** Arithmetic meaning of the 8-bit flags *)

(** The flags of [a + b + cin], stated on integers: unsigned and nibble
    carry, signed overflow, sign and zero of the result, and the
    undocumented bits 5 and 3 of the result. *)
Definition add_flags_spec (a b cin : Z) : Z :=
  let sum := a + b + cin in
  flag_if (128 <=? sum mod 256) FLAG_S + flag_if (sum mod 256 =? 0) FLAG_Z
  + flag_if (Z.testbit sum 5) FLAG_5 + flag_if (16 <=? a mod 16 + b mod 16 + cin) FLAG_H
  + flag_if (Z.testbit sum 3) FLAG_3
  + flag_if (negb ((-128 <=? s8 a + s8 b + cin) && (s8 a + s8 b + cin <=? 127))) FLAG_PV
  + flag_if (256 <=? sum) FLAG_C.

Definition sub_flags_spec (a b cin : Z) : Z :=
  let diff := a - b - cin in
  flag_if (128 <=? diff mod 256) FLAG_S + flag_if (diff mod 256 =? 0) FLAG_Z
  + flag_if (Z.testbit diff 5) FLAG_5 + flag_if (a mod 16 - b mod 16 - cin <? 0) FLAG_H
  + flag_if (Z.testbit diff 3) FLAG_3
  + flag_if (negb ((-128 <=? s8 a - s8 b - cin) && (s8 a - s8 b - cin <=? 127))) FLAG_PV
  + FLAG_N + flag_if (diff <? 0) FLAG_C.

Lemma adc_flags_arith a b k :
  is_byte a → is_byte b → adc_flags a b (if k : bool then 1 else 0) = add_flags_spec a b (if k then 1 else 0).
Proof.
  intros Ha Hb. apply Z.eqb_eq. revert a b Ha Hb. destruct k;
    refine (forall_bytes2 (λ a b, adc_flags a b _ =? add_flags_spec a b _) _); by vm_compute.
Qed.
Lemma sbc_flags_arith a b k :
  is_byte a → is_byte b → sbc_flags a b (if k : bool then 1 else 0) = sub_flags_spec a b (if k then 1 else 0).
Proof.
  intros Ha Hb. apply Z.eqb_eq. revert a b Ha Hb. destruct k;
    refine (forall_bytes2 (λ a b, sbc_flags a b _ =? sub_flags_spec a b _) _); by vm_compute.
Qed.
Lemma add_flags_adc a b : is_byte a → is_byte b → add_flags a b (u8 (a + b)) = adc_flags a b 0.
Proof.
  intros Ha Hb. apply Z.eqb_eq. revert a b Ha Hb.
  refine (forall_bytes2 (λ a b, add_flags a b _ =? adc_flags a b _) _); by vm_compute.
Qed.
Lemma sub_flags_sbc a b : is_byte a → is_byte b → sub_flags a b (u8 (a - b)) = sbc_flags a b 0.
Proof.
  intros Ha Hb. apply Z.eqb_eq. revert a b Ha Hb.
  refine (forall_bytes2 (λ a b, sub_flags a b _ =? sbc_flags a b _) _); by vm_compute.
Qed.

Lemma carry_in_bool f : ∃ k : bool, carry_in f = if k then 1 else 0.
Proof. unfold carry_in. eexists. done. Qed.

(** C15: the accumulator's additions and subtractions (ADD, ADC, SUB, SBC)
    leave in A the sum or difference modulo 256 and in F the flags of the
    integer operation: C is the unsigned carry or borrow, H the low-nibble
    one, P/V signed overflow, S and Z of the result, N the operation, and
    bits 5 and 3 copied from the result. *)
Theorem alu_arithmetic c b :
  cpu_ok c → is_byte b →
  (rA (alu_ADD b c) = (rA c + b) mod 256 ∧ rF (alu_ADD b c) = add_flags_spec (rA c) b 0) ∧
  (rA (alu_ADC b c) = (rA c + b + carry_in (rF c)) mod 256 ∧
   rF (alu_ADC b c) = add_flags_spec (rA c) b (carry_in (rF c))) ∧
  (rA (alu_SUB b c) = (rA c - b) mod 256 ∧ rF (alu_SUB b c) = sub_flags_spec (rA c) b 0) ∧
  (rA (alu_SBC b c) = (rA c - b - carry_in (rF c)) mod 256 ∧
   rF (alu_SBC b c) = sub_flags_spec (rA c) b (carry_in (rF c))).
Proof.
  intros Hc Hb. pose proof (ok_rA _ Hc) as Ha.
  destruct (carry_in_bool (rF c)) as [k Hk]. split_and!; try done; simpl.
  - rewrite add_flags_adc by done. by apply (adc_flags_arith _ _ false).
  - rewrite Hk. by apply adc_flags_arith.
  - rewrite sub_flags_sbc by done. by apply (sbc_flags_arith _ _ false).
  - rewrite Hk. by apply sbc_flags_arith.
Qed.

Example alu_arithmetic_witness :
  let c := set_rF 0x01 (set_rA 0x7F z80_cpu_init) in
  rA (alu_ADC 0x00 c) = 0x80 ∧ rF (alu_ADC 0x00 c) = FLAG_S + FLAG_H + FLAG_PV.
Proof.
  pose proof (alu_arithmetic (set_rF 0x01 (set_rA 0x7F z80_cpu_init)) 0) as H.
  destruct H as (_ & [HA HF] & _);
    [apply ok_set_rF; [apply ok_set_rA; [apply z80_cpu_init_ok|]|]; in_range|in_range|].
  split; [rewrite HA|rewrite HF]; by vm_compute.
Defined.

(** ** Decimal adjust *)

Definition bcd (n : Z) : Z := 16 * (n / 10) + n mod 10.

Definition bcd_add_ok (x y : Z) (k : bool) : bool :=
  let sum := bcd x + bcd y + (if k then 1 else 0) in
  let '(a, f) := daa (sum mod 256) (adc_flags (bcd x) (bcd y) (if k then 1 else 0)) in
  (a =? bcd ((x + y + (if k then 1 else 0)) mod 100))
  && eqb (nz (f &' FLAG_C)) (100 <=? x + y + (if k then 1 else 0)).
Definition bcd_sub_ok (x y : Z) (k : bool) : bool :=
  let diff := bcd x - bcd y - (if k then 1 else 0) in
  let '(a, f) := daa (diff mod 256) (sbc_flags (bcd x) (bcd y) (if k then 1 else 0)) in
  (a =? bcd ((x - y - (if k then 1 else 0)) mod 100))
  && eqb (nz (f &' FLAG_C)) (x - y - (if k then 1 else 0) <? 0).

Lemma bcd_all x y k : 0 <= x < 100 → 0 <= y < 100 → bcd_add_ok x y k && bcd_sub_ok x y k = true.
Proof.
  intros Hx Hy.
  refine (forall_zseq (λ y, bcd_add_ok x y k && bcd_sub_ok x y k) 0 100 _ y ltac:(lia)).
  refine (forall_zseq (λ x, forallb (λ y, bcd_add_ok x y k && bcd_sub_ok x y k) (zseq 0 100)) 0 100 _ x ltac:(lia)).
  destruct k; by vm_compute.
Qed.

Lemma bcd_byte x : 0 <= x < 100 → is_byte (bcd x).
Proof.
  intros Hx. unfold bcd, is_byte.
  assert (0 <= x / 10 < 10) by (split; [apply Z.div_pos; lia|apply Z.div_lt_upper_bound; lia]).
  pose proof (Z.mod_pos_bound x 10). lia.
Qed.

Lemma op_DAA_A c : rA (op_DAA c) = (daa (rA c) (rF c)).1.
Proof. unfold op_DAA. by destruct (daa _ _). Qed.
Lemma op_DAA_F c : rF (op_DAA c) = (daa (rA c) (rF c)).2.
Proof. unfold op_DAA. by destruct (daa _ _). Qed.

(** C16: DAA is correct decimal arithmetic: with A and the operand packed BCD
    numbers x, y below 100, ADC then DAA leaves the BCD of (x + y + carry)
    mod 100 with C telling whether the sum reached 100, and SBC then DAA
    leaves the BCD of (x - y - carry) mod 100 with C telling whether a
    borrow occurred. *)
Theorem daa_bcd c x y :
  0 <= x < 100 → 0 <= y < 100 → rA c = bcd x →
  let k := carry_in (rF c) in
  (rA (op_DAA (alu_ADC (bcd y) c)) = bcd ((x + y + k) mod 100) ∧
   carry_in (rF (op_DAA (alu_ADC (bcd y) c))) = if 100 <=? x + y + k then 1 else 0) ∧
  (rA (op_DAA (alu_SBC (bcd y) c)) = bcd ((x - y - k) mod 100) ∧
   carry_in (rF (op_DAA (alu_SBC (bcd y) c))) = if x - y - k <? 0 then 1 else 0).
Proof.
  intros Hx Hy HA k. subst k. rewrite !op_DAA_A, !op_DAA_F. unfold alu_ADC, alu_SBC. cbn [rA rF set_rA].
  change (rF (with_f ?f _)) with f. rewrite HA.
  destruct (carry_in_bool (rF c)) as [k ->].
  pose proof (bcd_all x y k Hx Hy) as H. apply andb_prop in H as [Hadd Hsub].
  unfold bcd_add_ok, bcd_sub_ok in *. unfold carry_in. change u8 with (λ x, x mod 256). split.
  - destruct (daa _ (adc_flags _ _ _)) as [a f]. apply andb_prop in Hadd as [->%Z.eqb_eq Hf%eqb_prop].
    cbn [fst snd]. by rewrite Hf.
  - destruct (daa _ (sbc_flags _ _ _)) as [a f]. apply andb_prop in Hsub as [->%Z.eqb_eq Hf%eqb_prop].
    cbn [fst snd]. by rewrite Hf.
Qed.

Example daa_bcd_witness :
  let c := set_rF 0x01 (set_rA 0x58 z80_cpu_init) in
  rA (op_DAA (alu_ADC 0x46 c)) = 0x05 ∧ rA (op_DAA (alu_SBC 0x46 c)) = 0x11.
Proof.
  pose proof (daa_bcd (set_rF 0x01 (set_rA 0x58 z80_cpu_init)) 58 46) as H.
  destruct H as [[H1 _] [H2 _]]; [lia|lia|by vm_compute|].
  change 0x46 with (bcd 46). split; [rewrite H1|rewrite H2]; by vm_compute.
Defined.

(** ** Block moves *)

(** Copy [n] bytes one at a time, both pointers stepping by [incr] modulo
    64K: what the loop does to memory. *)
Fixpoint copy_mem (n : nat) (incr src dst : Z) (m : memory) : memory :=
  match n with
  | O => m
  | S n => copy_mem n incr (u16 (src + incr)) (u16 (dst + incr)) (mset dst (mget m src) m)
  end.

Lemma u16_step x incr i : u16 (u16 (x + incr) + incr * i) = u16 (x + incr * (i + 1)).
Proof. rewrite u16_add_l. f_equal. lia. Qed.

Lemma u16_distinct x incr i j :
  (incr = 1 ∨ incr = -1) → 0 <= i → i < j → j < 65536 →
  u16 (x + incr * i) ≠ u16 (x + incr * j).
Proof. unfold u16. intros [-> | ->] ? ? ? E; Z.div_mod_to_equations; lia. Qed.

Section Copy.
Context (incr : Z) (Hincr : incr = 1 ∨ incr = -1).

Lemma copy_mem_other n src dst m b :
  is_word dst → (∀ i, 0 <= i < Z.of_nat n → u16 (dst + incr * i) ≠ b) →
  mget (copy_mem n incr src dst m) b = mget m b.
Proof.
  revert src dst m. induction n as [|n IH]; intros src dst m Hd Hb; [done|]. cbn [copy_mem].
  rewrite IH.
  - apply mget_mset_ne. specialize (Hb 0 ltac:(lia)). by rewrite Z.mul_0_r, Z.add_0_r, u16_id in Hb.
  - in_range.
  - intros i Hi. rewrite u16_step. apply Hb. lia.
Qed.

(** No byte is overwritten before it has been read. *)
Definition read_before_write (n : Z) (src dst : Z) : Prop :=
  ∀ i j, 0 <= i < j → j < n → u16 (dst + incr * i) ≠ u16 (src + incr * j).

Lemma copy_mem_spec n src dst m i :
  Z.of_nat n <= 65536 → is_word src → is_word dst →
  read_before_write (Z.of_nat n) src dst → 0 <= i < Z.of_nat n →
  mget (copy_mem n incr src dst m) (u16 (dst + incr * i)) = mget m (u16 (src + incr * i)).
Proof.
  revert src dst m i. induction n as [|n IH]; intros src dst m i Hn Hs Hd Hrw Hi; [lia|].
  cbn [copy_mem]. destruct (Z.eq_dec i 0) as [->|Hi0].
  - rewrite !Z.mul_0_r, !Z.add_0_r, (u16_id src), (u16_id dst) by done. rewrite copy_mem_other.
    + apply mget_mset_eq.
    + in_range.
    + intros k Hk. rewrite u16_step. intros E. apply (u16_distinct dst incr 0 (k + 1)); [done|lia..|].
      by rewrite Z.mul_0_r, Z.add_0_r, (u16_id dst).
  - replace i with (i - 1 + 1) by lia. rewrite <- !u16_step, IH; try lia; try in_range.
    + rewrite u16_step. apply mget_mset_ne. rewrite <- (u16_id dst) by done.
      specialize (Hrw 0 (i - 1 + 1) ltac:(lia) ltac:(lia)). by rewrite Z.mul_0_r, Z.add_0_r in Hrw.
    + intros a b Ha Hb. rewrite !u16_step. apply Hrw; lia.
Qed.

(** With the destination one ahead of the source the first byte spreads. *)
Lemma copy_mem_fill n src m i :
  Z.of_nat n < 65536 → is_word src → 0 <= i <= Z.of_nat n →
  mget (copy_mem n incr src (u16 (src + incr)) m) (u16 (src + incr * i)) = mget m src.
Proof.
  revert src m i. induction n as [|n IH]; intros src m i Hn Hs Hi.
  - replace i with 0 by lia. by rewrite Z.mul_0_r, Z.add_0_r, (u16_id src).
  - cbn [copy_mem]. destruct (Z.eq_dec i 0) as [->|Hi0].
    + rewrite Z.mul_0_r, Z.add_0_r, (u16_id src) by done. rewrite copy_mem_other.
      * apply mget_mset_ne. intros E. apply (u16_distinct src incr 0 1); [done|lia..|].
        rewrite Z.mul_0_r, Z.add_0_r, Z.mul_1_r, (u16_id src) by done. done.
      * in_range.
      * intros k Hk. rewrite u16_step. intros E. rewrite u16_add_l in E.
        apply (u16_distinct src incr 0 (k + 2)); [done|lia..|].
        rewrite Z.mul_0_r, Z.add_0_r, (u16_id src), <- E by done. f_equal. lia.
    + replace i with (i - 1 + 1) by lia. rewrite <- u16_step, IH; try lia; [|in_range].
      apply mget_mset_eq.
Qed.
End Copy.

Section LdLoop.
Context `{HostOk W}.
Implicit Types s : mach W.

Lemma ld_one_spec incr s :
  cpu_ok s.1 → let s' := (ld_one incr s).2 in
  rHL s'.1 = u16 (rHL s.1 + incr) ∧ rDE s'.1 = u16 (rDE s.1 + incr) ∧
  rBC s'.1 = u16 (rBC s.1 - 1) ∧
  mem s'.1 = mset (rDE s.1) (mget (mem s.1) (rHL s.1)) (mem s.1) ∧
  rA s'.1 = rA s.1 ∧ rF s'.1 = rF s.1.
Proof.
  intros Hs s'. split_and!; try done.
  - change (rHL (set_HL (u16 (rHL s.1 + incr)) s.1) = u16 (rHL s.1 + incr)).
    apply rHL_set_HL. in_range.
  - change (rDE (set_DE (u16 (rDE s.1 + incr)) s.1) = u16 (rDE s.1 + incr)).
    apply rDE_set_DE. in_range.
  - change (rBC (set_BC (u16 (rBC s.1 - 1)) s.1) = u16 (rBC s.1 - 1)).
    apply rBC_set_BC. in_range.
  - change (mset (u16 (rDE s.1)) (mget (mem s.1) (rHL s.1)) (mem s.1)
            = mset (rDE s.1) (mget (mem s.1) (rHL s.1)) (mem s.1)).
    by rewrite u16_id by in_range.
Qed.

Lemma ld_loop_spec n incr last s :
  cpu_ok s.1 → rBC s.1 = Z.of_nat n → let s' := (ld_loop n incr last s).2 in
  rHL s'.1 = u16 (rHL s.1 + incr * Z.of_nat n) ∧ rDE s'.1 = u16 (rDE s.1 + incr * Z.of_nat n) ∧
  rBC s'.1 = 0 ∧ mem s'.1 = copy_mem n incr (rHL s.1) (rDE s.1) (mem s.1) ∧
  rA s'.1 = rA s.1 ∧ rF s'.1 = rF s.1.
Proof.
  revert last s. induction n as [|n IH]; intros last s Hs HBC s'.
  - subst s'. cbn [ld_loop snd copy_mem]. rewrite Z.mul_0_r, !Z.add_0_r, !u16_id by in_range. done.
  - subst s'. cbn [ld_loop]. destruct (Z.eqb_spec (rBC s.1) 0) as [E|_]; [lia|].
    pose proof (ok_ld_one s Hs incr) as Hs1.
    destruct (ld_one_spec incr s Hs) as (HL & HD & HB & HM & HA & HF).
    destruct (ld_one incr s) as [v s1]. cbn [snd] in *.
    assert (rBC s1.1 = Z.of_nat n) as HB1.
    { rewrite HB, u16_id; [lia|]. pose proof (ok_rBC _ Hs). unfold is_word in *. lia. }
    specialize (IH v s1 Hs1 HB1). cbv zeta in IH.
    destruct IH as (-> & -> & -> & -> & -> & ->). rewrite HL, HD, HM, HA, HF.
    rewrite !u16_add_l. split_and!; try done; f_equal; lia.
Qed.

Definition ld_incr (t : z80_op_type) : Z := match t with Z80_OP_LDIR => 1 | _ => -1 end.

Lemma ldir_spec t s :
  cpu_ok s.1 → let s' := op_LDIR_LDDR t s in
  rHL s'.1 = u16 (rHL s.1 + ld_incr t * rBC s.1) ∧
  rDE s'.1 = u16 (rDE s.1 + ld_incr t * rBC s.1) ∧ rBC s'.1 = 0 ∧
  mem s'.1 = copy_mem (Z.to_nat (rBC s.1)) (ld_incr t) (rHL s.1) (rDE s.1) (mem s.1).
Proof.
  intros Hs s'. pose proof (ok_rBC _ Hs) as Hb. unfold is_word in Hb.
  destruct (ld_loop_spec (Z.to_nat (rBC s.1)) (ld_incr t) 0 s Hs ltac:(lia)) as (HL & HD & HB & HM & _).
  rewrite Z2Nat.id in HL, HD by lia.
  subst s'. unfold op_LDIR_LDDR. fold (ld_incr t).
  destruct (ld_loop _ _ _ _) as [v s2]. done.
Qed.
End LdLoop.

Lemma ld_incr_cases t : ld_incr t = 1 ∨ ld_incr t = -1.
Proof. destruct t; auto. Qed.

(** C17: LDIR and LDDR are memory copies.  One step ends with BC = 0 and HL,
    DE advanced by BC (mod 64K); memory outside the BC destination bytes is
    unchanged; and when no source byte is overwritten before it is read,
    each destination byte is the original source byte. *)
Theorem ldir_copies `{HostOk W} t (s : mach W) :
  cpu_ok s.1 →
  let n := rBC s.1 in
  let k := ld_incr t in
  let s' := op_LDIR_LDDR t s in
  rBC s'.1 = 0 ∧ rHL s'.1 = u16 (rHL s.1 + k * n) ∧ rDE s'.1 = u16 (rDE s.1 + k * n) ∧
  (∀ b, (∀ i, 0 <= i < n → u16 (rDE s.1 + k * i) ≠ b) → mget (mem s'.1) b = mget (mem s.1) b) ∧
  (read_before_write k n (rHL s.1) (rDE s.1) → ∀ i, 0 <= i < n →
   mget (mem s'.1) (u16 (rDE s.1 + k * i)) = mget (mem s.1) (u16 (rHL s.1 + k * i))).
Proof.
  intros Hs n k s'. destruct (ldir_spec t s Hs) as (HL & HD & HB & HM).
  pose proof (ok_rBC _ Hs) as Hn. unfold is_word in Hn. pose proof (ld_incr_cases t) as Hk.
  subst s' n k. rewrite HM. split_and!; try done.
  - intros b Hb. apply copy_mem_other; [in_range|]. rewrite Z2Nat.id by lia. done.
  - intros Hrw i Hi. apply copy_mem_spec; rewrite ?Z2Nat.id by lia; try done; try lia; in_range.
Qed.

Example ldir_copies_witness :
  let c := set_HL 0x100 (set_DE 0xFFFE (set_BC 3 (set_mem (mset_list 0x100 [1; 2; 3] ∅) z80_cpu_init))) in
  mget (mem (op_LDIR_LDDR Z80_OP_LDIR (c, ())).1) 0 = 3.
Proof.
  intros c. assert (cpu_ok c) as Hc.
  { subst c. apply ok_set_HL; [|in_range]. apply ok_set_DE; [|in_range].
    apply ok_set_BC; [|in_range]. apply ok_set_mem; [apply z80_cpu_init_ok|in_range]. }
  pose proof (ldir_copies (H0 := bare_host_ok) Z80_OP_LDIR (c, ()) Hc) as H.
  cbv zeta in H. destruct H as (_ & _ & _ & _ & H).
  specialize (H ltac:(intros i j Hi Hj; change (rBC _) with 3 in Hj;
    assert ((i = 0 ∧ j = 1) ∨ (i = 0 ∧ j = 2) ∨ (i = 1 ∧ j = 2)) as [[-> ->] | [[-> ->] | [-> ->]]] by lia;
    by vm_compute) 2 ltac:(change (rBC _) with 3; lia)).
  change (mget (mem (op_LDIR_LDDR Z80_OP_LDIR (c, ())).1) 0 = 3). exact H.
Defined.

(** The CP/M fill idiom: with DE = HL + 1 LDIR (DE = HL - 1 for LDDR)
    writes the byte at HL to the BC following (preceding) cells. *)
Theorem ldir_fills `{HostOk W} t (s : mach W) i :
  cpu_ok s.1 → rDE s.1 = u16 (rHL s.1 + ld_incr t) → 0 <= i <= rBC s.1 →
  mget (mem (op_LDIR_LDDR t s).1) (u16 (rHL s.1 + ld_incr t * i)) = mget (mem s.1) (rHL s.1).
Proof.
  intros Hs HDE Hi. destruct (ldir_spec t s Hs) as (_ & _ & _ & HM).
  pose proof (ok_rBC _ Hs) as Hn. unfold is_word in Hn.
  rewrite HM, HDE. apply copy_mem_fill; [apply ld_incr_cases|lia|in_range|lia].
Qed.

Example ldir_fills_witness :
  let c := set_HL 0x200 (set_DE 0x201 (set_BC 0x1FF (set_mem (mset_list 0x200 [0xE5] ∅) z80_cpu_init))) in
  mget (mem (op_LDIR_LDDR Z80_OP_LDIR (c, ())).1) 0x3FF = 0xE5.
Proof.
  intros c. assert (cpu_ok c) as Hc.
  { subst c. apply ok_set_HL; [|in_range]. apply ok_set_DE; [|in_range].
    apply ok_set_BC; [|in_range]. apply ok_set_mem; [apply z80_cpu_init_ok|in_range]. }
  apply (ldir_fills (H0 := bare_host_ok) Z80_OP_LDIR (c, ()) 0x1FF Hc); [by vm_compute|].
  change (rBC _) with 0x1FF. lia.
Defined.

Lemma io_loop_more {W} rep (body : mach W → Z * Z * mach W) f1 f2 s :
  (f1 <= f2)%nat → rB (io_loop f1 rep body s).2.1 = 0 →
  io_loop f2 rep body s = io_loop f1 rep body s.
Proof.
  revert f2 s. induction f1 as [|f1 IH]; intros f2 s Hf; destruct f2 as [|f2]; try lia; simpl;
    destruct (body s) as [[v k] s']; try done.
  - intros HB. cbn [snd] in HB. rewrite HB. by rewrite andb_false_r.
  - case_match; [|done]. apply IH. lia.
Qed.

(** The repeating port instructions (INIR, INDR, OTIR, OTDR) end: their
    do-while loop stops by its own test (B = 0) within 256 passes, whatever
    the devices answer; running it with more fuel changes nothing. *)
Theorem io_block_ends `{HostOk W} t (s : mach W) :
  cpu_ok s.1 → io_rep t = true →
  rB (io_block t s).1 = 0 ∧
  ∀ fuel, (255 <= fuel)%nat →
    let body := (if io_dir_in t then io_body_in else io_body_out) (if io_down t then -1 else 1) in
    io_loop fuel true body s = io_loop 255 true body s.
Proof.
  intros Hs Ht.
  assert (rB (io_loop 255 true ((if io_dir_in t then io_body_in else io_body_out)
             (if io_down t then -1 else 1)) s).2.1 = 0) as HB.
  { apply io_loop_B; try done. pose proof (u8_byte (rB s.1 - 1)). unfold is_byte in *. lia. }
  split; [|intros fuel Hf; by apply io_loop_more].
  unfold io_block. rewrite Ht. destruct (io_dir_in t); by destruct (io_loop 255 _ _ _) as [[v k] s'].
Qed.

Example io_block_ends_witness :
  let c := set_HL 0x8000 (set_BC 0x0310 z80_cpu_init) in
  rB (io_block Z80_OP_INIR (c, ())).1 = 0 ∧
  mget (mem (io_block Z80_OP_INIR (c, ())).1) 0x8002 = 0xFF.
Proof.
  intros c. split; [|by vm_compute]. apply io_block_ends; [|done].
  apply ok_set_HL; [|in_range]. apply ok_set_BC; [apply z80_cpu_init_ok|in_range].
Defined.
