(* ===== verification/Translate.v ===== *)
(** * Translate: the translator's analysis of a guest block (src/dbt/dbt_x64.c)

    Everything [dbt_translate_block] decides before it emits: which
    instructions it accepts ([can_translate]), how far a block extends
    ([scan_block], its phase 1), which flag bits and MEMPTR stores each
    instruction may drop ([liveness], its phase 2), and which instruction
    groups it replaces by a closed-form loop ([countdown_kind],
    [copyfill_kind], [filtercopy_kind]).  The arrays [decs] and [pc_afters]
    are one list of pairs; a matcher called at index [i] gets the list from
    [i] on.  The code phase 3 emits for an instruction is [TransX64]. *)

From Stdlib Require Import ZArith Lia Bool List.
From stdpp Require Import base gmap list.
From S2P Require Import Prelude Cpu Decode Interp.

Open Scope Z_scope.
Open Scope z80_scope.

Definition MAX_BLOCK_INSNS : Z := 64.
Definition SUPERBLOCK_BYTE_CAP : Z := 48.

(** [dec->prefix == 0xDD || dec->prefix == 0xFD]. *)
Definition has_idx (d : z80_decoded) : bool := (prefix d =? 0xDD) || (prefix d =? 0xFD).

(** [reg8_offset_p(r, prefix) >= 0]; the offset itself only matters to the
    emitter.  The answer is the same for every prefix. *)
Definition reg8_offset_ok (r : Z) : bool :=
  match r with 0 | 1 | 2 | 3 | 4 | 5 | 7 | 8 | 9 => true | _ => false end.

(** ** What can be translated *)

(** [traps]: [cpm_traps_enabled]; [ports]: [s_inline_ports > 0]. *)
Section Accept.
Context (traps ports : bool).

Definition is_jp_trap_target (pc : Z) : bool :=
  traps && ((pc =? CPM_BDOS_ENTRY) || ((CPM_BIOS_BASE <=? pc) && (pc <? CPM_BIOS_BASE + 0x80))).
Definition is_call_trap_target (pc : Z) : bool :=
  (pc =? CPM_WBOOT_ENTRY) || is_jp_trap_target pc.

Definition can_translate (d : z80_decoded) (pc_after : Z) : bool :=
  let idx := has_idx d in
  match dtype d with
  | Z80_OP_NOP => negb idx
  | Z80_OP_LD_R_N => reg8_offset_ok (reg1 d)
  | Z80_OP_LD_R_R =>
      if reg1 d =? 6 then negb idx && reg8_offset_ok (reg2 d)
      else if reg2 d =? 6 then negb idx && reg8_offset_ok (reg1 d)
      else reg8_offset_ok (reg1 d) && reg8_offset_ok (reg2 d)
  | Z80_OP_LD_RR_NN => reg1 d <=? 3
  | Z80_OP_LD_HL_N | Z80_OP_LD_A_BC | Z80_OP_LD_A_DE | Z80_OP_LD_BC_A | Z80_OP_LD_DE_A
  | Z80_OP_LD_A_NN | Z80_OP_LD_NN_A => negb idx
  | Z80_OP_LD_HL_indNN | Z80_OP_LD_NN_HL | Z80_OP_LD_SP_HL => true
  | Z80_OP_EX_DE_HL => negb idx
  | Z80_OP_INC_RR | Z80_OP_DEC_RR => reg1 d <=? 3
  | Z80_OP_ADD_HL_RR => reg1 d <=? 3
  | Z80_OP_RLCA | Z80_OP_RRCA | Z80_OP_RLA | Z80_OP_RRA | Z80_OP_DAA | Z80_OP_CPL
  | Z80_OP_SCF | Z80_OP_CCF => negb idx
  | Z80_OP_EX_SP_HL => true
  | Z80_OP_ADD_A_R | Z80_OP_ADC_A_R | Z80_OP_SUB_A_R | Z80_OP_SBC_A_R
  | Z80_OP_AND_A_R | Z80_OP_OR_A_R | Z80_OP_XOR_A_R | Z80_OP_CP_A_R =>
      if reg1 d =? 6 then negb idx else reg8_offset_ok (reg1 d)
  | Z80_OP_ADD_A_N | Z80_OP_ADC_A_N | Z80_OP_SUB_A_N | Z80_OP_SBC_A_N
  | Z80_OP_AND_A_N | Z80_OP_OR_A_N | Z80_OP_XOR_A_N | Z80_OP_CP_A_N => negb idx
  | Z80_OP_INC_R | Z80_OP_DEC_R =>
      if reg1 d =? 6 then negb idx else reg8_offset_ok (reg1 d)
  | Z80_OP_LD_A_HL_ind | Z80_OP_LD_HL_A_ind | Z80_OP_LD_HL_N_ind => idx
  | Z80_OP_LD_R_HL_ind => idx && reg8_offset_ok (reg2 d)
  | Z80_OP_LD_HL_R_ind => idx && reg8_offset_ok (reg2 d)
  | Z80_OP_INC_HL_ind | Z80_OP_DEC_HL_ind => true
  | Z80_OP_ADD_A_HL_ind | Z80_OP_ADC_A_HL_ind | Z80_OP_SUB_A_HL_ind | Z80_OP_SBC_A_HL_ind
  | Z80_OP_AND_A_HL_ind | Z80_OP_OR_A_HL_ind | Z80_OP_XOR_A_HL_ind | Z80_OP_CP_A_HL_ind => idx
  | Z80_OP_JP_HL => negb idx
  | Z80_OP_JP_NN => negb (is_jp_trap_target (imm16 d))
  | Z80_OP_JR_E => negb (is_jp_trap_target (u16 (pc_after + disp d)))
  | Z80_OP_JP_CC_NN => negb (is_jp_trap_target (imm16 d))
  | Z80_OP_JR_CC_E => negb (is_jp_trap_target (u16 (pc_after + disp d)))
  | Z80_OP_CALL_NN => negb (is_call_trap_target (imm16 d))
  | Z80_OP_CALL_CC_NN => negb (is_call_trap_target (imm16 d))
  | Z80_OP_RET => true
  | Z80_OP_RET_CC => true
  | Z80_OP_DJNZ => true
  | Z80_OP_CB => (prefix d =? 0xCB) || (prefix d =? 0xDD) || (prefix d =? 0xFD)
  | Z80_OP_LDIR | Z80_OP_LDDR => true
  | Z80_OP_IN_A_N | Z80_OP_OUT_N_A => negb idx && ports
  | Z80_OP_PUSH_RR | Z80_OP_POP_RR =>
      if reg1 d <=? 2 then true
      else if reg1 d =? 3 then negb idx
      else if reg1 d =? 4 then idx
      else false
  | _ => false
  end.
End Accept.

(** ** Phase 1: the extent of a block *)

(** Unconditional control flow always ends a block. *)
Definition is_uncond_ender (t : z80_op_type) : bool :=
  match t with
  | Z80_OP_JP_NN | Z80_OP_JP_HL | Z80_OP_JR_E | Z80_OP_CALL_NN | Z80_OP_RET => true
  | _ => false
  end.
(** Conditional control flow is a side exit inside one. *)
Definition is_cond_ender (t : z80_op_type) : bool :=
  match t with
  | Z80_OP_JP_CC_NN | Z80_OP_JR_CC_E | Z80_OP_DJNZ | Z80_OP_CALL_CC_NN | Z80_OP_RET_CC => true
  | _ => false
  end.

(** One decoded instruction with the address after it. *)
Abbreviation op_at := (z80_decoded * Z)%type.

(** The decode loop from [pc]; the block started at [guest_pc].  Returns the
    accepted instructions and the cursor. *)
Fixpoint scan_loop (fuel : nat) (traps ports : bool) (m : memory) (guest_pc pc : Z) : list op_at * Z :=
  match fuel with
  | O => ([], pc)
  | S fuel =>
      let d := z80_decode_one m pc in
      let pc_after := u16 (pc + nbytes d) in
      if negb (can_translate traps ports d pc_after) then ([], pc)
      else if is_uncond_ender (dtype d) then ([(d, pc_after)], pc_after)
      else if is_cond_ender (dtype d) && (SUPERBLOCK_BYTE_CAP <=? u16 (pc_after - guest_pc))
           then ([(d, pc_after)], pc_after)
      else let '(ops, e) := scan_loop fuel traps ports m guest_pc pc_after in ((d, pc_after) :: ops, e)
  end.

(** [None]: the first instruction is refused ([return NULL]). *)
Definition scan_block (traps ports : bool) (m : memory) (guest_pc : Z) : option (list op_at * Z) :=
  let '(ops, e) := scan_loop (Z.to_nat MAX_BLOCK_INSNS) traps ports m guest_pc guest_pc in
  match ops with [] => None | _ => Some (ops, e) end.

(** ** Phase 2: flag and MEMPTR liveness *)

Definition XY : Z := FLAG_5 |' FLAG_3.
Definition SZP : Z := FLAG_S |' FLAG_Z |' FLAG_PV.

(** The F bits an instruction reads and the ones it overwrites: [(rd, wr)]. *)
Definition op_flag_effects (d : z80_decoded) : Z * Z :=
  match dtype d with
  | Z80_OP_ADD_A_R | Z80_OP_ADD_A_N | Z80_OP_ADD_A_HL_ind
  | Z80_OP_SUB_A_R | Z80_OP_SUB_A_N | Z80_OP_SUB_A_HL_ind
  | Z80_OP_AND_A_R | Z80_OP_AND_A_N | Z80_OP_AND_A_HL_ind
  | Z80_OP_OR_A_R | Z80_OP_OR_A_N | Z80_OP_OR_A_HL_ind
  | Z80_OP_XOR_A_R | Z80_OP_XOR_A_N | Z80_OP_XOR_A_HL_ind
  | Z80_OP_CP_A_R | Z80_OP_CP_A_N | Z80_OP_CP_A_HL_ind => (0, 0xFF)
  | Z80_OP_ADC_A_R | Z80_OP_ADC_A_N | Z80_OP_ADC_A_HL_ind
  | Z80_OP_SBC_A_R | Z80_OP_SBC_A_N | Z80_OP_SBC_A_HL_ind => (FLAG_C, 0xFF)
  | Z80_OP_INC_R | Z80_OP_DEC_R | Z80_OP_INC_HL_ind | Z80_OP_DEC_HL_ind => (FLAG_C, 0xFF &~ FLAG_C)
  | Z80_OP_ADD_HL_RR => (SZP, FLAG_C |' FLAG_H |' FLAG_N |' XY)
  | Z80_OP_RLCA | Z80_OP_RRCA => (SZP, FLAG_C |' FLAG_H |' FLAG_N |' XY)
  | Z80_OP_RLA | Z80_OP_RRA => (SZP |' FLAG_C, FLAG_C |' FLAG_H |' FLAG_N |' XY)
  | Z80_OP_DAA => (FLAG_C |' FLAG_H |' FLAG_N, 0xFF)
  | Z80_OP_CPL => (SZP |' FLAG_C, FLAG_H |' FLAG_N |' XY)
  | Z80_OP_SCF | Z80_OP_CCF => (0xFF, FLAG_C |' FLAG_H |' FLAG_N |' XY)
  | Z80_OP_CB =>
      let family := imm8 d >>' 6 in
      let grp := (imm8 d >>' 3) &' 7 in
      if family =? 0 then (if (grp =? 2) || (grp =? 3) then FLAG_C else 0, 0xFF)
      else if family =? 1 then (FLAG_C, 0xFF &~ FLAG_C)
      else (0, 0)
  | Z80_OP_LDIR | Z80_OP_LDDR => (0xFF, FLAG_H |' FLAG_PV |' FLAG_N |' XY)
  | Z80_OP_PUSH_RR => (if reg1 d =? 3 then 0xFF else 0, 0)
  | Z80_OP_POP_RR => (0, if reg1 d =? 3 then 0xFF else 0)
  | Z80_OP_JP_CC_NN | Z80_OP_JR_CC_E | Z80_OP_DJNZ | Z80_OP_CALL_CC_NN | Z80_OP_RET_CC => (0xFF, 0)
  | _ => (0, 0)
  end.

Inductive mptr_class : Set := MPTR_NONE | MPTR_WRITE | MPTR_WRITE_FIXED | MPTR_READ.

Definition op_memptr_effect (d : z80_decoded) : mptr_class :=
  match dtype d with
  | Z80_OP_IN_A_N | Z80_OP_OUT_N_A => MPTR_WRITE
  | Z80_OP_LD_A_BC | Z80_OP_LD_A_DE | Z80_OP_LD_BC_A | Z80_OP_LD_DE_A
  | Z80_OP_LD_A_NN | Z80_OP_LD_NN_A | Z80_OP_LD_HL_indNN | Z80_OP_LD_NN_HL
  | Z80_OP_ADD_HL_RR | Z80_OP_EX_SP_HL => MPTR_WRITE
  | Z80_OP_JP_CC_NN | Z80_OP_CALL_CC_NN => MPTR_WRITE_FIXED
  | Z80_OP_CB =>
      if (prefix d =? 0xCB) && (imm8 d >>' 6 =? 1) && (imm8 d &' 7 =? 6) then MPTR_READ else MPTR_NONE
  | _ => MPTR_NONE
  end.

(** One step of the backward pass: from what is live after the instruction
    to what is live before it. *)
Definition live_before (d : z80_decoded) (live : Z) : Z :=
  let '(rd, wr) := op_flag_effects d in u8 ((live &' u8 (Z.lnot wr)) |' rd).
Definition mptr_before (d : z80_decoded) (mlive : bool) : bool :=
  match op_memptr_effect d with
  | MPTR_WRITE | MPTR_WRITE_FIXED => false
  | MPTR_READ => true
  | MPTR_NONE => mlive
  end.
(** [mstore[i]]: whether the instruction's MEMPTR store is emitted. *)
Definition mptr_store (d : z80_decoded) (mlive : bool) : bool :=
  match op_memptr_effect d with
  | MPTR_WRITE => mlive
  | MPTR_WRITE_FIXED => true
  | MPTR_READ => false
  | MPTR_NONE => true
  end.

(** The whole pass: [(fmask[i], mstore[i])] for every instruction, and what
    is live at the block's entry. *)
Fixpoint liveness (ops : list op_at) : list (Z * bool) * (Z * bool) :=
  match ops with
  | [] => ([], (0xFF, true))
  | (d, _) :: ops =>
      let '(masks, (live, mlive)) := liveness ops in
      ((live, mptr_store d mlive) :: masks, (live_before d live, mptr_before d mlive))
  end.

(** ** Loops in closed form *)

Inductive fuse_kind : Set := FUSE_NONE | FUSE_DEC_JP | FUSE_DEC_JR | FUSE_DJNZ.

Definition no_op : op_at := (dec0 0 0 0, 0).
Definition op_nth (ops : list op_at) (k : nat) : z80_decoded := (nth k ops no_op).1.
Definition pc_nth (ops : list op_at) (k : nat) : Z := (nth k ops no_op).2.
(** The address of the first instruction. *)
Definition head_pc (ops : list op_at) : Z := u16 (pc_nth ops 0 - nbytes (op_nth ops 0)).

Definition is_type (t : z80_op_type) (d : z80_decoded) : bool := bool_decide (dtype d = t).

Definition countdown_kind (ops : list op_at) : fuse_kind :=
  let d := op_nth ops 0 in
  let pc_i := head_pc ops in
  if has_idx d then FUSE_NONE
  else if is_type Z80_OP_DJNZ d then
    if u16 (pc_nth ops 0 + disp d) =? pc_i then FUSE_DJNZ else FUSE_NONE
  else if negb (is_type Z80_OP_DEC_R d) || (reg1 d =? 6) || (length ops <=? 1)%nat then FUSE_NONE
  else
    let j := op_nth ops 1 in
    if has_idx j || negb (cc j =? 0) then FUSE_NONE
    else if is_type Z80_OP_JP_CC_NN j && (imm16 j =? pc_i) then FUSE_DEC_JP
    else if is_type Z80_OP_JR_CC_E j && (u16 (pc_nth ops 1 + disp j) =? pc_i) then FUSE_DEC_JR
    else FUSE_NONE.

(** LD r1,r2 and INC rr with the given codes. *)
Definition is_ld (a b : Z) (d : z80_decoded) : bool :=
  is_type Z80_OP_LD_R_R d && (reg1 d =? a) && (reg2 d =? b).
Definition is_inc_rr (a : Z) (d : z80_decoded) : bool := is_type Z80_OP_INC_RR d && (reg1 d =? a).

(** The transfer at the head of a copy or fill body: its length and
    direction bit. *)
Definition copyfill_head (ops : list op_at) : option (nat * Z) :=
  let d := op_nth ops 0 in
  if is_ld 7 6 d && (5 <? length ops)%nat && is_type Z80_OP_LD_DE_A (op_nth ops 1) then Some (6%nat, 0)
  else if is_type Z80_OP_LD_A_DE d && (5 <? length ops)%nat && is_ld 6 7 (op_nth ops 1) then Some (6%nat, 1)
  else if is_ld 6 7 d && (3 <? length ops)%nat then Some (4%nat, 0)
  else None.

(** The pointer updates between the transfer and the counter. *)
Definition copyfill_incs (len : nat) (ops : list op_at) : bool :=
  if (len =? 6)%nat then
    let a := op_nth ops 2 in
    let b := op_nth ops 3 in
    (is_inc_rr 2 a && is_inc_rr 1 b) || (is_inc_rr 1 a && is_inc_rr 2 b)
  else is_inc_rr 2 (op_nth ops 1).

(** The closing branch back to [pc_i]: the "JR" bit of [spec]. *)
Definition copyfill_branch (br : z80_decoded) (br_after pc_i : Z) : option Z :=
  if negb (cc br =? 0) then None
  else if is_type Z80_OP_JP_CC_NN br then (if imm16 br =? pc_i then Some 0 else None)
  else if is_type Z80_OP_JR_CC_E br then (if u16 (br_after + disp br) =? pc_i then Some 1 else None)
  else None.

(** A match: the instructions consumed, [spec] and [is_fill]. *)
Definition copyfill_kind (ops : list op_at) : option (nat * Z * bool) :=
  if existsb (λ o, has_idx o.1) (firstn 6 ops) then None
  else match copyfill_head ops with
  | None => None
  | Some (len, dir) =>
      if negb (copyfill_incs len ops) then None
      else
        let j := (len - 2)%nat in
        let dec := op_nth ops j in
        if negb (is_type Z80_OP_DEC_R dec) then None
        else if (if (len =? 6)%nat then 1 <? reg1 dec else 3 <? reg1 dec) then None
        else match copyfill_branch (op_nth ops (j + 1)) (pc_nth ops (j + 1)) (head_pc ops) with
        | None => None
        | Some cond => Some (len, reg1 dec |' (dir <<' 8) |' (cond <<' 9), (len =? 4)%nat)
        end
  end.

Definition is_jp_cc (k target : Z) (d : z80_decoded) : bool :=
  is_type Z80_OP_JP_CC_NN d && (cc d =? k) && (imm16 d =? target).

(** The twelve-instruction filtered copy; a match gives [spec]. *)
Definition filtercopy_kind (ops : list op_at) : option Z :=
  if (length ops <? 12)%nat then None
  else if existsb (λ o, has_idx o.1) (firstn 12 ops) then None
  else
    let d := op_nth ops in
    let head := head_pc ops in
    let exit := pc_nth ops 11 in
    if is_type Z80_OP_LD_A_DE (d 0%nat) && is_type Z80_OP_AND_A_N (d 1%nat)
       && is_type Z80_OP_CP_A_N (d 2%nat) && is_jp_cc 3 exit (d 3%nat)
       && is_type Z80_OP_CP_A_N (d 4%nat) && is_jp_cc 1 exit (d 5%nat)
       && is_ld 6 7 (d 6%nat) && is_inc_rr 2 (d 7%nat) && is_inc_rr 1 (d 8%nat)
       && (is_type Z80_OP_INC_R (d 9%nat) && (reg1 (d 9%nat) =? 0))
       && (is_type Z80_OP_DEC_R (d 10%nat) && (reg1 (d 10%nat) =? 1))
       && is_jp_cc 0 head (d 11%nat)
    then Some (imm8 (d 1%nat) |' (imm8 (d 2%nat) <<' 8) |' (imm8 (d 4%nat) <<' 16))
    else None.

(** The tests of the folding chain of phase 3, in its order: filtered copy,
    copy or fill, countdown. *)
Inductive fold_choice : Set :=
  | FOLD_FILTER (spec head exit : Z)
  | FOLD_COPY (len : nat) (spec head : Z)
  | FOLD_FILL (len : nat) (spec head : Z)
  | FOLD_COUNTDOWN (kind : fuse_kind) (reg head : Z)
  | FOLD_NONE.

Definition fold_choose (fold_loops : bool) (ops : list op_at) : fold_choice :=
  if negb fold_loops then FOLD_NONE
  else match filtercopy_kind ops with
  | Some spec => FOLD_FILTER spec (head_pc ops) (pc_nth ops 11)
  | None =>
      match copyfill_kind ops with
      | Some (len, spec, true) => FOLD_FILL len spec (head_pc ops)
      | Some (len, spec, false) => FOLD_COPY len spec (head_pc ops)
      | None =>
          match countdown_kind ops with
          | FUSE_NONE => FOLD_NONE
          | FUSE_DJNZ => FOLD_COUNTDOWN FUSE_DJNZ 0 (head_pc ops)
          | k => FOLD_COUNTDOWN k (reg1 (op_nth ops 0)) (head_pc ops)
          end
      end
  end.

(** How many instructions a choice consumes. *)
Definition fold_len (f : fold_choice) : nat :=
  match f with
  | FOLD_FILTER _ _ _ => 12
  | FOLD_COPY len _ _ | FOLD_FILL len _ _ => len
  | FOLD_COUNTDOWN FUSE_DJNZ _ _ => 1
  | FOLD_COUNTDOWN _ _ _ => 2
  | FOLD_NONE => 1
  end.
