(* ===== verification/Block.v ===== *)
(** * Block: running decoded instructions

    The reference meaning of a translated block: the interpreter's step on
    instructions decoded earlier ([step_dec]), in sequence until one leaves
    the straight line ([run_ops]), and a block that loops to its own head
    ([run_loop]).  [run_loop_closed] is the induction the closed-form loops
    are proved with; the [step_*] lemmas are the effects of the instructions
    those loops consist of. *)

From Stdlib Require Import ZArith Lia Bool List.
From stdpp Require Import base gmap list.
From S2P Require Import Prelude Cpu Decode Interp Translate.

Open Scope Z_scope.
Open Scope z80_scope.

Section Run.
Context `{HW : Host W}.

(** [z80_step] on an instruction that was decoded before. *)
Definition step_dec (d : z80_decoded) (s : mach W) : step_rc * mach W :=
  let '(rc, s') := exec d (rPC s.1) (rQ s.1) (on_cpu (advance d) s) in
  match rc with
  | RC_OK => (RC_OK, on_cpu bump_insn s')
  | _ => (rc, s')
  end.

Lemma z80_step_dec s : z80_step s = step_dec (z80_decode_one (mem s.1) (rPC s.1)) s.
Proof. reflexivity. Qed.

(** Run [ops] until one stops the machine or leaves the straight line. *)
Fixpoint run_ops (ops : list op_at) (s : mach W) : step_rc * mach W :=
  match ops with
  | [] => (RC_OK, s)
  | (d, pc_after) :: ops =>
      match step_dec d s with
      | (RC_OK, s') => if rPC s'.1 =? pc_after then run_ops ops s' else (RC_OK, s')
      | stopped => stopped
      end
  end.

(** Repeat [body] while it ends at [head]; [None]: stopped or out of fuel. *)
Fixpoint run_loop (fuel : nat) (head : Z) (body : list op_at) (s : mach W) : option (mach W) :=
  match fuel with
  | O => None
  | S fuel =>
      match run_ops body s with
      | (RC_OK, s') => if rPC s'.1 =? head then run_loop fuel head body s' else Some s'
      | _ => None
      end
  end.

(** A loop whose pass is [pass] on the context reaches [close c] when the
    closed form absorbs a pass and equals the last one. *)
Lemma run_loop_closed (I : z80_cpu → Prop) (pass close : z80_cpu → z80_cpu)
    (last : z80_cpu → bool) (left : z80_cpu → Z) head body :
  (∀ c w, I c → ∃ w', run_ops body (c, w) = (RC_OK, (pass c, w'))) →
  (∀ c, I c → last c = true → rPC (pass c) ≠ head ∧ pass c = close c) →
  (∀ c, I c → last c = false →
    I (pass c) ∧ rPC (pass c) = head ∧ 0 <= left (pass c) < left c ∧ close (pass c) = close c) →
  ∀ fuel c w, I c → left c < Z.of_nat fuel → 0 <= left c →
  ∃ w', run_loop fuel head body (c, w) = Some (close c, w').
Proof.
  intros Hrun Hlast Hnext fuel. induction fuel as [|fuel IH]; intros c w Hc Hf H0; [lia|].
  cbn [run_loop]. destruct (Hrun c w Hc) as [w' ->]. cbn [fst].
  destruct (last c) eqn:E.
  - destruct (Hlast c Hc E) as [Hpc <-].
    destruct (Z.eqb_spec (rPC (pass c)) head); [done|]. by exists w'.
  - destruct (Hnext c Hc E) as (HI & Hpc & Hl & <-). rewrite Hpc, Z.eqb_refl. apply IH; [done|lia|lia].
Qed.

(** ** A straight-line instruction *)

Definition next_pc (d : z80_decoded) (c : z80_cpu) : Z := u16 (rPC c + nbytes d).

Lemma run_ops_cons d pc_after ops (s s' : mach W) :
  step_dec d s = (RC_OK, s') → rPC s'.1 = pc_after → run_ops ((d, pc_after) :: ops) s = run_ops ops s'.
Proof. intros E <-. cbn [run_ops]. by rewrite E, Z.eqb_refl. Qed.

Lemma run_ops_last d pc_after (s s' : mach W) :
  step_dec d s = (RC_OK, s') → run_ops [(d, pc_after)] s = (RC_OK, s').
Proof. intros E. cbn [run_ops]. rewrite E. by case_match. Qed.

Lemma run_ops_leave d pc_after ops (s s' : mach W) :
  step_dec d s = (RC_OK, s') → rPC s'.1 ≠ pc_after → run_ops ((d, pc_after) :: ops) s = (RC_OK, s').
Proof. intros E Hpc. cbn [run_ops]. rewrite E. by destruct (Z.eqb_spec (rPC s'.1) pc_after). Qed.

Lemma effective_addr_plain d x c : has_idx d = false → effective_addr d x c = x.
Proof. unfold has_idx, effective_addr. intros [-> ->]%orb_false_iff. done. Qed.

Lemma is_type_eq t d : is_type t d = true → dtype d = t.
Proof. apply bool_decide_eq_true. Qed.

Ltac open_op H :=
  repeat match type of H with (_ && _ = true) =>
    let Ht := fresh "Ht" in let Hr := fresh "Hr" in
    apply andb_true_iff in H as [H Hr]; apply Z.eqb_eq in Hr end;
  apply is_type_eq in H; unfold step_dec, exec; rewrite H.

Lemma step_ld_a_hl d c w :
  is_ld 7 6 d = true → has_idx d = false →
  step_dec d (c, w) = (RC_OK, (bump_insn (set_rA (mget (mem c) (rHL c)) (advance d c)), w)).
Proof.
  intros H Hi. unfold is_ld in H. open_op H. unfold run, op_LD_R_R, write_reg8, read_reg8.
  rewrite Hr0, Hr. cbn [Z.eqb Pos.eqb]. by rewrite effective_addr_plain.
Qed.

Lemma step_ld_hl_a d c w :
  is_ld 6 7 d = true → has_idx d = false → is_word (rHL c) →
  step_dec d (c, w) =
    (RC_OK, (bump_insn (set_mem (mset (rHL c) (rA c) (mem c)) (advance d c)), smc_store (rHL c) w)).
Proof.
  intros H Hi Hw. unfold is_ld in H. open_op H. unfold run, op_LD_R_R, write_reg8, read_reg8.
  rewrite Hr0, Hr. cbn [Z.eqb Pos.eqb]. rewrite effective_addr_plain by done.
  unfold mem_w, on_cpu. cbn [fst snd]. change (rHL (advance d c)) with (rHL c). by rewrite u16_id.
Qed.

Lemma step_ld_de_a d c w :
  is_type Z80_OP_LD_DE_A d = true → is_word (rDE c) →
  step_dec d (c, w) =
    (RC_OK, (bump_insn (set_memptr (word_of (u8 (rDE c + 1)) (rA c))
               (set_mem (mset (rDE c) (rA c) (mem c)) (advance d c))), smc_store (rDE c) w)).
Proof.
  intros H Hw. open_op H. unfold run, op_LD_DE_A, mem_w, on_cpu. cbn [fst snd].
  change (rDE (advance d c)) with (rDE c). by rewrite u16_id.
Qed.

Lemma step_ld_a_de d c w :
  is_type Z80_OP_LD_A_DE d = true →
  step_dec d (c, w) =
    (RC_OK, (bump_insn (set_memptr (u16 (rDE c + 1)) (set_rA (mget (mem c) (rDE c)) (advance d c))), w)).
Proof. intros H. open_op H. done. Qed.

Lemma step_inc_hl d c w :
  is_inc_rr 2 d = true → has_idx d = false →
  step_dec d (c, w) = (RC_OK, (bump_insn (set_HL (u16 (rHL c + 1)) (advance d c)), w)).
Proof.
  intros H Hi. unfold is_inc_rr in H. open_op H. unfold pure, op_INC_RR. rewrite Hr.
  apply orb_false_iff in Hi as [-> ->]. done.
Qed.

Lemma step_inc_de d c w :
  is_inc_rr 1 d = true →
  step_dec d (c, w) = (RC_OK, (bump_insn (set_DE (u16 (rDE c + 1)) (advance d c)), w)).
Proof. intros H. unfold is_inc_rr in H. open_op H. unfold pure, op_INC_RR. by rewrite Hr. Qed.

Lemma step_and_n d c w :
  is_type Z80_OP_AND_A_N d = true →
  step_dec d (c, w) = (RC_OK, (bump_insn (alu_AND (imm8 d) (advance d c)), w)).
Proof. intros H. open_op H. done. Qed.

Lemma step_cp_n d c w :
  is_type Z80_OP_CP_A_N d = true →
  step_dec d (c, w) = (RC_OK, (bump_insn (alu_CP (imm8 d) (advance d c)), w)).
Proof. intros H. open_op H. done. Qed.

Lemma step_inc_b d c w :
  is_type Z80_OP_INC_R d = true → reg1 d = 0 →
  step_dec d (c, w) =
    (RC_OK, (bump_insn (with_f (inc_flags (rF c) (u8 (rB c + 1))) (set_rB (u8 (rB c + 1)) (advance d c))), w)).
Proof. intros H Hr. open_op H. unfold run, op_INC_R. by rewrite Hr. Qed.

(** [if (cond_true(cc)) pc = nn], MEMPTR on both paths. *)
Lemma step_jp_cc traps d c w :
  traps_enabled w = traps → is_type Z80_OP_JP_CC_NN d = true →
  is_jp_trap_target traps (imm16 d) = false →
  step_dec d (c, w) =
    (RC_OK, (bump_insn (set_rPC (if cond_true (cc d) c then imm16 d else next_pc d c)
               (set_memptr (imm16 d) (advance d c))), w)).
Proof.
  intros Hw H Ht. open_op H. unfold op_JP_CC_NN. cbn [on_cpu fst snd].
  change (cond_true (cc d) (set_memptr (imm16 d) (advance d c))) with (cond_true (cc d) c).
  destruct (cond_true (cc d) c); [|done].
  unfold jump_traps, traps_on, in_bios. cbn [on_cpu fst snd]. rewrite Hw.
  change (rPC (set_rPC (imm16 d) _)) with (imm16 d).
  unfold is_jp_trap_target in Ht. destruct traps; [|rewrite !andb_false_r; reflexivity].
  cbn [andb] in Ht. apply orb_false_iff in Ht as [E1 E2]. rewrite E1.
  rewrite andb_false_r. rewrite E2, andb_false_r. done.
Qed.

Lemma step_jr_cc d c w :
  is_type Z80_OP_JR_CC_E d = true →
  step_dec d (c, w) =
    (RC_OK, (bump_insn (if cond_true (cc d) c
               then let t := u16 (rPC c + nbytes d + disp d) in set_rPC t (set_memptr t (advance d c))
               else advance d c), w)).
Proof.
  intros H. open_op H. unfold pure, on_cpu, op_JR_CC_E. cbn [fst snd].
  change (cond_true (cc d) (advance d c)) with (cond_true (cc d) c).
  destruct (cond_true (cc d) c); reflexivity.
Qed.
End Run.

(** ** Consecutive instructions *)

(** Each instruction of [ops] follows the one before it, the first at [pc],
    and has its fields in range. *)
Fixpoint chained (pc : Z) (ops : list op_at) : Prop :=
  match ops with
  | [] => True
  | (d, pc_after) :: ops => pc_after = u16 (pc + nbytes d) ∧ dec_ok 8 d ∧ chained pc_after ops
  end.

(** The bytes of a run of instructions. *)
Definition ops_bytes (ops : list op_at) : Z := foldr (λ o n, nbytes o.1 + n) 0 ops.
(** The address after the last one. *)
Fixpoint end_pc (pc : Z) (ops : list op_at) : Z :=
  match ops with [] => pc | (_, pc_after) :: ops => end_pc pc_after ops end.

Lemma ops_bytes_bounds pc ops :
  chained pc ops → Z.of_nat (length ops) <= ops_bytes ops <= 8 * Z.of_nat (length ops).
Proof.
  revert pc. induction ops as [|[d pa] ops IH]; intros pc; cbn [chained]; [cbn; lia|].
  intros (_ & [] & Ho). specialize (IH pa Ho). cbn [ops_bytes foldr fst length].
  change (foldr _ 0 ops) with (ops_bytes ops). lia.
Qed.

Lemma end_pc_bytes pc ops : is_word pc → chained pc ops → end_pc pc ops = u16 (pc + ops_bytes ops).
Proof.
  revert pc. induction ops as [|[d pa] ops IH]; intros pc Hpc Hc.
  - cbn. by rewrite Z.add_0_r, u16_id.
  - cbn [chained end_pc] in *. destruct Hc as (-> & _ & Hc).
    rewrite IH, u16_add_l by in_range. f_equal. cbn [ops_bytes foldr fst].
    change (foldr _ 0 ops) with (ops_bytes ops). lia.
Qed.

(** A short run does not end where it starts. *)
Lemma end_pc_ne pc ops :
  is_word pc → chained pc ops → 1 <= Z.of_nat (length ops) <= 64 → end_pc pc ops ≠ pc.
Proof.
  intros Hpc Hc Hl. rewrite end_pc_bytes by done. pose proof (ops_bytes_bounds pc ops Hc) as Hb.
  unfold is_word, u16 in *. Z.div_mod_to_equations. lia.
Qed.

Lemma chained_firstn n pc ops : chained pc ops → chained pc (firstn n ops).
Proof.
  revert pc ops. induction n as [|n IH]; intros pc [|[d pa] ops]; cbn [firstn chained]; try done.
  intros (? & ? & ?). eauto.
Qed.

Lemma head_pc_chained pc ops : is_word pc → chained pc ops → ops ≠ [] → head_pc ops = pc.
Proof.
  intros Hpc Hc Hne. destruct ops as [|[d pa] ops]; [done|]. destruct Hc as (-> & _ & _).
  unfold head_pc, pc_nth, op_nth. cbn [nth fst snd].
  unfold is_word, u16 in *. Z.div_mod_to_equations. lia.
Qed.

(** Two contexts with the same fields. *)
Lemma cpu_eq c c' :
  rA c = rA c' → rF c = rF c' → rB c = rB c' → rC c = rC c' → rD c = rD c' → rE c = rE c' →
  rH c = rH c' → rL c = rL c' → af_ c = af_ c' → bc_ c = bc_ c' → de_ c = de_ c' →
  hl_ c = hl_ c' → rIX c = rIX c' → rIY c = rIY c' → rSP c = rSP c' → rPC c = rPC c' →
  rI c = rI c' → rR c = rR c' → iff1 c = iff1 c' → iff2 c = iff2 c' → im c = im c' →
  mem c = mem c' → host_event c = host_event c' → defer_traps c = defer_traps c' →
  insn_count c = insn_count c' → r_epoch c = r_epoch c' → memptr c = memptr c' → rQ c = rQ c' →
  c = c'.
Proof. destruct c, c'. cbn. intros. subst. reflexivity. Qed.

(** The same, PC and the instruction count apart. *)
Lemma cpu_eq_pc_count c c' :
  set_rPC 0 (set_insn_count 0 c) = set_rPC 0 (set_insn_count 0 c') →
  rPC c = rPC c' → insn_count c = insn_count c' → c = c'.
Proof.
  intros E Hp Hi. change c with (set_rPC (rPC c) (set_insn_count (insn_count c) (set_rPC 0 (set_insn_count 0 c)))).
  by rewrite E, Hp, Hi.
Qed.
