(* ===== verification/Scan.v ===== *)
(** * Scan: what a translated block consists of

    Phase 1 of [dbt_translate_block]: the accepted instructions are the ones
    memory holds, one after the other from the block's start, within the
    array and size bounds the emitter and the invalidation sweep rely on. *)

From Stdlib Require Import ZArith Lia Bool List.
From stdpp Require Import base gmap list.
From S2P Require Import Prelude Cpu Decode Interp Translate Block.

Open Scope Z_scope.
Open Scope z80_scope.

(** [ops] is what memory decodes to from [pc] on. *)
Fixpoint decodes (m : memory) (pc : Z) (ops : list op_at) : Prop :=
  match ops with
  | [] => True
  | (d, pc_after) :: ops => z80_decode_one m pc = d ∧ pc_after = u16 (pc + nbytes d) ∧ decodes m pc_after ops
  end.

(** Unconditional flow only at the end; a conditional before the end closes
    within [SUPERBLOCK_BYTE_CAP] bytes of the block's start. *)
Fixpoint superblock (guest_pc : Z) (ops : list op_at) : Prop :=
  match ops with
  | [] | [_] => True
  | (d, pc_after) :: ops =>
      is_uncond_ender (dtype d) = false ∧
      (is_cond_ender (dtype d) = true → u16 (pc_after - guest_pc) < SUPERBLOCK_BYTE_CAP) ∧
      superblock guest_pc ops
  end.

Section Scan.
Context (traps ports : bool) (m : memory) (Hm : mem_ok m).

(** Every instruction of [ops] is one the translator emits. *)
Definition accepted (ops : list op_at) : Prop :=
  Forall (λ o, can_translate traps ports o.1 o.2 = true) ops.

Lemma scan_loop_spec fuel guest_pc pc ops e :
  is_word pc → scan_loop fuel traps ports m guest_pc pc = (ops, e) →
  chained pc ops ∧ decodes m pc ops ∧ accepted ops ∧ superblock guest_pc ops ∧
  e = end_pc pc ops ∧ (length ops <= fuel)%nat.
Proof.
  revert pc ops e. induction fuel as [|fuel IH]; intros pc ops e Hpc; cbn [scan_loop].
  { intros [= <- <-]. split_and!; try done. by constructor. }
  pose proof (decode_ok m pc Hm Hpc) as Hd. set (d := z80_decode_one m pc) in *.
  destruct (can_translate traps ports d (u16 (pc + nbytes d))) eqn:Hacc; cbn [negb].
  2:{ intros [= <- <-]. split_and!; try done; [by constructor|cbn; lia]. }
  assert (∀ ops' e', ([(d, u16 (pc + nbytes d))], u16 (pc + nbytes d)) = (ops', e') →
    chained pc ops' ∧ decodes m pc ops' ∧ accepted ops' ∧ superblock guest_pc ops' ∧
    e' = end_pc pc ops' ∧ (length ops' <= S fuel)%nat) as Hone.
  { intros ops' e' [= <- <-]. split_and!; try done; [by repeat constructor|cbn; lia]. }
  destruct (is_uncond_ender (dtype d)) eqn:Hu; [apply Hone|].
  destruct (is_cond_ender (dtype d) && _) eqn:Hcap; [apply Hone|].
  destruct (scan_loop fuel _ _ _ _ _) as [ops' e'] eqn:Hs. intros [= <- <-].
  destruct (IH _ _ _ (u16_word _) Hs) as (H1 & H2 & H3 & H4 & H5 & H6).
  split_and!; try done; [by constructor| |cbn; lia].
  destruct ops' as [|o ops']; [done|]. split_and!; [done| |done].
  intros Hc. rewrite Hc in Hcap. cbn [andb] in Hcap. apply Z.leb_gt in Hcap. done.
Qed.

Lemma scan_block_spec pc ops e :
  is_word pc → scan_block traps ports m pc = Some (ops, e) →
  chained pc ops ∧ decodes m pc ops ∧ accepted ops ∧ superblock pc ops ∧
  e = end_pc pc ops ∧ 1 <= Z.of_nat (length ops) <= MAX_BLOCK_INSNS.
Proof.
  intros Hpc. unfold scan_block. generalize (scan_loop_spec (Z.to_nat MAX_BLOCK_INSNS) pc pc).
  destruct (scan_loop _ _ _ _ _ _) as [ops' e']. intros Hspec.
  destruct (Hspec ops' e' Hpc eq_refl) as (H1 & H2 & H3 & H4 & H5 & H6).
  destruct ops' as [|o ops']; [done|]. intros [= <- <-].
  rewrite Nat2Z.inj_le, Z2Nat.id in H6 by done.
  split_and!; try done. cbn [length]. lia.
Qed.

(** Why the decode loop stopped at [e]. *)
Definition scan_stop (limit : nat) (guest_pc : Z) (ops : list op_at) (e : Z) : Prop :=
  length ops = limit ∨
  can_translate traps ports (z80_decode_one m e) (u16 (e + nbytes (z80_decode_one m e))) = false ∨
  ∃ d, last ops = Some (d, e) ∧
    (is_uncond_ender (dtype d) = true ∨
     is_cond_ender (dtype d) = true ∧ SUPERBLOCK_BYTE_CAP <= u16 (e - guest_pc)).

Lemma scan_loop_stop fuel guest_pc pc ops e :
  scan_loop fuel traps ports m guest_pc pc = (ops, e) → scan_stop fuel guest_pc ops e.
Proof.
  revert pc ops e. induction fuel as [|fuel IH]; intros pc ops e; cbn [scan_loop].
  { intros [= <- <-]. by left. }
  destruct (can_translate _ _ _ _) eqn:Hacc; cbn [negb].
  2:{ intros [= <- <-]. right; by left. }
  destruct (is_uncond_ender _) eqn:Hu.
  { intros [= <- <-]. right; right. eexists. split; [done|by left]. }
  destruct (is_cond_ender _ && _) eqn:Hcap.
  { apply andb_true_iff in Hcap as [? ?%Z.leb_le].
    intros [= <- <-]. right; right. eexists. split; [done|by right]. }
  destruct (scan_loop fuel _ _ _ _ _) as [ops' e'] eqn:Hs. intros [= <- <-].
  destruct (IH _ _ _ Hs) as [Hl|[Hr|(d & Hl & Hr)]].
  - left. cbn [length]. by rewrite Hl.
  - right; by left.
  - right; right. exists d. split; [|done]. by destruct ops'.
Qed.

Lemma scan_block_stop pc ops e :
  scan_block traps ports m pc = Some (ops, e) → scan_stop (Z.to_nat MAX_BLOCK_INSNS) pc ops e.
Proof.
  unfold scan_block. destruct (scan_loop _ _ _ _ _ _) as [ops' e'] eqn:E.
  destruct ops' as [|o ops']; [done|]. intros [= <- <-]. by eapply scan_loop_stop.
Qed.
End Scan.

Lemma chained_decodes m pc ops : mem_ok m → is_word pc → decodes m pc ops → chained pc ops.
Proof.
  intros Hm. revert pc. induction ops as [|[d pa] ops IH]; intros pc Hpc; cbn [decodes chained]; [done|].
  intros (<- & -> & Hr). split_and!; [done|by apply decode_ok|]. apply IH; [in_range|done].
Qed.

(** Decoding from [pc] only looks at the bytes of the instructions. *)
Lemma decodes_agree m1 m2 pc ops :
  is_word pc → mem_ok m1 → decodes m1 pc ops →
  (∀ j, 0 <= j < ops_bytes ops → mget m2 (u16 (pc + j)) = mget m1 (u16 (pc + j))) →
  decodes m2 pc ops.
Proof.
  intros Hpc Hm. revert pc Hpc. induction ops as [|[d pa] ops IH]; intros pc Hpc; [done|].
  intros Hall Hag. destruct (chained_decodes m1 pc _ Hm Hpc Hall) as (_ & [] & Hch).
  pose proof (ops_bytes_bounds _ _ Hch). destruct Hall as (Hd & -> & Hr).
  cbn [ops_bytes foldr fst] in Hag. change (foldr _ 0 ops) with (ops_bytes ops) in Hag.
  cbn [decodes]. split_and!; [|done|].
  - rewrite <- Hd. apply decode_agree; [done|]. intros j Hj. apply Hag. rewrite Hd in Hj. lia.
  - apply IH; [in_range|done|]. intros j Hj. rewrite u16_add_l, <- Z.add_assoc. apply Hag. lia.
Qed.

(** A tail of a block, at the address its matcher computes. *)
Lemma chained_skipn i pc ops :
  is_word pc → chained pc ops → skipn i ops ≠ [] →
  is_word (head_pc (skipn i ops)) ∧ chained (head_pc (skipn i ops)) (skipn i ops).
Proof.
  revert pc ops. induction i as [|i IH]; intros pc ops Hpc Hch Hne.
  - cbn [skipn] in *. by rewrite (head_pc_chained pc).
  - destruct ops as [|[d pa] ops]; [done|]. cbn [skipn] in *. destruct Hch as (-> & _ & Hch).
    by apply (IH (u16 (pc + nbytes d))); [in_range| |].
Qed.

Lemma accepted_skipn traps ports i ops : accepted traps ports ops → accepted traps ports (skipn i ops).
Proof. apply Forall_drop. Qed.

(** The instructions of a block given as bytes at [pc]. *)
Definition ops_of (traps ports : bool) (m : memory) (pc : Z) : list op_at :=
  match scan_block traps ports m pc with Some (ops, _) => ops | None => [] end.

(** ** The extent of a block *)

(** Phase 1 of the translator.  A block it accepts is the instructions
    memory decodes to from the block's address on, 1 to 64 of them and at
    most 512 bytes, every one translatable, unconditional flow only at the
    end and no conditional further than the superblock cap before it; the
    cursor ends just after them, and it stopped there for one of the loop's
    reasons: the 64-instruction limit, an instruction that is refused, an
    unconditional ender, or a conditional beyond the cap. *)
Theorem scan_extent traps ports m pc ops e :
  mem_ok m → is_word pc → scan_block traps ports m pc = Some (ops, e) →
  decodes m pc ops ∧ accepted traps ports ops ∧ superblock pc ops ∧
  1 <= Z.of_nat (length ops) <= MAX_BLOCK_INSNS ∧
  1 <= ops_bytes ops <= 512 ∧ e = u16 (pc + ops_bytes ops) ∧
  scan_stop traps ports m (Z.to_nat MAX_BLOCK_INSNS) pc ops e.
Proof.
  intros Hm Hpc Hs. destruct (scan_block_spec traps ports m Hm pc ops e Hpc Hs) as (Hch & Hd & Ha & Hsb & -> & Hl).
  pose proof (ops_bytes_bounds _ _ Hch). unfold MAX_BLOCK_INSNS in *.
  split_and!; [done|done|done|lia|lia|lia|lia|by apply end_pc_bytes|by apply scan_block_stop].
Qed.

Example scan_extent_witness :
  (* XOR A; DJNZ 0100; JP 1234 *)
  let m := mset_list 0x100 [0xAF; 0x10; 0xFD; 0xC3; 0x34; 0x12] ∅ in
  ∃ ops, scan_block true false m 0x100 = Some (ops, 0x106) ∧ length ops = 3%nat ∧ ops_bytes ops = 6 ∧
    decodes m 0x100 ops ∧ accepted true false ops.
Proof.
  intros m. eexists. split; [vm_compute; reflexivity|].
  edestruct (scan_extent true false m 0x100) as (Hd & Ha & _ & _ & _ & _); [in_range|in_range|vm_compute; reflexivity|].
  split_and!; [done|done|exact Hd|exact Ha].
Defined.
