(* ===== verification/BlockCache.v ===== *)
(** * BlockCache: the translated-block cache and its invalidation
    (src/dbt/block_cache.c, the cache state of src/dbt/dbt.h)

    The direct-mapped cache, the code bitmap, the direct-link registry with
    its free list, and the patchable branches in the x86-64 code buffer they
    control.  A native code pointer is its offset in the code buffer, [None]
    for NULL; an array cell absent from a map holds the value
    [dbt_cache_invalidate_all] gives it.  [dbt_host] is the instance of
    [Host]'s store hook for a CPU with a translator attached. *)

From Stdlib Require Import ZArith Lia Bool List.
From stdpp Require Import base gmap list.
From S2P Require Import Prelude Cpu.

Open Scope Z_scope.
Open Scope z80_scope.

(** ** State *)

Definition BLOCK_CACHE_SIZE : Z := 65536.
Definition BLOCK_CACHE_MASK : Z := 65535.
Definition BLOCK_EMPTY_PC : Z := 0xFFFFFFFF.
Definition BLOCK_REFUSED_BIT : Z := 0x40000000.
Definition LINK_POOL_SIZE : Z := 512 * 1024.
Definition LINK_NONE : Z := 0xFFFFFFFF.

Record z80_block_entry := mk_entry {
  guest_pc : Z;
  span : Z;
  native_code : option Z
}.

Record z80_link := mk_link {
  site_off : Z;
  next : Z
}.

Set Primitive Projections.
Record z80_dbt := mk_dbt {
  cache : gmap Z z80_block_entry;
  code_bitmap : gmap Z Z;
  link_head : gmap Z Z;
  link_pool : gmap Z z80_link;
  link_used : Z;
  link_free : Z;
  code_buf : gmap Z Z;
  max_block_bytes : Z;
  last_block_bytes : Z;
  cache_hits : Z;
  cache_misses : Z;
  smc_invalidations : Z;
  links_created : Z;
  links_patched : Z;
  links_unpatched : Z
}.
Unset Primitive Projections.

Definition set_cache (v : gmap Z z80_block_entry) (d : z80_dbt) : z80_dbt :=
  mk_dbt v (code_bitmap d) (link_head d) (link_pool d) (link_used d) (link_free d)
    (code_buf d) (max_block_bytes d) (last_block_bytes d) (cache_hits d) (cache_misses d)
    (smc_invalidations d) (links_created d) (links_patched d) (links_unpatched d).
Definition set_code_bitmap (v : gmap Z Z) (d : z80_dbt) : z80_dbt :=
  mk_dbt (cache d) v (link_head d) (link_pool d) (link_used d) (link_free d) (code_buf d)
    (max_block_bytes d) (last_block_bytes d) (cache_hits d) (cache_misses d)
    (smc_invalidations d) (links_created d) (links_patched d) (links_unpatched d).
Definition set_link_head (v : gmap Z Z) (d : z80_dbt) : z80_dbt :=
  mk_dbt (cache d) (code_bitmap d) v (link_pool d) (link_used d) (link_free d) (code_buf
    d) (max_block_bytes d) (last_block_bytes d) (cache_hits d) (cache_misses d)
    (smc_invalidations d) (links_created d) (links_patched d) (links_unpatched d).
Definition set_link_pool (v : gmap Z z80_link) (d : z80_dbt) : z80_dbt :=
  mk_dbt (cache d) (code_bitmap d) (link_head d) v (link_used d) (link_free d) (code_buf
    d) (max_block_bytes d) (last_block_bytes d) (cache_hits d) (cache_misses d)
    (smc_invalidations d) (links_created d) (links_patched d) (links_unpatched d).
Definition set_link_used (v : Z) (d : z80_dbt) : z80_dbt :=
  mk_dbt (cache d) (code_bitmap d) (link_head d) (link_pool d) v (link_free d) (code_buf
    d) (max_block_bytes d) (last_block_bytes d) (cache_hits d) (cache_misses d)
    (smc_invalidations d) (links_created d) (links_patched d) (links_unpatched d).
Definition set_link_free (v : Z) (d : z80_dbt) : z80_dbt :=
  mk_dbt (cache d) (code_bitmap d) (link_head d) (link_pool d) (link_used d) v (code_buf
    d) (max_block_bytes d) (last_block_bytes d) (cache_hits d) (cache_misses d)
    (smc_invalidations d) (links_created d) (links_patched d) (links_unpatched d).
Definition set_code_buf (v : gmap Z Z) (d : z80_dbt) : z80_dbt :=
  mk_dbt (cache d) (code_bitmap d) (link_head d) (link_pool d) (link_used d) (link_free d)
    v (max_block_bytes d) (last_block_bytes d) (cache_hits d) (cache_misses d)
    (smc_invalidations d) (links_created d) (links_patched d) (links_unpatched d).
Definition set_max_block_bytes (v : Z) (d : z80_dbt) : z80_dbt :=
  mk_dbt (cache d) (code_bitmap d) (link_head d) (link_pool d) (link_used d) (link_free d)
    (code_buf d) v (last_block_bytes d) (cache_hits d) (cache_misses d) (smc_invalidations
    d) (links_created d) (links_patched d) (links_unpatched d).
Definition set_last_block_bytes (v : Z) (d : z80_dbt) : z80_dbt :=
  mk_dbt (cache d) (code_bitmap d) (link_head d) (link_pool d) (link_used d) (link_free d)
    (code_buf d) (max_block_bytes d) v (cache_hits d) (cache_misses d) (smc_invalidations
    d) (links_created d) (links_patched d) (links_unpatched d).
Definition set_cache_hits (v : Z) (d : z80_dbt) : z80_dbt :=
  mk_dbt (cache d) (code_bitmap d) (link_head d) (link_pool d) (link_used d) (link_free d)
    (code_buf d) (max_block_bytes d) (last_block_bytes d) v (cache_misses d)
    (smc_invalidations d) (links_created d) (links_patched d) (links_unpatched d).
Definition set_cache_misses (v : Z) (d : z80_dbt) : z80_dbt :=
  mk_dbt (cache d) (code_bitmap d) (link_head d) (link_pool d) (link_used d) (link_free d)
    (code_buf d) (max_block_bytes d) (last_block_bytes d) (cache_hits d) v
    (smc_invalidations d) (links_created d) (links_patched d) (links_unpatched d).
Definition set_smc_invalidations (v : Z) (d : z80_dbt) : z80_dbt :=
  mk_dbt (cache d) (code_bitmap d) (link_head d) (link_pool d) (link_used d) (link_free d)
    (code_buf d) (max_block_bytes d) (last_block_bytes d) (cache_hits d) (cache_misses d)
    v (links_created d) (links_patched d) (links_unpatched d).
Definition set_links_created (v : Z) (d : z80_dbt) : z80_dbt :=
  mk_dbt (cache d) (code_bitmap d) (link_head d) (link_pool d) (link_used d) (link_free d)
    (code_buf d) (max_block_bytes d) (last_block_bytes d) (cache_hits d) (cache_misses d)
    (smc_invalidations d) v (links_patched d) (links_unpatched d).
Definition set_links_patched (v : Z) (d : z80_dbt) : z80_dbt :=
  mk_dbt (cache d) (code_bitmap d) (link_head d) (link_pool d) (link_used d) (link_free d)
    (code_buf d) (max_block_bytes d) (last_block_bytes d) (cache_hits d) (cache_misses d)
    (smc_invalidations d) (links_created d) v (links_unpatched d).
Definition set_links_unpatched (v : Z) (d : z80_dbt) : z80_dbt :=
  mk_dbt (cache d) (code_bitmap d) (link_head d) (link_pool d) (link_used d) (link_free d)
    (code_buf d) (max_block_bytes d) (last_block_bytes d) (cache_hits d) (cache_misses d)
    (smc_invalidations d) (links_created d) (links_patched d) v.


(** Array reads. *)
Definition cache_at (d : z80_dbt) (i : Z) : z80_block_entry :=
  default (mk_entry BLOCK_EMPTY_PC 0 None) (cache d !! i).
Definition head_at (d : z80_dbt) (pc : Z) : Z := default LINK_NONE (link_head d !! pc).
Definition pool_at (d : z80_dbt) (i : Z) : z80_link := default (mk_link 0 0) (link_pool d !! i).
Definition code_byte (d : z80_dbt) (a : Z) : bool := nz (default 0 (code_bitmap d !! a)).

Definition set_cache_at (i : Z) (e : z80_block_entry) (d : z80_dbt) : z80_dbt :=
  set_cache (<[i:=e]> (cache d)) d.
Definition set_head_at (pc i : Z) (d : z80_dbt) : z80_dbt :=
  set_link_head (<[pc:=i]> (link_head d)) d.
Definition set_pool_at (i : Z) (l : z80_link) (d : z80_dbt) : z80_dbt :=
  set_link_pool (<[i:=l]> (link_pool d)) d.
Definition set_code_byte (a v : Z) (d : z80_dbt) : z80_dbt :=
  set_code_bitmap (<[a:=v]> (code_bitmap d)) d.

(** ** Patchable branches in the code buffer (dbt_x64.c) *)

Definition CALL_LANDING_BYTES : Z := 42.

Definition buf_byte (b : gmap Z Z) (a : Z) : Z := default 0 (b !! a).
Definition read_le32 (b : gmap Z Z) (a : Z) : Z :=
  word_of (buf_byte b a) (buf_byte b (a + 1)) + 65536 * word_of (buf_byte b (a + 2)) (buf_byte b (a + 3)).
Definition write_le32 (a v : Z) (b : gmap Z Z) : gmap Z Z :=
  <[a + 3:=u8 (v >>' 24)]> (<[a + 2:=u8 (v >>' 16)]> (<[a + 1:=u8 (v >>' 8)]> (<[a:=u8 v]> b))).

(** Where the branch falls when unlinked: the next instruction, past the
    landing pad for a CALL. *)
Definition link_fallback (b : gmap Z Z) (site : Z) : Z :=
  site + 5 + (if buf_byte b site =? 0xE8 then CALL_LANDING_BYTES else 0).

Definition dbt_arch_patch_link (site : Z) (target : option Z) (d : z80_dbt) : z80_dbt :=
  let dst := match target with Some t => t | None => link_fallback (code_buf d) site end in
  let disp := u32 (dst - (site + 5)) in
  if read_le32 (code_buf d) (site + 1) =? disp then d
  else set_code_buf (write_le32 (site + 1) disp (code_buf d)) d.

(** The processor's view: the address the rel32 branch at [site] goes to. *)
Definition s32 (x : Z) : Z := if x <? 2147483648 then x else x - 4294967296.
Definition branch_target (b : gmap Z Z) (site : Z) : Z := site + 5 + s32 (read_le32 b (site + 1)).

(** ** Link registry *)

Definition dbt_link_record (pc site : Z) (d : z80_dbt) : bool * z80_dbt :=
  let finish i d :=
    let d := set_pool_at i (mk_link site (head_at d pc)) d in
    let d := set_head_at pc i d in
    (true, set_links_created (u64 (links_created d + 1)) d) in
  if negb (link_free d =? LINK_NONE) then
    let i := link_free d in finish i (set_link_free (next (pool_at d i)) d)
  else if link_used d <? LINK_POOL_SIZE then
    let i := link_used d in finish i (set_link_used (u32 (i + 1)) d)
  else (false, d).

(** [for (; i != LINK_NONE; i = next)]: point every site at [code]. *)
Fixpoint patch_walk (fuel : nat) (code i : Z) (d : z80_dbt) : z80_dbt :=
  match fuel with
  | O => d
  | S fuel =>
      if i =? LINK_NONE then d
      else
        let d := dbt_arch_patch_link (site_off (pool_at d i)) (Some code) d in
        let d := set_links_patched (u64 (links_patched d + 1)) d in
        patch_walk fuel code (next (pool_at d i)) d
  end.

(** [while (i != LINK_NONE)]: unlink every site and free its record. *)
Fixpoint unpatch_walk (fuel : nat) (i : Z) (d : z80_dbt) : z80_dbt :=
  match fuel with
  | O => d
  | S fuel =>
      if i =? LINK_NONE then d
      else
        let nxt := next (pool_at d i) in
        let d := dbt_arch_patch_link (site_off (pool_at d i)) None d in
        let d := set_pool_at i (mk_link (site_off (pool_at d i)) (link_free d)) d in
        let d := set_link_free i d in
        let d := set_links_unpatched (u64 (links_unpatched d + 1)) d in
        unpatch_walk fuel nxt d
  end.

(** A list holds at most [link_used] records, so that much fuel is enough
    ([repatch_some], [repatch_none] in Links). *)
Definition dbt_links_repatch (pc : Z) (code : option Z) (d : z80_dbt) : z80_dbt :=
  let i := head_at d pc in
  let fuel := S (Z.to_nat (link_used d)) in
  if i =? LINK_NONE then d
  else match code with
       | Some c => patch_walk fuel c i d
       | None => set_head_at pc LINK_NONE (unpatch_walk fuel i d)
       end.

(** ** Lookup, insert, wipe *)

Definition cache_index (pc : Z) : Z := pc &' BLOCK_CACHE_MASK.

Definition dbt_cache_lookup (pc : Z) (d : z80_dbt) : option z80_block_entry * z80_dbt :=
  let e := cache_at d (cache_index pc) in
  if (guest_pc e =? pc) || (guest_pc e =? pc |' BLOCK_REFUSED_BIT)
  then (Some e, set_cache_hits (u64 (cache_hits d + 1)) d)
  else (None, set_cache_misses (u64 (cache_misses d + 1)) d).

Definition dbt_cache_insert (pc : Z) (code : option Z) (d : z80_dbt) : z80_dbt :=
  let e := match code with
           | Some c => mk_entry pc (last_block_bytes d) (Some c)
           | None => mk_entry (pc |' BLOCK_REFUSED_BIT) 0xFFFFFFFF None
           end in
  dbt_links_repatch pc code (set_cache_at (cache_index pc) e d).

(** Every entry empty (its span is left), every list empty, the pool rewound,
    the bitmap clear. *)
Definition wiped_entry (e : z80_block_entry) : z80_block_entry := mk_entry BLOCK_EMPTY_PC (span e) None.
Definition dbt_cache_invalidate_all (d : z80_dbt) : z80_dbt :=
  let d := set_cache (wiped_entry <$> cache d) d in
  let d := set_link_head ∅ d in
  let d := set_link_used 0 d in
  let d := set_link_free LINK_NONE d in
  let d := set_code_bitmap ∅ d in
  set_max_block_bytes 0 d.

(** ** Marking and invalidation *)

(** [end_] as the C parameter: a 32-bit value, not wrapped to the guest's
    address space. *)
Definition dbt_mark_block_bytes (start end_ : Z) (d : z80_dbt) : z80_dbt :=
  let bytes := u32 (end_ - start) &' 0xFFFF in
  let d := if max_block_bytes d <? bytes then set_max_block_bytes bytes d else d in
  let d := set_last_block_bytes bytes d in
  fold_left (λ d a, set_code_byte (a &' 0xFFFF) 1 d) (zseq start (Z.to_nat (end_ - start))) d.

(** Empty slot [p]; links to the block are undone. *)
Definition drop_entry (p : Z) (e : z80_block_entry) (d : z80_dbt) : z80_dbt :=
  dbt_links_repatch p None (set_cache_at (p &' BLOCK_CACHE_MASK) (mk_entry BLOCK_EMPTY_PC (span e) None) d).

Definition invalidate_one (addr k : Z) (d : z80_dbt) : z80_dbt :=
  let p := u16 (addr - k) in
  let e := cache_at d (p &' BLOCK_CACHE_MASK) in
  if (guest_pc e =? BLOCK_EMPTY_PC) || (span e <=? k) then d else drop_entry p e d.

Definition dbt_invalidate_for_store (addr : Z) (d : z80_dbt) : z80_dbt :=
  let d := fold_left (λ d k, invalidate_one addr k d) (zseq 0 (Z.to_nat (max_block_bytes d))) d in
  let d := set_smc_invalidations (u64 (smc_invalidations d + 1)) d in
  set_code_byte addr 0 d.

(** The hook of [z80_mem_w] when [cpu->dbt] is set. *)
Definition dbt_store (addr : Z) (d : z80_dbt) : z80_dbt :=
  if code_byte d addr then dbt_invalidate_for_store addr d else d.

(** A sweep over a forward range [lo, lo+len): [gap] is the distance from
    the slot to the first written byte. *)
Definition sweep_one (lo window k : Z) (d : z80_dbt) : z80_dbt :=
  let p := u16 (lo + k - window + 1) in
  let e := cache_at d (p &' BLOCK_CACHE_MASK) in
  let gap := if k <? u32 (window - 1) then u32 (u32 (window - 1) - k) else 0 in
  if (guest_pc e =? BLOCK_EMPTY_PC) || (span e <=? gap) then d else drop_entry p e d.

Definition smc_sweep_forward (lo len : Z) (d : z80_dbt) : z80_dbt :=
  if len =? 0 then d
  else if negb (existsb (λ i, code_byte d (u16 (lo + i))) (zseq 0 (Z.to_nat len))) then d
  else
    let window := max_block_bytes d in
    let d := fold_left (λ d k, sweep_one lo window k d) (zseq 0 (Z.to_nat (len + window))) d in
    set_smc_invalidations (u64 (smc_invalidations d + 1)) d.

(** The CPU with [cpu->dbt]: [None] when no translator is attached. *)
#[export] Instance dbt_host : Host (option z80_dbt) := {|
  smc_store a w := option_map (dbt_store a) w;
  port_in_hook := None;
  port_out_hook := None;
  console_wait w := w;
  traps_enabled _ := false;
  bdos_dispatch s := (true, s);
  bios_dispatch s := (true, s);
|}.

#[export] Instance dbt_host_ok : HostOk (option z80_dbt).
Proof. by split. Qed.

(** [z80_mem_host_wrote]: rewrite each byte of the range with itself. *)
Definition z80_mem_host_wrote (addr len : Z) (s : mach (option z80_dbt)) : mach (option z80_dbt) :=
  match s.2 with
  | None => s
  | Some _ => fold_left (λ s i, let a := u16 (addr + i) in mem_w a (mget (mem s.1) a) s)
                (zseq 0 (Z.to_nat len)) s
  end.

(** ** What the registry operations leave alone *)

(** Everything invalidation reads: cache, bitmap and the two sizes. *)
Definition same_smc (d d' : z80_dbt) : Prop :=
  cache d' = cache d ∧ code_bitmap d' = code_bitmap d ∧
  max_block_bytes d' = max_block_bytes d ∧ last_block_bytes d' = last_block_bytes d.

#[export] Instance same_smc_preorder : PreOrder same_smc.
Proof.
  split; [done|]. intros d1 d2 d3 (?&?&?&?) (?&?&?&?). split_and!; etrans; eauto.
Qed.

Lemma patch_link_smc site t d : same_smc d (dbt_arch_patch_link site t d).
Proof. unfold dbt_arch_patch_link. by case_match. Qed.
Lemma patch_walk_smc fuel c i d : same_smc d (patch_walk fuel c i d).
Proof.
  revert i d. induction fuel as [|fuel IH]; intros i d; simpl; [done|].
  case_match; [done|]. etrans; [apply (patch_link_smc (site_off (pool_at d i)) (Some c))|].
  etrans; [|apply IH]. done.
Qed.
Lemma unpatch_walk_smc fuel i d : same_smc d (unpatch_walk fuel i d).
Proof.
  revert i d. induction fuel as [|fuel IH]; intros i d; simpl; [done|].
  case_match; [done|]. etrans; [apply (patch_link_smc (site_off (pool_at d i)) None)|].
  etrans; [|apply IH]. done.
Qed.
Lemma links_repatch_smc pc c d : same_smc d (dbt_links_repatch pc c d).
Proof.
  unfold dbt_links_repatch. case_match; [done|]. destruct c as [c|]; [apply patch_walk_smc|].
  etrans; [apply unpatch_walk_smc|]. done.
Qed.
Lemma link_record_smc pc site d : same_smc d (dbt_link_record pc site d).2.
Proof. unfold dbt_link_record. by repeat case_match. Qed.

(** ** The invalidation invariant *)

Definition live (d : z80_dbt) (pc : Z) : Prop := guest_pc (cache_at d pc) = pc.

(** Block [pc] of [d] covers guest byte [a]. *)
Definition covers (d : z80_dbt) (pc a : Z) : Prop :=
  ∃ k, 0 <= k < span (cache_at d pc) ∧ u16 (pc + k) = a.

Record entry_ok (d : z80_dbt) (pc : Z) : Prop := {
  entry_code : is_Some (native_code (cache_at d pc));
  entry_span : 1 <= span (cache_at d pc) <= max_block_bytes d;
  entry_marked a : covers d pc a → code_byte d a = true
}.

(** Every live block's bytes are marked and its span is within the window. *)
Definition smc_ok (d : z80_dbt) : Prop :=
  0 <= max_block_bytes d < 65536 ∧ ∀ pc, is_word pc → live d pc → entry_ok d pc.

(** The same for the live blocks with [P] only: a block that reaches the top
    of memory is not marked, so an invariant of the whole program can speak
    only of the others. *)
Definition smc_ok_on (P : Z → z80_block_entry → Prop) (d : z80_dbt) : Prop :=
  0 <= max_block_bytes d < 65536 ∧ ∀ pc, is_word pc → live d pc → P pc (cache_at d pc) → entry_ok d pc.

Definition every (_ : Z) (_ : z80_block_entry) : Prop := True.
Lemma smc_ok_every d : smc_ok d ↔ smc_ok_on every d.
Proof. split; intros [Hm H]; (split; [done|]); auto. by intros; apply H. Qed.

Lemma same_smc_ok_on P d d' : same_smc d d' → smc_ok_on P d → smc_ok_on P d'.
Proof.
  intros (Hc & Hb & Hm & _) [Hmax H]. rewrite <- Hm in *. split; [lia|].
  intros pc Hpc Hl. unfold live, cache_at in *. rewrite Hc in *. intros HP.
  destruct (H pc Hpc Hl HP) as [H1 H2 H3]. constructor; unfold covers, cache_at, code_byte in *; rewrite ?Hc, ?Hb, ?Hm; done.
Qed.
Lemma same_smc_ok d d' : same_smc d d' → smc_ok d → smc_ok d'.
Proof. rewrite !smc_ok_every. apply same_smc_ok_on. Qed.

(** A step that only empties slots. *)
Definition shrinks (d d' : z80_dbt) : Prop :=
  code_bitmap d' = code_bitmap d ∧ max_block_bytes d' = max_block_bytes d ∧
  ∀ p, cache_at d' p = cache_at d p ∨ guest_pc (cache_at d' p) = BLOCK_EMPTY_PC.

#[export] Instance shrinks_preorder : PreOrder shrinks.
Proof.
  split; [by intros d; split_and!; auto|].
  intros d1 d2 d3 (Hb&Hm&Hc) (Hb'&Hm'&Hc'). split_and!; [congruence|congruence|].
  intros p. destruct (Hc' p) as [->|]; auto.
Qed.

Lemma same_smc_shrinks d d' : same_smc d d' → shrinks d d'.
Proof. intros (Hc&Hb&Hm&_). split_and!; [done|done|]. intros p. left. unfold cache_at. by rewrite Hc. Qed.

Lemma cache_at_set i e d p : cache_at (set_cache_at i e d) p = if decide (i = p) then e else cache_at d p.
Proof.
  unfold cache_at, set_cache_at. cbn [cache set_cache]. rewrite lookup_insert. by case_decide.
Qed.

Lemma cache_index_word p : is_word p → p &' BLOCK_CACHE_MASK = p.
Proof. intros. unfold BLOCK_CACHE_MASK. rewrite word_land_ffff. by apply u16_id. Qed.

Lemma drop_entry_shrinks p e d : shrinks d (drop_entry p e d).
Proof.
  unfold drop_entry. etrans; [|apply same_smc_shrinks, links_repatch_smc].
  split_and!; [done|done|]. intros q. rewrite cache_at_set. case_decide; auto.
Qed.
Lemma drop_entry_at p e d : is_word p → guest_pc (cache_at (drop_entry p e d) p) = BLOCK_EMPTY_PC.
Proof.
  intros Hp. unfold drop_entry. set (d1 := set_cache_at _ _ d).
  destruct (links_repatch_smc p None d1) as (Hc & _). unfold cache_at. rewrite Hc.
  fold (cache_at d1 p). subst d1. rewrite cache_at_set, cache_index_word by done. by rewrite decide_True.
Qed.
Lemma drop_entry_other p e d q : is_word p → q ≠ p → cache_at (drop_entry p e d) q = cache_at d q.
Proof.
  intros Hp Hq. unfold drop_entry. set (d1 := set_cache_at _ _ d).
  destruct (links_repatch_smc p None d1) as (Hc & _). unfold cache_at at 1. rewrite Hc.
  fold (cache_at d1 q). subst d1. rewrite cache_at_set, cache_index_word by done. by rewrite decide_False.
Qed.

Lemma shrinks_live d d' pc : is_word pc → shrinks d d' → live d' pc → cache_at d' pc = cache_at d pc.
Proof.
  intros Hpc (_&_&Hc) Hl. destruct (Hc pc) as [|He]; [done|]. unfold live in Hl.
  rewrite Hl in He. unfold is_word, BLOCK_EMPTY_PC in *. lia.
Qed.
Lemma shrinks_ok_on P d d' : shrinks d d' → smc_ok_on P d → smc_ok_on P d'.
Proof.
  intros Hsh [Hmax H]. pose proof Hsh as (Hb & Hm & _). split; [lia|].
  intros pc Hpc Hl. pose proof (shrinks_live _ _ _ Hpc Hsh Hl) as He. rewrite He. intros HP.
  destruct (H pc Hpc) as [H1 H2 H3]; [unfold live in *; congruence|done|].
  constructor; unfold covers, code_byte in *; rewrite ?He, ?Hb, ?Hm; done.
Qed.
Lemma shrinks_ok d d' : shrinks d d' → smc_ok d → smc_ok d'.
Proof. rewrite !smc_ok_every. apply shrinks_ok_on. Qed.

(** Folding a shrinking step establishes what each step establishes. *)
Lemma fold_shrinks (f : Z → z80_dbt → z80_dbt) l d :
  (∀ k d, shrinks d (f k d)) → shrinks d (fold_left (λ d k, f k d) l d).
Proof.
  intros Hf. revert d. induction l as [|k l IH]; intros d; simpl; [done|]. etrans; [apply Hf|apply IH].
Qed.
Lemma fold_establish (f : Z → z80_dbt → z80_dbt) (Q : Z → z80_dbt → Prop) l d k :
  (∀ k d, shrinks d (f k d)) → (∀ k d, Q k (f k d)) →
  (∀ k d d', shrinks d d' → Q k d → Q k d') →
  In k l → Q k (fold_left (λ d k, f k d) l d).
Proof.
  intros Hf HQ Hmono. revert d. induction l as [|j l IH]; intros d; simpl; [done|].
  intros [->|Hin]; [|by apply IH]. eapply Hmono; [by apply fold_shrinks|apply HQ].
Qed.

(** ** A guest store *)

Lemma u16_back addr pc k : is_word addr → is_word pc → u16 (pc + k) = addr → u16 (addr - k) = pc.
Proof. unfold u16, is_word. intros ? ? <-. rewrite Zminus_mod_idemp_l. rewrite Z.add_simpl_r. by apply Z.mod_small. Qed.

Definition slot_done (p k : Z) (d : z80_dbt) : Prop :=
  guest_pc (cache_at d p) = BLOCK_EMPTY_PC ∨ span (cache_at d p) <= k.

Lemma slot_done_shrinks p k d d' : shrinks d d' → slot_done p k d → slot_done p k d'.
Proof. intros (_&_&Hc) Hq. destruct (Hc p) as [He|He]; unfold slot_done; rewrite He; auto. Qed.

Lemma invalidate_one_shrinks addr k d : shrinks d (invalidate_one addr k d).
Proof. unfold invalidate_one. case_match; [done|apply drop_entry_shrinks]. Qed.
Lemma invalidate_one_done addr k d : slot_done (u16 (addr - k)) k (invalidate_one addr k d).
Proof.
  unfold invalidate_one. rewrite cache_index_word by apply u16_word.
  destruct (_ || _) eqn:E; [|left; apply drop_entry_at, u16_word].
  apply orb_prop in E as [E%Z.eqb_eq|E%Z.leb_le]; [by left|by right].
Qed.
Lemma invalidate_one_keeps addr k d pc :
  0 <= k → is_word addr → is_word pc → ¬ covers d pc addr →
  cache_at (invalidate_one addr k d) pc = cache_at d pc.
Proof.
  intros Hk Ha Hpc Hc. unfold invalidate_one. rewrite cache_index_word by apply u16_word.
  destruct (_ || _) eqn:E; [done|]. apply drop_entry_other; [apply u16_word|]. intros ->.
  apply orb_false_iff in E as [_ E%Z.leb_gt]. apply Hc. exists k. split; [lia|].
  rewrite u16_add_l. rewrite Z.sub_add. by apply u16_id.
Qed.

Lemma dbt_store_shrinks addr d p :
  cache_at (dbt_store addr d) p = cache_at d p ∨ guest_pc (cache_at (dbt_store addr d) p) = BLOCK_EMPTY_PC.
Proof.
  unfold dbt_store. case_match; [|by left]. unfold dbt_invalidate_for_store.
  set (d1 := fold_left _ _ d). assert (shrinks d d1) as (_&_&Hc)
    by (apply fold_shrinks; intros; apply invalidate_one_shrinks). apply (Hc p).
Qed.

Lemma dbt_store_spec_on P addr d :
  smc_ok_on P d → is_word addr →
  let d' := dbt_store addr d in
  smc_ok_on P d' ∧
  (∀ pc, is_word pc → live d' pc → P pc (cache_at d' pc) → ¬ covers d' pc addr) ∧
  (∀ pc, is_word pc → ¬ covers d pc addr → cache_at d' pc = cache_at d pc).
Proof.
  intros Hok Ha. cbv zeta. unfold dbt_store. destruct (code_byte d addr) eqn:Hb; cycle 1.
  { split_and!; [done| |done]. intros pc Hpc Hl HP Hc.
    by rewrite (entry_marked _ _ (proj2 Hok pc Hpc Hl HP) addr Hc) in Hb. }
  unfold dbt_invalidate_for_store. set (d1 := fold_left _ _ d).
  assert (shrinks d d1) as Hsh by (apply fold_shrinks; intros; apply invalidate_one_shrinks).
  assert (smc_ok_on P d1) as Hok1 by (by apply (shrinks_ok_on P d)).
  assert (∀ pc, is_word pc → live d1 pc → P pc (cache_at d1 pc) → ¬ covers d1 pc addr) as Hnc.
  { intros pc Hpc Hl HP (k & Hk & Heq). pose proof (entry_span _ _ (proj2 Hok1 pc Hpc Hl HP)) as Hsp.
    assert (slot_done (u16 (addr - k)) k d1) as [He|He].
    { apply (fold_establish (invalidate_one addr) (λ k, slot_done (u16 (addr - k)) k)).
      - intros; apply invalidate_one_shrinks.
      - intros; apply invalidate_one_done.
      - intros ? ? ?; apply slot_done_shrinks.
      - apply elem_of_zseq. destruct Hsh as (_ & Hm & _). lia. }
    - rewrite (u16_back addr pc) in He by done. unfold live in Hl.
      rewrite Hl in He. unfold is_word, BLOCK_EMPTY_PC in *. lia.
    - rewrite (u16_back addr pc) in He by done. lia. }
  split_and!.
  - destruct Hok1 as [Hm1 H1]. split; [done|]. intros pc Hpc Hl HP.
    destruct (H1 pc Hpc Hl HP) as [Hc Hs Hmk]. constructor; [done|done|].
    intros a Hcov. unfold code_byte. cbn [code_bitmap set_code_byte set_code_bitmap].
    destruct (decide (addr = a)) as [<-|Hne]; [by destruct (Hnc pc Hpc Hl HP)|].
    unfold set_code_byte. cbn [code_bitmap set_code_bitmap].
    rewrite lookup_insert_ne by done. apply Hmk, Hcov.
  - exact Hnc.
  - intros pc Hpc Hc. change (cache_at d1 pc = cache_at d pc). subst d1.
    generalize (Z.to_nat (max_block_bytes d)). intros n.
    assert (Forall (λ k, 0 <= k) (zseq 0 n)) as Hl.
    { apply Forall_forall. intros k Hk%list_elem_of_In%elem_of_zseq. lia. }
    clear - Hl Ha Hpc Hc. revert d Hc. induction Hl as [|k l Hk _ IH]; intros d Hc; [done|]. cbn [fold_left].
    pose proof (invalidate_one_keeps addr k d pc Hk Ha Hpc Hc) as E.
    rewrite IH; [done|]. unfold covers. by rewrite E.
Qed.

Lemma dbt_store_spec addr d :
  smc_ok d → is_word addr →
  smc_ok (dbt_store addr d) ∧
  (∀ pc, is_word pc → live (dbt_store addr d) pc → ¬ covers (dbt_store addr d) pc addr) ∧
  (∀ pc, is_word pc → ¬ covers d pc addr → cache_at (dbt_store addr d) pc = cache_at d pc).
Proof.
  rewrite !smc_ok_every. intros Hok Ha. destruct (dbt_store_spec_on every addr d Hok Ha) as (H1 & H2 & H3).
  split_and!; [done| |done]. intros pc Hpc Hl. by apply H2.
Qed.

(** ** A sweep over a written range *)

Lemma sweep_one_shrinks lo w k d : shrinks d (sweep_one lo w k d).
Proof. unfold sweep_one. case_match; [done|apply drop_entry_shrinks]. Qed.
Definition sweep_gap (w k : Z) : Z := if k <? u32 (w - 1) then u32 (u32 (w - 1) - k) else 0.
Lemma sweep_one_done lo w k d :
  slot_done (u16 (lo + k - w + 1)) (sweep_gap w k) (sweep_one lo w k d).
Proof.
  unfold sweep_one. rewrite cache_index_word by apply u16_word. fold (sweep_gap w k).
  destruct (_ || _) eqn:E; [|left; apply drop_entry_at, u16_word].
  apply orb_prop in E as [E%Z.eqb_eq|E%Z.leb_le]; [by left|by right].
Qed.

Definition sweep_fold (lo len w : Z) (d : z80_dbt) : z80_dbt :=
  fold_left (λ d k, sweep_one lo w k d) (zseq 0 (Z.to_nat (len + w))) d.

Lemma sweep_fold_spec_on P lo len d :
  smc_ok_on P d → 0 <= len →
  let d1 := sweep_fold lo len (max_block_bytes d) d in
  shrinks d d1 ∧
  ∀ pc i, is_word pc → live d1 pc → P pc (cache_at d1 pc) → 0 <= i < len → ¬ covers d1 pc (u16 (lo + i)).
Proof.
  intros Hok Hlen d1. subst d1. set (w := max_block_bytes d). set (d1 := sweep_fold _ _ _ d).
  assert (shrinks d d1) as Hsh by (apply fold_shrinks; intros; apply sweep_one_shrinks).
  assert (smc_ok_on P d1) as Hok1 by (by apply (shrinks_ok_on P d)).
  split; [exact Hsh|]. intros pc i Hpc Hl HP Hi (j & Hj & Heq).
  pose proof (entry_span _ _ (proj2 Hok1 pc Hpc Hl HP)) as Hsp.
  destruct Hsh as (_ & Hm & _). destruct Hok as [Hw _].
  set (k := i - j + w - 1).
  assert (u16 (lo + k - w + 1) = pc) as Hp.
  { replace (lo + k - w + 1) with (lo + i - j) by lia.
    rewrite <- (u16_back (u16 (lo + i)) pc j); [|apply u16_word|done|done].
    unfold u16. by rewrite Zminus_mod_idemp_l. }
  assert (slot_done (u16 (lo + k - w + 1)) (sweep_gap w k) d1) as Hd.
  { apply (fold_establish (sweep_one lo w) (λ k, slot_done (u16 (lo + k - w + 1)) (sweep_gap w k))).
    - intros; apply sweep_one_shrinks.
    - intros; apply sweep_one_done.
    - intros ? ? ?; apply slot_done_shrinks.
    - apply elem_of_zseq. lia. }
  rewrite Hp in Hd. destruct Hd as [He|He].
  - unfold live in Hl. rewrite Hl in He. unfold is_word, BLOCK_EMPTY_PC in *. lia.
  - unfold sweep_gap, u32 in He. rewrite !(Z.mod_small (w - 1)) in He by lia.
    destruct (Z.ltb_spec k (w - 1)); [rewrite Z.mod_small in He|]; lia.
Qed.

(** No marked byte in the range: nothing to sweep. *)
Lemma unmarked_uncovered_on P d pc a :
  smc_ok_on P d → is_word pc → live d pc → P pc (cache_at d pc) → code_byte d a = false → ¬ covers d pc a.
Proof.
  intros Hok Hpc Hl HP Hb Hc. pose proof (entry_marked _ _ (proj2 Hok pc Hpc Hl HP) _ Hc). congruence.
Qed.
Lemma existsb_zseq_false f n i : existsb f (zseq 0 n) = false → 0 <= i < Z.of_nat n → f i = false.
Proof.
  intros H Hi. destruct (f i) eqn:E; [|done]. rewrite <- H. symmetry. apply existsb_exists.
  exists i. split; [apply elem_of_zseq; lia|done].
Qed.

Lemma sweep_spec_on P lo len d :
  smc_ok_on P d → 0 <= len →
  let d' := smc_sweep_forward lo len d in
  shrinks d d' ∧
  ∀ pc i, is_word pc → live d' pc → P pc (cache_at d' pc) → 0 <= i < len → ¬ covers d' pc (u16 (lo + i)).
Proof.
  intros Hok Hlen. cbv zeta. unfold smc_sweep_forward. destruct (Z.eqb_spec len 0); [split; [done|intros; lia]|].
  destruct (existsb _ _) eqn:Hany; cbn [negb]; [exact (sweep_fold_spec_on P lo len d Hok Hlen)|].
  split; [done|]. intros pc i Hpc Hl HP Hi. apply (unmarked_uncovered_on P); [done..|].
  apply (existsb_zseq_false _ _ i Hany). lia.
Qed.
Lemma sweep_spec lo len d :
  smc_ok d → 0 <= len →
  shrinks d (smc_sweep_forward lo len d) ∧
  ∀ pc i, is_word pc → live (smc_sweep_forward lo len d) pc → 0 <= i < len →
    ¬ covers (smc_sweep_forward lo len d) pc (u16 (lo + i)).
Proof.
  rewrite smc_ok_every. intros Hok Hlen. destruct (sweep_spec_on every lo len d Hok Hlen) as [Hs Hn].
  split; [done|]. intros pc i Hpc Hl. by apply Hn.
Qed.

(** ** Translating a block: mark, then insert *)

Lemma mark_fold start n d :
  let d' := fold_left (λ d a, set_code_byte (a &' 0xFFFF) 1 d) (zseq start n) d in
  cache d' = cache d ∧ max_block_bytes d' = max_block_bytes d ∧
  last_block_bytes d' = last_block_bytes d ∧
  (∀ a, code_byte d a = true → code_byte d' a = true) ∧
  (∀ i, 0 <= i < Z.of_nat n → code_byte d' (u16 (start + i)) = true).
Proof.
  revert start d. induction n as [|n IH]; intros start d; [simpl; split_and!; auto; lia|].
  cbn [zseq fold_left]. set (d1 := set_code_byte _ _ d).
  assert (∀ a, code_byte d a = true → code_byte d1 a = true) as H1.
  { intros a Ha. subst d1. unfold code_byte, set_code_byte. cbn [code_bitmap set_code_bitmap].
    rewrite lookup_insert. case_decide; [done|exact Ha]. }
  specialize (IH (start + 1) d1). cbv zeta in IH. destruct IH as (Hc & Hm & Hl & Hmono & Hset).
  split_and!; try done; [by auto|]. intros i Hi. destruct (Z.eq_dec i 0) as [->|].
  - apply Hmono. subst d1. unfold code_byte, set_code_byte. cbn [code_bitmap set_code_bitmap].
    rewrite Z.add_0_r, <- word_land_ffff, lookup_insert, decide_True by done. done.
  - replace (start + i) with (start + 1 + (i - 1)) by lia. apply Hset. lia.
Qed.

Lemma mark_spec start end_ d :
  is_word start → start < end_ <= 65536 → end_ - start < 65536 →
  let d' := dbt_mark_block_bytes start end_ d in
  cache d' = cache d ∧ last_block_bytes d' = end_ - start ∧
  max_block_bytes d' = Z.max (max_block_bytes d) (end_ - start) ∧
  (∀ a, code_byte d a = true → code_byte d' a = true) ∧
  (∀ i, 0 <= i < end_ - start → code_byte d' (u16 (start + i)) = true).
Proof.
  intros Hs He Hlt d'. subst d'. unfold dbt_mark_block_bytes.
  replace (u32 (end_ - start) &' 65535) with (end_ - start)
    by (rewrite word_land_ffff; unfold u32, u16, is_word in *; rewrite (Z.mod_small _ 4294967296), Z.mod_small by lia; done).
  match goal with |- context [fold_left _ _ ?x] => set (d0 := x) end.
  pose proof (mark_fold start (Z.to_nat (end_ - start)) d0) as H. cbv zeta in H.
  destruct H as (Hc & Hm & Hl & Hmono & Hset).
  rewrite Hc, Hm, Hl. split_and!.
  - subst d0. by case_match.
  - subst d0. by case_match.
  - subst d0. destruct (Z.ltb_spec (max_block_bytes d) (end_ - start)); simpl; lia.
  - intros a Ha. apply Hmono. subst d0. by case_match.
  - intros i Hi. apply Hset. lia.
Qed.

Lemma insert_cache pc c d p :
  is_word pc →
  cache_at (dbt_cache_insert pc c d) p =
    if decide (pc = p) then
      match c with Some n => mk_entry pc (last_block_bytes d) (Some n)
                 | None => mk_entry (pc |' BLOCK_REFUSED_BIT) 0xFFFFFFFF None end
    else cache_at d p.
Proof.
  intros Hpc. unfold dbt_cache_insert. match goal with |- context [set_cache_at _ ?x d] => set (e := x) end.
  destruct (links_repatch_smc pc c (set_cache_at (cache_index pc) e d)) as (Hc & _).
  unfold cache_at at 1. rewrite Hc. fold (cache_at (set_cache_at (cache_index pc) e d) p).
  rewrite cache_at_set. unfold cache_index. by rewrite cache_index_word.
Qed.
Lemma insert_rest pc c d :
  code_bitmap (dbt_cache_insert pc c d) = code_bitmap d ∧
  max_block_bytes (dbt_cache_insert pc c d) = max_block_bytes d.
Proof.
  unfold dbt_cache_insert. match goal with |- context [set_cache_at _ ?x d] => set (e := x) end.
  by destruct (links_repatch_smc pc c (set_cache_at (cache_index pc) e d)) as (_ & ? & ? & _).
Qed.

Lemma u16_u32 x : u16 (u32 x) = u16 x.
Proof. unfold u16, u32. Z.div_mod_to_equations. lia. Qed.
Lemma insert_marked pc end_ c d p :
  is_word pc →
  let d' := dbt_cache_insert pc (Some c) (dbt_mark_block_bytes pc end_ d) in
  cache_at d' p = if decide (pc = p) then mk_entry pc (u16 (end_ - pc)) (Some c) else cache_at d p.
Proof.
  intros Hpc. cbv zeta. rewrite insert_cache by done. unfold dbt_mark_block_bytes.
  match goal with |- context [fold_left _ _ ?x] => set (d0 := x) end.
  destruct (mark_fold pc (Z.to_nat (end_ - pc)) d0) as (Hc & _ & Hl & _). cbv zeta in *.
  unfold cache_at at 1. rewrite Hl, Hc. subst d0. cbn [last_block_bytes set_last_block_bytes cache].
  rewrite word_land_ffff. rewrite u16_u32.
  case_decide; [done|]. unfold cache_at. by destruct (max_block_bytes d <? u16 (end_ - pc)).
Qed.

Lemma translate_ok_on P pc end_ c d :
  smc_ok_on P d → is_word pc → pc < end_ <= 65536 → end_ - pc < 65536 →
  smc_ok_on P (dbt_cache_insert pc (Some c) (dbt_mark_block_bytes pc end_ d)).
Proof.
  intros [Hmax Hok] Hpc He Hlt.
  destruct (mark_spec pc end_ d Hpc He Hlt) as (Hc & Hl & Hm & Hmono & Hset). cbv zeta in *.
  set (d1 := dbt_mark_block_bytes pc end_ d) in *. set (d' := dbt_cache_insert pc (Some c) d1).
  destruct (insert_rest pc (Some c) d1) as [Hb' Hm']. fold d' in Hb', Hm'.
  assert (∀ p, cache_at d' p = if decide (pc = p) then mk_entry pc (end_ - pc) (Some c) else cache_at d p) as Hat.
  { intros p. subst d'. rewrite insert_cache, Hl by done. case_decide; [done|]. unfold cache_at. by rewrite Hc. }
  assert (∀ a, code_byte d' a = code_byte d1 a) as Hcb by (intros; unfold code_byte; by rewrite Hb').
  split; [rewrite Hm', Hm; lia|]. intros p Hp Hlive. unfold live in Hlive. rewrite Hat in Hlive |- *. intros HP.
  destruct (decide (pc = p)) as [<-|Hne].
  - constructor; unfold covers; rewrite Hat, decide_True by done; simpl; [done|rewrite Hm', Hm; lia|].
    intros a (k & Hk & <-). rewrite Hcb. apply Hset. lia.
  - destruct (Hok p Hp Hlive HP) as [H1 H2 H3].
    constructor; unfold covers in *; rewrite Hat, decide_False by done; [done|rewrite Hm', Hm; lia|].
    intros a Ha. rewrite Hcb. by apply Hmono, H3.
Qed.

Lemma translate_ok pc end_ c d :
  smc_ok d → is_word pc → pc < end_ <= 65536 → end_ - pc < 65536 →
  let d' := dbt_cache_insert pc (Some c) (dbt_mark_block_bytes pc end_ d) in
  smc_ok d' ∧ cache_at d' pc = mk_entry pc (end_ - pc) (Some c) ∧
  ∀ p, p ≠ pc → cache_at d' p = cache_at d p.
Proof.
  rewrite smc_ok_every. intros Hok Hpc He Hlt. cbv zeta. rewrite smc_ok_every. split_and!; [by apply translate_ok_on| |].
  - rewrite insert_marked, decide_True by done. unfold u16. by rewrite Z.mod_small by lia.
  - intros p Hp. by rewrite insert_marked, decide_False.
Qed.

(** A block whose decode cursor has wrapped marks nothing. *)
Lemma mark_wrapped start end_ d :
  end_ <= start → let d' := dbt_mark_block_bytes start end_ d in
  cache d' = cache d ∧ code_bitmap d' = code_bitmap d ∧ max_block_bytes d' = Z.max (max_block_bytes d) (u16 (end_ - start)).
Proof.
  intros He. cbv zeta. unfold dbt_mark_block_bytes. replace (Z.to_nat (end_ - start)) with 0%nat by lia. cbn [zseq fold_left].
  assert (u32 (end_ - start) &' 65535 = u16 (end_ - start)) as ->.
  { by rewrite word_land_ffff, u16_u32. }
  destruct (Z.ltb_spec (max_block_bytes d) (u16 (end_ - start))); split_and!; cbn; try done; lia.
Qed.
Lemma translate_wrapped_ok P pc end_ c d :
  smc_ok_on P d → is_word pc → end_ <= pc → ¬ P pc (mk_entry pc (u16 (end_ - pc)) (Some c)) →
  smc_ok_on P (dbt_cache_insert pc (Some c) (dbt_mark_block_bytes pc end_ d)).
Proof.
  intros [Hmax Hok] Hpc He Hn. pose proof (insert_marked pc end_ c d) as Hat. cbv zeta in Hat.
  destruct (mark_wrapped pc end_ d He) as (Hc & Hb & Hm). cbv zeta in *. set (d1 := dbt_mark_block_bytes pc end_ d) in *.
  destruct (insert_rest pc (Some c) d1) as [Hb' Hm']. pose proof (u16_word (end_ - pc)) as Hw. unfold is_word in Hw.
  split; [rewrite Hm', Hm; lia|]. intros p Hp Hl HP. unfold live in Hl. rewrite Hat in Hl, HP by done.
  case_decide as Hd; [by subst p|]. destruct (Hok p Hp Hl HP) as [H1 H2 H3].
  constructor; unfold covers, code_byte in *; rewrite ?Hat, ?Hb', ?Hb, ?Hm', ?Hm, ?decide_False by done; [done|lia|done].
Qed.

Lemma refuse_not_live pc d : is_word pc → ¬ live (dbt_cache_insert pc None d) pc.
Proof.
  intros Hpc. unfold live. rewrite insert_cache, decide_True by done. simpl. intros E.
  assert (Z.testbit (pc |' BLOCK_REFUSED_BIT) 30 = true) as Hb
    by (rewrite Z.lor_spec; apply orb_true_iff; right; by vm_compute).
  rewrite E in Hb. apply (bounded_testbit 16) in Hpc as [_ Hpc]; [|lia].
  rewrite Hpc in Hb by lia. done.
Qed.

Lemma refuse_ok_on P pc d :
  smc_ok_on P d → is_word pc →
  smc_ok_on P (dbt_cache_insert pc None d) ∧
  ∀ p, p ≠ pc → cache_at (dbt_cache_insert pc None d) p = cache_at d p.
Proof.
  intros [Hmax Hok] Hpc. destruct (insert_rest pc None d) as [Hb Hm].
  assert (∀ p, p ≠ pc → cache_at (dbt_cache_insert pc None d) p = cache_at d p) as Hat
    by (intros p Hp; rewrite insert_cache, decide_False by done; done).
  split; [|done]. split; [by rewrite Hm|]. intros p Hp Hl.
  destruct (decide (p = pc)) as [->|Hne]; [by apply refuse_not_live in Hl|].
  unfold live in Hl. rewrite Hat in Hl |- * by done. intros HP. destruct (Hok p Hp Hl HP) as [H1 H2 H3].
  constructor; unfold covers, code_byte in *; rewrite ?Hat, ?Hb, ?Hm by done; done.
Qed.
