(* ===== verification/Links.v ===== *)
(** * Links: the direct-link registry and the branches it controls

    [links_ok] is the registry's representation invariant: the free list and
    the per-target lists partition the used part of the pool.  The theorems
    show that recording and repatching keep it (no record leaks, none is on
    two lists), that the list walks stop, and that the patchable branches in
    the code buffer go where the registry says. *)

From Stdlib Require Import ZArith Lia Bool List.
From stdpp Require Import base gmap list relations.
From S2P Require Import Prelude Cpu BlockCache.

Open Scope Z_scope.
Open Scope z80_scope.

(** ** Bytes of a branch *)

Lemma buf_byte_insert a v b x : buf_byte (<[a:=v]> b) x = if decide (a = x) then v else buf_byte b x.
Proof. unfold buf_byte. rewrite lookup_insert. by case_decide. Qed.

Lemma write_le32_other a v b x : ¬ (a <= x < a + 4) → buf_byte (write_le32 a v b) x = buf_byte b x.
Proof. intros Hx. unfold write_le32. rewrite !buf_byte_insert, !decide_False by lia. done. Qed.

Lemma u8_word_of_pair x y : word_of (u8 x) (u8 y) = u8 x + 256 * u8 y.
Proof. apply word_of_add; [apply u8_byte|]. pose proof (u8_byte y). unfold is_byte in *. lia. Qed.

Lemma read_write_le32 a v b : is_dword v → read_le32 (write_le32 a v b) a = v.
Proof.
  intros Hv. unfold read_le32, write_le32. rewrite !buf_byte_insert.
  repeat first [rewrite decide_True by lia | rewrite decide_False by lia].
  rewrite !u8_word_of_pair. unfold u8, is_dword in *. rewrite !Z.shiftr_div_pow2 by lia.
  change (2 ^ 8) with 256. change (2 ^ 16) with 65536. change (2 ^ 24) with 16777216.
  Z.div_mod_to_equations. lia.
Qed.

Lemma read_le32_ext b b' a : (∀ x, a <= x < a + 4 → buf_byte b' x = buf_byte b x) → read_le32 b' a = read_le32 b a.
Proof. intros H. unfold read_le32. by rewrite !H by lia. Qed.

(** Offsets into the 64 MB code buffer. *)
Definition CODE_BUF_SIZE : Z := 64 * 1024 * 1024.
Definition in_buf (x : Z) : Prop := 0 <= x < CODE_BUF_SIZE.

Lemma s32_u32 x : -2147483648 <= x < 2147483648 → s32 (u32 x) = x.
Proof.
  intros Hx. unfold s32, u32.
  destruct (Z.ltb_spec (x mod 4294967296) 2147483648); Z.div_mod_to_equations; lia.
Qed.

(** Where a patched branch goes, and what the patch leaves alone. *)
Lemma patch_link_spec site t d :
  in_buf site → match t with Some c => in_buf c | None => True end →
  let d' := dbt_arch_patch_link site t d in
  branch_target (code_buf d') site =
    match t with Some c => c | None => link_fallback (code_buf d) site end ∧
  (∀ x, ¬ (site + 1 <= x < site + 5) → buf_byte (code_buf d') x = buf_byte (code_buf d) x) ∧
  link_pool d' = link_pool d ∧ link_head d' = link_head d ∧
  link_used d' = link_used d ∧ link_free d' = link_free d.
Proof.
  intros Hs Ht d'. subst d'. unfold dbt_arch_patch_link, branch_target.
  set (dst := match t with Some c => c | None => _ end).
  assert (-2147483648 <= dst - (site + 5) < 2147483648) as Hr.
  { unfold in_buf, CODE_BUF_SIZE in *. subst dst. destruct t; [lia|].
    unfold link_fallback, CALL_LANDING_BYTES. case_match; lia. }
  destruct (Z.eqb_spec (read_le32 (code_buf d) (site + 1)) (u32 (dst - (site + 5)))) as [E|_].
  - split_and!; try done. rewrite E, s32_u32 by done. lia.
  - cbn [code_buf set_code_buf]. split_and!; try done.
    + rewrite read_write_le32, s32_u32; [lia|done|]. apply Z.mod_pos_bound. lia.
    + intros x Hx. apply write_le32_other. lia.
Qed.

Lemma branch_target_ext b b' site :
  (∀ x, site + 1 <= x < site + 5 → buf_byte b' x = buf_byte b x) →
  branch_target b' site = branch_target b site.
Proof.
  intros H. unfold branch_target. rewrite (read_le32_ext b b'); [done|]. intros. apply H. lia.
Qed.
Lemma link_fallback_ext b b' site :
  buf_byte b' site = buf_byte b site → link_fallback b' site = link_fallback b site.
Proof. unfold link_fallback. by intros ->. Qed.

(** ** Lists in the pool *)

Fixpoint chain (d : z80_dbt) (i : Z) (l : list Z) : Prop :=
  match l with
  | [] => i = LINK_NONE
  | x :: l => i = x ∧ 0 <= x < link_used d ∧ chain d (next (pool_at d x)) l
  end.

(** [free] is the free list, [sites pc] the records linking to [pc]. *)
Record links_ok (d : z80_dbt) (free : list Z) (sites : Z → list Z) : Prop := {
  lk_used : 0 <= link_used d <= LINK_POOL_SIZE;
  lk_free : chain d (link_free d) free;
  lk_heads pc : chain d (head_at d pc) (sites pc);
  lk_free_nodup : NoDup free;
  lk_nodup pc : NoDup (sites pc);
  lk_disjoint pc pc' i : i ∈ sites pc → i ∈ sites pc' → pc = pc';
  lk_free_disjoint pc i : i ∈ free → i ∉ sites pc;
  lk_total i : 0 <= i < link_used d → i ∈ free ∨ ∃ pc, i ∈ sites pc
}.

(** The records in use name branches at least five bytes apart, inside the
    code buffer. *)
Definition sites_apart (d : z80_dbt) (sites : Z → list Z) : Prop :=
  ∀ pc i, i ∈ sites pc → in_buf (site_off (pool_at d i)) ∧
  ∀ pc' j, j ∈ sites pc' → i ≠ j →
    site_off (pool_at d i) + 5 <= site_off (pool_at d j) ∨
    site_off (pool_at d j) + 5 <= site_off (pool_at d i).

Lemma chain_range d i l x : chain d i l → x ∈ l → 0 <= x < link_used d.
Proof.
  revert i. induction l as [|y l IH]; intros i Hc Hx; [by apply not_elem_of_nil in Hx|].
  destruct Hc as (_ & Hy & Hc). apply elem_of_cons in Hx as [->|Hx]; eauto.
Qed.

Lemma chain_ext d d' i l :
  link_used d <= link_used d' → (∀ x, x ∈ l → next (pool_at d' x) = next (pool_at d x)) →
  chain d i l → chain d' i l.
Proof.
  intros Hu. revert i. induction l as [|x l IH]; intros i Hp; [done|].
  intros (-> & Hx & Hc). split_and!; [done|lia|lia|].
  rewrite Hp by apply list_elem_of_here. apply IH; [|done]. intros y Hy. apply Hp. by apply list_elem_of_further.
Qed.

Lemma chain_length d i l : NoDup l → chain d i l → (length l <= Z.to_nat (link_used d))%nat.
Proof.
  intros Hnd Hc. transitivity (length (zseq 0 (Z.to_nat (link_used d)))).
  - apply NoDup_incl_length; [by apply NoDup_ListNoDup|]. intros x Hx%list_elem_of_In.
    apply elem_of_zseq. pose proof (chain_range _ _ _ _ Hc Hx). lia.
  - generalize 0. generalize (Z.to_nat (link_used d)). intros n. induction n as [|n IH]; intros s; simpl; [lia|].
    specialize (IH (s + 1)). lia.
Qed.

Lemma pool_at_set d i l j : pool_at (set_pool_at i l d) j = if decide (i = j) then l else pool_at d j.
Proof. unfold pool_at, set_pool_at. cbn. rewrite lookup_insert. by case_decide. Qed.
Lemma head_at_set d p i q : head_at (set_head_at p i d) q = if decide (p = q) then i else head_at d q.
Proof. unfold head_at, set_head_at. cbn. rewrite lookup_insert. by case_decide. Qed.

(** ** Recording a site *)

Definition upd_sites (sites : Z → list Z) (pc : Z) (l : list Z) : Z → list Z :=
  λ p, if decide (p = pc) then l else sites p.

Lemma chain_none d l : chain d LINK_NONE l → link_used d <= LINK_POOL_SIZE → l = [].
Proof.
  destruct l as [|x l]; [done|]. intros (<- & Hx & _) Hu. unfold LINK_NONE, LINK_POOL_SIZE in *. lia.
Qed.

Lemma links_ok_ext d d' free sites :
  link_pool d' = link_pool d → link_head d' = link_head d →
  link_used d' = link_used d → link_free d' = link_free d →
  links_ok d free sites → links_ok d' free sites.
Proof.
  intros Hp Hh Hu Hf [H1 H2 H3 H4 H5 H6 H7 H8].
  assert (∀ j l, chain d j l → chain d' j l) as Hext.
  { intros j l Hc. eapply chain_ext; [| |exact Hc]; [lia|]. intros. unfold pool_at. by rewrite Hp. }
  constructor; unfold head_at; rewrite ?Hu, ?Hf, ?Hh; try done; [by apply Hext|].
  intros pc. apply Hext, H3.
Qed.

(** A record taken off every list. *)
Record links_hole (d : z80_dbt) (i : Z) (free : list Z) (sites : Z → list Z) : Prop := {
  lh_used : 0 <= link_used d <= LINK_POOL_SIZE;
  lh_i : 0 <= i < link_used d;
  lh_free : chain d (link_free d) free;
  lh_heads pc : chain d (head_at d pc) (sites pc);
  lh_free_nodup : NoDup free;
  lh_nodup pc : NoDup (sites pc);
  lh_disjoint pc pc' j : j ∈ sites pc → j ∈ sites pc' → pc = pc';
  lh_free_disjoint pc j : j ∈ free → j ∉ sites pc;
  lh_out : i ∉ free;
  lh_out_sites pc : i ∉ sites pc;
  lh_total j : 0 <= j < link_used d → j = i ∨ j ∈ free ∨ ∃ pc, j ∈ sites pc
}.

Lemma pop_free d i free sites :
  links_ok d (i :: free) sites → links_hole (set_link_free (next (pool_at d i)) d) i free sites.
Proof.
  intros [Hu Hf Hh Hnf Hn Hd Hfd Ht]. destruct Hf as (Hi & Hr & Hf). apply NoDup_cons in Hnf as [Hi' Hnf].
  constructor; try done.
  - eapply chain_ext; [| |exact Hf]; done.
  - intros pc. eapply chain_ext; [| |apply Hh]; done.
  - intros pc j Hj. apply Hfd. by apply list_elem_of_further.
  - intros pc. apply Hfd. apply list_elem_of_here.
  - intros j Hj. destruct (Ht j Hj) as [[->|?]%elem_of_cons|?]; auto.
Qed.

Lemma grow_pool d free sites :
  links_ok d free sites → link_used d < LINK_POOL_SIZE →
  links_hole (set_link_used (u32 (link_used d + 1)) d) (link_used d) free sites.
Proof.
  intros [Hu Hf Hh Hnf Hn Hd Hfd Ht] Hlt.
  assert (u32 (link_used d + 1) = link_used d + 1) as E
    by (unfold u32, LINK_POOL_SIZE in *; apply Z.mod_small; lia).
  rewrite E. constructor; cbn; try done; try lia.
  - eapply chain_ext; [| |exact Hf]; [cbn; lia|done].
  - intros pc. eapply chain_ext; [| |apply Hh]; [cbn; lia|done].
  - intros Hin. pose proof (chain_range _ _ _ _ Hf Hin). lia.
  - intros pc Hin. pose proof (chain_range _ _ _ _ (Hh pc) Hin). lia.
  - intros j Hj. destruct (Z.eq_dec j (link_used d)); [by left|]. right. apply Ht. lia.
Qed.

Lemma push_site d i free sites pc site :
  links_hole d i free sites →
  links_ok (set_head_at pc i (set_pool_at i (mk_link site (head_at d pc)) d)) free
    (upd_sites sites pc (i :: sites pc)).
Proof.
  intros [Hu Hi Hf Hh Hnf Hn Hd Hfd Ho Hos Ht].
  set (d' := set_head_at pc i _).
  assert (∀ j, pool_at d' j = if decide (i = j) then mk_link site (head_at d pc) else pool_at d j) as Hp
    by (intros; apply pool_at_set).
  assert (∀ j l, chain d j l → i ∉ l → chain d' j l) as Hext.
  { intros j l Hc Hni. eapply chain_ext; [| |exact Hc]; [done|]. intros x Hx. rewrite Hp.
    by rewrite decide_False by (intros ->; done). }
  constructor; unfold upd_sites; try done.
  - by apply Hext.
  - intros q. subst d'. rewrite head_at_set. destruct (decide (pc = q)) as [<-|Hne].
    + rewrite decide_True by done. cbn. split_and!; [done|lia|lia|].
      rewrite Hp, decide_True by done. by apply (Hext _ _ (Hh pc)).
    + rewrite decide_False by done. apply Hext; [apply Hh|apply Hos].
  - intros q. case_decide; [|done]. apply NoDup_cons. done.
  - intros p q j. repeat case_decide; subst; try done; rewrite ?elem_of_cons.
    + intros [->|?] ?; [by destruct (Hos q)|eauto].
    + intros ? [->|?]; [by destruct (Hos p)|eauto].
    + eauto.
  - intros q j Hj. case_decide; [|by apply Hfd]. rewrite elem_of_cons. intros [->|?]; [done|].
    by destruct (Hfd pc j).
  - intros j Hj. destruct (Ht j Hj) as [-> | [?|[q Hq]]]; [|by left|].
    + right. exists pc. rewrite decide_True by done. apply list_elem_of_here.
    + right. exists q. case_decide; [|done]. subst. by apply list_elem_of_further.
Qed.

(** [finish] of [dbt_link_record]: the record [i] becomes the head of [pc]. *)
Lemma finish_spec d i free sites pc site n :
  links_hole d i free sites →
  let d' := set_links_created n (set_head_at pc i (set_pool_at i (mk_link site (head_at d pc)) d)) in
  (∀ q, i ∉ sites q) ∧ site_off (pool_at d' i) = site ∧
  (∀ j, j ≠ i → pool_at d' j = pool_at d j) ∧ code_buf d' = code_buf d ∧
  links_ok d' free (upd_sites sites pc (i :: sites pc)).
Proof.
  intros Hh d'.
  assert (∀ j, pool_at d' j = if decide (i = j) then mk_link site (head_at d pc) else pool_at d j) as Hp
    by (intros; apply pool_at_set).
  split_and!.
  - apply Hh.
  - by rewrite Hp, decide_True.
  - intros j Hj. by rewrite Hp, decide_False.
  - done.
  - by eapply links_ok_ext; [..|exact (push_site d i free sites pc site Hh)].
Qed.

Lemma link_record_spec pc site d free sites :
  links_ok d free sites →
  match dbt_link_record pc site d with
  | (true, d') => ∃ i free', (∀ q, i ∉ sites q) ∧ site_off (pool_at d' i) = site ∧
      (∀ j, j ≠ i → pool_at d' j = pool_at d j) ∧ code_buf d' = code_buf d ∧
      links_ok d' free' (upd_sites sites pc (i :: sites pc))
  | (false, d') => d' = d ∧ free = [] ∧ link_used d = LINK_POOL_SIZE
  end.
Proof.
  intros Hok. unfold dbt_link_record. destruct (Z.eqb_spec (link_free d) LINK_NONE) as [E|E]; cbn [negb].
  - pose proof (lk_free _ _ _ Hok) as Hf. rewrite E in Hf.
    apply chain_none in Hf as ->; [|apply Hok].
    destruct (Z.ltb_spec (link_used d) LINK_POOL_SIZE) as [Hlt|Hge].
    + exists (link_used d), []. exact (finish_spec _ _ _ _ pc site _ (grow_pool _ _ _ Hok Hlt)).
    + split_and!; [done|done|]. pose proof (lk_used _ _ _ Hok). lia.
  - destruct free as [|i free]; [by pose proof (lk_free _ _ _ Hok)|].
    pose proof (lk_free _ _ _ Hok) as (Hi & _). exists i, free. rewrite Hi.
    exact (finish_spec _ _ _ _ pc site _ (pop_free _ _ _ _ Hok)).
Qed.

(** ** Walking a list *)

(** The branches of [l] lie apart from each other. *)
Definition apart (d : z80_dbt) (l : list Z) : Prop :=
  ∀ i, i ∈ l → in_buf (site_off (pool_at d i)) ∧
  ∀ j, j ∈ l → i ≠ j →
    site_off (pool_at d i) + 5 <= site_off (pool_at d j) ∨
    site_off (pool_at d j) + 5 <= site_off (pool_at d i).

(** Bytes of the code buffer that belong to no branch of [l]. *)
Definition untouched (d d' : z80_dbt) (l : list Z) : Prop :=
  ∀ x, (∀ i, i ∈ l → ¬ (site_off (pool_at d i) + 1 <= x < site_off (pool_at d i) + 5)) →
  buf_byte (code_buf d') x = buf_byte (code_buf d) x.

Lemma patch_walk_spec fuel c i d l :
  (length l < fuel)%nat → in_buf c → chain d i l → NoDup l → apart d l →
  link_used d <= LINK_POOL_SIZE →
  let d' := patch_walk fuel c i d in
  link_pool d' = link_pool d ∧ link_head d' = link_head d ∧
  link_used d' = link_used d ∧ link_free d' = link_free d ∧
  untouched d d' l ∧
  ∀ j, j ∈ l → branch_target (code_buf d') (site_off (pool_at d j)) = c.
Proof.
  revert i d l. induction fuel as [|fuel IH]; intros i d l Hf Hc Hch Hnd Hap Hu d'; [lia|].
  subst d'. cbn [patch_walk]. destruct l as [|x l].
  { cbn in Hch. subst i. rewrite Z.eqb_refl. split_and!; try done. intros j Hj. by apply not_elem_of_nil in Hj. }
  destruct Hch as (-> & Hx & Hch). destruct (Z.eqb_spec x LINK_NONE) as [E|_];
    [unfold LINK_NONE, LINK_POOL_SIZE in *; lia|].
  apply NoDup_cons in Hnd as [Hxl Hnd]. destruct (Hap x) as [Hsx Hsep]; [apply list_elem_of_here|].
  set (d1 := set_links_patched _ (dbt_arch_patch_link (site_off (pool_at d x)) (Some c) d)).
  destruct (patch_link_spec (site_off (pool_at d x)) (Some c) d Hsx Hc) as (Ht & Hb & Hpo & Hhe & Hus & Hfr).
  assert (∀ j, pool_at d1 j = pool_at d j) as Hpa by (intros j; unfold pool_at; by rewrite <- Hpo).
  destruct (IH (next (pool_at d1 x)) d1 l) as (E1 & E2 & E3 & E4 & E5 & E6); try done.
  - simpl in Hf. lia.
  - rewrite Hpa. eapply chain_ext; [| |exact Hch]; [cbn; rewrite Hus; done|]. intros. by rewrite Hpa.
  - intros j Hj. rewrite !Hpa. destruct (Hap j) as [? Hs]; [by apply list_elem_of_further|].
    split; [done|]. intros k Hk. rewrite Hpa. apply Hs. by apply list_elem_of_further.
  - cbn. by rewrite Hus.
  - split_and!; [by rewrite E1|by rewrite E2|by rewrite E3|by rewrite E4| |].
    + intros y Hy. rewrite E5.
      * apply Hb. apply Hy, list_elem_of_here.
      * intros j Hj. rewrite Hpa. by apply Hy, list_elem_of_further.
    + intros j [->|Hj]%elem_of_cons.
      * etrans; [|exact Ht]. apply branch_target_ext. intros y Hy. apply E5.
        intros k Hk. rewrite Hpa. destruct (Hsep k) as [?|?]; [by apply list_elem_of_further| |lia|lia].
        intros ->. done.
      * specialize (E6 j Hj). by rewrite (Hpa j) in E6.
Qed.

Lemma unpatch_walk_spec fuel i d l free :
  (length l < fuel)%nat → chain d i l → chain d (link_free d) free → NoDup l → apart d l →
  link_used d <= LINK_POOL_SIZE → (∀ j, j ∈ l → j ∉ free) →
  let d' := unpatch_walk fuel i d in
  (∀ j, site_off (pool_at d' j) = site_off (pool_at d j)) ∧
  (∀ j, j ∉ l → pool_at d' j = pool_at d j) ∧ link_head d' = link_head d ∧
  link_used d' = link_used d ∧ chain d' (link_free d') (rev_append l free) ∧
  untouched d d' l ∧
  ∀ j, j ∈ l → branch_target (code_buf d') (site_off (pool_at d j))
             = link_fallback (code_buf d) (site_off (pool_at d j)).
Proof.
  revert i d l free. induction fuel as [|fuel IH]; intros i d l free Hf Hch Hfr Hnd Hap Hu Hdj d'; [lia|].
  subst d'. cbn [unpatch_walk]. destruct l as [|x l].
  { cbn in Hch. subst i. rewrite Z.eqb_refl. split_and!; try done. intros j Hj. by apply not_elem_of_nil in Hj. }
  destruct Hch as (-> & Hx & Hch). destruct (Z.eqb_spec x LINK_NONE) as [E|_];
    [unfold LINK_NONE, LINK_POOL_SIZE in *; lia|].
  apply NoDup_cons in Hnd as [Hxl Hnd]. destruct (Hap x) as [Hsx Hsep]; [apply list_elem_of_here|].
  set (sx := site_off (pool_at d x)) in *.
  destruct (patch_link_spec sx None d Hsx I) as (Ht & Hb & Hpo & Hhe & Hus & Hlf).
  set (dp := dbt_arch_patch_link sx None d) in *.
  set (d1 := set_links_unpatched _ _).
  assert (∀ j, pool_at dp j = pool_at d j) as Hpp by (intros j; unfold pool_at; by rewrite Hpo).
  assert (∀ j, pool_at d1 j = if decide (x = j) then mk_link sx (link_free d) else pool_at d j) as Hpa.
  { intros j. change (pool_at (set_pool_at x (mk_link (site_off (pool_at dp x)) (link_free dp)) dp) j
      = if decide (x = j) then mk_link sx (link_free d) else pool_at d j).
    rewrite pool_at_set, !Hpp, Hlf. done. }
  assert (∀ j, site_off (pool_at d1 j) = site_off (pool_at d j)) as Hso
    by (intros j; rewrite Hpa; case_decide; by subst).
  assert (∀ k l', chain d k l' → x ∉ l' → chain d1 k l') as Hext.
  { intros k l' Hc Hni. eapply chain_ext; [| |exact Hc]; [cbn; rewrite Hus; done|].
    intros y Hy. rewrite Hpa, decide_False; [done|]. by intros ->. }
  assert (link_used d1 = link_used d) as Hud by exact Hus.
  destruct (IH (next (pool_at d x)) d1 l (x :: free)) as (E1 & E2 & E3 & E4 & E5 & E6 & E7).
  - simpl in Hf. lia.
  - by apply Hext.
  - change (x = x ∧ 0 <= x < link_used d1 ∧ chain d1 (next (pool_at d1 x)) free).
    rewrite Hud. split_and!; [done|lia|lia|].
    rewrite Hpa, decide_True by done. apply Hext; [done|]. apply Hdj, list_elem_of_here.
  - done.
  - intros j Hj. rewrite !Hso. destruct (Hap j) as [? Hs]; [by apply list_elem_of_further|].
    split; [done|]. intros k Hk. rewrite Hso. apply Hs. by apply list_elem_of_further.
  - by rewrite Hud.
  - intros j Hj. rewrite not_elem_of_cons. split; [by intros ->|]. by apply Hdj, list_elem_of_further.
  - split_and!.
    + intros j. by rewrite E1, Hso.
    + intros j [Hjx Hjl]%not_elem_of_cons. rewrite E2, Hpa, decide_False by done. done.
    + by rewrite E3.
    + by rewrite E4, Hud.
    + done.
    + intros y Hy. rewrite E6.
      * apply Hb. apply Hy, list_elem_of_here.
      * intros j Hj. rewrite Hso. by apply Hy, list_elem_of_further.
    + intros j [->|Hj]%elem_of_cons.
      * fold sx. etrans; [|exact Ht]. apply branch_target_ext. intros y Hy. apply E6.
        intros k Hk. rewrite Hso. destruct (Hsep k) as [?|?]; [by apply list_elem_of_further| |lia|lia].
        intros ->. done.
      * rewrite <- (Hso j), (E7 j Hj). apply link_fallback_ext. rewrite Hso.
        apply Hb. destruct (Hsep j) as [?|?]; [by apply list_elem_of_further| |lia|lia].
        intros ->. done.
Qed.

(** ** Repatching a target *)

Lemma apart_sites d sites pc : sites_apart d sites → apart d (sites pc).
Proof. intros H i Hi. destruct (H pc i Hi) as [Hb Hs]. split; [done|]. intros j Hj. by apply (Hs pc). Qed.

(** What repatching [pc] leaves alone: branches recorded for other targets. *)
Lemma other_branches d d' sites pc q j :
  sites_apart d sites → (∀ p p' i, i ∈ sites p → i ∈ sites p' → p = p') →
  untouched d d' (sites pc) → q ≠ pc → j ∈ sites q →
  branch_target (code_buf d') (site_off (pool_at d j)) = branch_target (code_buf d) (site_off (pool_at d j)).
Proof.
  intros Ha Hd Hu Hq Hj. apply branch_target_ext. intros x Hx. apply Hu. intros i Hi.
  destruct (Ha q j Hj) as [_ Hs]. destruct (Hs pc i Hi) as [?|?]; [|lia|lia].
  intros ->. by destruct (Hq (Hd q pc i Hj Hi)).
Qed.

Lemma repatch_some d free sites pc c :
  links_ok d free sites → sites_apart d sites → in_buf c →
  let d' := dbt_links_repatch pc (Some c) d in
  links_ok d' free sites ∧ link_pool d' = link_pool d ∧ untouched d d' (sites pc) ∧
  ∀ i, i ∈ sites pc → branch_target (code_buf d') (site_off (pool_at d i)) = c.
Proof.
  intros Hok Ha Hc d'. subst d'. unfold dbt_links_repatch.
  destruct (Z.eqb_spec (head_at d pc) LINK_NONE) as [E|_].
  - pose proof (lk_heads _ _ _ Hok pc) as Hh. rewrite E in Hh. apply chain_none in Hh; [|apply Hok].
    rewrite Hh. split_and!; try done. intros i Hi. by apply not_elem_of_nil in Hi.
  - destruct (patch_walk_spec (S (Z.to_nat (link_used d))) c (head_at d pc) d (sites pc))
      as (E1 & E2 & E3 & E4 & E5 & E6); try apply Hok; try done; [|by apply apart_sites|].
    + pose proof (chain_length _ _ _ (lk_nodup _ _ _ Hok pc) (lk_heads _ _ _ Hok pc)). lia.
    + split_and!; [by apply (links_ok_ext d)|done|done|done].
Qed.

Lemma links_ok_sites d free s s' : (∀ p, s p = s' p) → links_ok d free s → links_ok d free s'.
Proof.
  intros E [H1 H2 H3 H4 H5 H6 H7 H8]. constructor; try done; intros *; rewrite <- ?E; auto.
  - apply H6.
  - intros Hi. destruct (H8 _ Hi) as [?|[q ?]]; [by left|]. right. exists q. by rewrite <- E.
Qed.

Lemma repatch_none d free sites pc :
  links_ok d free sites → sites_apart d sites →
  let d' := dbt_links_repatch pc None d in
  links_ok d' (rev_append (sites pc) free) (upd_sites sites pc []) ∧
  (∀ i, site_off (pool_at d' i) = site_off (pool_at d i)) ∧ untouched d d' (sites pc) ∧
  ∀ i, i ∈ sites pc → branch_target (code_buf d') (site_off (pool_at d i))
                    = link_fallback (code_buf d) (site_off (pool_at d i)).
Proof.
  intros Hok Ha d'. subst d'. unfold dbt_links_repatch.
  destruct (Z.eqb_spec (head_at d pc) LINK_NONE) as [E|_].
  - pose proof (lk_heads _ _ _ Hok pc) as Hh. rewrite E in Hh. apply chain_none in Hh; [|apply Hok].
    rewrite Hh. split_and!; try done; [|intros i Hi; by apply not_elem_of_nil in Hi].
    apply (links_ok_sites _ _ sites); [|done]. intros p. unfold upd_sites. case_decide; by subst.
  - destruct Hok as [H1 H2 H3 H4 H5 H6 H7 H8].
    destruct (unpatch_walk_spec (S (Z.to_nat (link_used d))) (head_at d pc) d (sites pc) free)
      as (E1 & E2 & E3 & E4 & E5 & E6 & E7); try done; [|by apply apart_sites|lia|by intros j Hj Hj'; apply (H7 pc j)|].
    { pose proof (chain_length _ _ _ (H5 pc) (H3 pc)). lia. }
    set (d1 := unpatch_walk _ _ d) in *. split_and!; try done.
    assert (∀ x, x ∈ rev_append (sites pc) free ↔ x ∈ sites pc ∨ x ∈ free) as Hin.
    { intros x. by rewrite rev_append_rev, !list_elem_of_In, in_app_iff, <- in_rev. }
    constructor; unfold upd_sites; try done.
    + by rewrite <- E4 in H1.
    + eapply chain_ext; [| |exact E5]; done.
    + intros q. rewrite head_at_set. destruct (decide (pc = q)) as [<-|Hne].
      { by rewrite decide_True. }
      rewrite decide_False by done. unfold head_at. rewrite E3. eapply chain_ext; [| |apply H3];
        [change (link_used d <= link_used d1); lia|].
      intros x Hx. change (next (pool_at d1 x) = next (pool_at d x)). rewrite E2; [done|].
      intros Hx'. apply Hne. by apply (H6 pc q x).
    + rewrite rev_append_rev. apply NoDup_app. split_and!; [|intros x Hx Hf|done].
      * by apply NoDup_ListNoDup, NoDup_rev, NoDup_ListNoDup.
      * apply list_elem_of_In, in_rev, list_elem_of_In in Hx. by apply (H7 pc x).
    + intros q. case_decide; [constructor|done].
    + intros p q j. repeat case_decide; try (by intros ?%not_elem_of_nil);
        try (by intros _ ?%not_elem_of_nil). apply H6.
    + intros q j. rewrite Hin. case_decide as Hq; [intros _ ?%not_elem_of_nil; done|].
      intros [Hj|Hj]; [|by apply H7]. intros Hj'. apply Hq. by apply (H6 q pc j).
    + intros j Hj. rewrite Hin. change (0 <= j < link_used d1) in Hj. rewrite E4 in Hj.
      destruct (H8 j Hj) as [?|[q Hq]]; [by left; right|].
      destruct (decide (q = pc)) as [->|Hne]; [by left; left|]. right. exists q. by rewrite decide_False.
Qed.

(** ** The registry over time *)

(** What the emitter and the cache do to the registry.  A new site lies at
    the end of the code emitted so far. *)
Inductive link_step : z80_dbt → z80_dbt → Prop :=
  | ls_record d pc site :
      in_buf site → (∀ i, 0 <= i < link_used d → site_off (pool_at d i) + 5 <= site) →
      link_step d (dbt_link_record pc site d).2
  | ls_repatch d pc code :
      match code with Some c => in_buf c | None => True end →
      link_step d (dbt_links_repatch pc code d)
  | ls_wipe d : link_step d (dbt_cache_invalidate_all d).

Definition registry_ok (d : z80_dbt) : Prop :=
  ∃ free sites, links_ok d free sites ∧ sites_apart d sites.

Lemma wiped_links_ok d : links_ok (dbt_cache_invalidate_all d) [] (λ _, []).
Proof.
  constructor; try done.
  - apply NoDup_nil_2.
  - intros _. apply NoDup_nil_2.
  - intros pc pc' i Hi. by apply not_elem_of_nil in Hi.
  - intros _ i Hi. by apply not_elem_of_nil in Hi.
  - intros i Hi. change (link_used _) with 0 in Hi. lia.
Qed.

Lemma sites_apart_sub d d' sites sites' :
  (∀ i pc, i ∈ sites' pc → i ∈ sites pc ∧ site_off (pool_at d' i) = site_off (pool_at d i)) →
  sites_apart d sites → sites_apart d' sites'.
Proof.
  intros Hsub Ha pc i Hi. destruct (Hsub i pc Hi) as [Hi' ->]. destruct (Ha pc i Hi') as [Hb Hs].
  split; [done|]. intros q j Hj. destruct (Hsub j q Hj) as [Hj' ->]. by apply (Hs q).
Qed.

Lemma link_step_ok d d' : link_step d d' → registry_ok d → registry_ok d'.
Proof.
  intros Hstep (free & sites & Hok & Ha). destruct Hstep as [d pc site Hs Hfr|d pc code Hc|d].
  - pose proof (link_record_spec pc site d free sites Hok) as Hr.
    destruct (dbt_link_record pc site d) as [[] d']; cbn; [|destruct Hr as [-> _]; by exists free, sites].
    destruct Hr as (i & free' & Hi & Hso & Hpa & _ & Hok'). exists free', (upd_sites sites pc (i :: sites pc)).
    split; [done|].
    assert (∀ j q, j ∈ upd_sites sites pc (i :: sites pc) q → j = i ∨ (j ≠ i ∧ j ∈ sites q)) as Hcases.
    { intros j q. unfold upd_sites. case_decide; subst; rewrite ?elem_of_cons.
      - intros [->|Hj]; [by left|]. destruct (decide (j = i)); auto.
      - intros Hj. right. split; [intros ->; by apply (Hi q)|done]. }
    assert (∀ j q, j ∈ sites q → site_off (pool_at d j) + 5 <= site) as Hlt.
    { intros j q Hj. apply Hfr. apply (chain_range _ _ _ _ (lk_heads _ _ _ Hok q) Hj). }
    intros q j Hj. destruct (Hcases j q Hj) as [-> | [Hji Hj']].
    + rewrite Hso. split; [done|]. intros q' k Hk Hne.
      destruct (Hcases k q' Hk) as [-> | [_ Hk']]; [done|]. rewrite Hpa by done.
      pose proof (Hlt k q' Hk'). lia.
    + rewrite Hpa by done. destruct (Ha q j Hj') as [Hb Hsep]. split; [done|]. intros q' k Hk Hne.
      destruct (Hcases k q' Hk) as [-> | [Hki Hk']].
      * rewrite Hso. pose proof (Hlt j q Hj'). lia.
      * rewrite Hpa by done. by apply (Hsep q').
  - destruct code as [c|].
    + destruct (repatch_some d free sites pc c Hok Ha Hc) as (Hok' & Hp & _ & _). exists free, sites.
      split; [done|]. apply (sites_apart_sub d _ sites); [|done].
      intros i q Hi. split; [done|]. unfold pool_at. by rewrite Hp.
    + destruct (repatch_none d free sites pc Hok Ha) as (Hok' & Hp & _ & _).
      exists (rev_append (sites pc) free), (upd_sites sites pc []). split; [done|].
      apply (sites_apart_sub d _ sites); [|done]. intros i q. rewrite Hp. unfold upd_sites.
      case_decide; [by intros ?%not_elem_of_nil|done].
  - exists [], (λ _, []). split; [apply wiped_links_ok|]. intros pc i Hi. by apply not_elem_of_nil in Hi.
Qed.

(** C21: the link registry never leaks or shares a record.  After any
    sequence of recording sites, repatching targets (linking or unlinking)
    and full wipes, the records handed out so far are partitioned between
    the free list and the per-target lists, every list ends at LINK_NONE,
    and the recorded branches do not overlap. *)
Theorem registry_partition d0 d :
  rtc link_step (dbt_cache_invalidate_all d0) d →
  ∃ free sites, links_ok d free sites ∧ sites_apart d sites.
Proof.
  intros Hr. assert (registry_ok (dbt_cache_invalidate_all d0)) as H0.
  { exists [], (λ _, []). split; [apply wiped_links_ok|]. intros pc i Hi. by apply not_elem_of_nil in Hi. }
  change (registry_ok d). revert H0. induction Hr; eauto using link_step_ok.
Qed.

Definition bare_dbt : z80_dbt := mk_dbt ∅ ∅ ∅ ∅ 0 LINK_NONE ∅ 0 0 0 0 0 0 0 0.

Example registry_partition_witness :
  ∃ free sites, links_ok (dbt_links_repatch 0x100 None
    (dbt_link_record 0x100 64 (dbt_cache_invalidate_all bare_dbt)).2) free sites.
Proof.
  destruct (registry_partition bare_dbt (dbt_links_repatch 0x100 None
    (dbt_link_record 0x100 64 (dbt_cache_invalidate_all bare_dbt)).2)) as (free & sites & H & _).
  - eapply rtc_l; [apply (ls_record _ 0x100 64)|].
    + unfold in_buf, CODE_BUF_SIZE. lia.
    + intros i Hi. change (link_used _) with 0 in Hi. lia.
    + eapply rtc_l; [by apply (ls_repatch _ 0x100 None)|apply rtc_refl].
  - by exists free, sites.
Defined.

(** C22: linked branches follow the cache.  When a block is inserted for
    [pc], every recorded branch for [pc] jumps straight to its code; when
    the entry is dropped, every one of them falls back to its own probe; in
    both cases branches recorded for other targets are untouched. *)
Theorem links_follow_cache d free sites pc :
  links_ok d free sites → sites_apart d sites → is_word pc →
  (∀ c i, in_buf c → i ∈ sites pc →
     branch_target (code_buf (dbt_cache_insert pc (Some c) d)) (site_off (pool_at d i)) = c) ∧
  (∀ e i, i ∈ sites pc →
     branch_target (code_buf (drop_entry pc e d)) (site_off (pool_at d i))
     = link_fallback (code_buf d) (site_off (pool_at d i))) ∧
  (∀ c e q i, in_buf c → q ≠ pc → i ∈ sites q →
     branch_target (code_buf (dbt_cache_insert pc (Some c) d)) (site_off (pool_at d i))
     = branch_target (code_buf d) (site_off (pool_at d i)) ∧
     branch_target (code_buf (drop_entry pc e d)) (site_off (pool_at d i))
     = branch_target (code_buf d) (site_off (pool_at d i))).
Proof.
  intros Hok Ha Hpc.
  assert (∀ e, links_ok (set_cache_at (pc &' BLOCK_CACHE_MASK) e d) free sites) as Hok'
    by (intros e; by apply (links_ok_ext d)).
  split_and!.
  - intros c i Hc Hi. unfold dbt_cache_insert.
    by apply (repatch_some _ free sites pc c (Hok' _) Ha Hc).
  - intros e i Hi. by apply (repatch_none _ free sites pc (Hok' _) Ha).
  - intros c e q i Hc Hq Hi. split.
    + destruct (repatch_some _ free sites pc c (Hok' (mk_entry pc (last_block_bytes d) (Some c))) Ha Hc) as (_ & _ & Hu & _).
      exact (other_branches _ _ sites pc q i Ha (lk_disjoint _ _ _ Hok) Hu Hq Hi).
    + destruct (repatch_none _ free sites pc (Hok' (mk_entry BLOCK_EMPTY_PC (span e) None)) Ha) as (_ & _ & Hu & _).
      exact (other_branches _ _ sites pc q i Ha (lk_disjoint _ _ _ Hok) Hu Hq Hi).
Qed.

Example links_follow_cache_witness :
  let d := (dbt_link_record 0x100 64 (dbt_cache_invalidate_all bare_dbt)).2 in
  branch_target (code_buf (dbt_cache_insert 0x100 (Some 4096) d)) 64 = 4096 ∧
  branch_target (code_buf (drop_entry 0x100 (cache_at d 0x100) (dbt_cache_insert 0x100 (Some 4096) d))) 64 = 69.
Proof.
  intros d. split; [|by vm_compute].
  assert (links_ok d [] (upd_sites (λ _, []) 0x100 [0])) as Hok
    by (destruct (finish_spec _ _ _ _ 0x100 64 1
          (grow_pool _ _ _ (wiped_links_ok bare_dbt) ltac:(by vm_compute))) as (_ & _ & _ & _ & Hd); exact Hd).
  destruct (links_follow_cache d [] (upd_sites (λ _, []) 0x100 [0]) 0x100 Hok) as (H & _).
  - intros q i Hi. unfold upd_sites in Hi. case_decide; [|by apply not_elem_of_nil in Hi].
    apply list_elem_of_singleton in Hi as ->. split; [vm_compute; split; [discriminate|done]|].
    intros q' j Hj. unfold upd_sites in Hj. case_decide; [|by apply not_elem_of_nil in Hj].
    by apply list_elem_of_singleton in Hj as ->.
  - in_range.
  - apply (H 4096 0); [vm_compute; split; [discriminate|done]|]. apply list_elem_of_here.
Defined.
