(* ===== verification/JitFlags.v ===== *)
(** * JitFlags: the translator's C helpers (src/dbt/dbt_flags.c)

    The flag helpers and tables translated code uses in place of the
    interpreter's cases, and the closed forms of LDIR/LDDR and of the folded
    copy, fill and filtered-copy loops.  The helpers run on the machine with
    a translator attached, [mach (option z80_dbt)]: they write guest memory
    directly and sweep the block cache afterwards. *)

From Stdlib Require Import ZArith Lia Bool List.
From stdpp Require Import base gmap list.
From S2P Require Import Prelude Cpu Decode Interp InterpOk BlockCache.

Open Scope Z_scope.
Open Scope z80_scope.

(** ** Result-indexed tables *)

Definition daa_compute (a fin : Z) : Z * Z :=
  let fcin := fin &' FLAG_C in
  let fhin := fin &' FLAG_H in
  let fnin := fin &' FLAG_N in
  let corr := flag_if ((9 <? a &' 0x0F) || nz fhin) 0x06 in
  let high := (0x99 <? a) || nz fcin in
  let corr := if high then corr |' 0x60 else corr in
  let new_c := flag_if high FLAG_C in
  let '(new_a, new_h) :=
    if nz fnin then (u8 (a - corr), flag_if (nz fhin && (a &' 0x0F <? 6)) FLAG_H)
    else (u8 (a + corr), flag_if (9 <? a &' 0x0F) FLAG_H) in
  let f := fnin |' new_c |' new_h |' xy_from new_a in
  let f := f |' flag_if (new_a =? 0) FLAG_Z in
  let f := f |' flag_if (nz (new_a &' 0x80)) FLAG_S in
  (new_a, f |' parity8 new_a).

(** The cells [z80_flag_tables_init] fills. *)
Definition add16_cell (v : Z) : Z := u8 ((v &' (FLAG_H |' FLAG_5 |' FLAG_3)) |' (v >>' 8)).
Definition daa_cell (i : Z) : Z :=
  let '(na, nf) := daa_compute (u8 i) (u8 ((i >>' 8) &' (FLAG_C |' FLAG_N |' FLAG_H))) in
  word_of na nf.
Definition szxy_cell (r : Z) : Z :=
  xy_from r |' flag_if (r =? 0) FLAG_Z |' flag_if (nz (r &' 0x80)) FLAG_S.
Definition logic_cell (r : Z) : Z := szxy_cell r |' parity8 r.
Definition inc_cell (r : Z) : Z :=
  szxy_cell r |' flag_if (r &' 0xF =? 0x0) FLAG_H |' flag_if (r =? 0x80) FLAG_PV.
Definition dec_cell (r : Z) : Z :=
  szxy_cell r |' FLAG_N |' flag_if (r &' 0xF =? 0xF) FLAG_H |' flag_if (r =? 0x7F) FLAG_PV.

Definition FT_LOGIC : Z := 0.
Definition FT_SZXY : Z := 256.
Definition FT_INC : Z := 512.
Definition FT_DEC : Z := 768.
Definition DAA_TABLE_LEN : Z := 0x1400.
Definition ADD16_TABLE_LEN : Z := 512.

(** [z80_flag_tables_init]: the three tables as lists. *)
Definition z80_add16_table : list Z := map add16_cell (zseq 0 (Z.to_nat ADD16_TABLE_LEN)).
Definition z80_daa_table : list Z := map daa_cell (zseq 0 (Z.to_nat DAA_TABLE_LEN)).
Definition z80_f_tables : list Z :=
  map logic_cell bytes ++ map szxy_cell bytes ++ map inc_cell bytes ++ map dec_cell bytes.

Definition table_at (t : list Z) (i : Z) : Z := nth (Z.to_nat i) t 0.

(** ** 8-bit ALU helpers *)

Definition jit_set (f a : Z) (c : z80_cpu) : z80_cpu := set_rQ 1 (set_rA a (set_rF f c)).

Definition z80_jit_add (b : Z) (c : z80_cpu) : z80_cpu :=
  let a := rA c in
  let res := u8 (a + b) in
  let f := xy_from res |' flag_if (res =? 0) FLAG_Z |' flag_if (nz (res &' 0x80)) FLAG_S
    |' flag_if (0xF <? (a &' 0xF) + (b &' 0xF)) FLAG_H |' flag_if (0xFF <? a + b) FLAG_C
    |' flag_if (((a ^' b) &' 0x80 =? 0) && nz ((res ^' a) &' 0x80)) FLAG_PV in
  jit_set f res c.

Definition z80_jit_adc (b : Z) (c : z80_cpu) : z80_cpu :=
  let a := rA c in
  let c_in := rF c &' FLAG_C in
  let sum := u16 (a + b + c_in) in
  let res := u8 sum in
  let f := xy_from res |' flag_if (res =? 0) FLAG_Z |' flag_if (nz (res &' 0x80)) FLAG_S
    |' flag_if (0xF <? (a &' 0xF) + (b &' 0xF) + c_in) FLAG_H |' flag_if (0xFF <? sum) FLAG_C
    |' flag_if (((a ^' b) &' 0x80 =? 0) && nz ((res ^' a) &' 0x80)) FLAG_PV in
  jit_set f res c.

Definition z80_jit_sub (b : Z) (c : z80_cpu) : z80_cpu :=
  let a := rA c in
  let res := u8 (a - b) in
  let f := FLAG_N |' xy_from res |' flag_if (res =? 0) FLAG_Z |' flag_if (nz (res &' 0x80)) FLAG_S
    |' flag_if (a &' 0xF <? b &' 0xF) FLAG_H |' flag_if (a <? b) FLAG_C
    |' flag_if (nz ((a ^' b) &' 0x80) && nz ((res ^' a) &' 0x80)) FLAG_PV in
  jit_set f res c.

Definition z80_jit_sbc (b : Z) (c : z80_cpu) : z80_cpu :=
  let a := rA c in
  let c_in := rF c &' FLAG_C in
  let diff := a - b - c_in in
  let res := u8 diff in
  let f := FLAG_N |' xy_from res |' flag_if (res =? 0) FLAG_Z |' flag_if (nz (res &' 0x80)) FLAG_S
    |' flag_if ((a &' 0xF) - (b &' 0xF) - c_in <? 0) FLAG_H |' flag_if (diff <? 0) FLAG_C
    |' flag_if (nz ((a ^' b) &' 0x80) && nz ((res ^' a) &' 0x80)) FLAG_PV in
  jit_set f res c.

Definition z80_jit_and (b : Z) (c : z80_cpu) : z80_cpu :=
  let res := rA c &' b in
  let f := FLAG_H |' xy_from res |' parity8 res |' flag_if (res =? 0) FLAG_Z
    |' flag_if (nz (res &' 0x80)) FLAG_S in
  jit_set f res c.
Definition z80_jit_or (b : Z) (c : z80_cpu) : z80_cpu :=
  let res := rA c |' b in
  let f := xy_from res |' parity8 res |' flag_if (res =? 0) FLAG_Z
    |' flag_if (nz (res &' 0x80)) FLAG_S in
  jit_set f res c.
Definition z80_jit_xor (b : Z) (c : z80_cpu) : z80_cpu :=
  let res := rA c ^' b in
  let f := xy_from res |' parity8 res |' flag_if (res =? 0) FLAG_Z
    |' flag_if (nz (res &' 0x80)) FLAG_S in
  jit_set f res c.

Definition z80_jit_cp (b : Z) (c : z80_cpu) : z80_cpu :=
  let a := rA c in
  let res := u8 (a - b) in
  let f := FLAG_N |' xy_from b |' flag_if (res =? 0) FLAG_Z |' flag_if (nz (res &' 0x80)) FLAG_S
    |' flag_if (a &' 0xF <? b &' 0xF) FLAG_H |' flag_if (a <? b) FLAG_C
    |' flag_if (nz ((a ^' b) &' 0x80) && nz ((res ^' a) &' 0x80)) FLAG_PV in
  set_rQ 1 (set_rF f c).

Definition z80_jit_daa (c : z80_cpu) : z80_cpu :=
  let '(a, f) := daa_compute (rA c) (rF c) in set_rQ 1 (set_rF f (set_rA a c)).

(** INC/DEC r: the new value and the context. *)
Definition z80_jit_inc8 (v : Z) (c : z80_cpu) : Z * z80_cpu :=
  let res := u8 (v + 1) in
  let f := (rF c &' FLAG_C) |' xy_from res |' flag_if (res =? 0) FLAG_Z
    |' flag_if (nz (res &' 0x80)) FLAG_S |' flag_if (v &' 0xF =? 0xF) FLAG_H
    |' flag_if (v =? 0x7F) FLAG_PV in
  (res, set_rQ 1 (set_rF f c)).
Definition z80_jit_dec8 (v : Z) (c : z80_cpu) : Z * z80_cpu :=
  let res := u8 (v - 1) in
  let f := FLAG_N |' (rF c &' FLAG_C) |' xy_from res |' flag_if (res =? 0) FLAG_Z
    |' flag_if (nz (res &' 0x80)) FLAG_S |' flag_if (v &' 0xF =? 0x00) FLAG_H
    |' flag_if (v =? 0x80) FLAG_PV in
  (res, set_rQ 1 (set_rF f c)).

(** ** CB rotates, shifts and BIT *)

Definition rotshift_flags (result new_c : Z) : Z :=
  xy_from result |' parity8 result |' flag_if (nz new_c) FLAG_C |' flag_if (result =? 0) FLAG_Z
  |' flag_if (nz (result &' 0x80)) FLAG_S.
Definition rotshift (new_c res : Z) (c : z80_cpu) : Z * z80_cpu :=
  (res, set_rQ 1 (set_rF (rotshift_flags res new_c) c)).

Definition z80_jit_rlc (v : Z) (c : z80_cpu) : Z * z80_cpu :=
  let new_c := (v >>' 7) &' 1 in rotshift new_c (u8 ((v <<' 1) |' new_c)) c.
Definition z80_jit_rrc (v : Z) (c : z80_cpu) : Z * z80_cpu :=
  let new_c := v &' 1 in rotshift new_c (u8 ((v >>' 1) |' flag_if (nz new_c) 0x80)) c.
Definition z80_jit_rl (v : Z) (c : z80_cpu) : Z * z80_cpu :=
  let c_in := carry_in (rF c) in
  let new_c := (v >>' 7) &' 1 in rotshift new_c (u8 ((v <<' 1) |' c_in)) c.
Definition z80_jit_rr (v : Z) (c : z80_cpu) : Z * z80_cpu :=
  let c_in := carry_in (rF c) in
  let new_c := v &' 1 in rotshift new_c (u8 ((v >>' 1) |' flag_if (nz c_in) 0x80)) c.
Definition z80_jit_sla (v : Z) (c : z80_cpu) : Z * z80_cpu :=
  let new_c := (v >>' 7) &' 1 in rotshift new_c (u8 (v <<' 1)) c.
Definition z80_jit_sra (v : Z) (c : z80_cpu) : Z * z80_cpu :=
  let new_c := v &' 1 in rotshift new_c (u8 ((v >>' 1) |' (v &' 0x80))) c.
Definition z80_jit_sll (v : Z) (c : z80_cpu) : Z * z80_cpu :=
  let new_c := (v >>' 7) &' 1 in rotshift new_c (u8 ((v <<' 1) |' 1)) c.
Definition z80_jit_srl (v : Z) (c : z80_cpu) : Z * z80_cpu :=
  let new_c := v &' 1 in rotshift new_c (u8 (v >>' 1)) c.

Definition z80_jit_bit (v bit_n xy_byte : Z) (c : z80_cpu) : z80_cpu :=
  let mask := u8 (1 <<' (bit_n &' 7)) in
  let b := nz (v &' mask) in
  let f := (rF c &' FLAG_C) |' FLAG_H |' xy_from xy_byte |' flag_if (negb b) (FLAG_Z |' FLAG_PV)
    |' flag_if (b && (bit_n &' 7 =? 7)) FLAG_S in
  set_rQ 1 (set_rF f c).

(** ** Block transfers *)

(** [n] passes of the byte loop from index [i]: the last byte and memory. *)
Fixpoint copy_loop (n : nat) (i incr src dst last : Z) (m : memory) : Z * memory :=
  match n with
  | O => (last, m)
  | S n =>
      let v := mget m (u16 (src + incr * i)) in
      copy_loop n (i + 1) incr src dst v (mset (u16 (dst + incr * i)) v m)
  end.

(** The cache sweep at the end of [ldir_lddr_common]. *)
Definition ldir_sweep (incr de bc : Z) (d : z80_dbt) : z80_dbt :=
  if negb (existsb (λ i, code_byte d (u16 (de + incr * i))) (zseq 0 (Z.to_nat bc))) then d
  else
    let window := max_block_bytes d in
    let dst_lo := if 0 <? incr then de else u16 (de - (bc - 1)) in
    let d := fold_left (λ d k, sweep_one dst_lo window k d) (zseq 0 (Z.to_nat (bc + window))) d in
    set_smc_invalidations (u64 (smc_invalidations d + 1)) d.

Definition ldir_lddr_common (incr : Z) (s : mach (option z80_dbt)) : mach (option z80_dbt) :=
  let c := s.1 in
  let bc := rBC c in
  let hl := rHL c in
  let de := rDE c in
  let '(last, m) := copy_loop (Z.to_nat bc) 0 incr hl de 0 (mem c) in
  let c := set_mem m c in
  let c := set_HL (u16 (hl + incr * bc)) c in
  let c := set_DE (u16 (de + incr * bc)) c in
  let c := set_BC 0 c in
  let c := set_rQ 1 (set_rF (ldir_flags (rF c) (rA c) last) c) in
  (c, if bc =? 0 then s.2 else option_map (ldir_sweep incr de bc) s.2).

Definition z80_jit_ldir : mach (option z80_dbt) → mach (option z80_dbt) := ldir_lddr_common 1.
Definition z80_jit_lddr : mach (option z80_dbt) → mach (option z80_dbt) := ldir_lddr_common (-1).

(** The store is already done; writing it again runs the invalidation. *)
Definition z80_jit_post_store (addr : Z) (s : mach (option z80_dbt)) : mach (option z80_dbt) :=
  mem_w addr (mget (mem s.1) addr) s.

(** ** Folded loops *)

(** [counter_reg]: B, C, D or E. *)
Definition counter_reg (code : Z) (c : z80_cpu) : option Z :=
  match code with 0 => Some (rB c) | 1 => Some (rC c) | 2 => Some (rD c) | 3 => Some (rE c) | _ => None end.
Definition set_counter (code v : Z) (c : z80_cpu) : z80_cpu :=
  match code with 0 => set_rB v c | 1 => set_rC v c | 2 => set_rD v c | 3 => set_rE v c | _ => c end.

(** F as the last DEC leaves it (1 -> 0), [q] as the closing branch does. *)
Definition loop_epilogue (code : Z) (c : z80_cpu) : z80_cpu :=
  let c := set_counter code 0 c in
  set_rQ 0 (set_rF (u8 ((rF c &' FLAG_C) |' table_at z80_f_tables (FT_DEC + 0))) c).

Definition sweep_after (dst n : Z) (w : option z80_dbt) : option z80_dbt :=
  option_map (smc_sweep_forward dst n) w.

(** [None]: the counter code has no register (the C dereferences NULL). *)
Definition z80_jit_loop_copy (spec pc : Z) (s : mach (option z80_dbt)) : option (mach (option z80_dbt)) :=
  let c := s.1 in
  match counter_reg (spec &' 7) c with
  | None => None
  | Some cnt =>
      let n := if cnt =? 0 then 256 else cnt in
      let dir := nz ((spec >>' 8) &' 1) in
      let src := if dir then rDE c else rHL c in
      let dst := if dir then rHL c else rDE c in
      let '(last, m) := copy_loop (Z.to_nat n) 0 1 src dst (rA c) (mem c) in
      let de_last := u16 (rDE c + n - 1) in
      let c := set_mem m c in
      let c := set_HL (u16 (rHL c + n)) c in
      let c := set_DE (u16 (rDE c + n)) c in
      let c := set_rA last c in
      let c := set_insn_count (u64 (insn_count c + 6 * (n - 1))) c in
      let c := loop_epilogue (spec &' 7) c in
      let mp := if negb (nz (spec &' 0x200)) then pc
                else if dir then u16 (de_last + 1) else word_of (u8 (de_last + 1)) last in
      Some (set_memptr mp c, sweep_after dst n s.2)
  end.

(** [n] stores of [v] from [dst] up. *)
Fixpoint fill_loop (n : nat) (i dst v : Z) (m : memory) : memory :=
  match n with O => m | S n => fill_loop n (i + 1) dst v (mset (u16 (dst + i)) v m) end.

Definition z80_jit_loop_fill (spec pc : Z) (s : mach (option z80_dbt)) : option (mach (option z80_dbt)) :=
  let c := s.1 in
  match counter_reg (spec &' 7) c with
  | None => None
  | Some cnt =>
      let n := if cnt =? 0 then 256 else cnt in
      let dst := rHL c in
      let c := set_mem (fill_loop (Z.to_nat n) 0 dst (rA c) (mem c)) c in
      let c := set_HL (u16 (rHL c + n)) c in
      let c := set_insn_count (u64 (insn_count c + 4 * (n - 1))) c in
      let c := loop_epilogue (spec &' 7) c in
      let c := if negb (nz (spec &' 0x200)) || (2 <=? n) then set_memptr pc c else c in
      Some (c, sweep_after dst n s.2)
  end.

(** The three ways out of the filtered copy. *)
Inductive filter_exit : Set := EXIT_LOW | EXIT_SENTINEL | EXIT_COUNT.

Record filter_state := mk_filter {
  fs_hl : Z; fs_de : Z; fs_b : Z; fs_c : Z; fs_a : Z; fs_exec : Z; fs_mem : memory }.

(** [for (;;)]: C goes down once per pass, so 256 passes always suffice
    ([filter_loop_total]); [None] is out of fuel. *)
Fixpoint filter_loop (fuel : nat) (m lo sen : Z) (st : filter_state) : option (filter_exit * filter_state) :=
  match fuel with
  | O => None
  | S fuel =>
      let '(mk_filter hl de b c _ n mm) := st in
      let a := mget mm de &' m in
      if a <? lo then Some (EXIT_LOW, mk_filter hl de b c a (n + 4) mm)
      else if a =? sen then Some (EXIT_SENTINEL, mk_filter hl de b c a (n + 6) mm)
      else
        let st := mk_filter (u16 (hl + 1)) (u16 (de + 1)) (u8 (b + 1)) (u8 (c - 1)) a (n + 12)
                    (mset hl a mm) in
        if u8 (c - 1) =? 0 then Some (EXIT_COUNT, st) else filter_loop fuel m lo sen st
  end.

Definition z80_jit_loop_filtercopy (spec pc_head pc_exit : Z) (s : mach (option z80_dbt))
    : option (mach (option z80_dbt)) :=
  let m := u8 spec in
  let lo := u8 (spec >>' 8) in
  let sen := u8 (spec >>' 16) in
  let c := s.1 in
  let dst0 := rHL c in
  match filter_loop 256 m lo sen (mk_filter (rHL c) (rDE c) (rB c) (rC c) (rA c) 0 (mem c)) with
  | None => None
  | Some (ex, mk_filter hl de b cc a n mm) =>
      let c := set_rA a (set_rC cc (set_rB b (set_DE de (set_HL hl (set_mem mm c))))) in
      let c :=
        match ex with
        | EXIT_LOW => set_memptr pc_exit (z80_jit_cp lo c)
        | EXIT_SENTINEL => set_memptr pc_exit (z80_jit_cp sen c)
        | EXIT_COUNT =>
            set_memptr pc_head
              (set_rF (u8 (flag_if (a <? sen) FLAG_C |' table_at z80_f_tables (FT_DEC + 0))) c)
        end in
      let c := set_rQ 0 c in
      let c := set_insn_count (u64 (insn_count c + n - 12)) c in
      Some (c, sweep_after dst0 (u16 (hl - dst0)) s.2)
  end.
