(* ===== verification/JitFlagsOk.v ===== *)
(** * JitFlagsOk: the translator's helpers agree with the interpreter

    Each flag helper, table and closed-form block transfer of JitFlags is
    shown equal to the interpreter operation it stands for, on the whole
    CPU context. *)

From Stdlib Require Import ZArith Lia Bool List Btauto.
From stdpp Require Import base gmap list.
From S2P Require Import Prelude Cpu Decode Interp InterpOk BlockCache JitFlags.

Open Scope Z_scope.
Open Scope z80_scope.

(** ** ALU *)

Lemma carry_bit f : f &' FLAG_C = carry_in f.
Proof.
  unfold carry_in, FLAG_C. pose proof (Z.land_ones f 1 ltac:(lia)) as E.
  change (Z.ones 1) with 1 in E. change (2 ^ 1) with 2 in E. rewrite E.
  pose proof (Z.mod_pos_bound f 2). unfold nz. destruct (Z.eqb_spec (f mod 2) 0); simpl; lia.
Qed.

Lemma jit_set_eq f1 f2 a c : f1 = f2 → jit_set f1 a c = set_rA a (with_f f2 c).
Proof. by intros ->. Qed.

Lemma nibble_borrow x : -16 <= x <= 15 → nz (x &' 0x10) = (x <? 0).
Proof.
  intros Hx. apply eqb_prop.
  apply (forall_zseq (λ x, eqb (nz (x &' 0x10)) (x <? 0)) (-16) 32); [by vm_compute|lia].
Qed.

Lemma nibble_range a : 0 <= a &' 0xF <= 15.
Proof.
  pose proof (Z.land_ones a 4 ltac:(lia)) as E. change (Z.ones 4) with 0xF in E. rewrite E.
  pose proof (Z.mod_pos_bound a (2 ^ 4)). lia.
Qed.

Lemma jit_add_eq b c : z80_jit_add b c = alu_ADD b c.
Proof. apply jit_set_eq. unfold add_flags, sz. by rewrite !Z.lor_assoc. Qed.
Lemma jit_adc_eq b c : cpu_ok c → is_byte b → z80_jit_adc b c = alu_ADC b c.
Proof.
  intros Hc Hb. unfold z80_jit_adc, alu_ADC. rewrite carry_bit.
  assert (u16 (rA c + b + carry_in (rF c)) = rA c + b + carry_in (rF c)) as ->.
  { apply u16_id. pose proof (ok_rA _ Hc). destruct (carry_in_01 (rF c)); unfold is_word, is_byte in *; lia. }
  apply jit_set_eq. unfold adc_flags, sz. by rewrite !Z.lor_assoc.
Qed.
Lemma jit_sub_eq b c : z80_jit_sub b c = alu_SUB b c.
Proof. apply jit_set_eq. unfold sub_flags, sz. by rewrite !Z.lor_assoc. Qed.
Lemma jit_sbc_eq b c : z80_jit_sbc b c = alu_SBC b c.
Proof.
  unfold z80_jit_sbc, alu_SBC. rewrite carry_bit.
  apply jit_set_eq. unfold sbc_flags, sz.
  pose proof (nibble_range (rA c)). pose proof (nibble_range b).
  rewrite nibble_borrow by (destruct (carry_in_01 (rF c)); lia). by rewrite !Z.lor_assoc.
Qed.
Lemma jit_cp_eq b c : z80_jit_cp b c = alu_CP b c.
Proof.
  unfold z80_jit_cp, alu_CP, set_flags_cp, with_f. do 2 f_equal. unfold cp_flags, sz. by rewrite !Z.lor_assoc.
Qed.

(** The logic operations clear N and C and set or clear H afterwards. *)
Lemma logic_after r :
  is_byte r →
  ((logic_flags r &~ FLAG_N) &~ FLAG_C) |' FLAG_H
    = FLAG_H |' xy_from r |' parity8 r |' flag_if (r =? 0) FLAG_Z |' flag_if (nz (r &' 0x80)) FLAG_S ∧
  ((logic_flags r &~ FLAG_N) &~ FLAG_C) &~ FLAG_H
    = xy_from r |' parity8 r |' flag_if (r =? 0) FLAG_Z |' flag_if (nz (r &' 0x80)) FLAG_S.
Proof.
  intros Hr. set (p := λ r, (((logic_flags r &~ FLAG_N) &~ FLAG_C) |' FLAG_H =?
    FLAG_H |' xy_from r |' parity8 r |' flag_if (r =? 0) FLAG_Z |' flag_if (nz (r &' 0x80)) FLAG_S)
    && (((logic_flags r &~ FLAG_N) &~ FLAG_C) &~ FLAG_H =?
    xy_from r |' parity8 r |' flag_if (r =? 0) FLAG_Z |' flag_if (nz (r &' 0x80)) FLAG_S)).
  pose proof (forall_bytes p ltac:(by vm_compute) r Hr) as H. apply andb_prop in H as [H1 H2].
  split; by apply Z.eqb_eq.
Qed.

Lemma jit_and_eq b c : cpu_ok c → is_byte b → z80_jit_and b c = alu_AND b c.
Proof.
  intros Hc Hb. unfold alu_AND. cbn [rA rF set_flags_logic with_f set_rF set_rQ set_rA].
  rewrite (proj1 (logic_after (rA c &' b) ltac:(in_range))). done.
Qed.
Lemma jit_or_eq b c : cpu_ok c → is_byte b → z80_jit_or b c = alu_OR b c.
Proof.
  intros Hc Hb. unfold alu_OR. cbn [rA rF set_flags_logic with_f set_rF set_rQ set_rA].
  rewrite (proj2 (logic_after (rA c |' b) ltac:(in_range))). done.
Qed.
Lemma jit_xor_eq b c : cpu_ok c → is_byte b → z80_jit_xor b c = alu_XOR b c.
Proof.
  intros Hc Hb. unfold alu_XOR. cbn [rA rF set_flags_logic with_f set_rF set_rQ set_rA].
  rewrite (proj2 (logic_after (rA c ^' b) ltac:(in_range))). done.
Qed.

Lemma daa_compute_eq a f : daa_compute a f = daa a f.
Proof.
  unfold daa_compute, daa. destruct (nz (f &' FLAG_N)) eqn:Hn; cbn zeta beta iota.
  - set (hi := (0x99 <? a) || nz (f &' FLAG_C)). set (lo := (9 <? a &' 0x0F) || nz (f &' FLAG_H)).
    assert ((if hi then flag_if lo 6 |' 96 else flag_if lo 6) = flag_if lo 6 |' flag_if hi 96) as ->
      by (destruct hi; simpl; by rewrite ?Z.lor_0_r).
    f_equal. unfold sz. by rewrite !Z.lor_assoc.
  - set (hi := (0x99 <? a) || nz (f &' FLAG_C)). set (lo := (9 <? a &' 0x0F) || nz (f &' FLAG_H)).
    assert ((if hi then flag_if lo 6 |' 96 else flag_if lo 6) = flag_if lo 6 |' flag_if hi 96) as ->
      by (destruct hi; simpl; by rewrite ?Z.lor_0_r).
    f_equal. unfold sz. by rewrite !Z.lor_assoc.
Qed.
Lemma jit_daa_eq c : z80_jit_daa c = op_DAA c.
Proof. unfold z80_jit_daa, op_DAA. rewrite daa_compute_eq. by destruct (daa _ _). Qed.

(** C18: the ALU helpers of the translator are the interpreter's operations:
    on every well-formed context and operand byte they produce the same
    context, registers, flags and the Q flip-flop included. *)
Theorem jit_alu_equiv c b :
  cpu_ok c → is_byte b →
  z80_jit_add b c = alu_ADD b c ∧ z80_jit_adc b c = alu_ADC b c ∧
  z80_jit_sub b c = alu_SUB b c ∧ z80_jit_sbc b c = alu_SBC b c ∧
  z80_jit_and b c = alu_AND b c ∧ z80_jit_or b c = alu_OR b c ∧
  z80_jit_xor b c = alu_XOR b c ∧ z80_jit_cp b c = alu_CP b c ∧ z80_jit_daa c = op_DAA c.
Proof.
  intros Hc Hb. split_and!; [apply jit_add_eq|by apply jit_adc_eq|apply jit_sub_eq|apply jit_sbc_eq|
    by apply jit_and_eq|by apply jit_or_eq|by apply jit_xor_eq|apply jit_cp_eq|apply jit_daa_eq].
Qed.

Example jit_alu_equiv_witness :
  z80_jit_sbc 0x80 (set_rF 0x01 (set_rA 0x7F z80_cpu_init)) =
  alu_SBC 0x80 (set_rF 0x01 (set_rA 0x7F z80_cpu_init)).
Proof.
  apply jit_alu_equiv; [|in_range].
  apply ok_set_rF; [apply ok_set_rA; [apply z80_cpu_init_ok|]|]; in_range.
Defined.

(** ** INC, DEC and the CB page *)

Lemma inc_dec_conditions v :
  is_byte v →
  (v &' 0xF =? 0xF) = (u8 (v + 1) &' 0xF =? 0) ∧ (v =? 0x7F) = (u8 (v + 1) =? 0x80) ∧
  (v &' 0xF =? 0x0) = (u8 (v - 1) &' 0xF =? 0xF) ∧ (v =? 0x80) = (u8 (v - 1) =? 0x7F).
Proof.
  intros Hv.
  set (p := λ v, eqb (v &' 0xF =? 0xF) (u8 (v + 1) &' 0xF =? 0) && eqb (v =? 0x7F) (u8 (v + 1) =? 0x80)
    && eqb (v &' 0xF =? 0x0) (u8 (v - 1) &' 0xF =? 0xF) && eqb (v =? 0x80) (u8 (v - 1) =? 0x7F)).
  pose proof (forall_bytes p ltac:(by vm_compute) v Hv) as H. subst p. cbn beta in H.
  apply andb_prop in H as [H H4]. apply andb_prop in H as [H H3]. apply andb_prop in H as [H1 H2].
  split_and!; by apply eqb_prop.
Qed.

Lemma jit_inc8_eq v c :
  is_byte v → z80_jit_inc8 v c = (u8 (v + 1), with_f (inc_flags (rF c) (u8 (v + 1))) c).
Proof.
  intros Hv. destruct (inc_dec_conditions v Hv) as (H1 & H2 & _). unfold z80_jit_inc8, with_f, inc_flags, sz.
  rewrite H1, H2. by rewrite !Z.lor_assoc.
Qed.
Lemma jit_dec8_eq v c :
  is_byte v → z80_jit_dec8 v c = (u8 (v - 1), with_f (dec_flags (rF c) (u8 (v - 1))) c).
Proof.
  intros Hv. destruct (inc_dec_conditions v Hv) as (_ & _ & H1 & H2). unfold z80_jit_dec8, with_f, dec_flags, sz.
  rewrite H1, H2, !Z.lor_assoc, (Z.lor_comm FLAG_N). done.
Qed.

(** The helper the backends call for shift group [g]. *)
Definition jit_shift (g : Z) : Z → z80_cpu → Z * z80_cpu :=
  match g with
  | 0 => z80_jit_rlc | 1 => z80_jit_rrc | 2 => z80_jit_rl | 3 => z80_jit_rr
  | 4 => z80_jit_sla | 5 => z80_jit_sra | 6 => z80_jit_sll | _ => z80_jit_srl
  end.

Definition shift_agrees (g v : Z) (k : bool) : bool :=
  let '(new_c, r) := cb_shift g v k in
  let c := set_rF (if k then 1 else 0) (zero_cpu ∅) in
  let '(r', c') := jit_shift g v c in
  (r =? r') && (rF c' =? cb_shift_flags new_c r).

Lemma jit_shift_shape g v c :
  jit_shift g v c = ((jit_shift g v (set_rF (carry_in (rF c)) (zero_cpu ∅))).1,
                     with_f (rF (jit_shift g v (set_rF (carry_in (rF c)) (zero_cpu ∅))).2) c).
Proof.
  assert (carry_in (carry_in (rF c)) = carry_in (rF c)) as E
    by (destruct (carry_in_01 (rF c)) as [-> | ->]; done).
  unfold jit_shift. repeat case_match; try done.
  all: unfold z80_jit_rl, z80_jit_rr; cbn [rF set_rF]; by rewrite E.
Qed.

Lemma jit_shift_eq g v c :
  0 <= g < 8 → is_byte v →
  jit_shift g v c = ((cb_shift g v (nz (rF c &' FLAG_C))).2,
    with_f (cb_shift_flags (cb_shift g v (nz (rF c &' FLAG_C))).1 (cb_shift g v (nz (rF c &' FLAG_C))).2) c).
Proof.
  intros Hg Hv. rewrite jit_shift_shape. unfold carry_in. set (k := nz (rF c &' FLAG_C)).
  assert (shift_agrees g v k = true) as H.
  { refine (forall_zseq (λ g, shift_agrees g v k) 0 8 _ g ltac:(lia)).
    refine (forall_bytes (λ v, forallb (λ g, shift_agrees g v k) (zseq 0 8)) _ v Hv).
    destruct k; by vm_compute. }
  unfold shift_agrees in H. destruct (cb_shift g v k) as [nc r].
  destruct (jit_shift g v _) as [r' c']. apply andb_prop in H as [->%Z.eqb_eq Hf%Z.eqb_eq].
  cbn [fst snd]. by rewrite Hf.
Qed.

Lemma jit_bit_eq v n xy c :
  is_byte v → 0 <= n < 8 → z80_jit_bit v n xy c = with_f (cb_bit_flags (rF c) v n xy) c.
Proof.
  intros Hv Hn. unfold z80_jit_bit, with_f, cb_bit_flags. do 2 f_equal.
  assert (n &' 7 = n) as -> by (change 7 with (Z.ones 3); rewrite Z.land_ones, Z.mod_small by lia; done).
  assert (u8 (1 <<' n) = 1 <<' n) as ->.
  { apply Z.eqb_eq. refine (forall_zseq (λ n, u8 (1 <<' n) =? 1 <<' n) 0 8 _ n ltac:(lia)). by vm_compute. }
  apply Z.bits_inj'. intros i _. rewrite !Z.lor_spec. btauto.
Qed.

(** The INC/DEC helpers and the rotate, shift and BIT helpers agree
    with the interpreter: same result byte and, on the context, exactly the
    flags and Q the interpreter's case leaves. *)
Theorem jit_unary_equiv c v g xy :
  cpu_ok c → is_byte v → 0 <= g < 8 →
  z80_jit_inc8 v c = (u8 (v + 1), with_f (inc_flags (rF c) (u8 (v + 1))) c) ∧
  z80_jit_dec8 v c = (u8 (v - 1), with_f (dec_flags (rF c) (u8 (v - 1))) c) ∧
  (let '(new_c, r) := cb_shift g v (nz (rF c &' FLAG_C)) in
   jit_shift g v c = (r, with_f (cb_shift_flags new_c r) c)) ∧
  z80_jit_bit v g xy c = with_f (cb_bit_flags (rF c) v g xy) c.
Proof.
  intros Hc Hv Hg. split_and!; [by apply jit_inc8_eq|by apply jit_dec8_eq| |by apply jit_bit_eq].
  pose proof (jit_shift_eq g v c Hg Hv) as E. by destruct (cb_shift g v _).
Qed.

Example jit_unary_equiv_witness :
  z80_jit_rl 0x80 (set_rF 0x01 z80_cpu_init) = (0x01, with_f 0x01 (set_rF 0x01 z80_cpu_init)).
Proof.
  destruct (jit_unary_equiv (set_rF 0x01 z80_cpu_init) 0x80 2 0) as (_ & _ & H & _);
    [apply ok_set_rF; [apply z80_cpu_init_ok|in_range]|in_range|lia|exact H].
Defined.

(** ** Tables *)

Lemma table_at_map f n i :
  0 <= i < Z.of_nat n → table_at (map f (zseq 0 n)) i = f i.
Proof.
  intros Hi. unfold table_at. rewrite (nth_indep _ 0 (f 0)) by (rewrite length_map, length_zseq; lia).
  rewrite map_nth, nth_zseq by lia. f_equal. lia.
Qed.

Lemma nz_land_pow2 x n : 0 <= n → nz (x &' 2 ^ n) = Z.testbit x n.
Proof.
  intros Hn. unfold nz. destruct (Z.testbit x n) eqn:E.
  - destruct (Z.eqb_spec (x &' 2 ^ n) 0) as [H0|]; [|done].
    assert (Z.testbit (x &' 2 ^ n) n = true) as Hb by (rewrite Z.land_spec, E, Z.pow2_bits_true by done; done).
    by rewrite H0, Z.bits_0 in Hb.
  - assert (x &' 2 ^ n = 0) as ->; [|done]. apply Z.bits_inj'. intros i Hi.
    rewrite Z.land_spec, Z.pow2_bits_eqb, Z.bits_0 by done. destruct (Z.eqb_spec n i) as [<-|]; [by rewrite E|].
    apply andb_false_r.
Qed.

Lemma testbit_div x n : 0 <= n → Z.testbit x n = Z.odd (x / 2 ^ n).
Proof. intros Hn. rewrite Z.testbit_odd, Z.shiftr_div_pow2 by done. done. Qed.

(** Carry recovery: bit 12 of the sum, xored with the operands' bits 12, is
    the carry out of the low 12 bits. *)
Lemma half_carry12 a b :
  nz (((a &' 0x0FFF) + (b &' 0x0FFF)) &' 0x1000)
  = xorb (Z.testbit (a + b) 12) (xorb (Z.testbit a 12) (Z.testbit b 12)).
Proof.
  change 0x1000 with (2 ^ 12). rewrite nz_land_pow2 by lia.
  pose proof (Z.land_ones a 12 ltac:(lia)) as Ea. pose proof (Z.land_ones b 12 ltac:(lia)) as Eb.
  change (Z.ones 12) with 0x0FFF in Ea, Eb. rewrite Ea, Eb, !testbit_div by lia.
  change (2 ^ 12) with 4096.
  assert ((a + b) / 4096 = a / 4096 + b / 4096 + (a mod 4096 + b mod 4096) / 4096) as ->.
  { pose proof (Z.div_mod a 4096 ltac:(lia)). pose proof (Z.div_mod b 4096 ltac:(lia)).
    replace (a + b) with (a mod 4096 + b mod 4096 + (a / 4096 + b / 4096) * 4096) by lia.
    rewrite Z.div_add by lia. lia. }
  rewrite !Z.odd_add. generalize (Z.odd (a / 4096)) (Z.odd (b / 4096)) (Z.odd ((a mod 4096 + b mod 4096) / 4096)).
  by intros [] [] [].
Qed.

(** [add16_flags] in terms of the sum's upper nine bits [t] and of whether
    the operands differ in bit 12. *)
Definition add16_of (f t : Z) (x : bool) : Z :=
  let f := f &' (FLAG_S |' FLAG_Z |' FLAG_PV) in
  let f := f |' flag_if (Z.testbit t 8) FLAG_C in
  let f := f |' flag_if (xorb (Z.testbit t 4) x) FLAG_H in
  let f := (f &~ FLAG_N) &~ (FLAG_5 |' FLAG_3) in
  f |' xy_from (u8 t).

Lemma add16_flags_of f a b :
  add16_flags f a b = add16_of f ((a + b) >>' 8) (xorb (Z.testbit a 12) (Z.testbit b 12)).
Proof.
  unfold add16_flags, add16_of. rewrite half_carry12.
  change 0x10000 with (2 ^ 16). rewrite nz_land_pow2 by lia. rewrite !Z.shiftr_spec by lia.
  change (8 + 8) with 16. change (4 + 8) with 12.
  assert (u16 (a + b) >>' 8 = u8 ((a + b) >>' 8)) as ->; [|done].
  unfold u16, u8. rewrite !Z.shiftr_div_pow2 by lia. change (2 ^ 8) with 256.
  Z.div_mod_to_equations. lia.
Qed.

Lemma add16_cells f t x :
  is_byte f → 0 <= t < 512 →
  add16_of f t x = (f &' (FLAG_S |' FLAG_Z |' FLAG_PV)) |' add16_cell (t ^' flag_if x 0x10).
Proof.
  intros Hf Ht. apply Z.eqb_eq.
  set (p := λ f t, add16_of f t x =? (f &' (FLAG_S |' FLAG_Z |' FLAG_PV)) |' add16_cell (t ^' flag_if x 0x10)).
  change (p f t = true). refine (forall_zseq (p f) 0 512 _ t ltac:(lia)).
  refine (forall_bytes (λ f, forallb (p f) (zseq 0 512)) _ f Hf). subst p. destruct x; by vm_compute.
Qed.

Lemma add16_index a b :
  ((a + b) ^' ((a ^' b) &' 0x1000)) >>' 8
  = ((a + b) >>' 8) ^' flag_if (xorb (Z.testbit a 12) (Z.testbit b 12)) 0x10.
Proof.
  rewrite Z.shiftr_lxor. f_equal. rewrite <- Z.lxor_spec. change 0x1000 with (2 ^ 12).
  apply Z.bits_inj'. intros i Hi. rewrite Z.shiftr_spec, Z.land_spec, Z.pow2_bits_eqb by lia.
  destruct (Z.eqb_spec 12 (i + 8)) as [E|E].
  - assert (i = 4) as -> by lia. change (4 + 8) with 12. rewrite andb_true_r. destruct (Z.testbit _ 12); reflexivity.
  - rewrite andb_false_r. unfold flag_if. case_match; [|by rewrite Z.bits_0].
    change 16 with (2 ^ 4). rewrite Z.pow2_bits_eqb by lia. destruct (Z.eqb_spec 4 i); lia || done.
Qed.

Lemma daa_cells a f :
  is_byte a → is_byte f →
  daa_cell (((f &' (FLAG_C |' FLAG_N |' FLAG_H)) <<' 8) |' a) = word_of (daa a f).1 (daa a f).2.
Proof.
  intros Ha Hf. apply Z.eqb_eq. revert a f Ha Hf.
  refine (forall_bytes2 (λ a f, daa_cell _ =? word_of (daa a f).1 (daa a f).2) _). by vm_compute.
Qed.

Lemma daa_index_range a f :
  is_byte a → is_byte f → 0 <= ((f &' (FLAG_C |' FLAG_N |' FLAG_H)) <<' 8) |' a < DAA_TABLE_LEN.
Proof.
  intros Ha Hf.
  assert ((0 <=? ((f &' (FLAG_C |' FLAG_N |' FLAG_H)) <<' 8) |' a)
    && (((f &' (FLAG_C |' FLAG_N |' FLAG_H)) <<' 8) |' a <? DAA_TABLE_LEN) = true) as H; [|lia].
  revert a f Ha Hf. refine (forall_bytes2 (λ a f, (0 <=? ((f &' _) <<' 8) |' a) && (((f &' _) <<' 8) |' a <? _)) _).
  by vm_compute.
Qed.

Lemma f_table_cells r :
  is_byte r →
  table_at z80_f_tables (FT_LOGIC + r) = logic_flags r ∧
  table_at z80_f_tables (FT_SZXY + r) = xy_from r |' sz r ∧
  (∀ f, inc_flags f r = (f &' FLAG_C) |' table_at z80_f_tables (FT_INC + r)) ∧
  (∀ f, dec_flags f r = (f &' FLAG_C) |' table_at z80_f_tables (FT_DEC + r)).
Proof.
  intros Hr.
  set (p := λ r, (table_at z80_f_tables (FT_LOGIC + r) =? logic_flags r)
    && (table_at z80_f_tables (FT_SZXY + r) =? xy_from r |' sz r)
    && (table_at z80_f_tables (FT_INC + r) =? inc_flags 0 r)
    && (table_at z80_f_tables (FT_DEC + r) =? dec_flags 0 r)).
  pose proof (forall_bytes p ltac:(by vm_compute) r Hr) as H.
  apply andb_prop in H as [H H4%Z.eqb_eq]. apply andb_prop in H as [H H3%Z.eqb_eq].
  apply andb_prop in H as [H1%Z.eqb_eq H2%Z.eqb_eq]. split_and!; [done|done| |]; intros f.
  - rewrite H3. unfold inc_flags. rewrite Z.land_0_l, Z.lor_0_l, !Z.lor_assoc. done.
  - rewrite H4. unfold dec_flags. rewrite Z.land_0_l, Z.lor_0_l, !Z.lor_assoc. done.
Qed.

Lemma daa_table_at a f : is_byte a → is_byte f →
  table_at z80_daa_table (((f &' (FLAG_C |' FLAG_N |' FLAG_H)) <<' 8) |' a) = word_of (daa a f).1 (daa a f).2.
Proof.
  intros Ha Hf. unfold z80_daa_table. rewrite table_at_map; [by apply daa_cells|].
  rewrite Z2Nat.id by done. by apply daa_index_range.
Qed.
Lemma add16_index_range dst src : is_word dst → is_word src →
  0 <= ((dst + src) ^' ((dst ^' src) &' 0x1000)) >>' 8 < ADD16_TABLE_LEN.
Proof.
  intros Hd Hs. assert (0 <= (dst + src) >>' 8 < 512) as Ht.
  { rewrite Z.shiftr_div_pow2 by lia. unfold is_word in *. change (2 ^ 8) with 256.
    split; [apply Z.div_pos; lia|apply Z.div_lt_upper_bound; lia]. }
  rewrite add16_index by done. change ADD16_TABLE_LEN with (2 ^ 9).
  apply (lxor_bounded 9); [lia|done|]. destruct (xorb _ _); simpl; lia.
Qed.
Lemma add16_table_at f dst src : is_byte f → is_word dst → is_word src →
  add16_flags f dst src = (f &' (FLAG_S |' FLAG_Z |' FLAG_PV))
    |' table_at z80_add16_table (((dst + src) ^' ((dst ^' src) &' 0x1000)) >>' 8).
Proof.
  intros Hf Hd Hs. pose proof (add16_index_range dst src Hd Hs) as Hi.
  assert (0 <= (dst + src) >>' 8 < 512) as Ht.
  { rewrite Z.shiftr_div_pow2 by lia. unfold is_word in *. change (2 ^ 8) with 256.
    split; [apply Z.div_pos; lia|apply Z.div_lt_upper_bound; lia]. }
  rewrite add16_index in Hi. rewrite add16_index, add16_flags_of, add16_cells by done. f_equal.
  unfold z80_add16_table. by rewrite table_at_map.
Qed.

(** C19: the lookup tables translated code indexes hold what the interpreter
    computes.  The four result-indexed rows give the flags of the logic
    operations, the S/Z/XY skeleton, and INC and DEC apart from the kept
    carry; the DAA table entry for A and F packs the new A and F; and the
    9-bit carry-recovery index into the ADD16 table gives the H, XY and C of
    ADD HL,rr for all 2^32 operand pairs. *)
Theorem flag_tables_correct f a r dst src :
  is_byte f → is_byte a → is_byte r → is_word dst → is_word src →
  (table_at z80_f_tables (FT_LOGIC + r) = logic_flags r ∧
   table_at z80_f_tables (FT_SZXY + r) = xy_from r |' sz r ∧
   inc_flags f r = (f &' FLAG_C) |' table_at z80_f_tables (FT_INC + r) ∧
   dec_flags f r = (f &' FLAG_C) |' table_at z80_f_tables (FT_DEC + r)) ∧
  table_at z80_daa_table (((f &' (FLAG_C |' FLAG_N |' FLAG_H)) <<' 8) |' a)
    = word_of (daa a f).1 (daa a f).2 ∧
  add16_flags f dst src = (f &' (FLAG_S |' FLAG_Z |' FLAG_PV))
    |' table_at z80_add16_table (((dst + src) ^' ((dst ^' src) &' 0x1000)) >>' 8).
Proof.
  intros Hf Ha Hr Hd Hs. split_and!.
  - apply f_table_cells. done.
  - apply f_table_cells. done.
  - by apply f_table_cells.
  - by apply f_table_cells.
  - by apply daa_table_at.
  - by apply add16_table_at.
Qed.

Example flag_tables_correct_witness :
  add16_flags 0xFF 0x0FFF 0xF001 = 0xC4 |' table_at z80_add16_table (0x110) ∧
  table_at z80_daa_table 0x009A = word_of 0x00 0x55.
Proof.
  destruct (flag_tables_correct 0xFF 0x9A 0 0x0FFF 0xF001) as (_ & _ & H); [in_range..|].
  destruct (flag_tables_correct 0x00 0x9A 0 0 0) as (_ & H2 & _); [in_range..|].
  split; [exact H|exact H2].
Defined.

(** ** LDIR and LDDR *)

Lemma set_HL_id c : cpu_ok c → set_HL (rHL c) c = c.
Proof.
  intros []. unfold set_HL, rHL. by rewrite word_of_lo, word_of_hi by done.
Qed.
Lemma set_DE_id c : cpu_ok c → set_DE (rDE c) c = c.
Proof.
  intros []. unfold set_DE, rDE. by rewrite word_of_lo, word_of_hi by done.
Qed.
Lemma set_BC_id c : cpu_ok c → set_BC (rBC c) c = c.
Proof.
  intros []. unfold set_BC, rBC. by rewrite word_of_lo, word_of_hi by done.
Qed.

(** The interpreter's loop in terms of the helper's byte loop. *)
Lemma ld_loop_copy_loop `{HostOk W} n i incr src dst last (s : mach W) :
  cpu_ok s.1 → Z.of_nat n <= rBC s.1 →
  rHL s.1 = u16 (src + incr * i) → rDE s.1 = u16 (dst + incr * i) →
  (ld_loop n incr last s).1 = (copy_loop n i incr src dst last (mem s.1)).1 ∧
  (ld_loop n incr last s).2.1 =
    set_BC (u16 (rBC s.1 - Z.of_nat n)) (set_DE (u16 (dst + incr * (i + Z.of_nat n)))
      (set_HL (u16 (src + incr * (i + Z.of_nat n)))
        (set_mem (copy_loop n i incr src dst last (mem s.1)).2 s.1))).
Proof.
  revert i last s. induction n as [|n IH]; intros i last s Hs Hn HHL HDE.
  - cbn [ld_loop copy_loop fst snd]. split; [done|].
    rewrite Z.sub_0_r, Z.add_0_r, <- HHL, <- HDE, (u16_id (rBC s.1)) by in_range.
    change (set_mem (mem s.1) s.1) with s.1. by rewrite set_HL_id, set_DE_id, set_BC_id.
  - cbn [ld_loop copy_loop]. destruct (Z.eqb_spec (rBC s.1) 0) as [E|_]; [lia|].
    pose proof (ok_ld_one s Hs incr) as Hs1.
    assert ((ld_one incr s).1 = mget (mem s.1) (u16 (src + incr * i))) as Hv by (by rewrite <- HHL).
    assert ((ld_one incr s).2.1 = set_BC (u16 (rBC s.1 - 1)) (set_DE (u16 (rDE s.1 + incr))
      (set_HL (u16 (rHL s.1 + incr))
        (set_mem (mset (u16 (dst + incr * i)) (mget (mem s.1) (u16 (src + incr * i))) (mem s.1)) s.1)))) as Hc.
    { unfold ld_one, mem_w, on_cpu. cbn [fst snd]. rewrite (u16_id (rDE s.1)) by in_range.
      by rewrite <- HHL, <- HDE. }
    destruct (ld_one incr s) as [v s1]. cbn [fst snd] in *. subst v.
    pose proof (ok_rBC _ Hs) as Hbc. unfold is_word in Hbc.
    assert (u16 (rBC s.1 - 1) = rBC s.1 - 1) as Hb1 by (apply u16_id; unfold is_word; lia).
    assert (rBC s1.1 = rBC s.1 - 1) as HB1.
    { rewrite Hc, rBC_set_BC by in_range. done. }
    destruct (IH (i + 1) (mget (mem s.1) (u16 (src + incr * i))) s1 Hs1) as [E1 E2].
    + lia.
    + rewrite Hc. change (rHL (set_HL (u16 (rHL s.1 + incr)) s.1) = u16 (src + incr * (i + 1))).
      rewrite rHL_set_HL, HHL, u16_add_l by in_range. f_equal. lia.
    + rewrite Hc. change (rDE (set_DE (u16 (rDE s.1 + incr)) s.1) = u16 (dst + incr * (i + 1))).
      rewrite rDE_set_DE, HDE, u16_add_l by in_range. f_equal. lia.
    + assert (mem s1.1 = mset (u16 (dst + incr * i)) (mget (mem s.1) (u16 (src + incr * i))) (mem s.1)) as Hm
        by (by rewrite Hc).
      rewrite Hm in E1, E2. split; [exact E1|]. rewrite E2, HB1, Hc.
      replace (rBC s.1 - 1 - Z.of_nat n) with (rBC s.1 - Z.of_nat (S n)) by lia.
      replace (i + 1 + Z.of_nat n) with (i + Z.of_nat (S n)) by lia. done.
Qed.

Definition ld_type (incr : Z) : z80_op_type := if incr =? 1 then Z80_OP_LDIR else Z80_OP_LDDR.

Lemma jit_ldir_eq incr s :
  (incr = 1 ∨ incr = -1) → cpu_ok s.1 →
  (ldir_lddr_common incr s).1 = (op_LDIR_LDDR (ld_type incr) s).1.
Proof.
  intros Hi Hs. pose proof (ok_rBC _ Hs) as Hbc. unfold is_word in Hbc.
  unfold ldir_lddr_common, op_LDIR_LDDR.
  assert (match ld_type incr with Z80_OP_LDIR => 1 | _ => -1 end = incr) as -> by (destruct Hi as [-> | ->]; done).
  destruct (ld_loop_copy_loop (Z.to_nat (rBC s.1)) 0 incr (rHL s.1) (rDE s.1) 0 s Hs) as [E1 E2];
    [lia|by rewrite Z.mul_0_r, Z.add_0_r, u16_id by in_range..|].
  destruct (ld_loop _ incr 0 s) as [v s2]. destruct (copy_loop _ 0 incr _ _ 0 (mem s.1)) as [l m].
  cbn [fst snd] in *. subst v. unfold on_cpu. cbn [fst]. rewrite E2.
  rewrite Z2Nat.id, Z.sub_diag, Z.add_0_l by lia. done.
Qed.

Lemma ldir_sweep_spec_on P incr de bc d :
  (incr = 1 ∨ incr = -1) → smc_ok_on P d → 0 <= bc →
  shrinks d (ldir_sweep incr de bc d) ∧
  ∀ pc i, is_word pc → live (ldir_sweep incr de bc d) pc → P pc (cache_at (ldir_sweep incr de bc d) pc) → 0 <= i < bc →
    ¬ covers (ldir_sweep incr de bc d) pc (u16 (de + incr * i)).
Proof.
  intros Hi Hok Hbc. unfold ldir_sweep. destruct (existsb _ _) eqn:Hany; cbn [negb]; cycle 1.
  { split; [reflexivity|]. intros pc i Hpc Hl HP Hr. apply (unmarked_uncovered_on P); [done..|].
    apply (existsb_zseq_false _ _ i Hany). lia. }
  set (lo := if 0 <? incr then de else u16 (de - (bc - 1))).
  destruct (sweep_fold_spec_on P lo bc d Hok Hbc) as [Hsh Hnc].
  split; [exact Hsh|].
  intros pc i Hpc Hl HP Hr. destruct Hi as [-> | ->].
  - replace (de + 1 * i) with (lo + i) by (subst lo; simpl; lia). by apply Hnc.
  - assert (u16 (de + -1 * i) = u16 (lo + (bc - 1 - i))) as ->.
    { subst lo. simpl. rewrite u16_add_l. f_equal. lia. }
    apply Hnc; [done|done|done|lia].
Qed.

Lemma ldir_sweep_spec incr de bc d :
  (incr = 1 ∨ incr = -1) → smc_ok d → 0 <= bc →
  shrinks d (ldir_sweep incr de bc d) ∧
  ∀ pc i, is_word pc → live (ldir_sweep incr de bc d) pc → 0 <= i < bc →
    ¬ covers (ldir_sweep incr de bc d) pc (u16 (de + incr * i)).
Proof.
  rewrite smc_ok_every. intros Hi Hok Hbc. destruct (ldir_sweep_spec_on every incr de bc d Hi Hok Hbc) as [Hs Hn].
  split; [done|]. intros pc i Hpc Hl. by apply Hn.
Qed.

(** C20: the translated LDIR and LDDR are the interpreter's: the helper's
    indexed copy and single register update leave exactly the context (all
    registers, memory, F, Q) the interpreter's byte-by-byte loop leaves, and
    after its one sweep, where every live block's bytes are marked
    ([smc_ok]), no live block covers a byte it wrote. *)
Theorem jit_ldir_equiv incr s :
  (incr = 1 ∨ incr = -1) → cpu_ok s.1 →
  (ldir_lddr_common incr s).1 = (op_LDIR_LDDR (ld_type incr) s).1 ∧
  ∀ d, s.2 = Some d → smc_ok d → rBC s.1 ≠ 0 →
    ∃ d', (ldir_lddr_common incr s).2 = Some d' ∧ smc_ok d' ∧
    ∀ pc i, is_word pc → live d' pc → 0 <= i < rBC s.1 →
      ¬ covers d' pc (u16 (rDE s.1 + incr * i)).
Proof.
  intros Hi Hs. split; [by apply jit_ldir_eq|]. intros d Hd Hok Hbc.
  exists (ldir_sweep incr (rDE s.1) (rBC s.1) d).
  pose proof (ok_rBC _ Hs) as Hw. unfold is_word in Hw.
  destruct (ldir_sweep_spec incr (rDE s.1) (rBC s.1) d Hi Hok ltac:(lia)) as [H1 H2].
  split; [|split; [by apply (shrinks_ok d)|done]]. unfold ldir_lddr_common. destruct (copy_loop _ _ _ _ _ _ _). cbn [snd].
  destruct (Z.eqb_spec (rBC s.1) 0); [done|]. by rewrite Hd.
Qed.

Example jit_ldir_equiv_witness :
  let c := set_HL 0x200 (set_DE 0x201 (set_BC 4 (set_mem (mset_list 0x200 [7] ∅) z80_cpu_init))) in
  (ldir_lddr_common 1 (c, None)).1 = (op_LDIR_LDDR Z80_OP_LDIR (c, None)).1.
Proof.
  intros c. apply (jit_ldir_equiv 1 (c, None)); [by left|].
  apply ok_set_HL; [|in_range]. apply ok_set_DE; [|in_range].
  apply ok_set_BC; [|in_range]. apply ok_set_mem; [apply z80_cpu_init_ok|in_range].
Defined.
