(* ===== verification/Smc.v ===== *)
(** * Smc: when translated code is current

    The invalidation protocol of the translator as a step relation: the run
    loop translates, refuses, stores, sweeps and wipes in any order; the
    theorems say when a block the cache still offers was translated from the
    bytes guest memory holds now, and when not. *)

From Stdlib Require Import ZArith Lia Bool List.
From stdpp Require Import base gmap list relations.
From S2P Require Import Prelude Cpu Decode Translate Block Scan BlockCache JitFlags JitFlagsOk.

Open Scope Z_scope.
Open Scope z80_scope.

(** ** The protocol

    Ghost state: [snap pc] is guest memory at the moment the block at [pc]
    was translated, [missed pc] the addresses written since then by stores
    that check nothing. *)
Record world := mk_world { w_dbt : z80_dbt; w_mem : memory; w_snap : Z → memory; w_missed : Z → gset Z }.

(** The block ends below FFFF: its decode cursor has not wrapped. *)
Definition below_top (pc : Z) (e : z80_block_entry) : Prop := pc + span e < 65536.

Section Protocol.
Context (traps ports : bool).

(** [step_translate]: the block [scan_block] finds is emitted at [c], marked
    up to the decode cursor (which may have wrapped) and inserted.
    [step_unchecked]: PUSH, CALL and EX (SP),HL in translated code store
    without the check (src/dbt/dbt_x64.c, line 398), and so do the FCB bytes
    the shim writes (src/cpm/cpm_disk.c).  [step_same]: counters, the code
    buffer and its branches. *)
Inductive smc_step : world → world → Prop :=
  | step_translate d m snap ms pc ops end_ c :
      is_word pc → scan_block traps ports m pc = Some (ops, end_) →
      smc_step (mk_world d m snap ms)
        (mk_world (dbt_cache_insert pc (Some c) (dbt_mark_block_bytes pc end_ d)) m
           (λ p, if decide (p = pc) then m else snap p) (λ p, if decide (p = pc) then ∅ else ms p))
  | step_refuse d m snap ms pc :
      is_word pc →
      smc_step (mk_world d m snap ms) (mk_world (dbt_cache_insert pc None d) m snap ms)
  | step_store d m snap ms a v :
      is_word a → is_byte v →
      smc_step (mk_world d m snap ms) (mk_world (dbt_store a d) (mset a v m) snap ms)
  | step_unchecked d m snap ms a v :
      is_word a → is_byte v →
      smc_step (mk_world d m snap ms) (mk_world d (mset a v m) snap (λ p, ({[a]} ∪ ms p)))
  | step_ldir d m m' snap ms incr de bc :
      (incr = 1 ∨ incr = -1) → 0 <= bc → mem_ok m' →
      (∀ a, is_word a → (∀ i, 0 <= i < bc → u16 (de + incr * i) ≠ a) → mget m' a = mget m a) →
      smc_step (mk_world d m snap ms) (mk_world (ldir_sweep incr de bc d) m' snap ms)
  | step_block_write d m m' snap ms lo len :
      0 <= len → mem_ok m' →
      (∀ a, is_word a → (∀ i, 0 <= i < len → u16 (lo + i) ≠ a) → mget m' a = mget m a) →
      smc_step (mk_world d m snap ms) (mk_world (smc_sweep_forward lo len d) m' snap ms)
  | step_link d m snap ms pc site :
      smc_step (mk_world d m snap ms) (mk_world (dbt_link_record pc site d).2 m snap ms)
  | step_lookup d m snap ms pc :
      smc_step (mk_world d m snap ms) (mk_world (dbt_cache_lookup pc d).2 m snap ms)
  | step_same d d' m snap ms :
      same_smc d d' → smc_step (mk_world d m snap ms) (mk_world d' m snap ms)
  | step_wipe d m snap ms :
      smc_step (mk_world d m snap ms) (mk_world (dbt_cache_invalidate_all d) m snap ms).

(** ** The invariant *)

(** The bytes of every live block below the top that no unchecked store hit
    are still the ones it was made from. *)
Definition fresh (w : world) : Prop :=
  ∀ pc, is_word pc → live (w_dbt w) pc → below_top pc (cache_at (w_dbt w) pc) →
  ∀ a, covers (w_dbt w) pc a → a ∉ w_missed w pc → mget (w_mem w) a = mget (w_snap w pc) a.

(** Memory holds bytes, and every live block is a scan of its snapshot. *)
Definition scanned (w : world) : Prop :=
  mem_ok (w_mem w) ∧
  ∀ pc, is_word pc → live (w_dbt w) pc → mem_ok (w_snap w pc) ∧
  ∃ ops end_, scan_block traps ports (w_snap w pc) pc = Some (ops, end_) ∧
    span (cache_at (w_dbt w) pc) = u16 (end_ - pc).

Definition world_ok (w : world) : Prop := smc_ok_on below_top (w_dbt w) ∧ fresh w ∧ scanned w.

Lemma wiped_at d p : cache_at (dbt_cache_invalidate_all d) p = wiped_entry (cache_at d p).
Proof using Type.
  unfold cache_at, dbt_cache_invalidate_all. cbn. rewrite lookup_fmap. by destruct (cache d !! p).
Qed.
Lemma wiped_not_live d pc : is_word pc → ¬ live (dbt_cache_invalidate_all d) pc.
Proof using Type.
  unfold live, is_word. intros Hpc. rewrite wiped_at. cbn [guest_pc wiped_entry]. unfold BLOCK_EMPTY_PC. lia.
Qed.

Lemma wiped_ok P d : smc_ok_on P (dbt_cache_invalidate_all d).
Proof using Type. split; [done|]. intros pc Hpc Hl. by apply wiped_not_live in Hl. Qed.
Lemma invalidate_all_ok d : smc_ok (dbt_cache_invalidate_all d).
Proof using Type. apply smc_ok_every, wiped_ok. Qed.

Lemma covers_ext d d' pc a : cache_at d' pc = cache_at d pc → covers d' pc a → covers d pc a.
Proof using Type. intros E. unfold covers. by rewrite E. Qed.

(** A step that only empties slots, rewriting no byte of a block it keeps
    but those it reports. *)
Lemma world_shrink d d' m m' snap ms ms' :
  smc_ok_on below_top d' → mem_ok m' →
  (∀ pc, is_word pc → live d' pc → cache_at d' pc = cache_at d pc) →
  (∀ pc a, is_word pc → live d' pc → below_top pc (cache_at d' pc) → covers d' pc a → a ∉ ms' pc →
     (a ∉ ms pc) ∧ mget m' a = mget m a) →
  world_ok (mk_world d m snap ms) → world_ok (mk_world d' m' snap ms').
Proof using Type.
  intros Hok Hm' Hc Hm (_ & Hf & _ & Hs). split; [done|].
  assert (∀ pc, is_word pc → live d' pc → live d pc) as Hlive
    by (intros pc Hpc Hl; unfold live in *; by rewrite <- Hc).
  split; [|split; [done|]]; intros pc Hpc Hl; cbn in *.
  - intros Hb a Ha Hn. destruct (Hm pc a Hpc Hl Hb Ha Hn) as [Hn' ->]. rewrite Hc in Hb by done.
    apply Hf; [done|by apply Hlive|done|eapply covers_ext; [by apply Hc|done]|done].
  - rewrite Hc by done. apply Hs; [done|by apply Hlive].
Qed.

Lemma covers_word d pc a : covers d pc a → is_word a.
Proof using Type. intros (k & _ & <-). in_range. Qed.

Lemma lookup_smc pc d : same_smc d (dbt_cache_lookup pc d).2.
Proof using Type. unfold dbt_cache_lookup. by case_match. Qed.

(** The cursor after a block: past its start, or wrapped. *)
Lemma scan_cursor m pc ops end_ : mem_ok m → is_word pc → scan_block traps ports m pc = Some (ops, end_) →
  is_word end_ ∧ end_ ≠ pc ∧ u16 (end_ - pc) = ops_bytes ops.
Proof using Type.
  intros Hm Hpc Hscan. destruct (scan_block_spec traps ports m Hm pc ops end_ Hpc Hscan) as (Hch & _ & _ & _ & Hend & Hlen).
  pose proof (ops_bytes_bounds pc ops Hch) as Hb. rewrite end_pc_bytes in Hend by done.
  unfold MAX_BLOCK_INSNS in Hlen. split; [subst; apply u16_word|]. unfold is_word, u16 in *. split; Z.div_mod_to_equations; lia.
Qed.

Lemma translate_step_ok d m snap ms pc ops end_ c :
  is_word pc → scan_block traps ports m pc = Some (ops, end_) →
  world_ok (mk_world d m snap ms) →
  world_ok (mk_world (dbt_cache_insert pc (Some c) (dbt_mark_block_bytes pc end_ d)) m
              (λ p, if decide (p = pc) then m else snap p) (λ p, if decide (p = pc) then ∅ else ms p)).
Proof using Type.
  intros Hpc Hscan (Hok & Hf & Hm & Hs). cbn in Hm.
  destruct (scan_cursor m pc ops end_ Hm Hpc Hscan) as (Hw & Hne & _).
  pose proof (λ p, insert_marked pc end_ c d p Hpc) as Hat. cbv zeta in Hat.
  set (d' := dbt_cache_insert pc (Some c) (dbt_mark_block_bytes pc end_ d)) in *.
  assert (smc_ok_on below_top d') as Hok'.
  { unfold is_word in Hw, Hpc. destruct (Z.lt_ge_cases pc end_); [apply translate_ok_on; [done|done|lia|lia]|].
    apply translate_wrapped_ok; [done..|]. unfold below_top. cbn [span]. unfold u16. Z.div_mod_to_equations. lia. }
  split; [done|]. split; [|split; [done|]]; intros p Hp Hl; unfold live in Hl; cbn in *; rewrite Hat in Hl |- *; case_decide as Hd.
  - subst p. by rewrite !decide_True by done.
  - rewrite !decide_False by done. intros Hb a Ha. apply Hf; [done|done|done|]. unfold covers in *. by rewrite Hat, decide_False in Ha.
  - subst p. rewrite decide_True by done. split; [done|]. by exists ops, end_.
  - rewrite decide_False by done. by apply Hs.
Qed.

Lemma world_same d d' m snap ms :
  same_smc d d' → world_ok (mk_world d m snap ms) → world_ok (mk_world d' m snap ms).
Proof using Type.
  intros Hs Hw. pose proof Hw as (Hok & _ & Hm & _).
  apply (world_shrink d _ m _ _ ms); [by apply (same_smc_ok_on _ d)|done| |done|done].
  intros pc _ _. unfold cache_at. by destruct Hs as [-> _].
Qed.

Lemma smc_step_ok w w' : smc_step w w' → world_ok w → world_ok w'.
Proof using Type.
  intros Hstep Hw. destruct Hstep as
    [d m snap ms pc ops end_ c Hpc Hscan|d m snap ms pc Hpc|d m snap ms a v Ha Hv|d m snap ms a v Ha Hv
    |d m m' snap ms incr de bc Hi Hbc Hm' Hm|d m m' snap ms lo len Hlen Hm' Hm
    |d m snap ms pc site|d m snap ms pc|d d' m snap ms Hs|d m snap ms]; pose proof Hw as (Hok & _ & Hmem & _); cbn in Hok, Hmem.
  - by eapply translate_step_ok.
  - destruct (refuse_ok_on below_top pc d Hok Hpc) as [Hok' Hoth].
    apply (world_shrink d _ m _ _ ms); [done|done| |done|done]. intros p Hp Hl. apply Hoth. intros ->.
    by apply refuse_not_live in Hl.
  - destruct (dbt_store_spec_on below_top a d Hok Ha) as (Hok' & Hnc & _).
    apply (world_shrink d _ m _ _ ms); [done|in_range| | |done].
    + intros p Hp Hl. destruct (dbt_store_shrinks a d p) as [|He]; [done|].
      unfold live in Hl. rewrite Hl in He. unfold is_word, BLOCK_EMPTY_PC in *. lia.
    + intros p b Hp Hl Hb Hc Hn. split; [done|]. apply mget_mset_ne. intros ->. by apply (Hnc p).
  - apply (world_shrink d _ m _ _ ms); [done|in_range|done| |done].
    intros p b Hp Hl Hb Hc Hn. apply not_elem_of_union in Hn as [Hn%not_elem_of_singleton Hms]. split; [done|]. by apply mget_mset_ne.
  - destruct (ldir_sweep_spec_on below_top incr de bc d Hi Hok Hbc) as [Hsh Hnc].
    apply (world_shrink d _ m _ _ ms); [by apply (shrinks_ok_on _ d)|done|by intros; apply shrinks_live| |done].
    intros p b Hp Hl Hb Hc Hn. split; [done|]. apply Hm; [by eapply covers_word|].
    intros i Hir E. apply (Hnc p i Hp Hl Hb Hir). by rewrite E.
  - destruct (sweep_spec_on below_top lo len d Hok Hlen) as [Hsh Hnc].
    apply (world_shrink d _ m _ _ ms); [by apply (shrinks_ok_on _ d)|done|by intros; apply shrinks_live| |done].
    intros p b Hp Hl Hb Hc Hn. split; [done|]. apply Hm; [by eapply covers_word|].
    intros i Hi E. apply (Hnc p i Hp Hl Hb Hi). by rewrite E.
  - by apply (world_same d _ _ _ _ (link_record_smc pc site d)).
  - by apply (world_same d _ _ _ _ (lookup_smc pc d)).
  - by apply (world_same d).
  - apply (world_shrink d _ m _ _ ms); [apply wiped_ok|done| |done|done]. intros p Hp Hl.
    by apply wiped_not_live in Hl.
Qed.

(** What [dbt_init] leaves: whatever the allocation held, then a wipe. *)
Definition init_world (d : z80_dbt) (m : memory) : world :=
  mk_world (dbt_cache_invalidate_all d) m (λ _, m) (λ _, ∅).

Lemma init_world_ok d m : mem_ok m → world_ok (init_world d m).
Proof using Type.
  intros Hm. split; [apply wiped_ok|]. split; [|split; [done|]]; intros p Hp Hl;
    by apply wiped_not_live in Hl.
Qed.

Lemma reachable_ok w w' : rtc smc_step w w' → world_ok w → world_ok w'.
Proof using Type. induction 1; eauto using smc_step_ok. Qed.

(** What the invariant says of one live block. *)
Definition block_current (w : world) (pc : Z) : Prop :=
  ∃ ops end_, scan_block traps ports (w_snap w pc) pc = Some (ops, end_) ∧
    span (cache_at (w_dbt w) pc) = ops_bytes ops ∧
    (pc + ops_bytes ops < 65536 →
     (∀ a, covers (w_dbt w) pc a → a ∉ w_missed w pc → mget (w_mem w) a = mget (w_snap w pc) a) ∧
     ((∀ a, covers (w_dbt w) pc a → a ∉ w_missed w pc) → decodes (w_mem w) pc ops)).

Lemma live_current w pc : world_ok w → is_word pc → live (w_dbt w) pc → block_current w pc.
Proof using Type.
  intros (Hok & Hf & Hm & Hs) Hpc Hl. destruct (Hs pc Hpc Hl) as (Hsm & ops & end_ & Hscan & Hspan).
  destruct (scan_cursor _ pc ops end_ Hsm Hpc Hscan) as (_ & _ & Hbytes). rewrite Hbytes in Hspan.
  destruct (scan_block_spec traps ports _ Hsm pc ops end_ Hpc Hscan) as (Hch & Hdec & _).
  exists ops, end_. split; [done|]. split; [done|]. intros Hb.
  assert (∀ a, covers (w_dbt w) pc a → a ∉ w_missed w pc → mget (w_mem w) a = mget (w_snap w pc) a) as Hsame.
  { apply Hf; [done|done|]. unfold below_top. by rewrite Hspan. }
  split; [done|]. intros Hno. apply (decodes_agree (w_snap w pc)); [done..|].
  intros j Hj. assert (covers (w_dbt w) pc (u16 (pc + j))) as Hcov by (exists j; by rewrite Hspan).
  apply Hsame; [done|by apply Hno].
Qed.

(** C1: no stale translation.  From [dbt_init] on, over any interleaving of
    translations (wrapping ones too), refusals, checked guest stores, block
    writes with their sweeps, unchecked stores, link records, lookups and
    full wipes, every block the cache holds is the scan of the memory it was
    translated from, its span is that scan's, and, unless it reaches the top
    of memory, each of its bytes is still what it was then but for those an
    unchecked store has hit since; where none has, its instructions are what
    memory decodes to now.  The two exceptions are real: see
    [wrapped_block_survives_stores] and [pushed_over]. *)
Theorem no_stale_code d0 m0 w pc :
  mem_ok m0 → rtc smc_step (init_world d0 m0) w →
  is_word pc → live (w_dbt w) pc →
  ∃ ops end_, scan_block traps ports (w_snap w pc) pc = Some (ops, end_) ∧
    span (cache_at (w_dbt w) pc) = ops_bytes ops ∧
    (pc + ops_bytes ops < 65536 →
     (∀ a, covers (w_dbt w) pc a → a ∉ w_missed w pc → mget (w_mem w) a = mget (w_snap w pc) a) ∧
     ((∀ a, covers (w_dbt w) pc a → a ∉ w_missed w pc) → decodes (w_mem w) pc ops)).
Proof using Type. intros Hm0 Hr. apply live_current. by eapply reachable_ok, init_world_ok. Qed.
End Protocol.

(** A translator state with nothing in it. *)
Definition empty_dbt : z80_dbt :=
  mk_dbt ∅ ∅ ∅ ∅ 0 LINK_NONE ∅ 0 0 0 0 0 0 0 0.

(** LD HL,1234h; RET at 0100, translated, then a store beside it and a push
    below it. *)
Definition small_program : memory := mset_list 0x100 [0x21; 0x34; 0x12; 0xC9] ∅.
Definition small_dbt : z80_dbt :=
  dbt_cache_insert 0x100 (Some 64) (dbt_mark_block_bytes 0x100 0x104 (dbt_cache_invalidate_all empty_dbt)).

Definition small_snap (p : Z) : memory := if decide (p = 0x100) then small_program else small_program.
Definition small_missed (p : Z) : gset Z := if decide (p = 0x100) then ∅ else ∅.
Lemma small_step : smc_step true true (init_world empty_dbt small_program) (mk_world small_dbt small_program small_snap small_missed).
Proof. apply step_translate with (ops := ops_of true true small_program 0x100); [in_range|vm_compute; reflexivity]. Qed.

Example no_stale_code_witness :
  let w := mk_world (dbt_store 0x200 small_dbt) (mset 0xFF 0x77 (mset 0x200 0x55 small_program))
             small_snap (λ p, {[0xFF]} ∪ small_missed p) in
  live (w_dbt w) 0x100 ∧
  ∃ ops end_, scan_block true true (w_snap w 0x100) 0x100 = Some (ops, end_) ∧
    span (cache_at (w_dbt w) 0x100) = ops_bytes ops ∧ decodes (w_mem w) 0x100 ops.
Proof.
  intros w. assert (live (w_dbt w) 0x100) as Hl by (by vm_compute). split; [done|].
  assert (mem_ok small_program) as Hm by in_range.
  destruct (no_stale_code true true empty_dbt small_program w 0x100 Hm) as (ops & end_ & Hscan & Hspan & Hc); [|in_range|done|].
  - eapply rtc_l; [exact small_step|].
    eapply rtc_l; [apply (step_store true true _ _ _ _ 0x200 0x55); in_range|].
    apply rtc_once, (step_unchecked true true _ _ _ _ 0xFF 0x77); in_range.
  - exists ops, end_. split; [exact Hscan|]. split; [exact Hspan|].
    assert (span (cache_at (w_dbt w) 0x100) = 4) as E by (by vm_compute). rewrite E in Hspan.
    apply Hc; [lia|]. intros a (k & Hk & <-). rewrite E in Hk. unfold w. cbn [w_missed].
    unfold u16, small_missed. rewrite Z.mod_small by lia. rewrite decide_True by done. set_solver by lia.
Defined.

(** An unchecked store into a block: it stays live, and memory no longer
    holds what it was made from. *)
Example pushed_over :
  let w := mk_world small_dbt (mset 0x100 0xC9 small_program) small_snap (λ p, {[0x100]} ∪ small_missed p) in
  rtc (smc_step true true) (init_world empty_dbt small_program) w ∧ live (w_dbt w) 0x100 ∧
  covers (w_dbt w) 0x100 0x100 ∧ mget (w_mem w) 0x100 ≠ mget (w_snap w 0x100) 0x100.
Proof.
  intros w. split_and!; [|by vm_compute|exists 0; by vm_compute|by vm_compute].
  eapply rtc_l; [exact small_step|]. apply rtc_once, (step_unchecked true true _ _ _ _ 0x100 0xC9); in_range.
Qed.

(** ** Exactly the covering blocks *)

(** A guest store through [z80_mem_w] with a translator attached writes
    the byte, keeps the invalidation invariant, leaves no live block that
    covers the address, and keeps every block that does not cover it: the
    window sweep and the cleared bitmap byte are exact. *)
Theorem mem_w_invalidates addr v c d :
  smc_ok d → is_word addr →
  let s' := mem_w addr v (c, Some d) in
  mget (mem s'.1) addr = v ∧
  ∃ d', s'.2 = Some d' ∧ smc_ok d' ∧
    (∀ pc, is_word pc → live d' pc → ¬ covers d' pc addr) ∧
    (∀ pc, is_word pc → ¬ covers d pc addr → cache_at d' pc = cache_at d pc).
Proof.
  intros Hok Ha s'. subst s'. unfold mem_w. cbn. rewrite u16_id by done.
  split; [apply mget_mset_eq|]. exists (dbt_store addr d). split; [done|].
  by apply dbt_store_spec.
Qed.

Definition two_blocks : z80_dbt :=
  dbt_cache_insert 0x102 (Some 128) (dbt_mark_block_bytes 0x102 0x110
    (dbt_cache_insert 0x100 (Some 64) (dbt_mark_block_bytes 0x100 0x104
      (dbt_cache_invalidate_all empty_dbt)))).

Lemma two_blocks_ok : smc_ok two_blocks.
Proof.
  apply translate_ok; [|in_range|lia|lia]. apply translate_ok; [apply invalidate_all_ok|in_range|lia|lia].
Qed.

Example mem_w_invalidates_witness :
  ∃ d', (mem_w 0x105 0xC9 (z80_cpu_init, Some two_blocks)).2 = Some d' ∧
  cache_at d' 0x100 = cache_at two_blocks 0x100 ∧ ¬ live d' 0x102.
Proof.
  destruct (mem_w_invalidates 0x105 0xC9 z80_cpu_init two_blocks two_blocks_ok ltac:(in_range))
    as (_ & d' & Hd & _ & Hgone & Hkept).
  exists d'. split; [exact Hd|]. split.
  - apply Hkept; [in_range|]. intros (k & Hk & Heq).
    change (span _) with 4 in Hk. unfold u16 in Heq. rewrite Z.mod_small in Heq by lia. lia.
  - intros Hl. apply (Hgone 0x102 ltac:(in_range) Hl). exists 3.
    split; [|by vm_compute]. injection Hd as <-. exfalso. revert Hl. by vm_compute.
Defined.

(** The forward sweep behind the block helpers (copy and fill loops,
    LDIR) leaves no live block covering any of the bytes written, and only
    ever empties cache slots. *)
Theorem sweep_invalidates lo len d :
  smc_ok d → 0 <= len →
  smc_ok (smc_sweep_forward lo len d) ∧
  (∀ pc i, is_word pc → live (smc_sweep_forward lo len d) pc → 0 <= i < len →
     ¬ covers (smc_sweep_forward lo len d) pc (u16 (lo + i))) ∧
  (∀ pc, cache_at (smc_sweep_forward lo len d) pc = cache_at d pc
         ∨ guest_pc (cache_at (smc_sweep_forward lo len d) pc) = BLOCK_EMPTY_PC).
Proof.
  intros Hok Hlen. destruct (sweep_spec lo len d Hok Hlen) as [Hsh Hnc].
  split_and!; [by apply (shrinks_ok d)|done|apply Hsh].
Qed.

Example sweep_invalidates_witness :
  ¬ live (smc_sweep_forward 0xF8 20 two_blocks) 0x100 ∧
  ¬ live (smc_sweep_forward 0xF8 20 two_blocks) 0x102.
Proof.
  destruct (sweep_invalidates 0xF8 20 two_blocks two_blocks_ok ltac:(lia)) as (_ & Hgone & _).
  split; intros Hl; [apply (Hgone 0x100 8 ltac:(in_range) Hl)|apply (Hgone 0x102 10 ltac:(in_range) Hl)];
    try lia; exfalso; revert Hl; by vm_compute.
Defined.

(** ** A block that wraps past FFFF *)

Lemma zseq_nil n s : n = 0%nat → zseq s n = [].
Proof. by intros ->. Qed.

(** C26: the translator passes its 16-bit decode cursor as [end].  For a
    block that runs past FFFF the cursor has wrapped below the start: the
    entry gets the block's true span but not one bitmap byte is marked, so
    with no other block around a store into the block invalidates nothing
    and the stale translation stays live. *)
Theorem wrapped_block_survives_stores pc end_ c d a :
  is_word pc → 0 <= end_ < pc → (∀ b, code_byte d b = false) →
  let d' := dbt_cache_insert pc (Some c) (dbt_mark_block_bytes pc end_ d) in
  live d' pc ∧ span (cache_at d' pc) = 65536 - pc + end_ ∧ covers d' pc pc ∧ dbt_store a d' = d'.
Proof.
  intros Hpc He Hb d'. subst d'. unfold dbt_mark_block_bytes.
  rewrite zseq_nil by lia. cbn [fold_left].
  assert (u32 (end_ - pc) &' 65535 = 65536 - pc + end_) as ->.
  { rewrite word_land_ffff. unfold u32, u16, is_word in *.
    replace (end_ - pc) with (end_ - pc + 4294967296 + (-1) * 4294967296) by lia.
    rewrite Z_mod_plus_full, (Z.mod_small _ 4294967296) by lia.
    replace (end_ - pc + 4294967296) with (65536 - pc + end_ + 65535 * 65536) by lia.
    rewrite Z_mod_plus_full. apply Z.mod_small. lia. }
  match goal with |- context [set_last_block_bytes _ ?x] => set (d0 := x) end.
  set (d1 := set_last_block_bytes (65536 - pc + end_) d0).
  assert (cache_at (dbt_cache_insert pc (Some c) d1) pc = mk_entry pc (65536 - pc + end_) (Some c)) as Hat
    by (rewrite insert_cache, decide_True by done; done).
  split_and!.
  - unfold live. by rewrite Hat.
  - by rewrite Hat.
  - exists 0. rewrite Hat, Z.add_0_r, u16_id by done. unfold is_word in *. simpl. lia.
  - unfold dbt_store, code_byte. destruct (insert_rest pc (Some c) d1) as [-> _].
    assert (code_bitmap d1 = code_bitmap d) as -> by (subst d1 d0; by case_match).
    fold (code_byte d a). by rewrite Hb.
Qed.

Example wrapped_block_survives_stores_witness :
  let d := dbt_cache_insert 0xFFFE (Some 64) (dbt_mark_block_bytes 0xFFFE 0x0001 (dbt_cache_invalidate_all empty_dbt)) in
  live d 0xFFFE ∧ dbt_store 0xFFFF d = d.
Proof.
  destruct (wrapped_block_survives_stores 0xFFFE 1 64 (dbt_cache_invalidate_all empty_dbt) 0xFFFF)
    as (H1 & _ & _ & H4); [in_range|lia|done|]. by split.
Defined.
