(* ===== verification/FoldOk.v ===== *)
(** * FoldOk: the closed-form loops are the loops they replace

    For each shape the translator folds, the instructions it matched are run
    by the interpreter until they leave the loop ([Block.run_loop]); the
    context they leave is the one the helper of [JitFlags] computes, with PC
    after the loop and the block's own instruction count added.  [pass]
    definitions are one trip round the loop. *)

From Stdlib Require Import ZArith Lia Bool List.
From stdpp Require Import base gmap list.
From S2P Require Import Prelude Cpu Decode Interp InterpOk BlockCache JitFlags JitFlagsOk Translate Block Scan.

Open Scope Z_scope.
Open Scope z80_scope.

(** ** The byte loops, shifted by one pass *)

Lemma copy_loop_shift n i src dst last m :
  copy_loop n (i + 1) 1 src dst last m = copy_loop n i 1 (u16 (src + 1)) (u16 (dst + 1)) last m.
Proof.
  revert i last m. induction n as [|n IH]; intros i last m; [done|]. cbn [copy_loop].
  rewrite !u16_add_l, IH.
  replace (src + 1 * (i + 1)) with (src + 1 + 1 * i) by lia.
  replace (dst + 1 * (i + 1)) with (dst + 1 + 1 * i) by lia. done.
Qed.

Lemma copy_loop_last n i incr src dst l1 l2 m :
  (1 <= n)%nat → copy_loop n i incr src dst l1 m = copy_loop n i incr src dst l2 m.
Proof. destruct n; [lia|]. done. Qed.

Lemma copy_loop_S n src dst last m :
  is_word src → is_word dst → (1 <= n)%nat →
  copy_loop (S n) 0 1 src dst last m =
  copy_loop n 0 1 (u16 (src + 1)) (u16 (dst + 1)) (mget m src) (mset dst (mget m src) m).
Proof.
  intros. cbn [copy_loop]. rewrite Z.mul_0_r, !Z.add_0_r, !u16_id by done. apply copy_loop_shift.
Qed.

Lemma copy_loop_1 src dst last m :
  is_word src → is_word dst → copy_loop 1 0 1 src dst last m = (mget m src, mset dst (mget m src) m).
Proof. intros. cbn [copy_loop]. by rewrite Z.mul_0_r, !Z.add_0_r, !u16_id. Qed.

Lemma fill_loop_shift n i dst v m : fill_loop n (i + 1) dst v m = fill_loop n i (u16 (dst + 1)) v m.
Proof.
  revert i m. induction n as [|n IH]; intros i m; [done|]. cbn [fill_loop].
  rewrite u16_add_l, IH. by replace (dst + (i + 1)) with (dst + 1 + i) by lia.
Qed.

(** ** Counters and flags *)

(** Trips left: zero stands for 256. *)
Definition trips (cnt : Z) : Z := if cnt =? 0 then 256 else cnt.

Lemma trips_range cnt : is_byte cnt → 1 <= trips cnt <= 256.
Proof. unfold is_byte, trips. destruct (Z.eqb_spec cnt 0); lia. Qed.
Lemma trips_last cnt : is_byte cnt → trips cnt = 1 ↔ u8 (cnt - 1) = 0.
Proof.
  unfold is_byte, trips, u8. intros. destruct (Z.eqb_spec cnt 0) as [->|]; [by split|].
  split; [intros ->; done|]. intros E. Z.div_mod_to_equations. lia.
Qed.
Lemma trips_next cnt : is_byte cnt → u8 (cnt - 1) ≠ 0 → trips (u8 (cnt - 1)) = trips cnt - 1.
Proof.
  intros Hc Hn. unfold trips. destruct (Z.eqb_spec (u8 (cnt - 1)) 0); [done|].
  unfold is_byte, u8 in *. destruct (Z.eqb_spec cnt 0) as [->|]; [done|].
  rewrite Z.mod_small; lia.
Qed.

Lemma dec_flags_facts f v :
  is_byte f → is_byte v →
  nz (dec_flags f v &' FLAG_Z) = (v =? 0) ∧ dec_flags f v &' FLAG_C = f &' FLAG_C.
Proof.
  intros Hf Hv.
  pose proof (forall_bytes2 (λ f v, Bool.eqb (nz (dec_flags f v &' FLAG_Z)) (v =? 0)
    && (dec_flags f v &' FLAG_C =? f &' FLAG_C)) ltac:(by vm_compute) f v Hf Hv) as E.
  cbn beta in E. apply andb_true_iff in E as [E1 E2].
  split; [by apply Bool.eqb_prop|by apply Z.eqb_eq].
Qed.

Lemma dec_flags_0 f : is_byte f → dec_flags f 0 = u8 ((f &' FLAG_C) |' table_at z80_f_tables (FT_DEC + 0)).
Proof.
  intros Hf. apply Z.eqb_eq.
  exact (forall_bytes (λ f, dec_flags f 0 =? u8 ((f &' FLAG_C) |' table_at z80_f_tables (FT_DEC + 0)))
           ltac:(by vm_compute) f Hf).
Qed.

Lemma counter_byte code c v : cpu_ok c → counter_reg code c = Some v → is_byte v.
Proof. unfold counter_reg. intros Hc. repeat case_match; intros; simplify_eq; in_range. Qed.

Lemma u64_add2 x a b : u64 (u64 (x + a) + b) = u64 (x + (a + b)).
Proof. unfold u64. by rewrite Zplus_mod_idemp_l, Z.add_assoc. Qed.

Section Fold.
Context `{HW : Host W} (traps : bool) (Htraps : ∀ w : W, traps_enabled w = traps).

Lemma step_dec_r d c (w : W) code v :
  is_type Z80_OP_DEC_R d = true → reg1 d = code → counter_reg code c = Some v →
  step_dec d (c, w) =
    (RC_OK, (bump_insn (with_f (dec_flags (rF c) (u8 (v - 1)))
                          (set_counter code (u8 (v - 1)) (advance d c))), w)).
Proof.
  intros Ht%is_type_eq <- Hv. unfold step_dec, exec. rewrite Ht. unfold run, op_DEC_R.
  revert Hv. unfold counter_reg, set_counter.
  destruct (reg1 d) as [|p|p]; [|repeat (destruct p; try done)..]; intros [= <-]; done.
Qed.

(** The closing branch: to [head] while Z is clear. *)
Lemma step_back d pc_after head cond c (w : W) :
  copyfill_branch d pc_after head = Some cond → is_jp_trap_target traps head = false →
  pc_after = next_pc d c →
  (cond = 0 ∨ cond = 1) ∧
  step_dec d (c, w) =
    (RC_OK, (let z := nz (rF c &' FLAG_Z) in
             bump_insn (set_memptr (if cond =? 0 then head else if z then memptr c else head)
               (set_rPC (if z then pc_after else head) (set_rQ 0 c))), w)).
Proof.
  intros Hb Ht Hpa. unfold copyfill_branch in Hb.
  destruct (Z.eqb_spec (cc d) 0) as [Hcc|]; [|done]. cbn [negb] in Hb.
  destruct (is_type Z80_OP_JP_CC_NN d) eqn:Ety.
  - destruct (Z.eqb_spec (imm16 d) head) as [Hi|]; [|done]. simplify_eq Hb. intros <-.
    split; [by left|]. rewrite (step_jp_cc traps) by (try done; by rewrite Hi).
    rewrite Hcc, Hi, Hpa. cbn [cond_true Z.eqb]. by destruct (nz (rF c &' FLAG_Z)).
  - destruct (is_type Z80_OP_JR_CC_E d) eqn:Ety2; [|done].
    destruct (Z.eqb_spec (u16 (pc_after + disp d)) head) as [Hi|]; [|done]. simplify_eq Hb. intros <-.
    split; [by right|]. rewrite step_jr_cc by done. rewrite Hcc. cbn [cond_true Z.eqb Pos.eqb].
    assert (u16 (rPC c + nbytes d + disp d) = head) as E.
    { rewrite <- Hi, Hpa. unfold next_pc. by rewrite u16_add_l. }
    destruct (nz (rF c &' FLAG_Z)); cbn [negb]; [by rewrite Hpa|]. cbv zeta. by rewrite E.
Qed.

(** ** The copy loop *)

(** One trip: [dir] is the direction bit, [code] the counter register. *)
Definition copy_pass (dir cond code head exit : Z) (c : z80_cpu) : z80_cpu :=
  let v := mget (mem c) (if nz dir then rDE c else rHL c) in
  let n := u8 (default 0 (counter_reg code c) - 1) in
  let mp := if cond =? 0 then head else if negb (n =? 0) then head
            else if nz dir then u16 (rDE c + 1) else word_of (u8 (rDE c + 1)) v in
  set_memptr mp (set_rQ 0 (set_insn_count (u64 (insn_count c + 6))
    (set_rPC (if n =? 0 then exit else head) (set_rF (dec_flags (rF c) n)
      (set_counter code n (set_DE (u16 (rDE c + 1)) (set_HL (u16 (rHL c + 1))
        (set_rA v (set_mem (mset (if nz dir then rHL c else rDE c) v (mem c)) c))))))))).
End Fold.

(** ** What a match says *)

Lemma len6 {A} (l : list A) :
  (5 <? length l)%nat = true → ∃ a b c d e f r, l = a :: b :: c :: d :: e :: f :: r.
Proof.
  intros Hl%Nat.ltb_lt. do 6 (destruct l as [|? l]; [cbn in Hl; lia|]). by eexists _, _, _, _, _, _, _.
Qed.
Lemma len4 {A} (l : list A) : (3 <? length l)%nat = true → ∃ a b c d r, l = a :: b :: c :: d :: r.
Proof.
  intros Hl%Nat.ltb_lt. do 4 (destruct l as [|? l]; [cbn in Hl; lia|]). by eexists _, _, _, _, _.
Qed.

Record copy_shape (ops : list op_at) (o0 o1 o2 o3 o4 o5 : op_at) (dir cond : Z) : Prop := {
  cs_ops : firstn 6 ops = [o0; o1; o2; o3; o4; o5];
  cs_idx : Forall (λ o, has_idx o.1 = false) [o0; o1; o2; o3; o4; o5];
  cs_move : (dir = 0 ∧ is_ld 7 6 o0.1 = true ∧ is_type Z80_OP_LD_DE_A o1.1 = true)
            ∨ (dir = 1 ∧ is_type Z80_OP_LD_A_DE o0.1 = true ∧ is_ld 6 7 o1.1 = true);
  cs_incs : (is_inc_rr 2 o2.1 = true ∧ is_inc_rr 1 o3.1 = true)
            ∨ (is_inc_rr 1 o2.1 = true ∧ is_inc_rr 2 o3.1 = true);
  cs_dec : is_type Z80_OP_DEC_R o4.1 = true;
  cs_reg : reg1 o4.1 <= 1;
  cs_branch : copyfill_branch o5.1 o5.2 (head_pc ops) = Some cond
}.

Lemma firstn_idx n (ops : list op_at) :
  existsb (λ o, has_idx o.1) (firstn n ops) = false → Forall (λ o, has_idx o.1 = false) (firstn n ops).
Proof.
  induction (firstn n ops) as [|o l IH]; [by constructor|]. cbn [existsb].
  intros [Ho Hl]%orb_false_iff. auto.
Qed.

Record fill_shape (ops : list op_at) (o0 o1 o2 o3 : op_at) (cond : Z) : Prop := {
  fs_ops : firstn 4 ops = [o0; o1; o2; o3];
  fs_idx : Forall (λ o, has_idx o.1 = false) [o0; o1; o2; o3];
  fs_move : is_ld 6 7 o0.1 = true;
  fs_inc : is_inc_rr 2 o1.1 = true;
  fs_dec : is_type Z80_OP_DEC_R o2.1 = true;
  fs_reg : reg1 o2.1 <= 3;
  fs_branch : copyfill_branch o3.1 o3.2 (head_pc ops) = Some cond
}.

Definition head_shape (ops : list op_at) (len : nat) (dir : Z) : Prop :=
  (len = 6%nat ∧ (5 <? length ops)%nat = true ∧
    ((dir = 0 ∧ is_ld 7 6 (op_nth ops 0) = true ∧ is_type Z80_OP_LD_DE_A (op_nth ops 1) = true)
     ∨ (dir = 1 ∧ is_type Z80_OP_LD_A_DE (op_nth ops 0) = true ∧ is_ld 6 7 (op_nth ops 1) = true)))
  ∨ (len = 4%nat ∧ dir = 0 ∧ (3 <? length ops)%nat = true ∧ is_ld 6 7 (op_nth ops 0) = true).

Lemma copyfill_head_inv ops len dir : copyfill_head ops = Some (len, dir) → head_shape ops len dir.
Proof.
  unfold copyfill_head, head_shape.
  destruct (is_ld 7 6 _ && _ && _) eqn:E1.
  { apply andb_true_iff in E1 as [[? ?]%andb_true_iff ?]. intros [= <- <-]. left. auto 6. }
  destruct (is_type Z80_OP_LD_A_DE _ && _ && _) eqn:E2.
  { apply andb_true_iff in E2 as [[? ?]%andb_true_iff ?]. intros [= <- <-]. left. auto 6. }
  destruct (is_ld 6 7 _ && _) eqn:E3; [|done].
  apply andb_true_iff in E3 as [? ?]. intros [= <- <-]. right. auto.
Qed.

(** A match is one of the two shapes, and [spec] its description. *)
Lemma copyfill_inv ops len spec is_fill :
  copyfill_kind ops = Some (len, spec, is_fill) →
  (is_fill = false ∧ len = 6%nat ∧ ∃ o0 o1 o2 o3 o4 o5 dir cond,
     copy_shape ops o0 o1 o2 o3 o4 o5 dir cond ∧ spec = reg1 o4.1 |' (dir <<' 8) |' (cond <<' 9))
  ∨ (is_fill = true ∧ len = 4%nat ∧ ∃ o0 o1 o2 o3 cond,
     fill_shape ops o0 o1 o2 o3 cond ∧ spec = reg1 o2.1 |' (0 <<' 8) |' (cond <<' 9)).
Proof.
  unfold copyfill_kind. destruct (existsb _ _) eqn:Hidx; [done|]. apply firstn_idx in Hidx.
  destruct (copyfill_head ops) as [[l dir]|] eqn:Hh; [|done].
  destruct (copyfill_incs l ops) eqn:Hinc; [|done]. cbn [negb].
  apply copyfill_head_inv in Hh as [(-> & Hl & Hmove)|(-> & -> & Hl & Hmove)];
    cbn [Nat.eqb Nat.sub Nat.add] in *;
    destruct (is_type Z80_OP_DEC_R _) eqn:Hdec; try done; cbn [negb];
    match goal with |- context [?a <? ?b] => destruct (Z.ltb_spec a b) as [|Hreg] end; try done;
    destruct (copyfill_branch _ _ _) as [cond|] eqn:Hbr; try done; intros [= <- <- <-].
  - left. split_and!; [done..|]. destruct (len6 ops Hl) as (o0 & o1 & o2 & o3 & o4 & o5 & r & ->).
    exists o0, o1, o2, o3, o4, o5, dir, cond. split; [|done]. constructor; try done.
    apply orb_true_iff in Hinc as [[? ?]%andb_true_iff|[? ?]%andb_true_iff]; [by left|by right].
  - right. split_and!; [done..|]. destruct (len4 ops Hl) as (o0 & o1 & o2 & o3 & r & ->).
    exists o0, o1, o2, o3, cond. split; [|done]. constructor; try done.
    cbn [firstn] in Hidx. rewrite !Forall_cons in Hidx |- *. split_and!; [apply Hidx..|constructor].
Qed.

(** ** One trip through the matched instructions *)

Lemma u64_6 a : u64 (u64 (u64 (u64 (u64 (u64 (a + 1) + 1) + 1) + 1) + 1) + 1) = u64 (a + 6).
Proof. by rewrite !u64_add2. Qed.

Lemma u64_4 a : u64 (u64 (u64 (u64 (a + 1) + 1) + 1) + 1) = u64 (a + 4).
Proof. by rewrite !u64_add2. Qed.

(** Run the next instruction, whose step is given by [L]. *)
Ltac next_op L := etransitivity; [eapply run_ops_cons; [eapply L; eassumption|reflexivity]|].

Section Bodies.
Context `{HW : Host W} (traps : bool) (Htraps : ∀ w : W, traps_enabled w = traps).

Lemma copy_body ops o0 o1 o2 o3 o4 o5 dir cond head c (w : W) :
  copy_shape ops o0 o1 o2 o3 o4 o5 dir cond → chained head ops → is_word head →
  is_jp_trap_target traps head = false → cpu_ok c → rPC c = head →
  ∃ w', run_ops (firstn 6 ops) (c, w) =
    (RC_OK, (copy_pass dir cond (reg1 o4.1) head (end_pc head (firstn 6 ops)) c, w')).
Proof.
  intros [Hops Hidx Hmove Hincs Hdec Hreg Hbr] Hch Hhead Ht Hc Hpc.
  rewrite (head_pc_chained head) in Hbr by (try done; by intros ->).
  apply (chained_firstn 6) in Hch. rewrite Hops in *.
  rewrite !Forall_cons in Hidx. destruct Hidx as (Hi0 & Hi1 & Hi2 & Hi3 & _).
  destruct o0 as [d0 p0], o1 as [d1 p1], o2 as [d2 p2], o3 as [d3 p3], o4 as [d4 p4], o5 as [d5 p5].
  cbn [fst snd chained end_pc] in *.
  destruct Hch as (Hp0 & _ & Hp1 & _ & Hp2 & _ & Hp3 & _ & Hp4 & [] & Hp5 & _).
  subst head p5 p4 p3 p2 p1 p0.
  assert (reg1 d4 = 0 ∨ reg1 d4 = 1) as Hr by lia.
  pose proof (ok_rDE c Hc) as HDE. pose proof (ok_rHL c Hc) as HHL.
  assert (is_byte (u8 (default 0 (counter_reg (reg1 d4) c) - 1))) as Hn by in_range.
  destruct (dec_flags_facts (rF c) _ (ok_rF c Hc) Hn) as [HZ _].
  unfold copy_pass.
  destruct Hmove as [(-> & Hm0 & Hm1)|(-> & Hm0 & Hm1)]; eexists;
    [next_op step_ld_a_hl; next_op step_ld_de_a | next_op step_ld_a_de; next_op step_ld_hl_a];
    (destruct Hincs as [[Hx Hy]|[Hx Hy]];
      [next_op step_inc_hl; next_op step_inc_de | next_op step_inc_de; next_op step_inc_hl]);
    (destruct Hr as [Hr|Hr]; rewrite Hr in HZ |- *; cbn [counter_reg default from_option id set_counter] in HZ |- *;
     (etransitivity; [eapply run_ops_cons; [eapply step_dec_r; [exact Hdec|exact Hr|reflexivity]|reflexivity]|]));
    match goal with |- run_ops [(?d, ?p)] (?c', ?w') = _ =>
      destruct (step_back traps Htraps d p (rPC c) cond c' w' Hbr Ht eq_refl) as [Hcond E];
      match type of HZ with ?z = _ => change (nz (rF c' &' FLAG_Z)) with z in E; rewrite HZ in E end end;
    (etransitivity; [eapply run_ops_last; exact E|]); clear E;
    apply (f_equal (pair RC_OK)); (apply (f_equal2 pair); [|reflexivity]); cbv zeta;
    match type of HZ with _ = ?b => destruct b end; destruct Hcond as [-> | ->].
    all: apply cpu_eq; try reflexivity; try exact (u64_6 (insn_count c)).
Qed.

(** One trip of the fill loop. *)
Definition fill_pass (cond code head exit : Z) (c : z80_cpu) : z80_cpu :=
  let n := u8 (default 0 (counter_reg code c) - 1) in
  let mp := if cond =? 0 then head else if negb (n =? 0) then head else memptr c in
  set_memptr mp (set_rQ 0 (set_insn_count (u64 (insn_count c + 4))
    (set_rPC (if n =? 0 then exit else head) (set_rF (dec_flags (rF c) n)
      (set_counter code n (set_HL (u16 (rHL c + 1))
        (set_mem (mset (rHL c) (rA c) (mem c)) c))))))).

Lemma fill_body ops o0 o1 o2 o3 cond head c (w : W) :
  fill_shape ops o0 o1 o2 o3 cond → chained head ops → is_word head →
  is_jp_trap_target traps head = false → cpu_ok c → rPC c = head →
  ∃ w', run_ops (firstn 4 ops) (c, w) =
    (RC_OK, (fill_pass cond (reg1 o2.1) head (end_pc head (firstn 4 ops)) c, w')).
Proof.
  intros [Hops Hidx Hmove Hinc Hdec Hreg Hbr] Hch Hhead Ht Hc Hpc.
  rewrite (head_pc_chained head) in Hbr by (try done; by intros ->).
  apply (chained_firstn 4) in Hch. rewrite Hops in *.
  rewrite !Forall_cons in Hidx. destruct Hidx as (Hi0 & Hi1 & Hi2 & Hi3 & _).
  destruct o0 as [d0 p0], o1 as [d1 p1], o2 as [d2 p2], o3 as [d3 p3].
  cbn [fst snd chained end_pc] in *.
  destruct Hch as (Hp0 & _ & Hp1 & _ & Hp2 & [] & Hp3 & _).
  subst head p3 p2 p1 p0.
  assert (reg1 d2 = 0 ∨ reg1 d2 = 1 ∨ reg1 d2 = 2 ∨ reg1 d2 = 3) as Hr by lia.
  pose proof (ok_rHL c Hc) as HHL.
  assert (is_byte (u8 (default 0 (counter_reg (reg1 d2) c) - 1))) as Hn by in_range.
  destruct (dec_flags_facts (rF c) _ (ok_rF c Hc) Hn) as [HZ _].
  unfold fill_pass. eexists. next_op step_ld_hl_a. next_op step_inc_hl.
  destruct Hr as [Hr|[Hr|[Hr|Hr]]]; rewrite Hr in HZ |- *;
    cbn [counter_reg default from_option id set_counter] in HZ |- *;
    (etransitivity; [eapply run_ops_cons; [eapply step_dec_r; [exact Hdec|exact Hr|reflexivity]|reflexivity]|]);
    match goal with |- run_ops [(?d, ?p)] (?c', ?w') = _ =>
      destruct (step_back traps Htraps d p (rPC c) cond c' w' Hbr Ht eq_refl) as [Hcond E];
      match type of HZ with ?z = _ => change (nz (rF c' &' FLAG_Z)) with z in E; rewrite HZ in E end end;
    (etransitivity; [eapply run_ops_last; exact E|]); clear E;
    apply (f_equal (pair RC_OK)); (apply (f_equal2 pair); [|reflexivity]); cbv zeta;
    match type of HZ with _ = ?b => destruct b end; destruct Hcond as [-> | ->].
  all: apply cpu_eq; try reflexivity; try exact (u64_4 (insn_count c)).
Qed.
End Bodies.

(** ** The closed forms *)

(** The helper's result with PC after the loop and the block's own count of
    the body ([len] instructions) added. *)
Definition after_loop (len exit : Z) (c : z80_cpu) : z80_cpu :=
  set_rPC exit (set_insn_count (u64 (insn_count c + len)) c).

Definition copy_done (dir cond code head exit : Z) (c : z80_cpu) : z80_cpu :=
  let n := trips (default 0 (counter_reg code c)) in
  let src := if nz dir then rDE c else rHL c in
  let dst := if nz dir then rHL c else rDE c in
  let r := copy_loop (Z.to_nat n) 0 1 src dst (rA c) (mem c) in
  let de_last := u16 (rDE c + n - 1) in
  let mp := if cond =? 0 then head else if nz dir then u16 (de_last + 1) else word_of (u8 (de_last + 1)) r.1 in
  set_rPC exit (set_insn_count (u64 (insn_count c + 6 * n)) (set_memptr mp
    (loop_epilogue code (set_rA r.1 (set_DE (u16 (rDE c + n)) (set_HL (u16 (rHL c + n)) (set_mem r.2 c))))))).

Definition fill_done (cond code head exit : Z) (c : z80_cpu) : z80_cpu :=
  let n := trips (default 0 (counter_reg code c)) in
  let mp := if (cond =? 0) || (2 <=? n) then head else memptr c in
  set_rPC exit (set_insn_count (u64 (insn_count c + 4 * n)) (set_memptr mp
    (loop_epilogue code (set_HL (u16 (rHL c + n)) (set_mem (fill_loop (Z.to_nat n) 0 (rHL c) (rA c) (mem c)) c))))).

Lemma spec_fields code dir cond :
  0 <= code <= 3 → (dir = 0 ∨ dir = 1) → (cond = 0 ∨ cond = 1) →
  let spec := code |' (dir <<' 8) |' (cond <<' 9) in
  spec &' 7 = code ∧ nz ((spec >>' 8) &' 1) = nz dir ∧ negb (nz (spec &' 0x200)) = (cond =? 0).
Proof.
  intros Hc Hd Hk. assert (code = 0 ∨ code = 1 ∨ code = 2 ∨ code = 3) as Hr by lia.
  destruct Hr as [-> |[-> |[-> | ->]]], Hd as [-> | ->], Hk as [-> | ->]; by vm_compute.
Qed.

Lemma counter_some code c : 0 <= code <= 3 → counter_reg code c = Some (default 0 (counter_reg code c)).
Proof.
  intros. assert (code = 0 ∨ code = 1 ∨ code = 2 ∨ code = 3) as Hr by lia.
  by destruct Hr as [-> |[-> |[-> | ->]]].
Qed.

Lemma u64_trips a k n : u64 (u64 (a + k * (n - 1)) + k) = u64 (a + k * n).
Proof. rewrite u64_add2. apply (f_equal u64). lia. Qed.

Lemma set_counter_insn code v k c : set_counter code v (set_insn_count k c) = set_insn_count k (set_counter code v c).
Proof. unfold set_counter. by repeat case_match. Qed.
Lemma set_counter_F code v c : rF (set_counter code v c) = rF c.
Proof. unfold set_counter. by repeat case_match. Qed.
Lemma set_counter_insn_count code v c : insn_count (set_counter code v c) = insn_count c.
Proof. unfold set_counter. by repeat case_match. Qed.

(** The helper computes the closed form. *)
Lemma loop_copy_done code dir cond head exit c w :
  0 <= code <= 3 → (dir = 0 ∨ dir = 1) → (cond = 0 ∨ cond = 1) →
  ∃ s, z80_jit_loop_copy (code |' (dir <<' 8) |' (cond <<' 9)) head (c, w) = Some s ∧
    after_loop 6 exit s.1 = copy_done dir cond code head exit c.
Proof.
  intros Hc Hd Hk. destruct (spec_fields code dir cond Hc Hd Hk) as (E1 & E2 & E3).
  unfold z80_jit_loop_copy. rewrite E1, E2, E3. cbn [fst snd]. rewrite (counter_some code c Hc).
  unfold copy_done, trips. rewrite (counter_some code c Hc). cbn [default from_option id].
  set (cnt := default 0 (counter_reg code c)).
  set (n := if cnt =? 0 then 256 else cnt).
  destruct (copy_loop _ _ _ _ _ _ _) as [last m]. eexists. split; [reflexivity|]. cbn [fst snd].
  assert (code = 0 ∨ code = 1 ∨ code = 2 ∨ code = 3) as Hr by lia.
  unfold after_loop, loop_epilogue.
  destruct Hr as [-> |[-> |[-> | ->]]]; cbn [set_counter]; apply cpu_eq; try reflexivity;
    exact (u64_trips (insn_count c) 6 n).
Qed.

Lemma loop_fill_done code cond head exit c w :
  0 <= code <= 3 → (cond = 0 ∨ cond = 1) →
  ∃ s, z80_jit_loop_fill (code |' (0 <<' 8) |' (cond <<' 9)) head (c, w) = Some s ∧
    after_loop 4 exit s.1 = fill_done cond code head exit c.
Proof.
  intros Hc Hk. destruct (spec_fields code 0 cond Hc (or_introl eq_refl) Hk) as (E1 & _ & E3).
  unfold z80_jit_loop_fill. rewrite E1, E3. cbn [fst snd]. rewrite (counter_some code c Hc).
  unfold fill_done, trips. rewrite (counter_some code c Hc). cbn [default from_option id].
  set (cnt := default 0 (counter_reg code c)).
  set (n := if cnt =? 0 then 256 else cnt).
  eexists. split; [reflexivity|]. cbn [fst snd].
  assert (code = 0 ∨ code = 1 ∨ code = 2 ∨ code = 3) as Hr by lia.
  unfold after_loop, loop_epilogue.
  destruct ((cond =? 0) || (2 <=? n)), Hr as [-> |[-> |[-> | ->]]]; cbn [set_counter]; apply cpu_eq; try reflexivity;
    exact (u64_trips (insn_count c) 4 n).
Qed.

(** The last trip is the closed form of a count of one. *)
Lemma copy_pass_last dir cond code head exit c :
  cpu_ok c → 0 <= code <= 1 → (cond = 0 ∨ cond = 1) →
  u8 (default 0 (counter_reg code c) - 1) = 0 →
  copy_pass dir cond code head exit c = copy_done dir cond code head exit c.
Proof.
  intros Hc Hcode Hk Hn. pose proof (counter_some code c ltac:(lia)) as Hs.
  pose proof (counter_byte _ _ _ Hc Hs) as Hb.
  unfold copy_pass, copy_done. rewrite Hn, (proj2 (trips_last _ Hb) Hn).
  pose proof (ok_rDE c Hc) as HDE. pose proof (ok_rHL c Hc) as HHL.
  change (Z.to_nat 1) with 1%nat. rewrite copy_loop_1 by (by case_match). cbn [fst snd].
  replace (rDE c + 1 - 1) with (rDE c) by lia. rewrite (u16_id (rDE c)) by done.
  unfold loop_epilogue. rewrite <- dec_flags_0 by (rewrite set_counter_F; in_range).
  rewrite set_counter_F. cbn [Z.eqb negb].
  assert (code = 0 ∨ code = 1) as [-> | ->] by lia; destruct Hk as [-> | ->]; apply cpu_eq; reflexivity.
Qed.

Lemma fill_pass_last cond code head exit c :
  cpu_ok c → 0 <= code <= 3 → (cond = 0 ∨ cond = 1) →
  u8 (default 0 (counter_reg code c) - 1) = 0 →
  fill_pass cond code head exit c = fill_done cond code head exit c.
Proof.
  intros Hc Hcode Hk Hn. pose proof (counter_some code c ltac:(lia)) as Hs.
  pose proof (counter_byte _ _ _ Hc Hs) as Hb.
  unfold fill_pass, fill_done. rewrite Hn, (proj2 (trips_last _ Hb) Hn).
  pose proof (ok_rHL c Hc) as HHL.
  change (Z.to_nat 1) with 1%nat. cbn [fill_loop]. rewrite Z.add_0_r, (u16_id (rHL c)) by done.
  unfold loop_epilogue. rewrite <- dec_flags_0 by (rewrite set_counter_F; in_range).
  rewrite set_counter_F. cbn [Z.eqb negb Z.leb Z.compare orb].
  assert (code = 0 ∨ code = 1 ∨ code = 2 ∨ code = 3) as [-> |[-> |[-> | ->]]] by lia;
    destruct Hk as [-> | ->]; apply cpu_eq; reflexivity.
Qed.

Lemma u16_shift x n : u16 (u16 (x + 1) + (n - 1)) = u16 (x + n).
Proof. rewrite u16_add_l. apply (f_equal u16). lia. Qed.
Lemma u16_shift_last x n : u16 (u16 (x + 1) + (n - 1) - 1) = u16 (x + n - 1).
Proof. rewrite <- Z.add_sub_assoc, u16_add_l. apply (f_equal u16). lia. Qed.
Lemma u64_absorb a k n : u64 (u64 (a + k) + k * (n - 1)) = u64 (a + k * n).
Proof. rewrite u64_add2. apply (f_equal u64). lia. Qed.

Lemma if_same {A} (b : bool) (x : A) : (if b then x else x) = x.
Proof. by destruct b. Qed.

Lemma ok_set_counter code v c : cpu_ok c → is_byte v → cpu_ok (set_counter code v c).
Proof. unfold set_counter. intros. repeat case_match; in_range. Qed.

(** [cpu_ok] of a chain of register updates, one at a time. *)
Ltac ok_chain :=
  cbv zeta; repeat
    lazymatch goal with
    | |- cpu_ok (set_memptr _ _) => apply ok_set_memptr; [|in_range]
    | |- cpu_ok (set_rQ _ _) => apply ok_set_rQ; [|in_range]
    | |- cpu_ok (set_insn_count _ _) => apply ok_set_insn_count; [|in_range]
    | |- cpu_ok (set_rPC _ _) => apply ok_set_rPC; [|in_range]
    | |- cpu_ok (set_rF _ _) => apply ok_set_rF; [|in_range]
    | |- cpu_ok (set_counter _ _ _) => apply ok_set_counter; [|in_range]
    | |- cpu_ok (set_DE _ _) => apply ok_set_DE; [|in_range]
    | |- cpu_ok (set_HL _ _) => apply ok_set_HL; [|in_range]
    | |- cpu_ok (set_rA _ _) => apply ok_set_rA; [|in_range]
    | |- cpu_ok (set_mem _ _) => apply ok_set_mem; [|in_range]
    end.

Section Absorb.
Context (dir cond code head exit : Z) (c : z80_cpu) (Hc : cpu_ok c) (Hk : cond = 0 ∨ cond = 1).
Let cnt := default 0 (counter_reg code c).
Context (Hn : u8 (cnt - 1) ≠ 0).

Lemma copy_pass_ok : is_word head → is_word exit → cpu_ok (copy_pass dir cond code head exit c).
Proof using Hc. intros. unfold copy_pass. ok_chain. done. Qed.
Lemma fill_pass_ok : is_word head → is_word exit → cpu_ok (fill_pass cond code head exit c).
Proof using Hc. intros. unfold fill_pass. ok_chain. done. Qed.

(** A trip that is not the last is absorbed by the closed form. *)
Lemma copy_done_next :
  0 <= code <= 1 →
  copy_done dir cond code head exit (copy_pass dir cond code head exit c)
  = copy_done dir cond code head exit c.
Proof using Hc Hk Hn.
  intros Hcode. pose proof (counter_some code c ltac:(lia)) as Hs. fold cnt in Hs.
  pose proof (counter_byte _ _ _ Hc Hs) as Hb.
  pose proof (trips_next cnt Hb Hn) as Htn. pose proof (trips_range cnt Hb) as Htr.
  assert (trips cnt ≠ 1) as Ht1 by (by rewrite trips_last).
  pose proof (ok_rDE c Hc) as HDE. pose proof (ok_rHL c Hc) as HHL.
  set (c1 := copy_pass dir cond code head exit c).
  set (v := mget (mem c) (if nz dir then rDE c else rHL c)).
  assert (default 0 (counter_reg code c1) = u8 (cnt - 1)) as Ec.
  { subst c1. unfold copy_pass. fold cnt.
    assert (code = 0 ∨ code = 1) as [-> | ->] by lia; reflexivity. }
  assert (rHL c1 = u16 (rHL c + 1)) as EHL.
  { rewrite <- (rHL_set_HL (u16 (rHL c + 1)) c) by in_range. subst c1. unfold copy_pass.
    assert (code = 0 ∨ code = 1) as [-> | ->] by lia; reflexivity. }
  assert (rDE c1 = u16 (rDE c + 1)) as EDE.
  { rewrite <- (rDE_set_DE (u16 (rDE c + 1)) c) by in_range. subst c1. unfold copy_pass.
    assert (code = 0 ∨ code = 1) as [-> | ->] by lia; reflexivity. }
  assert (mem c1 = mset (if nz dir then rHL c else rDE c) v (mem c) ∧ rA c1 = v ∧
          rF c1 = dec_flags (rF c) (u8 (cnt - 1)) ∧ insn_count c1 = u64 (insn_count c + 6)) as (EM & EA & EF & EI).
  { subst c1 v. unfold copy_pass. fold cnt.
    assert (code = 0 ∨ code = 1) as [-> | ->] by lia; done. }
  assert (copy_loop (Z.to_nat (trips cnt - 1)) 0 1 (if nz dir then rDE c1 else rHL c1)
            (if nz dir then rHL c1 else rDE c1) (rA c1) (mem c1)
          = copy_loop (Z.to_nat (trips cnt)) 0 1 (if nz dir then rDE c else rHL c)
            (if nz dir then rHL c else rDE c) (rA c) (mem c)) as EL.
  { rewrite EHL, EDE, EM, EA.
    replace (Z.to_nat (trips cnt)) with (S (Z.to_nat (trips cnt - 1))) by lia.
    rewrite copy_loop_S by (try lia; by case_match). subst v. by destruct (nz dir). }
  destruct (dec_flags_facts (rF c) (u8 (cnt - 1)) (ok_rF c Hc) ltac:(in_range)) as [_ EC].
  unfold copy_done. fold cnt. rewrite Ec, Htn, EL, EI, u64_absorb, EHL, EDE, !u16_shift, u16_shift_last.
  unfold loop_epilogue. rewrite !set_counter_F.
  change (rF (set_rA _ (set_DE _ (set_HL _ (set_mem _ c1))))) with (rF c1). rewrite EF, EC.
  change (rF (set_rA _ (set_DE _ (set_HL _ (set_mem _ c))))) with (rF c).
  subst c1. unfold copy_pass. fold cnt.
  assert (code = 0 ∨ code = 1) as [-> | ->] by lia; apply cpu_eq; try reflexivity.
Qed.

Lemma fill_done_next :
  0 <= code <= 3 →
  fill_done cond code head exit (fill_pass cond code head exit c)
  = fill_done cond code head exit c.
Proof using Hc Hk Hn.
  intros Hcode. pose proof (counter_some code c ltac:(lia)) as Hs. fold cnt in Hs.
  pose proof (counter_byte _ _ _ Hc Hs) as Hb.
  pose proof (trips_next cnt Hb Hn) as Htn. pose proof (trips_range cnt Hb) as Htr.
  assert (trips cnt ≠ 1) as Ht1 by (by rewrite trips_last).
  pose proof (ok_rHL c Hc) as HHL.
  assert (code = 0 ∨ code = 1 ∨ code = 2 ∨ code = 3) as Hr by lia.
  set (c1 := fill_pass cond code head exit c).
  assert (default 0 (counter_reg code c1) = u8 (cnt - 1)) as Ec.
  { subst c1. unfold fill_pass. fold cnt. destruct Hr as [-> |[-> |[-> | ->]]]; reflexivity. }
  assert (rHL c1 = u16 (rHL c + 1)) as EHL.
  { rewrite <- (rHL_set_HL (u16 (rHL c + 1)) c) by in_range. subst c1. unfold fill_pass.
    destruct Hr as [-> |[-> |[-> | ->]]]; reflexivity. }
  assert (mem c1 = mset (rHL c) (rA c) (mem c) ∧ rA c1 = rA c ∧
          rF c1 = dec_flags (rF c) (u8 (cnt - 1)) ∧ insn_count c1 = u64 (insn_count c + 4) ∧
          memptr c1 = head) as (EM & EA & EF & EI & EP).
  { subst c1. unfold fill_pass. fold cnt. destruct (Z.eqb_spec (u8 (cnt - 1)) 0); [done|].
    destruct Hr as [-> |[-> |[-> | ->]]], Hk as [-> | ->]; done. }
  assert (fill_loop (Z.to_nat (trips cnt - 1)) 0 (rHL c1) (rA c1) (mem c1)
          = fill_loop (Z.to_nat (trips cnt)) 0 (rHL c) (rA c) (mem c)) as EL.
  { rewrite EHL, EM, EA. replace (Z.to_nat (trips cnt)) with (S (Z.to_nat (trips cnt - 1))) by lia.
    cbn [fill_loop]. by rewrite Z.add_0_r, (u16_id (rHL c)), <- fill_loop_shift. }
  destruct (dec_flags_facts (rF c) (u8 (cnt - 1)) (ok_rF c Hc) ltac:(in_range)) as [_ EC].
  unfold fill_done. fold cnt. rewrite Ec, Htn, EL, EI, EP, u64_absorb, EHL, u16_shift.
  destruct (Z.leb_spec 2 (trips cnt)) as [_|]; [|lia]. rewrite orb_true_r, (if_same (_ || _)).
  unfold loop_epilogue. rewrite !set_counter_F.
  change (rF (set_HL _ (set_mem _ c1))) with (rF c1). rewrite EF, EC.
  change (rF (set_HL _ (set_mem _ c))) with (rF c).
  subst c1. unfold fill_pass. fold cnt.
  destruct Hr as [-> |[-> |[-> | ->]]]; apply cpu_eq; reflexivity.
Qed.
End Absorb.

(** ** The folded loops of a translated block *)

(** The block at [pc0] in memory [m], its instructions from index [i] on. *)
Record block_tail (traps ports : bool) (m : memory) (pc0 : Z) (i : nat) (ops : list op_at) : Prop := {
  bt_mem : mem_ok m;
  bt_pc : is_word pc0;
  bt_scan : ∃ all end_, scan_block traps ports m pc0 = Some (all, end_) ∧ ops = skipn i all
}.

Lemma block_tail_spec traps ports m pc0 i ops :
  block_tail traps ports m pc0 i ops → ops ≠ [] →
  is_word (head_pc ops) ∧ chained (head_pc ops) ops ∧ accepted traps ports ops.
Proof.
  intros [Hm Hpc (all & e & Hs & ->)] Hne.
  destruct (scan_block_spec traps ports m Hm pc0 all e Hpc Hs) as (Hch & _ & Hacc & _).
  destruct (chained_skipn i pc0 all Hpc Hch Hne) as [H1 H2].
  split_and!; [done|done|by apply accepted_skipn].
Qed.

Lemma branch_not_trap traps ports br pa head cond :
  copyfill_branch br pa head = Some cond → can_translate traps ports br pa = true →
  is_jp_trap_target traps head = false.
Proof.
  unfold copyfill_branch. destruct (negb _); [done|]. intros Hb Hc. apply negb_true_iff. rewrite <- Hc.
  destruct (is_type Z80_OP_JP_CC_NN br) eqn:E1.
  - destruct (Z.eqb_spec (imm16 br) head) as [<-|]; [|done].
    apply is_type_eq in E1. unfold can_translate. by rewrite E1.
  - destruct (is_type Z80_OP_JR_CC_E br) eqn:E2; [|done].
    destruct (Z.eqb_spec (u16 (pa + disp br)) head) as [<-|]; [|done].
    apply is_type_eq in E2. unfold can_translate. by rewrite E2.
Qed.

Lemma accepted_nth traps ports ops n l o :
  accepted traps ports ops → firstn n ops = l → o ∈ l → can_translate traps ports o.1 o.2 = true.
Proof.
  intros Hacc <- Ho. apply (Forall_take _ n) in Hacc. rewrite Forall_forall in Hacc. by apply Hacc.
Qed.

Lemma branch_cond br pa head cond : copyfill_branch br pa head = Some cond → cond = 0 ∨ cond = 1.
Proof. unfold copyfill_branch. intros. repeat case_match; simplify_eq; auto. Qed.

(** A counted loop: [pass] decrements the counter and closes the loop while
    it is not zero; [fin] is its closed form. *)
Lemma run_counted `{HW : Host W} (code head exit : Z) (body : list op_at) (pass fin : z80_cpu → z80_cpu) :
  0 <= code <= 3 → exit ≠ head →
  (∀ c (w : W), cpu_ok c → rPC c = head → ∃ w', run_ops body (c, w) = (RC_OK, (pass c, w'))) →
  (∀ c, cpu_ok c → cpu_ok (pass c)) →
  (∀ c, let n := u8 (default 0 (counter_reg code c) - 1) in
        counter_reg code (pass c) = Some n ∧ rPC (pass c) = if n =? 0 then exit else head) →
  (∀ c, cpu_ok c → u8 (default 0 (counter_reg code c) - 1) = 0 → pass c = fin c) →
  (∀ c, cpu_ok c → u8 (default 0 (counter_reg code c) - 1) ≠ 0 → fin (pass c) = fin c) →
  ∀ c w, cpu_ok c → rPC c = head → ∃ w', run_loop 256 head body (c, w) = Some (fin c, w').
Proof.
  intros Hcode Hne Hrun Hok Hcnt Hlast Hnext c w Hc Hpc.
  set (cnt c := default 0 (counter_reg code c)) in *.
  assert (∀ c, cpu_ok c → is_byte (cnt c)) as Hb.
  { intros c' Hc'. eapply counter_byte; [exact Hc'|]. by apply counter_some. }
  apply (run_loop_closed (λ c, cpu_ok c ∧ rPC c = head) pass fin (λ c, u8 (cnt c - 1) =? 0)
           (λ c, trips (cnt c) - 1)).
  - intros c' w' [H1 H2]. by apply Hrun.
  - intros c' [H1 H2] E%Z.eqb_eq. destruct (Hcnt c') as [_ ->]. fold (cnt c').
    split; [by rewrite E|by apply Hlast].
  - intros c' [H1 H2] E%Z.eqb_neq. destruct (Hcnt c') as [E1 E2]. fold (cnt c') in E1, E2.
    destruct (Z.eqb_spec (u8 (cnt c' - 1)) 0) as [|_]; [done|].
    split_and!; [by apply Hok|done|done| | |by apply Hnext]; unfold cnt at 1; rewrite E1; cbn [default from_option id].
    + pose proof (trips_range _ (u8_byte (cnt c' - 1))). lia.
    + rewrite trips_next by auto. lia.
  - done.
  - pose proof (trips_range _ (Hb c Hc)). lia.
  - pose proof (trips_range _ (Hb c Hc)). lia.
Qed.

Lemma copy_facts ops o0 o1 o2 o3 o4 o5 dir cond :
  copy_shape ops o0 o1 o2 o3 o4 o5 dir cond → is_word (head_pc ops) → chained (head_pc ops) ops →
  0 <= reg1 o4.1 <= 1 ∧ (dir = 0 ∨ dir = 1) ∧ (cond = 0 ∨ cond = 1) ∧
  end_pc (head_pc ops) (firstn 6 ops) ≠ head_pc ops ∧ is_word (end_pc (head_pc ops) (firstn 6 ops)).
Proof.
  intros [Hops _ Hmove _ _ Hreg Hbr] Hw Hch. apply (chained_firstn 6) in Hch. split_and!; try done.
  - rewrite Hops in Hch. destruct o0, o1, o2, o3, o4. cbn [chained] in Hch.
    destruct Hch as (_&_&_&_&_&_&_&_&_&[]&_). cbn [fst]. lia.
  - destruct Hmove as [[-> _]|[-> _]]; [by left|by right].
  - by eapply branch_cond.
  - apply end_pc_ne; [done|done|]. rewrite Hops. cbn. lia.
  - rewrite end_pc_bytes by done. in_range.
Qed.

Lemma fill_facts ops o0 o1 o2 o3 cond :
  fill_shape ops o0 o1 o2 o3 cond → is_word (head_pc ops) → chained (head_pc ops) ops →
  0 <= reg1 o2.1 <= 3 ∧ (cond = 0 ∨ cond = 1) ∧
  end_pc (head_pc ops) (firstn 4 ops) ≠ head_pc ops ∧ is_word (end_pc (head_pc ops) (firstn 4 ops)).
Proof.
  intros [Hops _ _ _ _ Hreg Hbr] Hw Hch. apply (chained_firstn 4) in Hch. split_and!; try done.
  - rewrite Hops in Hch. destruct o0, o1, o2. cbn [chained] in Hch.
    destruct Hch as (_&_&_&_&_&[]&_). cbn [fst]. lia.
  - by eapply branch_cond.
  - apply end_pc_ne; [done|done|]. rewrite Hops. cbn. lia.
  - rewrite end_pc_bytes by done. in_range.
Qed.

Section Claims.
Context `{HW : Host W} (traps ports : bool) (Htraps : ∀ w : W, traps_enabled w = traps).

Lemma copy_loop_runs m pc0 i ops len spec c (w : W) d :
  block_tail traps ports m pc0 i ops → copyfill_kind ops = Some (len, spec, false) →
  cpu_ok c → rPC c = head_pc ops →
  ∃ s w', z80_jit_loop_copy spec (head_pc ops) (c, d) = Some s ∧
    run_loop 256 (head_pc ops) (firstn len ops) (c, w) =
      Some (after_loop (Z.of_nat len) (end_pc (head_pc ops) (firstn len ops)) s.1, w').
Proof using Htraps.
  intros Hbt Hkind Hc Hpc.
  destruct (copyfill_inv _ _ _ _ Hkind) as
    [(_ & -> & o0 & o1 & o2 & o3 & o4 & o5 & dir & cond & Hsh & ->)|(Hf & _)]; [|done].
  destruct (block_tail_spec _ _ _ _ _ _ Hbt) as (Hw & Hch & Hacc); [by intros ->|].
  destruct (copy_facts _ _ _ _ _ _ _ _ _ Hsh Hw Hch) as (Hreg & Hd & Hk & Hne & Hexit).
  assert (is_jp_trap_target traps (head_pc ops) = false) as Ht.
  { destruct Hsh as [Hops _ _ _ _ _ Hbr]. eapply branch_not_trap; [exact Hbr|].
    eapply accepted_nth; [exact Hacc|exact Hops|]. do 5 apply list_elem_of_further. apply list_elem_of_here. }
  destruct (loop_copy_done (reg1 o4.1) dir cond (head_pc ops) (end_pc (head_pc ops) (firstn 6 ops)) c d)
    as (s & Es & Ed); [lia|done|done|].
  exists s. change (Z.of_nat 6) with 6. rewrite Ed.
  destruct (run_counted (reg1 o4.1) (head_pc ops) (end_pc (head_pc ops) (firstn 6 ops)) (firstn 6 ops)
    (copy_pass dir cond (reg1 o4.1) (head_pc ops) (end_pc (head_pc ops) (firstn 6 ops)))
    (copy_done dir cond (reg1 o4.1) (head_pc ops) (end_pc (head_pc ops) (firstn 6 ops))))
    with (c := c) (w := w) as [w' Hrun]; try done; [lia|..].
  - intros. by eapply copy_body.
  - intros. by apply copy_pass_ok.
  - intros c'. cbv zeta. unfold copy_pass. split; [|done].
    assert (reg1 o4.1 = 0 ∨ reg1 o4.1 = 1) as [-> | ->] by lia; done.
  - intros. by apply copy_pass_last.
  - intros. by apply copy_done_next.
  - by exists w'.
Qed.

Lemma fill_loop_runs m pc0 i ops len spec c (w : W) d :
  block_tail traps ports m pc0 i ops → copyfill_kind ops = Some (len, spec, true) →
  cpu_ok c → rPC c = head_pc ops →
  ∃ s w', z80_jit_loop_fill spec (head_pc ops) (c, d) = Some s ∧
    run_loop 256 (head_pc ops) (firstn len ops) (c, w) =
      Some (after_loop (Z.of_nat len) (end_pc (head_pc ops) (firstn len ops)) s.1, w').
Proof using Htraps.
  intros Hbt Hkind Hc Hpc.
  destruct (copyfill_inv _ _ _ _ Hkind) as
    [(Hf & _)|(_ & -> & o0 & o1 & o2 & o3 & cond & Hsh & ->)]; [done|].
  destruct (block_tail_spec _ _ _ _ _ _ Hbt) as (Hw & Hch & Hacc); [by intros ->|].
  destruct (fill_facts _ _ _ _ _ _ Hsh Hw Hch) as (Hreg & Hk & Hne & Hexit).
  assert (is_jp_trap_target traps (head_pc ops) = false) as Ht.
  { destruct Hsh as [Hops _ _ _ _ _ Hbr]. eapply branch_not_trap; [exact Hbr|].
    eapply accepted_nth; [exact Hacc|exact Hops|]. do 3 apply list_elem_of_further. apply list_elem_of_here. }
  destruct (loop_fill_done (reg1 o2.1) cond (head_pc ops) (end_pc (head_pc ops) (firstn 4 ops)) c d)
    as (s & Es & Ed); [lia|done|].
  exists s. change (Z.of_nat 4) with 4. rewrite Ed.
  destruct (run_counted (reg1 o2.1) (head_pc ops) (end_pc (head_pc ops) (firstn 4 ops)) (firstn 4 ops)
    (fill_pass cond (reg1 o2.1) (head_pc ops) (end_pc (head_pc ops) (firstn 4 ops)))
    (fill_done cond (reg1 o2.1) (head_pc ops) (end_pc (head_pc ops) (firstn 4 ops))))
    with (c := c) (w := w) as [w' Hrun]; try done.
  - intros. by eapply fill_body.
  - intros. by apply fill_pass_ok.
  - intros c'. cbv zeta. unfold fill_pass. split; [|done].
    assert (reg1 o2.1 = 0 ∨ reg1 o2.1 = 1 ∨ reg1 o2.1 = 2 ∨ reg1 o2.1 = 3) as [-> |[-> |[-> | ->]]] by lia; done.
  - intros. by apply fill_pass_last.
  - intros. by apply fill_done_next.
  - by exists w'.
Qed.
End Claims.

(** ** The sweep behind a helper *)

Lemma copy_loop_other n i src dst last m b :
  (∀ j, i <= j < i + Z.of_nat n → u16 (dst + j) ≠ b) →
  mget (copy_loop n i 1 src dst last m).2 b = mget m b.
Proof.
  revert i last m. induction n as [|n IH]; intros i last m Hb; [done|]. cbn [copy_loop].
  rewrite IH by (intros; apply Hb; lia). apply mget_mset_ne.
  replace (dst + 1 * i) with (dst + i) by lia. apply Hb. lia.
Qed.

Lemma fill_loop_other n i dst v m b :
  (∀ j, i <= j < i + Z.of_nat n → u16 (dst + j) ≠ b) → mget (fill_loop n i dst v m) b = mget m b.
Proof.
  revert i m. induction n as [|n IH]; intros i m Hb; [done|]. cbn [fill_loop].
  rewrite IH by (intros; apply Hb; lia). apply mget_mset_ne, Hb. lia.
Qed.

(** After a helper ran from memory [m] to [s], the translator's state keeps
    its invariant and no live block covers a byte that changed. *)
Definition swept (m : memory) (d : option z80_dbt) (s : mach (option z80_dbt)) : Prop :=
  ∀ d0, d = Some d0 → smc_ok d0 →
  ∃ d', s.2 = Some d' ∧ smc_ok d' ∧
  ∀ pc a, is_word pc → live d' pc → covers d' pc a → mget (mem s.1) a = mget m a.

Lemma swept_range m d lo len (s : mach (option z80_dbt)) :
  0 <= len → s.2 = sweep_after lo len d →
  (∀ b, (∀ j, 0 <= j < len → u16 (lo + j) ≠ b) → mget (mem s.1) b = mget m b) → swept m d s.
Proof.
  intros Hlen Hs Hm d0 -> Hok. destruct (sweep_spec lo len d0 Hok Hlen) as [Hsh Hnc].
  exists (smc_sweep_forward lo len d0). split_and!; [done|by apply (shrinks_ok d0)|].
  intros pc a Hpc Hl Ha. apply Hm. intros j Hj <-. by apply (Hnc pc j).
Qed.

Lemma epilogue_mem code c : mem (loop_epilogue code c) = mem c.
Proof. unfold loop_epilogue, set_counter. by repeat case_match. Qed.

Lemma loop_copy_swept spec head c d s :
  z80_jit_loop_copy spec head (c, d) = Some s → cpu_ok c → swept (mem c) d s.
Proof.
  unfold z80_jit_loop_copy. cbn [fst snd]. destruct (counter_reg _ c) as [cnt|] eqn:Ec; [|done].
  intros Hs Hc. pose proof (trips_range cnt (counter_byte _ _ _ Hc Ec)) as Htr.
  unfold trips in Htr. set (n := if cnt =? 0 then 256 else cnt) in *.
  pose proof (copy_loop_other (Z.to_nat n) 0 (if nz ((spec >>' 8) &' 1) then rDE c else rHL c)
    (if nz ((spec >>' 8) &' 1) then rHL c else rDE c) (rA c) (mem c)) as Ho.
  destruct (copy_loop _ _ _ _ _ _ _) as [last m'] eqn:El. injection Hs as <-. cbn [snd] in Ho.
  eapply swept_range; [|reflexivity|]; [lia|]. intros b Hnb. cbn [fst].
  match goal with |- context [set_memptr _ (loop_epilogue ?k ?x)] =>
    change (mem (set_memptr _ (loop_epilogue k x))) with (mem (loop_epilogue k x)) end.
  rewrite epilogue_mem. apply Ho. intros j Hj. apply Hnb. lia.
Qed.

Lemma loop_fill_swept spec head c d s :
  z80_jit_loop_fill spec head (c, d) = Some s → cpu_ok c → swept (mem c) d s.
Proof.
  unfold z80_jit_loop_fill. cbn [fst snd]. destruct (counter_reg _ c) as [cnt|] eqn:Ec; [|done].
  intros [= <-] Hc. pose proof (trips_range cnt (counter_byte _ _ _ Hc Ec)) as Htr.
  unfold trips in Htr. set (n := if cnt =? 0 then 256 else cnt) in *.
  eapply swept_range; [|reflexivity|]; [lia|]. intros b Hnb. cbn [fst].
  transitivity (mget (fill_loop (Z.to_nat n) 0 (rHL c) (rA c) (mem c)) b).
  - f_equal. destruct (_ || _); [|by rewrite epilogue_mem].
    match goal with |- context [set_memptr _ (loop_epilogue ?k ?x)] =>
      change (mem (set_memptr _ (loop_epilogue k x))) with (mem (loop_epilogue k x)) end.
    by rewrite epilogue_mem.
  - apply fill_loop_other. intros j Hj. apply Hnb. lia.
Qed.

(** C8: the folded copy loop is the loop.  Take any block the translator
    scans and any place in it where [copyfill_kind] finds a copy loop (either
    direction, either increment order, JP or JR, counter B or C).  Running
    the matched instructions from their head by the interpreter leaves the
    loop within 256 trips, in exactly the context [z80_jit_loop_copy] computes
    in one go plus the block's own count of the body: registers, memory
    (overlapping ranges included), F, MEMPTR, Q, instruction count, PC after
    the loop.  The instructions are those decoded when the block was scanned.
    Where every live block's bytes are marked ([smc_ok]: none wraps), the
    helper's sweep leaves no live block over a changed byte. *)
Theorem fold_copy_correct `{HW : Host W} traps ports m pc0 i ops len spec c (w : W) d :
  (∀ w : W, traps_enabled w = traps) → block_tail traps ports m pc0 i ops →
  copyfill_kind ops = Some (len, spec, false) → cpu_ok c → rPC c = head_pc ops →
  ∃ s w', z80_jit_loop_copy spec (head_pc ops) (c, d) = Some s ∧
    run_loop 256 (head_pc ops) (firstn len ops) (c, w) =
      Some (after_loop (Z.of_nat len) (end_pc (head_pc ops) (firstn len ops)) s.1, w') ∧
    swept (mem c) d s.
Proof.
  intros Htraps Hbt Hk Hc Hpc.
  destruct (copy_loop_runs traps ports Htraps m pc0 i ops len spec c w d Hbt Hk Hc Hpc) as (s & w' & Es & Er).
  exists s, w'. split_and!; [done|done|by eapply loop_copy_swept].
Qed.

Example fold_copy_correct_witness :
  (* LD A,(HL); LD (DE),A; INC HL; INC DE; DEC B; JP NZ,0100; RET *)
  let m := mset_list 0x200 [0x41; 0x42] (mset_list 0x100 [0x7E; 0x12; 0x23; 0x13; 0x05; 0xC2; 0x00; 0x01; 0xC9] ∅) in
  let c := set_rPC 0x100 (set_rB 2 (set_HL 0x200 (set_DE 0x300 (set_mem m z80_cpu_init)))) in
  let ops := ops_of false false m 0x100 in
  ∃ s w', z80_jit_loop_copy 0 0x100 (c, None) = Some s ∧
    run_loop 256 0x100 (firstn 6 ops) (c, tt) = Some (after_loop 6 0x108 s.1, w') ∧
    mget (mem s.1) 0x301 = 0x42.
Proof.
  intros m c ops.
  destruct (fold_copy_correct false false m 0x100 0 ops 6 0 c tt None) as (s & w' & Es & Er & _).
  - done.
  - constructor; [in_range|in_range|]. eexists _, _. split; [vm_compute; reflexivity|]. by vm_compute.
  - by vm_compute.
  - apply ok_set_rPC; [|in_range]. apply ok_set_rB; [|in_range]. apply ok_set_HL; [|in_range].
    apply ok_set_DE; [|in_range]. apply ok_set_mem; [apply z80_cpu_init_ok|in_range].
  - by vm_compute.
  - exists s, w'. split_and!; [exact Es|exact Er|].
    assert (Some s = z80_jit_loop_copy 0 0x100 (c, None)) as [= ->] by done. by vm_compute.
Defined.

(** C9: the folded fill loop is the loop.  As [fold_copy_correct], for
    LD (HL),A; INC HL; DEC r; JP/JR NZ with any of the counters B, C, D, E:
    the interpreter leaves the matched instructions within 256 trips in the
    context of [z80_jit_loop_fill], MEMPTR included (set by the JR form only
    when the branch was ever taken), and the sweep is complete
    where every live block's bytes are marked. *)
Theorem fold_fill_correct `{HW : Host W} traps ports m pc0 i ops len spec c (w : W) d :
  (∀ w : W, traps_enabled w = traps) → block_tail traps ports m pc0 i ops →
  copyfill_kind ops = Some (len, spec, true) → cpu_ok c → rPC c = head_pc ops →
  ∃ s w', z80_jit_loop_fill spec (head_pc ops) (c, d) = Some s ∧
    run_loop 256 (head_pc ops) (firstn len ops) (c, w) =
      Some (after_loop (Z.of_nat len) (end_pc (head_pc ops) (firstn len ops)) s.1, w') ∧
    swept (mem c) d s.
Proof.
  intros Htraps Hbt Hk Hc Hpc.
  destruct (fill_loop_runs traps ports Htraps m pc0 i ops len spec c w d Hbt Hk Hc Hpc) as (s & w' & Es & Er).
  exists s, w'. split_and!; [done|done|by eapply loop_fill_swept].
Qed.

Example fold_fill_correct_witness :
  (* LD (HL),A; INC HL; DEC E; JR NZ,0100; RET *)
  let m := mset_list 0x100 [0x77; 0x23; 0x1D; 0x20; 0xFB; 0xC9] ∅ in
  let c := set_rPC 0x100 (set_rE 3 (set_HL 0x200 (set_rA 0x5A (set_mem m z80_cpu_init)))) in
  let ops := ops_of false false m 0x100 in
  ∃ s w', z80_jit_loop_fill 0x203 0x100 (c, None) = Some s ∧
    run_loop 256 0x100 (firstn 4 ops) (c, tt) = Some (after_loop 4 0x105 s.1, w').
Proof.
  intros m c ops.
  destruct (fold_fill_correct false false m 0x100 0 ops 4 0x203 c tt None) as (s & w' & Es & Er & _).
  - done.
  - constructor; [in_range|in_range|]. eexists _, _. split; [vm_compute; reflexivity|]. by vm_compute.
  - by vm_compute.
  - apply ok_set_rPC; [|in_range]. apply ok_set_rE; [|in_range]. apply ok_set_HL; [|in_range].
    apply ok_set_rA; [|in_range]. apply ok_set_mem; [apply z80_cpu_init_ok|in_range].
  - by vm_compute.
  - exists s, w'. by split.
Defined.
