(* ===== verification/FilterOk.v ===== *)
(** * FilterOk: the filtered-copy loop in closed form

    The twelve-instruction scan loop [filtercopy_kind] recognises, run by
    the interpreter, against [z80_jit_loop_filtercopy]: its three exits, the
    flags each leaves, and that the helper's unbounded loop ends. *)

From Stdlib Require Import ZArith Lia Bool List.
From stdpp Require Import base gmap list.
From S2P Require Import Prelude Cpu Decode Interp InterpOk BlockCache JitFlags JitFlagsOk.
From S2P Require Import Translate Block Scan FoldOk.

Open Scope Z_scope.
Open Scope z80_scope.

(** ** Flags and immediates *)

Lemma cp_flags_facts a b :
  is_byte a → is_byte b →
  nz (cp_flags a b (u8 (a - b)) &' FLAG_C) = (a <? b) ∧
  nz (cp_flags a b (u8 (a - b)) &' FLAG_Z) = (a =? b) ∧
  cp_flags a b (u8 (a - b)) &' FLAG_C = flag_if (a <? b) FLAG_C.
Proof.
  intros Ha Hb.
  pose proof (forall_bytes2 (λ a b, let f := cp_flags a b (u8 (a - b)) in
    Bool.eqb (nz (f &' FLAG_C)) (a <? b) && Bool.eqb (nz (f &' FLAG_Z)) (a =? b)
    && (f &' FLAG_C =? flag_if (a <? b) FLAG_C)) ltac:(by vm_compute) a b Ha Hb) as E.
  cbv beta zeta in E. apply andb_true_iff in E as [[E1 E2]%andb_true_iff E3].
  split_and!; [by apply Bool.eqb_prop|by apply Bool.eqb_prop|by apply Z.eqb_eq].
Qed.

Lemma inc_flags_C f v : is_byte f → is_byte v → inc_flags f v &' FLAG_C = f &' FLAG_C.
Proof.
  intros Hf Hv. apply Z.eqb_eq.
  exact (forall_bytes2 (λ f v, inc_flags f v &' FLAG_C =? f &' FLAG_C) ltac:(by vm_compute) f v Hf Hv).
Qed.

(** The three immediates packed in [spec]. *)
Lemma filter_spec_fields m lo sen :
  is_byte m → is_byte lo → is_byte sen →
  let spec := m |' (lo <<' 8) |' (sen <<' 16) in
  u8 spec = m ∧ u8 (spec >>' 8) = lo ∧ u8 (spec >>' 16) = sen.
Proof.
  intros Hm Hl Hs spec. unfold is_byte in *. assert (spec = m + 256 * lo + 65536 * sen) as ->.
  { subst spec. rewrite (lor_shift_add 8 m lo), (lor_shift_add 16) by lia. lia. }
  rewrite !Z.shiftr_div_pow2 by lia. change (2 ^ 8) with 256. change (2 ^ 16) with 65536. unfold u8.
  split_and!; Z.div_mod_to_equations; lia.
Qed.

(** ** What a match says *)

Record filter_shape (ops : list op_at) (head exit : Z) (d0 d1 d2 d3 d4 d5 d6 d7 d8 d9 d10 d11 : z80_decoded)
    (p0 p1 p2 p3 p4 p5 p6 p7 p8 p9 p10 p11 : Z) : Prop := {
  fc_ops : firstn 12 ops = [(d0, p0); (d1, p1); (d2, p2); (d3, p3); (d4, p4); (d5, p5); (d6, p6); (d7, p7);
                            (d8, p8); (d9, p9); (d10, p10); (d11, p11)];
  fc_idx : has_idx d6 = false ∧ has_idx d7 = false ∧ has_idx d9 = false;
  fc_exit : p11 = exit;
  fc_0 : is_type Z80_OP_LD_A_DE d0 = true;
  fc_1 : is_type Z80_OP_AND_A_N d1 = true;
  fc_2 : is_type Z80_OP_CP_A_N d2 = true;
  fc_3 : is_jp_cc 3 exit d3 = true;
  fc_4 : is_type Z80_OP_CP_A_N d4 = true;
  fc_5 : is_jp_cc 1 exit d5 = true;
  fc_6 : is_ld 6 7 d6 = true;
  fc_7 : is_inc_rr 2 d7 = true;
  fc_8 : is_inc_rr 1 d8 = true;
  fc_9 : is_type Z80_OP_INC_R d9 = true ∧ reg1 d9 = 0;
  fc_10 : is_type Z80_OP_DEC_R d10 = true ∧ reg1 d10 = 1;
  fc_11 : is_jp_cc 0 head d11 = true
}.

Lemma len12 {A} (l : list A) :
  (length l <? 12)%nat = false →
  ∃ a0 a1 a2 a3 a4 a5 a6 a7 a8 a9 a10 a11 r,
    l = a0 :: a1 :: a2 :: a3 :: a4 :: a5 :: a6 :: a7 :: a8 :: a9 :: a10 :: a11 :: r.
Proof.
  intros Hl%Nat.ltb_ge. do 12 (destruct l as [|? l]; [cbn in Hl; lia|]).
  by eexists _, _, _, _, _, _, _, _, _, _, _, _, _.
Qed.

Lemma filtercopy_inv ops spec :
  filtercopy_kind ops = Some spec →
  ∃ d0 d1 d2 d3 d4 d5 d6 d7 d8 d9 d10 d11 p0 p1 p2 p3 p4 p5 p6 p7 p8 p9 p10 p11,
    filter_shape ops (head_pc ops) (pc_nth ops 11) d0 d1 d2 d3 d4 d5 d6 d7 d8 d9 d10 d11
      p0 p1 p2 p3 p4 p5 p6 p7 p8 p9 p10 p11 ∧
    spec = imm8 d1 |' (imm8 d2 <<' 8) |' (imm8 d4 <<' 16).
Proof.
  unfold filtercopy_kind. destruct (length ops <? 12)%nat eqn:Hl; [done|].
  destruct (existsb _ _) eqn:Hidx; [done|]. apply firstn_idx in Hidx.
  destruct (len12 ops Hl) as ([d0 p0] & [d1 p1] & [d2 p2] & [d3 p3] & [d4 p4] & [d5 p5] & [d6 p6] & [d7 p7]
    & [d8 p8] & [d9 p9] & [d10 p10] & [d11 p11] & r & ->).
  destruct (_ && _) eqn:E; [|done]. intros [= <-].
  exists d0, d1, d2, d3, d4, d5, d6, d7, d8, d9, d10, d11, p0, p1, p2, p3, p4, p5, p6, p7, p8, p9, p10, p11.
  split; [|done]. cbn [firstn] in Hidx. rewrite !Forall_cons in Hidx.
  destruct Hidx as (_&_&_&_&_&_&H6&H7&_&H9&_).
  repeat (apply andb_true_iff in E as [E ?]).
  constructor; try done;
    match goal with
    | H : is_type ?t ?d && (reg1 ?d =? _) = true |- is_type ?t ?d = true ∧ _ =>
        by apply andb_true_iff in H as [? ?%Z.eqb_eq]
    end.
Qed.

Section Filter.
Context `{HW : Host W} (traps : bool) (Htraps : ∀ w : W, traps_enabled w = traps).

(** One trip: 4 instructions to the first exit, 6 to the second, all 12
    when the byte is stored. *)
Definition filter_pass (m lo sen head exit : Z) (c : z80_cpu) : z80_cpu :=
  let a := mget (mem c) (rDE c) &' m in
  let leave k mp pc f c' :=
    set_memptr mp (set_rPC pc (set_rQ 0 (set_insn_count (u64 (insn_count c + k)) (set_rF f c')))) in
  if a <? lo then leave 4 exit exit (cp_flags a lo (u8 (a - lo))) (set_rA a c)
  else if a =? sen then leave 6 exit exit (cp_flags a sen (u8 (a - sen))) (set_rA a c)
  else
    let b := u8 (rB c + 1) in
    let n := u8 (rC c - 1) in
    leave 12 head (if n =? 0 then exit else head)
      (dec_flags (inc_flags (cp_flags a sen (u8 (a - sen))) b) n)
      (set_rC n (set_rB b (set_DE (u16 (rDE c + 1)) (set_HL (u16 (rHL c + 1))
        (set_mem (mset (rHL c) a (mem c)) (set_rA a c)))))).

(** The conditional jump to [target] on a state with PC [pc]. *)
Lemma step_is_jp k target d c (w : W) :
  is_jp_cc k target d = true → is_jp_trap_target traps target = false →
  step_dec d (c, w) =
    (RC_OK, (bump_insn (set_rPC (if cond_true k c then target else next_pc d c)
               (set_memptr target (advance d c))), w)).
Proof using Htraps.
  unfold is_jp_cc. intros [[Ht Hcc%Z.eqb_eq]%andb_true_iff Hi%Z.eqb_eq]%andb_true_iff Htrap.
  rewrite <- Hi in Htrap |- *. rewrite <- Hcc. by apply (step_jp_cc traps).
Qed.

Lemma step_inc_b' d c (w : W) :
  is_type Z80_OP_INC_R d = true ∧ reg1 d = 0 →
  step_dec d (c, w) =
    (RC_OK, (bump_insn (with_f (inc_flags (rF c) (u8 (rB c + 1))) (set_rB (u8 (rB c + 1)) (advance d c))), w)).
Proof using Type. intros [? ?]. by apply step_inc_b. Qed.

Lemma step_dec_c d c (w : W) :
  is_type Z80_OP_DEC_R d = true ∧ reg1 d = 1 →
  step_dec d (c, w) =
    (RC_OK, (bump_insn (with_f (dec_flags (rF c) (u8 (rC c - 1))) (set_rC (u8 (rC c - 1)) (advance d c))), w)).
Proof using Type. intros [? ?]. by apply (step_dec_r d c w 1). Qed.

(** The context after the two tests let byte [a] through, with PC [pc]. *)
Definition filter_tested (sen pc exit a : Z) (c : z80_cpu) : z80_cpu :=
  set_memptr exit (set_rPC pc (set_rQ 0 (set_insn_count (u64 (insn_count c + 6))
    (set_rF (cp_flags a sen (u8 (a - sen))) (set_rA a c))))).

(** The context after the six instructions that store it. *)
Definition filter_stored (head exit : Z) (c : z80_cpu) : z80_cpu :=
  let b := u8 (rB c + 1) in
  let n := u8 (rC c - 1) in
  set_memptr head (set_rPC (if n =? 0 then exit else head) (set_rQ 0
    (set_insn_count (u64 (insn_count c + 6)) (set_rF (dec_flags (inc_flags (rF c) b) n)
      (set_rC n (set_rB b (set_DE (u16 (rDE c + 1)) (set_HL (u16 (rHL c + 1))
        (set_mem (mset (rHL c) (rA c) (mem c)) c))))))))).

Ltac jump_flag k Hj Ht Hf E :=
  match goal with |- run_ops ((?d, _) :: _) (?c', ?w') = _ =>
    pose proof (step_is_jp k _ d c' w' Hj Ht) as E;
    match type of Hf with ?z = _ => change (cond_true k c') with z in E; rewrite Hf in E end end.
Ltac same_ctx count :=
  apply (f_equal (pair RC_OK)); apply (f_equal2 pair); [|reflexivity];
  apply cpu_eq_pc_count; [reflexivity|reflexivity|exact count].

Section Tests.
Context (d0 d1 d2 d3 d4 d5 : z80_decoded) (p0 p1 p2 p3 p4 p5 exit : Z) (rest : list op_at).
Context (c : z80_cpu) (w : W) (Hc : cpu_ok c).
Context (H0 : is_type Z80_OP_LD_A_DE d0 = true) (H1 : is_type Z80_OP_AND_A_N d1 = true)
  (H2 : is_type Z80_OP_CP_A_N d2 = true) (H3 : is_jp_cc 3 exit d3 = true)
  (H4 : is_type Z80_OP_CP_A_N d4 = true) (H5 : is_jp_cc 1 exit d5 = true)
  (Ht : is_jp_trap_target traps exit = false)
  (Hlo : is_byte (imm8 d2)) (Hsen : is_byte (imm8 d4)) (Hne3 : exit ≠ p3) (Hne5 : exit ≠ p5).
Context (E0 : p0 = u16 (rPC c + nbytes d0)) (E1 : p1 = u16 (p0 + nbytes d1)) (E2 : p2 = u16 (p1 + nbytes d2))
  (E3 : p3 = u16 (p2 + nbytes d3)) (E4 : p4 = u16 (p3 + nbytes d4)) (E5 : p5 = u16 (p4 + nbytes d5)).

Lemma filter_tests :
  let a := mget (mem c) (rDE c) &' imm8 d1 in
  run_ops ((d0, p0) :: (d1, p1) :: (d2, p2) :: (d3, p3) :: (d4, p4) :: (d5, p5) :: rest) (c, w) =
  if (a <? imm8 d2) || (a =? imm8 d4)
  then (RC_OK, (filter_pass (imm8 d1) (imm8 d2) (imm8 d4) exit exit c, w))
  else run_ops rest (filter_tested (imm8 d4) p5 exit a c, w).
Proof using Hc H0 H1 H2 H3 H4 H5 Ht Hlo Hsen Hne3 Hne5 E0 E1 E2 E3 E4 E5 Htraps.
  intros a. assert (is_byte a) as Ha by in_range.
  destruct (cp_flags_facts a (imm8 d2) Ha Hlo) as (HC & _ & _).
  destruct (cp_flags_facts a (imm8 d4) Ha Hsen) as (_ & HZ & _).
  subst p5 p4 p3 p2 p1 p0. unfold filter_pass. fold a.
  next_op step_ld_a_de. next_op step_and_n. next_op step_cp_n. jump_flag 3 H3 Ht HC E.
  destruct (a <? imm8 d2); cbn [orb].
  { etransitivity; [eapply run_ops_leave; [exact E|exact Hne3]|]. same_ctx (u64_4 (insn_count c)). }
  etransitivity; [eapply run_ops_cons; [exact E|reflexivity]|]. clear E.
  next_op step_cp_n. jump_flag 1 H5 Ht HZ E.
  destruct (a =? imm8 d4).
  { etransitivity; [eapply run_ops_leave; [exact E|exact Hne5]|]. same_ctx (u64_6 (insn_count c)). }
  etransitivity; [eapply run_ops_cons; [exact E|reflexivity]|]. clear E.
  apply f_equal. apply (f_equal2 pair); [|reflexivity].
  apply cpu_eq_pc_count; [reflexivity|reflexivity|exact (u64_6 (insn_count c))].
Qed.
End Tests.

Section Store.
Context (d6 d7 d8 d9 d10 d11 : z80_decoded) (p6 p7 p8 p9 p10 head exit : Z).
Context (c : z80_cpu) (w : W) (Hc : cpu_ok c).
Context (H6 : is_ld 6 7 d6 = true) (H7 : is_inc_rr 2 d7 = true) (H8 : is_inc_rr 1 d8 = true)
  (H9 : is_type Z80_OP_INC_R d9 = true ∧ reg1 d9 = 0) (H10 : is_type Z80_OP_DEC_R d10 = true ∧ reg1 d10 = 1)
  (H11 : is_jp_cc 0 head d11 = true) (Hi6 : has_idx d6 = false) (Hi7 : has_idx d7 = false)
  (Ht : is_jp_trap_target traps head = false).
Context (E6 : p6 = u16 (rPC c + nbytes d6)) (E7 : p7 = u16 (p6 + nbytes d7)) (E8 : p8 = u16 (p7 + nbytes d8))
  (E9 : p9 = u16 (p8 + nbytes d9)) (E10 : p10 = u16 (p9 + nbytes d10)) (E11 : exit = u16 (p10 + nbytes d11)).

Lemma filter_store :
  run_ops [(d6, p6); (d7, p7); (d8, p8); (d9, p9); (d10, p10); (d11, exit)] (c, w) =
  (RC_OK, (filter_stored head exit c, smc_store (rHL c) w)).
Proof using Hc H6 H7 H8 H9 H10 H11 Hi6 Hi7 Ht E6 E7 E8 E9 E10 E11 Htraps.
  pose proof (ok_rHL c Hc) as HHL. pose proof (ok_rF c Hc) as HF. subst exit p10 p9 p8 p7 p6.
  next_op step_ld_hl_a. next_op step_inc_hl. next_op step_inc_de. next_op step_inc_b'. next_op step_dec_c.
  destruct (dec_flags_facts (inc_flags (rF c) (u8 (rB c + 1))) (u8 (rC c - 1)) ltac:(in_range) ltac:(in_range))
    as [HZn _].
  apply (f_equal negb) in HZn. jump_flag 0 H11 Ht HZn E.
  etransitivity; [eapply run_ops_last; exact E|]. clear E. unfold filter_stored. cbv zeta.
  destruct (u8 (rC c - 1) =? 0); same_ctx (u64_6 (insn_count c)).
Qed.
End Store.

Lemma filter_tested_ok sen pc exit a c :
  cpu_ok c → is_byte a → is_word pc → is_word exit → cpu_ok (filter_tested sen pc exit a c).
Proof using Type. intros. unfold filter_tested. ok_chain. done. Qed.

Lemma filter_body ops head exit d0 d1 d2 d3 d4 d5 d6 d7 d8 d9 d10 d11
    p0 p1 p2 p3 p4 p5 p6 p7 p8 p9 p10 p11 c (w : W) :
  filter_shape ops head exit d0 d1 d2 d3 d4 d5 d6 d7 d8 d9 d10 d11 p0 p1 p2 p3 p4 p5 p6 p7 p8 p9 p10 p11 →
  chained head ops → is_word head → is_jp_trap_target traps head = false →
  is_jp_trap_target traps exit = false → cpu_ok c → rPC c = head →
  ∃ w', run_ops (firstn 12 ops) (c, w) =
    (RC_OK, (filter_pass (imm8 d1) (imm8 d2) (imm8 d4) head exit c, w')).
Proof using Htraps.
  intros [Hops (Hi6 & Hi7 & Hi9) <- H0 H1 H2 H3 H4 H5 H6 H7 H8 H9 H10 H11] Hch Hhead Ht Hte Hc Hpc.
  apply (chained_firstn 12) in Hch. rewrite Hops in *. clear Hops.
  cbn [chained] in Hch.
  destruct Hch as (E0 & _ & E1 & _ & E2 & K2 & E3 & _ & E4 & K4 & E5 & K5 & E6 & K6 & E7 & K7
    & E8 & K8 & E9 & K9 & E10 & K10 & E11 & K11 & _).
  assert (p11 ≠ p3 ∧ p11 ≠ p5) as [Hne3 Hne5].
  { split; [apply (end_pc_ne p3 [(d4, p4); (d5, p5); (d6, p6); (d7, p7); (d8, p8); (d9, p9); (d10, p10); (d11, p11)])
      |apply (end_pc_ne p5 [(d6, p6); (d7, p7); (d8, p8); (d9, p9); (d10, p10); (d11, p11)])];
      [rewrite E3; in_range|cbn [chained]; tauto|cbn; lia|rewrite E5; in_range|cbn [chained]; tauto|cbn; lia]. }
  pose proof (ok_imm8 _ _ K2) as Hlo. pose proof (ok_imm8 _ _ K4) as Hsen.
  assert (is_word p5 ∧ is_word p11) as [Hw5 Hw11] by (rewrite E5, E11; split; in_range).
  rewrite <- Hpc in E0.
  rewrite (filter_tests d0 d1 d2 d3 d4 d5 p0 p1 p2 p3 p4 p5 p11) by done.
  unfold filter_pass. set (a := mget (mem c) (rDE c) &' imm8 d1).
  assert (is_byte a) as Ha by in_range.
  destruct (a <? imm8 d2); cbn [orb]; [by eexists|]. destruct (a =? imm8 d4); [by eexists|].
  rewrite (filter_store d6 d7 d8 d9 d10 d11 p6 p7 p8 p9 p10 head) by
    first [assumption|exact E6|by apply filter_tested_ok].
  eexists. apply (f_equal (pair RC_OK)); apply (f_equal2 pair); [|reflexivity].
  unfold filter_stored. apply cpu_eq_pc_count; [reflexivity|reflexivity|exact (u64_add2 (insn_count c) 6 6)].
Qed.
End Filter.

(** ** The loop *)

(** What [z80_jit_loop_filtercopy] makes of the loop's final state, the
    block's own count added: [n0] is the count the loop started from. *)
Definition filter_fin (lo sen head exit n0 : Z) (r : filter_exit * filter_state) (c : z80_cpu) : z80_cpu :=
  let '(ex, mk_filter hl de b cc a n mm) := r in
  let c' := set_rA a (set_rC cc (set_rB b (set_DE de (set_HL hl (set_mem mm c))))) in
  let c' :=
    match ex with
    | EXIT_LOW => set_memptr exit (z80_jit_cp lo c')
    | EXIT_SENTINEL => set_memptr exit (z80_jit_cp sen c')
    | EXIT_COUNT =>
        set_memptr head (set_rF (u8 (flag_if (a <? sen) FLAG_C |' table_at z80_f_tables (FT_DEC + 0))) c')
    end in
  set_rPC exit (set_insn_count (u64 (insn_count c + (n - n0))) (set_rQ 0 c')).

Definition filter_start (n : Z) (c : z80_cpu) : filter_state :=
  mk_filter (rHL c) (rDE c) (rB c) (rC c) (rA c) n (mem c).

Lemma filter_regs_id c :
  cpu_ok c → set_rC (rC c) (set_rB (rB c) (set_DE (rDE c) (set_HL (rHL c) (set_mem (mem c) c)))) = c.
Proof.
  intros Hc. change (set_mem (mem c) c) with c. rewrite (set_HL_id c Hc).
  rewrite (set_DE_id c Hc). reflexivity.
Qed.

Lemma filter_pass_ok m lo sen head exit c :
  cpu_ok c → is_byte m → is_byte lo → is_byte sen → is_word head → is_word exit →
  cpu_ok (filter_pass m lo sen head exit c).
Proof.
  intros. unfold filter_pass. cbv zeta. destruct (_ <? lo); [ok_chain; done|].
  destruct (_ =? sen); [ok_chain; done|]. ok_chain.
  apply ok_set_rC; [|in_range]. apply ok_set_rB; [|in_range]. ok_chain. done.
Qed.

Section Loop.
Context (m lo sen head exit : Z) (Hm : is_byte m) (Hlo : is_byte lo) (Hsen : is_byte sen)
  (Hhead : is_word head) (Hexit : is_word exit).

(** The helper's loop ends within as many passes as C counts. *)
Lemma filter_loop_total fuel st :
  is_byte (fs_c st) → trips (fs_c st) <= Z.of_nat fuel →
  ∃ r, filter_loop fuel m lo sen st = Some r.
Proof using Type.
  revert st. induction fuel as [|fuel IH]; intros st Hb Hf.
  { pose proof (trips_range _ Hb). lia. }
  cbn [filter_loop]. destruct st as [hl de b c a n mm]. cbn [fs_c] in *.
  destruct (_ <? lo); [by eexists|]. destruct (_ =? sen); [by eexists|].
  destruct (Z.eqb_spec (u8 (c - 1)) 0) as [|Hn]; [by eexists|].
  apply IH; cbn [fs_c]; [in_range|]. rewrite trips_next by done. lia.
Qed.

(** Leaving on the first pass. *)
Lemma filter_fin_low n c :
  cpu_ok c → let a := mget (mem c) (rDE c) &' m in (a <? lo) = true →
  filter_fin lo sen head exit n (EXIT_LOW, mk_filter (rHL c) (rDE c) (rB c) (rC c) a (n + 4) (mem c)) c
  = filter_pass m lo sen head exit c.
Proof using Type.
  intros Hc a Ha. unfold filter_fin, filter_pass. fold a. rewrite Ha, (filter_regs_id c Hc), jit_cp_eq.
  replace (n + 4 - n) with 4 by lia. apply cpu_eq_pc_count; reflexivity.
Qed.

Lemma filter_fin_sentinel n c :
  cpu_ok c → let a := mget (mem c) (rDE c) &' m in (a <? lo) = false → (a =? sen) = true →
  filter_fin lo sen head exit n (EXIT_SENTINEL, mk_filter (rHL c) (rDE c) (rB c) (rC c) a (n + 6) (mem c)) c
  = filter_pass m lo sen head exit c.
Proof using Type.
  intros Hc a Ha Hs. unfold filter_fin, filter_pass. fold a.
  rewrite Ha, Hs, (filter_regs_id c Hc), jit_cp_eq.
  replace (n + 6 - n) with 6 by lia. apply cpu_eq_pc_count; reflexivity.
Qed.

Definition stored_state (n : Z) (c : z80_cpu) : filter_state :=
  mk_filter (u16 (rHL c + 1)) (u16 (rDE c + 1)) (u8 (rB c + 1)) (u8 (rC c - 1))
    (mget (mem c) (rDE c) &' m) (n + 12) (mset (rHL c) (mget (mem c) (rDE c) &' m) (mem c)).

Lemma filter_fin_count n c :
  cpu_ok c → let a := mget (mem c) (rDE c) &' m in (a <? lo) = false → (a =? sen) = false →
  u8 (rC c - 1) = 0 →
  filter_fin lo sen head exit n (EXIT_COUNT, stored_state n c) c = filter_pass m lo sen head exit c.
Proof using Hm Hsen.
  intros Hc a Ha Hs Hn. assert (is_byte a) as Hab by in_range.
  destruct (cp_flags_facts a sen Hab Hsen) as (_ & _ & HC).
  unfold filter_fin, stored_state, filter_pass. fold a. rewrite Ha, Hs, Hn. cbv zeta. cbn [Z.eqb].
  rewrite dec_flags_0, inc_flags_C, HC by in_range.
  replace (n + 12 - n) with 12 by lia. apply cpu_eq_pc_count; reflexivity.
Qed.

(** A pass that goes round is absorbed. *)
Lemma filter_fin_next n r c :
  let a := mget (mem c) (rDE c) &' m in (a <? lo) = false → (a =? sen) = false →
  filter_fin lo sen head exit (n + 12) r (filter_pass m lo sen head exit c)
  = filter_fin lo sen head exit n r c.
Proof using Type.
  intros a Ha Hs. destruct r as [ex [hl de b cc a' k mm]].
  assert (u64 (u64 (insn_count c + 12) + (k - (n + 12))) = u64 (insn_count c + (k - n))) as Hi.
  { rewrite u64_add2. apply (f_equal u64). lia. }
  unfold filter_fin, filter_pass. fold a. rewrite Ha, Hs.
  destruct ex; apply cpu_eq_pc_count; try reflexivity; exact Hi.
Qed.

Lemma filter_pass_start n c :
  let a := mget (mem c) (rDE c) &' m in (a <? lo) = false → (a =? sen) = false →
  filter_start n (filter_pass m lo sen head exit c) = mk_filter (u16 (rHL c + 1)) (u16 (rDE c + 1))
    (u8 (rB c + 1)) (u8 (rC c - 1)) a n (mset (rHL c) a (mem c)).
Proof using Type.
  intros a Ha Hs. rewrite <- (rHL_set_HL (u16 (rHL c + 1)) c), <- (rDE_set_DE (u16 (rDE c + 1)) c) by in_range.
  unfold filter_start, filter_pass. fold a. by rewrite Ha, Hs.
Qed.

Lemma filter_loop_runs `{HW : Host W} (body : list op_at) :
  head ≠ exit →
  (∀ c (w : W), cpu_ok c → rPC c = head →
    ∃ w', run_ops body (c, w) = (RC_OK, (filter_pass m lo sen head exit c, w'))) →
  ∀ fuel n c w, cpu_ok c → rPC c = head → trips (rC c) <= Z.of_nat fuel →
  ∃ r w', filter_loop fuel m lo sen (filter_start n c) = Some r ∧
    run_loop fuel head body (c, w) = Some (filter_fin lo sen head exit n r c, w').
Proof using Hm Hlo Hsen Hhead Hexit.
  intros Hne Hbody fuel. induction fuel as [|fuel IH]; intros n c w Hc Hpc Hf.
  { pose proof (trips_range _ (ok_rC c Hc)). lia. }
  cbn [run_loop]. destruct (Hbody c w Hc Hpc) as [w' ->]. cbn [fst].
  unfold filter_start at 1. cbn [filter_loop].
  set (a := mget (mem c) (rDE c) &' m) in *.
  destruct (a <? lo) eqn:Ea.
  { eexists _, w'. split; [reflexivity|]. rewrite filter_fin_low by done.
    assert (rPC (filter_pass m lo sen head exit c) = exit) as -> by (unfold filter_pass; fold a; by rewrite Ea).
    by destruct (Z.eqb_spec exit head). }
  destruct (a =? sen) eqn:Es.
  { eexists _, w'. split; [reflexivity|]. rewrite filter_fin_sentinel by done.
    assert (rPC (filter_pass m lo sen head exit c) = exit) as -> by (unfold filter_pass; fold a; by rewrite Ea, Es).
    by destruct (Z.eqb_spec exit head). }
  assert (rPC (filter_pass m lo sen head exit c) = if u8 (rC c - 1) =? 0 then exit else head) as ->
    by (unfold filter_pass; fold a; by rewrite Ea, Es).
  destruct (Z.eqb_spec (u8 (rC c - 1)) 0) as [Hn|Hn].
  { eexists _, w'. split; [reflexivity|]. destruct (Z.eqb_spec exit head); [done|].
    pose proof (filter_fin_count n c Hc Ea Es Hn) as E. unfold stored_state in E. fold a in E. by rewrite E. }
  rewrite Z.eqb_refl.
  destruct (IH (n + 12) (filter_pass m lo sen head exit c) w') as (r & w2 & E1 & E2).
  - by apply filter_pass_ok.
  - unfold filter_pass. fold a. rewrite Ea, Es. by destruct (Z.eqb_spec (u8 (rC c - 1)) 0).
  - assert (rC (filter_pass m lo sen head exit c) = u8 (rC c - 1)) as -> by (unfold filter_pass; fold a; by rewrite Ea, Es).
    rewrite trips_next by in_range. lia.
  - exists r, w2. rewrite filter_pass_start in E1 by done. rewrite filter_fin_next in E2 by done.
    by split.
Qed.
End Loop.

(** ** The helper *)

Lemma jp_cc_not_trap traps ports k target d pa :
  is_jp_cc k target d = true → can_translate traps ports d pa = true → is_jp_trap_target traps target = false.
Proof.
  unfold is_jp_cc. intros [[Ht%is_type_eq _]%andb_true_iff <-%Z.eqb_eq]%andb_true_iff Hc.
  apply negb_true_iff. rewrite <- Hc. unfold can_translate. by rewrite Ht.
Qed.

Lemma filter_facts traps ports ops d0 d1 d2 d3 d4 d5 d6 d7 d8 d9 d10 d11 p0 p1 p2 p3 p4 p5 p6 p7 p8 p9 p10 p11 :
  filter_shape ops (head_pc ops) (pc_nth ops 11) d0 d1 d2 d3 d4 d5 d6 d7 d8 d9 d10 d11
    p0 p1 p2 p3 p4 p5 p6 p7 p8 p9 p10 p11 →
  is_word (head_pc ops) → chained (head_pc ops) ops → accepted traps ports ops →
  is_byte (imm8 d1) ∧ is_byte (imm8 d2) ∧ is_byte (imm8 d4) ∧ is_word (pc_nth ops 11) ∧
  head_pc ops ≠ pc_nth ops 11 ∧ is_jp_trap_target traps (head_pc ops) = false ∧
  is_jp_trap_target traps (pc_nth ops 11) = false.
Proof.
  intros [Hops _ Hex _ _ _ H3 _ _ _ _ _ _ _ H11] Hw Hch Hacc.
  pose proof (Forall_take _ 12 _ Hacc) as Ha. pose proof (chained_firstn 12 _ _ Hch) as Hc12.
  pose proof (end_pc_ne _ _ Hw Hc12) as Hne. pose proof (end_pc_bytes _ _ Hw Hc12) as Hwe.
  rewrite Hops in *. cbn [end_pc] in Hne, Hwe. rewrite Hex in Hne, Hwe.
  rewrite !Forall_cons in Ha. destruct Ha as (_&_&_&A3&_&_&_&_&_&_&_&A11&_). cbn [fst snd] in *.
  cbn [chained] in Hc12. destruct Hc12 as (_ & _ & _ & K1 & _ & K2 & _ & _ & _ & K4 & _).
  split_and!; try by eapply ok_imm8.
  - rewrite Hwe. apply u16_word.
  - intros E. apply Hne; [cbn; lia|done].
  - by eapply jp_cc_not_trap.
  - by eapply jp_cc_not_trap.
Qed.

Lemma filtercopy_fin spec m lo sen head exit c d r :
  u8 spec = m → u8 (spec >>' 8) = lo → u8 (spec >>' 16) = sen →
  filter_loop 256 m lo sen (filter_start 0 c) = Some r →
  ∃ s, z80_jit_loop_filtercopy spec head exit (c, d) = Some s ∧
    after_loop 12 exit s.1 = filter_fin lo sen head exit 0 r c ∧
    s.2 = sweep_after (rHL c) (u16 (fs_hl r.2 - rHL c)) d ∧ mem s.1 = fs_mem r.2.
Proof.
  intros Em El Es Hl. unfold z80_jit_loop_filtercopy. cbn [fst snd]. rewrite Em, El, Es.
  unfold filter_start in Hl. rewrite Hl. destruct r as [ex [hl de b cc a n mm]].
  eexists. split; [reflexivity|]. cbn [fst snd fs_hl fs_mem].
  assert (u64 (u64 (insn_count c + n - 12) + 12) = u64 (insn_count c + (n - 0))) as Hi.
  { replace (insn_count c + n - 12) with (insn_count c + (n - 12)) by lia. rewrite u64_add2.
    apply (f_equal u64). lia. }
  split_and!; [|done|by destruct ex].
  unfold after_loop, filter_fin. destruct ex; apply cpu_eq_pc_count; try reflexivity; exact Hi.
Qed.

(** The bytes the helper's loop writes: [k] of them from [hl] up. *)
Lemma filter_loop_writes fuel m lo sen st r :
  filter_loop fuel m lo sen st = Some r → is_word (fs_hl st) →
  ∃ k, 0 <= k <= Z.of_nat fuel ∧ fs_hl r.2 = u16 (fs_hl st + k) ∧
  ∀ b, (∀ j, 0 <= j < k → u16 (fs_hl st + j) ≠ b) → mget (fs_mem r.2) b = mget (fs_mem st) b.
Proof.
  revert st. induction fuel as [|fuel IH]; intros st; cbn [filter_loop]; [done|].
  destruct st as [hl de b c a n mm]. cbn [fs_hl fs_mem]. intros Hr Hhl.
  assert (∀ v, mget (mset hl v mm) = mget (mset (u16 (hl + 0)) v mm)) as Hz
    by (intros; by rewrite Z.add_0_r, u16_id).
  destruct (_ <? lo).
  { injection Hr as <-. exists 0. cbn. split_and!; [lia|lia|by rewrite Z.add_0_r, u16_id|done]. }
  destruct (_ =? sen).
  { injection Hr as <-. exists 0. cbn. split_and!; [lia|lia|by rewrite Z.add_0_r, u16_id|done]. }
  destruct (u8 (c - 1) =? 0).
  { injection Hr as <-. exists 1. cbn [fst snd fs_hl fs_mem]. split_and!; [lia|lia|done|].
    intros x Hx. rewrite Hz. apply mget_mset_ne, Hx. lia. }
  destruct (IH _ Hr (u16_word _)) as (k & Hk & Eh & Em). cbn [fs_hl fs_mem] in *.
  exists (k + 1). split_and!; [lia|lia|rewrite Eh, u16_add_l; apply (f_equal u16); lia|].
  intros x Hx. rewrite Em, Hz; [apply mget_mset_ne, Hx; lia|].
  intros j Hj. rewrite u16_add_l, <- Z.add_assoc. apply Hx. lia.
Qed.

Lemma filtercopy_swept m lo sen c d r s :
  filter_loop 256 m lo sen (filter_start 0 c) = Some r → cpu_ok c →
  s.2 = sweep_after (rHL c) (u16 (fs_hl r.2 - rHL c)) d → mem s.1 = fs_mem r.2 → swept (mem c) d s.
Proof.
  intros Hl Hc Hs Hm. destruct (filter_loop_writes _ _ _ _ _ _ Hl (ok_rHL c Hc)) as (k & Hk & Eh & Em).
  cbn [filter_start fs_hl fs_mem] in *.
  assert (u16 (fs_hl r.2 - rHL c) = k) as Ek.
  { rewrite Eh. pose proof (ok_rHL c Hc). unfold is_word, u16 in *. Z.div_mod_to_equations. lia. }
  eapply swept_range; [|exact Hs|]; rewrite Ek; [lia|]. intros b Hb. rewrite Hm. by apply Em.
Qed.

(** C10: the folded filtered copy is the loop.  Wherever [filtercopy_kind]
    matches in a scanned block, the helper's unbounded loop ends (within 256
    passes, C counting them), and the interpreter, run on the twelve matched
    instructions, leaves the loop in the context the helper computes plus
    the block's own count: by the first exit (byte below [lo]), the second
    (sentinel) or the counter, each with its own F and MEMPTR.  The helper's
    sweep leaves no live block over a changed byte, where every live block's
    bytes are marked. *)
Theorem fold_filter_correct `{HW : Host W} traps ports m pc0 i ops spec c (w : W) d :
  (∀ w : W, traps_enabled w = traps) → block_tail traps ports m pc0 i ops →
  filtercopy_kind ops = Some spec → cpu_ok c → rPC c = head_pc ops →
  ∃ s w', z80_jit_loop_filtercopy spec (head_pc ops) (pc_nth ops 11) (c, d) = Some s ∧
    run_loop 256 (head_pc ops) (firstn 12 ops) (c, w) = Some (after_loop 12 (pc_nth ops 11) s.1, w') ∧
    swept (mem c) d s.
Proof.
  intros Htraps Hbt Hk Hc Hpc.
  destruct (filtercopy_inv _ _ Hk) as (d0 & d1 & d2 & d3 & d4 & d5 & d6 & d7 & d8 & d9 & d10 & d11 & p0 & p1
    & p2 & p3 & p4 & p5 & p6 & p7 & p8 & p9 & p10 & p11 & Hsh & ->).
  destruct (block_tail_spec _ _ _ _ _ _ Hbt) as (Hw & Hch & Hacc); [by intros ->|].
  edestruct (filter_facts traps ports) as (Hb1 & Hb2 & Hb4 & Hwe & Hne & Hth & Hte);
    [exact Hsh|exact Hw|exact Hch|exact Hacc|].
  destruct (filter_spec_fields (imm8 d1) (imm8 d2) (imm8 d4) Hb1 Hb2 Hb4) as (Em & El & Es).
  destruct (filter_loop_runs (imm8 d1) (imm8 d2) (imm8 d4) (head_pc ops) (pc_nth ops 11) Hb1 Hb2 Hb4 Hw Hwe
    (firstn 12 ops) ltac:(done)) with (fuel := 256%nat) (n := 0) (c := c) (w := w) as (r & w' & E1 & E2).
  { intros c' w2 Hc' Hpc'. by eapply (filter_body traps). }
  { done. }
  { done. }
  { pose proof (trips_range _ (ok_rC c Hc)). lia. }
  destruct (filtercopy_fin _ _ _ _ (head_pc ops) (pc_nth ops 11) c d r Em El Es E1) as (s & F1 & F2 & F3 & F4).
  exists s, w'. rewrite F2. split_and!; [done|done|by eapply filtercopy_swept].
Qed.

Example fold_filter_correct_witness :
  (* LD A,(DE); AND 7F; CP 20; JP C,0115; CP 1A; JP Z,0115;
     LD (HL),A; INC HL; INC DE; INC B; DEC C; JP NZ,0100; RET *)
  let m := mset_list 0x300 [0xC1; 0x42; 0x0D] (mset_list 0x100
    [0x1A; 0xE6; 0x7F; 0xFE; 0x20; 0xDA; 0x15; 0x01; 0xFE; 0x7F; 0xCA; 0x15; 0x01;
     0x77; 0x23; 0x13; 0x04; 0x0D; 0xC2; 0x00; 0x01; 0xC9] ∅) in
  let c := set_rPC 0x100 (set_rC 9 (set_HL 0x200 (set_DE 0x300 (set_mem m z80_cpu_init)))) in
  let ops := ops_of false false m 0x100 in
  ∃ s w', z80_jit_loop_filtercopy 0x7F207F 0x100 0x115 (c, None) = Some s ∧
    run_loop 256 0x100 (firstn 12 ops) (c, tt) = Some (after_loop 12 0x115 s.1, w') ∧
    (mget (mem s.1) 0x200, mget (mem s.1) 0x201, rB s.1, rA s.1, insn_count (after_loop 12 0x115 s.1))
      = (0x41, 0x42, 2, 0x0D, 28).
Proof.
  intros m c ops.
  destruct (fold_filter_correct false false m 0x100 0 ops 0x7F207F c tt None) as (s & w' & Es & Er & _).
  - done.
  - constructor; [in_range|in_range|]. eexists _, _. split; [vm_compute; reflexivity|]. by vm_compute.
  - by vm_compute.
  - apply ok_set_rPC; [|in_range]. apply ok_set_rC; [|in_range]. apply ok_set_HL; [|in_range].
    apply ok_set_DE; [|in_range]. apply ok_set_mem; [apply z80_cpu_init_ok|in_range].
  - by vm_compute.
  - assert (head_pc ops = 0x100) as Eh by by vm_compute. assert (pc_nth ops 11 = 0x115) as Ex by by vm_compute.
    rewrite Eh, Ex in Es, Er. exists s, w'. split_and!; [exact Es|exact Er|].
    assert (match z80_jit_loop_filtercopy 0x7F207F 0x100 0x115 (c, None) with
      | Some s => (mget (mem s.1) 0x200, mget (mem s.1) 0x201, rB s.1, rA s.1,
          insn_count (after_loop 12 0x115 s.1)) = (0x41, 0x42, 2, 0x0D, 28)
      | None => False end) as Ev by by vm_compute.
    rewrite Es in Ev. exact Ev.
Defined.
