(* ===== verification/Liveness.v ===== *)
(** * Liveness: the translator's backward pass is sound

    Phase 2 of [dbt_translate_block] marks, per instruction, the F bits and
    the MEMPTR stores the emitted code may leave out.  Here the pass is
    related to the interpreter: [effect] says what one operation reads and
    overwrites of F and MEMPTR, [op_effect] that [op_flag_effects] and
    [op_memptr_effect] cover it for every instruction the translator
    accepts, and [run_elided] is any execution that leaves arbitrary values
    in the dead bits. *)

From Stdlib Require Import ZArith Lia Bool List.
From stdpp Require Import base gmap list.
From S2P Require Import Prelude Cpu Decode Interp InterpOk Translate Block Scan.

Open Scope Z_scope.
Open Scope z80_scope.

(** A context with another F and MEMPTR. *)
Definition touch (f p : Z) (c : z80_cpu) : z80_cpu := set_memptr p (set_rF f c).

(** What the translator assumes of a host: the port callbacks look at neither
    F nor MEMPTR and leave PC alone (inlined port code has no access to
    them). *)
Class HostBlind (W : Type) `{Host W} : Prop := {
  blind_in hook p h f q s : port_in_hook = Some hook →
    hook p h (on_cpu (touch f q) s) = ((hook p h s).1, on_cpu (touch f q) (hook p h s).2);
  blind_out hook p h v f q s : port_out_hook = Some hook →
    hook p h v (on_cpu (touch f q) s) = on_cpu (touch f q) (hook p h v s);
  blind_in_pc hook p h s : port_in_hook = Some hook → rPC (hook p h s).2.1 = rPC s.1;
  blind_out_pc hook p h v s : port_out_hook = Some hook → rPC (hook p h v s).1 = rPC s.1;
}.

#[export] Instance bare_host_blind : HostBlind unit.
Proof. by split. Qed.

(** ** What an operation does to F and MEMPTR *)

Section Effect.
Context `{HW : Host W}.

(** [g] reads at most the F bits of [rd] (and MEMPTR if [rM]), overwrites
    all of F if [wF] and leaves it alone otherwise, the same for MEMPTR
    and [wM], and does not jump. *)
Record effect (rd : Z) (rM wF wM : bool) (g : mach W → mach W) : Prop := {
  eff_touch f p s : is_byte f → is_byte (rF s.1) → f &' rd = rF s.1 &' rd → (rM = true → p = memptr s.1) →
    g (on_cpu (touch f p) s) =
    on_cpu (touch (if wF then rF (g s).1 else f) (if wM then memptr (g s).1 else p)) (g s);
  eff_F s : wF = false → rF (g s).1 = rF s.1;
  eff_M s : wM = false → memptr (g s).1 = memptr s.1;
  eff_pc s : rPC (g s).1 = rPC s.1
}.

(** ** Access functions do not see F and MEMPTR *)

Definition neutral (g : z80_cpu → z80_cpu) : Prop :=
  (∀ f p c, g (touch f p c) = touch f p (g c)) ∧ ∀ c, rPC (g c) = rPC c.
Definition neutralM (g : mach W → mach W) : Prop :=
  (∀ f p s, g (on_cpu (touch f p) s) = on_cpu (touch f p) (g s)) ∧ ∀ s, rPC (g s).1 = rPC s.1.

Lemma set_reg8_p_neutral r pfx v : neutral (set_reg8_p r pfx v).
Proof. split; intros; unfold set_reg8_p; repeat case_match; reflexivity. Qed.
Lemma write_rr_neutral r v : neutral (write_rr r v).
Proof. split; intros; unfold write_rr; repeat case_match; reflexivity. Qed.
Lemma set_idx16_neutral pfx v : neutral (set_idx16 pfx v).
Proof. split; intros; unfold set_idx16; repeat case_match; reflexivity. Qed.
Lemma neutral_F g : neutral g → ∀ c, rF (g c) = rF c ∧ memptr (g c) = memptr c.
Proof.
  intros [Hg _] c. pose proof (Hg (rF c) (memptr c) c) as E. change (touch (rF c) (memptr c) c) with c in E.
  rewrite E. done.
Qed.
Lemma on_cpu_neutral g : neutral g → neutralM (on_cpu g).
Proof. intros [H1 H2]. split; [|intros; apply H2]. intros f p [c w]. unfold on_cpu. cbn [fst snd]. by rewrite H1. Qed.
Lemma mem_w_neutral a v : neutralM (mem_w a v).
Proof. by split. Qed.
Lemma neutralM_comp g h : neutralM g → neutralM h → neutralM (λ s, h (g s)).
Proof. intros [Hg1 Hg2] [Hh1 Hh2]. split; intros; [by rewrite Hg1, Hh1|by rewrite Hh2, Hg2]. Qed.
Lemma neutralM_state (g : mach W → mach W → mach W) :
  (∀ f p s0 s, g (on_cpu (touch f p) s0) s = g s0 s) → (∀ s0, neutralM (g s0)) → neutralM (λ s, g s s).
Proof.
  intros H1 H2. split; intros.
  - rewrite H1. by apply H2.
  - by apply H2.
Qed.
Lemma write_reg8_neutral r v d : neutralM (write_reg8 r v d).
Proof.
  unfold write_reg8. destruct (r =? 6); [by split|]. apply on_cpu_neutral, set_reg8_p_neutral.
Qed.
Lemma mem_w16_neutral a v : neutralM (mem_w16 a v).
Proof. by split. Qed.
Lemma push16_neutral v : neutralM (push16 v).
Proof. by split. Qed.

Lemma neutralM_effect g : neutralM g → effect 0 false false false g.
Proof.
  intros [Hg Hp]. assert (∀ s, rF (g s).1 = rF s.1 ∧ memptr (g s).1 = memptr s.1) as HF.
  { intros s. pose proof (Hg (rF s.1) (memptr s.1) s) as E.
    assert (on_cpu (touch (rF s.1) (memptr s.1)) s = s) as Es by by destruct s.
    rewrite Es in E. rewrite E. done. }
  split; intros; [by rewrite Hg|apply HF|apply HF|apply Hp].
Qed.

(** ** The operations *)

Lemma low_mask x rd f f' : rd &' x = x → f &' rd = f' &' rd → f &' x = f' &' x.
Proof. intros <- E. by rewrite !Z.land_assoc, E. Qed.

Ltac flat := intros; unfold on_cpu; cbn [fst snd]; reflexivity.
(** Prove an [effect] by computation; [tac] rewrites the F bits read. *)
Ltac effect_by tac :=
  split; [intros f p [c w] Hb1 Hb2 Hf Hm; unfold on_cpu; cbn [fst snd] in *;
          change (rF (touch f p c)) with f; tac c Hf; try reflexivity
         |intros [c w] ?; try discriminate; try reflexivity
         |intros [c w] ?; try discriminate; try reflexivity
         |intros [c w]; try reflexivity].

Lemma eff_LD_A_NN d : effect 0 false false true (on_cpu (op_LD_A_NN d)).
Proof. effect_by ltac:(fun c H => idtac). Qed.
Lemma eff_LD_NN_A d : effect 0 false false true (op_LD_NN_A d).
Proof. effect_by ltac:(fun c H => idtac). Qed.
Lemma eff_LD_A_BC : effect 0 false false true (on_cpu op_LD_A_BC).
Proof. effect_by ltac:(fun c H => idtac). Qed.
Lemma eff_LD_A_DE : effect 0 false false true (on_cpu op_LD_A_DE).
Proof. effect_by ltac:(fun c H => idtac). Qed.
Lemma eff_LD_BC_A : effect 0 false false true op_LD_BC_A.
Proof. effect_by ltac:(fun c H => idtac). Qed.
Lemma eff_LD_DE_A : effect 0 false false true op_LD_DE_A.
Proof. effect_by ltac:(fun c H => idtac). Qed.
Lemma eff_LD_NN_HL d : effect 0 false false true (op_LD_NN_HL d).
Proof. effect_by ltac:(fun c H => idtac). Qed.
(** Rewrite with [L], whose premise is the agreement on the bits read. *)
Ltac reads_with L c H := cbv beta zeta; rewrite (L _ (rF c)) by exact H.
Ltac by_prefix d := destruct (prefix d =? 0xDD), (prefix d =? 0xFD).
Lemma eff_LD_HL_indNN d : effect 0 false false true (on_cpu (op_LD_HL_indNN d)).
Proof. unfold op_LD_HL_indNN, set_idx16. by_prefix d; effect_by ltac:(fun c H => idtac). Qed.
Lemma eff_EX_SP_HL d : effect 0 false false true (op_EX_SP_HL d).
Proof. unfold op_EX_SP_HL, set_idx16, idx16. by_prefix d; effect_by ltac:(fun c H => idtac). Qed.
Lemma eff_ADD_HL_RR d : effect SZP false true true (on_cpu (op_ADD_HL_RR d)).
Proof.
  assert (∀ f f' a b, f &' SZP = f' &' SZP → add16_flags f a b = add16_flags f' a b) as E.
  { intros f f' a b Hf. unfold add16_flags. fold SZP. by rewrite Hf. }
  unfold op_ADD_HL_RR, set_idx16, idx16.
  by_prefix d; destruct (reg1 d =? 3), (reg1 d =? 2); 
    effect_by ltac:(fun c H => reads_with E c H).
Qed.

(** ** Flag results depend on the bits they read *)

Lemma reads_carry f f' : f &' FLAG_C = f' &' FLAG_C → carry_in f = carry_in f'.
Proof. intros H. unfold carry_in. by rewrite H. Qed.
Lemma reads_inc f f' v : f &' FLAG_C = f' &' FLAG_C → inc_flags f v = inc_flags f' v.
Proof. intros H. unfold inc_flags. by rewrite H. Qed.
Lemma reads_dec f f' v : f &' FLAG_C = f' &' FLAG_C → dec_flags f v = dec_flags f' v.
Proof. intros H. unfold dec_flags. by rewrite H. Qed.
Lemma reads_rot f f' a k : f &' SZP = f' &' SZP → rot_a_flags f a k = rot_a_flags f' a k.
Proof. intros H. unfold rot_a_flags. fold SZP. by rewrite H. Qed.
Lemma reads_bit f f' v b x : f &' FLAG_C = f' &' FLAG_C → cb_bit_flags f v b x = cb_bit_flags f' v b x.
Proof. intros H. unfold cb_bit_flags. by rewrite H. Qed.
Lemma reads_daa f f' a :
  f &' (FLAG_C |' FLAG_H |' FLAG_N) = f' &' (FLAG_C |' FLAG_H |' FLAG_N) → daa a f = daa a f'.
Proof.
  intros H. unfold daa. set (rd := FLAG_C |' FLAG_H |' FLAG_N) in H.
  rewrite (low_mask FLAG_C rd f f' eq_refl H), (low_mask FLAG_H rd f f' eq_refl H).
  by rewrite (low_mask FLAG_N rd f f' eq_refl H).
Qed.
Lemma reads_all f f' : is_byte f → is_byte f' → f &' 0xFF = f' &' 0xFF → f = f'.
Proof. intros Hf Hf' H. rewrite !lo_land, !u8_id in H by done. done. Qed.
Lemma reads_cpl f f' : is_byte f → is_byte f' → f &' (SZP |' FLAG_C) = f' &' (SZP |' FLAG_C) →
  (f &~ (FLAG_5 |' FLAG_3)) |' FLAG_H |' FLAG_N = (f' &~ (FLAG_5 |' FLAG_3)) |' FLAG_H |' FLAG_N.
Proof.
  assert (∀ f, is_byte f → (f &~ (FLAG_5 |' FLAG_3)) |' FLAG_H |' FLAG_N =
    (f &' (SZP |' FLAG_C)) |' FLAG_H |' FLAG_N) as E; [|intros; by rewrite !E; [f_equal; f_equal|..]].
  intros g Hg. apply Z.eqb_eq.
  exact (forall_bytes (λ f, (f &~ (FLAG_5 |' FLAG_3)) |' FLAG_H |' FLAG_N =?
    (f &' (SZP |' FLAG_C)) |' FLAG_H |' FLAG_N) ltac:(by vm_compute) g Hg).
Qed.

Lemma eff_alu_ADD (b : z80_cpu → Z) : (∀ f p c, b (touch f p c) = b c) →
  effect 0 false true false (on_cpu (λ c, alu_ADD (b c) c)).
Proof. intros Hb. effect_by ltac:(fun c H => rewrite Hb). Qed.
Lemma eff_alu_SUB (b : z80_cpu → Z) : (∀ f p c, b (touch f p c) = b c) →
  effect 0 false true false (on_cpu (λ c, alu_SUB (b c) c)).
Proof. intros Hb. effect_by ltac:(fun c H => rewrite Hb). Qed.
Lemma eff_alu_CP (b : z80_cpu → Z) : (∀ f p c, b (touch f p c) = b c) →
  effect 0 false true false (on_cpu (λ c, alu_CP (b c) c)).
Proof. intros Hb. effect_by ltac:(fun c H => rewrite Hb). Qed.
Lemma eff_alu_AND (b : z80_cpu → Z) : (∀ f p c, b (touch f p c) = b c) →
  effect 0 false true false (on_cpu (λ c, alu_AND (b c) c)).
Proof. intros Hb. effect_by ltac:(fun c H => rewrite Hb). Qed.
Lemma eff_alu_OR (b : z80_cpu → Z) : (∀ f p c, b (touch f p c) = b c) →
  effect 0 false true false (on_cpu (λ c, alu_OR (b c) c)).
Proof. intros Hb. effect_by ltac:(fun c H => rewrite Hb). Qed.
Lemma eff_alu_XOR (b : z80_cpu → Z) : (∀ f p c, b (touch f p c) = b c) →
  effect 0 false true false (on_cpu (λ c, alu_XOR (b c) c)).
Proof. intros Hb. effect_by ltac:(fun c H => rewrite Hb). Qed.
Lemma eff_alu_ADC (b : z80_cpu → Z) : (∀ f p c, b (touch f p c) = b c) →
  effect FLAG_C false true false (on_cpu (λ c, alu_ADC (b c) c)).
Proof. intros Hb. effect_by ltac:(fun c H => rewrite Hb; unfold alu_ADC; reads_with reads_carry c H). Qed.
Lemma eff_alu_SBC (b : z80_cpu → Z) : (∀ f p c, b (touch f p c) = b c) →
  effect FLAG_C false true false (on_cpu (λ c, alu_SBC (b c) c)).
Proof. intros Hb. effect_by ltac:(fun c H => rewrite Hb; unfold alu_SBC; reads_with reads_carry c H). Qed.

Lemma eff_INC_HL_ind d : effect FLAG_C false true false (op_INC_HL_ind d).
Proof. effect_by ltac:(fun c H => unfold op_INC_HL_ind, on_cpu; reads_with reads_inc c H). Qed.
Lemma eff_DEC_HL_ind d : effect FLAG_C false true false (op_DEC_HL_ind d).
Proof. effect_by ltac:(fun c H => unfold op_DEC_HL_ind, on_cpu; reads_with reads_dec c H). Qed.
Lemma eff_RLCA : effect SZP false true false (on_cpu op_RLCA).
Proof. effect_by ltac:(fun c H => unfold op_RLCA; reads_with reads_rot c H). Qed.
Lemma eff_RRCA : effect SZP false true false (on_cpu op_RRCA).
Proof. effect_by ltac:(fun c H => unfold op_RRCA; reads_with reads_rot c H). Qed.
Lemma eff_RLA : effect (SZP |' FLAG_C) false true false (on_cpu op_RLA).
Proof.
  effect_by ltac:(fun c H => unfold op_RLA; cbv beta zeta;
    rewrite (reads_rot _ (rF c)) by exact (low_mask SZP (SZP |' FLAG_C) _ _ eq_refl H);
    rewrite (reads_carry _ (rF c)) by exact (low_mask FLAG_C (SZP |' FLAG_C) _ _ eq_refl H)).
Qed.
Lemma eff_RRA : effect (SZP |' FLAG_C) false true false (on_cpu op_RRA).
Proof.
  effect_by ltac:(fun c H => unfold op_RRA; cbv beta zeta;
    rewrite (reads_rot _ (rF c)) by exact (low_mask SZP (SZP |' FLAG_C) _ _ eq_refl H);
    rewrite (low_mask FLAG_C (SZP |' FLAG_C) (rF (touch _ _ c)) (rF c) eq_refl H)).
Qed.
Lemma eff_DAA : effect (FLAG_C |' FLAG_H |' FLAG_N) false true false (on_cpu op_DAA).
Proof.
  unfold op_DAA. split.
  - intros f p [c w] _ _ Hf _. unfold on_cpu. cbn [fst snd] in *.
    change (rF (touch f p c)) with f. change (rA (touch f p c)) with (rA c).
    rewrite (reads_daa f (rF c) _ Hf). by destruct (daa (rA c) (rF c)).
  - done.
  - intros [c w] _. unfold on_cpu. cbn [fst snd]. by destruct (daa (rA c) (rF c)).
  - intros [c w]. unfold on_cpu. cbn [fst snd]. by destruct (daa (rA c) (rF c)).
Qed.

(** An operation that reads all of F. *)
Lemma effect_all wF g :
  (∀ p s, g (on_cpu (touch (rF s.1) p) s) = on_cpu (touch (rF (g s).1) p) (g s)) →
  (∀ s, wF = false → rF (g s).1 = rF s.1) → (∀ s, rPC (g s).1 = rPC s.1) →
  effect 0xFF false wF false g.
Proof.
  intros Hg HF Hp. split; [|done| |done].
  - intros f p s H1 H2 H3 _. rewrite (reads_all f (rF s.1) H1 H2 H3), Hg. destruct wF; [done|].
    by rewrite HF.
  - intros s _. pose proof (Hg (memptr s.1) s) as E.
    assert (on_cpu (touch (rF s.1) (memptr s.1)) s = s) as Es by by destruct s.
    rewrite Es in E. by rewrite E.
Qed.
Lemma eff_SCF q : effect 0xFF false true false (on_cpu (op_SCF q)).
Proof. apply effect_all; [intros p [c w]|intros [c w]|intros [c w]]; reflexivity || done. Qed.
Lemma eff_CCF q : effect 0xFF false true false (on_cpu (op_CCF q)).
Proof. apply effect_all; [intros p [c w]|intros [c w]|intros [c w]]; reflexivity || done. Qed.
Lemma eff_CPL : effect (SZP |' FLAG_C) false true false (on_cpu op_CPL).
Proof.
  split; [|done|by intros []|by intros []].
  intros f p [c w] H1 H2 Hf _. unfold on_cpu. cbn [fst snd] in *. unfold op_CPL. cbv zeta.
  change (rF (set_rA (u8 (Z.lnot (rA (touch f p c)))) (touch f p c))) with f.
  rewrite (reads_cpl f (rF c)) by done. reflexivity.
Qed.

Lemma ld_loop_touch fuel incr last f p s :
  ld_loop fuel incr last (on_cpu (touch f p) s) =
  ((ld_loop fuel incr last s).1, on_cpu (touch f p) (ld_loop fuel incr last s).2).
Proof.
  revert last s. induction fuel as [|fuel IH]; intros last [c w]; [done|]. cbn [ld_loop].
  change (rBC (on_cpu (touch f p) (c, w)).1) with (rBC (c, w).1).
  destruct (rBC _ =? 0); [done|].
  change (ld_one incr (on_cpu (touch f p) (c, w)))
    with ((ld_one incr (c, w)).1, on_cpu (touch f p) (ld_one incr (c, w)).2).
  destruct (ld_one incr (c, w)) as [v s]. cbn [fst snd]. apply IH.
Qed.
Lemma touch_id (s : mach W) : on_cpu (touch (rF s.1) (memptr s.1)) s = s.
Proof. by destruct s. Qed.
Lemma ld_loop_F fuel incr last s :
  rF (ld_loop fuel incr last s).2.1 = rF s.1 ∧ memptr (ld_loop fuel incr last s).2.1 = memptr s.1.
Proof.
  pose proof (ld_loop_touch fuel incr last (rF s.1) (memptr s.1) s) as E.
  rewrite touch_id in E. rewrite E. done.
Qed.
Lemma ld_loop_pc fuel incr last s : rPC (ld_loop fuel incr last s).2.1 = rPC s.1.
Proof.
  revert last s. induction fuel as [|fuel IH]; intros last [c w]; [done|]. cbn [ld_loop].
  destruct (rBC _ =? 0); [done|].
  assert (rPC (ld_one incr (c, w)).2.1 = rPC c) as E by done.
  destruct (ld_one incr (c, w)) as [v s]. by rewrite IH.
Qed.
Lemma eff_LDIR_LDDR t : effect 0xFF false true false (op_LDIR_LDDR t).
Proof.
  apply effect_all; [|done|].
  - intros p s. unfold op_LDIR_LDDR.
    change (rBC (on_cpu (touch (rF s.1) p) s).1) with (rBC s.1). rewrite ld_loop_touch.
    destruct (ld_loop_F (Z.to_nat (rBC s.1)) (match t with Z80_OP_LDIR => 1 | _ => -1 end) 0 s) as [EF _].
    destruct (ld_loop _ _ _ s) as [v s']. cbn [fst snd] in *. rewrite <- EF. reflexivity.
  - intros s. unfold op_LDIR_LDDR.
    pose proof (ld_loop_pc (Z.to_nat (rBC s.1)) (match t with Z80_OP_LDIR => 1 | _ => -1 end) 0 s) as E.
    by destruct (ld_loop _ _ _ s).
Qed.

Lemma eff_PUSH_AF d : reg1 d = 3 → effect 0xFF false false false (op_PUSH_RR d).
Proof.
  intros Hr. unfold op_PUSH_RR. rewrite Hr. cbn [Z.eqb Pos.eqb].
  apply effect_all; [intros p [c w]|intros [c w]|intros [c w]]; reflexivity.
Qed.
Lemma neutral_PUSH d : reg1 d ≠ 3 → neutralM (op_PUSH_RR d).
Proof.
  intros Hr%Z.eqb_neq. unfold op_PUSH_RR. rewrite Hr. split; [|done]. intros f p [c w].
  unfold on_cpu. cbn [fst snd]. destruct (reg1 d =? 4); [by destruct (prefix d =? 0xFD)|done].
Qed.
Lemma eff_POP_AF d : reg1 d = 3 → effect 0 false true false (on_cpu (op_POP_RR d)).
Proof. intros Hr. unfold op_POP_RR. rewrite Hr. cbn [Z.eqb Pos.eqb]. effect_by ltac:(fun c H => idtac). Qed.
Lemma neutral_POP d : reg1 d ≠ 3 → neutral (op_POP_RR d).
Proof.
  intros Hr%Z.eqb_neq. unfold op_POP_RR. rewrite Hr.
  destruct (reg1 d =? 4); [by destruct (prefix d =? 0xFD)|].
  split; intros; cbv zeta.
  - by rewrite <- (proj1 (write_rr_neutral (reg1 d) _)).
  - by rewrite (proj2 (write_rr_neutral (reg1 d) _)).
Qed.

Lemma reg8_p_some r pfx c : reg8_offset_ok r = true → reg8_p r pfx c = Some (default 0 (reg8_p r pfx c)).
Proof. unfold reg8_offset_ok, reg8_p. by repeat case_match. Qed.

(** INC and DEC of a register: a new value [v] from the old one, and
    flags that keep C. *)
Lemma eff_step_reg (step : Z → Z) (flags : Z → Z → Z) r pfx :
  (∀ f f' v, f &' FLAG_C = f' &' FLAG_C → flags f v = flags f' v) → reg8_offset_ok r = true →
  effect FLAG_C false true false (λ s, match reg8_p r pfx s.1 with
    | Some p => let v := step p in on_cpu (λ c, with_f (flags (rF c) v) (set_reg8_p r pfx v c)) s
    | None => s end).
Proof.
  intros Hfl Hr. split; [|done| |].
  - intros f p [c w] _ _ Hf _. cbn [on_cpu fst snd] in *.
    change (reg8_p r pfx (touch f p c)) with (reg8_p r pfx c).
    rewrite (reg8_p_some _ _ _ Hr). cbv zeta. unfold on_cpu. cbn [fst snd].
    rewrite (proj1 (set_reg8_p_neutral r pfx _)), (Hfl (rF (touch f p c)) (rF c) _ Hf). reflexivity.
  - intros [c w] _. cbn [fst]. rewrite (reg8_p_some _ _ _ Hr).
    exact (proj2 (neutral_F _ (set_reg8_p_neutral r pfx _) c)).
  - intros [c w]. cbn [fst]. rewrite (reg8_p_some _ _ _ Hr). exact (proj2 (set_reg8_p_neutral r pfx _) c).
Qed.
Lemma eff_INC_R d : reg1 d = 6 ∨ reg8_offset_ok (reg1 d) = true → effect FLAG_C false true false (op_INC_R d).
Proof.
  unfold op_INC_R. destruct (Z.eqb_spec (reg1 d) 6); [intros; apply eff_INC_HL_ind|].
  intros [?|Hr]; [done|]. exact (eff_step_reg (λ p, u8 (p + 1)) inc_flags _ _ reads_inc Hr).
Qed.
Lemma eff_DEC_R d : reg1 d = 6 ∨ reg8_offset_ok (reg1 d) = true → effect FLAG_C false true false (op_DEC_R d).
Proof.
  unfold op_DEC_R. destruct (Z.eqb_spec (reg1 d) 6); [intros; apply eff_DEC_HL_ind|].
  intros [?|Hr]; [done|]. exact (eff_step_reg (λ p, u8 (p - 1)) dec_flags _ _ reads_dec Hr).
Qed.

(** ** Loads and 16-bit counters *)

Lemma neutral_LD_RR_NN d : neutral (op_LD_RR_NN d).
Proof.
  unfold op_LD_RR_NN. destruct (reg1 d =? 3); [done|]. destruct (_ && _); [done|].
  destruct (_ && _); [done|]. apply write_rr_neutral.
Qed.
Lemma neutral_step_rr d (k : Z) :
  neutral (λ c, if reg1 d =? 3 then set_rSP (u16 (rSP c + k)) c
    else if (reg1 d =? 2) && (prefix d =? 0xDD) then set_rIX (u16 (rIX c + k)) c
    else if (reg1 d =? 2) && (prefix d =? 0xFD) then set_rIY (u16 (rIY c + k)) c
    else write_rr (reg1 d) (u16 (read_rr (reg1 d) c + k)) c).
Proof.
  destruct (reg1 d =? 3); [done|]. destruct (_ && _); [done|]. destruct (_ && _); [done|].
  split; intros; [by rewrite (proj1 (write_rr_neutral _ _))|by rewrite (proj2 (write_rr_neutral _ _))].
Qed.
Lemma neutral_LD_SP_HL d : neutral (op_LD_SP_HL d).
Proof. unfold op_LD_SP_HL, idx16. by by_prefix d. Qed.
Lemma neutral_write_reg8 r d (v : z80_cpu → Z) :
  (∀ f p c, v (touch f p c) = v c) → neutralM (λ s, write_reg8 r (v s.1) d s).
Proof.
  intros Hv. split; intros.
  - cbn [on_cpu fst]. rewrite Hv. apply (proj1 (write_reg8_neutral _ _ _)).
  - apply (proj2 (write_reg8_neutral _ _ _)).
Qed.

(** ** Ports *)

Lemma eff_OUT_N_A `{!HostBlind W} d : effect 0 false false true (op_OUT_N_A d).
Proof.
  assert (∀ p h v f q s, io_out p h v (on_cpu (touch f q) s) = on_cpu (touch f q) (io_out p h v s)) as E.
  { intros. unfold io_out. case_match eqn:Hk; [by apply blind_out|done]. }
  assert (∀ p h v s, rPC (io_out p h v s).1 = rPC s.1) as Ep.
  { intros. unfold io_out. case_match eqn:Hk; [by apply blind_out_pc|done]. }
  split; [|intros s _|done|].
  - intros f p s _ _ _ _. unfold op_OUT_N_A.
    change (rA (on_cpu (touch f p) s).1) with (rA s.1). rewrite E. by destruct (io_out _ _ _ s).
  - unfold op_OUT_N_A. pose proof (E (imm8 d) (rA s.1) (rA s.1) (rF s.1) (memptr s.1) s) as Es.
    rewrite touch_id in Es. change (rF (io_out (imm8 d) (rA s.1) (rA s.1) s).1 = rF s.1). by rewrite Es.
  - intros s. apply (Ep (imm8 d) (rA s.1) (rA s.1) s).
Qed.

Lemma eff_IN_A_N `{!HostBlind W} d : effect 0 false false true (op_IN_A_N d).
Proof.
  assert (∀ p h f q s, io_in p h (on_cpu (touch f q) s) = ((io_in p h s).1, on_cpu (touch f q) (io_in p h s).2)) as E.
  { intros. unfold io_in. case_match eqn:Hk; [by apply blind_in|done]. }
  assert (∀ p h s, rPC (io_in p h s).2.1 = rPC s.1) as Ep.
  { intros. unfold io_in. case_match eqn:Hk; [by apply blind_in_pc|done]. }
  split; [|intros s _|done|].
  - intros f p s _ _ _ _. unfold op_IN_A_N.
    change (rA (on_cpu (touch f p) s).1) with (rA s.1). rewrite E. by destruct (io_in _ _ s) as [v [c w]].
  - unfold op_IN_A_N. pose proof (E (imm8 d) (rA s.1) (rF s.1) (memptr s.1) s) as Es.
    rewrite touch_id in Es. destruct (io_in _ _ s) as [v s']. cbn [fst snd on_cpu] in *.
    injection Es as Es. change (rF s'.1 = rF s.1). by rewrite Es.
  - intros s. unfold op_IN_A_N. pose proof (Ep (imm8 d) (rA s.1) s) as Es.
    by destruct (io_in _ _ s).
Qed.

(** ** The CB page *)

Lemma cb_write_neutral d r v : neutralM (cb_write d r v).
Proof.
  unfold cb_write. destruct (cb_mem d r).
  - destruct (_ && _); [|by split]. split; intros; cbv zeta.
    + change (mem_w (cb_addr d (on_cpu (touch f p) s).1) v (on_cpu (touch f p) s))
        with (on_cpu (touch f p) (mem_w (cb_addr d s.1) v s)).
      apply (proj1 (on_cpu_neutral _ (set_reg8_p_neutral _ _ _))).
    + by rewrite (proj2 (on_cpu_neutral _ (set_reg8_p_neutral _ _ _))).
  - apply on_cpu_neutral, set_reg8_p_neutral.
Qed.
Lemma neutral_cb_write_of d r (v : z80_cpu → Z) :
  (∀ f p c, v (touch f p c) = v c) → neutralM (λ s, cb_write d r (v s.1) s).
Proof.
  intros Hv. split; intros.
  - cbn [on_cpu fst]. rewrite Hv. apply (proj1 (cb_write_neutral _ _ _)).
  - apply (proj2 (cb_write_neutral _ _ _)).
Qed.

Lemma neutralM_F g : neutralM g → ∀ s, rF (g s).1 = rF s.1 ∧ memptr (g s).1 = memptr s.1.
Proof. intros Hg s. destruct (neutralM_effect g Hg) as [_ HF HM _]. split; [by apply HF|by apply HM]. Qed.

(** Rotates and shifts: groups 2 and 3 read C. *)
Lemma cb_shift_carry grp v k k' : (grp =? 2) || (grp =? 3) = false → cb_shift grp v k = cb_shift grp v k'.
Proof.
  intros [?%Z.eqb_neq ?%Z.eqb_neq]%orb_false_iff. unfold cb_shift.
  repeat (case_match; try reflexivity; try lia).
Qed.
Definition cb_rot (d : z80_decoded) (s : mach W) : mach W :=
  let sub := imm8 d in
  let r := sub &' 7 in
  let '(new_c, result) := cb_shift ((sub >>' 3) &' 7) (cb_operand d r s.1) (nz (rF s.1 &' FLAG_C)) in
  on_cpu (with_f (cb_shift_flags new_c result)) (cb_write d r result s).
Lemma eff_cb_rot d :
  effect (if (((imm8 d >>' 3) &' 7) =? 2) || (((imm8 d >>' 3) &' 7) =? 3) then FLAG_C else 0)
    false true false (cb_rot d).
Proof.
  set (grp := (imm8 d >>' 3) &' 7). split; [|done| |].
  - intros f p s _ _ Hf _. unfold cb_rot. fold grp.
    change (cb_operand d (imm8 d &' 7) (on_cpu (touch f p) s).1) with (cb_operand d (imm8 d &' 7) s.1).
    assert (cb_shift grp (cb_operand d (imm8 d &' 7) s.1) (nz (rF (on_cpu (touch f p) s).1 &' FLAG_C)) =
            cb_shift grp (cb_operand d (imm8 d &' 7) s.1) (nz (rF s.1 &' FLAG_C))) as ->.
    { destruct ((grp =? 2) || (grp =? 3)) eqn:E; [|by apply cb_shift_carry].
      change (rF (on_cpu (touch f p) s).1) with f. by rewrite Hf. }
    destruct (cb_shift _ _ _) as [k v]. rewrite (proj1 (cb_write_neutral _ _ _)). reflexivity.
  - intros s _. unfold cb_rot. destruct (cb_shift _ _ _) as [k v].
    exact (proj2 (neutralM_F _ (cb_write_neutral d _ v) s)).
  - intros s. unfold cb_rot. destruct (cb_shift _ _ _) as [k v]. exact (proj2 (cb_write_neutral d _ v) s).
Qed.

(** BIT: C is kept; the (HL) form takes X and Y from MEMPTR. *)
Definition cb_bit (d : z80_decoded) (s : mach W) : mach W :=
  let sub := imm8 d in
  let r := sub &' 7 in
  let val := cb_operand d r s.1 in
  let xy_byte := if cb_indexed d then cb_addr d s.1 >>' 8
                 else if r =? 6 then memptr s.1 >>' 8 else val in
  on_cpu (with_f (cb_bit_flags (rF s.1) val ((sub >>' 3) &' 7) xy_byte)) s.
Lemma eff_cb_bit d : effect FLAG_C (negb (cb_indexed d) && (imm8 d &' 7 =? 6)) true false (cb_bit d).
Proof.
  split; [|done|done|done]. intros f p [c w] _ _ Hf Hm. unfold cb_bit, on_cpu. cbn [fst snd] in *. cbv zeta.
  rewrite (reads_bit (rF (touch f p c)) (rF c) _ _ _ Hf).
  destruct (cb_indexed d); [reflexivity|]. destruct (imm8 d &' 7 =? 6); [|reflexivity].
  cbn [negb andb] in Hm. rewrite (Hm eq_refl). reflexivity.
Qed.

(** The four quarters of the page, by the top two bits of the second
    opcode byte. *)
Lemma op_CB_family d s :
  is_byte (imm8 d) →
  op_CB d s =
    if imm8 d >>' 6 =? 0 then cb_rot d s
    else if imm8 d >>' 6 =? 1 then cb_bit d s
    else if imm8 d >>' 6 =? 2
         then cb_write d (imm8 d &' 7) (cb_operand d (imm8 d &' 7) s.1 &~ (1 <<' ((imm8 d >>' 3) &' 7))) s
         else cb_write d (imm8 d &' 7) (cb_operand d (imm8 d &' 7) s.1 |' (1 <<' ((imm8 d >>' 3) &' 7))) s.
Proof.
  intros Hb. unfold is_byte in Hb. unfold op_CB, cb_rot, cb_bit.
  assert (imm8 d >>' 6 = imm8 d / 64) as -> by (by rewrite Z.shiftr_div_pow2).
  destruct (Z.leb_spec 0x40 (imm8 d)), (Z.ltb_spec (imm8 d) 0x80), (Z.leb_spec 0x80 (imm8 d)),
    (Z.ltb_spec (imm8 d) 0xC0), (Z.leb_spec 0xC0 (imm8 d)); try lia; cbn [andb];
  destruct (Z.eqb_spec (imm8 d / 64) 0), (Z.eqb_spec (imm8 d / 64) 1), (Z.eqb_spec (imm8 d / 64) 2);
    try reflexivity; exfalso; Z.div_mod_to_equations; lia.
Qed.

(** ** The pass's tables cover every accepted instruction *)

Definition is_branch (d : z80_decoded) : bool := is_uncond_ender (dtype d) || is_cond_ender (dtype d).

(** [op_flag_effects] and [op_memptr_effect] claim no less than the
    operation does. *)
Definition covered (d : z80_decoded) (rd : Z) (rM wF wM : bool) : Prop :=
  (op_flag_effects d).1 &' rd = rd ∧ (wF = false → (op_flag_effects d).2 = 0) ∧
  match op_memptr_effect d with
  | MPTR_NONE => rM = false
  | MPTR_WRITE | MPTR_WRITE_FIXED => rM = false ∧ wM = true
  | MPTR_READ => wM = false
  end.

Definition op_covered (d : z80_decoded) (h : mach W → step_rc * mach W) : Prop :=
  ∃ g rd rM wF wM, (∀ s, h s = (RC_OK, g s)) ∧ effect rd rM wF wM g ∧ covered d rd rM wF wM.

Lemma covered_run d g rd rM wF wM :
  effect rd rM wF wM g → covered d rd rM wF wM → op_covered d (run g).
Proof. intros He Hc. exists g, rd, rM, wF, wM. by split_and!. Qed.
Lemma covered_pure d g rd rM wF wM :
  effect rd rM wF wM (on_cpu g) → covered d rd rM wF wM → op_covered d (pure g).
Proof. intros He Hc. exists (on_cpu g), rd, rM, wF, wM. by split_and!. Qed.
Lemma covered_neutral d g : neutral g → covered d 0 false false false → op_covered d (pure g).
Proof. intros Hg. apply covered_pure. by apply neutralM_effect, on_cpu_neutral. Qed.
Lemma covered_neutralM d g : neutralM g → covered d 0 false false false → op_covered d (run g).
Proof. intros Hg. apply covered_run. by apply neutralM_effect. Qed.

Lemma low_of_byte rd : is_byte rd → 0xFF &' rd = rd.
Proof. intros. by rewrite Z.land_comm, lo_land, u8_id. Qed.

Lemma cb_covered d : is_byte (imm8 d) → dtype d = Z80_OP_CB →
  (prefix d =? 0xCB) || (prefix d =? 0xDD) || (prefix d =? 0xFD) = true →
  op_covered d (run (op_CB d)).
Proof.
  intros Hb Ht Hp.
  assert (∀ g rd rM wF wM, (∀ s, op_CB d s = g s) → effect rd rM wF wM g →
    covered d rd rM wF wM → op_covered d (run (op_CB d))) as Hwrap.
  { intros g rd rM wF wM Eg He Hc. exists g, rd, rM, wF, wM. split_and!; [|done|done].
    intros s. unfold run. by rewrite Eg. }
  assert (negb (cb_indexed d) = (prefix d =? 0xCB)) as Hi.
  { unfold cb_indexed. destruct (Z.eqb_spec (prefix d) 0xCB) as [->|]; [done|]. cbn [orb] in Hp. by rewrite Hp. }
  pose proof (λ s, op_CB_family d s Hb) as EF.
  unfold covered, op_flag_effects, op_memptr_effect in Hwrap. rewrite Ht in Hwrap.
  destruct (imm8 d >>' 6 =? 0) eqn:E0.
  { apply Z.eqb_eq in E0. rewrite E0 in Hwrap. rewrite andb_false_r in Hwrap.
    eapply Hwrap; [exact EF|apply eff_cb_rot|]. cbn [fst snd Z.eqb andb].
    split_and!; [|done|done]. by case_match. }
  destruct (imm8 d >>' 6 =? 1) eqn:E1.
  { apply Z.eqb_eq in E1. rewrite andb_true_r in Hwrap. cbn [fst snd] in Hwrap.
    eapply Hwrap; [exact EF|apply eff_cb_bit|]. rewrite Hi. split_and!; [done|done|].
    by destruct ((prefix d =? 0xCB) && _). }
  rewrite andb_false_r in Hwrap. cbn [fst snd andb] in Hwrap.
  destruct (imm8 d >>' 6 =? 2); (eapply Hwrap; [exact EF|apply neutralM_effect|done]).
  - exact (neutral_cb_write_of d _ (λ c, cb_operand d (imm8 d &' 7) c &~ (1 <<' ((imm8 d >>' 3) &' 7))) (λ _ _ _, eq_refl)).
  - exact (neutral_cb_write_of d _ (λ c, cb_operand d (imm8 d &' 7) c |' (1 <<' ((imm8 d >>' 3) &' 7))) (λ _ _ _, eq_refl)).
Qed.

(** [covered] by computation, once the operation is known. *)
Ltac cov := match goal with E : dtype _ = _ |- _ =>
  unfold covered, op_flag_effects, op_memptr_effect; rewrite E; cbn [fst snd];
  split_and!; try apply Z.land_0_r; try reflexivity; try done end.
Ltac by_pure e := eapply covered_pure; [exact e|cov].
Ltac by_run e := eapply covered_run; [exact e|cov].
Ltac by_neutral e := apply covered_neutral; [exact e|cov].
Ltac by_neutralM e := apply covered_neutralM; [exact e|cov].

(** The accumulator's arithmetic. *)
Definition is_alu (t : z80_op_type) : bool :=
  match t with
  | Z80_OP_ADD_A_R | Z80_OP_ADD_A_N | Z80_OP_ADD_A_HL_ind | Z80_OP_ADC_A_R | Z80_OP_ADC_A_N | Z80_OP_ADC_A_HL_ind
  | Z80_OP_SUB_A_R | Z80_OP_SUB_A_N | Z80_OP_SUB_A_HL_ind | Z80_OP_SBC_A_R | Z80_OP_SBC_A_N | Z80_OP_SBC_A_HL_ind
  | Z80_OP_AND_A_R | Z80_OP_AND_A_N | Z80_OP_AND_A_HL_ind | Z80_OP_OR_A_R | Z80_OP_OR_A_N | Z80_OP_OR_A_HL_ind
  | Z80_OP_XOR_A_R | Z80_OP_XOR_A_N | Z80_OP_XOR_A_HL_ind | Z80_OP_CP_A_R | Z80_OP_CP_A_N | Z80_OP_CP_A_HL_ind => true
  | _ => false
  end.
Lemma alu_covered d old q : is_alu (dtype d) = true → op_covered d (exec d old q).
Proof.
  unfold exec. destruct (dtype d) eqn:E; try discriminate; intros _;
  lazymatch goal with E : dtype d = ?t |- _ => lazymatch t with
    | Z80_OP_ADD_A_R => by_pure (eff_alu_ADD (read_reg8 (reg1 d) d) (λ _ _ _, eq_refl))
    | Z80_OP_ADD_A_N => by_pure (eff_alu_ADD (λ _, imm8 d) (λ _ _ _, eq_refl))
    | Z80_OP_ADD_A_HL_ind => by_pure (eff_alu_ADD (read_reg8 6 d) (λ _ _ _, eq_refl))
    | Z80_OP_ADC_A_R => by_pure (eff_alu_ADC (read_reg8 (reg1 d) d) (λ _ _ _, eq_refl))
    | Z80_OP_ADC_A_N => by_pure (eff_alu_ADC (λ _, imm8 d) (λ _ _ _, eq_refl))
    | Z80_OP_ADC_A_HL_ind => by_pure (eff_alu_ADC (read_reg8 6 d) (λ _ _ _, eq_refl))
    | Z80_OP_SUB_A_R => by_pure (eff_alu_SUB (read_reg8 (reg1 d) d) (λ _ _ _, eq_refl))
    | Z80_OP_SUB_A_N => by_pure (eff_alu_SUB (λ _, imm8 d) (λ _ _ _, eq_refl))
    | Z80_OP_SUB_A_HL_ind => by_pure (eff_alu_SUB (read_reg8 6 d) (λ _ _ _, eq_refl))
    | Z80_OP_SBC_A_R => by_pure (eff_alu_SBC (read_reg8 (reg1 d) d) (λ _ _ _, eq_refl))
    | Z80_OP_SBC_A_N => by_pure (eff_alu_SBC (λ _, imm8 d) (λ _ _ _, eq_refl))
    | Z80_OP_SBC_A_HL_ind => by_pure (eff_alu_SBC (read_reg8 6 d) (λ _ _ _, eq_refl))
    | Z80_OP_AND_A_R => by_pure (eff_alu_AND (read_reg8 (reg1 d) d) (λ _ _ _, eq_refl))
    | Z80_OP_AND_A_N => by_pure (eff_alu_AND (λ _, imm8 d) (λ _ _ _, eq_refl))
    | Z80_OP_AND_A_HL_ind => by_pure (eff_alu_AND (read_reg8 6 d) (λ _ _ _, eq_refl))
    | Z80_OP_OR_A_R => by_pure (eff_alu_OR (read_reg8 (reg1 d) d) (λ _ _ _, eq_refl))
    | Z80_OP_OR_A_N => by_pure (eff_alu_OR (λ _, imm8 d) (λ _ _ _, eq_refl))
    | Z80_OP_OR_A_HL_ind => by_pure (eff_alu_OR (read_reg8 6 d) (λ _ _ _, eq_refl))
    | Z80_OP_XOR_A_R => by_pure (eff_alu_XOR (read_reg8 (reg1 d) d) (λ _ _ _, eq_refl))
    | Z80_OP_XOR_A_N => by_pure (eff_alu_XOR (λ _, imm8 d) (λ _ _ _, eq_refl))
    | Z80_OP_XOR_A_HL_ind => by_pure (eff_alu_XOR (read_reg8 6 d) (λ _ _ _, eq_refl))
    | Z80_OP_CP_A_R => by_pure (eff_alu_CP (read_reg8 (reg1 d) d) (λ _ _ _, eq_refl))
    | Z80_OP_CP_A_N => by_pure (eff_alu_CP (λ _, imm8 d) (λ _ _ _, eq_refl))
    | Z80_OP_CP_A_HL_ind => by_pure (eff_alu_CP (read_reg8 6 d) (λ _ _ _, eq_refl))
  end end.
Qed.

(** What the acceptance test says of the register codes. *)
Lemma accept_inc_dec d :
  (if reg1 d =? 6 then negb (has_idx d) else reg8_offset_ok (reg1 d)) = true →
  reg1 d = 6 ∨ reg8_offset_ok (reg1 d) = true.
Proof. destruct (Z.eqb_spec (reg1 d) 6); auto. Qed.

Lemma op_effect `{!HostBlind W} traps ports d pa old q :
  can_translate traps ports d pa = true → is_branch d = false → dec_ok 8 d →
  op_covered d (exec d old q).
Proof.
  intros Hc [Hu Hb]%orb_false_iff Hok.
  destruct (is_alu (dtype d)) eqn:Ha; [by apply alu_covered|].
  unfold can_translate in Hc. unfold exec.
  destruct (dtype d) eqn:E; try discriminate Hc; try discriminate Hu; try discriminate Hb; try discriminate Ha;
  lazymatch goal with E : dtype d = ?t |- _ => lazymatch t with
    | Z80_OP_NOP => by_neutralM (conj (λ _ _ _, eq_refl) (λ _, eq_refl) : neutralM (λ s, s))
    | Z80_OP_LD_R_N => by_neutralM (write_reg8_neutral (reg1 d) (imm8 d) d)
    | Z80_OP_LD_R_R => by_neutralM (neutral_write_reg8 (reg1 d) d (read_reg8 (reg2 d) d) (λ _ _ _, eq_refl))
    | Z80_OP_LD_HL_N => by_neutralM (write_reg8_neutral 6 (imm8 d) d)
    | Z80_OP_LD_HL_N_ind => by_neutralM (write_reg8_neutral 6 (imm8 d) d)
    | Z80_OP_LD_A_HL_ind =>
        by_neutral (conj (λ _ _ _, eq_refl) (λ _, eq_refl) : neutral (op_LD_A_HL_ind d))
    | Z80_OP_LD_HL_A_ind => by_neutralM (neutral_write_reg8 6 d rA (λ _ _ _, eq_refl))
    | Z80_OP_LD_R_HL_ind => by_neutralM (neutral_write_reg8 (reg2 d) d (read_reg8 6 d) (λ _ _ _, eq_refl))
    | Z80_OP_LD_HL_R_ind => by_neutralM (neutral_write_reg8 6 d (read_reg8 (reg2 d) d) (λ _ _ _, eq_refl))
    | Z80_OP_LD_RR_NN => by_neutral (neutral_LD_RR_NN d)
    | Z80_OP_LD_SP_HL => by_neutral (neutral_LD_SP_HL d)
    | Z80_OP_EX_DE_HL => by_neutral (conj (λ _ _ _, eq_refl) (λ _, eq_refl) : neutral op_EX_DE_HL)
    | Z80_OP_INC_RR => by_neutral (neutral_step_rr d 1)
    | Z80_OP_DEC_RR => by_neutral (neutral_step_rr d (-1))
    | Z80_OP_LD_A_BC => by_pure eff_LD_A_BC
    | Z80_OP_LD_A_DE => by_pure eff_LD_A_DE
    | Z80_OP_LD_BC_A => by_run eff_LD_BC_A
    | Z80_OP_LD_DE_A => by_run eff_LD_DE_A
    | Z80_OP_LD_A_NN => by_pure (eff_LD_A_NN d)
    | Z80_OP_LD_NN_A => by_run (eff_LD_NN_A d)
    | Z80_OP_LD_HL_indNN => by_pure (eff_LD_HL_indNN d)
    | Z80_OP_LD_NN_HL => by_run (eff_LD_NN_HL d)
    | Z80_OP_ADD_HL_RR => by_pure (eff_ADD_HL_RR d)
    | Z80_OP_EX_SP_HL => by_run (eff_EX_SP_HL d)
    | Z80_OP_RLCA => by_pure eff_RLCA
    | Z80_OP_RRCA => by_pure eff_RRCA
    | Z80_OP_RLA => by_pure eff_RLA
    | Z80_OP_RRA => by_pure eff_RRA
    | Z80_OP_DAA => by_pure eff_DAA
    | Z80_OP_CPL => by_pure eff_CPL
    | Z80_OP_SCF => by_pure (eff_SCF q)
    | Z80_OP_CCF => by_pure (eff_CCF q)
    | Z80_OP_INC_R => by_run (eff_INC_R d (accept_inc_dec d Hc))
    | Z80_OP_DEC_R => by_run (eff_DEC_R d (accept_inc_dec d Hc))
    | Z80_OP_INC_HL_ind => by_run (eff_INC_HL_ind d)
    | Z80_OP_DEC_HL_ind => by_run (eff_DEC_HL_ind d)
    | Z80_OP_LDIR => by_run (eff_LDIR_LDDR t)
    | Z80_OP_LDDR => by_run (eff_LDIR_LDDR t)
    | Z80_OP_IN_A_N => by_run (eff_IN_A_N d)
    | Z80_OP_OUT_N_A => by_run (eff_OUT_N_A d)
    | Z80_OP_CB => exact (cb_covered d (ok_imm8 8 d Hok) E Hc)
    | Z80_OP_PUSH_RR => idtac
    | Z80_OP_POP_RR => idtac
  end end.
  - destruct (decide (reg1 d = 3)) as [H3|H3].
    + eapply covered_run; [by apply eff_PUSH_AF|cov]. by rewrite H3.
    + apply covered_neutralM; [by apply neutral_PUSH|cov].
  - destruct (decide (reg1 d = 3)) as [H3|H3].
    + eapply covered_pure; [by apply eff_POP_AF|cov].
    + apply covered_neutral; [by apply neutral_POP|cov]. apply Z.eqb_neq in H3. by rewrite H3.
Qed.
End Effect.
