(* ===== verification/LivenessOk.v ===== *)
(** * LivenessOk: dead flags and MEMPTR stores can be dropped

    The block-level theorem over Liveness: an execution that leaves anything
    in the F bits and MEMPTR stores phase 2 of [dbt_translate_block] marks
    dead ends every scanned block, at every exit, in the interpreter's
    machine state. *)

From Stdlib Require Import ZArith Lia Bool List.
From stdpp Require Import base gmap list.
From S2P Require Import Prelude Cpu Decode Interp InterpOk.
From S2P Require Import Translate Block Scan Liveness.

Open Scope Z_scope.
Open Scope z80_scope.

(** ** Masks *)

Lemma live_before_byte d live : is_byte (live_before d live).
Proof. unfold live_before. destruct (op_flag_effects d). apply u8_byte. Qed.

Lemma live_before_reads d live rd : (op_flag_effects d).1 &' rd = rd → is_byte rd → live_before d live &' rd = rd.
Proof.
  unfold live_before. destruct (op_flag_effects d) as [rd0 wr]. cbn [fst]. intros Hs Hb.
  generalize (live &' u8 (Z.lnot wr)) as keep. intros keep. rewrite <- lo_land, <- Z.land_assoc, (Z.land_comm 255), lo_land, u8_id by done.
  apply Z.bits_inj'. intros n _. pose proof (f_equal (λ x, Z.testbit x n) Hs) as E. cbv beta in E.
  rewrite Z.land_spec in E. rewrite Z.land_spec, Z.lor_spec. revert E.
  destruct (Z.testbit rd0 n), (Z.testbit rd n), (Z.testbit _ n); cbn; congruence.
Qed.

Lemma op_reads_byte d : is_byte (op_flag_effects d).1.
Proof.
  unfold op_flag_effects. destruct (dtype d); try by split.
  all: cbv zeta; repeat case_match; by vm_compute.
Qed.

Lemma live_before_passes d live : (op_flag_effects d).2 = 0 → is_byte live → live_before d live &' live = live.
Proof.
  unfold live_before. destruct (op_flag_effects d) as [rd wr]. cbn [snd]. intros -> Hb.
  change (u8 (Z.lnot 0)) with 255. rewrite (lo_land live), (u8_id live) by done.
  rewrite <- lo_land, <- Z.land_assoc, (Z.land_comm 255), lo_land, u8_id by done.
  apply Z.bits_inj'. intros n _. rewrite !Z.land_spec, Z.lor_spec.
  by destruct (Z.testbit live n), (Z.testbit rd n).
Qed.

Lemma mask_kept a j m : ((a &' m) |' (j &~ m)) &' m = a &' m.
Proof.
  apply Z.bits_inj'. intros n Hn. rewrite !Z.land_spec, Z.lor_spec, Z.ldiff_spec, Z.land_spec.
  by destruct (Z.testbit a n), (Z.testbit j n), (Z.testbit m n).
Qed.

(** ** Execution without the dead work *)

Section Elide.
Context `{HW : Host W}.

(** [after], with [junk] in the F bits outside [mask], and the MEMPTR of
    [before] if the store was not emitted. *)
Definition drop_dead (mask : Z) (store : bool) (junk : Z) (before after : mach W) : mach W :=
  on_cpu (touch ((rF after.1 &' mask) |' (u8 junk &~ mask))
                (if store then memptr after.1 else memptr before.1)) after.

(** [run_ops] with the masks of [liveness]: branches as they are, every
    other instruction with its dead work replaced by [junk]. *)
Fixpoint run_elided (junk : nat → Z) (ops : list op_at) (masks : list (Z * bool)) (s : mach W) :
    step_rc * mach W :=
  match ops, masks with
  | (d, pc_after) :: ops, (mask, store) :: masks =>
      match step_dec d s with
      | (RC_OK, s') =>
          let s' := if is_branch d then s' else drop_dead mask store (junk (length ops)) s s' in
          if rPC s'.1 =? pc_after then run_elided junk ops masks s' else (RC_OK, s')
      | stopped => stopped
      end
  | _, _ => (RC_OK, s)
  end.

(** [s'] differs from [s] in dead F bits and a dead MEMPTR only. *)
Definition agree (live : Z) (mlive : bool) (s s' : mach W) : Prop :=
  ∃ f p, s' = on_cpu (touch f p) s ∧ is_byte f ∧ f &' live = rF s.1 &' live ∧
    (mlive = true → p = memptr s.1).

Lemma agree_refl live mlive s : cpu_ok s.1 → agree live mlive s s.
Proof. intros Hs. exists (rF s.1), (memptr s.1). split_and!; [by destruct s|by apply ok_rF|done|done]. Qed.

Lemma agree_all s s' : cpu_ok s.1 → agree 0xFF true s s' → s' = s.
Proof.
  intros Hs (f & p & -> & Hb & Hf & Hp). rewrite (reads_all f (rF s.1) Hb (ok_rF _ Hs) Hf), (Hp eq_refl).
  apply touch_id.
Qed.

Context `{!HostOk W, !HostBlind W} (traps ports : bool).

Lemma ok_step_dec d s : cpu_ok s.1 → dec_ok 8 d → cpu_ok (step_dec d s).2.1.
Proof using HostOk0.
  intros Hs Hd. unfold step_dec.
  assert (cpu_ok (exec d (rPC s.1) (rQ s.1) (on_cpu (advance d) s)).2.1) as He.
  { apply ok_exec; [done|in_range|]. by apply ok_on_cpu, ok_advance. }
  destruct (exec _ _ _ _) as [[] s']; [by apply ok_on_cpu, ok_bump_insn|done|done].
Qed.

(** A straight-line instruction keeps the two executions in agreement. *)
Lemma step_agree live mlive junk d pa s s' :
  can_translate traps ports d pa = true → is_branch d = false → dec_ok 8 d →
  is_byte live → cpu_ok s.1 →
  agree (live_before d live) (mptr_before d mlive) s s' →
  ∃ s1 s1', step_dec d s = (RC_OK, s1) ∧ step_dec d s' = (RC_OK, s1') ∧
    rPC s1.1 = u16 (rPC s.1 + nbytes d) ∧
    agree live mlive s1 (drop_dead live (mptr_store d mlive) junk s' s1').
Proof using HostBlind0 HostOk0.
  intros Hacc Hbr Hd Hl Hs (f & p & -> & Hfb & Hf & Hp).
  destruct (op_effect traps ports d pa (rPC s.1) (rQ s.1) Hacc Hbr Hd)
    as (g & rd & rM & wF & wM & Hg & [He HF HM Hpc] & Hrd & Hwr & Hmp).
  set (s0 := on_cpu (advance d) s).
  assert (is_byte rd) as Hrb.
  { rewrite <- Hrd. apply byte_land, op_reads_byte. }
  exists (on_cpu bump_insn (g s0)), (on_cpu bump_insn (g (on_cpu (touch f p) s0))).
  split_and!.
  - unfold step_dec. fold s0. by rewrite Hg.
  - unfold step_dec. change (on_cpu (advance d) (on_cpu (touch f p) s)) with (on_cpu (touch f p) s0).
    change (rPC (on_cpu (touch f p) s).1) with (rPC s.1). change (rQ (on_cpu (touch f p) s).1) with (rQ s.1).
    by rewrite Hg.
  - exact (Hpc s0).
  - assert (rM = true → p = memptr s0.1) as Hp0.
    { intros ->. apply Hp. unfold mptr_before. destruct (op_memptr_effect d); [done|by destruct Hmp|by destruct Hmp|done]. }
    rewrite (He f p s0 Hfb); [|by apply (ok_rF s.1)|exact (low_mask rd _ _ _ (live_before_reads d live rd Hrd Hrb) Hf)|done].
    set (f1 := if wF then rF (g s0).1 else f). set (p1 := if wM then memptr (g s0).1 else p).
    exists ((f1 &' live) |' (u8 junk &~ live)), (if mptr_store d mlive then p1 else p).
    split_and!; [reflexivity| | |].
    + apply byte_lor; [apply byte_land_r, Hl|apply byte_ldiff, u8_byte].
    + rewrite mask_kept. subst f1. destruct wF; [done|].
      change (f &' live = rF (g s0).1 &' live). rewrite HF by done.
      exact (low_mask live _ _ _ (live_before_passes d live (Hwr eq_refl) Hl) Hf).
    + intros ->. subst p1. unfold mptr_before, mptr_store in *.
      destruct (op_memptr_effect d).
      * destruct wM; [done|]. change (p = memptr (g s0).1). rewrite HM by done. by apply Hp.
      * by destruct Hmp as [_ ->].
      * by destruct Hmp as [_ ->].
      * subst wM. change (p = memptr (g s0).1). rewrite HM by done. by apply Hp.
Qed.

(** A conditional branch from contexts with the same F: the results are
    the same, or it is not taken and MEMPTR passes through. *)
Definition branch_result (d : z80_decoded) (s : mach W) (p : Z) (r r' : step_rc * mach W) : Prop :=
  r' = r ∨ op_memptr_effect d = MPTR_NONE ∧ r.1 = RC_OK ∧ rPC r.2.1 = u16 (rPC s.1 + nbytes d) ∧
    memptr r.2.1 = memptr s.1 ∧ r' = (RC_OK, on_cpu (touch (rF r.2.1) p) r.2).

Lemma cond_branch d (s : mach W) p :
  is_cond_ender (dtype d) = true →
  branch_result d s p (step_dec d s) (step_dec d (on_cpu (touch (rF s.1) p) s)).
Proof using Type.
  intros Hc. destruct s as [c w]. unfold branch_result, step_dec, op_memptr_effect, exec. cbn [fst].
  destruct (dtype d) eqn:E; try discriminate Hc; unfold pure, run, on_cpu; cbn [fst snd].
  all: lazymatch type of E with
    | _ = Z80_OP_JP_CC_NN => left; reflexivity
    | _ = Z80_OP_CALL_CC_NN => left; reflexivity
    | _ = Z80_OP_JR_CC_E =>
        unfold op_JR_CC_E;
        change (cond_true (cc d) (advance d (touch (rF c) p c))) with (cond_true (cc d) (advance d c));
        destruct (cond_true (cc d) (advance d c)); [left; reflexivity|right; by split_and!]
    | _ = Z80_OP_DJNZ =>
        unfold op_DJNZ; cbv zeta;
        change (rB (set_rB (u8 (rB (advance d (touch (rF c) p c)) - 1)) (advance d (touch (rF c) p c))))
          with (u8 (rB c - 1));
        change (rB (set_rB (u8 (rB (advance d c) - 1)) (advance d c))) with (u8 (rB c - 1));
        destruct (u8 (rB c - 1) =? 0); [right; by split_and!|left; reflexivity]
    | _ = Z80_OP_RET_CC =>
        unfold op_RET_CC;
        change (cond_true (cc d) (advance d (touch (rF c) p c))) with (cond_true (cc d) (advance d c));
        destruct (cond_true (cc d) (advance d c)); [left; reflexivity|right; by split_and!]
    end.
Qed.

Lemma cond_effects d : is_cond_ender (dtype d) = true → op_flag_effects d = (0xFF, 0).
Proof using Type. unfold op_flag_effects. by destruct (dtype d). Qed.
Lemma uncond_effects d :
  is_uncond_ender (dtype d) = true → op_flag_effects d = (0, 0) ∧ op_memptr_effect d = MPTR_NONE.
Proof using Type. unfold op_flag_effects, op_memptr_effect. by destruct (dtype d). Qed.

(** A branch keeps agreement, and agrees completely where it leaves. *)
Lemma branch_agree live mlive d s s' :
  is_branch d = true → (is_uncond_ender (dtype d) = true → live = 0xFF ∧ mlive = true) →
  is_byte live → cpu_ok s.1 → agree (live_before d live) (mptr_before d mlive) s s' →
  step_dec d s' = step_dec d s ∨
  ∃ s1 s1', step_dec d s = (RC_OK, s1) ∧ step_dec d s' = (RC_OK, s1') ∧
    rPC s1.1 = u16 (rPC s.1 + nbytes d) ∧ (cpu_ok s1.1 → agree live mlive s1 s1').
Proof using Type.
  unfold is_branch. destruct (is_uncond_ender (dtype d)) eqn:Hu.
  - intros _ [-> ->] _ Hs Ha; [done|]. destruct (uncond_effects d Hu) as [E1 E2].
    unfold live_before, mptr_before in Ha. rewrite E1, E2 in Ha. left. by rewrite (agree_all s s').
  - cbn [orb]. intros Hc _ Hl Hs (f & p & -> & Hb & Hf & Hp). unfold live_before, mptr_before in *.
    rewrite (cond_effects d Hc) in Hf.
    assert (u8 ((live &' u8 (Z.lnot 0)) |' 0xFF) = 0xFF) as E.
    { apply Z.eqb_eq. exact (forall_bytes (λ l, u8 ((l &' u8 (Z.lnot 0)) |' 0xFF) =? 0xFF) ltac:(by vm_compute) live Hl). }
    rewrite E in Hf. rewrite (reads_all f (rF s.1) Hb (ok_rF _ Hs) Hf) in *.
    destruct (cond_branch d s p Hc) as [->|(Em & Hr & Hpc & Hm & ->)]; [by left|right].
    rewrite Em in Hp. destruct (step_dec d s) as [rc s1]. cbn [fst snd] in *. subst rc.
    eexists _, _. split_and!; [reflexivity|reflexivity|done|]. intros Hs1.
    exists (rF s1.1), p. split_and!; [done|by apply ok_rF|done|]. intros Hml. rewrite Hm. by apply Hp.
Qed.

Lemma liveness_byte ops : is_byte (liveness ops).2.1.
Proof using Type.
  destruct ops as [|[d pa] ops]; cbn [liveness]; [by vm_compute|].
  destruct (liveness ops) as [masks [live mlive]]. apply live_before_byte.
Qed.

Lemma elided_agree junk gpc pc ops (s s' : mach W) :
  chained pc ops → accepted traps ports ops → superblock gpc ops → is_word pc →
  cpu_ok s.1 → rPC s.1 = pc → agree (liveness ops).2.1 (liveness ops).2.2 s s' →
  run_elided junk ops (liveness ops).1 s' = run_ops ops s.
Proof using HostBlind0 HostOk0.
  revert pc s s'. induction ops as [|[d pa] ops IH]; intros pc s s'.
  { intros _ _ _ _ Hs _ Ha. cbn in *. by rewrite (agree_all s s' Hs Ha). }
  intros (-> & Hd & Hch) Hacc Hsb Hpc Hs Hspc Ha. apply Forall_cons in Hacc as [Hac Hacc]. cbn [fst snd] in Hac.
  assert (superblock gpc ops) as Hsb' by (destruct ops; [done|apply Hsb]).
  pose proof (liveness_byte ops) as Hl. pose proof (ok_step_dec d s Hs Hd) as Hs1.
  specialize (IH (u16 (pc + nbytes d))).
  assert (is_uncond_ender (dtype d) = true → ops = []) as Hun.
  { destruct ops as [|o ops']; [done|]. intros Hu. destruct Hsb as [Hf _]. by rewrite Hf in Hu. }
  cbn [liveness] in *. destruct (liveness ops) as [masks [live mlive]] eqn:Hlv. cbn [fst snd] in *.
  cbn [run_elided run_ops]. destruct (is_branch d) eqn:Hbr.
  - destruct (branch_agree live mlive d s s') as [->|(s1 & s1' & E1 & -> & Hpc1 & Hag)]; try done.
    { intros Hu. rewrite (Hun Hu) in Hlv. cbn in Hlv. by injection Hlv as <- <- <-. }
    + destruct (step_dec d s) as [[] s1]; [|done|done]. cbn [fst snd] in *.
      destruct (Z.eqb_spec (rPC s1.1) (u16 (pc + nbytes d))) as [Hp|]; [|done].
      apply IH; try done; [in_range|by apply agree_refl].
    + rewrite E1 in *. cbn [fst snd] in *. rewrite Hspc in Hpc1. destruct (Hag Hs1) as (f & q & -> & Hr).
      change (rPC (on_cpu (touch f q) s1).1) with (rPC s1.1). rewrite Hpc1, Z.eqb_refl.
      apply IH; try done; [in_range|]. by exists f, q.
  - destruct (step_agree live mlive (junk (length ops)) d (u16 (pc + nbytes d)) s s')
      as (s1 & s1' & E1 & -> & Hpc1 & Hag); try done.
    rewrite E1 in *. cbn [fst snd] in *. rewrite Hspc in Hpc1. destruct Hag as (f & q & -> & Hr).
    change (rPC (on_cpu (touch f q) s1).1) with (rPC s1.1). rewrite Hpc1, Z.eqb_refl.
    apply IH; try done; [in_range|]. by exists f, q.
Qed.
End Elide.

(** ** The pass *)

(** C7: phase 2 of the translator is sound.  Run a scanned block with the F
    bits outside [fmask[i]] filled with arbitrary junk after every
    straight-line instruction and the MEMPTR store skipped wherever
    [mstore[i]] is 0: at every exit, a side exit or the end, the machine is
    exactly the one the interpreter leaves, every bit of F and MEMPTR
    included.  The port callbacks must not look at F and MEMPTR. *)
Theorem liveness_sound `{HW : Host W, !HostOk W, !HostBlind W} traps ports m pc ops e junk (s : mach W) :
  mem_ok m → is_word pc → scan_block traps ports m pc = Some (ops, e) →
  cpu_ok s.1 → rPC s.1 = pc →
  run_elided junk ops (liveness ops).1 s = run_ops ops s.
Proof.
  intros Hm Hpc Hscan Hs Hp.
  destruct (scan_block_spec traps ports m Hm pc ops e Hpc Hscan) as (Hch & _ & Hacc & Hsb & _).
  eapply elided_agree; try done. by apply agree_refl.
Qed.

Example liveness_sound_witness :
  (* XOR A; ADD A,B; LD A,(1234); LD A,(BC); JR NZ,0110; DEC A; RET *)
  let m := mset_list 0x100 [0xAF; 0x80; 0x3A; 0x34; 0x12; 0x0A; 0x20; 0x08; 0x3D; 0xC9] ∅ in
  let s : mach unit := (set_rPC 0x100 (set_rB 0x80 (set_mem m z80_cpu_init)), tt) in
  let ops := ops_of true false m 0x100 in
  (liveness ops).1 = [(0, true); (0xFF, true); (0xFF, false); (0xFF, true); (1, true); (0xFF, true); (0xFF, true)] ∧
  run_elided (λ _, 0x55) ops (liveness ops).1 s = run_ops ops s ∧
  rPC (run_ops ops s).2.1 = 0x110.
Proof.
  intros m s ops. split_and!; [by vm_compute| |by vm_compute].
  apply (liveness_sound true false m 0x100 ops 0x10A (λ _, 0x55) s).
  - in_range.
  - in_range.
  - by vm_compute.
  - apply ok_set_rPC; [|in_range]. apply ok_set_rB; [|in_range]. apply ok_set_mem; [apply z80_cpu_init_ok|in_range].
  - done.
Defined.
