(* ===== verification/HostRel.v ===== *)
(** * HostRel: what the interpreter does to its host

    The interpreter reaches the world outside the context only through the
    fields of [Host].  [HostRel] is a relation between two hosts that every
    field respects; [exec_rel] and [step_rel] say that then every operation
    and [z80_step] respect it too.  The run loop uses it twice: to compare a
    machine with a translator attached and one without, and to see a step as
    a sequence of stores. *)

From Stdlib Require Import ZArith Lia Bool List.
From stdpp Require Import base gmap list.
From S2P Require Import Prelude Cpu Decode Interp InterpOk.

Open Scope Z_scope.
Open Scope z80_scope.

(** Two results of a callback: the same context and value, related hosts. *)
Definition related {W1 W2 A} (R : z80_cpu → W1 → W2 → Prop) (r1 : A * mach W1) (r2 : A * mach W2) : Prop :=
  r2.1 = r1.1 ∧ r2.2.1 = r1.2.1 ∧ R r1.2.1 r1.2.2 r2.2.2.

Class HostRel (W1 W2 : Type) `{H1 : Host W1, H2 : Host W2} (R : z80_cpu → W1 → W2 → Prop) : Prop := {
  rel_ok c w1 w2 : R c w1 w2 → cpu_ok c;
  rel_cpu c c' w1 w2 : R c w1 w2 → mem c' = mem c → cpu_ok c' → R c' w1 w2;
  rel_store c w1 w2 a v : R c w1 w2 → is_word a → is_byte v →
    R (set_mem (mset a v (mem c)) c) (smc_store a w1) (smc_store a w2);
  rel_wait c w1 w2 : R c w1 w2 → R c (console_wait w1) (console_wait w2);
  rel_traps c w1 w2 : R c w1 w2 → traps_enabled w2 = traps_enabled w1;
  rel_in : match @port_in_hook W1 _, @port_in_hook W2 _ with
    | Some h1, Some h2 => ∀ p h c w1 w2, R c w1 w2 →
        is_byte (h1 p h (c, w1)).1 ∧ related R (h1 p h (c, w1)) (h2 p h (c, w2))
    | None, None => True
    | _, _ => False
    end;
  rel_out : match @port_out_hook W1 _, @port_out_hook W2 _ with
    | Some h1, Some h2 => ∀ p h v c w1 w2, R c w1 w2 →
        related R (tt, h1 p h v (c, w1)) (tt, h2 p h v (c, w2))
    | None, None => True
    | _, _ => False
    end;
  rel_bdos c w1 w2 : R c w1 w2 → related R (bdos_dispatch (c, w1)) (bdos_dispatch (c, w2));
  rel_bios c w1 w2 : R c w1 w2 → related R (bios_dispatch (c, w1)) (bios_dispatch (c, w2));
}.

(** The operations' lemmas, for the switch. *)
Create HintDb reldb discriminated.
#[export] Hint Constants Opaque : reldb.

Section Rel.
Context {W1 W2 : Type} `{H1 : Host W1, H2 : Host W2} (R : z80_cpu → W1 → W2 → Prop) `{HR : !HostRel W1 W2 R}.

Definition rm (s1 : mach W1) (s2 : mach W2) : Prop := s2.1 = s1.1 ∧ R s1.1 s1.2 s2.2.

Lemma rm_ok s1 s2 : rm s1 s2 → cpu_ok s1.1.
Proof using HR. intros [_ HRs]. by eapply rel_ok. Qed.
Lemma rm_eq s1 s2 : rm s1 s2 → s2.1 = s1.1.
Proof using Type. by intros []. Qed.

Lemma rm_on (f : z80_cpu → z80_cpu) s1 s2 :
  rm s1 s2 → mem (f s1.1) = mem s1.1 → cpu_ok (f s1.1) → rm (on_cpu f s1) (on_cpu f s2).
Proof using HR. destruct s1 as [c w1], s2 as [c2 w2]. intros [E HRs] Hm Hc. cbn in E. subst c2. split; [done|]. cbn in *. by eapply rel_cpu. Qed.

Lemma rm_store a v s1 s2 : rm s1 s2 → is_byte v → rm (mem_w a v s1) (mem_w a v s2).
Proof using HR. destruct s1 as [c w1], s2 as [c2 w2]. intros [E HRs] Hv. cbn in E. subst c2. split; [done|]. cbn in *. by apply rel_store; [|in_range|]. Qed.

Lemma rm_store16 a v s1 s2 : rm s1 s2 → is_word v → rm (mem_w16 a v s1) (mem_w16 a v s2).
Proof using HR. intros Hs Hv. unfold mem_w16. apply rm_store; [apply rm_store; [done|]|]; in_range. Qed.

Lemma rm_push v s1 s2 : rm s1 s2 → is_word v → rm (push16 v s1) (push16 v s2).
Proof using HR.
  intros Hs Hv. pose proof (rm_ok _ _ Hs). pose proof (rm_eq _ _ Hs) as E. unfold push16. cbv zeta.
  assert (rm (on_cpu (λ c, set_rSP (u16 (rSP c - 2)) c) s1) (on_cpu (λ c, set_rSP (u16 (rSP c - 2)) c) s2)) as Ho.
  { apply rm_on; [done|done|in_range]. }
  rewrite (rm_eq _ _ Ho). by apply rm_store16.
Qed.

Lemma rm_io_in p h s1 s2 : rm s1 s2 → is_byte (io_in p h s1).1 ∧
  (io_in p h s2).1 = (io_in p h s1).1 ∧ rm (io_in p h s1).2 (io_in p h s2).2.
Proof using HR.
  destruct s1 as [c w1], s2 as [c2 w2]. intros [E HRs]. cbn in E. subst c2. unfold io_in. pose proof rel_in as Hin.
  destruct (@port_in_hook W1 _), (@port_in_hook W2 _); try done.
  destruct (Hin p h c w1 w2 HRs) as (Hb & E1 & E2 & HR2). by split_and!.
Qed.

Lemma rm_io_out p h v s1 s2 : rm s1 s2 → rm (io_out p h v s1) (io_out p h v s2).
Proof using HR.
  destruct s1 as [c w1], s2 as [c2 w2]. intros [E HRs]. cbn in E. subst c2. unfold io_out. pose proof rel_out as Hout.
  destruct (@port_out_hook W1 _), (@port_out_hook W2 _); try done.
  by destruct (Hout p h v c w1 w2 HRs) as (_ & E2 & HR2).
Qed.

(** Results: the same return code, related machines. *)
Definition ro (r1 : step_rc * mach W1) (r2 : step_rc * mach W2) : Prop := r2.1 = r1.1 ∧ rm r1.2 r2.2.

Lemma rm_run_trap (d1 : mach W1 → bool * mach W1) (d2 : mach W2 → bool * mach W2) s1 s2 :
  (d2 s2).1 = (d1 s1).1 → rm (d1 s1).2 (d2 s2).2 → ro (run_trap d1 s1) (run_trap d2 s2).
Proof using HR.
  unfold run_trap. destruct (d1 s1) as [b t1], (d2 s2) as [b2 t2]. cbn. intros -> Ht.
  destruct b; split; try done. cbn. pose proof (rm_ok _ _ Ht). apply rm_on; [done|done|in_range].
Qed.

Lemma rm_bdos s1 s2 : rm s1 s2 → ro (run_trap bdos_dispatch s1) (run_trap bdos_dispatch s2).
Proof using HR.
  destruct s1 as [c w1], s2 as [c2 w2]. intros [E HRs]. cbn in E. subst c2.
  destruct (rel_bdos c w1 w2 HRs) as (Eb & Ec & HR2). by apply rm_run_trap.
Qed.
Lemma rm_bios s1 s2 : rm s1 s2 → ro (run_trap bios_dispatch s1) (run_trap bios_dispatch s2).
Proof using HR.
  destruct s1 as [c w1], s2 as [c2 w2]. intros [E HRs]. cbn in E. subst c2.
  destruct (rel_bios c w1 w2 HRs) as (Eb & Ec & HR2). by apply rm_run_trap.
Qed.

Lemma rm_traps_on s1 s2 : rm s1 s2 → traps_on s2 = traps_on s1.
Proof using HR. intros [E HRs]. unfold traps_on. by rewrite E, (rel_traps _ _ _ HRs). Qed.

Lemma rm_jump_traps s1 s2 : rm s1 s2 → ro (jump_traps s1) (jump_traps s2).
Proof using HR.
  intros Hs. unfold jump_traps. rewrite (rm_traps_on _ _ Hs), (rm_eq _ _ Hs).
  destruct (_ && _); [by apply rm_bdos|]. destruct (_ && _); [by apply rm_bios|done].
Qed.

Lemma rm_call_traps s1 s2 : rm s1 s2 → ro (call_traps s1) (call_traps s2).
Proof using HR.
  intros Hs. unfold call_traps. rewrite (rm_traps_on _ _ Hs), (rm_eq _ _ Hs).
  assert (∀ t1 t2, rm t1 t2 →
    ro (if traps_on t1 && in_bios (rPC t1.1) then run_trap bios_dispatch t1 else (RC_OK, t1))
       (if traps_on t2 && in_bios (rPC t2.1) then run_trap bios_dispatch t2 else (RC_OK, t2))) as Htail.
  { intros t1 t2 Ht. rewrite (rm_traps_on _ _ Ht), (rm_eq _ _ Ht). destruct (_ && _); [by apply rm_bios|done]. }
  destruct (_ && _); [|by apply Htail].
  destruct (rm_bdos _ _ Hs) as [E Ht].
  destruct (run_trap bdos_dispatch s1) as [rc1 t1], (run_trap bdos_dispatch s2) as [rc2 t2]. cbn in E. subst rc2.
  destruct rc1; [by apply Htail|done|done].
Qed.

(** ** The operations *)

Ltac keep_mem := cbn; repeat case_match; reflexivity.

Lemma mem_set_reg8_p r pfx v c : mem (set_reg8_p r pfx v c) = mem c.
Proof. unfold set_reg8_p. repeat case_match; reflexivity. Qed.
Lemma mem_write_rr r v c : mem (write_rr r v c) = mem c.
Proof. unfold write_rr. repeat case_match; reflexivity. Qed.
Lemma mem_set_idx16 pfx v c : mem (set_idx16 pfx v c) = mem c.
Proof. unfold set_idx16. repeat case_match; reflexivity. Qed.

Lemma rm_write_reg8 r v d s1 s2 : rm s1 s2 → is_byte v → dec_ok 8 d → rm (write_reg8 r v d s1) (write_reg8 r v d s2).
Proof using HR.
  intros Hs Hv Hd. pose proof (rm_ok _ _ Hs). unfold write_reg8. rewrite (rm_eq _ _ Hs).
  destruct (r =? 6); [by apply rm_store|]. apply rm_on; [done|apply mem_set_reg8_p|in_range].
Qed.

(** An operation that stores one byte and then updates the context. *)
Lemma rm_store_on a v (f : z80_cpu → z80_cpu) s1 s2 :
  rm s1 s2 → is_byte v → (∀ c, mem (f c) = mem c) → (∀ c, cpu_ok c → cpu_ok (f c)) →
  rm (on_cpu f (mem_w a v s1)) (on_cpu f (mem_w a v s2)).
Proof using HR.
  intros Hs Hv Hm Hc. pose proof (rm_store a v s1 s2 Hs Hv) as Ht. apply rm_on; [done|apply Hm|].
  apply Hc. by eapply rm_ok.
Qed.

Section Ops.
Context (d : z80_decoded) (Hd : dec_ok 8 d) (s1 : mach W1) (s2 : mach W2) (Hs : rm s1 s2).

(** Use the equality of the contexts, and the range of [s1]'s. *)
Local Lemma start : s2.1 = s1.1 ∧ cpu_ok s1.1.
Proof using Hs HR. split; [by apply rm_eq|by eapply rm_ok]. Qed.
Ltac start := pose proof start as [Heq Hok]; try rewrite Heq.

Lemma rm_LD_R_N : rm (op_LD_R_N d s1) (op_LD_R_N d s2).
Proof using Hd Hs HR. apply rm_write_reg8; [done|by apply (ok_imm8 8)|done]. Qed.
Lemma rm_LD_R_R : rm (op_LD_R_R d s1) (op_LD_R_R d s2).
Proof using Hd Hs HR. start. unfold op_LD_R_R. rewrite Heq. apply rm_write_reg8; [done|in_range|done]. Qed.
Lemma rm_LD_HL_N : rm (op_LD_HL_N d s1) (op_LD_HL_N d s2).
Proof using Hd Hs HR. apply rm_write_reg8; [done|by apply (ok_imm8 8)|done]. Qed.
Lemma rm_LD_HL_A_ind : rm (op_LD_HL_A_ind d s1) (op_LD_HL_A_ind d s2).
Proof using Hd Hs HR. start. unfold op_LD_HL_A_ind. rewrite Heq. apply rm_write_reg8; [done|in_range|done]. Qed.
Lemma rm_LD_R_HL_ind : rm (op_LD_R_HL_ind d s1) (op_LD_R_HL_ind d s2).
Proof using Hd Hs HR. start. unfold op_LD_R_HL_ind. rewrite Heq. apply rm_write_reg8; [done|in_range|done]. Qed.
Lemma rm_LD_HL_R_ind : rm (op_LD_HL_R_ind d s1) (op_LD_HL_R_ind d s2).
Proof using Hd Hs HR. start. unfold op_LD_HL_R_ind. rewrite Heq. apply rm_write_reg8; [done|in_range|done]. Qed.
Lemma rm_INC_HL_ind : rm (op_INC_HL_ind d s1) (op_INC_HL_ind d s2).
Proof using Hd Hs HR.
  start. unfold op_INC_HL_ind. rewrite Heq. cbv zeta. apply rm_store_on; [done|in_range|done|].
  intros c Hc. apply ok_with_f; [done|apply byte_inc_flags].
Qed.
Lemma rm_DEC_HL_ind : rm (op_DEC_HL_ind d s1) (op_DEC_HL_ind d s2).
Proof using Hd Hs HR.
  start. unfold op_DEC_HL_ind. rewrite Heq. cbv zeta. apply rm_store_on; [done|in_range|done|].
  intros c Hc. apply ok_with_f; [done|apply byte_dec_flags].
Qed.
Lemma rm_LD_NN_A : rm (op_LD_NN_A d s1) (op_LD_NN_A d s2).
Proof using Hd Hs HR. start. unfold op_LD_NN_A. rewrite Heq. apply rm_store_on; [done|in_range|done|]. in_range. Qed.
Lemma rm_LD_DE_A : rm (op_LD_DE_A s1) (op_LD_DE_A s2).
Proof using Hs HR. start. unfold op_LD_DE_A. rewrite Heq. apply rm_store_on; [done|in_range|done|]. in_range. Qed.
Lemma rm_LD_BC_A : rm (op_LD_BC_A s1) (op_LD_BC_A s2).
Proof using Hs HR. start. unfold op_LD_BC_A. rewrite Heq. apply rm_store_on; [done|in_range|done|]. in_range. Qed.

Lemma rm_INC_R : rm (op_INC_R d s1) (op_INC_R d s2).
Proof using Hd Hs HR.
  start. unfold op_INC_R. destruct (reg1 d =? 6); [by apply rm_INC_HL_ind|]. rewrite Heq.
  destruct (reg8_p _ _ _); [|done]. cbv zeta. apply rm_on; [done|apply mem_set_reg8_p|].
  apply ok_with_f; [in_range|apply byte_inc_flags].
Qed.
Lemma rm_DEC_R : rm (op_DEC_R d s1) (op_DEC_R d s2).
Proof using Hd Hs HR.
  start. unfold op_DEC_R. destruct (reg1 d =? 6); [by apply rm_DEC_HL_ind|]. rewrite Heq.
  destruct (reg8_p _ _ _); [|done]. cbv zeta. apply rm_on; [done|apply mem_set_reg8_p|].
  apply ok_with_f; [in_range|apply byte_dec_flags].
Qed.
Lemma idx16_in_word pfx c : cpu_ok c → is_word (idx16 pfx c).
Proof using Type. unfold idx16. in_range. Qed.
Lemma rm_EX_SP_HL : rm (op_EX_SP_HL d s1) (op_EX_SP_HL d s2).
Proof using Hd Hs HR.
  start. unfold op_EX_SP_HL. rewrite Heq. cbv zeta.
  assert (rm (mem_w16 (rSP s1.1) (idx16 (prefix d) s1.1) s1) (mem_w16 (rSP s1.1) (idx16 (prefix d) s1.1) s2)) as Ht
    by (apply rm_store16; [done|by apply idx16_in_word]).
  apply rm_on; [done|apply mem_set_idx16|]. pose proof (rm_ok _ _ Ht). unfold set_idx16. repeat case_match; in_range.
Qed.
Lemma rm_HALT : rm (op_HALT s1) (op_HALT s2).
Proof using Hs HR. destruct Hs as [E HRs]. split; [done|]. cbn. by apply rel_wait. Qed.
Lemma rm_JP_NN : ro (op_JP_NN d s1) (op_JP_NN d s2).
Proof using Hd Hs HR. start. apply rm_jump_traps, rm_on; [done|done|in_range]. Qed.
Lemma rm_JP_CC_NN : ro (op_JP_CC_NN d s1) (op_JP_CC_NN d s2).
Proof using Hd Hs HR.
  start. unfold op_JP_CC_NN. cbv zeta.
  assert (rm (on_cpu (set_memptr (imm16 d)) s1) (on_cpu (set_memptr (imm16 d)) s2)) as Ht
    by (apply rm_on; [done|done|in_range]).
  rewrite (rm_eq _ _ Ht). destruct (cond_true _ _); [|done].
  apply rm_jump_traps, rm_on; [done|done|]. pose proof (rm_ok _ _ Ht). in_range.
Qed.
Lemma rm_JP_HL : ro (op_JP_HL s1) (op_JP_HL s2).
Proof using Hs HR. start. apply rm_jump_traps, rm_on; [done|done|in_range]. Qed.
Lemma rm_CALL_NN : ro (op_CALL_NN d s1) (op_CALL_NN d s2).
Proof using Hd Hs HR.
  start. unfold op_CALL_NN. rewrite Heq. cbv zeta.
  assert (rm (push16 (rPC s1.1) s1) (push16 (rPC s1.1) s2)) as Ht by (apply rm_push; [done|in_range]).
  pose proof (rm_ok _ _ Ht). apply rm_call_traps, rm_on; [done|done|in_range].
Qed.
Lemma rm_CALL_CC_NN : rm (op_CALL_CC_NN d s1) (op_CALL_CC_NN d s2).
Proof using Hd Hs HR.
  start. unfold op_CALL_CC_NN. cbv zeta.
  assert (rm (on_cpu (set_memptr (imm16 d)) s1) (on_cpu (set_memptr (imm16 d)) s2)) as Ht
    by (apply rm_on; [done|done|in_range]).
  rewrite (rm_eq _ _ Ht). pose proof (rm_ok _ _ Ht). destruct (cond_true _ _); [|done].
  set (t1 := on_cpu _ s1) in *. set (t2 := on_cpu _ s2) in *.
  assert (rm (push16 (rPC t1.1) t1) (push16 (rPC t1.1) t2)) as Hu by (apply rm_push; [done|in_range]).
  pose proof (rm_ok _ _ Hu). apply rm_on; [done|done|in_range].
Qed.
Lemma rm_RET : ro (op_RET s1) (op_RET s2).
Proof using Hs HR.
  start. unfold op_RET. assert (rm (on_cpu ret_to s1) (on_cpu ret_to s2)) as Ht.
  { apply rm_on; [done|done|]. unfold ret_to. in_range. }
  cbv zeta. rewrite (rm_eq _ _ Ht). by split.
Qed.
Lemma rm_PUSH_RR : rm (op_PUSH_RR d s1) (op_PUSH_RR d s2).
Proof using Hd Hs HR.
  start. unfold op_PUSH_RR. rewrite Heq. apply rm_push; [done|]. repeat case_match; in_range.
Qed.
Lemma rm_RST : rm (op_RST d s1) (op_RST d s2).
Proof using Hd Hs HR.
  start. unfold op_RST. rewrite Heq. cbv zeta.
  assert (rm (push16 (rPC s1.1) s1) (push16 (rPC s1.1) s2)) as Ht by (apply rm_push; [done|in_range]).
  pose proof (rm_ok _ _ Ht). apply rm_on; [done|done|in_range].
Qed.
Lemma rm_OUT_N_A : rm (op_OUT_N_A d s1) (op_OUT_N_A d s2).
Proof using Hd Hs HR.
  start. unfold op_OUT_N_A. rewrite Heq. cbv zeta.
  pose proof (rm_io_out (imm8 d) (rA s1.1) (rA s1.1) s1 s2 Hs) as Ht. pose proof (rm_ok _ _ Ht).
  apply rm_on; [done|done|in_range].
Qed.
Lemma rm_IN_A_N : rm (op_IN_A_N d s1) (op_IN_A_N d s2).
Proof using Hd Hs HR.
  start. unfold op_IN_A_N. rewrite Heq. cbv zeta.
  destruct (rm_io_in (imm8 d) (rA s1.1) s1 s2 Hs) as (Hb & E & Ht). pose proof (rm_ok _ _ Ht) as Hok'.
  destruct (io_in _ _ s1) as [v t1], (io_in _ _ s2) as [v2 t2]. cbn in Hb, E, Ht, Hok'. subst v2.
  apply rm_on; [done|done|in_range].
Qed.
Lemma rm_OUT_C_R : rm (op_OUT_C_R d s1) (op_OUT_C_R d s2).
Proof using Hd Hs HR.
  start. unfold op_OUT_C_R. rewrite Heq. cbv zeta.
  set (v := if reg1 d =? 6 then _ else _).
  pose proof (rm_io_out (rC s1.1) (rB s1.1) v s1 s2 Hs) as Ht. pose proof (rm_ok _ _ Ht).
  apply rm_on; [done|done|in_range].
Qed.
Lemma mem_io_write_r8 r v c : mem (io_write_r8 r v c) = mem c.
Proof using Type. unfold io_write_r8. repeat case_match; reflexivity. Qed.
Lemma rm_IN_R_C : rm (op_IN_R_C d s1) (op_IN_R_C d s2).
Proof using Hd Hs HR.
  start. unfold op_IN_R_C. rewrite Heq.
  destruct (rm_io_in (rC s1.1) (rB s1.1) s1 s2 Hs) as (Hb & E & Ht). pose proof (rm_ok _ _ Ht) as Hok'.
  destruct (io_in _ _ s1) as [v t1], (io_in _ _ s2) as [v2 t2]. cbn in Hb, E, Ht, Hok'. subst v2.
  apply rm_on; [done| |].
  - cbv zeta. destruct (reg1 d =? 6); [done|]. exact (mem_io_write_r8 (reg1 d) v (set_memptr (u16 (rBC t1.1 + 1)) t1.1)).
  - cbv zeta. set (c1 := if reg1 d =? 6 then _ else _).
    assert (cpu_ok c1) by (subst c1; destruct (reg1 d =? 6); [in_range|apply ok_io_write_r8; in_range]).
    clearbody c1. assert (cpu_ok (set_flags_logic v c1)) by (apply ok_with_f; [done|apply byte_logic_flags]).
    apply ok_with_f; in_range.
Qed.
Lemma rm_LD_NN_RR : rm (op_LD_NN_RR d s1) (op_LD_NN_RR d s2).
Proof using Hd Hs HR.
  start. unfold op_LD_NN_RR. rewrite Heq.
  assert (rm (mem_w16 (imm16 d) (rr_operand d s1.1) s1) (mem_w16 (imm16 d) (rr_operand d s1.1) s2)) as Ht
    by (apply rm_store16; [done|unfold rr_operand; in_range]).
  pose proof (rm_ok _ _ Ht). apply rm_on; [done|done|in_range].
Qed.
Lemma rm_LD_NN_HL : rm (op_LD_NN_HL d s1) (op_LD_NN_HL d s2).
Proof using Hd Hs HR.
  start. unfold op_LD_NN_HL. rewrite Heq.
  assert (rm (mem_w16 (imm16 d) (idx16 (prefix d) s1.1) s1) (mem_w16 (imm16 d) (idx16 (prefix d) s1.1) s2)) as Ht
    by (apply rm_store16; [done|by apply idx16_in_word]).
  pose proof (rm_ok _ _ Ht). apply rm_on; [done|done|in_range].
Qed.

Lemma rm_RRD_RLD t : rm (op_RRD_RLD t s1) (op_RRD_RLD t s2).
Proof using Hs HR.
  start. unfold op_RRD_RLD. rewrite Heq. cbv zeta.
  destruct (match t with Z80_OP_RRD => _ | _ => _ end) as [a m] eqn:E.
  assert (is_byte a ∧ is_byte m) as [].
  { assert (is_byte (mget (mem s1.1) (rHL s1.1))) by in_range. destruct t; injection E as <- <-; split; in_range. }
  apply rm_store_on; [|done|done|].
  - apply rm_on; [done|done|in_range].
  - intros c Hc. apply ok_with_f; [done|apply byte_szp_flags].
Qed.

Lemma rm_cb_write r v : is_byte v → rm (cb_write d r v s1) (cb_write d r v s2).
Proof using Hs HR.
  intros Hv. start. unfold cb_write. rewrite Heq. cbv zeta.
  assert (rm (mem_w (cb_addr d s1.1) v s1) (mem_w (cb_addr d s1.1) v s2)) as Ht by (by apply rm_store).
  pose proof (rm_ok _ _ Ht). destruct (cb_mem d r).
  - destruct (_ && _); [|done]. apply rm_on; [done|apply mem_set_reg8_p|in_range].
  - apply rm_on; [done|apply mem_set_reg8_p|in_range].
Qed.

Lemma rm_CB : rm (op_CB d s1) (op_CB d s2).
Proof using Hs HR.
  start. unfold op_CB. rewrite Heq. cbv zeta.
  pose proof (cb_operand_byte d s1 Hok (imm8 d &' 7)) as Hv.
  destruct ((0x40 <=? imm8 d) && _); [apply rm_on; [done|done|]; apply ok_with_f; [done|apply byte_cb_bit_flags]|].
  destruct (_ && _); [apply rm_cb_write; in_range|].
  destruct (0xC0 <=? _); [apply rm_cb_write, byte_or_bit; auto using low3_bound|].
  destruct (cb_shift _ _ _) as [k r] eqn:E.
  pose proof (cb_shift_byte ((imm8 d >>' 3) &' 7) _ (nz (rF s1.1 &' FLAG_C)) Hv) as Hr. rewrite E in Hr.
  pose proof (rm_cb_write (imm8 d &' 7) r Hr) as Ht. pose proof (rm_ok _ _ Ht).
  apply rm_on; [done|done|]. apply ok_with_f; [done|apply byte_cb_shift_flags].
Qed.
End Ops.

(** ** The in-step loops *)

Lemma rm_ld_one incr s1 s2 : rm s1 s2 →
  (ld_one incr s2).1 = (ld_one incr s1).1 ∧ rm (ld_one incr s1).2 (ld_one incr s2).2.
Proof using HR.
  intros Hs. pose proof (rm_ok _ _ Hs). unfold ld_one. rewrite (rm_eq _ _ Hs). cbn [fst snd]. split; [done|].
  assert (rm (mem_w (rDE s1.1) (mget (mem s1.1) (rHL s1.1)) s1) (mem_w (rDE s1.1) (mget (mem s1.1) (rHL s1.1)) s2)) as Ht
    by (apply rm_store; [done|in_range]).
  revert Ht. generalize (mem_w (rDE s1.1) (mget (mem s1.1) (rHL s1.1)) s1) (mem_w (rDE s1.1) (mget (mem s1.1) (rHL s1.1)) s2).
  intros t1 t2 Ht. pose proof (rm_ok _ _ Ht). apply (rm_on (λ c, set_BC _ _)).
  - apply (rm_on (λ c, set_DE _ _)); [apply (rm_on (λ c, set_HL _ _))|done|]; [done|done|in_range|in_range].
  - done.
  - cbn [fst on_cpu]. in_range.
Qed.

Lemma rm_ld_loop fuel incr last s1 s2 : rm s1 s2 →
  (ld_loop fuel incr last s2).1 = (ld_loop fuel incr last s1).1 ∧
  rm (ld_loop fuel incr last s1).2 (ld_loop fuel incr last s2).2.
Proof using HR.
  revert last s1 s2. induction fuel as [|fuel IH]; intros last s1 s2 Hs; [done|]. cbn [ld_loop].
  rewrite (rm_eq _ _ Hs). destruct (rBC s1.1 =? 0); [done|].
  destruct (rm_ld_one incr s1 s2 Hs) as [E Ht].
  destruct (ld_one incr s1) as [v t1], (ld_one incr s2) as [v2 t2]. cbn in E, Ht. subst v2. by apply IH.
Qed.

Lemma rm_LDIR_LDDR t s1 s2 : rm s1 s2 → rm (op_LDIR_LDDR t s1) (op_LDIR_LDDR t s2).
Proof using HR.
  intros Hs. unfold op_LDIR_LDDR. rewrite (rm_eq _ _ Hs).
  destruct (rm_ld_loop (Z.to_nat (rBC s1.1)) (match t with Z80_OP_LDIR => 1 | _ => -1 end) 0 s1 s2 Hs) as [E Ht].
  destruct (ld_loop _ _ _ s1) as [v t1], (ld_loop _ _ _ s2) as [v2 t2]. cbn in E, Ht. subst v2.
  pose proof (rm_ok _ _ Ht). apply rm_on; [done|done|]. apply ok_with_f; [done|apply byte_ldir_flags].
Qed.
Lemma rm_LDI_LDD t s1 s2 : rm s1 s2 → rm (op_LDI_LDD t s1) (op_LDI_LDD t s2).
Proof using HR.
  intros Hs. unfold op_LDI_LDD.
  destruct (rm_ld_one (match t with Z80_OP_LDI => 1 | _ => -1 end) s1 s2 Hs) as [E Ht].
  destruct (ld_one _ s1) as [v t1], (ld_one _ s2) as [v2 t2]. cbn in E, Ht. subst v2.
  pose proof (rm_ok _ _ Ht). apply rm_on; [done|done|]. apply ok_with_f; [done|apply byte_ldi_flags].
Qed.

(** One pass of a port loop: the same byte and sum, related machines. *)
Definition body_rel (b1 : mach W1 → Z * Z * mach W1) (b2 : mach W2 → Z * Z * mach W2) : Prop :=
  ∀ s1 s2, rm s1 s2 → (b2 s2).1 = (b1 s1).1 ∧ rm (b1 s1).2 (b2 s2).2.

Lemma rm_io_body_in step : body_rel (io_body_in step) (io_body_in step).
Proof using HR.
  intros s1 s2 Hs. unfold io_body_in. rewrite (rm_eq _ _ Hs).
  destruct (rm_io_in (rC s1.1) (rB s1.1) s1 s2 Hs) as (Hb & E & Ht).
  destruct (io_in _ _ s1) as [v t1], (io_in _ _ s2) as [v2 t2]. cbn in Hb, E, Ht. subst v2.
  pose proof (rm_ok _ _ Ht) as Hok. pose proof (rm_eq _ _ Ht) as Heq. cbv zeta.
  cbn [on_cpu fst snd mem_w]. rewrite Heq. split; [done|].
  change (rm (on_cpu (λ c, set_HL (u16 (rHL c + step)) c) (on_cpu (λ c, set_rB (u8 (rB c - 1)) c)
    (mem_w (rHL t1.1) v (on_cpu (λ c, set_memptr (u16 (rBC c + step)) c) t1))))
    (on_cpu (λ c, set_HL (u16 (rHL c + step)) c) (on_cpu (λ c, set_rB (u8 (rB c - 1)) c)
    (mem_w (rHL t1.1) v (on_cpu (λ c, set_memptr (u16 (rBC c + step)) c) t2))))).
  assert (rm (mem_w (rHL t1.1) v (on_cpu (λ c, set_memptr (u16 (rBC c + step)) c) t1))
             (mem_w (rHL t1.1) v (on_cpu (λ c, set_memptr (u16 (rBC c + step)) c) t2))) as Hu.
  { apply rm_store; [apply rm_on; [done|done|in_range]|done]. }
  revert Hu. generalize (mem_w (rHL t1.1) v (on_cpu (λ c, set_memptr (u16 (rBC c + step)) c) t1))
    (mem_w (rHL t1.1) v (on_cpu (λ c, set_memptr (u16 (rBC c + step)) c) t2)).
  intros u1 u2 Hu. pose proof (rm_ok _ _ Hu). apply (rm_on (λ c, set_HL _ _)); [|done|cbn; in_range].
  apply (rm_on (λ c, set_rB _ _)); [done|done|in_range].
Qed.

Lemma rm_io_body_out step : body_rel (io_body_out step) (io_body_out step).
Proof using HR.
  intros s1 s2 Hs. pose proof (rm_ok _ _ Hs). unfold io_body_out. rewrite (rm_eq _ _ Hs). cbv zeta.
  set (v := mget (mem s1.1) (rHL s1.1)).
  assert (rm (on_cpu (λ c, set_rB (u8 (rB c - 1)) c) s1) (on_cpu (λ c, set_rB (u8 (rB c - 1)) c) s2)) as Ht
    by (apply rm_on; [done|done|in_range]).
  rewrite (rm_eq _ _ Ht). revert Ht.
  generalize (on_cpu (λ c, set_rB (u8 (rB c - 1)) c) s1) (on_cpu (λ c, set_rB (u8 (rB c - 1)) c) s2).
  intros t1 t2 Ht. pose proof (rm_io_out (rC t1.1) (rB t1.1) v t1 t2 Ht) as Hu. revert Hu.
  generalize (io_out (rC t1.1) (rB t1.1) v t1) (io_out (rC t1.1) (rB t1.1) v t2). intros u1 u2 Hu.
  pose proof (rm_ok _ _ Hu). cbn [fst snd on_cpu]. rewrite (rm_eq _ _ Hu). split; [done|].
  apply (rm_on (λ c, set_memptr (u16 (rBC c + step)) c) (on_cpu (λ c, set_HL _ c) u1) (on_cpu (λ c, set_HL _ c) u2));
    [|done|cbn; in_range].
  apply (rm_on (λ c, set_HL _ _)); [done|done|in_range].
Qed.

Lemma rm_io_loop fuel rep b1 b2 s1 s2 : body_rel b1 b2 → rm s1 s2 →
  (io_loop fuel rep b2 s2).1 = (io_loop fuel rep b1 s1).1 ∧
  rm (io_loop fuel rep b1 s1).2 (io_loop fuel rep b2 s2).2.
Proof using HR.
  intros Hb. revert s1 s2. induction fuel as [|fuel IH]; intros s1 s2 Hs; cbn [io_loop];
    destruct (Hb s1 s2 Hs) as [E Ht]; destruct (b1 s1) as [[v k] t1], (b2 s2) as [[v2 k2] t2]; cbn [fst snd] in *;
    injection E as -> ->; [done|].
  rewrite (rm_eq _ _ Ht). destruct (_ && _); [by apply IH|done].
Qed.

Lemma rm_io_block t s1 s2 : rm s1 s2 → rm (io_block t s1) (io_block t s2).
Proof using HR.
  intros Hs. unfold io_block. set (step := if io_down t then -1 else 1).
  assert (body_rel (if io_dir_in t then io_body_in step else io_body_out step)
                   (if io_dir_in t then io_body_in step else io_body_out step)) as Hb
    by (destruct (io_dir_in t); [apply rm_io_body_in|apply rm_io_body_out]).
  destruct (rm_io_loop 255 (io_rep t) _ _ s1 s2 Hb Hs) as [E Ht].
  destruct (io_loop _ _ _ s1) as [[v k] t1], (io_loop _ _ _ s2) as [[v2 k2] t2]. cbn [fst snd] in *.
  injection E as -> ->. pose proof (rm_ok _ _ Ht). apply rm_on; [done|done|]. apply ok_with_f; [done|apply byte_io_flags].
Qed.

(** ** The switch and the step *)

Lemma rm_pure f s1 s2 : rm s1 s2 → mem (f s1.1) = mem s1.1 → cpu_ok (f s1.1) → ro (pure f s1) (pure f s2).
Proof using HR. intros. split; [done|]. by apply rm_on. Qed.
Lemma rm_run (g1 : mach W1 → mach W1) (g2 : mach W2 → mach W2) s1 s2 : rm (g1 s1) (g2 s2) → ro (run g1 s1) (run g2 s2).
Proof using Type. intros. by split. Qed.

(** Whatever [exec] does in a host of no effects keeps the context in range;
    a case that only touches the context does the same in every host. *)
Lemma pure_ok d old_pc q (c : z80_cpu) f :
  dec_ok 8 d → is_word old_pc → cpu_ok c →
  exec (W := unit) d old_pc q = pure f → cpu_ok (f c).
Proof using Type.
  intros Hd Hpc Hc E. pose proof (ok_exec (H0 := bare_host_ok) d old_pc q (c, tt) Hd Hpc Hc) as H. by rewrite E in H.
Qed.

#[local] Hint Resolve rm_LD_R_N rm_LD_R_R rm_LD_HL_N rm_LD_HL_A_ind rm_LD_R_HL_ind rm_LD_HL_R_ind
  rm_INC_HL_ind rm_DEC_HL_ind rm_LD_NN_A rm_LD_DE_A rm_LD_BC_A rm_INC_R rm_DEC_R rm_EX_SP_HL rm_HALT
  rm_CALL_CC_NN rm_PUSH_RR rm_RST rm_OUT_N_A rm_IN_A_N rm_OUT_C_R rm_IN_R_C rm_LD_NN_RR rm_LD_NN_HL
  rm_RRD_RLD rm_CB rm_LDIR_LDDR rm_LDI_LDD rm_io_block rm_JP_NN rm_JP_CC_NN rm_JP_HL rm_CALL_NN rm_RET : reldb.
Ltac head_of t := lazymatch t with ?f _ => head_of f | _ => t end.
Ltac frame_mem := cbv zeta; repeat case_match; simplify_eq; cbv zeta;
  rewrite ?mem_set_reg8_p, ?mem_write_rr, ?mem_set_idx16; reflexivity.

Lemma exec_rel d old_pc q s1 s2 :
  dec_ok 8 d → is_word old_pc → rm s1 s2 → ro (exec d old_pc q s1) (exec d old_pc q s2).
Proof using HR.
  intros Hd Hpc Hs. pose proof (rm_ok _ _ Hs) as Hok. pose proof (pure_ok d old_pc q s1.1) as Hp.
  unfold exec in *. destruct (dtype d); try (by split);
    try (apply rm_run; by auto with reldb); try (by auto with reldb).
  all: apply rm_pure; [done| |by apply Hp].
  all: lazymatch goal with |- mem (?f _) = _ => let h := head_of f in unfold h end.
  all: try frame_mem.
  - exact (mem_set_idx16 (prefix d) _ s1.1).
  - cbv zeta. destruct (reg1 d =? 3); [reflexivity|exact (mem_write_rr (reg1 d) _ s1.1)].
Qed.

Lemma step_rel s1 s2 : rm s1 s2 → ro (z80_step s1) (z80_step s2).
Proof using HR.
  intros Hs. pose proof (rm_ok _ _ Hs) as Hok. unfold z80_step. rewrite (rm_eq _ _ Hs). cbv zeta.
  set (d := z80_decode_one _ _). assert (dec_ok 8 d) as Hd by (apply decode_ok; in_range).
  assert (rm (on_cpu (advance d) s1) (on_cpu (advance d) s2)) as Ha
    by (apply rm_on; [done|done|by apply ok_advance]).
  destruct (exec_rel d (rPC s1.1) (rQ s1.1) _ _ Hd ltac:(in_range) Ha) as [E Ht].
  destruct (exec _ _ _ (on_cpu _ s1)) as [rc t1], (exec _ _ _ (on_cpu _ s2)) as [rc2 t2]. cbn in E, Ht. subst rc2.
  destruct rc; split; try done. apply rm_on; [done|done|]. apply ok_bump_insn. by eapply rm_ok.
Qed.

Lemma steps_rel n s1 s2 : rm s1 s2 → ro (z80_steps n s1) (z80_steps n s2).
Proof using HR.
  revert s1 s2. induction n as [|n IH]; intros s1 s2 Hs; [by split|]. cbn [z80_steps].
  destruct (step_rel s1 s2 Hs) as [E Ht].
  destruct (z80_step s1) as [rc t1], (z80_step s2) as [rc2 t2]. cbn in E, Ht. subst rc2.
  destruct rc; [by apply IH|by split|by split].
Qed.
End Rel.
