(* ===== verification/Run.v ===== *)
(** * Run: the run loop (src/dbt/dbt_common.c, the entry of
    dbt_translate_block in src/dbt/dbt_x64.c, the interpreter loop of
    src/main.c)

    [dbt_run] looks up, translates, enters native code, falls back to the
    interpreter, and under -V checks every block against a shadow CPU.  The
    generated code is the parameter [run_code] and its emitter the
    parameters [emit_block] and [emit_trampoline]; [RunOk] states what is
    asked of them. *)

From Stdlib Require Import ZArith Lia Bool List.
From stdpp Require Import base gmap list.
From S2P Require Import Prelude Cpu Decode Interp Translate BlockCache Links.

Open Scope Z_scope.
Open Scope z80_scope.

Definition SAFETY_LIMIT : Z := 50000000000.

(** ** Comparing two contexts *)

Definition cpu_regs_equal (a b : z80_cpu) : bool :=
  (rAF a =? rAF b) && (rBC a =? rBC b) && (rDE a =? rDE b) && (rHL a =? rHL b) &&
  (af_ a =? af_ b) && (bc_ a =? bc_ b) && (de_ a =? de_ b) && (hl_ a =? hl_ b) &&
  (rIX a =? rIX b) && (rIY a =? rIY b) && (rSP a =? rSP b) && (rPC a =? rPC b) &&
  (rI a =? rI b) && (rR a =? rR b) && (iff1 a =? iff1 b) && (iff2 a =? iff2 b) &&
  (im a =? im b) && (rQ a =? rQ b) && (memptr a =? memptr b).

(** [memcmp(a, b, 65536) == 0]. *)
Definition mem_equal (a b : memory) : bool :=
  forallb (λ i, mget a i =? mget b i) (zseq 0 (Z.to_nat 65536)).

(** The shadow: the real context, stopping at a trap like a block does. *)
Definition resync (c : z80_cpu) : z80_cpu := set_defer_traps 1 c.

(** ** The state of a run *)

Record run_state (W : Type) := mk_run {
  rs_m : mach W;
  code_used : Z;
  blocks_translated : Z;
  jit_block_entries : Z;
  interp_fallback_insns : Z;
  verify_blocks_checked : Z;
  verify : bool;
  shadow : option z80_cpu
}.
Arguments mk_run {W}.
Arguments rs_m {W}.
Arguments code_used {W}.
Arguments blocks_translated {W}.
Arguments jit_block_entries {W}.
Arguments interp_fallback_insns {W}.
Arguments verify_blocks_checked {W}.
Arguments verify {W}.
Arguments shadow {W}.

Section Setters.
Context {W : Type}.
Implicit Types (s : mach W) (r : run_state W).
Definition set_rs_m s r : run_state W := mk_run s (code_used r) (blocks_translated r) (jit_block_entries r)
  (interp_fallback_insns r) (verify_blocks_checked r) (verify r) (shadow r).
Definition set_code_used n r : run_state W := mk_run (rs_m r) n (blocks_translated r) (jit_block_entries r)
  (interp_fallback_insns r) (verify_blocks_checked r) (verify r) (shadow r).
Definition bump_translated r : run_state W := mk_run (rs_m r) (code_used r) (u64 (blocks_translated r + 1))
  (jit_block_entries r) (interp_fallback_insns r) (verify_blocks_checked r) (verify r) (shadow r).
Definition bump_entries r : run_state W := mk_run (rs_m r) (code_used r) (blocks_translated r)
  (u64 (jit_block_entries r + 1)) (interp_fallback_insns r) (verify_blocks_checked r) (verify r) (shadow r).
Definition bump_fallback r : run_state W := mk_run (rs_m r) (code_used r) (blocks_translated r) (jit_block_entries r)
  (u64 (interp_fallback_insns r + 1)) (verify_blocks_checked r) (verify r) (shadow r).
Definition bump_checked r : run_state W := mk_run (rs_m r) (code_used r) (blocks_translated r) (jit_block_entries r)
  (interp_fallback_insns r) (u64 (verify_blocks_checked r + 1)) (verify r) (shadow r).
Definition set_shadow sh r : run_state W := mk_run (rs_m r) (code_used r) (blocks_translated r) (jit_block_entries r)
  (interp_fallback_insns r) (verify_blocks_checked r) (verify r) sh.
End Setters.

(** [continue], or [return rc]. *)
Inductive pass_result (W : Type) : Type :=
  | Continue (r : run_state W)
  | Return (rc : Z) (r : run_state W).
Arguments Continue {W}.
Arguments Return {W}.

(** How a host gives the loop its translator and its signal handler. *)
Class RunHost (W : Type) `{Host W} := {
  dbt_of : W → z80_dbt;
  set_dbt : z80_dbt → W → W;
  on_host_event : mach W → W
}.

(** What produces and runs native code.  [emit_block verify ops end_ off]
    returns the buffer cursor after the block it put at [off]. *)
Class NativeCode (W : Type) := {
  emit_trampoline : z80_dbt → Z * z80_dbt;
  emit_block : bool → list op_at → Z → Z → z80_dbt → Z * z80_dbt;
  run_code : Z → mach W → mach W
}.

(** The shadow's host: the real one's callbacks, no translator. *)
Definition shadow_host {W} `{Host W} : Host W := {|
  smc_store _ w := w;
  port_in_hook := port_in_hook;
  port_out_hook := port_out_hook;
  console_wait := console_wait;
  traps_enabled := traps_enabled;
  bdos_dispatch := bdos_dispatch;
  bios_dispatch := bios_dispatch
|}.

Definition shadow_steps {W} `{Host W} (n : Z) (s : mach W) : mach W :=
  (z80_steps (H := shadow_host) (Z.to_nat n) s).2.

Section Run.
Context {W : Type} `{RunHost W} `{NativeCode W}.
Context (inline_ports : bool).
Implicit Types (s : mach W) (r : run_state W).

Definition on_dbt (f : z80_dbt → z80_dbt) r : run_state W :=
  set_rs_m ((rs_m r).1, set_dbt (f (dbt_of (rs_m r).2)) (rs_m r).2) r.
Definition the_dbt r : z80_dbt := dbt_of (rs_m r).2.

(** ** Translation *)

Definition INT3 : Z := 0xCC.

(** [while (e.offset & 15) emit_int3(&e)]. *)
Definition align16 (off : Z) : Z := off + ((- off) mod 16).
Definition pad (off : Z) (d : z80_dbt) : z80_dbt :=
  set_code_buf (fold_left (λ b a, <[a:=INT3]> b) (zseq off (Z.to_nat (align16 off - off))) (code_buf d)) d.

(** Out of JIT space: an empty cache and a fresh trampoline. *)
Definition reclaim r : run_state W :=
  if CODE_BUF_SIZE <? code_used r + 65536 then
    let '(n, d) := emit_trampoline (dbt_cache_invalidate_all (the_dbt r)) in
    set_code_used n (on_dbt (λ _, d) r)
  else r.

(** [s_inline_ports]: off under -V. *)
Definition s_inline_ports r : bool := negb (verify r) && inline_ports.

(** With room in the buffer: align, scan, emit, mark. *)
Definition translate_here (pc : Z) r : option Z * run_state W :=
  let entry := align16 (code_used r) in
  let r1 := on_dbt (pad (code_used r)) r in
  match scan_block (traps_enabled (rs_m r).2) (s_inline_ports r) (mem (rs_m r).1) pc with
  | None => (None, r1)
  | Some (ops, end_) =>
      let '(n, d) := emit_block (verify r) ops end_ entry (the_dbt r1) in
      (Some entry, on_dbt (dbt_mark_block_bytes pc end_) (set_code_used n (on_dbt (λ _, d) r1)))
  end.

Definition dbt_translate_block (pc : Z) r : option Z * run_state W := translate_here pc (reclaim r).

(** The lookup, and on a miss the translation and its insertion. *)
Definition find_code r : option Z * run_state W :=
  let pc := rPC (rs_m r).1 in
  let '(be, d) := dbt_cache_lookup pc (the_dbt r) in
  let r := on_dbt (λ _, d) r in
  match be with
  | Some e => (native_code e, r)
  | None =>
      let '(code, r) := dbt_translate_block pc r in
      let r := on_dbt (dbt_cache_insert pc code) r in
      (code, match code with Some _ => bump_translated r | None => r end)
  end.

(** ** One pass of the loop *)

Definition host_events s : mach W :=
  if nz (host_event s.1) then
    let c := set_host_event 0 s.1 in (c, on_host_event (c, s.2))
  else s.

Definition jit_enter (entry : Z) r : run_state W :=
  let r := bump_entries r in set_rs_m (run_code entry (rs_m r)) r.

(** The same instructions on the shadow, and the comparison after them. *)
Definition verify_block (entry : Z) (sh : z80_cpu) r : pass_result W :=
  let pre := (rs_m r).1 in
  if negb (cpu_regs_equal pre sh && mem_equal (mem pre) (mem sh)) then Return (-1) r
  else
    let r := jit_enter entry r in
    let post := (rs_m r).1 in
    let '(sh, w) := shadow_steps (u64 (insn_count post - insn_count pre)) (sh, (rs_m r).2) in
    let r := bump_checked (set_shadow (Some sh) (set_rs_m (post, w) r)) in
    if negb (cpu_regs_equal post sh && mem_equal (mem post) (mem sh)) then Return (-1) r
    else Continue r.

Definition fallback_step r : pass_result W :=
  let r := bump_fallback r in
  let '(rc, s) := z80_step (rs_m r) in
  let r := set_rs_m s r in
  match rc with
  | RC_ERR => Return (-1) r
  | RC_EXIT => Return 0 r
  | RC_OK => Continue (if verify r then set_shadow (Some (resync s.1)) r else r)
  end.

Definition dbt_pass r : pass_result W :=
  let r := set_rs_m (host_events (rs_m r)) r in
  let c := (rs_m r).1 in
  let traps := traps_enabled (rs_m r).2 in
  if traps && (rPC c =? 0) && (4 <? insn_count c) then Return 0 r
  else if traps && (SAFETY_LIMIT <? insn_count c) then Return (-1) r
  else
    let '(code, r) := find_code r in
    match code with
    | Some entry =>
        if verify r then
          match shadow r with Some sh => verify_block entry sh r | None => Return (-1) r end
        else Continue (jit_enter entry r)
    | None => fallback_step r
    end.

(** A signal may arrive before any pass; [sigs] has one flag per pass. *)
Definition signal s : mach W := on_cpu (set_host_event 1) s.

Fixpoint dbt_loop (sigs : list bool) r : option Z * run_state W :=
  match sigs with
  | [] => (None, r)
  | sig :: sigs =>
      let r := if sig then set_rs_m (signal (rs_m r)) r else r in
      match dbt_pass r with
      | Continue r => dbt_loop sigs r
      | Return rc r => (Some rc, r)
      end
  end.

(** The entry: the shadow is made the first time; [shadow_alloc]: its
    [calloc] succeeded. *)
Definition dbt_run (shadow_alloc : bool) (sigs : list bool) r : option Z * run_state W :=
  match shadow r with
  | None =>
      if verify r then
        if shadow_alloc then dbt_loop sigs (set_shadow (Some (resync (rs_m r).1)) r) else (Some (-1), r)
      else dbt_loop sigs r
  | Some _ => dbt_loop sigs r
  end.

(** [dbt_init] on a machine whose host holds the translator; the counters
    start at zero and the code buffer holds the trampoline. *)
Definition dbt_init (verify : bool) s : run_state W :=
  let '(n, d) := emit_trampoline (dbt_cache_invalidate_all (dbt_of s.2)) in
  mk_run (s.1, set_dbt d s.2) n 0 0 0 0 verify None.

(** ** The interpreter loop of [main] *)

Inductive stop_reason : Set := StopWarmBoot | StopExit | StopError | StopLimit.
Inductive interp_result := IContinue (s : mach W) | IBreak (why : stop_reason) (s : mach W).

Definition interp_pass s : interp_result :=
  if traps_enabled s.2 && (rPC s.1 =? 0) && (4 <? insn_count s.1) then IBreak StopWarmBoot s
  else
    let '(rc, s) := z80_step (host_events s) in
    match rc with
    | RC_ERR => IBreak StopError s
    | RC_EXIT => IBreak StopExit s
    | RC_OK => if traps_enabled s.2 && (SAFETY_LIMIT <? insn_count s.1) then IBreak StopLimit s
               else IContinue s
    end.

Fixpoint interp_loop (sigs : list bool) s : option stop_reason * mach W :=
  match sigs with
  | [] => (None, s)
  | sig :: sigs =>
      match interp_pass (if sig then signal s else s) with
      | IContinue s => interp_loop sigs s
      | IBreak why s => (Some why, s)
      end
  end.
End Run.
