(* ===== verification/RunOk.v ===== *)
(** * RunOk: the run loop follows the protocol

    [dbt_run_follows]: every pass of [dbt_run] enters the code emitted for
    the block at PC, or executes one interpreter instruction; what the loop
    does around that (lookup, translation, reclaiming the code buffer, the
    events) leaves the guest alone and keeps the invalidation protocol of
    Smc.v, so the block entered is one memory still holds, but for the
    protocol's two exceptions.  Nothing is said here of what entered code
    computes: of it the loop needs only that it reaches memory and the cache
    by stores and sweeps ([NativeFrame]). *)

From Stdlib Require Import ZArith Lia Bool List.
From stdpp Require Import base gmap list relations.
From S2P Require Import Prelude Cpu Decode Interp InterpOk InterpSpec Translate Block Scan BlockCache Links.
From S2P Require Import JitFlags JitFlagsOk Smc HostRel Run.

Open Scope Z_scope.
Open Scope z80_scope.

(** ** What running code does to the cache and memory *)

(** The steps of the protocol that translate nothing. *)
Inductive touch : world → world → Prop :=
  | touch_store d m snap ms a v : is_word a → is_byte v →
      touch (mk_world d m snap ms) (mk_world (dbt_store a d) (mset a v m) snap ms)
  | touch_unchecked d m snap ms a v : is_word a → is_byte v →
      touch (mk_world d m snap ms) (mk_world d (mset a v m) snap (λ p, {[a]} ∪ ms p))
  | touch_ldir d m m' snap ms incr de bc : (incr = 1 ∨ incr = -1) → 0 <= bc → mem_ok m' →
      (∀ a, is_word a → (∀ i, 0 <= i < bc → u16 (de + incr * i) ≠ a) → mget m' a = mget m a) →
      touch (mk_world d m snap ms) (mk_world (ldir_sweep incr de bc d) m' snap ms)
  | touch_block_write d m m' snap ms lo len : 0 <= len → mem_ok m' →
      (∀ a, is_word a → (∀ i, 0 <= i < len → u16 (lo + i) ≠ a) → mget m' a = mget m a) →
      touch (mk_world d m snap ms) (mk_world (smc_sweep_forward lo len d) m' snap ms)
  | touch_same d d' m snap ms : same_smc d d' → touch (mk_world d m snap ms) (mk_world d' m snap ms).

Lemma touch_smc traps ports w w' : touch w w' → smc_step traps ports w w'.
Proof. intros []; by econstructor. Qed.
Lemma touches_smc traps ports w w' : rtc touch w w' → rtc (smc_step traps ports) w w'.
Proof. induction 1; [done|]. eapply rtc_l; [by apply touch_smc|done]. Qed.

(** Any number of them, seen from the translator and memory. *)
Definition effect (x y : z80_dbt * memory) : Prop :=
  ∀ snap ms, ∃ ms', rtc touch (mk_world x.1 x.2 snap ms) (mk_world y.1 y.2 snap ms').
#[export] Instance effect_preorder : PreOrder effect.
Proof.
  split; [intros x snap ms; by exists ms|]. intros x y z H1 H2 snap ms.
  destruct (H1 snap ms) as [ms1 Hr1]. destruct (H2 snap ms1) as [ms2 Hr2]. exists ms2. by etrans.
Qed.
Lemma effect_same d d' m : same_smc d d' → effect (d, m) (d', m).
Proof. intros Hs snap ms. exists ms. by apply rtc_once, touch_same. Qed.
Lemma effect_store d m a v : is_word a → is_byte v → effect (d, m) (dbt_store a d, mset a v m).
Proof. intros Ha Hv snap ms. exists ms. by apply rtc_once, touch_store. Qed.

(** ** Entries of refused addresses *)

(** A refused address has no code. *)
Definition refused_ok (d : z80_dbt) : Prop :=
  ∀ pc, is_word pc → guest_pc (cache_at d pc) = pc |' BLOCK_REFUSED_BIT → native_code (cache_at d pc) = None.

Lemma refused_ne pc : is_word pc → pc |' BLOCK_REFUSED_BIT ≠ pc ∧ BLOCK_EMPTY_PC ≠ pc |' BLOCK_REFUSED_BIT.
Proof.
  intros Hpc. assert (Z.testbit (pc |' BLOCK_REFUSED_BIT) 30 = true) as Hb
    by (rewrite Z.lor_spec; apply orb_true_iff; right; by vm_compute).
  assert (Z.testbit (pc |' BLOCK_REFUSED_BIT) 31 = false) as Hc.
  { rewrite Z.lor_spec. apply (bounded_testbit 16) in Hpc as [_ Hpc]; [|lia]. rewrite Hpc by lia. by vm_compute. }
  split; intros E.
  - rewrite E in Hb. apply (bounded_testbit 16) in Hpc as [_ Hpc]; [|lia]. by rewrite Hpc in Hb by lia.
  - rewrite <- E in Hc. done.
Qed.

Lemma refused_shrink d d' :
  (∀ p, cache_at d' p = cache_at d p ∨ guest_pc (cache_at d' p) = BLOCK_EMPTY_PC) → refused_ok d → refused_ok d'.
Proof.
  intros Hc Hr pc Hpc E. destruct (Hc pc) as [Hat|He].
  - rewrite Hat in *. by apply Hr.
  - rewrite He in E. by apply refused_ne in E.
Qed.

Lemma refused_same d d' : same_smc d d' → refused_ok d → refused_ok d'.
Proof. intros Hs. apply refused_shrink. by destruct (same_smc_shrinks _ _ Hs) as (_ & _ & ?). Qed.

Lemma refused_insert pc code d : is_word pc → refused_ok d → refused_ok (dbt_cache_insert pc code d).
Proof.
  intros Hpc Hr p Hp. rewrite insert_cache by done. case_decide as Hd; [|by apply Hr]. subst p.
  destruct code; [|done]. cbn [guest_pc]. intros E. symmetry in E. by apply refused_ne in E.
Qed.

Lemma refused_mark pc e d : refused_ok d → refused_ok (dbt_mark_block_bytes pc e d).
Proof.
  intros Hr. assert (cache (dbt_mark_block_bytes pc e d) = cache d) as Hc.
  { unfold dbt_mark_block_bytes. match goal with |- cache (fold_left _ _ ?x) = _ => set (d0 := x) end.
    destruct (mark_fold pc (Z.to_nat (e - pc)) d0) as (-> & _). subst d0. by case_match. }
  intros p Hp. unfold cache_at. rewrite Hc. by apply Hr.
Qed.

Lemma refused_wiped d : refused_ok (dbt_cache_invalidate_all d).
Proof. intros pc Hpc E. rewrite wiped_at. done. Qed.

Lemma smc_sweep_shrinks lo len d : shrinks d (smc_sweep_forward lo len d).
Proof.
  unfold smc_sweep_forward. case_match; [done|]. case_match; [done|].
  change (shrinks d (sweep_fold lo len (max_block_bytes d) d)). apply fold_shrinks. intros; apply sweep_one_shrinks.
Qed.

Lemma ldir_sweep_shrinks incr de bc d : shrinks d (ldir_sweep incr de bc d).
Proof.
  unfold ldir_sweep. case_match; [done|].
  change (shrinks d (sweep_fold (if 0 <? incr then de else u16 (de - (bc - 1))) bc (max_block_bytes d) d)).
  apply fold_shrinks. intros; apply sweep_one_shrinks.
Qed.

(** Slots only become empty. *)
Lemma touch_shrinks w w' : touch w w' →
  ∀ p, cache_at (w_dbt w') p = cache_at (w_dbt w) p ∨ guest_pc (cache_at (w_dbt w') p) = BLOCK_EMPTY_PC.
Proof.
  intros [d m snap ms a v _ _|d m snap ms a v _ _|d m m' snap ms incr de bc _ _ _ _|d m m' snap ms lo len _ _ _|d d' m snap ms Hs] p; cbn.
  - apply dbt_store_shrinks.
  - by left.
  - apply ldir_sweep_shrinks.
  - apply smc_sweep_shrinks.
  - left. unfold cache_at. by destruct Hs as [-> _].
Qed.
Lemma touches_shrink w w' : rtc touch w w' →
  ∀ p, cache_at (w_dbt w') p = cache_at (w_dbt w) p ∨ guest_pc (cache_at (w_dbt w') p) = BLOCK_EMPTY_PC.
Proof.
  induction 1 as [w|w1 w2 w3 Hs _ IH]; intros p; [by left|]. destruct (IH p) as [->|]; [|by right]. by apply touch_shrinks.
Qed.
Lemma shrunk_live d d' p :
  (∀ p, cache_at d' p = cache_at d p ∨ guest_pc (cache_at d' p) = BLOCK_EMPTY_PC) →
  is_word p → live d' p → live d p ∧ cache_at d' p = cache_at d p.
Proof.
  intros Hc Hp Hl. unfold live in *. destruct (Hc p) as [E|E]; [by rewrite <- E|].
  rewrite Hl in E. unfold is_word, BLOCK_EMPTY_PC in *. lia.
Qed.

(** ** What the loop is given *)

Section Loop.
Context {W : Type} `{HW : Host W, !HostOk W, HR : !RunHost W, HN : !NativeCode W}.
Context (traps inline_ports : bool).
Abbreviation ports := inline_ports.
Implicit Types (s : mach W) (r : run_state W).

Definition sides s : z80_dbt * memory := (dbt_of s.2, mem s.1).

(** The host's callbacks reach guest memory and the cache by stores and
    sweeps; trapping is a fixed mode. *)
Class HostFrame : Prop := {
  hf_set_dbt d (w : W) : dbt_of (set_dbt d w) = d;
  hf_set_set d d' (w : W) : set_dbt d (set_dbt d' w) = set_dbt d w;
  hf_store a (w : W) : dbt_of (smc_store a w) = dbt_store a (dbt_of w);
  hf_wait (w : W) : dbt_of (console_wait w) = dbt_of w;
  hf_traps (w : W) : traps_enabled w = traps;
  hf_in h p i s : port_in_hook = Some h → cpu_ok s.1 → effect (sides s) (sides (h p i s).2);
  hf_out h p i v s : port_out_hook = Some h → cpu_ok s.1 → effect (sides s) (sides (h p i v s));
  hf_bdos s : cpu_ok s.1 → effect (sides s) (sides (bdos_dispatch s).2);
  hf_bios s : cpu_ok s.1 → effect (sides s) (sides (bios_dispatch s).2);
  hf_event s : dbt_of (on_host_event s) = dbt_of s.2
}.

(** So does the code the emitter puts out; emission itself only moves the
    cursor forward and writes the buffer and its links. *)
Class NativeFrame : Prop := {
  nf_trampoline d : same_smc d (emit_trampoline d).2;
  nf_emit ops end_ off d :
    same_smc d (emit_block false ops end_ off d).2 ∧ off < (emit_block false ops end_ off d).1;
  nf_run entry s : cpu_ok s.1 →
    cpu_ok (run_code entry s).1 ∧ effect (sides s) (sides (run_code entry s))
}.

Context `{HF : !HostFrame, NF : !NativeFrame}.

(** An interpreter step with the translator attached. *)
Definition tracked (x0 : z80_dbt * memory) (c : z80_cpu) (w e : W) : Prop :=
  cpu_ok c ∧ effect x0 (dbt_of w, mem c) ∧ e = w.

#[local] Instance tracked_rel x0 : HostRel W W (tracked x0).
Proof using HF HostOk0.
  constructor.
  - by intros c w1 w2 [].
  - intros c c' w1 w2 (Hc & Hr & ->) Hm Hc'. split_and!; [done| |done]. by rewrite Hm.
  - intros c w1 w2 a v (Hc & Hr & ->) Ha Hv. split_and!; [in_range| |done].
    rewrite hf_store. etrans; [exact Hr|]. by apply effect_store.
  - intros c w1 w2 (Hc & Hr & ->). split_and!; [done| |done]. by rewrite hf_wait.
  - by intros c w1 w2 (_ & _ & ->).
  - destruct (port_in_hook (W := W)) as [h|] eqn:Eh; [|done]. intros p i c w1 w2 (Hc & Hr & ->).
    destruct (port_in_ok h p i c w1 Eh Hc) as [Hb Hc']. split; [done|]. split_and!; [done|done|]. split_and!; [done| |done].
    etrans; [exact Hr|]. by apply (hf_in h p i (c, w1)).
  - destruct (port_out_hook (W := W)) as [h|] eqn:Eh; [|done]. intros p i v c w1 w2 (Hc & Hr & ->).
    split_and!; [done|done|]. split_and!; [by apply (port_out_ok h p i v c w1)| |done].
    etrans; [exact Hr|]. by apply (hf_out h p i v (c, w1)).
  - intros c w1 w2 (Hc & Hr & ->). split_and!; [done|done|]. split_and!; [by apply bdos_ok| |done].
    etrans; [exact Hr|]. by apply (hf_bdos (c, w1)).
  - intros c w1 w2 (Hc & Hr & ->). split_and!; [done|done|]. split_and!; [by apply bios_ok| |done].
    etrans; [exact Hr|]. by apply (hf_bios (c, w1)).
Qed.

Lemma step_effect s : cpu_ok s.1 → cpu_ok (z80_step s).2.1 ∧ effect (sides s) (sides (z80_step s).2).
Proof using HF HostOk0.
  intros Hs. assert (rm (tracked (sides s)) s s) as Hrm by (split; [done|]; by split_and!).
  by destruct (step_rel (tracked (sides s)) s s Hrm) as [_ [_ (Hc & Hr & _)]].
Qed.

(** ** Ghost state and the moves of a run

    [g_code]: the blocks emitted since the code buffer was last reclaimed,
    by entry point. *)
Record ghost := mk_ghost { g_snap : Z → memory; g_missed : Z → gset Z; g_code : gmap Z (list op_at * Z) }.
Definition world_of s (g : ghost) : world := mk_world (dbt_of s.2) (mem s.1) (g_snap g) (g_missed g).

(** [entry] is where the code for the block at PC was emitted, and that
    block is current. *)
Definition entered s (g : ghost) (entry : Z) (ops : list op_at) : Prop :=
  let pc := rPC s.1 in
  ∃ end_, g_code g !! entry = Some (ops, end_) ∧ scan_block traps ports (g_snap g pc) pc = Some (ops, end_) ∧
  (pc + ops_bytes ops < 65536 →
   (∀ a, covers (dbt_of s.2) pc a → a ∉ g_missed g pc → mget (mem s.1) a = mget (g_snap g pc) a) ∧
   ((∀ a, covers (dbt_of s.2) pc a → a ∉ g_missed g pc) → decodes (mem s.1) pc ops)).

(** [n] blocks entered or instructions interpreted, with what the loop does
    in between: signals, their handling, and the translator's own work,
    which changes nothing of the guest. *)
Inductive moves : nat → mach W * ghost → mach W * ghost → Prop :=
  | mv_refl x : moves 0 x x
  | mv_block n x s g entry ops s' g' : moves n x (s, g) →
      entered s g entry ops → s' = run_code entry s →
      g_snap g' = g_snap g → g_code g' = g_code g → rtc touch (world_of s g) (world_of s' g') →
      moves (S n) x (s', g')
  | mv_insn n x s g s' g' : moves n x (s, g) →
      z80_step s = (RC_OK, s') →
      g_snap g' = g_snap g → g_code g' = g_code g → rtc touch (world_of s g) (world_of s' g') →
      moves (S n) x (s', g')
  | mv_translator n x s g d g' : moves n x (s, g) →
      rtc (smc_step traps ports) (world_of s g) (mk_world d (mem s.1) (g_snap g') (g_missed g')) →
      moves n x ((s.1, set_dbt d s.2), g')
  | mv_signal n x s g : moves n x (s, g) → moves n x (signal s, g)
  | mv_event n x s g : moves n x (s, g) → host_event s.1 ≠ 0 →
      moves n x ((set_host_event 0 s.1, on_host_event (set_host_event 0 s.1, s.2)), g).

(** When a loop may return [rc]. *)
Inductive guest_stop : mach W → Z → mach W → Prop :=
  | stop_warm_boot s : traps = true → rPC s.1 = 0 → 4 < insn_count s.1 → guest_stop s 0 s
  | stop_limit s : traps = true → SAFETY_LIMIT < insn_count s.1 → guest_stop s (-1) s
  | stop_exit s s' : z80_step s = (RC_EXIT, s') → guest_stop s 0 s'
  | stop_error s s' : z80_step s = (RC_ERR, s') → guest_stop s (-1) s'.

(** ** The invariant of the loop *)

Record run_inv r (g : ghost) : Prop := {
  inv_cpu : cpu_ok (rs_m r).1;
  inv_world : world_ok traps ports (world_of (rs_m r) g);
  inv_refused : refused_ok (the_dbt r);
  inv_code pc : is_word pc → live (the_dbt r) pc → ∃ entry b,
    native_code (cache_at (the_dbt r) pc) = Some entry ∧ g_code g !! entry = Some b ∧
    scan_block traps ports (g_snap g pc) pc = Some b;
  inv_used entry : is_Some (g_code g !! entry) → entry < code_used r;
  inv_mode : verify r = false
}.

Lemma the_dbt_on f r : the_dbt (on_dbt f r) = f (the_dbt r).
Proof using HF. unfold the_dbt, on_dbt. cbn. apply hf_set_dbt. Qed.
Lemma world_of_on f r g : world_of (rs_m (on_dbt f r)) g = mk_world (f (the_dbt r)) (mem (rs_m r).1) (g_snap g) (g_missed g).
Proof using HF. unfold world_of, on_dbt. cbn. by rewrite hf_set_dbt. Qed.

(** Two changes of the translator are one. *)
Lemma rs_on f h r : rs_m (on_dbt f (on_dbt h r)) = rs_m (on_dbt (λ d, f (h d)) r).
Proof using HF. unfold on_dbt. cbn. by rewrite hf_set_set, hf_set_dbt. Qed.
Lemma mv_on n x f r g g' : moves n x (rs_m r, g) →
  rtc (smc_step traps ports) (world_of (rs_m r) g) (mk_world (f (the_dbt r)) (mem (rs_m r).1) (g_snap g') (g_missed g')) →
  moves n x (rs_m (on_dbt f r), g').
Proof using Type. apply mv_translator. Qed.

(** A change of the translator alone. *)
Lemma inv_on f r r' g g' :
  run_inv r g → rs_m r' = rs_m (on_dbt f r) → verify r' = verify r →
  rtc (smc_step traps ports) (world_of (rs_m r) g) (mk_world (f (the_dbt r)) (mem (rs_m r).1) (g_snap g') (g_missed g')) →
  refused_ok (f (the_dbt r)) →
  (∀ pc, is_word pc → live (f (the_dbt r)) pc → ∃ entry b,
     native_code (cache_at (f (the_dbt r)) pc) = Some entry ∧ g_code g' !! entry = Some b ∧
     scan_block traps ports (g_snap g' pc) pc = Some b) →
  (∀ entry, is_Some (g_code g' !! entry) → entry < code_used r') → run_inv r' g'.
Proof using HF.
  intros [Hc Hw _ _ _ Hv] Er Ev Hs Hr Hcode Hused.
  assert (the_dbt r' = f (the_dbt r)) as Ed by (rewrite <- (the_dbt_on f r); unfold the_dbt; by rewrite Er).
  constructor; rewrite ?Ed; [by rewrite Er|by rewrite Er, world_of_on; eapply reachable_ok|done|done|done|by rewrite Ev].
Qed.

Lemma inv_entered r g entry : run_inv r g → live (the_dbt r) (rPC (rs_m r).1) →
  native_code (cache_at (the_dbt r) (rPC (rs_m r).1)) = Some entry → ∃ ops, entered (rs_m r) g entry ops.
Proof using Type.
  intros [Hc Hw _ Hcode _ _] Hl Hn. assert (is_word (rPC (rs_m r).1)) as Hpc by in_range.
  destruct (Hcode _ Hpc Hl) as (entry' & [ops end_] & E & Hb & Hscan). rewrite Hn in E. injection E as <-.
  destruct (live_current traps ports _ _ Hw Hpc Hl) as (ops' & end' & Hscan' & _ & Hcur). cbn in Hscan', Hcur.
  rewrite Hscan in Hscan'. injection Hscan' as <- <-. exists ops, end_. by split_and!.
Qed.

(** ** Finding the code *)

Lemma align16_le off : off <= align16 off.
Proof using Type. unfold align16. pose proof (Z.mod_pos_bound (- off) 16). lia. Qed.

(** What the translator's work promises of a run so far. *)
Definition prepared n x r g : Prop := run_inv r g ∧ moves n x (rs_m r, g).

Lemma reclaim_inv n x r g : prepared n x r g →
  ∃ g', prepared n x (reclaim r) g' ∧ (rs_m (reclaim r)).1 = (rs_m r).1.
Proof using HF NF.
  intros [Hi Hm]. unfold reclaim. destruct (CODE_BUF_SIZE <? code_used r + 65536); [|by exists g].
  pose proof (nf_trampoline (dbt_cache_invalidate_all (the_dbt r))) as Hs. destruct (emit_trampoline _) as [k d]. cbn [snd] in Hs.
  exists (mk_ghost (g_snap g) (g_missed g) ∅).
  assert (rtc (smc_step traps ports) (world_of (rs_m r) g) (mk_world d (mem (rs_m r).1) (g_snap g) (g_missed g))) as Hsteps
    by (eapply rtc_l; [apply step_wipe|]; by apply rtc_once, step_same).
  split; [split|done].
  - apply (inv_on (λ _, d) r _ g); [done|done|done|done| | |by intros entry [? ?]].
    + apply (refused_same _ _ Hs), refused_wiped.
    + intros pc Hpc Hl. exfalso. apply (wiped_not_live (the_dbt r) pc Hpc). unfold live, cache_at in *. by destruct Hs as [<- _].
  - by apply (mv_on n x (λ _, d) r g).
Qed.

Lemma pad_smc off d : same_smc d (pad off d).
Proof using Type. done. Qed.

(** Translating at PC, and inserting what came out. *)
Definition translated pc r : run_state W :=
  let '(code, r) := translate_here inline_ports pc r in on_dbt (dbt_cache_insert pc code) r.

Lemma translate_some n x r g ops end_ : let pc := rPC (rs_m r).1 in
  prepared n x r g → scan_block traps ports (mem (rs_m r).1) pc = Some (ops, end_) →
  let r' := translated pc r in
  ∃ g', prepared n x r' g' ∧ (rs_m r').1 = (rs_m r).1 ∧
    (translate_here inline_ports pc r).1 = Some (align16 (code_used r)) ∧ live (the_dbt r') pc ∧
    native_code (cache_at (the_dbt r') pc) = Some (align16 (code_used r)).
Proof using HF NF.
  intros pc [Hi Hm] Hscan. cbv zeta. assert (is_word pc) as Hpc by (subst pc; destruct Hi; in_range).
  unfold translated, translate_here. unfold s_inline_ports. rewrite (inv_mode _ _ Hi), hf_traps. cbn [negb andb]. rewrite Hscan, the_dbt_on.
  set (off := align16 (code_used r)). destruct (nf_emit ops end_ off (pad (code_used r) (the_dbt r))) as [Hs Hn].
  destruct (emit_block false ops end_ off (pad (code_used r) (the_dbt r))) as [k d']. cbn [fst snd] in *.
  pose proof (align16_le (code_used r)) as Hal. fold off in Hal.
  set (f := λ _ : z80_dbt, dbt_cache_insert pc (Some off) (dbt_mark_block_bytes pc end_ d')).
  match goal with |- context [on_dbt (dbt_cache_insert pc (Some off)) ?y] => set (r1 := y) end.
  assert (rs_m (on_dbt (dbt_cache_insert pc (Some off)) r1) = rs_m (on_dbt f r)) as Er.
  { subst r1. rewrite rs_on. unfold on_dbt. cbn. by rewrite !hf_set_set, hf_set_dbt. }
  set (r' := on_dbt (dbt_cache_insert pc (Some off)) r1) in *.
  set (g' := mk_ghost (λ p, if decide (p = pc) then mem (rs_m r).1 else g_snap g p)
               (λ p, if decide (p = pc) then ∅ else g_missed g p) (<[off:=(ops, end_)]> (g_code g))).
  assert (rtc (smc_step traps ports) (world_of (rs_m r) g) (mk_world (f (the_dbt r)) (mem (rs_m r).1) (g_snap g') (g_missed g'))) as Hsteps.
  { eapply rtc_l; [apply (step_same traps ports _ d'); exact Hs|]. by apply rtc_once, (step_translate traps ports d' _ _ _ pc ops end_). }
  assert (the_dbt r' = f (the_dbt r)) as Ed by (rewrite <- (the_dbt_on f r); unfold the_dbt; by rewrite Er).
  pose proof (λ p, insert_marked pc end_ off d' p Hpc) as Hat. cbv zeta in Hat.
  exists g'. split_and!; [split| | | |].
  - apply (inv_on f r _ g); [done|done|done|done| | |].
    + apply refused_insert, refused_mark; [done|]. apply (refused_same (the_dbt r)); [exact Hs|apply Hi].
    + intros p Hp Hl. unfold f, live in Hl |- *. rewrite Hat in Hl |- *. subst g'. cbn [g_code g_snap]. case_decide as Hd.
      * subst p. exists off, (ops, end_). rewrite lookup_insert_eq, decide_True by done. done.
      * unfold cache_at in Hl |- *. destruct Hs as [Hc _]. rewrite Hc in Hl |- *.
        destruct (inv_code _ _ Hi p Hp Hl) as (entry & b & He & Hb & Hsc). exists entry, b.
        pose proof (inv_used _ _ Hi entry ltac:(by eexists)). rewrite lookup_insert_ne, decide_False by (done || lia). done.
    + intros entry He. change (entry < k). subst g'. cbn [g_code] in He.
      destruct (decide (entry = off)) as [->|Hne]; [done|]. rewrite lookup_insert_ne in He by done. pose proof (inv_used _ _ Hi entry He). lia.
  - rewrite Er. by apply (mv_on n x f r g).
  - by rewrite Er.
  - done.
  - rewrite Ed. unfold live, f. by rewrite Hat, decide_True.
  - rewrite Ed. unfold f. by rewrite Hat, decide_True.
Qed.

Lemma translate_none n x r g : let pc := rPC (rs_m r).1 in
  prepared n x r g → scan_block traps ports (mem (rs_m r).1) pc = None →
  prepared n x (translated pc r) g ∧ (rs_m (translated pc r)).1 = (rs_m r).1 ∧ (translate_here inline_ports pc r).1 = None.
Proof using HF NF.
  intros pc [Hi Hm] Hscan. assert (is_word pc) as Hpc by (subst pc; destruct Hi; in_range).
  unfold translated, translate_here. unfold s_inline_ports. rewrite (inv_mode _ _ Hi), hf_traps. cbn [negb andb]. rewrite Hscan.
  set (f := λ d, dbt_cache_insert pc None (pad (code_used r) d)).
  set (r' := on_dbt (dbt_cache_insert pc None) _). assert (rs_m r' = rs_m (on_dbt f r)) as Er by exact (rs_on (dbt_cache_insert pc None) (pad (code_used r)) r).
  assert (rtc (smc_step traps ports) (world_of (rs_m r) g) (mk_world (f (the_dbt r)) (mem (rs_m r).1) (g_snap g) (g_missed g))) as Hsteps.
  { eapply rtc_l; [apply (step_same traps ports _ (pad (code_used r) (the_dbt r))), pad_smc|].
    apply rtc_once. exact (step_refuse traps ports (pad (code_used r) (the_dbt r)) _ _ _ pc Hpc). }
  split_and!; [split|by rewrite Er|done].
  - apply (inv_on f r _ g); [done|done|done|done| | |apply Hi].
    + apply refused_insert; [done|]. apply (refused_same _ _ (pad_smc (code_used r) (the_dbt r))), Hi.
    + intros p Hp Hl. unfold f, live in Hl |- *. rewrite insert_cache in Hl |- * by done.
      case_decide as Hd; [subst p; by apply refused_ne in Hl|]. by apply (inv_code _ _ Hi).
  - rewrite Er. by apply (mv_on n x f r g).
Qed.

Lemma find_code_inv n x r g : prepared n x r g →
  let res := find_code inline_ports r in
  ∃ g', prepared n x res.2 g' ∧ (rs_m res.2).1 = (rs_m r).1 ∧
    ∀ entry, res.1 = Some entry → ∃ ops, entered (rs_m res.2) g' entry ops.
Proof using HF NF.
  intros [Hi Hm]. cbv zeta. unfold find_code. set (pc := rPC (rs_m r).1). assert (is_word pc) as Hpc by (subst pc; destruct Hi; in_range).
  pose proof (lookup_smc pc (the_dbt r)) as Hs. destruct (dbt_cache_lookup pc (the_dbt r)) as [be d] eqn:Hl. cbn [snd] in *.
  set (r1 := on_dbt (λ _, d) r). assert (the_dbt r1 = d) as Ed by apply the_dbt_on.
  assert (∀ p, cache_at d p = cache_at (the_dbt r) p) as Hc by (intros p; unfold cache_at; by destruct Hs as [-> _]).
  assert (prepared n x r1 g) as [Hi1 Hm1].
  { assert (rtc (smc_step traps ports) (world_of (rs_m r) g) (mk_world d (mem (rs_m r).1) (g_snap g) (g_missed g))) as Hsteps
      by (by apply rtc_once, step_same).
    split; [|by apply (mv_on n x (λ _, d) r g)].
    apply (inv_on (λ _, d) r _ g); [done|done|done|done|by apply (refused_same _ _ Hs), Hi| |apply Hi].
    intros p Hp. unfold live. rewrite Hc. by apply (inv_code _ _ Hi). }
  change (rPC (rs_m r1).1) with pc. destruct be as [e|]; cbn [fst snd].
  - exists g. split_and!; [by split|done|]. intros entry He.
    unfold dbt_cache_lookup, cache_index in Hl. rewrite cache_index_word in Hl by done.
    destruct (_ || _) eqn:Hhit; [|done]. injection Hl as <- _.
    apply orb_true_iff in Hhit as [E%Z.eqb_eq|E%Z.eqb_eq]; [|by rewrite (inv_refused _ _ Hi pc Hpc E) in He].
    apply inv_entered; [done|rewrite Ed; unfold live|rewrite Ed]; change (rPC (rs_m r1).1) with pc; by rewrite Hc.
  - destruct (reclaim_inv n x r1 g (conj Hi1 Hm1)) as (g2 & [Hi2 Hm2] & E2). unfold dbt_translate_block.
    set (r2 := reclaim r1) in *. assert (rPC (rs_m r2).1 = pc) as Ep by (by rewrite E2).
    assert (translated pc r2 = on_dbt (dbt_cache_insert pc (translate_here inline_ports pc r2).1) (translate_here inline_ports pc r2).2) as Et
      by (unfold translated; by destruct (translate_here _ _ _)).
    destruct (scan_block traps ports (mem (rs_m r2).1) pc) as [[ops end_]|] eqn:Hscan.
    + pose proof (translate_some n x r2 g2 ops end_) as H. cbv zeta in H. rewrite Ep in H.
      destruct (H (conj Hi2 Hm2) Hscan) as (g' & [Hi' Hm'] & E' & Eh & Hlive & Hnat).
      destruct (translate_here inline_ports pc r2) as [code r3]. cbn [fst snd] in *. subst code. rewrite Et in *.
      exists g'. split_and!; [|etrans; [exact E'|exact E2]|].
      * split; [|exact Hm']. by destruct Hi'; constructor.
      * intros entry [= <-]. set (r4 := on_dbt _ r3) in *. change (rs_m (bump_translated r4)) with (rs_m r4).
        assert (rPC (rs_m r4).1 = pc) as Ep4 by (by rewrite E'). by apply inv_entered; [|rewrite Ep4..].
    + pose proof (translate_none n x r2 g2) as H. cbv zeta in H. rewrite Ep in H.
      destruct (H (conj Hi2 Hm2) Hscan) as ([Hi' Hm'] & E' & Eh).
      destruct (translate_here inline_ports pc r2) as [code r3]. cbn [fst snd] in *. subst code. rewrite Et in *.
      exists g2. split_and!; [by split|etrans; [exact E'|exact E2]|done].
Qed.

(** ** One pass, and the loop *)

Lemma events_prepared n x r g : prepared n x r g → prepared n x (set_rs_m (host_events (rs_m r)) r) g.
Proof using HF.
  intros [[Hc Hw Hr Hk Hu Hv] Hm]. unfold host_events. destruct (nz (host_event (rs_m r).1)) eqn:E; [|by split].
  set (s' := (set_host_event 0 (rs_m r).1, on_host_event (set_host_event 0 (rs_m r).1, (rs_m r).2))).
  assert (dbt_of s'.2 = the_dbt r) as Hd by apply hf_event.
  split.
  - constructor; unfold the_dbt, world_of; cbn [rs_m set_rs_m]; rewrite ?Hd; [|done..]. subst s'. cbn. in_range.
  - apply (mv_event n x (rs_m r) g); [done|]. unfold nz in E. by apply negb_true_iff, Z.eqb_neq in E.
Qed.

(** Running code, native or interpreted. *)
Lemma run_touch r g s' : run_inv r g → cpu_ok s'.1 → effect (sides (rs_m r)) (sides s') →
  ∃ g', g_snap g' = g_snap g ∧ g_code g' = g_code g ∧ rtc touch (world_of (rs_m r) g) (world_of s' g') ∧
    run_inv (set_rs_m s' r) g'.
Proof using Type.
  intros [Hc Hw Hr Hk Hu Hv] Hc' He. destruct (He (g_snap g) (g_missed g)) as [ms' Ht].
  exists (mk_ghost (g_snap g) ms' (g_code g)). pose proof (touches_shrink _ _ Ht) as Hsh. cbn in Hsh.
  split_and!; [done|done|done|]. constructor; [done| | | |done|done].
  - eapply reachable_ok; [by apply touches_smc|done].
  - by apply (refused_shrink (the_dbt r)).
  - intros pc Hpc Hl. destruct (shrunk_live _ _ pc Hsh Hpc Hl) as [Hl' E]. unfold the_dbt. cbn in E |- *. rewrite E. by apply Hk.
Qed.

Lemma enter_prepared n x r g entry ops : prepared n x r g → entered (rs_m r) g entry ops →
  ∃ g', prepared (S n) x (jit_enter entry r) g'.
Proof using NF.
  intros [Hi Hm] He. destruct (nf_run entry (rs_m r) (inv_cpu _ _ Hi)) as [Hc Hf].
  destruct (run_touch r g _ Hi Hc Hf) as (g' & Es & Ek & Ht & Hi'). exists g'.
  split; [by destruct Hi'; constructor|]. by apply (mv_block n x (rs_m r) g entry ops).
Qed.

(** A pass: one block entered, one instruction interpreted, or a stop. *)
Definition pass_ok n x (res : pass_result W) : Prop :=
  match res with
  | Continue r => ∃ g, prepared (S n) x r g
  | Return rc r => ∃ s1 g, moves n x (s1, g) ∧ guest_stop s1 rc (rs_m r)
  end.

Lemma fallback_pass n x r g : prepared n x r g → pass_ok n x (fallback_step r).
Proof using HF HostOk0.
  intros [Hi Hm]. destruct (step_effect (rs_m r) (inv_cpu _ _ Hi)) as [Hc Hf]. unfold fallback_step. cbn [rs_m bump_fallback].
  destruct (z80_step (rs_m r)) as [rc s] eqn:Es. cbn [snd] in *. destruct rc; cbn [pass_ok].
  - change (verify (set_rs_m s (bump_fallback r))) with (verify r). rewrite (inv_mode _ _ Hi).
    destruct (run_touch r g s Hi Hc Hf) as (g' & E1 & E2 & Ht & Hi'). exists g'.
    split; [by destruct Hi'; constructor|]. by apply (mv_insn n x (rs_m r) g).
  - exists (rs_m r), g. split; [done|]. by apply stop_exit.
  - exists (rs_m r), g. split; [done|]. by apply stop_error.
Qed.

Lemma pass_spec n x r g : prepared n x r g → pass_ok n x (dbt_pass inline_ports r).
Proof using HF NF HostOk0.
  intros Hp. apply events_prepared in Hp. unfold dbt_pass. generalize dependent (set_rs_m (host_events (rs_m r)) r). clear r.
  intros r Hp. cbv zeta. rewrite hf_traps.
  destruct (traps && (rPC (rs_m r).1 =? 0) && (4 <? insn_count (rs_m r).1)) eqn:Ewb.
  { apply andb_true_iff in Ewb as [[Et Ep%Z.eqb_eq]%andb_true_iff Ei%Z.ltb_lt]. exists (rs_m r), g. split; [apply Hp|]. by apply stop_warm_boot. }
  destruct (traps && (SAFETY_LIMIT <? insn_count (rs_m r).1)) eqn:Elim.
  { apply andb_true_iff in Elim as [Et Ei%Z.ltb_lt]. exists (rs_m r), g. split; [apply Hp|]. by apply stop_limit. }
  destruct (find_code_inv n x r g Hp) as (g' & Hp' & _ & He). destruct (find_code inline_ports r) as [code r']. cbn [fst snd] in *.
  destruct code as [entry|]; [|by apply (fallback_pass n x r' g')].
  rewrite (inv_mode _ _ (proj1 Hp')). destruct (He entry eq_refl) as [ops Hops]. by apply (enter_prepared n x r' g' entry ops).
Qed.

Definition loop_ok n x (res : option Z * run_state W) : Prop :=
  match res with
  | (None, r) => ∃ g, moves n x (rs_m r, g)
  | (Some rc, r) => ∃ k s1 g, (k < n)%nat ∧ moves k x (s1, g) ∧ guest_stop s1 rc (rs_m r)
  end.
Lemma loop_spec x sigs : ∀ n r g, prepared n x r g → loop_ok (n + length sigs) x (dbt_loop inline_ports sigs r).
Proof using HF NF HostOk0.
  induction sigs as [|sig sigs IH]; intros n r g Hp; cbn [dbt_loop length].
  { exists g. rewrite Nat.add_0_r. apply Hp. }
  assert (∃ r', (if sig then set_rs_m (signal (rs_m r)) r else r) = r' ∧ prepared n x r' g) as (r' & -> & Hp').
  { destruct sig; eexists; (split; [reflexivity|]); [|done]. destruct Hp as [[Hc Hw Hr Hk Hu Hv] Hm]. split; [|by apply mv_signal].
    constructor; [|done..]. cbn. in_range. }
  pose proof (pass_spec n x r' g Hp') as H. destruct (dbt_pass inline_ports r') as [r2|rc r2]; cbn [pass_ok] in H.
  - destruct H as (g2 & Hp2). rewrite Nat.add_succ_r. by apply (IH (S n) r2 g2).
  - destruct H as (s1 & g1 & Hm & Hs). exists n, s1, g1. split_and!; [lia|done|done].
Qed.

(** No block yet. *)
Definition ghost0 s : ghost := mk_ghost (λ _, mem s.1) (λ _, ∅) ∅.

End Loop.

(** ** RET to 0000 *)

(** C25: a RET that pops 0000 ends the emulator, a taken RET cc or a RETN
    that pops the same 0000 does not.  The interpreter's step returns "clean
    exit" for the first whether or not the CP/M traps are enabled, so on a
    native system, where 0000 holds the warm-boot jump, the loop of main
    stops there; after the other two it goes on at 0000. *)
Theorem ret_zero_exits `{RunHost W} (s : mach W) :
  cpu_ok s.1 → mget16 (mem s.1) (rSP s.1) = 0 →
  let d := z80_decode_one (mem s.1) (rPC s.1) in
  dtype d = Z80_OP_RET ∨ dtype d = Z80_OP_RET_CC ∧ cond_true (cc d) s.1 = true ∨ dtype d = Z80_OP_RETN →
  ∃ s', z80_step s = (match dtype d with Z80_OP_RET => RC_EXIT | _ => RC_OK end, s') ∧
    rPC s'.1 = 0 ∧ rSP s'.1 = u16 (rSP s.1 + 2) ∧ mem s'.1 = mem s.1 ∧ s'.2 = s.2 ∧
    (traps_enabled s.2 = false → host_event s.1 = 0 →
     interp_pass s = match dtype d with Z80_OP_RET => IBreak StopExit s' | _ => IContinue s' end).
Proof.
  intros Hok Hsp d Hd. assert (∃ s', z80_step s = (match dtype d with Z80_OP_RET => RC_EXIT | _ => RC_OK end, s') ∧
    rPC s'.1 = 0 ∧ rSP s'.1 = u16 (rSP s.1 + 2) ∧ mem s'.1 = mem s.1 ∧ s'.2 = s.2) as (s' & E & H1 & H2 & H3 & H4).
  { unfold z80_step, exec. fold d. destruct Hd as [-> |[[-> Hcc]| ->]].
    - eexists. unfold op_RET. cbv zeta. assert (rPC (on_cpu ret_to (on_cpu (advance d) s)).1 = 0) as -> by exact Hsp. by split_and!.
    - unfold pure, op_RET_CC. set (s1 := on_cpu (advance d) s). assert (cond_true (cc d) s1.1 = true) as Hc by exact Hcc. unfold on_cpu at 2. rewrite Hc.
      eexists. by split_and!.
    - eexists. by split_and!. }
  exists s'. split_and!; [done..|]. intros Ht He. unfold interp_pass, host_events. rewrite Ht, He. cbn [andb nz Z.eqb negb]. rewrite E.
  destruct Hd as [-> |[[-> _]| ->]]; [done|by rewrite H4, Ht..].
Qed.

(** ** A machine that is nothing but the translator *)

#[export] Instance lone_host : Host z80_dbt := {|
  smc_store := dbt_store;
  port_in_hook := None;
  port_out_hook := None;
  console_wait w := w;
  traps_enabled _ := false;
  bdos_dispatch s := (true, s);
  bios_dispatch s := (true, s)
|}.

#[export] Instance lone_host_ok : HostOk z80_dbt.
Proof. by split. Qed.

#[export] Instance lone_run_host : RunHost z80_dbt := {|
  dbt_of w := w;
  set_dbt d _ := d;
  on_host_event s := s.2
|}.

(** Native code that executes the block's first instruction. *)
#[export] Instance lone_code : NativeCode z80_dbt := {|
  emit_trampoline d := (64, d);
  emit_block _ _ _ off d := (off + 32, d);
  run_code _ s := (z80_step s).2
|}.

#[export] Instance lone_host_frame : HostFrame (W := z80_dbt) false.
Proof. by constructor. Qed.
#[export] Instance lone_native_frame : NativeFrame (W := z80_dbt).
Proof.
  constructor; [done|intros; cbn; split; [done|lia]|]. intros entry s Hc. by apply (step_effect false).
Qed.

(** [JR $] at 0000. *)
Definition spin : z80_cpu := set_mem (mset_list 0 [0x18; 0xFE] ∅) z80_cpu_init.
Lemma spin_ok : cpu_ok spin.
Proof. apply ok_set_mem; [apply z80_cpu_init_ok|in_range]. Qed.


Example ret_zero_exits_witness :
  let c := set_rSP 0x200 (set_rPC 0x100 (set_mem (mset_list 0x100 [0xC9] ∅) z80_cpu_init)) in
  ∃ s', z80_step (c, empty_dbt) = (RC_EXIT, s') ∧ interp_pass (c, empty_dbt) = IBreak StopExit s'.
Proof.
  intros c. destruct (ret_zero_exits (c, empty_dbt)) as (s' & E & _ & _ & _ & _ & Hp);
    [subst c; pose proof z80_cpu_init_ok; in_range|done|left; by vm_compute|]. exists s'. split; [exact E|]. by apply Hp.
Defined.
