(* ===== verification/VerifyOk.v ===== *)
(** * VerifyOk: -V takes nothing on trust

    Under -V every native block is checked against the interpreter, so what
    holds of a run needs no assumption about the translator: neither
    [run_code] nor [emit_block] is constrained here. *)

From Stdlib Require Import ZArith Lia Bool List.
From stdpp Require Import base gmap list relations.
From S2P Require Import Prelude Cpu Decode Interp InterpOk Translate BlockCache Smc Run RunOk.

Open Scope Z_scope.
Open Scope z80_scope.

(** Two guests a program cannot tell apart: every register, as the register
    pairs where they are pairs, the interrupt state, Q, MEMPTR, and all of
    memory.  It is spelled out here and not taken from the code's own
    comparison. *)
Record same_guest (a b : z80_cpu) : Prop := {
  sg_af : word_of (rF a) (rA a) = word_of (rF b) (rA b);
  sg_bc : word_of (rC a) (rB a) = word_of (rC b) (rB b);
  sg_de : word_of (rE a) (rD a) = word_of (rE b) (rD b);
  sg_hl : word_of (rL a) (rH a) = word_of (rL b) (rH b);
  sg_shadow : (af_ a, bc_ a, de_ a, hl_ a) = (af_ b, bc_ b, de_ b, hl_ b);
  sg_index : (rIX a, rIY a) = (rIX b, rIY b);
  sg_sp : rSP a = rSP b;
  sg_pc : rPC a = rPC b;
  sg_ir : (rI a, rR a) = (rI b, rR b);
  sg_int : (iff1 a, iff2 a, im a) = (iff1 b, iff2 b, im b);
  sg_q : rQ a = rQ b;
  sg_memptr : memptr a = memptr b;
  sg_mem i : is_word i → mget (mem a) i = mget (mem b) i
}.

Lemma regs_equal_spec a b : (∀ i, is_word i → mget (mem a) i = mget (mem b) i) → cpu_regs_equal a b = true ↔ same_guest a b.
Proof.
  intros Hm. unfold cpu_regs_equal, rAF, rBC, rDE, rHL. rewrite !andb_true_iff, !Z.eqb_eq. split.
  - intros H. decompose [and] H. constructor; congruence || done.
  - intros [H1 H2 H3 H4 H5 H6 H7 H8 H9 H10 H11 H12 _]. simplify_eq. by split_and!.
Qed.

Lemma mem_equal_spec a b : mem_equal a b = true ↔ ∀ i, is_word i → mget a i = mget b i.
Proof.
  unfold mem_equal. split.
  - intros H i Hi. apply Z.eqb_eq. apply (forall_zseq _ _ _ H). rewrite Z2Nat.id by done. unfold is_word in Hi. lia.
  - intros H. apply forallb_forall. intros i Hi. apply elem_of_zseq in Hi. rewrite Z2Nat.id in Hi by done.
    apply Z.eqb_eq, H. unfold is_word. lia.
Qed.

Lemma same_guest_spec a b : cpu_regs_equal a b && mem_equal (mem a) (mem b) = true ↔ same_guest a b.
Proof.
  rewrite andb_true_iff, mem_equal_spec. split; [intros [H Hm]; by apply regs_equal_spec|].
  intros H. split; [by apply regs_equal_spec; [apply H|]|apply H].
Qed.

Lemma resync_same c : same_guest c (resync c).
Proof. by constructor. Qed.

Section Verify.
Context {W : Type} `{HW : Host W, HR : !RunHost W, HN : !NativeCode W} (inline_ports : bool).
Implicit Types (s : mach W) (r : run_state W).

(** What a verified run is made of.  [vs_block]: the block moved the guest
    as the interpreter moves an equal guest over as many instructions. *)
Inductive verified_step : mach W → mach W → Prop :=
  | vs_block s s' sh w : same_guest s.1 sh →
      same_guest s'.1 (shadow_steps (u64 (insn_count s'.1 - insn_count s.1)) (sh, w)).1 → verified_step s s'
  | vs_step s s' : z80_step s = (RC_OK, s') → verified_step s s'
  | vs_host s w h : verified_step s (set_host_event h s.1, w)
  | vs_world s w : verified_step s (s.1, w).

Definition lockstep r : Prop :=
  verify r = true ∧ ∃ sh, shadow r = Some sh ∧ same_guest (rs_m r).1 sh.

(** Same guest and same mode; the translator and the counters may move. *)
Definition quiet r r' : Prop :=
  (rs_m r').1 = (rs_m r).1 ∧ verify r' = verify r ∧ shadow r' = shadow r.

#[local] Instance quiet_preorder : PreOrder quiet.
Proof. split; [done|]. intros r1 r2 r3 (?&?&?) (?&?&?). split_and!; congruence. Qed.

Lemma reclaim_quiet r : quiet r (reclaim r).
Proof using Type. unfold reclaim. by repeat case_match. Qed.
Lemma translate_quiet pc r : quiet r (dbt_translate_block inline_ports pc r).2.
Proof using Type.
  etrans; [apply reclaim_quiet|]. unfold dbt_translate_block, translate_here.
  destruct (scan_block _ _ _ _) as [[ops e]|]; [|done]. by destruct (emit_block _ _ _ _ _).
Qed.
Lemma find_code_quiet r : quiet r (find_code inline_ports r).2.
Proof using Type.
  unfold find_code. destruct (dbt_cache_lookup _ _) as [[e|] d]; [done|].
  etrans; [apply (translate_quiet (rPC (rs_m r).1) (on_dbt (λ _, d) r))|].
  by destruct (dbt_translate_block _ _ _) as [[entry|] r'].
Qed.

Lemma quiet_lockstep r r' : quiet r r' → lockstep r → lockstep r'.
Proof using Type. intros (Hc & Hv & Hs) (E & sh & Hsh & Hg). split; [congruence|]. exists sh. by rewrite Hs, Hc. Qed.

Lemma same_guest_event h c sh : same_guest c sh → same_guest (set_host_event h c) sh.
Proof using Type. intros []. by constructor. Qed.

Lemma verify_block_spec entry sh r r' :
  verify r = true → verify_block entry sh r = Continue r' → lockstep r' ∧ verified_step (rs_m r) (rs_m r').
Proof using Type.
  intros Hv. unfold verify_block. cbv zeta.
  destruct (cpu_regs_equal _ sh && _) eqn:Epre; cbn [negb]; [|done].
  apply same_guest_spec in Epre.
  destruct (shadow_steps _ _) as [sh' w] eqn:Esh.
  destruct (cpu_regs_equal _ sh' && _) eqn:Epost; cbn [negb]; [|done].
  apply same_guest_spec in Epost. intros [= <-].
  split; [split; [exact Hv|]; exists sh'; split; [reflexivity|exact Epost]|].
  apply (vs_block (rs_m r) ((rs_m (jit_enter entry r)).1, w) sh (rs_m (jit_enter entry r)).2); [exact Epre|].
  cbn [fst]. rewrite Esh. exact Epost.
Qed.

Lemma fallback_verified r r' :
  verify r = true → fallback_step r = Continue r' → lockstep r' ∧ verified_step (rs_m r) (rs_m r').
Proof using Type.
  intros Hv. unfold fallback_step. cbn [rs_m bump_fallback]. destruct (z80_step (rs_m r)) as [[] s] eqn:E; [|done|done].
  change (verify (set_rs_m s (bump_fallback r))) with (verify r). rewrite Hv. intros [= <-]. split; [|by apply vs_step].
  split; [done|]. exists (resync s.1). split; [done|]. apply resync_same.
Qed.

Lemma events_verified s : verified_step s (host_events s).
Proof using Type.
  unfold host_events. destruct (nz _); [apply vs_host|]. destruct s as [c w]. apply (vs_world (c, w)).
Qed.

Lemma pass_verified r r' :
  lockstep r → dbt_pass inline_ports r = Continue r' → lockstep r' ∧ rtc verified_step (rs_m r) (rs_m r').
Proof using Type.
  intros Hl Hp. assert (lockstep (set_rs_m (host_events (rs_m r)) r)) as Hl'.
  { destruct Hl as (Hv & sh & Hsh & Hg). split; [done|]. exists sh. split; [done|]. cbn. unfold host_events.
    destruct (nz _); [by apply same_guest_event|done]. }
  assert (lockstep r' ∧ rtc verified_step (rs_m (set_rs_m (host_events (rs_m r)) r)) (rs_m r')) as [H1 H2].
  { unfold dbt_pass in Hp. revert Hp. generalize dependent (set_rs_m (host_events (rs_m r)) r). clear Hl. intros r1 Hl. cbv zeta.
    destruct (_ && _); [done|]. destruct (_ && _); [done|].
    pose proof (find_code_quiet r1) as Hq. destruct (find_code inline_ports r1) as [code r2]. cbn [snd] in Hq.
    assert (verified_step (rs_m r1) (rs_m r2)) as Hvs.
    { destruct Hq as [E _]. destruct (rs_m r2) as [c w]. cbn in E. subst c. apply vs_world. }
    pose proof (quiet_lockstep _ _ Hq Hl) as (Hv & sh & Hsh & _). rewrite Hv, Hsh.
    destruct code as [entry|]; intros Hp;
      [destruct (verify_block_spec entry sh r2 r' Hv Hp)|destruct (fallback_verified r2 r' Hv Hp)];
      (split; [done|]); by eapply rtc_l, rtc_once. }
  split; [done|]. eapply rtc_l; [apply events_verified|exact H2].
Qed.

(** C6: shadow verification is sound whatever the translator does.  A -V
    run that has not been stopped is in lockstep: the guest-visible
    registers (each of them: [same_guest]) and all 64 KB of memory equal the
    shadow's.  And it got there
    by steps that are each the interpreter's own, a change outside the
    guest, or a native block that moved the guest exactly as the interpreter
    moves an equal guest over the same number of instructions; a block that
    does anything else ends the run with -1. *)
Theorem verify_sound alloc sigs s r :
  dbt_run inline_ports alloc sigs (dbt_init true s) = (None, r) →
  rtc verified_step s (rs_m r) ∧ ∃ sh, shadow r = Some sh ∧ same_guest (rs_m r).1 sh.
Proof using Type.
  assert (∀ sigs r0 r, lockstep r0 → dbt_loop inline_ports sigs r0 = (None, r) →
    rtc verified_step (rs_m r0) (rs_m r) ∧ lockstep r) as Hloop.
  { clear. intros sigs. induction sigs as [|sig sigs IH]; intros r0 r Hl; cbn [dbt_loop]; [by intros [= <-]|].
    set (r1 := if sig then _ else _).
    assert (lockstep r1 ∧ verified_step (rs_m r0) (rs_m r1)) as [Hl1 Hs1].
    { subst r1. destruct sig; [|split; [done|destruct (rs_m r0) as [c w]; apply (vs_world (c, w))]].
      split; [|apply vs_host]. destruct Hl as (Hv & sh & Hsh & Hg). split; [done|]. exists sh. split; [done|]. by apply same_guest_event. }
    destruct (dbt_pass inline_ports r1) as [r2|] eqn:Hp; [|done]. intros Hr.
    destruct (pass_verified r1 r2 Hl1 Hp) as [Hl2 Hs2]. destruct (IH _ _ Hl2 Hr) as [Hs3 Hl3].
    split; [|done]. eapply rtc_l; [exact Hs1|]. by etrans. }
  unfold dbt_run, dbt_init. destruct (emit_trampoline _) as [n d]. cbn [shadow verify].
  destruct alloc; [|done]. intros Hr.
  destruct (Hloop sigs (set_shadow (Some (resync s.1)) (mk_run (s.1, set_dbt d s.2) n 0 0 0 0 true None)) r) as [Hs (_ & Hl)]; [|done|].
  - split; [done|]. exists (resync s.1). split; [done|]. apply resync_same.
  - split; [|done]. eapply rtc_l; [|exact Hs]. apply vs_world.
Qed.
End Verify.

Definition verified_spin : option Z * run_state z80_dbt :=
  dbt_run true true [false; true; false] (dbt_init true (spin, empty_dbt)).

Example verify_sound_witness :
  ∃ r, verified_spin = (None, r) ∧ jit_block_entries r = 3 ∧ verify_blocks_checked r = 3 ∧
  ∃ sh, shadow r = Some sh ∧ same_guest (rs_m r).1 sh.
Proof.
  assert (verified_spin.1 = None ∧ jit_block_entries verified_spin.2 = 3 ∧ verify_blocks_checked verified_spin.2 = 3)
    as (E & H2 & H3) by (by vm_compute).
  pose proof (verify_sound true true [false; true; false] (spin, empty_dbt)) as H.
  fold verified_spin in H. destruct verified_spin as [o r]. cbn [fst snd] in *. subst o.
  exists r. split; [reflexivity|]. split; [exact H2|]. split; [exact H3|]. by apply (H r eq_refl).
Defined.
