(* ===== verification/Video.v ===== *)
(** * Video: the Kaypro screen (src/kaypro/kaypro_video.c)

    The 25 x 80 cell buffer and the control interpreter that the console's
    bytes drive: printing with wrap and scroll, the ADM-3A control codes,
    the escape sequences with their argument counts, highlighted and video
    mode bytes, the dirty-row mask, and the text dump. *)

From Stdlib Require Import ZArith Lia Bool List Ascii.
From stdpp Require Import base list.
From S2P Require Import Prelude.

Open Scope Z_scope.
Open Scope z80_scope.

(** A C character constant. *)
Definition chr (a : ascii) : Z := Z.of_N (N_of_ascii a).

Definition KV_ROWS : Z := 25.
Definition KV_TEXT_ROWS : Z := 24.
Definition KV_COLS : Z := 80.

Definition KV_ATTR_REVERSE : Z := 0x01.
Definition KV_ATTR_DIM : Z := 0x02.
Definition KV_ATTR_BLINK : Z := 0x04.
Definition KV_ATTR_UNDERLINE : Z := 0x08.
Definition KV_ATTR_PIXEL7 : Z := 0x10.

Definition KAYPRO_MODEL_II : Z := 0.
Definition KAYPRO_MODEL_84 : Z := 1.

Record kaypro_cell := mk_cell { ch : Z; cell_attr : Z }.

Set Primitive Projections.
Record kaypro_video := mk_video {
  cells : list (list kaypro_cell);
  cur_row : Z;
  cur_col : Z;
  attr : Z;
  cursor_visible : bool;
  model : Z;
  status_preserve : bool;
  saved_row : Z;
  saved_col : Z;
  video_mode : bool;
  gfx_pending : bool;
  gfx_first : Z;
  esc_state : Z;
  esc_lead : Z;
  esc_need : Z;
  esc_args : list Z;
  esc_nargs : Z;
  dirty_rows : Z;
  cursor_moved : bool;
  bytes_in : Z;
  bells : Z;
  unknown_ctrl : Z;
  unknown_esc : Z
}.
Unset Primitive Projections.

Definition set_cells (v : list (list kaypro_cell)) (k : kaypro_video) : kaypro_video :=
  mk_video v (cur_row k) (cur_col k) (attr k) (cursor_visible k) (model k)
    (status_preserve k) (saved_row k) (saved_col k) (video_mode k) (gfx_pending k)
    (gfx_first k) (esc_state k) (esc_lead k) (esc_need k) (esc_args k) (esc_nargs k)
    (dirty_rows k) (cursor_moved k) (bytes_in k) (bells k) (unknown_ctrl k) (unknown_esc
    k).
Definition set_cur_row (v : Z) (k : kaypro_video) : kaypro_video :=
  mk_video (cells k) v (cur_col k) (attr k) (cursor_visible k) (model k) (status_preserve
    k) (saved_row k) (saved_col k) (video_mode k) (gfx_pending k) (gfx_first k) (esc_state
    k) (esc_lead k) (esc_need k) (esc_args k) (esc_nargs k) (dirty_rows k) (cursor_moved
    k) (bytes_in k) (bells k) (unknown_ctrl k) (unknown_esc k).
Definition set_cur_col (v : Z) (k : kaypro_video) : kaypro_video :=
  mk_video (cells k) (cur_row k) v (attr k) (cursor_visible k) (model k) (status_preserve
    k) (saved_row k) (saved_col k) (video_mode k) (gfx_pending k) (gfx_first k) (esc_state
    k) (esc_lead k) (esc_need k) (esc_args k) (esc_nargs k) (dirty_rows k) (cursor_moved
    k) (bytes_in k) (bells k) (unknown_ctrl k) (unknown_esc k).
Definition set_attr (v : Z) (k : kaypro_video) : kaypro_video :=
  mk_video (cells k) (cur_row k) (cur_col k) v (cursor_visible k) (model k)
    (status_preserve k) (saved_row k) (saved_col k) (video_mode k) (gfx_pending k)
    (gfx_first k) (esc_state k) (esc_lead k) (esc_need k) (esc_args k) (esc_nargs k)
    (dirty_rows k) (cursor_moved k) (bytes_in k) (bells k) (unknown_ctrl k) (unknown_esc
    k).
Definition set_cursor_visible (v : bool) (k : kaypro_video) : kaypro_video :=
  mk_video (cells k) (cur_row k) (cur_col k) (attr k) v (model k) (status_preserve k)
    (saved_row k) (saved_col k) (video_mode k) (gfx_pending k) (gfx_first k) (esc_state k)
    (esc_lead k) (esc_need k) (esc_args k) (esc_nargs k) (dirty_rows k) (cursor_moved k)
    (bytes_in k) (bells k) (unknown_ctrl k) (unknown_esc k).
Definition set_model (v : Z) (k : kaypro_video) : kaypro_video :=
  mk_video (cells k) (cur_row k) (cur_col k) (attr k) (cursor_visible k) v
    (status_preserve k) (saved_row k) (saved_col k) (video_mode k) (gfx_pending k)
    (gfx_first k) (esc_state k) (esc_lead k) (esc_need k) (esc_args k) (esc_nargs k)
    (dirty_rows k) (cursor_moved k) (bytes_in k) (bells k) (unknown_ctrl k) (unknown_esc
    k).
Definition set_status_preserve (v : bool) (k : kaypro_video) : kaypro_video :=
  mk_video (cells k) (cur_row k) (cur_col k) (attr k) (cursor_visible k) (model k) v
    (saved_row k) (saved_col k) (video_mode k) (gfx_pending k) (gfx_first k) (esc_state k)
    (esc_lead k) (esc_need k) (esc_args k) (esc_nargs k) (dirty_rows k) (cursor_moved k)
    (bytes_in k) (bells k) (unknown_ctrl k) (unknown_esc k).
Definition set_saved_row (v : Z) (k : kaypro_video) : kaypro_video :=
  mk_video (cells k) (cur_row k) (cur_col k) (attr k) (cursor_visible k) (model k)
    (status_preserve k) v (saved_col k) (video_mode k) (gfx_pending k) (gfx_first k)
    (esc_state k) (esc_lead k) (esc_need k) (esc_args k) (esc_nargs k) (dirty_rows k)
    (cursor_moved k) (bytes_in k) (bells k) (unknown_ctrl k) (unknown_esc k).
Definition set_saved_col (v : Z) (k : kaypro_video) : kaypro_video :=
  mk_video (cells k) (cur_row k) (cur_col k) (attr k) (cursor_visible k) (model k)
    (status_preserve k) (saved_row k) v (video_mode k) (gfx_pending k) (gfx_first k)
    (esc_state k) (esc_lead k) (esc_need k) (esc_args k) (esc_nargs k) (dirty_rows k)
    (cursor_moved k) (bytes_in k) (bells k) (unknown_ctrl k) (unknown_esc k).
Definition set_video_mode (v : bool) (k : kaypro_video) : kaypro_video :=
  mk_video (cells k) (cur_row k) (cur_col k) (attr k) (cursor_visible k) (model k)
    (status_preserve k) (saved_row k) (saved_col k) v (gfx_pending k) (gfx_first k)
    (esc_state k) (esc_lead k) (esc_need k) (esc_args k) (esc_nargs k) (dirty_rows k)
    (cursor_moved k) (bytes_in k) (bells k) (unknown_ctrl k) (unknown_esc k).
Definition set_gfx_pending (v : bool) (k : kaypro_video) : kaypro_video :=
  mk_video (cells k) (cur_row k) (cur_col k) (attr k) (cursor_visible k) (model k)
    (status_preserve k) (saved_row k) (saved_col k) (video_mode k) v (gfx_first k)
    (esc_state k) (esc_lead k) (esc_need k) (esc_args k) (esc_nargs k) (dirty_rows k)
    (cursor_moved k) (bytes_in k) (bells k) (unknown_ctrl k) (unknown_esc k).
Definition set_gfx_first (v : Z) (k : kaypro_video) : kaypro_video :=
  mk_video (cells k) (cur_row k) (cur_col k) (attr k) (cursor_visible k) (model k)
    (status_preserve k) (saved_row k) (saved_col k) (video_mode k) (gfx_pending k) v
    (esc_state k) (esc_lead k) (esc_need k) (esc_args k) (esc_nargs k) (dirty_rows k)
    (cursor_moved k) (bytes_in k) (bells k) (unknown_ctrl k) (unknown_esc k).
Definition set_esc_state (v : Z) (k : kaypro_video) : kaypro_video :=
  mk_video (cells k) (cur_row k) (cur_col k) (attr k) (cursor_visible k) (model k)
    (status_preserve k) (saved_row k) (saved_col k) (video_mode k) (gfx_pending k)
    (gfx_first k) v (esc_lead k) (esc_need k) (esc_args k) (esc_nargs k) (dirty_rows k)
    (cursor_moved k) (bytes_in k) (bells k) (unknown_ctrl k) (unknown_esc k).
Definition set_esc_lead (v : Z) (k : kaypro_video) : kaypro_video :=
  mk_video (cells k) (cur_row k) (cur_col k) (attr k) (cursor_visible k) (model k)
    (status_preserve k) (saved_row k) (saved_col k) (video_mode k) (gfx_pending k)
    (gfx_first k) (esc_state k) v (esc_need k) (esc_args k) (esc_nargs k) (dirty_rows k)
    (cursor_moved k) (bytes_in k) (bells k) (unknown_ctrl k) (unknown_esc k).
Definition set_esc_need (v : Z) (k : kaypro_video) : kaypro_video :=
  mk_video (cells k) (cur_row k) (cur_col k) (attr k) (cursor_visible k) (model k)
    (status_preserve k) (saved_row k) (saved_col k) (video_mode k) (gfx_pending k)
    (gfx_first k) (esc_state k) (esc_lead k) v (esc_args k) (esc_nargs k) (dirty_rows k)
    (cursor_moved k) (bytes_in k) (bells k) (unknown_ctrl k) (unknown_esc k).
Definition set_esc_args (v : list Z) (k : kaypro_video) : kaypro_video :=
  mk_video (cells k) (cur_row k) (cur_col k) (attr k) (cursor_visible k) (model k)
    (status_preserve k) (saved_row k) (saved_col k) (video_mode k) (gfx_pending k)
    (gfx_first k) (esc_state k) (esc_lead k) (esc_need k) v (esc_nargs k) (dirty_rows k)
    (cursor_moved k) (bytes_in k) (bells k) (unknown_ctrl k) (unknown_esc k).
Definition set_esc_nargs (v : Z) (k : kaypro_video) : kaypro_video :=
  mk_video (cells k) (cur_row k) (cur_col k) (attr k) (cursor_visible k) (model k)
    (status_preserve k) (saved_row k) (saved_col k) (video_mode k) (gfx_pending k)
    (gfx_first k) (esc_state k) (esc_lead k) (esc_need k) (esc_args k) v (dirty_rows k)
    (cursor_moved k) (bytes_in k) (bells k) (unknown_ctrl k) (unknown_esc k).
Definition set_dirty_rows (v : Z) (k : kaypro_video) : kaypro_video :=
  mk_video (cells k) (cur_row k) (cur_col k) (attr k) (cursor_visible k) (model k)
    (status_preserve k) (saved_row k) (saved_col k) (video_mode k) (gfx_pending k)
    (gfx_first k) (esc_state k) (esc_lead k) (esc_need k) (esc_args k) (esc_nargs k) v
    (cursor_moved k) (bytes_in k) (bells k) (unknown_ctrl k) (unknown_esc k).
Definition set_cursor_moved (v : bool) (k : kaypro_video) : kaypro_video :=
  mk_video (cells k) (cur_row k) (cur_col k) (attr k) (cursor_visible k) (model k)
    (status_preserve k) (saved_row k) (saved_col k) (video_mode k) (gfx_pending k)
    (gfx_first k) (esc_state k) (esc_lead k) (esc_need k) (esc_args k) (esc_nargs k)
    (dirty_rows k) v (bytes_in k) (bells k) (unknown_ctrl k) (unknown_esc k).
Definition set_bytes_in (v : Z) (k : kaypro_video) : kaypro_video :=
  mk_video (cells k) (cur_row k) (cur_col k) (attr k) (cursor_visible k) (model k)
    (status_preserve k) (saved_row k) (saved_col k) (video_mode k) (gfx_pending k)
    (gfx_first k) (esc_state k) (esc_lead k) (esc_need k) (esc_args k) (esc_nargs k)
    (dirty_rows k) (cursor_moved k) v (bells k) (unknown_ctrl k) (unknown_esc k).
Definition set_bells (v : Z) (k : kaypro_video) : kaypro_video :=
  mk_video (cells k) (cur_row k) (cur_col k) (attr k) (cursor_visible k) (model k)
    (status_preserve k) (saved_row k) (saved_col k) (video_mode k) (gfx_pending k)
    (gfx_first k) (esc_state k) (esc_lead k) (esc_need k) (esc_args k) (esc_nargs k)
    (dirty_rows k) (cursor_moved k) (bytes_in k) v (unknown_ctrl k) (unknown_esc k).
Definition set_unknown_ctrl (v : Z) (k : kaypro_video) : kaypro_video :=
  mk_video (cells k) (cur_row k) (cur_col k) (attr k) (cursor_visible k) (model k)
    (status_preserve k) (saved_row k) (saved_col k) (video_mode k) (gfx_pending k)
    (gfx_first k) (esc_state k) (esc_lead k) (esc_need k) (esc_args k) (esc_nargs k)
    (dirty_rows k) (cursor_moved k) (bytes_in k) (bells k) v (unknown_esc k).
Definition set_unknown_esc (v : Z) (k : kaypro_video) : kaypro_video :=
  mk_video (cells k) (cur_row k) (cur_col k) (attr k) (cursor_visible k) (model k)
    (status_preserve k) (saved_row k) (saved_col k) (video_mode k) (gfx_pending k)
    (gfx_first k) (esc_state k) (esc_lead k) (esc_need k) (esc_args k) (esc_nargs k)
    (dirty_rows k) (cursor_moved k) (bytes_in k) (bells k) (unknown_ctrl k) v.

(** ** Primitive screen operations *)

Definition mark_dirty (r : Z) (k : kaypro_video) : kaypro_video :=
  set_dirty_rows (dirty_rows k |' (1 <<' r)) k.
Definition mark_all_dirty (k : kaypro_video) : kaypro_video :=
  set_dirty_rows ((1 <<' KV_ROWS) - 1) k.

Definition scroll_rows (k : kaypro_video) : Z :=
  if (KAYPRO_MODEL_84 <=? model k) && negb (status_preserve k) then KV_ROWS else KV_TEXT_ROWS.

(** [blank_cells(c, n)]: what [n] cells become. *)
Definition blank : kaypro_cell := mk_cell 0x20 0.
Definition blank_cells (n : nat) : list kaypro_cell := replicate n blank.
Definition blank_row : list kaypro_cell := blank_cells (Z.to_nat KV_COLS).

(** [memmove] of [n] whole rows from row [src] to row [dst]. *)
Definition move_rows (dst src n : nat) (rows : list (list kaypro_cell)) : list (list kaypro_cell) :=
  take dst rows ++ take n (drop src rows) ++ drop (dst + n) rows.

Definition row_at (k : kaypro_video) (r : Z) : list kaypro_cell := default [] (cells k !! Z.to_nat r).
Definition set_row (r : Z) (row : list kaypro_cell) (k : kaypro_video) : kaypro_video :=
  set_cells (<[Z.to_nat r:=row]> (cells k)) k.
Definition set_rows (f : list (list kaypro_cell) → list (list kaypro_cell)) (k : kaypro_video) : kaypro_video :=
  set_cells (f (cells k)) k.

Definition scroll_up (k : kaypro_video) : kaypro_video :=
  let n := scroll_rows k in
  let k := set_rows (move_rows 0 1 (Z.to_nat (n - 1))) k in
  let k := set_row (n - 1) blank_row k in
  mark_all_dirty k.

Definition max_row (k : kaypro_video) : Z :=
  (if KAYPRO_MODEL_84 <=? model k then KV_ROWS else KV_TEXT_ROWS) - 1.

Definition set_cursor (r c : Z) (k : kaypro_video) : kaypro_video :=
  let r := if r <? 0 then 0 else if max_row k <? r then max_row k else r in
  let c := if c <? 0 then 0 else if KV_COLS <=? c then KV_COLS - 1 else c in
  set_cursor_moved true (set_cur_col c (set_cur_row r k)).

Definition cursor_down (k : kaypro_video) : kaypro_video :=
  let bottom := scroll_rows k - 1 in
  let k := if cur_row k <? bottom then set_cur_row (cur_row k + 1) k
           else if cur_row k =? bottom then scroll_up k else k in
  set_cursor_moved true k.

(** [cells[cur_row][cur_col] = cell]. *)
Definition write_cell (cell : kaypro_cell) (k : kaypro_video) : kaypro_video :=
  set_row (cur_row k) (<[Z.to_nat (cur_col k):=cell]> (row_at k (cur_row k))) k.

Definition put_char (c : Z) (k : kaypro_video) : kaypro_video :=
  let k := write_cell (mk_cell c (attr k)) k in
  let k := mark_dirty (cur_row k) k in
  let k := if cur_col k =? KV_COLS - 1 then cursor_down (set_cur_col 0 k)
           else set_cur_col (cur_col k + 1) k in
  set_cursor_moved true k.

Definition erase_to_eol (k : kaypro_video) : kaypro_video :=
  let c := Z.to_nat (cur_col k) in
  let k := set_row (cur_row k)
    (take c (row_at k (cur_row k)) ++ blank_cells (Z.to_nat KV_COLS - c)) k in
  mark_dirty (cur_row k) k.

(** [for (r = lo; r < hi; r++) blank_cells(cells[r], KV_COLS)]. *)
Definition blank_rows (lo hi : Z) (k : kaypro_video) : kaypro_video :=
  fold_left (λ k r, set_row r blank_row k) (zseq lo (Z.to_nat (hi - lo))) k.

Definition erase_to_eos (k : kaypro_video) : kaypro_video :=
  let n := scroll_rows k in
  let k := erase_to_eol k in
  mark_all_dirty (blank_rows (cur_row k + 1) n k).

Definition clear_screen (k : kaypro_video) : kaypro_video :=
  let n := scroll_rows k in
  mark_all_dirty (set_cursor 0 0 (blank_rows 0 n k)).

Definition delete_line (k : kaypro_video) : kaypro_video :=
  let r := cur_row k in
  let n := scroll_rows k in
  if n <=? r then k
  else
    let k := if r <? n - 1
             then set_rows (move_rows (Z.to_nat r) (Z.to_nat (r + 1)) (Z.to_nat (n - 1 - r))) k
             else k in
    mark_all_dirty (set_row (n - 1) blank_row k).

Definition insert_line (k : kaypro_video) : kaypro_video :=
  let r := cur_row k in
  let n := scroll_rows k in
  if n <=? r then k
  else
    let k := if r <? n - 1
             then set_rows (move_rows (Z.to_nat (r + 1)) (Z.to_nat r) (Z.to_nat (n - 1 - r))) k
             else k in
    mark_all_dirty (set_row r blank_row k).

(** ** Control characters *)

Definition c_bell (k : kaypro_video) : kaypro_video := set_bells (u32 (bells k + 1)) k.
Definition c_bs (k : kaypro_video) : kaypro_video :=
  if 0 <? cur_col k then set_cursor_moved true (set_cur_col (cur_col k - 1) k) else k.
Definition c_lf (k : kaypro_video) : kaypro_video := cursor_down k.
Definition c_up (k : kaypro_video) : kaypro_video :=
  if 0 <? cur_row k then set_cursor_moved true (set_cur_row (cur_row k - 1) k) else k.
Definition c_right (k : kaypro_video) : kaypro_video :=
  let k := if cur_col k =? KV_COLS - 1 then cursor_down (set_cur_col 0 k)
           else set_cur_col (cur_col k + 1) k in
  set_cursor_moved true k.
Definition c_cr (k : kaypro_video) : kaypro_video := set_cursor_moved true (set_cur_col 0 k).
Definition c_eos (k : kaypro_video) : kaypro_video := erase_to_eos k.
Definition c_eol (k : kaypro_video) : kaypro_video := erase_to_eol k.
Definition c_clear (k : kaypro_video) : kaypro_video := clear_screen k.
Definition c_esc (k : kaypro_video) : kaypro_video := set_esc_state 1 k.
Definition c_home (k : kaypro_video) : kaypro_video := set_cursor 0 0 k.
Definition c_nul (k : kaypro_video) : kaypro_video := put_char (chr "`") k.

(** [None]: a NULL entry. *)
Definition ctrl_handlers (c : Z) : option (kaypro_video → kaypro_video) :=
  match c with
  | 0x00 => Some c_nul
  | 0x07 => Some c_bell
  | 0x08 => Some c_bs
  | 0x0A => Some c_lf
  | 0x0B => Some c_up
  | 0x0C => Some c_right
  | 0x0D => Some c_cr
  | 0x17 => Some c_eos
  | 0x18 => Some c_eol
  | 0x1A => Some c_clear
  | 0x1B => Some c_esc
  | 0x1E => Some c_home
  | _ => None
  end.

(** ** Escape sequences *)

Definition arg (a : list Z) (i : nat) : Z := default 0 (a !! i).

Definition e_cursor (a : list Z) (k : kaypro_video) : kaypro_video :=
  set_cursor (arg a 0 - 0x20) (arg a 1 - 0x20) k.

Definition attr_bit (bit : Z) (on : bool) (k : kaypro_video) : kaypro_video :=
  set_attr (if on then attr k |' bit else attr k &' u8 (Z.lnot bit)) k.

Definition attr_set (n : Z) (on : bool) (k : kaypro_video) : kaypro_video :=
  if n =? chr "0" then attr_bit KV_ATTR_REVERSE on k
  else if n =? chr "1" then attr_bit KV_ATTR_DIM on k
  else if n =? chr "2" then attr_bit KV_ATTR_BLINK on k
  else if n =? chr "3" then attr_bit KV_ATTR_UNDERLINE on k
  else if n =? chr "4" then set_cursor_moved true (set_cursor_visible on k)
  else if n =? chr "5" then set_gfx_pending false (set_video_mode on k)
  else if n =? chr "6" then
    if on then set_saved_col (cur_col k) (set_saved_row (cur_row k) k)
    else set_cursor (saved_row k) (saved_col k) k
  else if n =? chr "7" then set_status_preserve on k
  else set_unknown_esc (u32 (unknown_esc k + 1)) k.

Definition e_attr_on (a : list Z) (k : kaypro_video) : kaypro_video := attr_set (arg a 0) true k.
Definition e_attr_off (a : list Z) (k : kaypro_video) : kaypro_video := attr_set (arg a 0) false k.
Definition e_del_line (_ : list Z) (k : kaypro_video) : kaypro_video := delete_line k.
Definition e_ins_line (_ : list Z) (k : kaypro_video) : kaypro_video := insert_line k.
Definition e_graphics (_ : list Z) (k : kaypro_video) : kaypro_video := k.
Definition e_nop (_ : list Z) (k : kaypro_video) : kaypro_video := k.

Record esc_entry := mk_esc {
  lead : Z;
  nargs : Z;
  esc_model : Z;
  esc_fn : list Z → kaypro_video → kaypro_video
}.

Definition esc_table : list esc_entry := [
  mk_esc (chr "=") 2 KAYPRO_MODEL_II e_cursor;
  mk_esc (chr "B") 1 KAYPRO_MODEL_84 e_attr_on;
  mk_esc (chr "C") 1 KAYPRO_MODEL_84 e_attr_off;
  mk_esc (chr "R") 0 KAYPRO_MODEL_84 e_del_line;
  mk_esc (chr "E") 0 KAYPRO_MODEL_84 e_ins_line;
  mk_esc (chr "A") 0 KAYPRO_MODEL_84 e_nop;
  mk_esc (chr "*") 2 KAYPRO_MODEL_84 e_graphics;
  mk_esc (chr " ") 2 KAYPRO_MODEL_84 e_graphics;
  mk_esc (chr "L") 4 KAYPRO_MODEL_84 e_graphics;
  mk_esc (chr "D") 4 KAYPRO_MODEL_84 e_graphics
].

Definition esc_lookup (l : Z) (k : kaypro_video) : option esc_entry :=
  List.find (λ e, (lead e =? l) && (esc_model e <=? model k)) esc_table.

(** ** The public operations *)

(** [memset], then the fields that do not start at zero. *)
Definition kaypro_video_init (m : Z) : kaypro_video :=
  let k := mk_video [] 0 0 0 true m true 0 0 false false 0 0 0 0 [0; 0; 0; 0] 0 0 false 0 0 0 0 in
  let k := set_cells (replicate (Z.to_nat KV_ROWS) blank_row) k in
  mark_all_dirty (set_cursor 0 0 k).

(** State 1: the byte after ESC. *)
Definition esc_start (c : Z) (k : kaypro_video) : kaypro_video :=
  match esc_lookup c k with
  | None => set_esc_state 0 (set_unknown_esc (u32 (unknown_esc k + 1)) k)
  | Some e =>
      let k := set_esc_need (nargs e) (set_esc_nargs 0 (set_esc_lead c k)) in
      if esc_need k =? 0 then let k := set_esc_state 0 k in esc_fn e (esc_args k) k
      else set_esc_state 2 k
  end.

(** State 2: an argument.  A NULL entry would be called; it is never one
    ([video_ok]). *)
Definition esc_collect (c : Z) (k : kaypro_video) : kaypro_video :=
  let k := set_esc_args (<[Z.to_nat (esc_nargs k):=c]> (esc_args k)) k in
  let k := set_esc_nargs (esc_nargs k + 1) k in
  let k := set_esc_need (esc_need k - 1) k in
  if esc_need k =? 0 then
    let k := set_esc_state 0 k in
    match esc_lookup (esc_lead k) k with Some e => esc_fn e (esc_args k) k | None => k end
  else k.

(** A byte with bit 7 set. *)
Definition put_high (c : Z) (k : kaypro_video) : kaypro_video :=
  if negb (video_mode k) then
    let low := c &' 0x7F in
    if (0x20 <=? low) && negb (low =? 0x7F) then
      let saved := attr k in
      set_attr saved (put_char low (set_attr (attr k |' KV_ATTR_REVERSE) k))
    else put_char c k
  else if negb (gfx_pending k) then set_gfx_first c (set_gfx_pending true k)
  else
    let k := set_gfx_pending false k in
    let saved := attr k in
    let a := (saved &' Z.lnot KV_ATTR_PIXEL7) |' (if nz (gfx_first k &' 1) then KV_ATTR_PIXEL7 else 0) in
    set_attr saved (put_char (u8 (0x80 |' (c &' 0x7F))) (set_attr (u8 a) k)).

Definition put_ground (c : Z) (k : kaypro_video) : kaypro_video :=
  if nz (c &' 0x80) then put_high c k
  else if c <? 0x20 then
    match ctrl_handlers c with Some f => f k | None => set_unknown_ctrl (u32 (unknown_ctrl k + 1)) k end
  else if c =? 0x7F then k
  else put_char c k.

Definition kaypro_video_putc (c : Z) (k : kaypro_video) : kaypro_video :=
  let k := set_bytes_in (u64 (bytes_in k + 1)) k in
  if esc_state k =? 1 then esc_start c k
  else if esc_state k =? 2 then esc_collect c k
  else put_ground c k.

(** A string sent to the screen. *)
Definition video_puts (bs : list Z) (k : kaypro_video) : kaypro_video :=
  fold_left (λ k c, kaypro_video_putc c k) bs k.

(** ** The text dump *)

Definition dump_char (c : Z) : Z :=
  if (0x20 <=? c) && (c <? 0x7F) then c else if nz (c &' 0x80) then chr "#" else chr ".".
Definition hex_digit (n : Z) : Z := if n <? 10 then chr "0" + n else chr "A" + (n - 10).
Definition NL : Z := 10.

Definition dump_text (k : kaypro_video) : list Z :=
  flat_map (λ row, map (λ c, dump_char (ch c)) row ++ [NL]) (cells k).
Definition dump_attrs (k : kaypro_video) : list Z :=
  NL :: flat_map (λ row, map (λ c, hex_digit (cell_attr c &' 0xF)) row ++ [NL]) (cells k).

(** The hex plane, for rows holding something a text dump cannot show. *)
Definition dec2 (n : Z) : list Z := [if n <? 10 then chr " " else chr "0" + n / 10; chr "0" + n mod 10].
Definition hex2 (n : Z) : list Z := [hex_digit (n >>' 4); hex_digit (n &' 0xF)].
Definition dump_hex_row (r : Z) (row : list kaypro_cell) : list Z :=
  if existsb (λ c, (ch c <? 0x20) || (0x7F <=? ch c)) row then
    [NL; chr "r"; chr "o"; chr "w"; chr " "] ++ dec2 r ++ [chr " "; chr "h"; chr "e"; chr "x"; chr ":"]
    ++ flat_map (λ c, chr " " :: hex2 (ch c)) row ++ [NL]
  else [].
Definition dump_hex (k : kaypro_video) : list Z :=
  flat_map (λ r, dump_hex_row r (row_at k r)) (zseq 0 (Z.to_nat KV_ROWS)).

Definition kaypro_video_dump (with_attrs : bool) (k : kaypro_video) : list Z :=
  dump_text k ++ (if with_attrs then dump_attrs k ++ dump_hex k else []).
