(* ===== verification/VideoOk.v ===== *)
(** * VideoOk: the Kaypro screen behaves

    Every byte stream keeps the cursor and the escape buffer in bounds, the
    status line is out of the program's reach unless it asks, text lands
    where it should, every change is reported to the renderer, and the
    escape sequences are read whole. *)

From Stdlib Require Import ZArith Lia Bool List Ascii.
From stdpp Require Import base list.
From S2P Require Import Prelude Video.

Open Scope Z_scope.
Open Scope z80_scope.

(** ** Rows *)

Record rows_ok (rows : list (list kaypro_cell)) : Prop := {
  rows_len : length rows = 25%nat;
  rows_cols : Forall (λ row, length row = 80%nat) rows
}.

Lemma rows_ok_insert i row rows : rows_ok rows → length row = 80%nat → rows_ok (<[i:=row]> rows).
Proof. intros [Hl Hc] Hr. split; [by rewrite length_insert|by apply Forall_insert]. Qed.

Lemma rows_ok_move dst src n rows :
  rows_ok rows → (dst + n <= 25)%nat → (src + n <= 25)%nat → rows_ok (move_rows dst src n rows).
Proof.
  intros [Hl Hc] Hd Hs. unfold move_rows. split.
  - rewrite !length_app, length_take, length_take, !length_drop. lia.
  - repeat apply Forall_app_2; auto using Forall_take, Forall_drop.
Qed.

Lemma lookup_move dst src n rows i :
  length rows = 25%nat → (dst + n <= 25)%nat → (src + n <= 25)%nat →
  move_rows dst src n rows !! i =
    if decide (dst <= i < dst + n)%nat then rows !! (src + (i - dst))%nat else rows !! i.
Proof.
  intros Hl Hd Hs. unfold move_rows. destruct (decide (i < dst)%nat).
  - rewrite decide_False by lia. rewrite lookup_app_l by (rewrite length_take; lia). by apply lookup_take_lt.
  - rewrite lookup_app_r, length_take by (rewrite length_take; lia).
    replace (i - Nat.min dst (length rows))%nat with (i - dst)%nat by lia.
    destruct (decide (i < dst + n)%nat).
    + rewrite decide_True by lia. rewrite lookup_app_l by (rewrite length_take, length_drop; lia).
      rewrite lookup_take_lt by lia. apply lookup_drop.
    + rewrite decide_False by lia. rewrite lookup_app_r, length_take, length_drop by (rewrite length_take, length_drop; lia).
      rewrite lookup_drop. f_equal. lia.
Qed.

Lemma blank_row_len : length blank_row = 80%nat.
Proof. apply length_replicate. Qed.

(** ** The invariant *)

Record screen_ok (k : kaypro_video) : Prop := {
  ok_rows : rows_ok (cells k);
  ok_row : 0 <= cur_row k <= max_row k;
  ok_col : 0 <= cur_col k < KV_COLS;
  ok_model : model k = KAYPRO_MODEL_II ∨ model k = KAYPRO_MODEL_84
}.

(** What the escape machine reads. *)
Definition same_esc (k k' : kaypro_video) : Prop :=
  model k' = model k ∧ esc_state k' = esc_state k ∧ esc_lead k' = esc_lead k ∧
  esc_need k' = esc_need k ∧ esc_nargs k' = esc_nargs k ∧ esc_args k' = esc_args k.

#[export] Instance same_esc_preorder : PreOrder same_esc.
Proof. split; [done|]. intros k1 k2 k3 (?&?&?&?&?&?) (?&?&?&?&?&?). split_and!; congruence. Qed.

(** Everything but the cells, the cursor and the renderer's flags. *)
Definition same_mode (k k' : kaypro_video) : Prop :=
  same_esc k k' ∧ attr k' = attr k ∧ status_preserve k' = status_preserve k.

#[export] Instance same_mode_preorder : PreOrder same_mode.
Proof. split; [done|]. intros k1 k2 k3 (?&?&?) (?&?&?). split_and!; [by etrans|congruence|congruence]. Qed.

Definition keeps (f : kaypro_video → kaypro_video) : Prop :=
  ∀ k, screen_ok k → screen_ok (f k) ∧ same_mode k (f k).

Lemma keeps_comp f g : keeps f → keeps g → keeps (λ k, g (f k)).
Proof.
  intros Hf Hg k Hk. destruct (Hf k Hk) as [Hfk Hs]. destruct (Hg _ Hfk) as [Hgk Hs'].
  split; [done|by etrans].
Qed.

Lemma scroll_rows_bounds k : 24 <= scroll_rows k <= 25.
Proof. unfold scroll_rows, KV_ROWS, KV_TEXT_ROWS. case_match; lia. Qed.
Lemma max_row_bounds k : 23 <= max_row k <= 24.
Proof. unfold max_row, KV_ROWS, KV_TEXT_ROWS. case_match; lia. Qed.
Lemma scroll_rows_max k : scroll_rows k <= max_row k + 1.
Proof. unfold scroll_rows, max_row, KV_ROWS, KV_TEXT_ROWS. destruct (_ <=? _), (status_preserve k); simpl; lia. Qed.

Lemma row_at_len k r : rows_ok (cells k) → 0 <= r < 25 → length (row_at k r) = 80%nat.
Proof.
  intros [Hl Hc] Hr. unfold row_at. destruct (cells k !! Z.to_nat r) as [row|] eqn:E.
  - by eapply Forall_lookup_1 in Hc.
  - apply lookup_ge_None in E. lia.
Qed.

Lemma keeps_set_row r (row : kaypro_video → list kaypro_cell) :
  (∀ k, screen_ok k → length (row k) = 80%nat) → keeps (λ k, set_row r (row k) k).
Proof.
  intros Hr k Hk. split; [|done]. pose proof (Hr k Hk). destruct Hk; constructor; [|done|done|done]. by apply rows_ok_insert.
Qed.
Lemma keeps_set_rows f : (∀ rows, rows_ok rows → rows_ok (f rows)) → keeps (set_rows f).
Proof. intros Hf k [H1 H2 H3 H4]. split; [|done]. constructor; [by apply Hf|done|done|done]. Qed.
Lemma keeps_mark r : keeps (mark_dirty r).
Proof. intros k []. by split; [constructor|]. Qed.
Lemma keeps_mark_all : keeps mark_all_dirty.
Proof. intros k []. by split; [constructor|]. Qed.
Lemma keeps_moved : keeps (set_cursor_moved true).
Proof. intros k []. by split; [constructor|]. Qed.

Lemma keeps_col (f : kaypro_video → Z) : (∀ k, screen_ok k → 0 <= f k < KV_COLS) → keeps (λ k, set_cur_col (f k) k).
Proof. intros Hf k Hk. split; [|done]. pose proof (Hf k Hk). by destruct Hk; constructor. Qed.
Lemma keeps_row (f : kaypro_video → Z) : (∀ k, screen_ok k → 0 <= f k <= max_row k) → keeps (λ k, set_cur_row (f k) k).
Proof. intros Hf k Hk. split; [|done]. pose proof (Hf k Hk). by destruct Hk; constructor. Qed.

Lemma keeps_scroll_up : keeps scroll_up.
Proof.
  intros k Hk. unfold scroll_up. pose proof (scroll_rows_bounds k). set (n := scroll_rows k) in *.
  apply (keeps_comp (λ k, set_row (n - 1) blank_row (set_rows (move_rows 0 1 (Z.to_nat (n - 1))) k)) mark_all_dirty);
    [|apply keeps_mark_all|done].
  apply (keeps_comp (set_rows _)); [|apply (keeps_set_row (n - 1) (λ _, blank_row)); by intros; apply blank_row_len].
  apply keeps_set_rows. intros rows Hr. apply rows_ok_move; [done|lia|lia].
Qed.

Lemma keeps_set_cursor r c : keeps (set_cursor r c).
Proof.
  intros k Hk. split; [|done]. pose proof (max_row_bounds k). destruct Hk as [H1 H2 H3 H4]. constructor; [done| | |done].
  - cbn. change (max_row (set_cursor r c k)) with (max_row k). repeat case_match; lia.
  - cbn. unfold KV_COLS in *. repeat case_match; lia.
Qed.

Lemma keeps_cursor_down : keeps cursor_down.
Proof.
  intros k Hk. unfold cursor_down. pose proof (scroll_rows_max k).
  destruct (Z.ltb_spec (cur_row k) (scroll_rows k - 1)).
  - split; [|done]. destruct Hk as [H1 H2 H3 H4]. constructor; [done| |done|done]. cbn.
    change (max_row _) with (max_row k). lia.
  - case_match; [|by destruct Hk; split; [constructor|]].
    destruct (keeps_scroll_up k Hk) as [Hs Hm]. split; [by destruct Hs; constructor|exact Hm].
Qed.

Lemma cur_row_25 k : screen_ok k → 0 <= cur_row k < 25.
Proof. intros []. pose proof (max_row_bounds k). lia. Qed.

Lemma keeps_advance : keeps (λ k, if cur_col k =? KV_COLS - 1 then cursor_down (set_cur_col 0 k) else set_cur_col (cur_col k + 1) k).
Proof.
  intros k Hk. destruct (Z.eqb_spec (cur_col k) (KV_COLS - 1)).
  - apply (keeps_comp (set_cur_col 0) cursor_down); [|apply keeps_cursor_down|done].
    apply (keeps_col (λ _, 0)). by intros.
  - pose proof (ok_col k Hk). unfold KV_COLS in *. split; [|done]. destruct Hk; constructor; try done. cbn. unfold KV_COLS. lia.
Qed.

Lemma keeps_write_cell c : keeps (λ k, write_cell (c k) k).
Proof.
  intros k Hk. apply (keeps_set_row (cur_row k) (λ _, <[Z.to_nat (cur_col k):=c k]> (row_at k (cur_row k)))); [|done].
  intros _ _. rewrite length_insert. apply row_at_len; [by apply ok_rows|by apply cur_row_25].
Qed.

Lemma keeps_put_char c : keeps (put_char c).
Proof.
  apply (keeps_comp (λ k, mark_dirty (cur_row (write_cell (mk_cell c (attr k)) k)) (write_cell (mk_cell c (attr k)) k))
    (λ k, set_cursor_moved true (if cur_col k =? KV_COLS - 1 then cursor_down (set_cur_col 0 k) else set_cur_col (cur_col k + 1) k))).
  - apply (keeps_comp (λ k, write_cell (mk_cell c (attr k)) k) (λ k, mark_dirty (cur_row k) k)); [apply keeps_write_cell|].
    intros k. apply keeps_mark.
  - exact (keeps_comp _ _ keeps_advance keeps_moved).
Qed.

Lemma keeps_erase_to_eol : keeps erase_to_eol.
Proof.
  apply (keeps_comp (λ k, set_row (cur_row k) (take (Z.to_nat (cur_col k)) (row_at k (cur_row k)) ++
    blank_cells (Z.to_nat KV_COLS - Z.to_nat (cur_col k))) k) (λ k, mark_dirty (cur_row k) k)); [|intros k; apply keeps_mark].
  intros k Hk. apply (keeps_set_row (cur_row k) (λ _, _)); [|done]. intros _ _.
  pose proof (ok_col k Hk). unfold KV_COLS in *.
  rewrite length_app, length_take, row_at_len; [|by apply ok_rows|by apply cur_row_25].
  unfold blank_cells. rewrite length_replicate. lia.
Qed.

Lemma keeps_blank_rows lo hi : keeps (blank_rows lo hi).
Proof.
  unfold blank_rows. intros k. generalize (zseq lo (Z.to_nat (hi - lo))). intros l. revert k.
  induction l as [|r l IH]; intros k Hk; [by split|]. cbn [fold_left].
  destruct (keeps_set_row r (λ _, blank_row) (λ _ _, blank_row_len) k Hk) as [H1 H2].
  destruct (IH _ H1). split; [done|by etrans].
Qed.

Lemma keeps_erase_to_eos : keeps erase_to_eos.
Proof.
  intros k. apply (keeps_comp (λ k', blank_rows (cur_row (erase_to_eol k') + 1) (scroll_rows k) (erase_to_eol k')) mark_all_dirty);
    [|apply keeps_mark_all]. apply (keeps_comp erase_to_eol (λ k', blank_rows (cur_row k' + 1) (scroll_rows k) k'));
    [apply keeps_erase_to_eol|]. intros k'. apply keeps_blank_rows.
Qed.

Lemma keeps_clear_screen : keeps clear_screen.
Proof.
  intros k. apply (keeps_comp (λ k', set_cursor 0 0 (blank_rows 0 (scroll_rows k) k')) mark_all_dirty); [|apply keeps_mark_all].
  exact (keeps_comp _ _ (keeps_blank_rows _ _) (keeps_set_cursor 0 0)).
Qed.

(** Moving lines within the scrolling region and blanking one. *)
Lemma keeps_shift dst src n r :
  (dst + n <= 25)%nat → (src + n <= 25)%nat → keeps (λ k, mark_all_dirty (set_row r blank_row (set_rows (move_rows dst src n) k))).
Proof.
  intros Hd Hs. apply (keeps_comp (λ k, set_row r blank_row (set_rows (move_rows dst src n) k)) mark_all_dirty); [|apply keeps_mark_all].
  apply (keeps_comp (set_rows (move_rows dst src n)) (set_row r blank_row)).
  - apply keeps_set_rows. intros rows Hr. by apply rows_ok_move.
  - apply (keeps_set_row r (λ _, blank_row)). by intros; apply blank_row_len.
Qed.

Lemma keeps_blank_line r : keeps (λ k, mark_all_dirty (set_row r blank_row k)).
Proof.
  apply (keeps_comp (set_row r blank_row) mark_all_dirty); [|apply keeps_mark_all].
  apply (keeps_set_row r (λ _, blank_row)). by intros; apply blank_row_len.
Qed.

Lemma keeps_delete_line : keeps delete_line.
Proof.
  intros k Hk. unfold delete_line. pose proof (scroll_rows_bounds k). pose proof (cur_row_25 k Hk).
  destruct (Z.leb_spec (scroll_rows k) (cur_row k)); [by split|].
  destruct (Z.ltb_spec (cur_row k) (scroll_rows k - 1)).
  - apply keeps_shift; [lia|lia|done].
  - by apply keeps_blank_line.
Qed.

Lemma keeps_insert_line : keeps insert_line.
Proof.
  intros k Hk. unfold insert_line. pose proof (scroll_rows_bounds k). pose proof (cur_row_25 k Hk).
  destruct (Z.leb_spec (scroll_rows k) (cur_row k)); [by split|].
  destruct (Z.ltb_spec (cur_row k) (scroll_rows k - 1)).
  - apply keeps_shift; [lia|lia|done].
  - by apply keeps_blank_line.
Qed.

(** ** Every byte *)

Definition esc_ok (k : kaypro_video) : Prop :=
  length (esc_args k) = 4%nat ∧
  (esc_state k = 0 ∨ esc_state k = 1 ∨
   esc_state k = 2 ∧ ∃ e, esc_lookup (esc_lead k) k = Some e ∧ 1 <= esc_need k ∧ 0 <= esc_nargs k ∧
     esc_nargs k + esc_need k = nargs e).

Definition video_ok (k : kaypro_video) : Prop := screen_ok k ∧ esc_ok k.

Lemma esc_ok_same k k' : same_esc k k' → esc_ok k → esc_ok k'.
Proof. intros (H1&H2&H3&H4&H5&H6). unfold esc_ok, esc_lookup. by rewrite H1, H2, H3, H4, H5, H6. Qed.

(** An operation called in the ground state. *)
Definition safe (f : kaypro_video → kaypro_video) : Prop :=
  ∀ k, screen_ok k → screen_ok (f k) ∧ same_esc k (f k).

Lemma keeps_safe f : keeps f → safe f.
Proof. intros Hf k Hk. destruct (Hf k Hk) as [? (? & _)]. by split. Qed.

Ltac field_only := let k := fresh in let H := fresh in intros k H; split; [by destruct H; constructor|done].

Lemma safe_attr_set n on : safe (attr_set n on).
Proof.
  intros k Hk. unfold attr_set, attr_bit. repeat case_match; try (split; [by destruct Hk; constructor|done]).
  exact (keeps_safe _ (keeps_set_cursor _ _) k Hk).
Qed.

Lemma safe_esc_fn e a : In e esc_table → safe (esc_fn e a).
Proof.
  intros He. repeat (destruct He as [<-|He]; [|]); try done; cbn [esc_fn].
  - exact (keeps_safe _ (keeps_set_cursor _ _)).
  - apply safe_attr_set.
  - apply safe_attr_set.
  - exact (keeps_safe _ keeps_delete_line).
  - exact (keeps_safe _ keeps_insert_line).
Qed.

Lemma esc_lookup_some l k e : esc_lookup l k = Some e → In e esc_table ∧ 0 <= nargs e <= 4 ∧ lead e = l.
Proof.
  intros H. apply List.find_some in H as [Hin Hl]. split; [done|].
  apply andb_true_iff in Hl as [Hl%Z.eqb_eq _]. split; [|done].
  repeat (destruct Hin as [<-|Hin]; [cbn; lia|]). done.
Qed.

Lemma keeps_bs : keeps c_bs.
Proof.
  intros k Hk. unfold c_bs. destruct (Z.ltb_spec 0 (cur_col k)); [|by split]. split; [|done].
  destruct Hk; constructor; try done. cbn. lia.
Qed.
Lemma keeps_up : keeps c_up.
Proof.
  intros k Hk. unfold c_up. destruct (Z.ltb_spec 0 (cur_row k)); [|by split]. split; [|done].
  destruct Hk; constructor; try done. cbn. change (max_row _) with (max_row k). lia.
Qed.
Lemma keeps_right : keeps c_right.
Proof. exact (keeps_comp _ _ keeps_advance keeps_moved). Qed.
Lemma keeps_cr : keeps c_cr.
Proof. apply (keeps_comp (set_cur_col 0)); [|apply keeps_moved]. apply (keeps_col (λ _, 0)). by intros. Qed.

(** A control code is the bell, ESC, or an operation on the screen. *)
Lemma ctrl_kinds c f : ctrl_handlers c = Some f → f = c_bell ∨ f = c_esc ∨ keeps f.
Proof.
  unfold ctrl_handlers. repeat (case_match; try done); intros [= <-]; auto;
    do 2 right; first [exact (keeps_put_char _)|exact keeps_bs|exact keeps_cursor_down|exact keeps_up|exact keeps_right
      |exact keeps_cr|exact keeps_erase_to_eos|exact keeps_erase_to_eol|exact keeps_clear_screen|exact (keeps_set_cursor 0 0)].
Qed.

Lemma ctrl_safe c f : ctrl_handlers c = Some f → ∀ k, video_ok k → video_ok (f k).
Proof.
  intros Hf k [Hk He]. destruct (ctrl_kinds c f Hf) as [->|[->|Hg]].
  - split; [by destruct Hk; constructor|done].
  - split; [by destruct Hk; constructor|]. destruct He as [Hl _]. split; [done|]. right; by left.
  - destruct (Hg k Hk) as [H1 (H2 & _)]. split; [done|by apply (esc_ok_same k)].
Qed.

Lemma safe_ok f k : safe f → video_ok k → video_ok (f k).
Proof. intros Hf [Hk He]. destruct (Hf k Hk). split; [done|by apply (esc_ok_same k)]. Qed.

Lemma safe_put_high c : safe (put_high c).
Proof.
  assert (∀ a c, safe (λ k, set_attr (attr k) (put_char c (set_attr (a k) k)))) as Hattr.
  { intros a c' k Hk. destruct (keeps_put_char c' (set_attr (a k) k)) as [H1 (H2 & _)]; [by destruct Hk; constructor|].
    split; [by destruct H1; constructor|]. exact H2. }
  intros k Hk. unfold put_high. destruct (video_mode k); cbn [negb].
  - destruct (gfx_pending k); cbn [negb]; [|split; [by destruct Hk; constructor|done]].
    apply (Hattr (λ k, u8 _) _ (set_gfx_pending false k)). by destruct Hk; constructor.
  - cbv zeta. destruct (_ && _); [by apply (Hattr (λ k, attr k |' KV_ATTR_REVERSE))|].
    exact (keeps_safe _ (keeps_put_char c) k Hk).
Qed.

Lemma ground_ok c k : video_ok k → video_ok (put_ground c k).
Proof.
  intros Hk. unfold put_ground. destruct (nz _); [by apply safe_ok; [apply safe_put_high|]|].
  destruct (c <? 0x20).
  - destruct (ctrl_handlers c) eqn:Hf; [by eapply ctrl_safe|]. destruct Hk as [Hk He].
    split; [by destruct Hk; constructor|done].
  - destruct (c =? 0x7F); [done|]. apply safe_ok; [|done]. apply keeps_safe, keeps_put_char.
Qed.

(** The escape machine back in the ground state. *)
Lemma esc_done k : screen_ok k → length (esc_args k) = 4%nat → video_ok (set_esc_state 0 k).
Proof. intros Hk Hl. split; [by destruct Hk; constructor|]. split; [done|by left]. Qed.

Lemma esc_start_ok c k : video_ok k → video_ok (esc_start c k).
Proof.
  intros [Hk [Hl _]]. unfold esc_start. destruct (esc_lookup c k) as [e|] eqn:E.
  - destruct (esc_lookup_some _ _ _ E) as (Hin & Hn & _). cbv zeta. cbn [esc_need set_esc_need].
    destruct (Z.eqb_spec (nargs e) 0).
    + apply safe_ok; [by apply safe_esc_fn|]. apply esc_done; [by destruct Hk; constructor|done].
    + split; [by destruct Hk; constructor|]. split; [done|]. right; right. split; [done|]. exists e.
      split_and!; [done|cbn; lia|done|done].
  - apply esc_done; [by destruct Hk; constructor|done].
Qed.

Lemma esc_collect_ok c k : video_ok k → esc_state k = 2 → video_ok (esc_collect c k).
Proof.
  intros [Hk [Hl He]] H2. destruct He as [He|[He|(_ & e & Hlk & Hneed & Hn & Hsum)]]; [congruence|congruence|].
  destruct (esc_lookup_some _ _ _ Hlk) as (Hin & Hb & _).
  unfold esc_collect. cbv zeta. cbn [esc_need set_esc_need set_esc_nargs set_esc_args].
  destruct (Z.eqb_spec (esc_need k - 1) 0).
  - match goal with |- context [esc_lookup ?l ?k'] => change (esc_lookup l k') with (esc_lookup (esc_lead k) k) end.
    rewrite Hlk. apply safe_ok; [by apply safe_esc_fn|]. apply esc_done; [by destruct Hk; constructor|].
    cbn. by rewrite length_insert.
  - split; [by destruct Hk; constructor|]. split; [cbn; by rewrite length_insert|]. right; right. split; [done|].
    exists e. split_and!; [done|cbn; lia|cbn; lia|cbn; lia].
Qed.

Lemma putc_ok c k : video_ok k → video_ok (kaypro_video_putc c k).
Proof.
  intros Hk. unfold kaypro_video_putc. cbv zeta. set (k1 := set_bytes_in _ k).
  assert (video_ok k1) as Hk1 by (destruct Hk as [Hs He]; split; [by destruct Hs; constructor|done]).
  destruct (esc_state k1 =? 1); [by apply esc_start_ok|].
  destruct (Z.eqb_spec (esc_state k1) 2); [by apply esc_collect_ok|by apply ground_ok].
Qed.

Lemma init_ok m : m = KAYPRO_MODEL_II ∨ m = KAYPRO_MODEL_84 → video_ok (kaypro_video_init m).
Proof.
  intros Hm. apply (safe_ok mark_all_dirty); [apply keeps_safe, keeps_mark_all|].
  apply (safe_ok (set_cursor 0 0)); [apply keeps_safe, keeps_set_cursor|].
  split; [|by split; [|left]]. constructor; [|cbn|done|done].
  - split; [done|]. apply Forall_replicate, blank_row_len.
  - match goal with |- context [max_row ?k] => pose proof (max_row_bounds k) end. lia.
Qed.

(** C27: no byte stream takes the screen out of bounds.  From power-on, after
    any bytes whatever, the buffer is 25 rows of 80 cells, the cursor is on
    a row the model has and a column below 80, and the escape machine is in
    one of its three states with room in its four-byte buffer for every
    argument it still waits for and a handler to call at the last one. *)
Theorem putc_keeps_screen m bs :
  m = KAYPRO_MODEL_II ∨ m = KAYPRO_MODEL_84 →
  let k := video_puts bs (kaypro_video_init m) in
  (length (cells k) = 25%nat ∧ Forall (λ row, length row = 80%nat) (cells k)) ∧
  (0 <= cur_row k <= max_row k ∧ 0 <= cur_col k < KV_COLS) ∧
  length (esc_args k) = 4%nat ∧
  (esc_state k = 0 ∨ esc_state k = 1 ∨
   esc_state k = 2 ∧ 1 <= esc_need k ∧ 0 <= esc_nargs k ∧ esc_nargs k + esc_need k <= 4 ∧
     is_Some (esc_lookup (esc_lead k) k)).
Proof.
  intros Hm k. assert (video_ok k) as [[[] ? ? _] [Hl He]].
  { subst k. unfold video_puts. pose proof (init_ok m Hm) as Hi. revert Hi. generalize (kaypro_video_init m).
    induction bs as [|b bs IH]; intros k Hk; [done|]. apply IH. by apply putc_ok. }
  split_and!; try done; try lia.
  destruct He as [He|[He|(He & e & Hlk & Hn & Ha & Hs)]]; [by left|by right; left|]. right; right.
  destruct (esc_lookup_some _ _ _ Hlk) as (_ & Hb & _). split_and!; [done|done|done|lia|by eexists].
Qed.

Definition sample_bytes : list Z := [0x1B; chr "="; 0x20 + 24; 0xFF; chr "X"; 0x1B; chr "L"; 1; 2].

Example putc_keeps_screen_witness :
  let k := video_puts sample_bytes (kaypro_video_init KAYPRO_MODEL_84) in
  (cur_row k = 24 ∧ cur_col k = 0 ∧ esc_need k = 2) ∧ 0 <= cur_row k <= max_row k.
Proof.
  destruct (putc_keeps_screen KAYPRO_MODEL_84 sample_bytes (or_intror eq_refl)) as (_ & (H & _) & _).
  split; [by vm_compute|exact H].
Defined.

(** ** What the renderer is told *)

(** Row [r] is marked, or nothing happened to it. *)
Definition rows_reported (k k' : kaypro_video) : Prop :=
  ∀ r, 0 <= r < KV_ROWS → Z.testbit (dirty_rows k') r = true ∨
    row_at k' r = row_at k r ∧ Z.testbit (dirty_rows k') r = Z.testbit (dirty_rows k) r.

Definition cursor (k : kaypro_video) : Z * Z * bool := (cur_row k, cur_col k, cursor_visible k).
Definition cursor_reported (k k' : kaypro_video) : Prop :=
  cursor_moved k' = true ∨ cursor k' = cursor k ∧ cursor_moved k' = cursor_moved k.

Definition reported (k k' : kaypro_video) : Prop := rows_reported k k' ∧ cursor_reported k k'.

#[export] Instance reported_preorder : PreOrder reported.
Proof.
  split; [by intros k; split; [intros r _; right|right]|].
  intros k1 k2 k3 [H1 C1] [H2 C2]. split.
  - intros r Hr. destruct (H2 r Hr) as [|[-> ->]]; [by left|by apply H1].
  - unfold cursor_reported in *. destruct C2 as [|[E2 E2']]; [by left|].
    destruct C1 as [|[E1 E1']]; [left|right; split]; congruence.
Qed.

Lemma all_bits r : 0 <= r < KV_ROWS → Z.testbit ((1 <<' KV_ROWS) - 1) r = true.
Proof.
  intros Hr. change ((1 <<' KV_ROWS) - 1) with (Z.ones 25). rewrite Z.testbit_ones by lia.
  unfold KV_ROWS in Hr. apply andb_true_iff. split; [apply Z.leb_le|apply Z.ltb_lt]; lia.
Qed.

Lemma rep_all k k' : cursor_reported k k' → reported k (mark_all_dirty k').
Proof. intros Hc. split; [|exact Hc]. intros r Hr. left. by apply all_bits. Qed.

Lemma row_at_set_row r r' row k : 0 <= r → 0 <= r' → r' ≠ r → row_at (set_row r row k) r' = row_at k r'.
Proof. intros. unfold row_at. cbn. by rewrite list_lookup_insert_ne by lia. Qed.

Lemma rep_mark r row k : 0 <= r < 25 → reported k (mark_dirty r (set_row r row k)).
Proof.
  intros Hr. split; [|by right]. intros r' Hr'. cbn [dirty_rows mark_dirty set_dirty_rows]. rewrite Z.lor_spec.
  destruct (Z.eq_dec r' r) as [->|Hne].
  - left. apply orb_true_iff. right. rewrite Z.shiftl_spec, Z.sub_diag by lia. done.
  - right. split; [by apply row_at_set_row; lia|]. change (dirty_rows (set_row r row k)) with (dirty_rows k).
    rewrite Z.shiftl_spec by lia. destruct (Z.testbit 1 (r' - r)) eqn:E; [|by rewrite orb_false_r].
    exfalso. destruct (Z.ltb_spec (r' - r) 0); [by rewrite Z.testbit_neg_r in E|].
    assert (1 <= r' - r) by lia. change 1 with (2 ^ 0) in E. rewrite Z.pow2_bits_false in E; [done|lia].
Qed.

(** Neither cells nor dirty bits change. *)
Lemma rep_fields k k' : cells k' = cells k → dirty_rows k' = dirty_rows k → cursor_reported k k' → reported k k'.
Proof. intros Hc Hd Hm. split; [|done]. intros r Hr. right. unfold row_at. by rewrite Hc, Hd. Qed.

Definition reports (f : kaypro_video → kaypro_video) : Prop := ∀ k, screen_ok k → reported k (f k).

Lemma rep_set_cursor r c : reports (set_cursor r c).
Proof. intros k _. apply rep_fields; [done|done|by left]. Qed.

Lemma rep_moved k k' : reported k k' → reported k (set_cursor_moved true k').
Proof. intros [H _]. split; [exact H|by left]. Qed.

Lemma rep_cursor_down : reports cursor_down.
Proof.
  intros k Hk. unfold cursor_down. cbv zeta.
  destruct (_ <? _); [by apply rep_fields; [| |left]|].
  destruct (_ =? _); [|by apply rep_fields; [| |left]].
  apply rep_moved. unfold scroll_up. apply rep_all. by right.
Qed.

Lemma rep_advance : reports c_right.
Proof.
  intros k Hk. unfold c_right. cbv zeta. destruct (Z.eqb_spec (cur_col k) (KV_COLS - 1)).
  - apply rep_moved. destruct (keeps_col (λ _, 0) (λ _ _, ltac:(by split)) k Hk) as [H1 _].
    destruct (rep_cursor_down _ H1) as [Hr _]. split; [exact Hr|]. left.
    unfold cursor_down. by repeat case_match.
  - apply rep_fields; [done|done|by left].
Qed.

Lemma rep_put_char c : reports (put_char c).
Proof.
  intros k Hk. pose proof (cur_row_25 k Hk).
  set (k1 := mark_dirty (cur_row k) (write_cell (mk_cell c (attr k)) k)).
  assert (screen_ok k1) as Hk1.
  { destruct (keeps_write_cell (λ _, mk_cell c (attr k)) k Hk) as [H1 _]. by apply keeps_mark. }
  etrans; [apply (rep_mark (cur_row k) (<[Z.to_nat (cur_col k):=mk_cell c (attr k)]> (row_at k (cur_row k))) k); done|].
  exact (rep_advance k1 Hk1).
Qed.

Lemma rep_erase_to_eol : reports erase_to_eol.
Proof. intros k Hk. apply rep_mark. by apply cur_row_25. Qed.

(** The cursor and its flag are not among the cells. *)
Lemma cursor_set_rows k f : cursor_reported k (set_rows f k).
Proof. by right. Qed.
Lemma cursor_blank_rows lo hi k : cursor (blank_rows lo hi k) = cursor k ∧ cursor_moved (blank_rows lo hi k) = cursor_moved k.
Proof.
  unfold blank_rows. generalize (zseq lo (Z.to_nat (hi - lo))). intros l. revert k.
  induction l as [|r l IH]; intros k; [done|]. cbn [fold_left]. by destruct (IH (set_row r blank_row k)) as [-> ->].
Qed.

Lemma rep_erase_to_eos : reports erase_to_eos.
Proof.
  intros k Hk. unfold erase_to_eos. apply rep_all. right.
  match goal with |- context [blank_rows ?lo ?hi ?k'] => destruct (cursor_blank_rows lo hi k') as [-> ->] end. done.
Qed.
Lemma rep_clear_screen : reports clear_screen.
Proof. intros k Hk. unfold clear_screen. apply rep_all. by left. Qed.
Lemma rep_delete_line : reports delete_line.
Proof.
  intros k Hk. unfold delete_line. cbv zeta. destruct (_ <=? _); [done|]. apply rep_all. right. by destruct (_ <? _).
Qed.
Lemma rep_insert_line : reports insert_line.
Proof.
  intros k Hk. unfold insert_line. cbv zeta. destruct (_ <=? _); [done|]. apply rep_all. right. by destruct (_ <? _).
Qed.

Lemma rep_ctrl c f : ctrl_handlers c = Some f → reports f.
Proof.
  unfold ctrl_handlers. repeat (case_match; try done); intros [= <-];
    first [exact (rep_put_char _)|exact rep_cursor_down|exact rep_advance|exact rep_erase_to_eos|exact rep_erase_to_eol
      |exact rep_clear_screen|exact (rep_set_cursor 0 0)
      |intros k _; unfold c_bs, c_up; repeat case_match; (apply rep_fields; [done|done|]); first [by left|by right]].
Qed.

Lemma rep_attr_set n on : reports (attr_set n on).
Proof.
  intros k Hk. unfold attr_set, attr_bit.
  repeat case_match; apply rep_fields; try done; first [by left|by right].
Qed.

Lemma rep_esc_fn e a : In e esc_table → reports (esc_fn e a).
Proof.
  intros He. repeat (destruct He as [<-|He]; [|]); try done; cbn [esc_fn].
  - exact (rep_set_cursor _ _).
  - apply rep_attr_set.
  - apply rep_attr_set.
  - exact rep_delete_line.
  - exact rep_insert_line.
  - by intros k _.
  - by intros k _.
  - by intros k _.
  - by intros k _.
  - by intros k _.
Qed.

Lemma rep_put_high c : reports (put_high c).
Proof.
  assert (∀ a c k, screen_ok k → reported k (set_attr (attr k) (put_char c (set_attr a k)))) as Hattr.
  { intros a c' k Hk. exact (rep_put_char c' (set_attr a k) ltac:(by destruct Hk; constructor)). }
  intros k Hk. unfold put_high. cbv zeta. destruct (video_mode k); cbn [negb].
  - destruct (gfx_pending k); cbn [negb]; [|by apply rep_fields; [| |right]].
    apply (Hattr (u8 _) _ (set_gfx_pending false k)). by destruct Hk; constructor.
  - destruct (_ && _); [by apply Hattr|by apply rep_put_char].
Qed.

Lemma rep_putc c k : video_ok k → reported k (kaypro_video_putc c k).
Proof.
  intros Hk. unfold kaypro_video_putc. cbv zeta. set (k1 := set_bytes_in _ k).
  assert (video_ok k1) as Hk1 by (destruct Hk as [Hs He]; split; [by destruct Hs; constructor|done]).
  assert (reported k k1) as H1 by (by apply rep_fields; [| |right]). etrans; [exact H1|]. clearbody k1. clear H1 Hk k.
  destruct Hk1 as [Hk [Hl He]]. destruct (esc_state k1 =? 1).
  { unfold esc_start. destruct (esc_lookup c k1) as [e|] eqn:E; [|by apply rep_fields; [| |right]].
    destruct (esc_lookup_some _ _ _ E) as (Hin & _). cbv zeta. destruct (_ =? 0); [|by apply rep_fields; [| |right]].
    match goal with |- reported _ (esc_fn e ?a ?k) => exact (rep_esc_fn e a Hin k ltac:(by destruct Hk; constructor)) end. }
  destruct (esc_state k1 =? 2).
  { unfold esc_collect. cbv zeta. destruct (_ =? 0); [|by apply rep_fields; [| |right]].
    destruct (esc_lookup _ _) as [e|] eqn:E; [|by apply rep_fields; [| |right]].
    destruct (esc_lookup_some _ _ _ E) as (Hin & _).
    match goal with |- reported _ (esc_fn e ?a ?k) => exact (rep_esc_fn e a Hin k ltac:(by destruct Hk; constructor)) end. }
  unfold put_ground. destruct (nz _); [by apply rep_put_high|]. destruct (c <? 0x20).
  - destruct (ctrl_handlers c) eqn:Hf; [by eapply rep_ctrl|by apply rep_fields; [| |right]].
  - destruct (c =? 0x7F); [done|by apply rep_put_char].
Qed.

Lemma puts_ok bs k : video_ok k → video_ok (video_puts bs k).
Proof. unfold video_puts. revert k. induction bs as [|b bs IH]; intros k Hk; [done|]. apply IH. by apply putc_ok. Qed.

(** C28: the dirty mask is complete.  After any bytes, every one of the 25
    rows whose cells differ from before has its dirty bit set, and if the
    cursor has moved or changed visibility the cursor flag is set: a
    renderer that repaints the marked rows and, when flagged, the cursor,
    shows the screen as it is. *)
Theorem dirty_mask_complete bs k :
  video_ok k →
  (∀ r, 0 <= r < KV_ROWS → row_at (video_puts bs k) r ≠ row_at k r → Z.testbit (dirty_rows (video_puts bs k)) r = true) ∧
  (cursor (video_puts bs k) ≠ cursor k → cursor_moved (video_puts bs k) = true).
Proof.
  intros Hk. assert (reported k (video_puts bs k)) as [Hr Hc].
  { unfold video_puts. revert k Hk. induction bs as [|b bs IH]; intros k Hk; [done|].
    etrans; [by apply (rep_putc b)|]. apply IH. by apply putc_ok. }
  split; [intros r Hin Hne; by destruct (Hr r Hin) as [|[]]|intros Hne; by destruct Hc as [|[]]].
Qed.

Example dirty_mask_complete_witness :
  let k := set_cursor_moved false (set_dirty_rows 0 (kaypro_video_init KAYPRO_MODEL_84)) in
  Z.testbit (dirty_rows (video_puts [chr "H"; chr "i"] k)) 0 = true.
Proof.
  intros k. assert (video_ok k) as Hk.
  { destruct (init_ok KAYPRO_MODEL_84 (or_intror eq_refl)) as [Hs He]. split; [by destruct Hs; constructor|exact He]. }
  destruct (dirty_mask_complete [chr "H"; chr "i"] k Hk) as [H _]. apply H; [done|by vm_compute].
Defined.

(** ** The status line *)

(** [f] leaves row 24 alone and stays off it. *)
Definition off_status (k k' : kaypro_video) : Prop := row_at k' 24 = row_at k 24 ∧ cur_row k' < 24.

Definition guarded (f : kaypro_video → kaypro_video) : Prop :=
  ∀ k, screen_ok k → scroll_rows k = 24 → cur_row k < 24 → off_status k (f k).

Lemma row_at_move dst src n k r :
  rows_ok (cells k) → (dst + n <= 24)%nat → (src + n <= 24)%nat → r = 24 →
  row_at (set_rows (move_rows dst src n) k) r = row_at k r.
Proof.
  intros [Hl _] Hd Hs ->. unfold row_at. cbn [cells set_rows set_cells]. change (Z.to_nat 24) with 24%nat.
  rewrite lookup_move by lia. by rewrite decide_False by lia.
Qed.

Lemma guarded_cursor_down : guarded cursor_down.
Proof.
  intros k Hk H24 Hrow. unfold cursor_down. cbv zeta. rewrite H24.
  destruct (Z.ltb_spec (cur_row k) (24 - 1)); [split; [done|cbn; lia]|].
  destruct (cur_row k =? 24 - 1); [|by split]. split; [|done].
  unfold scroll_up. rewrite H24. change (row_at (set_cursor_moved true (mark_all_dirty ?k')) 24) with (row_at k' 24).
  rewrite row_at_set_row by lia. apply (row_at_move 0 1 _ k 24); [by apply ok_rows|lia|lia|done].
Qed.

Lemma guarded_right : guarded c_right.
Proof.
  intros k Hk H24 Hrow. unfold c_right. cbv zeta. destruct (Z.eqb_spec (cur_col k) (KV_COLS - 1)); [|by split].
  destruct (keeps_col (λ _, 0) (λ _ _, ltac:(by split)) k Hk) as [H1 _].
  exact (guarded_cursor_down _ H1 H24 Hrow).
Qed.

Lemma guarded_put_char c : guarded (put_char c).
Proof.
  intros k Hk H24 Hrow. set (k1 := mark_dirty (cur_row k) (write_cell (mk_cell c (attr k)) k)).
  assert (screen_ok k1) as Hk1.
  { destruct (keeps_write_cell (λ _, mk_cell c (attr k)) k Hk) as [H1 _]. by apply keeps_mark. }
  destruct (guarded_right k1 Hk1 H24 Hrow) as [E1 E2]. split; [|exact E2].
  etrans; [exact E1|]. change (row_at k1 24) with (row_at (write_cell (mk_cell c (attr k)) k) 24).
  pose proof (ok_row k Hk). apply row_at_set_row; lia.
Qed.

Lemma guarded_erase_to_eol : guarded erase_to_eol.
Proof. intros k Hk H24 Hrow. split; [|done]. pose proof (ok_row k Hk). apply row_at_set_row; lia. Qed.

Lemma blank_rows_status lo hi k : 0 <= lo → hi <= 24 → off_status k (blank_rows lo hi k) ∨ 24 <= cur_row k.
Proof.
  intros Hlo Hhi. destruct (Z.ltb_spec (cur_row k) 24); [left|by right]. unfold blank_rows.
  assert (∀ r, In r (zseq lo (Z.to_nat (hi - lo))) → 0 <= r < 24) as Hin by (intros r Hr%elem_of_zseq; lia).
  revert Hin. generalize (zseq lo (Z.to_nat (hi - lo))). intros l Hin. unfold off_status.
  assert (cur_row (fold_left (λ k r, set_row r blank_row k) l k) = cur_row k ∧
    row_at (fold_left (λ k r, set_row r blank_row k) l k) 24 = row_at k 24) as [-> ->]; [|by split].
  clear H. revert k. induction l as [|r l IH]; intros k; [done|]. cbn [fold_left].
  destruct (IH (λ r' Hr', Hin r' (or_intror Hr')) (set_row r blank_row k)) as [-> ->].
  specialize (Hin r (or_introl eq_refl)). split; [done|]. apply row_at_set_row; lia.
Qed.

Lemma guarded_erase_to_eos : guarded erase_to_eos.
Proof.
  intros k Hk H24 Hrow. unfold erase_to_eos. cbv zeta. rewrite H24. pose proof (ok_row k Hk).
  destruct (guarded_erase_to_eol k Hk H24 Hrow) as [E1 E2].
  destruct (blank_rows_status (cur_row (erase_to_eol k) + 1) 24 (erase_to_eol k)) as [[E3 E4]|]; [cbn; lia|lia| |cbn in *; lia].
  split; [|exact E4]. etrans; [exact E3|exact E1].
Qed.

Lemma guarded_clear_screen : guarded clear_screen.
Proof.
  intros k Hk H24 Hrow. unfold clear_screen. cbv zeta. rewrite H24.
  destruct (blank_rows_status 0 24 k) as [[E3 E4]|]; [lia|lia| |lia]. split; [exact E3|].
  cbn. match goal with |- context [max_row ?k] => pose proof (max_row_bounds k) end. repeat case_match; lia.
Qed.

Lemma guarded_delete_line : guarded delete_line.
Proof.
  intros k Hk H24 Hrow. unfold delete_line. cbv zeta. rewrite H24. pose proof (ok_row k Hk).
  destruct (Z.leb_spec 24 (cur_row k)); [by split|]. split; [|by destruct (_ <? _)].
  change (row_at (mark_all_dirty ?k') 24) with (row_at k' 24). rewrite row_at_set_row by lia.
  destruct (Z.ltb_spec (cur_row k) (24 - 1)); [|done]. apply row_at_move; [by apply ok_rows|lia|lia|done].
Qed.

Lemma guarded_insert_line : guarded insert_line.
Proof.
  intros k Hk H24 Hrow. unfold insert_line. cbv zeta. rewrite H24. pose proof (ok_row k Hk).
  destruct (Z.leb_spec 24 (cur_row k)); [by split|]. split; [|by destruct (_ <? _)].
  change (row_at (mark_all_dirty ?k') 24) with (row_at k' 24). rewrite row_at_set_row by lia.
  destruct (Z.ltb_spec (cur_row k) (24 - 1)); [|done]. apply row_at_move; [by apply ok_rows|lia|lia|done].
Qed.

Lemma guarded_ctrl c f : ctrl_handlers c = Some f → guarded f.
Proof.
  unfold ctrl_handlers. repeat (case_match; try done); intros [= <-];
    first [exact (guarded_put_char _)|exact guarded_cursor_down|exact guarded_right|exact guarded_erase_to_eos
      |exact guarded_erase_to_eol|exact guarded_clear_screen
      |intros k _ _ Hrow; unfold c_bs, c_up; repeat case_match; split; try done; cbn; lia|idtac].
  intros k Hk H24 Hrow. split; [done|]. cbn. match goal with |- context [max_row ?k] => pose proof (max_row_bounds k) end.
  repeat case_match; lia.
Qed.

Lemma guarded_put_high c : guarded (put_high c).
Proof.
  assert (∀ a c k, screen_ok k → scroll_rows k = 24 → cur_row k < 24 → off_status k (set_attr (attr k) (put_char c (set_attr a k)))) as Hattr.
  { intros a c' k Hk H24 Hrow. exact (guarded_put_char c' (set_attr a k) ltac:(by destruct Hk; constructor) H24 Hrow). }
  intros k Hk H24 Hrow. unfold put_high. cbv zeta. destruct (video_mode k); cbn [negb].
  - destruct (gfx_pending k); cbn [negb]; [|by split].
    apply (Hattr (u8 _) _ (set_gfx_pending false k)); [by destruct Hk; constructor|done|done].
  - destruct (_ && _); [by apply Hattr|by apply guarded_put_char].
Qed.

(** Off the status row, except where an escape sequence sets the cursor. *)
Lemma esc_fn_status e a k :
  In e esc_table → screen_ok k → scroll_rows k = 24 → cur_row k < 24 →
  row_at (esc_fn e a k) 24 = row_at k 24 ∧ (nargs e = 0 → cur_row (esc_fn e a k) < 24).
Proof.
  intros He Hk H24 Hrow. repeat (destruct He as [<-|He]; [|]); try done; cbn [esc_fn nargs].
  - split; [|done]. unfold e_attr_on, attr_set, attr_bit. by repeat case_match.
  - split; [|done]. unfold e_attr_off, attr_set, attr_bit. by repeat case_match.
  - destruct (guarded_delete_line k Hk H24 Hrow). by split.
  - destruct (guarded_insert_line k Hk H24 Hrow). by split.
Qed.

(** C29: the status line is protected.  While the scrolling region is the 24
    text rows (a Kaypro II, or preservation on) and the cursor is in it, no
    byte changes row 24: not text wrapping or scrolling at the bottom, not
    a clear, an erase or a line deletion.  And the cursor leaves the text
    rows only by the last argument of an escape sequence. *)
Theorem status_line_kept c k :
  video_ok k → scroll_rows k = 24 → cur_row k < 24 →
  row_at (kaypro_video_putc c k) 24 = row_at k 24 ∧
  (esc_state k ≠ 2 → cur_row (kaypro_video_putc c k) < 24).
Proof.
  intros [Hk [Hl He]] H24 Hrow. unfold kaypro_video_putc. cbv zeta.
  set (k1 := set_bytes_in _ k). assert (screen_ok k1) as Hk1 by (by destruct Hk; constructor).
  change (row_at k 24) with (row_at k1 24). change (esc_state k) with (esc_state k1).
  change (scroll_rows k1 = 24) in H24. change (cur_row k1 < 24) in Hrow. clearbody k1. clear Hk Hl He.
  destruct (Z.eqb_spec (esc_state k1) 1) as [E1|E1].
  { unfold esc_start. destruct (esc_lookup c k1) as [e|] eqn:E; [|by split].
    destruct (esc_lookup_some _ _ _ E) as (Hin & _). cbv zeta. destruct (Z.eqb_spec (esc_need (set_esc_need (nargs e) (set_esc_nargs 0 (set_esc_lead c k1)))) 0) as [E0|]; [|by split].
    match goal with |- row_at (esc_fn e ?a ?k) _ = _ ∧ _ =>
      destruct (esc_fn_status e a k Hin ltac:(by destruct Hk1; constructor) H24 Hrow) as [H1 H2] end.
    split; [exact H1|]. intros _. by apply H2. }
  destruct (Z.eqb_spec (esc_state k1) 2) as [E2|E2].
  { split; [|done]. unfold esc_collect. cbv zeta. destruct (_ =? 0); [|done].
    destruct (esc_lookup _ _) as [e|] eqn:E; [|done]. destruct (esc_lookup_some _ _ _ E) as (Hin & _).
    match goal with |- row_at (esc_fn e ?a ?k) _ = _ =>
      by destruct (esc_fn_status e a k Hin ltac:(by destruct Hk1; constructor) H24 Hrow) as [H1 _] end. }
  assert (off_status k1 (put_ground c k1)) as [H1 H2]; [|by split].
  unfold put_ground. destruct (nz _); [by apply guarded_put_high|]. destruct (c <? 0x20).
  - destruct (ctrl_handlers c) eqn:Hf; [by eapply guarded_ctrl|by split].
  - destruct (c =? 0x7F); [by split|by apply guarded_put_char].
Qed.

Definition bottom_right : list Z := [0x1B; chr "="; 0x20 + 23; 0x20 + 79].

Example status_line_kept_witness :
  let k := video_puts bottom_right (kaypro_video_init KAYPRO_MODEL_84) in
  row_at (kaypro_video_putc (chr "X") k) 24 = row_at k 24 ∧ row_at (kaypro_video_putc (chr "X") k) 22 ≠ row_at k 22.
Proof.
  intros k. split; [|by vm_compute].
  assert (video_ok k) as Hk by (apply puts_ok, init_ok; by right).
  by destruct (status_line_kept (chr "X") k Hk ltac:(by vm_compute) ltac:(by vm_compute)) as [H _].
Defined.

(** ** Text *)

Definition cell_at (k : kaypro_video) (r c : Z) : option kaypro_cell := row_at k r !! Z.to_nat c.

(** The cursor as a position in the text, and a character it can print. *)
Definition position (k : kaypro_video) : Z := KV_COLS * cur_row k + cur_col k.
Definition printable (c : Z) : Prop := 0x20 <= c < 0x7F.

Lemma row_at_write k cell r :
  rows_ok (cells k) → 0 <= cur_row k < 25 → 0 <= r < 25 →
  row_at (write_cell cell k) r = if decide (r = cur_row k) then <[Z.to_nat (cur_col k):=cell]> (row_at k r) else row_at k r.
Proof.
  intros [Hl _] Hc Hr. unfold write_cell. case_decide as Hd.
  - subst r. unfold row_at at 1. cbn. by rewrite list_lookup_insert_eq by lia.
  - by apply row_at_set_row; lia.
Qed.

(** Printing one character short of a scroll. *)
Lemma put_char_at c k :
  screen_ok k → cur_row k < scroll_rows k → position k + 1 < KV_COLS * scroll_rows k →
  position (put_char c k) = position k + 1 ∧ cur_row (put_char c k) < scroll_rows k ∧
  ∀ r q, 0 <= r < KV_ROWS → 0 <= q < KV_COLS →
    cell_at (put_char c k) r q =
      if decide (KV_COLS * r + q = position k) then Some (mk_cell c (attr k)) else cell_at k r q.
Proof.
  intros Hk Hreg Hlt. pose proof (ok_row k Hk). pose proof (ok_col k Hk) as Hcol. pose proof (cur_row_25 k Hk) as H25.
  unfold position, KV_COLS in *.
  set (k1 := mark_dirty (cur_row k) (write_cell (mk_cell c (attr k)) k)).
  assert (∀ k', cells k' = cells k1 → ∀ r q, 0 <= r < KV_ROWS → 0 <= q < 80 → cell_at k' r q =
    if decide (80 * r + q = 80 * cur_row k + cur_col k) then Some (mk_cell c (attr k)) else cell_at k r q) as Hcells.
  { intros k' Hc r q Hr Hq. unfold cell_at, row_at at 1. rewrite Hc.
    change (default [] (cells k1 !! Z.to_nat r)) with (row_at (write_cell (mk_cell c (attr k)) k) r).
    rewrite row_at_write by (done || by apply ok_rows). case_decide as Hd.
    - subst r. destruct (decide (q = cur_col k)) as [->|Hne].
      + rewrite decide_True by lia. apply list_lookup_insert_eq. rewrite row_at_len by (done || by apply ok_rows). lia.
      + rewrite decide_False by lia. by rewrite list_lookup_insert_ne by lia.
    - rewrite decide_False by lia. done. }
  change (put_char c k) with (c_right k1). unfold c_right. change (cur_col k1) with (cur_col k).
  destruct (Z.eqb_spec (cur_col k) (KV_COLS - 1)) as [E|E]; unfold KV_COLS in E.
  - assert (cursor_down (set_cur_col 0 k1) = set_cursor_moved true (set_cur_row (cur_row k + 1) (set_cur_col 0 k1))) as ->.
    { unfold cursor_down. change (scroll_rows (set_cur_col 0 k1)) with (scroll_rows k).
      change (cur_row (set_cur_col 0 k1)) with (cur_row k).
      by destruct (Z.ltb_spec (cur_row k) (scroll_rows k - 1)); [|lia]. }
    split_and!; [cbn; lia|cbn; lia|by apply Hcells].
  - split_and!; [cbn; lia|cbn; lia|by apply Hcells].
Qed.

Lemma putc_printable c k : printable c → esc_state k = 0 → kaypro_video_putc c k = put_char c (set_bytes_in (u64 (bytes_in k + 1)) k).
Proof.
  intros Hc He. unfold printable in Hc. unfold kaypro_video_putc. cbv zeta. set (k1 := set_bytes_in _ k).
  change (esc_state k1) with (esc_state k). rewrite He. cbn [Z.eqb]. unfold put_ground.
  assert (nz (c &' 0x80) = false) as ->.
  { unfold nz. apply negb_false_iff, Z.eqb_eq. apply Z.bits_inj'. intros n Hn. rewrite Z.land_spec, Z.bits_0.
    destruct (Z.eq_dec n 7) as [->|Hne].
    - assert (Z.testbit c 7 = false) as ->; [|done]. apply (bounded_testbit 7); [lia|unfold is_byte in *; lia|lia].
    - apply andb_false_iff. right. change 0x80 with (2 ^ 7). by apply Z.pow2_bits_false. }
  destruct (Z.ltb_spec c 0x20); [lia|]. by destruct (Z.eqb_spec c 0x7F); [lia|].
Qed.

(** Text lands where the cursor is.  Printable characters that do not
    run past the end of the scrolling region fill the cells from the cursor
    on, row by row with wrap at column 80, each with the attribute in force;
    no other cell changes and the cursor ends just after the last one. *)
Theorem text_layout s k :
  video_ok k → esc_state k = 0 → Forall printable s → cur_row k < scroll_rows k →
  position k + Z.of_nat (length s) < KV_COLS * scroll_rows k →
  position (video_puts s k) = position k + Z.of_nat (length s) ∧
  ∀ r q, 0 <= r < KV_ROWS → 0 <= q < KV_COLS →
    cell_at (video_puts s k) r q =
      let i := KV_COLS * r + q - position k in
      if decide (0 <= i < Z.of_nat (length s)) then Some (mk_cell (arg s (Z.to_nat i)) (attr k)) else cell_at k r q.
Proof.
  revert k. induction s as [|c s IH]; intros k Hk He Hs Hreg Hlt.
  { split; [cbn; lia|]. intros r q Hr Hq. cbv zeta. rewrite decide_False by (cbn; lia). done. }
  apply Forall_cons in Hs as [Hc Hs]. cbn [length] in *.
  pose proof (putc_ok c k Hk) as Hk'. change (video_puts (c :: s) k) with (video_puts s (kaypro_video_putc c k)).
  rewrite (putc_printable c k Hc He) in *. set (k1 := set_bytes_in _ k) in *.
  assert (screen_ok k1) as Hk1 by (destruct Hk as [Hk _]; by destruct Hk; constructor).
  destruct (put_char_at c k1 Hk1 Hreg) as (Hp & Hrow & Hcell); [change (position k1) with (position k); change (scroll_rows k1) with (scroll_rows k); lia|].
  destruct (keeps_put_char c k1 Hk1) as [_ ((Hmod & Hst & _) & Hat & Hsp)].
  assert (scroll_rows (put_char c k1) = scroll_rows k) as Hsr by (unfold scroll_rows; by rewrite Hmod, Hsp).
  change (position k1) with (position k) in *. change (scroll_rows k1) with (scroll_rows k) in *.
  destruct (IH (put_char c k1) Hk') as [Hp' Hcell']; [by rewrite Hst|done|lia|lia|].
  split; [lia|]. intros r q Hr Hq. rewrite Hcell' by done. cbv zeta. rewrite Hp, Hcell, Hat by done. clear Hcell Hcell'.
  change (attr k1) with (attr k).
  destruct (decide (KV_COLS * r + q = position k)) as [E|E].
  - rewrite decide_False by lia. rewrite decide_True by lia. by rewrite E, Z.sub_diag.
  - destruct (decide (0 <= KV_COLS * r + q - (position k + 1) < Z.of_nat (length s))).
    + rewrite decide_True by lia. do 2 f_equal. unfold arg.
      replace (Z.to_nat (KV_COLS * r + q - position k)) with (S (Z.to_nat (KV_COLS * r + q - (position k + 1)))) by lia. done.
    + rewrite decide_False by lia. done.
Qed.

Example text_layout_witness :
  let k := video_puts (0x1B :: chr "=" :: [0x20; 0x20 + 79]) (kaypro_video_init KAYPRO_MODEL_II) in
  cell_at (video_puts [chr "o"; chr "k"] k) 1 0 = Some (mk_cell (chr "k") 0).
Proof.
  intros k. assert (video_ok k) as Hk by (apply puts_ok, init_ok; by left).
  destruct (text_layout [chr "o"; chr "k"] k Hk eq_refl) as [_ H];
    [repeat constructor; by vm_compute|by vm_compute|by vm_compute|].
  by rewrite (H 1 0).
Defined.

(** ** Inserting and deleting lines *)

Lemma row_at_set_row_eq r row k : rows_ok (cells k) → 0 <= r < 25 → row_at (set_row r row k) r = row.
Proof. intros [Hl _] Hr. unfold row_at. cbn. by rewrite list_lookup_insert_eq by lia. Qed.

Lemma row_at_moved dst src n k r :
  rows_ok (cells k) → 0 <= r → (dst + n <= 25)%nat → (src + n <= 25)%nat →
  row_at (set_rows (move_rows dst src n) k) r =
    if decide (Z.of_nat dst <= r < Z.of_nat dst + Z.of_nat n) then row_at k (r + Z.of_nat src - Z.of_nat dst) else row_at k r.
Proof.
  intros [Hl _] Hr Hd Hs. unfold row_at. cbn [cells set_rows set_cells]. rewrite lookup_move by done.
  destruct (decide (Z.of_nat dst <= r < Z.of_nat dst + Z.of_nat n)).
  - rewrite decide_True by lia. do 2 f_equal. lia.
  - by rewrite decide_False by lia.
Qed.

Lemma insert_line_rows k r :
  screen_ok k → cur_row k < scroll_rows k → 0 <= r < 25 →
  row_at (insert_line k) r =
    if decide (r = cur_row k) then blank_row
    else if decide (cur_row k < r < scroll_rows k) then row_at k (r - 1) else row_at k r.
Proof.
  intros Hk Hreg Hr. pose proof (ok_rows k Hk) as Hrows. pose proof (cur_row_25 k Hk). pose proof (scroll_rows_bounds k).
  unfold insert_line. cbv zeta. destruct (Z.leb_spec (scroll_rows k) (cur_row k)); [lia|].
  change (row_at (mark_all_dirty ?k') r) with (row_at k' r).
  assert (rows_ok (move_rows (Z.to_nat (cur_row k + 1)) (Z.to_nat (cur_row k)) (Z.to_nat (scroll_rows k - 1 - cur_row k)) (cells k)))
    as Hmv by (apply rows_ok_move; [done|lia|lia]).
  destruct (decide (r = cur_row k)) as [->|Hne].
  - by destruct (_ <? _); rewrite row_at_set_row_eq.
  - rewrite row_at_set_row by lia. destruct (Z.ltb_spec (cur_row k) (scroll_rows k - 1)).
    + rewrite row_at_moved by (done || lia).
      destruct (decide (cur_row k < r < scroll_rows k)); [rewrite decide_True by lia; f_equal; lia|by rewrite decide_False by lia].
    + by rewrite decide_False by lia.
Qed.

Lemma delete_line_rows k r :
  screen_ok k → cur_row k < scroll_rows k → 0 <= r < 25 →
  row_at (delete_line k) r =
    if decide (r = scroll_rows k - 1) then blank_row
    else if decide (cur_row k <= r < scroll_rows k) then row_at k (r + 1) else row_at k r.
Proof.
  intros Hk Hreg Hr. pose proof (ok_rows k Hk) as Hrows. pose proof (cur_row_25 k Hk). pose proof (scroll_rows_bounds k).
  unfold delete_line. cbv zeta. destruct (Z.leb_spec (scroll_rows k) (cur_row k)); [lia|].
  change (row_at (mark_all_dirty ?k') r) with (row_at k' r).
  assert (rows_ok (move_rows (Z.to_nat (cur_row k)) (Z.to_nat (cur_row k + 1)) (Z.to_nat (scroll_rows k - 1 - cur_row k)) (cells k)))
    as Hmv by (apply rows_ok_move; [done|lia|lia]).
  destruct (decide (r = scroll_rows k - 1)) as [->|Hne].
  - destruct (_ <? _); rewrite row_at_set_row_eq by (done || lia); done.
  - rewrite row_at_set_row by lia. destruct (Z.ltb_spec (cur_row k) (scroll_rows k - 1)).
    + rewrite row_at_moved by (done || lia).
      destruct (decide (cur_row k <= r < scroll_rows k)); [rewrite decide_True by lia; f_equal; lia|by rewrite decide_False by lia].
    + by rewrite decide_False by lia.
Qed.

(** ESC R undoes ESC E.  Inserting a line and deleting it again leaves
    every row as it was except the last of the scrolling region, whose text
    the insertion pushed out and which comes back blank; rows outside the
    region and the cursor are untouched. *)
Theorem insert_delete_line k r :
  video_ok k → cur_row k < scroll_rows k → 0 <= r < KV_ROWS →
  row_at (delete_line (insert_line k)) r = (if decide (r = scroll_rows k - 1) then blank_row else row_at k r) ∧
  cursor (delete_line (insert_line k)) = cursor k.
Proof.
  intros [Hk _] Hreg Hr. unfold KV_ROWS in Hr. destruct (keeps_insert_line k Hk) as [Hk' ((Hm & _) & _ & Hp)].
  assert (scroll_rows (insert_line k) = scroll_rows k) as Hs by (unfold scroll_rows; by rewrite Hm, Hp).
  assert (∀ k, cursor (insert_line k) = cursor k) as Hci by (intros k'; unfold insert_line; by repeat case_match).
  assert (∀ k, cursor (delete_line k) = cursor k) as Hcd by (intros k'; unfold delete_line; by repeat case_match).
  assert (cur_row (insert_line k) = cur_row k) as Hc by (by injection (Hci k)).
  split; [|by rewrite Hcd, Hci]. rewrite delete_line_rows, Hs, Hc by (done || lia).
  destruct (decide (r = scroll_rows k - 1)); [done|]. pose proof (ok_row k Hk). pose proof (scroll_rows_bounds k).
  destruct (decide (cur_row k <= r < scroll_rows k)).
  - rewrite insert_line_rows by (done || lia). rewrite decide_False by lia. rewrite decide_True by lia. f_equal. lia.
  - rewrite insert_line_rows by (done || lia). rewrite decide_False by lia. by rewrite decide_False by lia.
Qed.

Example insert_delete_line_witness :
  let k := video_puts [chr "a"; 0x0A; chr "b"; 0x1E] (kaypro_video_init KAYPRO_MODEL_84) in
  row_at (delete_line (insert_line k)) 0 = row_at k 0 ∧ row_at (insert_line k) 0 ≠ row_at k 0.
Proof.
  intros k. split; [|by vm_compute]. assert (video_ok k) as Hk by (apply puts_ok, init_ok; by right).
  by destruct (insert_delete_line k 0 Hk ltac:(by vm_compute) ltac:(done)) as [-> _].
Defined.

(** ** Escape sequences *)

(** Nothing but the escape machine's own fields and the byte count moved. *)
Definition same_view (k k' : kaypro_video) : Prop :=
  cells k' = cells k ∧ cursor k' = cursor k ∧ attr k' = attr k ∧ model k' = model k ∧
  status_preserve k' = status_preserve k ∧ saved_row k' = saved_row k ∧ saved_col k' = saved_col k ∧
  video_mode k' = video_mode k ∧ gfx_pending k' = gfx_pending k ∧ gfx_first k' = gfx_first k ∧
  dirty_rows k' = dirty_rows k ∧ cursor_moved k' = cursor_moved k ∧
  bells k' = bells k ∧ unknown_ctrl k' = unknown_ctrl k ∧ unknown_esc k' = unknown_esc k.

#[export] Instance same_view_preorder : PreOrder same_view.
Proof. split; [done|]. unfold same_view. intros k1 k2 k3 H1 H2. destruct_and!. split_and!; congruence. Qed.

(** Collecting the rest of the arguments. *)
Lemma collect_args e got args k :
  esc_state k = 2 → esc_lookup (esc_lead k) k = Some e → length (esc_args k) = 4%nat →
  esc_nargs k = Z.of_nat (length got) → take (length got) (esc_args k) = got →
  esc_need k = Z.of_nat (length args) → args ≠ [] → (length got + length args <= 4)%nat →
  ∃ k0, video_puts args k = esc_fn e (esc_args k0) k0 ∧ esc_state k0 = 0 ∧ same_view k k0 ∧
    take (length got + length args) (esc_args k0) = got ++ args.
Proof.
  revert got k. induction args as [|a args IH]; intros got k Hst Hlk Hl Hn Hgot Hneed Hne Hsum; [done|]. clear Hne.
  cbn [length] in *. change (video_puts (a :: args) k) with (video_puts args (kaypro_video_putc a k)).
  unfold kaypro_video_putc. cbv zeta. change (esc_state (set_bytes_in ?n k)) with (esc_state k). rewrite Hst. cbn [Z.eqb].
  unfold esc_collect. cbv zeta.
  set (k1 := set_esc_need _ _).
  assert (take (length got + 1) (esc_args k1) = got ++ [a]) as Hgot'.
  { subst k1. cbn [esc_args set_esc_need set_esc_nargs set_esc_args]. change (esc_nargs (set_bytes_in ?n k)) with (esc_nargs k).
    change (esc_args (set_bytes_in ?n k)) with (esc_args k). rewrite Hn, Nat2Z.id.
    replace (length got + 1)%nat with (S (length got)) by lia.
    erewrite take_S_r by (apply list_lookup_insert_eq; lia). by rewrite take_insert_ge, Hgot by lia. }
  assert (length (esc_args k1) = 4%nat) as Hl' by (subst k1; cbn; by rewrite length_insert).
  assert (esc_need k1 = Z.of_nat (length args)) as Hneed'.
  { subst k1. cbn. change (esc_need (set_bytes_in _ k)) with (esc_need k). lia. }
  change (esc_lookup (esc_lead (set_esc_state 0 k1)) (set_esc_state 0 k1)) with (esc_lookup (esc_lead k) k). rewrite Hlk.
  destruct args as [|b args].
  - destruct (Z.eqb_spec (esc_need k1) 0) as [_|E0]; [|by rewrite Hneed' in E0].
    exists (set_esc_state 0 k1). split_and!; [done|done|done|exact Hgot'].
  - destruct (Z.eqb_spec (esc_need k1) 0) as [E0|_]; [rewrite Hneed' in E0; cbn in E0; lia|].
    destruct (IH (got ++ [a]) k1) as (k0 & E & H0 & Hv & Ht);
      [done|done|done| | |done|done| |].
    + rewrite length_app. cbn. change (esc_nargs (set_bytes_in _ k)) with (esc_nargs k). lia.
    + by rewrite length_app.
    + rewrite length_app. cbn [length] in *. lia.
    + exists k0. split_and!; [done|done|etrans; [|exact Hv]; done|].
      rewrite length_app in Ht. cbn [length] in *. replace (length got + S (S (length args)))%nat with (length got + 1 + S (length args))%nat by lia.
      rewrite Ht. by rewrite <- app_assoc.
Qed.

(** An escape sequence is read whole.  In the ground state, ESC, a lead
    byte the model knows and exactly its number of arguments (whatever
    bytes they are) run the handler of the table entry once, on those
    arguments, on a screen otherwise as it was before the ESC; the machine
    is back in the ground state when the handler runs, and no byte of the
    sequence is printed. *)
Theorem esc_sequence l e args k :
  video_ok k → esc_state k = 0 → esc_lookup l k = Some e → Z.of_nat (length args) = nargs e →
  ∃ k0, video_puts (0x1B :: l :: args) k = esc_fn e (esc_args k0) k0 ∧ esc_state k0 = 0 ∧ same_view k k0 ∧
    take (length args) (esc_args k0) = args.
Proof.
  intros [Hk [Hl _]] Hst Hlk Hlen. destruct (esc_lookup_some _ _ _ Hlk) as (_ & Hb & _).
  set (k1 := kaypro_video_putc 0x1B k).
  assert (k1 = set_esc_state 1 (set_bytes_in (u64 (bytes_in k + 1)) k)) as E1.
  { subst k1. unfold kaypro_video_putc. cbv zeta. change (esc_state (set_bytes_in ?n k)) with (esc_state k). by rewrite Hst. }
  change (video_puts (0x1B :: l :: args) k) with (video_puts args (kaypro_video_putc l k1)). rewrite E1.
  set (k2 := set_bytes_in (u64 (bytes_in (set_esc_state 1 (set_bytes_in (u64 (bytes_in k + 1)) k)) + 1)) (set_esc_state 1 (set_bytes_in (u64 (bytes_in k + 1)) k))).
  change (kaypro_video_putc l (set_esc_state 1 _)) with (esc_start l k2). unfold esc_start.
  change (esc_lookup l k2) with (esc_lookup l k). rewrite Hlk. cbv zeta.
  change (esc_need (set_esc_need (nargs e) (set_esc_nargs 0 (set_esc_lead l k2)))) with (nargs e).
  destruct args as [|a args].
  - rewrite <- Hlen. cbn [length Z.of_nat Z.eqb]. eexists. split; [reflexivity|]. by split_and!.
  - destruct (Z.eqb_spec (nargs e) 0); [cbn in Hlen; lia|].
    destruct (collect_args e [] (a :: args) (set_esc_state 2 (set_esc_need (nargs e) (set_esc_nargs 0 (set_esc_lead l k2)))))
      as (k0 & E & H0 & Hv & Ht); [done|exact Hlk|exact Hl|done|done|by cbn in *|done|cbn in *; lia|].
    exists k0. by split_and!.
Qed.

(** Cursor addressing, both coordinates biased by 20h. *)
Example esc_sequence_witness :
  let k := video_puts [chr "h"; chr "i"] (kaypro_video_init KAYPRO_MODEL_84) in
  ∃ k0, video_puts [0x1B; chr "="; 0x20 + 7; 0x20 + 40] k = e_cursor (esc_args k0) k0 ∧
    take 2 (esc_args k0) = [0x20 + 7; 0x20 + 40] ∧ same_view k k0.
Proof.
  intros k. assert (video_ok k) as Hk by (apply puts_ok, init_ok; by right).
  destruct (esc_sequence (chr "=") (mk_esc (chr "=") 2 KAYPRO_MODEL_II e_cursor) [0x20 + 7; 0x20 + 40] k Hk
    eq_refl eq_refl eq_refl) as (k0 & E & _ & Hv & Ht).
  exists k0. by split_and!.
Defined.
