(* ===== verification/Kbd.v ===== *)
(** * Kbd: console input (src/kaypro/kaypro_kbd.c)

    The read-ahead ring, the key map and the translation of host key
    sequences, the host source with its line gate for piped input, the
    script source, and the three primitives the guest sees: poll, read and
    wait.  The host is the class [KbdHost]; [None] as a result is the
    emulator's [exit]. *)

From Stdlib Require Import ZArith Lia Bool List Ascii String.
From stdpp Require Import base list.
From S2P Require Import Prelude Video.

Open Scope list_scope.
Open Scope Z_scope.
Open Scope z80_scope.

(** A C string without its NUL. *)
Definition str (s : string) : list Z := map chr (list_ascii_of_string s).

Definition QSIZE : Z := 256.
Definition KBD_END : Z := -1.
Definition KBD_IDLE_POLLS : Z := 20000.
Definition KBD_IDLE_END_POLLS : Z := 40000.
Definition KBD_WAIT_IDLE_DEFAULT : Z := 20000.

(** The steps of a script: [step_kind] with the fields of [step_t] it uses. *)
Inductive step_t : Set :=
  | ST_BYTES (bytes : list Z)
  | ST_WAIT_IDLE (arg : Z)
  | ST_SLEEP (arg : Z)
  | ST_DUMP (path : list Z) (arg : Z)
  | ST_MEM (arg : Z)
  | ST_PACE (arg : Z)
  | ST_END.

Set Primitive Projections.
Record kbd := mk_kbd {
  queue : list Z;
  q_head : Z;
  q_tail : Z;
  n_polls : Z;
  n_reads : Z;
  empty_polls : Z;
  max_quiet_streak : Z;
  scripted : bool;
  piped : bool;
  gate_open : bool;
  gate_polls : Z;
  stdin_eof : bool;
  keymap : list (list Z);
  hbuf : list Z;
  hoff : Z;
  hlen : Z;
  last_cr : bool;
  eof_reads : Z;
  steps : list step_t;
  cur_step : nat;
  step_off : nat;
  idle_target : Z;
  idle_wanted : Z;
  idle_armed : bool;
  pace_polls : Z;
  polls_since_read : Z
}.
Unset Primitive Projections.

Definition set_queue (v : list Z) (k : kbd) : kbd :=
  mk_kbd v (q_head k) (q_tail k) (n_polls k) (n_reads k) (empty_polls k) (max_quiet_streak
    k) (scripted k) (piped k) (gate_open k) (gate_polls k) (stdin_eof k) (keymap k) (hbuf
    k) (hoff k) (hlen k) (last_cr k) (eof_reads k) (steps k) (cur_step k) (step_off k)
    (idle_target k) (idle_wanted k) (idle_armed k) (pace_polls k) (polls_since_read k).
Definition set_q_head (v : Z) (k : kbd) : kbd :=
  mk_kbd (queue k) v (q_tail k) (n_polls k) (n_reads k) (empty_polls k) (max_quiet_streak
    k) (scripted k) (piped k) (gate_open k) (gate_polls k) (stdin_eof k) (keymap k) (hbuf
    k) (hoff k) (hlen k) (last_cr k) (eof_reads k) (steps k) (cur_step k) (step_off k)
    (idle_target k) (idle_wanted k) (idle_armed k) (pace_polls k) (polls_since_read k).
Definition set_q_tail (v : Z) (k : kbd) : kbd :=
  mk_kbd (queue k) (q_head k) v (n_polls k) (n_reads k) (empty_polls k) (max_quiet_streak
    k) (scripted k) (piped k) (gate_open k) (gate_polls k) (stdin_eof k) (keymap k) (hbuf
    k) (hoff k) (hlen k) (last_cr k) (eof_reads k) (steps k) (cur_step k) (step_off k)
    (idle_target k) (idle_wanted k) (idle_armed k) (pace_polls k) (polls_since_read k).
Definition set_n_polls (v : Z) (k : kbd) : kbd :=
  mk_kbd (queue k) (q_head k) (q_tail k) v (n_reads k) (empty_polls k) (max_quiet_streak
    k) (scripted k) (piped k) (gate_open k) (gate_polls k) (stdin_eof k) (keymap k) (hbuf
    k) (hoff k) (hlen k) (last_cr k) (eof_reads k) (steps k) (cur_step k) (step_off k)
    (idle_target k) (idle_wanted k) (idle_armed k) (pace_polls k) (polls_since_read k).
Definition set_n_reads (v : Z) (k : kbd) : kbd :=
  mk_kbd (queue k) (q_head k) (q_tail k) (n_polls k) v (empty_polls k) (max_quiet_streak
    k) (scripted k) (piped k) (gate_open k) (gate_polls k) (stdin_eof k) (keymap k) (hbuf
    k) (hoff k) (hlen k) (last_cr k) (eof_reads k) (steps k) (cur_step k) (step_off k)
    (idle_target k) (idle_wanted k) (idle_armed k) (pace_polls k) (polls_since_read k).
Definition set_empty_polls (v : Z) (k : kbd) : kbd :=
  mk_kbd (queue k) (q_head k) (q_tail k) (n_polls k) (n_reads k) v (max_quiet_streak k)
    (scripted k) (piped k) (gate_open k) (gate_polls k) (stdin_eof k) (keymap k) (hbuf k)
    (hoff k) (hlen k) (last_cr k) (eof_reads k) (steps k) (cur_step k) (step_off k)
    (idle_target k) (idle_wanted k) (idle_armed k) (pace_polls k) (polls_since_read k).
Definition set_max_quiet_streak (v : Z) (k : kbd) : kbd :=
  mk_kbd (queue k) (q_head k) (q_tail k) (n_polls k) (n_reads k) (empty_polls k) v
    (scripted k) (piped k) (gate_open k) (gate_polls k) (stdin_eof k) (keymap k) (hbuf k)
    (hoff k) (hlen k) (last_cr k) (eof_reads k) (steps k) (cur_step k) (step_off k)
    (idle_target k) (idle_wanted k) (idle_armed k) (pace_polls k) (polls_since_read k).
Definition set_scripted (v : bool) (k : kbd) : kbd :=
  mk_kbd (queue k) (q_head k) (q_tail k) (n_polls k) (n_reads k) (empty_polls k)
    (max_quiet_streak k) v (piped k) (gate_open k) (gate_polls k) (stdin_eof k) (keymap k)
    (hbuf k) (hoff k) (hlen k) (last_cr k) (eof_reads k) (steps k) (cur_step k) (step_off
    k) (idle_target k) (idle_wanted k) (idle_armed k) (pace_polls k) (polls_since_read k).
Definition set_piped (v : bool) (k : kbd) : kbd :=
  mk_kbd (queue k) (q_head k) (q_tail k) (n_polls k) (n_reads k) (empty_polls k)
    (max_quiet_streak k) (scripted k) v (gate_open k) (gate_polls k) (stdin_eof k) (keymap
    k) (hbuf k) (hoff k) (hlen k) (last_cr k) (eof_reads k) (steps k) (cur_step k)
    (step_off k) (idle_target k) (idle_wanted k) (idle_armed k) (pace_polls k)
    (polls_since_read k).
Definition set_gate_open (v : bool) (k : kbd) : kbd :=
  mk_kbd (queue k) (q_head k) (q_tail k) (n_polls k) (n_reads k) (empty_polls k)
    (max_quiet_streak k) (scripted k) (piped k) v (gate_polls k) (stdin_eof k) (keymap k)
    (hbuf k) (hoff k) (hlen k) (last_cr k) (eof_reads k) (steps k) (cur_step k) (step_off
    k) (idle_target k) (idle_wanted k) (idle_armed k) (pace_polls k) (polls_since_read k).
Definition set_gate_polls (v : Z) (k : kbd) : kbd :=
  mk_kbd (queue k) (q_head k) (q_tail k) (n_polls k) (n_reads k) (empty_polls k)
    (max_quiet_streak k) (scripted k) (piped k) (gate_open k) v (stdin_eof k) (keymap k)
    (hbuf k) (hoff k) (hlen k) (last_cr k) (eof_reads k) (steps k) (cur_step k) (step_off
    k) (idle_target k) (idle_wanted k) (idle_armed k) (pace_polls k) (polls_since_read k).
Definition set_stdin_eof (v : bool) (k : kbd) : kbd :=
  mk_kbd (queue k) (q_head k) (q_tail k) (n_polls k) (n_reads k) (empty_polls k)
    (max_quiet_streak k) (scripted k) (piped k) (gate_open k) (gate_polls k) v (keymap k)
    (hbuf k) (hoff k) (hlen k) (last_cr k) (eof_reads k) (steps k) (cur_step k) (step_off
    k) (idle_target k) (idle_wanted k) (idle_armed k) (pace_polls k) (polls_since_read k).
Definition set_keymap (v : list (list Z)) (k : kbd) : kbd :=
  mk_kbd (queue k) (q_head k) (q_tail k) (n_polls k) (n_reads k) (empty_polls k)
    (max_quiet_streak k) (scripted k) (piped k) (gate_open k) (gate_polls k) (stdin_eof k)
    v (hbuf k) (hoff k) (hlen k) (last_cr k) (eof_reads k) (steps k) (cur_step k)
    (step_off k) (idle_target k) (idle_wanted k) (idle_armed k) (pace_polls k)
    (polls_since_read k).
Definition set_hbuf (v : list Z) (k : kbd) : kbd :=
  mk_kbd (queue k) (q_head k) (q_tail k) (n_polls k) (n_reads k) (empty_polls k)
    (max_quiet_streak k) (scripted k) (piped k) (gate_open k) (gate_polls k) (stdin_eof k)
    (keymap k) v (hoff k) (hlen k) (last_cr k) (eof_reads k) (steps k) (cur_step k)
    (step_off k) (idle_target k) (idle_wanted k) (idle_armed k) (pace_polls k)
    (polls_since_read k).
Definition set_hoff (v : Z) (k : kbd) : kbd :=
  mk_kbd (queue k) (q_head k) (q_tail k) (n_polls k) (n_reads k) (empty_polls k)
    (max_quiet_streak k) (scripted k) (piped k) (gate_open k) (gate_polls k) (stdin_eof k)
    (keymap k) (hbuf k) v (hlen k) (last_cr k) (eof_reads k) (steps k) (cur_step k)
    (step_off k) (idle_target k) (idle_wanted k) (idle_armed k) (pace_polls k)
    (polls_since_read k).
Definition set_hlen (v : Z) (k : kbd) : kbd :=
  mk_kbd (queue k) (q_head k) (q_tail k) (n_polls k) (n_reads k) (empty_polls k)
    (max_quiet_streak k) (scripted k) (piped k) (gate_open k) (gate_polls k) (stdin_eof k)
    (keymap k) (hbuf k) (hoff k) v (last_cr k) (eof_reads k) (steps k) (cur_step k)
    (step_off k) (idle_target k) (idle_wanted k) (idle_armed k) (pace_polls k)
    (polls_since_read k).
Definition set_last_cr (v : bool) (k : kbd) : kbd :=
  mk_kbd (queue k) (q_head k) (q_tail k) (n_polls k) (n_reads k) (empty_polls k)
    (max_quiet_streak k) (scripted k) (piped k) (gate_open k) (gate_polls k) (stdin_eof k)
    (keymap k) (hbuf k) (hoff k) (hlen k) v (eof_reads k) (steps k) (cur_step k) (step_off
    k) (idle_target k) (idle_wanted k) (idle_armed k) (pace_polls k) (polls_since_read k).
Definition set_eof_reads (v : Z) (k : kbd) : kbd :=
  mk_kbd (queue k) (q_head k) (q_tail k) (n_polls k) (n_reads k) (empty_polls k)
    (max_quiet_streak k) (scripted k) (piped k) (gate_open k) (gate_polls k) (stdin_eof k)
    (keymap k) (hbuf k) (hoff k) (hlen k) (last_cr k) v (steps k) (cur_step k) (step_off
    k) (idle_target k) (idle_wanted k) (idle_armed k) (pace_polls k) (polls_since_read k).
Definition set_steps (v : list step_t) (k : kbd) : kbd :=
  mk_kbd (queue k) (q_head k) (q_tail k) (n_polls k) (n_reads k) (empty_polls k)
    (max_quiet_streak k) (scripted k) (piped k) (gate_open k) (gate_polls k) (stdin_eof k)
    (keymap k) (hbuf k) (hoff k) (hlen k) (last_cr k) (eof_reads k) v (cur_step k)
    (step_off k) (idle_target k) (idle_wanted k) (idle_armed k) (pace_polls k)
    (polls_since_read k).
Definition set_cur_step (v : nat) (k : kbd) : kbd :=
  mk_kbd (queue k) (q_head k) (q_tail k) (n_polls k) (n_reads k) (empty_polls k)
    (max_quiet_streak k) (scripted k) (piped k) (gate_open k) (gate_polls k) (stdin_eof k)
    (keymap k) (hbuf k) (hoff k) (hlen k) (last_cr k) (eof_reads k) (steps k) v (step_off
    k) (idle_target k) (idle_wanted k) (idle_armed k) (pace_polls k) (polls_since_read k).
Definition set_step_off (v : nat) (k : kbd) : kbd :=
  mk_kbd (queue k) (q_head k) (q_tail k) (n_polls k) (n_reads k) (empty_polls k)
    (max_quiet_streak k) (scripted k) (piped k) (gate_open k) (gate_polls k) (stdin_eof k)
    (keymap k) (hbuf k) (hoff k) (hlen k) (last_cr k) (eof_reads k) (steps k) (cur_step k)
    v (idle_target k) (idle_wanted k) (idle_armed k) (pace_polls k) (polls_since_read k).
Definition set_idle_target (v : Z) (k : kbd) : kbd :=
  mk_kbd (queue k) (q_head k) (q_tail k) (n_polls k) (n_reads k) (empty_polls k)
    (max_quiet_streak k) (scripted k) (piped k) (gate_open k) (gate_polls k) (stdin_eof k)
    (keymap k) (hbuf k) (hoff k) (hlen k) (last_cr k) (eof_reads k) (steps k) (cur_step k)
    (step_off k) v (idle_wanted k) (idle_armed k) (pace_polls k) (polls_since_read k).
Definition set_idle_wanted (v : Z) (k : kbd) : kbd :=
  mk_kbd (queue k) (q_head k) (q_tail k) (n_polls k) (n_reads k) (empty_polls k)
    (max_quiet_streak k) (scripted k) (piped k) (gate_open k) (gate_polls k) (stdin_eof k)
    (keymap k) (hbuf k) (hoff k) (hlen k) (last_cr k) (eof_reads k) (steps k) (cur_step k)
    (step_off k) (idle_target k) v (idle_armed k) (pace_polls k) (polls_since_read k).
Definition set_idle_armed (v : bool) (k : kbd) : kbd :=
  mk_kbd (queue k) (q_head k) (q_tail k) (n_polls k) (n_reads k) (empty_polls k)
    (max_quiet_streak k) (scripted k) (piped k) (gate_open k) (gate_polls k) (stdin_eof k)
    (keymap k) (hbuf k) (hoff k) (hlen k) (last_cr k) (eof_reads k) (steps k) (cur_step k)
    (step_off k) (idle_target k) (idle_wanted k) v (pace_polls k) (polls_since_read k).
Definition set_pace_polls (v : Z) (k : kbd) : kbd :=
  mk_kbd (queue k) (q_head k) (q_tail k) (n_polls k) (n_reads k) (empty_polls k)
    (max_quiet_streak k) (scripted k) (piped k) (gate_open k) (gate_polls k) (stdin_eof k)
    (keymap k) (hbuf k) (hoff k) (hlen k) (last_cr k) (eof_reads k) (steps k) (cur_step k)
    (step_off k) (idle_target k) (idle_wanted k) (idle_armed k) v (polls_since_read k).
Definition set_polls_since_read (v : Z) (k : kbd) : kbd :=
  mk_kbd (queue k) (q_head k) (q_tail k) (n_polls k) (n_reads k) (empty_polls k)
    (max_quiet_streak k) (scripted k) (piped k) (gate_open k) (gate_polls k) (stdin_eof k)
    (keymap k) (hbuf k) (hoff k) (hlen k) (last_cr k) (eof_reads k) (steps k) (cur_step k)
    (step_off k) (idle_target k) (idle_wanted k) (idle_armed k) (pace_polls k) v.

(** ** The ring *)

Definition q_empty (k : kbd) : bool := q_head k =? q_tail k.
Definition q_full (k : kbd) : bool := (q_head k + 1) mod QSIZE =? q_tail k.
Definition q_push (c : Z) (k : kbd) : kbd :=
  let n := (q_head k + 1) mod QSIZE in
  if negb (n =? q_tail k) then set_q_head n (set_queue (<[Z.to_nat (q_head k):=c]> (queue k)) k) else k.
Definition q_pop (k : kbd) : Z * kbd :=
  (default 0 (queue k !! Z.to_nat (q_tail k)), set_q_tail ((q_tail k + 1) mod QSIZE) k).
Definition q_room (k : kbd) : Z := (q_tail k + QSIZE - q_head k - 1) mod QSIZE.

Definition q_push_all (cs : list Z) (k : kbd) : kbd := fold_left (λ k c, q_push c k) cs k.

(** ** Key mapping *)

Definition KEY_UP : nat := 0.
Definition KEY_DOWN : nat := 1.
Definition KEY_LEFT : nat := 2.
Definition KEY_RIGHT : nat := 3.
Definition KEY_HOME : nat := 4.
Definition KEY_END : nat := 5.
Definition KEY_INS : nat := 6.
Definition KEY_DEL : nat := 7.
Definition KEY_PGUP : nat := 8.
Definition KEY_PGDN : nat := 9.
Definition KEY_F (n : nat) : nat := 9 + n.
Definition KEY_BS : nat := 22.
Definition KEY_COUNT : nat := 23.

Definition key_names : list (list Z) := map str
  ["up"; "down"; "left"; "right"; "home"; "end"; "ins"; "del"; "pgup"; "pgdn";
   "f1"; "f2"; "f3"; "f4"; "f5"; "f6"; "f7"; "f8"; "f9"; "f10"; "f11"; "f12"; "bs"]%string.

(** Entry [key] of the map: at most eight bytes. *)
Definition kaypro_kbd_key_set (key : nat) (bytes : list Z) (m : list (list Z)) : list (list Z) :=
  if (KEY_COUNT <=? key)%nat then m else <[key:=take 8 bytes]> m.
Definition key_set1 (key : nat) (b : Z) (m : list (list Z)) : list (list Z) := <[key:=[b]]> m.

Definition keymap_defaults : list (list Z) :=
  let m := replicate KEY_COUNT [] in
  let m := key_set1 KEY_DOWN 0x0A (key_set1 KEY_UP 0x0B m) in
  let m := key_set1 KEY_RIGHT 0x0C (key_set1 KEY_LEFT 0x08 m) in
  key_set1 KEY_BS 0x08 (key_set1 KEY_DEL 0x7F m).

Definition hexval (c : Z) : Z :=
  if (chr "0" <=? c) && (c <=? chr "9") then c - chr "0"
  else if (chr "a" <=? c) && (c <=? chr "f") then c - chr "a" + 10
  else if (chr "A" <=? c) && (c <=? chr "F") then c - chr "A" + 10
  else -1.

Definition BACKSLASH : Z := 92.

(** Decode escapes, at most [cap] bytes out. *)
Fixpoint unescape (src : list Z) (cap : nat) : list Z :=
  match cap, src with
  | O, _ | _, [] => []
  | S cap', c :: src1 =>
      if negb (c =? BACKSLASH) then c :: unescape src1 cap'
      else match src1 with
      | [] => []
      | e :: src2 =>
          if e =? chr "r" then 13 :: unescape src2 cap'
          else if e =? chr "n" then 10 :: unescape src2 cap'
          else if e =? chr "t" then 9 :: unescape src2 cap'
          else if e =? chr "e" then 0x1B :: unescape src2 cap'
          else if e =? chr "^" then
            match src2 with [] => [] | x :: src3 => (x &' 0x1F) :: unescape src3 cap' end
          else if e =? chr "x" then
            match src2 with
            | h :: l :: src3 =>
                if (0 <=? hexval h) && (0 <=? hexval l) then hexval h * 16 + hexval l :: unescape src3 cap'
                else unescape src2 cap
            | _ => unescape src2 cap
            end
          else e :: unescape src2 cap'
      end
  end.

(** [strchr]: what precedes the first [c] and what follows it. *)
Fixpoint split_chr (c : Z) (l : list Z) : option (list Z * list Z) :=
  match l with
  | [] => None
  | x :: l => if x =? c then Some ([], l)
              else match split_chr c l with Some (a, b) => Some (x :: a, b) | None => None end
  end.

(** The last key of that name. *)
Definition key_named (name : list Z) : option nat :=
  fold_left (λ r k, if decide (key_names !! k = Some name) then Some k else r) (seq 0 KEY_COUNT) None.

(** [name=value,...]; [fuel]: one entry takes a byte at least. *)
Fixpoint configure_loop (fuel : nat) (p : list Z) (m : list (list Z)) : Z * list (list Z) :=
  match fuel, p with
  | O, _ | _, [] => (0, m)
  | S fuel, _ =>
      match split_chr (chr "=") p with
      | None => (-1, m)
      | Some (name, after) =>
          let '(value, rest) := match split_chr (chr ",") after with
                                | Some (v, r) => (v, Some r) | None => (after, None) end in
          match key_named name with
          | None => (-1, m)
          | Some key =>
              let m := kaypro_kbd_key_set key (unescape value 8) m in
              match rest with Some r => configure_loop fuel r m | None => (0, m) end
          end
      end
  end.

Definition wordstar_keys (m : list (list Z)) : list (list Z) :=
  let m := key_set1 KEY_DOWN 0x18 (key_set1 KEY_UP 0x05 m) in
  let m := key_set1 KEY_RIGHT 0x04 (key_set1 KEY_LEFT 0x13 m) in
  let m := key_set1 KEY_PGDN 0x03 (key_set1 KEY_PGUP 0x12 m) in
  let m := key_set1 KEY_BS 0x7F (key_set1 KEY_DEL 0x07 m) in
  kaypro_kbd_key_set KEY_END [0x11; 0x04] (kaypro_kbd_key_set KEY_HOME [0x11; 0x13] m).

(** [None]: a NULL spec. *)
Definition kaypro_kbd_keys_configure (spec : option (list Z)) (m : list (list Z)) : Z * list (list Z) :=
  match spec with
  | None | Some [] => (0, m)
  | Some s => if decide (s = str "wordstar") then (0, wordstar_keys m) else configure_loop (length s) s m
  end.

(** [tty]: stdin is a terminal; [keys]: Z80_KEYS, a bad one being ignored
    from its first bad entry on. *)
Definition kaypro_kbd_init (tty : bool) (keys : option (list Z)) (k : kbd) : kbd :=
  let k := set_n_reads 0 (set_n_polls 0 (set_q_tail 0 (set_q_head 0 k))) in
  let k := set_piped (negb tty) (set_scripted false (set_empty_polls 0 k)) in
  let k := set_stdin_eof false (set_gate_polls 0 (set_gate_open false k)) in
  set_keymap (kaypro_kbd_keys_configure keys keymap_defaults).2 k.

Definition is_digit (c : Z) : bool := (chr "0" <=? c) && (c <=? chr "9").

(** The decimal number a CSI sequence starts with; its last byte is not
    part of it. *)
Fixpoint csi_number (l : list Z) (num : Z) : Z :=
  match l with
  | c :: (_ :: _) as rest => match rest with _ :: rest' => if is_digit c then csi_number rest' (num * 10 + (c - chr "0")) else num | [] => num end
  | _ => num
  end.

Definition key_letter (last : Z) (short : bool) : option nat :=
  if last =? chr "A" then Some KEY_UP else if last =? chr "B" then Some KEY_DOWN
  else if last =? chr "C" then Some KEY_RIGHT else if last =? chr "D" then Some KEY_LEFT
  else if last =? chr "H" then Some KEY_HOME else if last =? chr "F" then Some KEY_END
  else if negb short then None
  else if last =? chr "P" then Some (KEY_F 1) else if last =? chr "Q" then Some (KEY_F 2)
  else if last =? chr "R" then Some (KEY_F 3) else if last =? chr "S" then Some (KEY_F 4)
  else None.

Definition key_number (num : Z) : option nat :=
  match num with
  | 1 | 7 => Some KEY_HOME | 4 | 8 => Some KEY_END
  | 2 => Some KEY_INS | 3 => Some KEY_DEL
  | 5 => Some KEY_PGUP | 6 => Some KEY_PGDN
  | 11 => Some (KEY_F 1) | 12 => Some (KEY_F 2) | 13 => Some (KEY_F 3) | 14 => Some (KEY_F 4)
  | 15 => Some (KEY_F 5) | 17 => Some (KEY_F 6) | 18 => Some (KEY_F 7) | 19 => Some (KEY_F 8)
  | 20 => Some (KEY_F 9) | 21 => Some (KEY_F 10) | 23 => Some (KEY_F 11) | 24 => Some (KEY_F 12)
  | _ => None
  end.

Definition at_ (l : list Z) (i : nat) : Z := default 0 (l !! i).

Definition key_for_sequence (seq : list Z) : option nat :=
  let n := length seq in
  if (n <? 3)%nat || negb (at_ seq 0 =? 0x1B) then None
  else
    let kind := at_ seq 1 in
    if negb (kind =? chr "[") && negb (kind =? chr "O") then None
    else
      let last := at_ seq (n - 1) in
      if (n =? 3)%nat || ((kind =? chr "[") && (6 <=? n)%nat && (at_ seq 2 =? chr "1") && (at_ seq 3 =? chr ";"))
      then key_letter last (n =? 3)%nat
      else if (kind =? chr "[") && (last =? chr "~") then key_number (csi_number (drop 2 seq) 0)
      else None.

Definition key_bytes (m : list (list Z)) (key : nat) : list Z := default [] (m !! key).

Definition kaypro_kbd_translate (m : list (list Z)) (seq : list Z) (outcap : nat) : list Z :=
  match seq, outcap with
  | [], _ | _, O => []
  | [c], _ =>
      if (c =? 0x7F) || (c =? 0x08) then take outcap (key_bytes m KEY_BS) else [c]
  | _, _ =>
      match key_for_sequence seq with Some key => take outcap (key_bytes m key) | None => [] end
  end.

(** ** The host terminal *)

(** [stdin_readable]: select, [block] waiting without limit.  [stdin_read]:
    read at most that many bytes, [None] at end of file or on an error.
    [look_due]: a millisecond has passed since the last look.  [step_io]:
    what a @sleep, @dump or @mem step does outside. *)
Class KbdHost (H : Type) := {
  stdin_readable : bool → H → bool * H;
  stdin_read : nat → H → option (list Z) * H;
  look_due : H → bool * H;
  idle_sleep : H → H;
  step_io : step_t → H → H
}.

(** Bytes of the token at the head of [buf]: a CSI sequence up to its final
    byte, an SS3 pair, or one byte. *)
Fixpoint csi_len (l : list Z) : nat :=
  match l with
  | [] => O
  | c :: l => if (0x40 <=? c) && (c <=? 0x7E) then 1 else S (csi_len l)
  end.
Definition token_len (buf : list Z) : nat :=
  match buf with
  | 0x1B :: c :: l =>
      if c =? chr "O" then match l with [] => 2 | _ => 3 end
      else if c =? chr "[" then 2 + csi_len l
      else 1
  | _ => 1
  end.

(** The loop of [host_drain]: [None] when ^] is met.  Returns what is left,
    and whether something was queued. *)
Fixpoint drain_loop (fuel : nat) (buf : list Z) (queued : bool) (k : kbd) : option (list Z * bool * kbd) :=
  match fuel, buf with
  | O, _ | _, [] => Some (buf, queued, k)
  | S fuel, c :: _ =>
      if q_room k <? 8 then Some (buf, queued, k)
      else if c =? 0x1D then None
      else
        let n := token_len buf in
        let out := kaypro_kbd_translate (keymap k) (take n buf) 8 in
        drain_loop fuel (drop n buf) (match out with [] => queued | _ => true end) (q_push_all out k)
  end.

(** The unread part of [hbuf]. *)
Definition pending (k : kbd) : list Z := take (Z.to_nat (hlen k - hoff k)) (drop (Z.to_nat (hoff k)) (hbuf k)).

Definition host_drain (k : kbd) : option (bool * kbd) :=
  let buf := pending k in
  match drain_loop (length buf) buf false k with
  | None => None
  | Some (rest, queued, k) =>
      let off := hoff k + (Z.of_nat (length buf) - Z.of_nat (length rest)) in
      Some (queued, if off =? hlen k then set_hlen 0 (set_hoff 0 k) else set_hoff off k)
  end.

Section Host.
Context {H : Type} `{KbdHost H}.

(** A trailing ESC, ESC [ or ESC O. *)
Definition cut_short (buf : list Z) : bool :=
  match rev buf with
  | 0x1B :: _ => true
  | c :: 0x1B :: _ => (c =? chr "[") || (c =? chr "O")
  | _ => false
  end.

(** The rest of a sequence, a byte at a time, while the buffer has room. *)
Fixpoint fetch_rest (fuel : nat) (buf : list Z) (h : H) : list Z * H :=
  match fuel with
  | O => (buf, h)
  | S fuel =>
      let '(ready, h) := stdin_readable false h in
      if negb ready then (buf, h)
      else match stdin_read 1 h with
      | (Some [c], h) =>
          if (0x40 <=? c) && (c <=? 0x7E) && negb (c =? chr "[") then (buf ++ [c], h)
          else fetch_rest fuel (buf ++ [c]) h
      | (_, h) => (buf, h)
      end
  end.

(** LF and CR LF become CR; [cr]: the last byte was a CR. *)
Fixpoint crlf (buf : list Z) (cr : bool) : list Z * bool :=
  match buf with
  | [] => ([], cr)
  | c :: buf =>
      if c =? 10 then
        let '(out, cr') := crlf buf false in (if cr then out else 13 :: out, cr')
      else let '(out, cr') := crlf buf (c =? 13) in (c :: out, cr')
  end.

(** 1: something was queued; 0: nothing; -1: end of input. *)
Definition drained (k : kbd) (h : H) : option (Z * kbd * H) :=
  match host_drain k with
  | None => None
  | Some (queued, k) => Some (if queued then 1 else 0, k, h)
  end.

Definition host_fetch (block : bool) (k : kbd) (h : H) : option (Z * kbd * H) :=
  if nz (hlen k) then drained k h
  else
    let '(ready, h) := stdin_readable block h in
    if negb ready then Some (0, k, h)
    else
      match stdin_read 256 h with
      | (None, h) | (Some [], h) => Some (-1, k, h)
      | (Some buf, h) =>
          let '(buf, h) := if (length buf <? 256)%nat && cut_short buf
                           then fetch_rest (256 - length buf) buf h else (buf, h) in
          let '(buf, k) := if piped k then let '(b, cr) := crlf buf (last_cr k) in (b, set_last_cr cr k)
                           else (buf, k) in
          match piped k, buf with
          | true, [] => Some (0, k, h)
          | _, _ => drained (set_hlen (Z.of_nat (length buf)) (set_hoff 0 (set_hbuf buf k))) h
          end
      end.

(** ** The script *)

Definition kaypro_kbd_note_activity (k : kbd) : kbd :=
  let k := set_gate_polls 0 (set_empty_polls 0 k) in
  if idle_armed k then set_idle_target (idle_wanted k) k else k.

Definition next_step (k : kbd) : kbd := set_cur_step (S (cur_step k)) k.

(** [while (step_off < len && !q_full())]. *)
Fixpoint feed (fuel : nat) (bs : list Z) (k : kbd) : kbd :=
  match fuel with
  | O => k
  | S fuel =>
      if (step_off k <? length bs)%nat && negb (q_full k)
      then feed fuel bs (set_step_off (S (step_off k)) (q_push (at_ bs (step_off k)) k))
      else k
  end.

(** 1: bytes are available; 0: waiting for idle; -1: the end. *)
Fixpoint script_advance (fuel : nat) (reading : bool) (k : kbd) (h : H) : Z * kbd * H :=
  match fuel with
  | O => (-1, k, h)
  | S fuel =>
      if negb (q_empty k) then (1, k, h)
      else match steps k !! cur_step k with
      | Some (ST_BYTES bs) =>
          let k := feed (length bs) bs k in
          (1, if (step_off k =? length bs)%nat then next_step (set_step_off 0 k) else k, h)
      | Some (ST_WAIT_IDLE a) =>
          let k := if negb (idle_armed k)
                   then set_idle_target a (set_idle_wanted a (set_idle_armed true k)) else k in
          if reading || (idle_target k <=? 0)
          then script_advance fuel reading (next_step (set_idle_armed false k)) h
          else (0, k, h)
      | Some (ST_PACE a) => script_advance fuel reading (next_step (set_pace_polls a k)) h
      | Some ((ST_SLEEP _ | ST_DUMP _ _ | ST_MEM _) as s) =>
          script_advance fuel reading (next_step k) (step_io s h)
      | Some ST_END | None => (-1, k, h)
      end
  end.
(** Every turn that does not return leaves a step behind. *)
Definition script_fuel (k : kbd) : nat := S (length (steps k) - cur_step k).

(** ** The three primitives *)

Definition paced_out (k : kbd) : bool * kbd :=
  if negb (scripted k) || (pace_polls k <=? 0) || (pace_polls k <=? polls_since_read k) then (false, k)
  else (true, set_polls_since_read (polls_since_read k + 1) k).

Definition gated (k : kbd) : bool * kbd :=
  if negb (piped k) || scripted k || gate_open k then (false, k)
  else
    let k := set_gate_polls (u32 (gate_polls k + 1)) k in
    if KBD_IDLE_POLLS <=? gate_polls k then (false, set_gate_open true k) else (true, k).

Definition pop_key (k : kbd) : Z * kbd :=
  let '(c, k) := q_pop k in
  (c, if piped k && (c =? 13) then set_gate_polls 0 (set_gate_open false k) else k).

(** [++empty_polls] and the streak. *)
Definition note_empty (k : kbd) : kbd :=
  let k := set_empty_polls (u32 (empty_polls k + 1)) k in
  if max_quiet_streak k <? empty_polls k then set_max_quiet_streak (empty_polls k) k else k.

Definition poll_scripted (k : kbd) (h : H) : option (Z * kbd * H) :=
  let '(r, k, h) := script_advance (script_fuel k) false k h in
  if r =? 1 then
    let '(held, k) := paced_out k in
    if held then Some (0, k, h) else Some (1, set_empty_polls 0 k, h)
  else
    let k := if (r =? 0) && idle_armed k then set_idle_target (idle_target k - 1) k else k in
    let k := note_empty k in
    if (r <? 0) && (KBD_IDLE_END_POLLS <=? empty_polls k) then None else Some (0, k, h).

Definition poll_quiet (k : kbd) (h : H) : option (Z * kbd * H) :=
  let k := note_empty k in
  if stdin_eof k then if KBD_IDLE_END_POLLS <=? empty_polls k then None else Some (0, k, h)
  else Some (0, k, if KBD_IDLE_POLLS <=? empty_polls k then idle_sleep h else h).

Definition poll_host (k : kbd) (h : H) : option (Z * kbd * H) :=
  let '(due, h) := look_due h in
  if negb (stdin_eof k) && (nz (hlen k) || due) then
    match host_fetch false k h with
    | None => None
    | Some (r, k, h) =>
        if r =? 1 then
          let '(held, k) := gated k in
          if held then Some (0, k, h) else Some (1, set_empty_polls 0 k, h)
        else poll_quiet (if (r <? 0) && piped k then set_stdin_eof true k else k) h
    end
  else poll_quiet k h.

Definition kaypro_kbd_poll (k : kbd) (h : H) : option (Z * kbd * H) :=
  let k := set_n_polls (u64 (n_polls k + 1)) k in
  if negb (q_empty k) then
    let '(held, k) := paced_out k in
    if held then Some (0, k, h)
    else
      let '(held, k) := gated k in
      if held then Some (0, k, h) else Some (1, set_empty_polls 0 k, h)
  else if scripted k then poll_scripted k h
  else poll_host k h.

(** The blocking loop, for [fuel] turns (each swallows an unmapped key).
    [None]: it has not returned; it is still waiting, or has exited after
    eight reads past the end. *)
Fixpoint read_host (fuel : nat) (k : kbd) (h : H) : option (Z * kbd * H) :=
  match fuel with
  | O => None
  | S fuel =>
      match host_fetch true k h with
      | None => None
      | Some (r, k, h) =>
          if r =? 1 then let '(c, k) := pop_key k in Some (c, k, h)
          else if r <? 0 then
            let k := set_eof_reads (eof_reads k + 1) k in
            if 8 <? eof_reads k then None else Some (0x1A, k, h)
          else read_host fuel k h
      end
  end.

Definition kaypro_kbd_read (fuel : nat) (k : kbd) (h : H) : option (Z * kbd * H) :=
  let k := set_n_reads (u64 (n_reads k + 1)) k in
  let k := set_gate_open true (set_polls_since_read 0 (set_empty_polls 0 k)) in
  if negb (q_empty k) then let '(c, k) := pop_key k in Some (c, k, h)
  else if scripted k then
    let '(r, k, h) := script_advance (script_fuel k) true k h in
    if r =? 1 then let '(c, k) := q_pop k in Some (c, k, h) else Some (KBD_END, k, h)
  else read_host fuel k h.

Fixpoint wait_host (fuel : nat) (k : kbd) (h : H) : option (kbd * H) :=
  match fuel with
  | O => None
  | S fuel =>
      match host_fetch true k h with
      | None => None
      | Some (r, k, h) => if r =? 0 then wait_host fuel k h else Some (k, h)
      end
  end.

Definition kaypro_kbd_wait (fuel : nat) (k : kbd) (h : H) : option (kbd * H) :=
  let k := set_gate_open true k in
  if negb (q_empty k) then Some (k, h)
  else if scripted k then
    let '(r, k, h) := script_advance (script_fuel k) true k h in
    if r <? 0 then None else Some (k, h)
  else wait_host fuel k h.
End Host.

(** ** Parsing a script's text lines *)

(** [PastEnd]: the scan ran past the line's NUL.  [Overflow]: a byte was
    stored past the end of [buf]. *)
Inductive parse_result : Set :=
  | Parsed (steps : list step_t)
  | ParseExit
  | PastEnd
  | Overflow.

Definition BUF_SIZE : nat := 1024.

Definition flush_bytes (buf : list Z) (acc : list step_t) : list step_t :=
  match buf with [] => acc | _ => acc ++ [ST_BYTES buf] end.

(** [p]: the rest of the line; [buf]: the first [n] bytes of the C array. *)
Fixpoint parse_text (fuel : nat) (p buf : list Z) (acc : list step_t) : parse_result :=
  let store b rest :=
    if (BUF_SIZE <=? length buf)%nat then Overflow
    else match fuel with
    | O => ParseExit
    | S fuel =>
        if (BUF_SIZE - 1 <=? S (length buf))%nat then parse_text fuel rest [] (flush_bytes (buf ++ [b]) acc)
        else parse_text fuel rest (buf ++ [b]) acc
    end in
  match fuel with
  | O => ParseExit
  | S fuel' =>
      match p with
      | [] => Parsed (flush_bytes buf acc)
      | c :: p =>
          if c =? chr "~" then parse_text fuel' p [] (flush_bytes buf acc ++ [ST_WAIT_IDLE KBD_WAIT_IDLE_DEFAULT])
          else if negb (c =? BACKSLASH) then
            if (BUF_SIZE <=? length buf)%nat then Overflow else parse_text fuel' p (buf ++ [c]) acc
          else match p with
          | [] => ParseExit
          | e :: p =>
              if e =? chr "r" then store 13 p
              else if e =? chr "n" then store 10 p
              else if e =? chr "t" then store 9 p
              else if e =? chr "e" then store 0x1B p
              else if e =? chr "^" then match p with [] => PastEnd | x :: p => store (x &' 0x1F) p end
              else if e =? chr "x" then
                match p with
                | h :: l :: p => if (hexval h <? 0) || (hexval l <? 0) then ParseExit else store (hexval h * 16 + hexval l) p
                | _ => ParseExit
                end
              else store e p
          end
      end
  end.
