(* ===== verification/KbdOk.v ===== *)
(** * KbdOk: no keystroke is lost, added or reordered

    The ring is a queue of 255 bytes; draining the host buffer translates
    every key once and drops none; a script's text reaches the guest byte
    for byte whatever mixture of polls and reads takes it; and the line
    parser stays in its buffer only for lines of at most 1024 plain
    characters. *)

From Stdlib Require Import ZArith Lia Bool List Ascii String.
From stdpp Require Import base list.
From S2P Require Import Prelude Video Kbd.

Open Scope list_scope.
Open Scope Z_scope.
Open Scope z80_scope.

(** ** The ring as a list *)

Record ring_ok (k : kbd) : Prop := {
  ring_len : length (queue k) = 256%nat;
  ring_head : 0 <= q_head k < QSIZE;
  ring_tail : 0 <= q_tail k < QSIZE
}.

Definition q_len (k : kbd) : Z := (q_head k - q_tail k) mod QSIZE.
Definition q_slot (k : kbd) (i : Z) : Z := default 0 (queue k !! Z.to_nat ((q_tail k + i) mod QSIZE)).
Definition q_list (k : kbd) : list Z := map (q_slot k) (zseq 0 (Z.to_nat (q_len k))).

Lemma q_len_bounds k : 0 <= q_len k < 256.
Proof. unfold q_len, QSIZE. Z.div_mod_to_equations. lia. Qed.
Lemma q_list_length k : Z.of_nat (length (q_list k)) = q_len k.
Proof. unfold q_list. rewrite length_map, length_zseq. pose proof (q_len_bounds k). lia. Qed.

Lemma q_empty_spec k : ring_ok k → q_empty k = true ↔ q_list k = [].
Proof.
  intros [_ Hh Ht]. unfold q_empty, q_list. rewrite Z.eqb_eq. split.
  - intros E. unfold q_len. by rewrite E, Z.sub_diag.
  - intros E. assert (Z.to_nat (q_len k) = 0%nat) as Hn by (by destruct (Z.to_nat (q_len k))).
    unfold q_len, QSIZE in *. Z.div_mod_to_equations. lia.
Qed.

Lemma q_room_spec k : ring_ok k → q_room k = 255 - Z.of_nat (length (q_list k)).
Proof.
  intros [_ Hh Ht]. rewrite q_list_length. unfold q_room, q_len, QSIZE in *. Z.div_mod_to_equations. lia.
Qed.

Lemma q_full_spec k : ring_ok k → q_full k = true ↔ length (q_list k) = 255%nat.
Proof.
  intros [_ Hh Ht]. pose proof (q_list_length k). unfold q_full, q_len, QSIZE in *. rewrite Z.eqb_eq.
  Z.div_mod_to_equations. lia.
Qed.

Lemma q_push_spec c k : ring_ok k →
  ring_ok (q_push c k) ∧ q_list (q_push c k) = if (length (q_list k) <? 255)%nat then q_list k ++ [c] else q_list k.
Proof.
  intros Hk. pose proof (q_full_spec k Hk) as Hf. pose proof (q_list_length k) as Hlen. pose proof (q_len_bounds k).
  destruct Hk as [Hl Hh Ht]. unfold q_push. change ((q_head k + 1) mod QSIZE =? q_tail k) with (q_full k).
  destruct (q_full k) eqn:E; cbn [negb].
  - destruct Hf as [Hf _]. rewrite Hf by done. by split.
  - assert (length (q_list k) ≠ 255%nat) as Hne by (intros Hx; apply Hf in Hx; congruence).
    destruct (Nat.ltb_spec (length (q_list k)) 255); [|lia].
    set (k' := set_q_head _ _). assert (q_len k' = q_len k + 1) as Hlen'.
    { unfold q_len. subst k'. cbn. unfold q_len, QSIZE in *. Z.div_mod_to_equations. lia. }
    split; [constructor; subst k'; cbn; [by rewrite length_insert|apply Z.mod_pos_bound; done|done]|].
    unfold q_list. rewrite Hlen'. replace (Z.to_nat (q_len k + 1)) with (S (Z.to_nat (q_len k))) by lia.
    rewrite zseq_snoc, map_app. cbn [map]. f_equal.
    + apply map_zseq_ext. intros i Hi. unfold q_slot. subst k'. cbn.
      rewrite list_lookup_insert_ne; [done|]. unfold q_len, QSIZE in *. Z.div_mod_to_equations. lia.
    + f_equal. unfold q_slot. rewrite Z.add_0_l.
      replace ((q_tail k' + Z.of_nat (Z.to_nat (q_len k))) mod QSIZE) with (q_head k).
      * change (queue k') with (<[Z.to_nat (q_head k):=c]> (queue k)).
        rewrite list_lookup_insert_eq; [done|]. unfold QSIZE in *. lia.
      * change (q_tail k') with (q_tail k). unfold q_len, QSIZE in *. rewrite Z2Nat.id by lia. Z.div_mod_to_equations. lia.
Qed.

Lemma q_pop_spec k c l : ring_ok k → q_list k = c :: l → (q_pop k).1 = c ∧ ring_ok (q_pop k).2 ∧ q_list (q_pop k).2 = l.
Proof.
  intros [Hl Hh Ht] E. pose proof (q_list_length k) as Hlen. rewrite E in Hlen. cbn [length] in Hlen.
  unfold q_list in *. destruct (Z.to_nat (q_len k)) as [|n] eqn:En; [done|]. cbn [zseq map] in E. injection E as Hc Hr.
  assert (q_len (q_pop k).2 = q_len k - 1) as Hlen'.
  { unfold q_len, q_pop in *. cbn. unfold QSIZE in *. Z.div_mod_to_equations. lia. }
  split_and!.
  - rewrite <- Hc. unfold q_slot. rewrite Z.add_0_r, Z.mod_small by done. done.
  - constructor; [done|done|]. apply Z.mod_pos_bound. done.
  - rewrite Hlen'. replace (Z.to_nat (q_len k - 1)) with n by lia. rewrite <- Hr, map_zseq_shift.
    apply map_zseq_ext. intros i Hi. unfold q_slot, q_pop. cbn.
    do 3 f_equal. rewrite Zplus_mod_idemp_l. f_equal. lia.
Qed.

(** What the ring is meant to be: a queue that drops when it holds 255, and
    tells its length.  A test answers 1 or 0. *)
Inductive q_op : Set := Push (c : Z) | Pop | IsEmpty | IsFull | Room.
Definition ring_step (o : q_op) (k : kbd) : option Z * kbd :=
  match o with
  | Push c => (None, q_push c k)
  | Pop => if q_empty k then (None, k) else let '(c, k) := q_pop k in (Some c, k)
  | IsEmpty => (Some (if q_empty k then 1 else 0), k)
  | IsFull => (Some (if q_full k then 1 else 0), k)
  | Room => (Some (q_room k), k)
  end.
Definition queue_step (o : q_op) (l : list Z) : option Z * list Z :=
  match o, l with
  | Push c, _ => (None, if (length l <? 255)%nat then l ++ [c] else l)
  | Pop, [] => (None, [])
  | Pop, c :: l => (Some c, l)
  | IsEmpty, _ => (Some (if (length l =? 0)%nat then 1 else 0), l)
  | IsFull, _ => (Some (if (length l =? 255)%nat then 1 else 0), l)
  | Room, _ => (Some (255 - Z.of_nat (length l)), l)
  end.
Fixpoint ring_run (os : list q_op) (k : kbd) : list (option Z) :=
  match os with [] => [] | o :: os => let '(r, k) := ring_step o k in r :: ring_run os k end.
Fixpoint queue_run (os : list q_op) (l : list Z) : list (option Z) :=
  match os with [] => [] | o :: os => let '(r, l) := queue_step o l in r :: queue_run os l end.

(** C30: the read-ahead ring is a queue.  Over any sequence of pushes, pops
    and questions the 256-cell ring with its two indices answers exactly what
    a list used first-in first-out answers: a push is dropped only when 255
    bytes wait, and [q_empty], [q_full] and [q_room] tell its length. *)
Theorem ring_is_queue os k : ring_ok k → ring_run os k = queue_run os (q_list k).
Proof.
  revert k. induction os as [|o os IH]; intros k Hk; [done|]. cbn [ring_run queue_run].
  destruct o as [c| | | |]; cbn [ring_step queue_step].
  - destruct (q_push_spec c k Hk) as [Hk' E]. by rewrite IH, E.
  - destruct (q_list k) as [|c l] eqn:E.
    + apply (q_empty_spec k Hk) in E as E'. rewrite E', IH, E by done. done.
    + assert (q_empty k = false) as -> by (destruct (q_empty k) eqn:Ee; [apply (q_empty_spec k Hk) in Ee; congruence|done]).
      destruct (q_pop_spec k c l Hk E) as (Hc & Hk' & E'). destruct (q_pop k) as [c' k']. cbn [fst snd] in *. by rewrite IH, Hc, E'.
  - rewrite IH by done. do 3 f_equal. pose proof (q_empty_spec k Hk) as He.
    destruct (q_empty k), (Nat.eqb_spec (length (q_list k)) 0) as [Hl|Hl]; try done.
    + destruct Hl. by rewrite (proj1 He).
    + apply nil_length_inv in Hl. by apply He in Hl.
  - rewrite IH by done. do 3 f_equal. pose proof (q_full_spec k Hk) as Hf.
    destruct (q_full k), (Nat.eqb_spec (length (q_list k)) 255); by intuition.
  - rewrite IH by done. by rewrite (q_room_spec k Hk).
Qed.

Definition empty_ring : kbd :=
  mk_kbd (replicate 256 0) 0 0 0 0 0 0 false false false 0 false keymap_defaults [] 0 0 false 0 [] 0 0 0 0 false 0 0.

Lemma empty_ring_ok : ring_ok empty_ring.
Proof. split; [by vm_compute|by split|by split]. Qed.

Example ring_is_queue_witness :
  ring_run [IsEmpty; Push 65; Push 66; Room; Pop; Push 67; IsFull; Pop; Pop; Pop] empty_ring =
  [Some 1; None; None; Some 253; Some 65; None; Some 0; Some 66; Some 67; None].
Proof. rewrite (ring_is_queue _ _ empty_ring_ok). by vm_compute. Defined.

(** ** Host keys *)

(** Only the ring moved. *)
Definition ring_only (k k' : kbd) : Prop := ∃ q h t, k' = set_q_tail t (set_q_head h (set_queue q k)).

Lemma ring_only_push c k : ring_only k (q_push c k).
Proof. unfold q_push. exists (queue (q_push c k)), (q_head (q_push c k)), (q_tail k). unfold q_push. by case_match. Qed.
#[export] Instance ring_only_preorder : PreOrder ring_only.
Proof.
  split; [by intros k; exists (queue k), (q_head k), (q_tail k)|].
  intros k1 k2 k3 (q & h & t & ->) (q' & h' & t' & ->). by exists q', h', t'.
Qed.

Lemma q_push_all_spec cs k :
  ring_ok k → Z.of_nat (length cs) <= q_room k →
  ring_ok (q_push_all cs k) ∧ q_list (q_push_all cs k) = q_list k ++ cs ∧ ring_only k (q_push_all cs k).
Proof.
  unfold q_push_all. revert k. induction cs as [|c cs IH]; intros k Hk Hr; cbn [fold_left length] in *.
  { by rewrite app_nil_r. }
  rewrite q_room_spec in Hr by done. destruct (q_push_spec c k Hk) as [Hk' E].
  destruct (Nat.ltb_spec (length (q_list k)) 255); [|lia].
  destruct (IH (q_push c k) Hk') as (H1 & H2 & H3).
  - rewrite q_room_spec, E, length_app by done. cbn [length]. lia.
  - split_and!; [done| |etrans; [apply ring_only_push|exact H3]]. by rewrite H2, E, <- app_assoc.
Qed.

Lemma translate_len m seq n : (length (kaypro_kbd_translate m seq (S n)) <= S n)%nat.
Proof.
  unfold kaypro_kbd_translate. destruct seq as [|c [|c' seq]]; [cbn; lia| |].
  - destruct (_ || _); [rewrite length_take; lia|cbn; lia].
  - destruct (key_for_sequence _); [rewrite length_take; lia|cbn; lia].
Qed.

Lemma token_len_pos c l : (1 <= token_len (c :: l))%nat.
Proof.
  unfold token_len. repeat case_match; lia.
Qed.

Lemma csi_len_le l : (csi_len l <= length l)%nat.
Proof. induction l as [|x l IH]; [done|]. cbn. case_match; lia. Qed.
Lemma token_len_le c l : (token_len (c :: l) <= length (c :: l))%nat.
Proof.
  unfold token_len. repeat case_match; subst; cbn [length]; try lia.
  match goal with |- context [csi_len ?l] => pose proof (csi_len_le l) end. lia.
Qed.

(** All the keys of a run of host bytes, each token translated once. *)
Fixpoint keys_loop (fuel : nat) (m : list (list Z)) (buf : list Z) : list Z :=
  match fuel, buf with
  | O, _ | _, [] => []
  | S fuel, _ => kaypro_kbd_translate m (take (token_len buf) buf) 8 ++ keys_loop fuel m (drop (token_len buf) buf)
  end.
Definition keys_of (m : list (list Z)) (buf : list Z) : list Z := keys_loop (length buf) m buf.

Lemma keys_fuel m f buf : (length buf <= f)%nat → keys_loop f m buf = keys_of m buf.
Proof.
  assert (∀ f1 f2 buf, (length buf <= f1)%nat → (length buf <= f2)%nat → keys_loop f1 m buf = keys_loop f2 m buf) as H.
  { induction f1 as [|f1 IH]; intros f2 [|c l] H1 H2; [by destruct f2|cbn in H1; lia|by destruct f2|].
    destruct f2 as [|f2]; [cbn in H2; lia|]. cbn [keys_loop]. f_equal. pose proof (token_len_pos c l).
    apply IH; rewrite length_drop; cbn [length] in *; lia. }
  intros Hf. by apply H.
Qed.

Lemma keys_cons m c buf :
  keys_of m (c :: buf) = kaypro_kbd_translate m (take (token_len (c :: buf)) (c :: buf)) 8 ++
    keys_of m (drop (token_len (c :: buf)) (c :: buf)).
Proof.
  unfold keys_of at 1. cbn [length keys_loop]. f_equal. apply keys_fuel.
  pose proof (token_len_pos c buf). rewrite length_drop. cbn [length]. lia.
Qed.

Lemma drain_loop_spec fuel buf queued k rest q k' :
  ring_ok k → (length buf <= fuel)%nat → drain_loop fuel buf queued k = Some (rest, q, k') →
  ring_ok k' ∧ ring_only k k' ∧ q_list k' ++ keys_of (keymap k) rest = q_list k ++ keys_of (keymap k) buf ∧
  (∃ n, rest = drop n buf ∧ (n <= length buf)%nat) ∧ (rest = [] ∨ q_room k' < 8).
Proof.
  revert buf queued k. induction fuel as [|fuel IH]; intros buf queued k Hk Hf.
  { destruct buf; [|cbn in Hf; lia]. intros [= <- <- <-]. split_and!; try done; [by exists 0%nat|by left]. }
  destruct buf as [|c buf]; [intros [= <- <- <-]; split_and!; try done; [by exists 0%nat|by left]|].
  cbn [drain_loop]. destruct (Z.ltb_spec (q_room k) 8) as [Hr|Hr].
  { intros [= <- <- <-]. split_and!; try done; [exists 0%nat; split; [done|lia]|by right]. }
  destruct (c =? 0x1D); [done|]. set (n := token_len (c :: buf)) in *. pose proof (token_len_pos c buf) as Hn. fold n in Hn.
  set (out := kaypro_kbd_translate _ _ 8). pose proof (translate_len (keymap k) (take n (c :: buf)) 7) as Hlen. fold out in Hlen.
  destruct (q_push_all_spec out k Hk ltac:(lia)) as (Hk1 & E1 & Ho1).
  intros Hd. apply IH in Hd; [|done|rewrite length_drop; cbn [length] in *; lia].
  destruct Hd as (Hk' & Ho & E & (j & Hj & Hjl) & Hstop).
  assert (keymap (q_push_all out k) = keymap k) as Hm by (destruct Ho1 as (?&?&?& ->); done). rewrite Hm in E.
  split_and!; [done|by etrans| | |done].
  - rewrite E, E1, keys_cons, <- app_assoc. done.
  - exists (n + j)%nat. rewrite <- drop_drop. rewrite length_drop in Hjl. split; [done|].
    pose proof (token_len_le c buf) as Hle. fold n in Hle. cbn [length] in *. lia.
Qed.

(** The host buffer's indices. *)
Definition hbuf_ok (k : kbd) : Prop := 0 <= hoff k <= hlen k ∧ hlen k <= Z.of_nat (length (hbuf k)).

Lemma pending_len k : hbuf_ok k → Z.of_nat (length (pending k)) = hlen k - hoff k.
Proof. intros [H1 H2]. unfold pending. rewrite length_take, length_drop. lia. Qed.

(** Draining the host buffer loses nothing.  The keys waiting in the
    ring followed by the keys still in the host buffer are, in order, what
    they were before: every host byte or sequence taken is translated
    exactly once and none of its bytes is dropped by a full ring.  It stops
    only when the buffer is used up or fewer than eight cells are free. *)
Theorem drain_conserves k queued k' :
  ring_ok k → hbuf_ok k → host_drain k = Some (queued, k') →
  ring_ok k' ∧ hbuf_ok k' ∧
  q_list k' ++ keys_of (keymap k') (pending k') = q_list k ++ keys_of (keymap k) (pending k) ∧
  (pending k' = [] ∨ q_room k' < 8).
Proof.
  intros Hk Hb. unfold host_drain. cbv zeta.
  destruct (drain_loop _ _ _ _) as [[[rest q] k1]|] eqn:Hd; [|done].
  destruct (drain_loop_spec _ _ _ _ _ _ _ Hk (le_n _) Hd) as (Hk1 & Ho & E & (n & Hr & Hn) & Hstop).
  pose proof (pending_len k Hb) as Hp. destruct Hb as [Hb1 Hb2].
  assert (hlen k1 = hlen k ∧ hoff k1 = hoff k ∧ hbuf k1 = hbuf k ∧ keymap k1 = keymap k) as (E1 & E2 & E3 & E4)
    by (destruct Ho as (?&?&?& ->); done).
  assert (Z.of_nat (length rest) = Z.of_nat (length (pending k)) - Z.of_nat n) as Hlr by (subst rest; rewrite length_drop; lia).
  rewrite E1, E2. destruct (Z.eqb_spec (hoff k + (Z.of_nat (length (pending k)) - Z.of_nat (length rest))) (hlen k)) as [He|He];
    intros [= _ <-].
  - assert (rest = []) as -> by (apply nil_length_inv; lia).
    split_and!; [by destruct Hk1|split; cbn; rewrite ?E1, ?E3; lia| |by left].
    rewrite <- E, <- E4. done.
  - assert (hoff k + (Z.of_nat (length (pending k)) - Z.of_nat (length rest)) = hoff k + Z.of_nat n) as -> by lia.
    assert (pending (set_hoff (hoff k + Z.of_nat n) k1) = rest) as Hpr.
    { unfold pending at 1. cbn. rewrite E1, E3, Hr. unfold pending. rewrite skipn_firstn_comm, drop_drop.
      f_equal; [lia|f_equal; lia]. }
    split_and!; [by destruct Hk1|split; cbn; rewrite ?E1, ?E3; lia| |by rewrite Hpr].
    change (keymap (set_hoff ?v k1)) with (keymap k1). rewrite Hpr, E4. exact E.
Qed.

(** Up arrow, [x], Delete. *)
Definition typed : kbd :=
  set_hlen 8 (set_hbuf ([0x1B] ++ str "[Ax" ++ [0x1B] ++ str "[3~") empty_ring).

Example drain_conserves_witness :
  ∃ k', host_drain typed = Some (true, k') ∧ q_list k' ++ keys_of (keymap k') (pending k') = [0x0B; chr "x"; 0x7F].
Proof.
  destruct (host_drain typed) as [[q k']|] eqn:E; [|by vm_compute in E].
  exists k'. split; [f_equal; f_equal; by vm_compute in E; injection E as <-|].
  destruct (drain_conserves typed q k' ltac:(by destruct empty_ring_ok) ltac:(by split) E) as (_ & _ & -> & _). by vm_compute.
Defined.

(** ** Scripts *)

Definition step_bytes (s : step_t) : list Z := match s with ST_BYTES bs => bs | _ => [] end.

(** The text of the steps before the end. *)
Fixpoint text_from (l : list step_t) : list Z :=
  match l with
  | [] | ST_END :: _ => []
  | s :: l => step_bytes s ++ text_from l
  end.

(** What the guest has still to read. *)
Definition script_text (k : kbd) : list Z := q_list k ++ drop (step_off k) (text_from (drop (cur_step k) (steps k))).

Record script_ok (k : kbd) : Prop := {
  script_ring : ring_ok k;
  script_on : scripted k = true;
  script_bytes : Forall (λ s, s ≠ ST_BYTES []) (steps k);
  script_end : last (steps k) = Some ST_END;
  script_in : (cur_step k < length (steps k))%nat;
  script_off : match steps k !! cur_step k with
               | Some (ST_BYTES bs) => (step_off k < length bs)%nat
               | _ => step_off k = 0%nat
               end
}.

Lemma drop_steps (l : list step_t) n s : l !! n = Some s → drop n l = s :: drop (S n) l.
Proof. apply drop_S. Qed.

Lemma next_in (l : list step_t) n s :
  last l = Some ST_END → l !! n = Some s → s ≠ ST_END → (S n < length l)%nat.
Proof.
  intros Hl Hn Hne. pose proof (lookup_lt_Some _ _ _ Hn). destruct (decide (S n = length l)) as [E|]; [|lia].
  rewrite last_lookup, <- E in Hl. cbn in Hl. congruence.
Qed.

(** The steps and the place in them. *)
Definition same_place (k k' : kbd) : Prop :=
  steps k' = steps k ∧ cur_step k' = cur_step k ∧ scripted k' = scripted k.

Lemma feed_spec fuel bs k :
  ring_ok k → (step_off k <= length bs)%nat → (length bs <= step_off k + fuel)%nat →
  ring_ok (feed fuel bs k) ∧ same_place k (feed fuel bs k) ∧ (step_off (feed fuel bs k) <= length bs)%nat ∧
  q_list (feed fuel bs k) ++ drop (step_off (feed fuel bs k)) bs = q_list k ++ drop (step_off k) bs ∧
  (q_list k = [] → (step_off k < length bs)%nat → q_list (feed fuel bs k) ≠ []).
Proof.
  revert k. induction fuel as [|fuel IH]; intros k Hk Hle Hf; cbn [feed].
  { split_and!; try done. lia. }
  destruct (Nat.ltb_spec (step_off k) (length bs)) as [Hlt|Hge]; cbn [andb]; [|split_and!; try done; lia].
  destruct (q_full k) eqn:Hfull; cbn [negb].
  { split_and!; try done. intros Hq _. apply (q_full_spec k Hk) in Hfull. by rewrite Hq in Hfull. }
  assert (length (q_list k) < 255)%nat as Hroom.
  { pose proof (q_list_length k). pose proof (q_len_bounds k).
    destruct (decide (length (q_list k) = 255%nat)) as [E|]; [apply (q_full_spec k Hk) in E; congruence|lia]. }
  destruct (q_push_spec (at_ bs (step_off k)) k Hk) as [Hk1 E1]. destruct (Nat.ltb_spec (length (q_list k)) 255); [|lia].
  set (k1 := set_step_off (S (step_off k)) (q_push (at_ bs (step_off k)) k)).
  assert (ring_ok k1) as Hk1' by (by destruct Hk1). assert (q_list k1 = q_list k ++ [at_ bs (step_off k)]) as E1' by exact E1.
  assert (same_place k k1) as Hp by (destruct (ring_only_push (at_ bs (step_off k)) k) as (q & h & t & E); subst k1; by rewrite E).
  change (step_off k1) with (S (step_off k)) in *.
  destruct (IH k1 Hk1' ltac:(subst k1; cbn; lia) ltac:(subst k1; cbn; lia)) as (H1 & (P1 & P2 & P3) & H3 & H4 & _).
  destruct (lookup_lt_is_Some_2 bs (step_off k) Hlt) as [b Hb].
  assert (drop (step_off k) bs = at_ bs (step_off k) :: drop (S (step_off k)) bs) as Hdrop by (unfold at_; rewrite Hb; by apply drop_S).
  assert (q_list (feed fuel bs k1) ++ drop (step_off (feed fuel bs k1)) bs = q_list k ++ drop (step_off k) bs) as H4'.
  { rewrite H4, E1', Hdrop, <- app_assoc. done. }
  split_and!; [done| |done|done|].
  - destruct Hp as (Q1 & Q2 & Q3). split_and!; congruence.
  - intros Hq _ Habs. (* the first byte is in the ring *)
    clear IH H4' Hdrop Hb b H3 H1 P1 P2 P3. assert (∀ f k, ring_ok k → q_list k ≠ [] → q_list (feed f bs k) ≠ []) as Hkeep.
    { clear. intros f. induction f as [|f IH]; intros k Hk Hne; cbn [feed]; [done|]. case_match; [|done].
      destruct (q_push_spec (at_ bs (step_off k)) k Hk) as [Hk1 E1]. apply IH; [by destruct Hk1|].
      change (q_list (set_step_off ?n ?k')) with (q_list k'). rewrite E1. case_match; [by destruct (q_list k)|done]. }
    revert Habs. apply Hkeep; [done|]. rewrite E1'. by destruct (q_list k).
Qed.

Section Delivery.
Context {H : Type} `{KbdHost H}.

(** The next step's text starts where this one's ends. *)
Lemma step_done k s :
  script_ok k → steps k !! cur_step k = Some s → s ≠ ST_END → step_bytes s = [] →
  ∀ k', ring_ok k' → steps k' = steps k → cur_step k' = S (cur_step k) → scripted k' = true → step_off k' = 0%nat →
  q_list k' = q_list k → script_ok k' ∧ script_text k' = script_text k.
Proof using Type.
  intros [Hr Hs Hb He Hi Ho] Hlk Hne Hnil k' Hr' E1 E2 E3 E4 E5. rewrite Hlk in Ho.
  assert (step_off k = 0%nat) as Ho' by (destruct s; try done; by cbn in Hnil; subst; cbn in Ho; lia).
  split; [constructor; [done|done|by rewrite E1|by rewrite E1|rewrite E1, E2; by eapply next_in|]|].
  - rewrite E1, E2, E4. destruct (steps k !! S (cur_step k)) as [[]|] eqn:E; try done.
    apply Forall_lookup_1 with (i := S (cur_step k)) (x := ST_BYTES bytes) in Hb; [|done]. destruct bytes; [done|cbn; lia].
  - unfold script_text. rewrite E1, E2, E4, E5, Ho'. f_equal. rewrite (drop_steps _ _ _ Hlk). cbn [drop].
    destruct s; try done; cbn [text_from]; by rewrite Hnil.
Qed.

Definition advanced (reading : bool) (k : kbd) (res : Z * kbd * H) : Prop :=
  let '(r, k', _) := res in
  script_ok k' ∧ script_text k' = script_text k ∧
  (r = 1 ∧ q_list k' ≠ [] ∨ r = 0 ∧ q_list k' = [] ∧ reading = false ∨ r = -1 ∧ q_list k' = [] ∧ script_text k' = []).

Lemma bytes_step k bs :
  script_ok k → q_list k = [] → steps k !! cur_step k = Some (ST_BYTES bs) →
  let k1 := feed (length bs) bs k in
  let k2 := if (step_off k1 =? length bs)%nat then next_step (set_step_off 0 k1) else k1 in
  script_ok k2 ∧ script_text k2 = script_text k ∧ q_list k2 ≠ [].
Proof using Type.
  intros Hk Hq Hlk. pose proof Hk as [Hr Hs Hb He Hi Ho]. rewrite Hlk in Ho.
  destruct (feed_spec (length bs) bs k Hr ltac:(lia) ltac:(lia)) as (H1 & (P1 & P2 & P3) & H3 & H4 & H5).
  specialize (H5 Hq Ho). cbv zeta. set (k1 := feed (length bs) bs k) in *.
  assert (script_text k1 = script_text k) as Ht1.
  { unfold script_text. rewrite P1, P2, (drop_steps _ _ _ Hlk). cbn [text_from step_bytes].
    rewrite !drop_app_le by lia. rewrite !app_assoc. by rewrite H4. }
  destruct (Nat.eqb_spec (step_off k1) (length bs)) as [E|E].
  - split_and!; [| |done].
    + constructor; [by destruct H1|by rewrite <- Hs|by cbn; rewrite P1|by cbn; rewrite P1|cbn; rewrite P1, P2; by eapply next_in|].
      cbn. rewrite P1, P2.
      destruct (steps k !! S (cur_step k)) as [[]|] eqn:E'; try done.
      apply Forall_lookup_1 with (i := S (cur_step k)) (x := ST_BYTES bytes) in Hb; [|done]. destruct bytes; [done|cbn; lia].
    + rewrite <- Ht1. unfold script_text. cbn. rewrite P1, P2, (drop_steps _ _ _ Hlk). cbn [text_from step_bytes].
      rewrite drop_app_le, E, drop_all by lia. done.
  - split_and!; [|done|done]. constructor; [done|congruence|by rewrite P1|by rewrite P1|by rewrite P1, P2|]. rewrite P1, P2, Hlk. lia.
Qed.

Lemma advance_spec fuel reading k (h : H) :
  script_ok k → (length (steps k) < fuel + cur_step k)%nat → advanced reading k (script_advance fuel reading k h).
Proof using Type.
  revert k h. induction fuel as [|fuel IH]; intros k h Hk Hf; cbn [script_advance].
  { pose proof (script_in k Hk). lia. }
  pose proof Hk as [Hr Hs Hb He Hi Ho].
  destruct (q_empty k) eqn:Eq; cbn [negb].
  2:{ split_and!; [done|done|]. left. split; [done|]. intros Hq. apply (q_empty_spec k Hr) in Hq. congruence. }
  apply (q_empty_spec k Hr) in Eq. destruct (lookup_lt_is_Some_2 _ _ Hi) as [s Hlk]. rewrite Hlk.
  assert (s ≠ ST_END → step_bytes s = [] → ∀ k' h', ring_ok k' → steps k' = steps k → cur_step k' = S (cur_step k) →
    scripted k' = true → step_off k' = 0%nat → q_list k' = q_list k → advanced reading k (script_advance fuel reading k' h')) as Hskip.
  { intros Hne Hnil k' h' H1 H2 H3 H4 H5 H6. destruct (step_done k s Hk Hlk Hne Hnil k') as [Hk' Ht]; try done.
    pose proof (IH k' h' Hk' ltac:(rewrite H2, H3; lia)) as Ha. unfold advanced in *.
    destruct (script_advance _ _ _ _) as [[r k2] h2]. rewrite <- Ht. exact Ha. }
  assert (step_bytes s = [] → step_off k = 0%nat) as Hoff by (rewrite Hlk in Ho; destruct s; try done; cbn; intros ->; cbn in Ho; lia).
  destruct s as [bs|a|a|p a|a|a|]; try (apply Hskip; try done; [by destruct Hr|by apply Hoff]).
  - destruct (bytes_step k bs Hk Eq Hlk) as (H1 & H2 & H3). split_and!; [done|done|by left].
  - set (k1 := if negb (idle_armed k) then _ else _).
    assert (ring_ok k1 ∧ same_place k k1 ∧ step_off k1 = step_off k ∧ q_list k1 = q_list k) as (H1 & (H2 & H3 & H4) & H5 & H6)
      by (subst k1; destruct (idle_armed k); by (split_and!; try done; destruct Hr)).
    destruct reading; cbn [orb].
    + apply Hskip; first [done|by destruct H1|exact (f_equal S H3)|exact (eq_trans H4 Hs)|cbn; rewrite H5; by apply Hoff].
    + destruct (idle_target k1 <=? 0).
      * apply Hskip; first [done|by destruct H1|exact (f_equal S H3)|exact (eq_trans H4 Hs)|cbn; rewrite H5; by apply Hoff].
      * split_and!; [|unfold script_text; by rewrite H2, H3, H5, H6|right; left; by rewrite H6].
        constructor; [done|congruence|by rewrite H2|by rewrite H2|by rewrite H2, H3|by rewrite H2, H3, H5].
  - split_and!; [done|done|]. right; right. split_and!; [done|done|]. unfold script_text. rewrite Eq, (drop_steps _ _ _ Hlk). cbn.
    by rewrite drop_nil.
Qed.

(** ** Reading and polling a script *)

Inductive guest_act : Set := DoPoll | DoRead | DoOutput.

(** What the reads of a sequence of calls return; [None]: the emulator has
    exited. *)
Fixpoint guest_input (acts : list guest_act) (k : kbd) (h : H) : option (list Z * kbd * H) :=
  match acts with
  | [] => Some ([], k, h)
  | DoOutput :: acts => guest_input acts (kaypro_kbd_note_activity k) h
  | DoPoll :: acts => match kaypro_kbd_poll k h with Some (_, k, h) => guest_input acts k h | None => None end
  | DoRead :: acts =>
      match kaypro_kbd_read 0 k h with
      | Some (c, k, h) => match guest_input acts k h with Some (got, k, h) => Some (c :: got, k, h) | None => None end
      | None => None
      end
  end.

Definition n_reads_of (acts : list guest_act) : nat := length (List.filter (λ a, match a with DoRead => true | _ => false end) acts).

(** Fields the script's text does not depend on. *)
Definition same_text (k k' : kbd) : Prop := script_ok k → script_ok k' ∧ script_text k' = script_text k.

Lemma paced_same k : same_text k (paced_out k).2.
Proof using Type. unfold paced_out, same_text. case_match; [done|]. intros []. split; [|done]. constructor; try done. by destruct script_ring0. Qed.
Lemma gated_same k : same_text k (gated k).2.
Proof using Type.
  unfold gated, same_text. case_match; [done|]. cbv zeta. case_match; intros []; (split; [|done]); constructor; try done; by destruct script_ring0.
Qed.

Lemma fuel_enough k : script_ok k → (length (steps k) < script_fuel k + cur_step k)%nat.
Proof using Type. intros [_ _ _ _ Hi _]. unfold script_fuel. lia. Qed.

Lemma same_fields k k' :
  script_ok k → queue k' = queue k → q_head k' = q_head k → q_tail k' = q_tail k → steps k' = steps k →
  cur_step k' = cur_step k → step_off k' = step_off k → scripted k' = scripted k →
  script_ok k' ∧ script_text k' = script_text k.
Proof using Type.
  intros [[H1 H2 H3] H4 H5 H6 H7 H8] E1 E2 E3 E4 E5 E6 E7. split.
  - constructor; [constructor|..]; rewrite ?E1, ?E2, ?E3, ?E4, ?E5, ?E6, ?E7; done.
  - unfold script_text, q_list, q_len, q_slot. by rewrite E1, E2, E3, E4, E5, E6.
Qed.

Lemma poll_same k h r k' h' : script_ok k → kaypro_kbd_poll k h = Some (r, k', h') → script_ok k' ∧ script_text k' = script_text k.
Proof using Type.
  intros Hk. unfold kaypro_kbd_poll. cbv zeta. set (k0 := set_n_polls _ k).
  destruct (same_fields k k0 Hk) as [Hk0 E0]; try done. rewrite <- E0. clearbody k0. clear E0 Hk k.
  destruct (q_empty k0); cbn [negb].
  - rewrite (script_on k0 Hk0). unfold poll_scripted.
    pose proof (advance_spec (script_fuel k0) false k0 h Hk0 (fuel_enough k0 Hk0)) as Ha.
    destruct (script_advance _ _ _ _) as [[r1 k1] h1]. destruct Ha as (Hk1 & E1 & _). rewrite <- E1. clear E1 Hk0 k0.
    destruct (r1 =? 1).
    + destruct (paced_same k1 Hk1) as [Hp E2]. rewrite <- E2. clear E2.
      destruct (paced_out k1) as [[] k2]; cbn [snd] in *; intros [= <- <- <-]; [done|by apply same_fields].
    + set (k2 := if _ : bool then set_idle_target _ k1 else k1).
      assert (script_ok k2 ∧ script_text k2 = script_text k1) as [Hk2 E2] by (subst k2; case_match; [by apply same_fields|done]).
      rewrite <- E2. clearbody k2. clear E2.
      assert (script_ok (note_empty k2) ∧ script_text (note_empty k2) = script_text k2) as Hk3
        by (unfold note_empty; cbv zeta; case_match; by apply same_fields).
      case_match; [done|]. by intros [= <- <- <-].
  - destruct (paced_same k0 Hk0) as [Hp E1]. rewrite <- E1. clear E1.
    destruct (paced_out k0) as [[] k1]; cbn [snd] in *; [by intros [= <- <- <-]|]. clear Hk0 k0.
    destruct (gated_same k1 Hp) as [Hg E2]. rewrite <- E2. clear E2.
    destruct (gated k1) as [[] k2]; cbn [snd] in *; intros [= <- <- <-]; [done|by apply same_fields].
Qed.

(** Taking one byte of the ring. *)
Lemma pop_text k c l : script_ok k → q_list k = c :: l →
  (q_pop k).1 = c ∧ script_ok (q_pop k).2 ∧ script_text k = c :: script_text (q_pop k).2.
Proof using Type.
  intros [Hr H1 H2 H3 H4 H5] E. destruct (q_pop_spec k c l Hr E) as (Ec & Hr' & El). split_and!; [done|by constructor|].
  unfold script_text. by rewrite E, El.
Qed.

Lemma read_same k h fuel : script_ok k →
  ∃ c k' h', kaypro_kbd_read fuel k h = Some (c, k', h') ∧ script_ok k' ∧
  match script_text k with [] => c = KBD_END ∧ script_text k' = [] | x :: t => c = x ∧ script_text k' = t end.
Proof using Type.
  intros Hk. unfold kaypro_kbd_read. cbv zeta. set (k0 := set_gate_open true _).
  destruct (same_fields k k0 Hk) as [Hk0 E0]; try done. rewrite <- E0. clearbody k0. clear E0 Hk k.
  destruct (q_empty k0) eqn:Eq; cbn [negb].
  - rewrite (script_on k0 Hk0).
    pose proof (advance_spec (script_fuel k0) true k0 h Hk0 (fuel_enough k0 Hk0)) as Ha.
    destruct (script_advance _ _ _ _) as [[r1 k1] h1]. destruct Ha as (Hk1 & Et & [[-> Hne]|[(_ & _ & ?)|(-> & Hn & Ht)]]); [|done|].
    + destruct (q_list k1) as [|c l] eqn:E; [done|]. destruct (pop_text k1 c l Hk1 E) as (Ec & Hk2 & Et2).
      cbn [Z.eqb Pos.eqb]. destruct (q_pop k1) as [c' k2]. cbn [fst snd] in *. subst c'.
      exists c, k2, h1. split_and!; [done|done|]. rewrite <- Et, Et2. done.
    + exists KBD_END, k1, h1. split_and!; [done|done|]. rewrite <- Et, Ht. done.
  - destruct (q_list k0) as [|c l] eqn:E; [apply (q_empty_spec k0 (script_ring k0 Hk0)) in E; congruence|].
    destruct (pop_text k0 c l Hk0 E) as (Ec & Hk2 & Et2). unfold pop_key. destruct (q_pop k0) as [c' k2]. cbn [fst snd] in *. subst c'.
    set (k3 := if _ : bool then _ else k2). exists c, k3, h. split; [done|].
    assert (script_ok k3 ∧ script_text k3 = script_text k2) as [Hk3 E3] by (subst k3; case_match; [by apply same_fields|done]).
    split; [done|]. by rewrite Et2, E3.
Qed.

(** C31: a script is typed exactly as written.  Whatever mixture of polls,
    reads and console output the guest makes, its reads return the script's
    text in order, one byte each, with no byte lost to a full ring, to
    pacing or to waits, and KBD_END once the text is used up. *)
Theorem script_delivered acts k h got k' h' :
  script_ok k → guest_input acts k h = Some (got, k', h') →
  got = take (n_reads_of acts) (script_text k) ++ replicate (n_reads_of acts - length (script_text k)) KBD_END ∧
  script_text k' = drop (n_reads_of acts) (script_text k).
Proof using Type.
  unfold n_reads_of. revert k h got k' h'. induction acts as [|[] acts IH]; intros k h got k' h' Hk; cbn [guest_input List.filter length].
  - intros [= <- <- <-]. by rewrite drop_0.
  - destruct (kaypro_kbd_poll k h) as [[[r k1] h1]|] eqn:E; [|done].
    destruct (poll_same k h r k1 h1 Hk E) as [Hk1 <-]. by apply IH.
  - destruct (read_same k h 0 Hk) as (c & k1 & h1 & -> & Hk1 & Hc).
    destruct (guest_input acts k1 h1) as [[[got1 k2] h2]|] eqn:E; [|done]. intros [= <- <- <-].
    destruct (IH k1 h1 got1 k2 h2 Hk1 E) as [-> E2]. destruct (script_text k) as [|x t].
    + destruct Hc as [-> Ht]. rewrite Ht in *. rewrite E2. by rewrite !take_nil, !drop_nil, !Nat.sub_0_r.
    + destruct Hc as [-> Ht]. rewrite Ht in *. by rewrite E2.
  - intros E. destruct (same_fields k (kaypro_kbd_note_activity k) Hk) as [Hk1 <-];
      try (unfold kaypro_kbd_note_activity; cbv zeta; by case_match). by apply (IH _ _ _ _ _ Hk1 E).
Qed.
End Delivery.

(** A host for scripts: nothing to read, steps without effect outside. *)
Definition no_host : KbdHost unit :=
  {| stdin_readable _ h := (false, h); stdin_read _ h := (None, h); look_due h := (true, h); idle_sleep h := h; step_io _ h := h |}.

Definition dir_script : list step_t :=
  [ST_WAIT_IDLE 2; ST_BYTES (str "dir"); ST_PACE 1; ST_BYTES [13]; ST_END].
Definition dir_kbd : kbd :=
  set_scripted true (set_steps dir_script
    (mk_kbd (replicate 256 0) 254 254 0 0 0 0 false false true 0 false [] [] 0 0 false 0 [] 0 0 0 0 false 0 0)).

Lemma dir_kbd_ok : script_ok dir_kbd.
Proof.
  constructor; [constructor; [reflexivity|vm_compute; intuition congruence|vm_compute; intuition congruence]|reflexivity| |
      reflexivity|vm_compute; lia|reflexivity].
  unfold dir_kbd, dir_script. cbn [steps set_steps set_scripted]. repeat constructor; discriminate.
Qed.

Lemma script_delivered_witness :
  ∃ k' h', guest_input (H0 := no_host) [DoPoll; DoOutput; DoPoll; DoRead; DoPoll; DoRead; DoRead; DoPoll; DoRead; DoRead] dir_kbd ()
           = Some (str "dir" ++ [13; KBD_END], k', h') ∧ script_text k' = [].
Proof.
  destruct (guest_input (H0 := no_host) [DoPoll; DoOutput; DoPoll; DoRead; DoPoll; DoRead; DoRead; DoPoll; DoRead; DoRead] dir_kbd ())
    as [[[got k'] h']|] eqn:E; [|by vm_compute in E].
  destruct (script_delivered (H0 := no_host) _ dir_kbd () got k' h' dir_kbd_ok E) as [Hg Ht].
  exists k', h'. split; [by rewrite Hg|by rewrite Ht].
Defined.

(** ** Text lines *)

(** A byte [parse_text] copies as it is. *)
Definition plain (c : Z) : Prop := c ≠ chr "~" ∧ c ≠ BACKSLASH.

Lemma parse_plain p : ∀ fuel buf acc, (length p < fuel)%nat → Forall plain p → (length buf <= BUF_SIZE)%nat →
  parse_text fuel p buf acc =
  if (length buf + length p <=? BUF_SIZE)%nat then Parsed (flush_bytes (buf ++ p) acc) else Overflow.
Proof.
  induction p as [|c p IH]; intros [|fuel] buf acc Hf Hp Hb; cbn [length parse_text] in *; try lia.
  - rewrite Nat.add_0_r, app_nil_r. by destruct (Nat.leb_spec (length buf) BUF_SIZE); [|lia].
  - inversion_clear Hp as [|? ? [Hc1 Hc2] Hp']. apply Z.eqb_neq in Hc1, Hc2. rewrite Hc1, Hc2. cbn [negb].
    destruct (Nat.leb_spec BUF_SIZE (length buf)) as [Hge|Hlt].
    + by destruct (Nat.leb_spec (length buf + S (length p)) BUF_SIZE); [lia|].
    + rewrite IH; [|lia|done|rewrite length_app; cbn; lia]. rewrite length_app, <- app_assoc. cbn [length app].
      by replace (length buf + 1 + length p)%nat with (length buf + S (length p))%nat by lia.
Qed.

(** A script line of plain characters is one typing step with those
    bytes if it has at most 1024 of them; a longer one, up to the 2047 that
    [kaypro_kbd_script_load] reads, is stored past the end of [buf], since
    only the escapes reach the check that flushes it. *)
Theorem parse_text_overflow fuel line :
  (length line < fuel)%nat → Forall plain line →
  parse_text fuel line [] [] = if (length line <=? 1024)%nat then Parsed (flush_bytes line []) else Overflow.
Proof. intros Hf Hp. rewrite parse_plain; [reflexivity|done|done|cbn; lia]. Qed.

Lemma parse_text_overflow_witness :
  parse_text 1100 (replicate 1025 (chr "x")) [] [] = Overflow ∧ parse_text 10 (str "dir a:") [] [] = Parsed [ST_BYTES (str "dir a:")].
Proof.
  split.
  - rewrite parse_text_overflow; [reflexivity|by apply Nat.ltb_lt|apply Forall_replicate; split; by vm_compute].
  - rewrite parse_text_overflow; [reflexivity|by apply Nat.ltb_lt|repeat constructor; by vm_compute].
Defined.
