(* ===== verification/HostFs.v ===== *)
(** * HostFs: what the disk layer asks of the host's C library

    [HostFs] is the interface of src/cpm/cpm_disk.c to stdio and POSIX: the
    calls it makes, with the results it looks at.  [FsLaws] is their
    documented effect on what a host can be asked for (its view): which
    file a name leads to, what a file holds, where a stream stands.
    [mem_fs] is a host that has them. *)

From Stdlib Require Import ZArith Lia Bool List.
From stdpp Require Import base gmap list.
From S2P Require Import Prelude.

Open Scope list_scope.
Open Scope Z_scope.

Definition FILE : Set := nat.
(** "r+b", "rb", "w+b". *)
Inductive open_mode : Set := RPlus | ROnly | WPlus.
#[export] Instance open_mode_eq_dec : EqDecision open_mode.
Proof. solve_decision. Defined.

(** [struct stat]: the size, [S_ISREG], the permission bits. *)
Record stat_t := mk_stat { st_size : Z; st_reg : bool; st_perm : Z }.

(** Names and paths are C strings without their NUL.  [fsize]: [fstat] of an
    open stream.  [opendir] gives the entries [readdir] will deliver. *)
Class HostFs (F : Type) := {
  fopen : open_mode → list Z → F → option FILE * F;
  fclose : FILE → F → F;
  fseek : FILE → Z → F → bool * F;
  fread : FILE → nat → F → list Z * F;
  fwrite : FILE → list Z → F → nat * F;
  fflush : FILE → F → F;
  fsize : FILE → F → option Z;
  stat : list Z → F → option stat_t;
  unlink : list Z → F → bool * F;
  rename : list Z → list Z → F → bool * F;
  chmod : list Z → Z → F → bool * F;
  opendir : list Z → F → option (list (list Z))
}.

(** ** The view *)

(** [streams]: the file a stream is on, and its position. *)
Record fs_view := mk_view {
  names : gmap (list Z) nat;
  files : gmap nat (list Z);
  streams : gmap FILE (nat * nat)
}.

(** Writing at a position, the gap before it filled with zeros. *)
Definition splice (pos : nat) (new old : list Z) : list Z :=
  take pos (old ++ replicate (pos - length old) 0) ++ new ++ drop (pos + length new) old.

Definition set_stream (h : FILE) (i pos : nat) (v : fs_view) : fs_view :=
  mk_view (names v) (files v) (<[h:=(i, pos)]> (streams v)).

Class FsLaws (F : Type) `{HostFs F} := {
  view : F → fs_view;
  fopen_some m p f h f' : fopen m p f = (Some h, f') →
    streams (view f) !! h = None ∧
    ∃ i, streams (view f') = <[h:=(i, 0%nat)]> (streams (view f)) ∧
         names (view f') !! p = Some i ∧
         (∀ q j, names (view f) !! q = Some j → names (view f') !! q = Some j) ∧
         match m with
         | WPlus => (names (view f) !! p = Some i ∨ files (view f) !! i = None) ∧
                    files (view f') = <[i:=[]]> (files (view f))
         | _ => names (view f) !! p = Some i ∧ is_Some (files (view f) !! i) ∧ files (view f') = files (view f)
         end;
  fopen_none m p f f' : fopen m p f = (None, f') → view f' = view f;
  fclose_view h f :
    view (fclose h f) = mk_view (names (view f)) (files (view f)) (delete h (streams (view f)));
  fseek_view h off f i pos : streams (view f) !! h = Some (i, pos) → 0 <= off →
    view (fseek h off f).2 =
      if (fseek h off f).1 then set_stream h i (Z.to_nat off) (view f) else view f;
  fread_view h n f i pos d : streams (view f) !! h = Some (i, pos) → files (view f) !! i = Some d →
    let bs := take n (drop pos d) in
    (fread h n f).1 = bs ∧ view (fread h n f).2 = set_stream h i (pos + length bs) (view f);
  fwrite_view h bs f i pos d : streams (view f) !! h = Some (i, pos) → files (view f) !! i = Some d →
    let n := (fwrite h bs f).1 in
    (n <= length bs)%nat ∧
    view (fwrite h bs f).2 =
      mk_view (names (view f)) (if (n =? 0)%nat then files (view f) else <[i:=splice pos (take n bs) d]> (files (view f)))
        (<[h:=(i, pos + n)%nat]> (streams (view f)));
  fflush_view h f : view (fflush h f) = view f;
  fsize_view h f i pos d : streams (view f) !! h = Some (i, pos) → files (view f) !! i = Some d →
    ∀ n, fsize h f = Some n → n = Z.of_nat (length d);
  stat_view p f st i d : names (view f) !! p = Some i → files (view f) !! i = Some d →
    stat p f = Some st → st_reg st = true → st_size st = Z.of_nat (length d)
}.

(** A host without faults: files can be opened for writing, the disk is
    never full. *)
Class FsHealth (F : Type) `{FsLaws F} := {
  healthy : F → Prop;
  healthy_open p f i : healthy f → names (view f) !! p = Some i → is_Some (files (view f) !! i) →
    is_Some (fopen RPlus p f).1;
  healthy_fopen m p f : healthy f → healthy (fopen m p f).2;
  healthy_close h f : healthy f → healthy (fclose h f);
  healthy_seek h off f : healthy f → is_Some (streams (view f) !! h) → 0 <= off →
    (fseek h off f).1 = true ∧ healthy (fseek h off f).2;
  healthy_read h n f : healthy f → healthy (fread h n f).2;
  healthy_write h bs f : healthy f → is_Some (streams (view f) !! h) →
    (fwrite h bs f).1 = length bs ∧ healthy (fwrite h bs f).2;
  healthy_flush h f : healthy f → healthy (fflush h f)
}.

Lemma splice_length pos new old : length (splice pos new old) = Nat.max (length old) (pos + length new).
Proof. unfold splice. rewrite !length_app, length_take, length_app, length_replicate, length_drop. lia. Qed.

(** What a write leaves where it was, and elsewhere. *)
Lemma splice_here pos new old : take (length new) (drop pos (splice pos new old)) = new.
Proof.
  unfold splice. rewrite drop_app_ge by (rewrite length_take, length_app, length_replicate; lia).
  rewrite length_take, length_app, length_replicate.
  replace (pos - pos `min` (length old + (pos - length old)))%nat with 0%nat by lia.
  by rewrite drop_0, take_app_le, firstn_all by lia.
Qed.
Lemma splice_lookup pos new old i :
  splice pos new old !! i =
  if decide (pos <= i < pos + length new)%nat then new !! (i - pos)%nat
  else if decide (i < length old)%nat then old !! i
  else if decide (i < pos)%nat then Some 0 else None.
Proof.
  unfold splice. assert (length (take pos (old ++ replicate (pos - length old) 0)) = pos) as Hl
    by (rewrite length_take, length_app, length_replicate; lia).
  destruct (decide (i < pos)%nat) as [Hi|Hi].
  - rewrite decide_False by lia. rewrite lookup_app_l by lia. rewrite lookup_take_lt by lia.
    destruct (decide (i < length old)%nat); [by rewrite lookup_app_l|].
    rewrite lookup_app_r by lia. by apply lookup_replicate_2; lia.
  - rewrite lookup_app_r by lia. rewrite Hl.
    destruct (decide (pos <= i < pos + length new)%nat).
    + by rewrite lookup_app_l by lia.
    + rewrite lookup_app_r, lookup_drop by lia.
      replace (pos + length new + (i - pos - length new))%nat with i by lia.
      destruct (decide (i < length old)%nat); [done|]. by rewrite lookup_ge_None_2 by lia.
Qed.

(** ** A host in memory *)

(** [quota]: the largest file it stores, if there is a limit; [ro]: the names without write
    permission. *)
Record mem_host := mk_mem { mem_view : fs_view; quota : option nat; ro : list (list Z) }.
Definition on_view (g : fs_view → fs_view) (f : mem_host) : mem_host := mk_mem (g (mem_view f)) (quota f) (ro f).

Definition read_only (p : list Z) (f : mem_host) : bool := existsb (λ q, bool_decide (q = p)) (ro f).

Definition mem_open (i : nat) (f : mem_host) : option FILE * mem_host :=
  let h := fresh (dom (streams (mem_view f))) in
  (Some h, on_view (set_stream h i 0) f).

Definition mem_fopen (m : open_mode) (p : list Z) (f : mem_host) : option FILE * mem_host :=
  let v := mem_view f in
  if negb (bool_decide (m = ROnly)) && read_only p f then (None, f)
  else match m, names v !! p with
  | WPlus, Some i => mem_open i (on_view (λ v, mk_view (names v) (<[i:=[]]> (files v)) (streams v)) f)
  | WPlus, None =>
      let i := fresh (dom (files v)) in
      mem_open i (on_view (λ v, mk_view (<[p:=i]> (names v)) (<[i:=[]]> (files v)) (streams v)) f)
  | _, Some i => match files v !! i with Some _ => mem_open i f | None => (None, f) end
  | _, None => (None, f)
  end.

Definition mem_fread (h : FILE) (n : nat) (f : mem_host) : list Z * mem_host :=
  match streams (mem_view f) !! h with
  | Some (i, pos) =>
      let bs := take n (drop pos (default [] (files (mem_view f) !! i))) in
      (bs, on_view (set_stream h i (pos + length bs)) f)
  | None => ([], f)
  end.

Definition mem_fwrite (h : FILE) (bs : list Z) (f : mem_host) : nat * mem_host :=
  match streams (mem_view f) !! h with
  | Some (i, pos) =>
      let n := match quota f with Some q => Nat.min (length bs) (q - pos) | None => length bs end in
      (n, on_view (λ v, mk_view (names v)
            (if (n =? 0)%nat then files v else <[i:=splice pos (take n bs) (default [] (files v !! i))]> (files v))
            (<[h:=(i, pos + n)%nat]> (streams v))) f)
  | None => (O, f)
  end.

Definition mem_stat (p : list Z) (f : mem_host) : option stat_t :=
  match names (mem_view f) !! p with
  | Some i => match files (mem_view f) !! i with
      | Some d => Some (mk_stat (Z.of_nat (length d)) true (if read_only p f then 0x124 else 0x1A4)) | None => None end
  | None => None
  end.

#[export] Instance mem_fs : HostFs mem_host := {|
  fopen := mem_fopen;
  fclose h f := on_view (λ v, mk_view (names v) (files v) (delete h (streams v))) f;
  fseek h off f := match streams (mem_view f) !! h with
                   | Some (i, _) => (true, on_view (set_stream h i (Z.to_nat off)) f) | None => (false, f) end;
  fread := mem_fread;
  fwrite := mem_fwrite;
  fflush _ f := f;
  fsize h f := match streams (mem_view f) !! h with
               | Some (i, _) => option_map (λ d, Z.of_nat (length d)) (files (mem_view f) !! i) | None => None end;
  stat := mem_stat;
  unlink p f := match names (mem_view f) !! p with
                | Some _ => (true, on_view (λ v, mk_view (delete p (names v)) (files v) (streams v)) f)
                | None => (false, f) end;
  rename p q f := match names (mem_view f) !! p with
                  | Some i => (true, on_view (λ v, mk_view (<[q:=i]> (delete p (names v))) (files v) (streams v)) f)
                  | None => (false, f) end;
  chmod p m f := (true, mk_mem (mem_view f) (quota f)
                   (if Z.land m 0x92 =? 0 then p :: ro f else List.filter (λ q, negb (bool_decide (q = p))) (ro f)));
  opendir _ f := Some (map_to_list (names (mem_view f))).*1
|}.

#[export] Instance mem_laws : FsLaws mem_host.
Proof.
  refine {| view := mem_view |}.
  - intros m p f h f'. cbn [fopen mem_fs]. unfold mem_fopen. case_match; [done|].
    destruct m; (destruct (names (mem_view f) !! p) as [i|] eqn:Hp; [|try done]); try (case_match; [|done]);
      unfold mem_open; cbn [mem_view on_view set_stream names files streams];
      intros [= <- <-]; cbn [mem_view on_view set_stream names files streams];
      (split; [apply not_elem_of_dom, is_fresh|]); eexists; (split; [reflexivity|]).
    + split_and!; [done|done|done|by eexists|done].
    + split_and!; [done|done|done|by eexists|done].
    + split_and!; [done|done|by left|done].
    + split_and!; [apply lookup_insert_eq| |right; apply not_elem_of_dom, is_fresh|done].
      intros q j Hq. rewrite lookup_insert_ne; [done|congruence].
  - intros m p f f'. cbn [fopen mem_fs]. unfold mem_fopen, mem_open. case_match; [by intros [= <-]|].
    repeat case_match; by intros [= <-].
  - done.
  - intros h off f i pos Hs Hoff. cbn [fseek mem_fs]. by rewrite Hs.
  - intros h n [v q r] i pos d Hs Hd bs. cbn in Hs, Hd. cbn [fread mem_fs]. unfold mem_fread. cbn [mem_view]. rewrite Hs.
    cbv beta iota zeta. cbn [fst snd]. rewrite Hd. done.
  - intros h bs [v q r] i pos d Hs Hd n. subst n. cbn in Hs, Hd. cbn [fwrite mem_fs]. unfold mem_fwrite. cbn [mem_view on_view]. rewrite Hs.
    cbv beta iota zeta. cbn [fst snd view mem_view on_view names files streams]. rewrite Hd. split; [case_match; lia|done].
  - done.
  - intros h [v q r] i pos d Hs Hd n. cbn in Hs, Hd. cbn [fsize mem_fs mem_view]. rewrite Hs. cbv beta iota. rewrite Hd. by intros [= <-].
  - intros p [v q r] st i d Hp Hd. cbn in Hp, Hd. cbn [stat mem_fs]. unfold mem_stat. cbn [mem_view]. rewrite Hp. cbv beta iota. rewrite Hd. by intros [= <-].
Defined.

#[export] Instance mem_health : FsHealth mem_host.
Proof.
  refine {| healthy f := quota f = None ∧ ro f = [] |}.
  - intros p [v q r] i [Hq Hr] Hp [d Hd]. cbn [fopen mem_fs view mem_laws mem_view quota ro] in *. subst.
    unfold mem_fopen, read_only. cbn [mem_view ro existsb]. rewrite andb_false_r, Hp. cbv beta iota zeta. rewrite Hd. by eexists.
  - intros m p f [Hq Hr]. cbn [fopen mem_fs]. unfold mem_fopen, mem_open. by repeat case_match.
  - by intros h [].
  - intros h off [v q r] [Hq Hr] [[i pos] Hs] Hoff. cbn [fseek mem_fs view mem_laws mem_view] in *. by rewrite Hs.
  - intros h n f [Hq Hr]. cbn [fread mem_fs]. unfold mem_fread. by repeat case_match.
  - intros h bs [v q r] [Hq Hr] [[i pos] Hs]. cbn [fwrite mem_fs view mem_laws mem_view quota ro] in *. subst.
    unfold mem_fwrite. cbn [mem_view quota]. by rewrite Hs.
  - done.
Defined.
