(* ===== verification/Disk.v ===== *)
(** * Disk: CP/M files on the host (src/cpm/cpm_disk.c)

    The BDOS file calls of the shim: drive A: is a host directory, an FCB in
    guest memory names a file and carries its own position, and a table of
    eight streams remembers which FCB owns which.  The C library is the
    class [HostFs].  Guest memory is the mirrored mapping, so an FCB or a
    DMA buffer that runs past FFFF wraps.

    [fcb_name_matches] and [fill_dir_entry] work on stack buffers they do
    not clear and do not bound: [stack] is what those buffers held before,
    and [None] the overflow of one of them.  The bounce buffer
    [disk_io_buf] is not modelled: only bytes just read or just written are
    taken from it. *)

From Stdlib Require Import ZArith Lia Bool List.
From stdpp Require Import base gmap list.
From S2P Require Import Prelude Cpu BlockCache HostFs.

Open Scope list_scope.
Open Scope Z_scope.
Open Scope z80_scope.

Definition CPM_DEFAULT_DMA : Z := 0x0080.
Definition CPM_FCB_SIZE : nat := 36.
Definition MAX_OPEN_FILES : nat := 8.
Definition PATH_MAX : nat := 4096.
Definition CPM_SHIM_DPB : Z := 0xE500.
Definition CPM_SHIM_ALV : Z := 0xE510.
Definition SHIM_BLS : Z := 4096.
Definition SHIM_DSM : Z := 2047.
Definition SHIM_DIRBLKS : Z := 8.

Record open_file := mk_open { fp : option FILE; fcb_copy : list Z; logical_record : Z }.
Definition closed_file : open_file := mk_open None (replicate CPM_FCB_SIZE 0) 0.

(** The statics of the file.  [search_dir]: the entries [readdir] has still
    to deliver. *)
Record disk := mk_disk {
  current_dma : Z;
  open_files : list open_file;
  open_fcb_addr : list Z;
  a_root : list Z;
  search_dir : option (list (list Z));
  search_fcb : list Z
}.
Definition set_current_dma (a : Z) (d : disk) : disk :=
  mk_disk a (open_files d) (open_fcb_addr d) (a_root d) (search_dir d) (search_fcb d).
Definition set_slots (fs : list open_file) (addrs : list Z) (d : disk) : disk :=
  mk_disk (current_dma d) fs addrs (a_root d) (search_dir d) (search_fcb d).
Definition set_a_root (r : list Z) (d : disk) : disk :=
  mk_disk (current_dma d) (open_files d) (open_fcb_addr d) r (search_dir d) (search_fcb d).
Definition set_search (dir : option (list (list Z))) (fcb : list Z) (d : disk) : disk :=
  mk_disk (current_dma d) (open_files d) (open_fcb_addr d) (a_root d) dir fcb.

(** What a file call works on besides the CPU: the translator, the disk
    layer's statics, the host. *)
Record dworld (F : Type) := mk_dworld { w_dbt : option z80_dbt; w_disk : disk; w_fs : F }.
Arguments mk_dworld {F}.
Arguments w_dbt {F}.
Arguments w_disk {F}.
Arguments w_fs {F}.

(** ** Guest memory *)

Fixpoint store_bytes (a : Z) (bs : list Z) (m : memory) : memory :=
  match bs with [] => m | b :: bs => store_bytes (a + 1) bs (mset (u16 a) b m) end.
Definition load_bytes (a : Z) (n : nat) (m : memory) : list Z := map (λ i, mget m (u16 i)) (zseq a n).

Definition fcb_byte (a i : Z) (m : memory) : Z := mget m (u16 (a + i)).
Definition set_fcb_byte (a i v : Z) (m : memory) : memory := mset (u16 (a + i)) v m.

(** The record a sequential access is at: S2, EX and CR. *)
Definition fcb_record_pos (a : Z) (m : memory) : Z :=
  ((fcb_byte a 14 m &' 0x0F) <<' 12) |' ((fcb_byte a 12 m &' 0x1F) <<' 7) |' (fcb_byte a 32 m &' 0x7F).
Definition fcb_set_record_pos (a rec : Z) (m : memory) : memory :=
  let m := set_fcb_byte a 32 (rec &' 0x7F) m in
  let m := set_fcb_byte a 12 ((rec >>' 7) &' 0x1F) m in
  set_fcb_byte a 14 ((rec >>' 12) &' 0x0F) m.
Definition get_random_record (a : Z) (m : memory) : Z :=
  fcb_byte a 33 m |' (fcb_byte a 34 m <<' 8) |' (fcb_byte a 35 m <<' 16).

(** ** Names *)

(** A [char] array read as a C string. *)
Fixpoint c_string (l : list Z) : list Z :=
  match l with [] => [] | c :: l => if c =? 0 then [] else c :: c_string l end.
(** The array with its trailing blanks zeroed. *)
Fixpoint trim_blanks (l : list Z) : list Z :=
  match l with
  | [] => []
  | c :: l => match trim_blanks l with [] => if c =? 0x20 then [] else [c] | l' => c :: l' end
  end.
(** An 11-byte name, attribute bits off: base and extension. *)
Definition name_bytes (a : Z) (m : memory) : list Z := map (λ c, c &' 0x7F) (load_bytes (a + 1) 8 m).
Definition ext_bytes (a : Z) (m : memory) : list Z := map (λ c, c &' 0x7F) (load_bytes (a + 9) 3 m).

Definition DOT : Z := 0x2E.
Definition SLASH : Z := 0x2F.

Definition fcb_to_host_name (a : Z) (m : memory) : list Z :=
  let name := c_string (trim_blanks (name_bytes a m)) in
  let ext := c_string (trim_blanks (ext_bytes a m)) in
  match ext with [] => name | _ => name ++ DOT :: ext end.

(** A path that does not fit is empty: the open then fails. *)
Definition make_host_path (d : disk) (name : list Z) : list Z :=
  match a_root d with
  | [] => take (PATH_MAX - 1) name
  | root => let p := root ++ SLASH :: name in if (PATH_MAX <=? length p)%nat then [] else p
  end.
Definition cpm_set_a_root (path : list Z) (d : disk) : disk := set_a_root (take (PATH_MAX - 1) path) d.

(** ** The table of open files *)

Definition cpm_disk_init (d : disk) : disk :=
  set_current_dma CPM_DEFAULT_DMA
    (set_slots (replicate MAX_OPEN_FILES closed_file) (replicate MAX_OPEN_FILES 0) d).

Definition slot_fp (d : disk) (i : nat) : option FILE :=
  match open_files d !! i with Some s => fp s | None => None end.
Definition slot_addr (d : disk) (i : nat) : Z := default 0 (open_fcb_addr d !! i).

Definition alloc_file_slot (d : disk) : option nat :=
  List.find (λ i, negb (bool_decide (is_Some (slot_fp d i)))) (seq 0 MAX_OPEN_FILES).
Definition get_file_slot_from_fcb (d : disk) (a : Z) : option nat :=
  List.find (λ i, bool_decide (is_Some (slot_fp d i)) && (slot_addr d i =? a)) (seq 0 MAX_OPEN_FILES).

Definition put_slot (i : nat) (s : open_file) (a : Z) (d : disk) : disk :=
  set_slots (<[i:=s]> (open_files d)) (<[i:=a]> (open_fcb_addr d)) d.
(** [open_files[i].fp = NULL; open_fcb_addr[i] = 0]. *)
Definition free_slot (i : nat) (d : disk) : disk :=
  match open_files d !! i with
  | Some s => put_slot i (mk_open None (fcb_copy s) (logical_record s)) 0 d
  | None => d
  end.
Definition set_logical (i : nat) (rec : Z) (d : disk) : disk :=
  match open_files d !! i with
  | Some s => set_slots (<[i:=mk_open (fp s) (fcb_copy s) (u16 rec)]> (open_files d)) (open_fcb_addr d) d
  | None => d
  end.

(** ** Matching and directory entries *)

Definition tolower (c : Z) : Z := if (0x41 <=? c) && (c <=? 0x5A) then c + 0x20 else c.
Definition toupper (c : Z) : Z := if (0x61 <=? c) && (c <=? 0x7A) then c - 0x20 else c.

(** [strncasecmp(a, b, n) == 0]. *)
Fixpoint strncase_eq (n : nat) (a b : list Z) : bool :=
  match n with
  | O => true
  | S n =>
      match a, b with
      | [], [] => true
      | x :: a, y :: b => (tolower x =? tolower y) && strncase_eq n a b
      | _, _ => false
      end
  end.

(** [strrchr(name, '.')]: what precedes the last dot and what follows it. *)
Fixpoint split_dot (l : list Z) : option (list Z * list Z) :=
  match l with
  | [] => None
  | c :: l =>
      match split_dot l with
      | Some (b, e) => Some (c :: b, e)
      | None => if c =? DOT then Some ([], l) else None
      end
  end.
Definition stem_ext (name : list Z) : list Z * list Z := default (name, []) (split_dot name).

(** A string copied into an array that held [junk]. *)
Definition copied (s junk : list Z) : list Z := s ++ 0 :: drop (S (length s)) junk.

Definition STAR : Z := 0x2A.
Definition QUERY : Z := 0x3F.

(** The loop over a pattern field: up to its NUL, each byte ['?'] or the
    array's, whose NUL counts as a blank. *)
Fixpoint pattern_loop (pat arr : list Z) : bool :=
  match pat with
  | [] => true
  | c :: pat =>
      if c =? 0 then true
      else
        let h := match arr with [] => 0 | h :: _ => h end in
        if negb (c =? QUERY) && negb (tolower c =? tolower (if h =? 0 then 0x20 else h)) then false
        else pattern_loop pat (tl arr)
  end.

Definition HOST_BASE : nat := 64.
Definition HOST_EXT : nat := 16.

(** [stack]: what [host_base] and [host_ext] hold on entry. *)
Definition fcb_name_matches (stack : list Z * list Z) (a : Z) (m : memory) (host_name : list Z) : option bool :=
  let fcb_name := name_bytes a m in
  let fcb_ext := ext_bytes a m in
  let '(base, ext) := stem_ext host_name in
  if (HOST_BASE <=? length base)%nat || (HOST_EXT <=? length ext)%nat then None
  else
    let star l := match l with c :: _ => c =? STAR | [] => false end in
    let match_name := star fcb_name || strncase_eq 8 (c_string fcb_name) base in
    let match_ext := star fcb_ext || strncase_eq 3 (c_string fcb_ext) ext in
    let match_name := match_name || pattern_loop fcb_name (copied base stack.1) in
    let match_ext := match_ext ||
      match fcb_ext with
      | c :: _ => negb (c =? 0) && pattern_loop fcb_ext (copied ext stack.2)
      | [] => false
      end in
    Some (match_name && match_ext).

(** A field of [n] bytes, upper case, padded with blanks. *)
Definition pad_field (n : nat) (s : list Z) : list Z := take n (map toupper s ++ replicate n 0x20).

(** The 32 bytes of an entry; [ro]: the host file has no write bit.  [base]
    has nine bytes, and a name with a dot is copied into it whole. *)
Definition fill_dir_entry (host_name : list Z) (ro : bool) (drive : Z) : option (list Z) :=
  let entry base ext :=
    let e := pad_field 3 ext in
    map u8 ([drive] ++ pad_field 8 base ++
    (if ro then match e with x :: e => (x |' 0x80) :: e | [] => [] end else e) ++
    [0; 0; 0; 1] ++ replicate 16 0) in
  match split_dot host_name with
  | Some (base, ext) => if (9 <=? length base)%nat then None else Some (entry base (take 3 ext))
  | None => Some (entry (take 8 host_name) [])
  end.

(** The shim's disk parameter block. *)
Definition shim_dpb : list Z :=
  [64; 0; 5; 31; 1; SHIM_DSM &' 0xFF; SHIM_DSM >>' 8; 1023 &' 0xFF; 1023 >>' 8; 0xFF; 0x00; 0; 0; 0; 0].

(** Bit 7 of the first byte is block 0. *)
Definition alloc_vector (used : Z) : list Z :=
  fold_left (λ alv b, let i := Z.to_nat (b >>' 3) in
               <[i:=u8 (default 0 (alv !! i) |' (0x80 >>' (b &' 7)))]> alv)
    (zseq 0 (Z.to_nat used)) (replicate (Z.to_nat ((SHIM_DSM + 1) / 8)) 0).

Section Disk.
Context {F : Type} `{HostFs F}.
Abbreviation world := (mach (dworld F)).

(** ** Steps of a call *)

Definition the_disk (s : world) : disk := w_disk s.2.
Definition the_mem (s : world) : memory := mem s.1.
Definition on_disk (g : disk → disk) (s : world) : world :=
  (s.1, mk_dworld (w_dbt s.2) (g (w_disk s.2)) (w_fs s.2)).
Definition on_mem (g : memory → memory) (s : world) : world := (set_mem (g (mem s.1)) s.1, s.2).
Definition ret_a (v : Z) (s : world) : world := (set_rA v s.1, s.2).
(** A host call that only changes the host. *)
Definition on_host (g : F → F) (s : world) : world :=
  (s.1, mk_dworld (w_dbt s.2) (w_disk s.2) (g (w_fs s.2))).
(** A host call with a result. *)
Definition ask {R : Type} (g : F → R * F) (s : world) : R * world :=
  let '(r, f) := g (w_fs s.2) in (r, (s.1, mk_dworld (w_dbt s.2) (w_disk s.2) f)).
(** [z80_mem_host_wrote]. *)
Definition host_wrote (a len : Z) (s : world) : world :=
  let '(c, dbt) := z80_mem_host_wrote a len (s.1, w_dbt s.2) in
  (c, mk_dworld dbt (w_disk s.2) (w_fs s.2)).

Definition cpm_set_dma (a : Z) (s : world) : world := on_disk (set_current_dma a) s.

(** The stream of slot [i] closed and the slot freed. *)
Definition close_slot (i : nat) (s : world) : world :=
  match slot_fp (the_disk s) i with
  | Some h => on_disk (free_slot i) (on_host (fclose h) s)
  | None => s
  end.
(** "If an existing slot owns this FCB, retire it first." *)
Definition retire (a : Z) (s : world) : world :=
  match get_file_slot_from_fcb (the_disk s) a with Some i => close_slot i s | None => s end.

Definition open_rw_or_ro (path : list Z) (s : world) : option FILE * world :=
  let '(h, s) := ask (fopen RPlus path) s in
  match h with Some _ => (h, s) | None => ask (fopen ROnly path) s end.

(** Slot [i] given to the FCB at [a]. *)
Definition own_slot (i : nat) (h : FILE) (a rec : Z) (s : world) : world :=
  on_disk (put_slot i (mk_open (Some h) (load_bytes a CPM_FCB_SIZE (the_mem s)) rec) a) s.

(** [snprintf] and [make_host_path] on the name of the FCB at [a]. *)
Definition host_path (a : Z) (s : world) : list Z :=
  make_host_path (the_disk s) (fcb_to_host_name a (the_mem s)).

(** A closed FCB is re-opened by its own name. *)
Definition slot_for_io (a : Z) (s : world) : option nat * world :=
  match get_file_slot_from_fcb (the_disk s) a with
  | Some i => (Some i, s)
  | None =>
      let '(h, s) := open_rw_or_ro (host_path a s) s in
      match h with
      | None => (None, s)
      | Some h =>
          match alloc_file_slot (the_disk s) with
          | None => (None, on_host (fclose h) s)
          | Some i => (Some i, own_slot i h a (u16 (fcb_record_pos a (the_mem s))) s)
          end
      end
  end.

(** ** Open, close, make, delete, rename *)

(** The record count of the FCB's extent in a file of [size] bytes. *)
Definition extent_rc (size pos : Z) : Z :=
  let total_recs := Z.quot (size + 127) 128 in
  let in_extent := total_recs - (pos &~ 0x7F) in
  let in_extent := if in_extent <? 0 then 0 else in_extent in
  if 0x80 <? in_extent then 0x80 else in_extent.

Definition cpm_bdos_open_file (a : Z) (s : world) : world :=
  let s := retire a s in
  let '(h, s) := open_rw_or_ro (host_path a s) s in
  match h with
  | None => ret_a 0xFF s
  | Some h =>
      match alloc_file_slot (the_disk s) with
      | None => ret_a 0xFF (on_host (fclose h) s)
      | Some i =>
          let s := own_slot i h a (logical_record (default closed_file (open_files (the_disk s) !! i))) s in
          let rc := match fsize h (w_fs s.2) with
                    | Some size => u8 (extent_rc size (fcb_record_pos a (the_mem s))) | None => 0 end in
          let s := on_mem (set_fcb_byte a 15 rc) s in
          ret_a 0 (on_disk (set_logical i (fcb_record_pos a (the_mem s))) s)
      end
  end.

Definition cpm_bdos_close_file (a : Z) (s : world) : world := ret_a 0 (retire a s).

Definition cpm_bdos_make_file (a : Z) (s : world) : world :=
  let s := retire a s in
  let '(h, s) := ask (fopen WPlus (host_path a s)) s in
  match h with
  | None => ret_a 0xFF s
  | Some h =>
      match alloc_file_slot (the_disk s) with
      | None => ret_a 0xFF (on_host (fclose h) s)
      | Some i =>
          let s := own_slot i h a 0 s in
          ret_a 0 (on_mem (λ m, set_fcb_byte a 32 0 (set_fcb_byte a 15 0 (set_fcb_byte a 12 0 m))) s)
      end
  end.

Definition cpm_bdos_delete_file (a : Z) (s : world) : world :=
  let s := retire a s in
  let '(ok, s) := ask (unlink (host_path a s)) s in
  ret_a (if ok then 0 else 0xFF) s.

(** The old name at the FCB, the new one sixteen bytes on. *)
Definition cpm_bdos_rename (a : Z) (s : world) : world :=
  let s := retire a s in
  let oldp := host_path a s in
  let newp := host_path (a + 16) s in
  match oldp, newp with
  | [], _ | _, [] => ret_a 0xFF s
  | _, _ => let '(ok, s) := ask (rename oldp newp) s in ret_a (if ok then 0 else 0xFF) s
  end.

(** ** Sequential and random access *)

(** The stream of slot [i] moved to record [rec]. *)
Definition seek_slot (i : nat) (rec : Z) (s : world) : option FILE * world :=
  match slot_fp (the_disk s) i with
  | None => (None, s)
  | Some h => let '(ok, s) := ask (fseek h (rec * 128)) s in (if ok then Some h else None, s)
  end.

(** At most 128 bytes of the stream into the DMA buffer. *)
Definition read_to_dma (h : FILE) (s : world) : nat * world :=
  let '(bs, s) := ask (fread h 128) s in
  match bs with
  | [] => (0%nat, s)
  | _ =>
      let dma := current_dma (the_disk s) in
      (length bs, host_wrote dma (Z.of_nat (length bs)) (on_mem (store_bytes dma bs) s))
  end.
Definition write_from_dma (h : FILE) (s : world) : nat * world :=
  ask (fwrite h (load_bytes (current_dma (the_disk s)) 128 (the_mem s))) s.

Definition bump_rc (a : Z) (m : memory) : memory :=
  if fcb_byte a 15 m <? 0x80 then set_fcb_byte a 15 (u8 (fcb_byte a 15 m + 1)) m else m.

Definition cpm_bdos_read_sequential (a : Z) (s : world) : world :=
  let '(slot, s) := slot_for_io a s in
  match slot with
  | None => ret_a 1 s
  | Some i =>
      let rec := fcb_record_pos a (the_mem s) in
      let '(h, s) := seek_slot i rec s in
      match h with
      | None => ret_a 1 s
      | Some h =>
          let '(n, s) := read_to_dma h s in
          if (n =? 0)%nat then ret_a 1 s
          else
            let s := on_disk (set_logical i (rec + 1)) s in
            ret_a 0 (on_mem (fcb_set_record_pos a (rec + 1)) s)
      end
  end.

Definition cpm_bdos_write_sequential (a : Z) (s : world) : world :=
  let '(slot, s) := slot_for_io a s in
  match slot with
  | None => ret_a 1 s
  | Some i =>
      let rec := fcb_record_pos a (the_mem s) in
      let '(h, s) := seek_slot i rec s in
      match h with
      | None => ret_a 1 s
      | Some h =>
          let '(n, s) := write_from_dma h s in
          if negb (n =? 128)%nat then ret_a 1 s
          else
            let s := on_host (fflush h) (on_disk (set_logical i (rec + 1)) s) in
            ret_a 0 (on_mem (λ m, bump_rc a (fcb_set_record_pos a (rec + 1) m)) s)
      end
  end.

Definition cpm_bdos_random_read (a : Z) (s : world) : world :=
  let '(slot, s) := slot_for_io a s in
  match slot with
  | None => ret_a 1 s
  | Some i =>
      let rec := get_random_record a (the_mem s) in
      let '(h, s) := seek_slot i rec s in
      match h with
      | None => ret_a 1 s
      | Some h =>
          let '(n, s) := read_to_dma h s in
          if (n =? 0)%nat then ret_a 1 s
          else ret_a 0 (on_disk (set_logical i rec) (on_mem (fcb_set_record_pos a rec) s))
      end
  end.

Definition cpm_bdos_random_write (a : Z) (s : world) : world :=
  let '(slot, s) := slot_for_io a s in
  match slot with
  | None => ret_a 1 s
  | Some i =>
      let rec := get_random_record a (the_mem s) in
      let '(h, s) := seek_slot i rec s in
      match h with
      | None => ret_a 2 s
      | Some h =>
          let '(n, s) := write_from_dma h s in
          if negb (n =? 128)%nat then ret_a 2 s
          else
            let s := on_mem (fcb_set_record_pos a rec) (on_host (fflush h) s) in
            ret_a 0 (on_mem (bump_rc a) (on_disk (set_logical i rec) s))
      end
  end.

(** BDOS 26, the address in DE. *)
Definition cpm_bdos_set_dma (s : world) : world := ret_a 0 (cpm_set_dma (rDE s.1) s).

(** ** Sizes and attributes *)

Definition put_random (a recs top : Z) (m : memory) : memory :=
  set_fcb_byte a 35 top (set_fcb_byte a 34 (u8 (recs >>' 8)) (set_fcb_byte a 33 (u8 recs) m)).

(** [full[0] && stat(full, &st) == 0 && S_ISREG(st.st_mode)]. *)
Definition regular_file (path : list Z) (s : world) : option stat_t :=
  match path with
  | [] => None
  | _ => match stat path (w_fs s.2) with Some st => if st_reg st then Some st else None | None => None end
  end.

Definition cpm_bdos_file_size (a : Z) (s : world) : world :=
  let found := regular_file (host_path a s) s in
  let recs := match found with Some st => u32 (Z.quot (st_size st + 127) 128) | None => 0 end in
  let s := on_mem (put_random a recs (u8 (recs >>' 16))) s in
  ret_a (match found with Some _ => 0 | None => 0xFF end) (host_wrote (u16 (a + 33)) 3 s).

Definition cpm_bdos_set_random (a : Z) (s : world) : world :=
  let rec := fcb_record_pos a (the_mem s) in
  ret_a 0 (host_wrote (u16 (a + 33)) 3 (on_mem (put_random a rec 0) s)).

Definition cpm_bdos_set_attributes (a : Z) (s : world) : world :=
  let full := host_path a s in
  match regular_file full s with
  | None => ret_a 0xFF s
  | Some st =>
      let m := st_perm st in
      let want := if nz (fcb_byte a 9 (the_mem s) &' 0x80) then m &~ 0x92 else m |' 0x80 in
      if want =? m then ret_a 0 s
      else let '(ok, s) := ask (chmod full want) s in ret_a (if ok then 0 else 0xFF) s
  end.

(** ** The directory *)

Definition dot_file (name : list Z) : bool := match name with c :: _ => c =? DOT | [] => false end.

(** The loop of both searches: the first regular file left in the directory
    that matches the FCB at [a] of [m]; [None]: a buffer overflowed. *)
Fixpoint search_loop (stack : list Z → list Z * list Z) (a : Z) (m : memory) (entries : list (list Z)) (s : world)
    : option (option (list Z * stat_t) * list (list Z)) :=
  match entries with
  | [] => Some (None, [])
  | name :: entries =>
      if dot_file name then search_loop stack a m entries s
      else match stat (make_host_path (the_disk s) name) (w_fs s.2) with
      | None => search_loop stack a m entries s
      | Some st =>
          if negb (st_reg st) then search_loop stack a m entries s
          else match fcb_name_matches (stack name) a m name with
          | None => None
          | Some true => Some (Some (name, st), entries)
          | Some false => search_loop stack a m entries s
          end
      end
  end.

(** What both searches do with what the loop found. *)
Definition search_result (drive : Z) (found : option (list Z * stat_t)) (rest : list (list Z)) (s : world)
    : option world :=
  match found with
  | None => Some (ret_a 0xFF (on_disk (λ d, set_search None (search_fcb d) d) s))
  | Some (name, st) =>
      match fill_dir_entry name (negb (nz (st_perm st &' 0x92))) drive with
      | None => None
      | Some entry =>
          let s := on_disk (λ d, set_search (Some rest) (search_fcb d) d) s in
          let dma := current_dma (the_disk s) in
          Some (ret_a 0 (host_wrote dma 32 (on_mem (store_bytes dma entry) s)))
      end
  end.

Definition cpm_bdos_search_first (stack : list Z → list Z * list Z) (a : Z) (s : world) : option world :=
  let fcb := load_bytes a CPM_FCB_SIZE (the_mem s) in
  let s := on_disk (set_search None fcb) s in
  match opendir (make_host_path (the_disk s) [DOT]) (w_fs s.2) with
  | None => Some (ret_a 0xFF s)
  | Some entries =>
      match search_loop stack a (the_mem s) entries s with
      | None => None
      | Some (found, rest) => search_result (fcb_byte a 0 (the_mem s)) found rest s
      end
  end.

(** It matches against the copy [search_fcb], laid out as memory at 0. *)
Definition cpm_bdos_search_next (stack : list Z → list Z * list Z) (s : world) : option world :=
  match search_dir (the_disk s) with
  | None => Some (ret_a 0xFF s)
  | Some entries =>
      let m := store_bytes 0 (search_fcb (the_disk s)) ∅ in
      match search_loop stack 0 m entries s with
      | None => None
      | Some (found, rest) => search_result (fcb_byte 0 0 m) found rest s
      end
  end.

(** ** The allocation vector *)

Definition used_blocks (s : world) (entries : list (list Z)) : Z :=
  fold_left (λ used name,
    if dot_file name then used
    else match stat (make_host_path (the_disk s) name) (w_fs s.2) with
         | Some st => if st_reg st then u32 (used + u32 (Z.quot (st_size st + SHIM_BLS - 1) SHIM_BLS)) else used
         | None => used
         end) entries SHIM_DIRBLKS.

Definition cpm_bdos_alloc_vector (s : world) : world :=
  let used := match opendir (make_host_path (the_disk s) [DOT]) (w_fs s.2) with
              | Some entries => used_blocks s entries | None => SHIM_DIRBLKS end in
  let used := if SHIM_DSM + 1 <? used then SHIM_DSM + 1 else used in
  let s := on_mem (store_bytes CPM_SHIM_ALV (alloc_vector used)) s in
  let s := host_wrote CPM_SHIM_ALV ((SHIM_DSM + 1) / 8) s in
  (set_rB (CPM_SHIM_ALV >>' 8) (set_rA (CPM_SHIM_ALV &' 0xFF) (set_HL CPM_SHIM_ALV s.1)), s.2).

Definition cpm_disk_install_defaults (s : world) : world :=
  let s := on_disk (set_current_dma CPM_DEFAULT_DMA) s in
  host_wrote CPM_SHIM_DPB 15 (on_mem (store_bytes CPM_SHIM_DPB shim_dpb) s).
End Disk.
