(* ===== verification/DiskOk.v ===== *)
(** * DiskOk: CP/M files behave as files

    [record_file_refines]: whatever a program does with one FCB, its reads
    and writes are those of an array of 128-byte records with a position,
    over any host with the laws of [HostFs].  The directory search lists
    exactly the files there are when their names are 8.3 names, and runs
    into its own buffers when they are not. *)

From Stdlib Require Import ZArith Lia Bool List String.
From stdpp Require Import base gmap list.
From S2P Require Import Prelude Cpu BlockCache HostFs Disk.

Open Scope list_scope.
Open Scope Z_scope.
Open Scope z80_scope.

(** ** FCB fields and the DMA buffer *)

(** The FCB at [a] and the DMA buffer at [dma] share no byte. *)
Definition apart (a dma : Z) : Prop :=
  ∀ i j, 0 <= i < 36 → 0 <= j < 128 → u16 (a + i) ≠ u16 (dma + j).

Lemma u16_inj a i j : 0 <= i < 65536 → 0 <= j < 65536 → u16 (a + i) = u16 (a + j) → i = j.
Proof. unfold u16. intros. Z.div_mod_to_equations. lia. Qed.

Lemma fcb_byte_set a i j v m : 0 <= i < 36 → 0 <= j < 36 →
  fcb_byte a i (set_fcb_byte a j v m) = if decide (i = j) then v else fcb_byte a i m.
Proof.
  intros Hi Hj. unfold fcb_byte, set_fcb_byte. rewrite mget_mset. case_decide as E.
  - apply u16_inj in E; [|lia..]. by rewrite decide_True.
  - rewrite decide_False; [done|]. intros ->. done.
Qed.

(** Settle each [decide] between constants. *)
Ltac decided := repeat first [rewrite decide_True by lia | rewrite decide_False by lia].

(** What a store through the FCB or the DMA buffer leaves alone. *)
Definition same_at (x : Z) (m m' : memory) : Prop := mget m' x = mget m x.

Lemma mget_store_other x a bs m :
  (∀ j, 0 <= j < Z.of_nat (length bs) → u16 (a + j) ≠ x) → mget (store_bytes a bs m) x = mget m x.
Proof.
  revert a m. induction bs as [|b bs IH]; intros a m Hx; [done|]. cbn [store_bytes length] in *. rewrite IH.
  - apply mget_mset_ne. specialize (Hx 0 ltac:(lia)). by rewrite Z.add_0_r in Hx.
  - intros j Hj. replace (a + 1 + j) with (a + (j + 1)) by lia. apply Hx. lia.
Qed.
Lemma fcb_byte_store a dma i bs m :
  apart a dma → 0 <= i < 36 → (length bs <= 128)%nat → fcb_byte a i (store_bytes dma bs m) = fcb_byte a i m.
Proof. intros Ha Hi Hl. apply mget_store_other. intros j Hj E. apply (Ha i j); [lia..|done]. Qed.

Lemma load_store a bs m : Z.of_nat (length bs) <= 65536 → load_bytes a (length bs) (store_bytes a bs m) = bs.
Proof.
  revert a m. induction bs as [|b bs IH]; intros a m Hl; [done|]. cbn [length] in *. unfold load_bytes in *. cbn [store_bytes zseq map].
  f_equal; [|apply IH; lia]. rewrite mget_store_other; [apply mget_mset_eq|].
  intros j Hj E. replace (a + 1 + j) with (a + (j + 1)) in E by lia. rewrite <- (Z.add_0_r a) in E at 2.
  apply u16_inj in E; lia.
Qed.
Lemma load_bytes_ext a n m m' : (∀ i, 0 <= i < Z.of_nat n → mget m' (u16 (a + i)) = mget m (u16 (a + i))) →
  load_bytes a n m' = load_bytes a n m.
Proof.
  intros H. unfold load_bytes. apply map_zseq_ext. intros i Hi. replace i with (a + (i - a)) by lia. apply H. lia.
Qed.
Lemma length_load a n m : length (load_bytes a n m) = n.
Proof. unfold load_bytes. by rewrite length_map, length_zseq. Qed.
Lemma lookup_load a n m j : (j < n)%nat → load_bytes a n m !! j = Some (mget m (u16 (a + Z.of_nat j))).
Proof.
  unfold load_bytes. revert a j. induction n as [|n IH]; intros a j Hj; [lia|]. destruct j as [|j]; cbn [zseq map lookup list_lookup].
  - cbn. by rewrite Z.add_0_r.
  - change (map (λ i, mget m (u16 i)) (zseq (a + 1) n) !! j = Some (mget m (u16 (a + Z.of_nat (S j))))). rewrite IH by lia. do 3 f_equal. lia.
Qed.
(** Memory that holds [l] at [a]. *)
Lemma load_bytes_list a n m l : length l = n → 0 <= a → a + Z.of_nat n <= 65536 →
  (∀ x, a <= x < a + Z.of_nat n → mget m x = default 0 (l !! Z.to_nat (x - a))) → load_bytes a n m = l.
Proof.
  intros Hn Ha Hl Hm. apply list_eq. intros i. destruct (decide (i < n)%nat) as [Hi|Hi].
  - destruct (lookup_lt_is_Some_2 l i ltac:(lia)) as [y Hy]. rewrite lookup_load by done. rewrite Hy. f_equal.
    rewrite u16_id by (unfold is_word; lia). rewrite Hm by lia. by replace (Z.to_nat (a + Z.of_nat i - a)) with i by lia; rewrite Hy.
  - rewrite !lookup_ge_None_2; [done|lia|]. rewrite length_load. lia.
Qed.
Lemma load_bytes_take a n k m : (k <= n)%nat → take k (load_bytes a n m) = load_bytes a k m.
Proof.
  revert a k. induction n as [|n IH]; intros a [|k] Hk; try (done || lia).
  unfold load_bytes in *. cbn. f_equal. apply IH. lia.
Qed.

(** The position read back is the one written, modulo its sixteen bits. *)
Lemma record_pos_bits s2 ex cr :
  0 <= s2 < 16 → 0 <= ex < 32 → 0 <= cr < 128 → (s2 <<' 12) |' (ex <<' 7) |' cr = s2 * 4096 + ex * 128 + cr.
Proof.
  intros. rewrite Z.lor_comm, (Z.lor_comm (s2 <<' 12)), Z.lor_assoc.
  rewrite (lor_shift_add 7 cr ex), (lor_shift_add 12) by lia. lia.
Qed.
Lemma land_mask x n : 0 <= n → x &' Z.ones n = x mod 2 ^ n.
Proof. apply Z.land_ones. Qed.
Lemma record_pos_set a rec m : 0 <= rec → fcb_record_pos a (fcb_set_record_pos a rec m) = u16 rec.
Proof.
  intros Hr. unfold fcb_record_pos, fcb_set_record_pos. rewrite !fcb_byte_set by lia.
  decided.
  change 0x0F with (Z.ones 4). change 0x1F with (Z.ones 5). change 0x7F with (Z.ones 7).
  rewrite !Z.shiftr_div_pow2, !land_mask, !Z.mod_mod by done.
  rewrite record_pos_bits by (apply Z.mod_pos_bound; done). unfold u16.
  change (2 ^ 12) with 4096. change (2 ^ 7) with 128. change (2 ^ 4) with 16. change (2 ^ 5) with 32.
  Z.div_mod_to_equations. lia.
Qed.
Lemma record_pos_range a m : 0 <= fcb_record_pos a m < 65536.
Proof.
  unfold fcb_record_pos. change 0x0F with (Z.ones 4). change 0x1F with (Z.ones 5). change 0x7F with (Z.ones 7).
  rewrite !land_mask by lia.
  pose proof (Z.mod_pos_bound (fcb_byte a 14 m) (2 ^ 4) eq_refl). pose proof (Z.mod_pos_bound (fcb_byte a 12 m) (2 ^ 5) eq_refl).
  pose proof (Z.mod_pos_bound (fcb_byte a 32 m) (2 ^ 7) eq_refl). rewrite record_pos_bits by done. lia.
Qed.
Lemma random_record_put a r m : 0 <= r < 16777216 → get_random_record a (put_random a r (u8 (r >>' 16)) m) = r.
Proof.
  intros Hr. unfold get_random_record, put_random. rewrite !fcb_byte_set by lia.
  decided. unfold u8. rewrite !Z.shiftr_div_pow2 by lia.
  change (2 ^ 8) with 256. change (2 ^ 16) with 65536.
  rewrite (lor_shift_add 8), (lor_shift_add 16) by (try lia; Z.div_mod_to_equations; lia).
  change (2 ^ 8) with 256. change (2 ^ 16) with 65536. Z.div_mod_to_equations. lia.
Qed.

(** The host name is read off bytes 1 to 11. *)
Lemma host_name_ext a m m' :
  (∀ i, 1 <= i < 12 → fcb_byte a i m' = fcb_byte a i m) → fcb_to_host_name a m' = fcb_to_host_name a m.
Proof.
  intros Hb. unfold fcb_to_host_name, name_bytes, ext_bytes.
  rewrite !(load_bytes_ext _ _ m m'); [done|intros i Hi; rewrite <- Z.add_assoc; apply Hb; lia..].
Qed.
Lemma record_pos_ext a m m' :
  (∀ i, 12 <= i < 36 → fcb_byte a i m' = fcb_byte a i m) → fcb_record_pos a m' = fcb_record_pos a m.
Proof. intros Hb. unfold fcb_record_pos. by rewrite !Hb by lia. Qed.

(** Stores to FCB fields reach neither its other fields nor the buffer. *)
Definition fcb_fields (a : Z) (P : Z → Prop) (m m' : memory) : Prop :=
  ∀ x, (∀ i, 0 <= i < 36 → P i → u16 (a + i) ≠ x) → mget m' x = mget m x.

Lemma fields_refl a P m : fcb_fields a P m m.
Proof. done. Qed.
Lemma fields_set a (P : Z → Prop) i v m m' :
  fcb_fields a P m m' → 0 <= i < 36 → P i → fcb_fields a P m (set_fcb_byte a i v m').
Proof. intros Hm Hi Hp x Hx. unfold set_fcb_byte. rewrite mget_mset_ne by (by apply Hx). by apply Hm. Qed.

Lemma fields_byte a P m m' i :
  fcb_fields a P m m' → 0 <= i < 36 → ¬ P i → fcb_byte a i m' = fcb_byte a i m.
Proof. intros Hm Hi Hp. apply Hm. intros j Hj Hpj E. apply u16_inj in E; [by subst|lia..]. Qed.
Lemma fields_buffer a P dma n m m' :
  fcb_fields a P m m' → apart a dma → (n <= 128)%nat → load_bytes dma n m' = load_bytes dma n m.
Proof. intros Hm Ha Hn. apply load_bytes_ext. intros j Hj. apply Hm. intros i Hi _. apply Ha; lia. Qed.

(** ** The world of one FCB *)

(** A file as records: its bytes, and the record the position is at. *)
Record rfile := mk_rfile { body : list Z; at_rec : Z }.

Definition owns (d : disk) (a : Z) (k : nat) : Prop :=
  (k < MAX_OPEN_FILES)%nat ∧ is_Some (slot_fp d k) ∧ slot_addr d k = a.

Lemma get_slot_some d a k : get_file_slot_from_fcb d a = Some k → owns d a k.
Proof.
  intros E. apply find_some in E as [Hin Hp]. apply in_seq in Hin. apply andb_true_iff in Hp as [Hp Ha].
  apply bool_decide_eq_true in Hp. apply Z.eqb_eq in Ha. split_and!; [lia|done|done].
Qed.
Lemma get_slot_none d a k : get_file_slot_from_fcb d a = None → ¬ owns d a k.
Proof.
  intros E (Hk & Hp & Ha). eapply find_none in E; [|apply in_seq; split; [lia|exact Hk]].
  cbv beta in E. rewrite bool_decide_true, Ha, Z.eqb_refl in E by done. done.
Qed.
Lemma alloc_some d k : alloc_file_slot d = Some k → (k < MAX_OPEN_FILES)%nat ∧ slot_fp d k = None.
Proof.
  intros E. apply find_some in E as [Hin Hp]. apply in_seq in Hin. apply negb_true_iff, bool_decide_eq_false in Hp.
  split; [lia|]. by destruct (slot_fp d k); [destruct Hp; eexists|].
Qed.
Lemma alloc_free d k : (k < MAX_OPEN_FILES)%nat → slot_fp d k = None → is_Some (alloc_file_slot d).
Proof.
  intros Hk Hp. destruct (alloc_file_slot d) eqn:E; [by eexists|]. eapply find_none in E; [|apply in_seq; split; [lia|exact Hk]].
  cbv beta in E. rewrite Hp in E. by rewrite bool_decide_false in E by (intros []; done).
Qed.

(** The slot arrays, whole and after an assignment. *)
Definition table_ok (d : disk) : Prop :=
  length (open_files d) = MAX_OPEN_FILES ∧ length (open_fcb_addr d) = MAX_OPEN_FILES.

Lemma slot_put d k s a j : table_ok d → (k < MAX_OPEN_FILES)%nat →
  slot_fp (put_slot k s a d) j = (if decide (j = k) then fp s else slot_fp d j) ∧
  slot_addr (put_slot k s a d) j = (if decide (j = k) then a else slot_addr d j).
Proof.
  intros [H1 H2] Hk. unfold slot_fp, slot_addr, put_slot. cbn. case_decide as E; [subst|].
  - by rewrite !list_lookup_insert_eq by lia.
  - by rewrite !list_lookup_insert_ne by done.
Qed.
Lemma slot_free d k j : table_ok d → (k < MAX_OPEN_FILES)%nat →
  slot_fp (free_slot k d) j = (if decide (j = k) then None else slot_fp d j) ∧
  slot_addr (free_slot k d) j = (if decide (j = k) then 0 else slot_addr d j).
Proof.
  intros Hd Hk. unfold free_slot. destruct (lookup_lt_is_Some_2 (open_files d) k) as [s E]; [by destruct Hd; lia|].
  rewrite E. apply (slot_put d k (mk_open None (fcb_copy s) (logical_record s)) 0 j Hd Hk).
Qed.
Lemma slot_logical d k r j :
  slot_fp (set_logical k r d) j = slot_fp d j ∧ slot_addr (set_logical k r d) j = slot_addr d j.
Proof.
  unfold set_logical. destruct (open_files d !! k) as [s|] eqn:E; [|done]. unfold slot_fp, slot_addr. cbn.
  destruct (decide (j = k)) as [->|]; [|by rewrite list_lookup_insert_ne].
  rewrite list_lookup_insert_eq by (by eapply lookup_lt_Some). by rewrite E.
Qed.
Lemma table_put k s a d : table_ok d → table_ok (put_slot k s a d).
Proof. intros [H1 H2]. by split; cbn; rewrite length_insert. Qed.
Lemma table_free k d : table_ok d → table_ok (free_slot k d).
Proof. intros. unfold free_slot. case_match; [by apply table_put|done]. Qed.
Lemma table_logical k r d : table_ok d → table_ok (set_logical k r d).
Proof. intros [H1 H2]. unfold set_logical. case_match; [|done]. by split; cbn; rewrite ?length_insert. Qed.

Lemma mem_w_self `{Host W} x (s : mach W) y : mget (mem (mem_w (u16 x) (mget (mem s.1) (u16 x)) s).1) y = mget (mem s.1) y.
Proof.
  unfold mem_w. cbn. rewrite mget_mset, (u16_id (u16 x)) by apply u16_word. by case_decide; subst.
Qed.

Section Files.
Context {F : Type} `{FsHealth F}.
Abbreviation world := (mach (dworld F)).
Implicit Types (s : world) (st : rfile).

(** [z80_mem_host_wrote] changes no byte, no register and not the disk. *)
Lemma host_wrote_same a n s :
  (∀ x, mget (the_mem (host_wrote a n s)) x = mget (the_mem s) x) ∧
  the_disk (host_wrote a n s) = the_disk s ∧ w_fs (host_wrote a n s).2 = w_fs s.2.
Proof.
  unfold host_wrote, the_mem, the_disk. destruct (z80_mem_host_wrote a n (s.1, w_dbt s.2)) as [c d] eqn:E. cbn. split; [|done].
  intros x. revert E. unfold z80_mem_host_wrote. cbn [snd]. destruct (w_dbt s.2); [|by intros [= <- _]].
  cut (∀ l (t : mach (option z80_dbt)),
    mget (mem (fold_left (λ t i, let a0 := u16 (a + i) in mem_w a0 (mget (mem t.1) a0) t) l t).1) x = mget (mem t.1) x).
  { intros Hf E. change c with (c, d).1. rewrite <- E. exact (Hf (zseq 0 (Z.to_nat n)) (s.1, Some z)). }
  intros l. induction l as [|i l IH]; intros t; [done|]. cbn [fold_left]. rewrite IH. apply mem_w_self.
Qed.

(** The other registers stay. *)
Lemma host_wrote_cpu a n (t : world) : ∃ m', (host_wrote a n t).1 = set_mem m' t.1 ∧ ∀ x, mget m' x = mget (mem t.1) x.
Proof.
  destruct (host_wrote_same a n t) as [Hm _]. exists (mem (host_wrote a n t).1). split; [|exact Hm]. clear Hm.
  unfold host_wrote, z80_mem_host_wrote. cbn [snd]. destruct (w_dbt t.2) as [d|]; [|by destruct t as [[]]].
  assert (∀ l (u : mach (option z80_dbt)), ∃ m', (fold_left (λ t i, let a0 := u16 (a + i) in mem_w a0 (mget (mem t.1) a0) t) l u).1 = set_mem m' u.1) as Hf.
  { intros l. induction l as [|i l IH]; intros u; [exists (mem u.1); by destruct u as [[]]|]. cbn [fold_left]. destruct (IH (mem_w (u16 (a + i)) (mget (mem u.1) (u16 (a + i))) u)) as [m' E].
    exists m'. exact E. }
  destruct (Hf (zseq 0 (Z.to_nat n)) (t.1, Some d)) as [m' E]. destruct (fold_left _ _ _) as [c d']. cbn in *. subst c. by destruct t as [[]].
Qed.

Lemma mem_of_cpu s s1 : s1.1 = s.1 → the_mem s1 = the_mem s.
Proof using Type. unfold the_mem. by intros ->. Qed.

(** Every file but [ino] holds what it held, and every name leads where it
    led. *)
Definition elsewhere (ino : nat) (v0 v : fs_view) : Prop :=
  (∀ j, j ≠ ino → files v !! j = files v0 !! j) ∧ ∀ q i, names v0 !! q = Some i → names v !! q = Some i.
Lemma elsewhere_same ino v0 v v' : names v' = names v → files v' = files v → elsewhere ino v0 v → elsewhere ino v0 v'.
Proof using Type. unfold elsewhere. by intros -> ->. Qed.

(** The FCB at [a], its buffer at [dma], its file [path] on [ino]; [v0]: the
    host before.  Without [faults] the host is healthy. *)
Context (faults : bool) (a dma : Z) (path : list Z) (ino : nat) (v0 : fs_view).

Record tracks (st : rfile) (s : world) : Prop := {
  tr_apart : apart a dma;
  tr_dma : current_dma (the_disk s) = dma;
  tr_table : table_ok (the_disk s);
  tr_path : host_path a s = path;
  tr_name : names (view (w_fs s.2)) !! path = Some ino;
  tr_body : files (view (w_fs s.2)) !! ino = Some (body st);
  tr_pos : fcb_record_pos a (the_mem s) = at_rec st;
  tr_one k k' : owns (the_disk s) a k → owns (the_disk s) a k' → k = k';
  tr_open k h : owns (the_disk s) a k → slot_fp (the_disk s) k = Some h →
    ∃ pos, streams (view (w_fs s.2)) !! h = Some (ino, pos);
  tr_room : (∀ k, ¬ owns (the_disk s) a k) → ∃ k, (k < MAX_OPEN_FILES)%nat ∧ slot_fp (the_disk s) k = None;
  tr_health : faults = false → healthy (w_fs s.2);
  tr_else : elsewhere ino v0 (view (w_fs s.2))
}.

(** The slots as they were. *)
Definition same_table (d d' : disk) : Prop :=
  current_dma d' = current_dma d ∧ a_root d' = a_root d ∧ (table_ok d → table_ok d') ∧
  ∀ k, slot_fp d' k = slot_fp d k ∧ slot_addr d' k = slot_addr d k.

Lemma same_table_refl d : same_table d d.
Proof using Type. by split_and!. Qed.
Lemma same_table_logical k r d : same_table d (set_logical k r d).
Proof using Type.
  split_and!; [by unfold set_logical; case_match|by unfold set_logical; case_match|apply table_logical|apply slot_logical].
Qed.
Lemma same_owns d d' k : same_table d d' → owns d' a k ↔ owns d a k.
Proof using Type. intros (_ & _ & _ & Hs). unfold owns. by destruct (Hs k) as [-> ->]. Qed.

(** A step that moves neither the slots nor the host's files. *)
Lemma tracks_frame st st' s s' :
  tracks st s → same_table (the_disk s) (the_disk s') → w_fs s'.2 = w_fs s.2 →
  (∀ i, 1 <= i < 12 → fcb_byte a i (the_mem s') = fcb_byte a i (the_mem s)) →
  body st' = body st → fcb_record_pos a (the_mem s') = at_rec st' → tracks st' s'.
Proof using Type.
  intros [] Hd Hf Hm Hb Hp. pose proof Hd as (Hd1 & Hd2 & Hd3 & Hd4). constructor; rewrite ?Hf, ?Hb; try done.
  - congruence.
  - by apply Hd3.
  - rewrite <- tr_path0. unfold host_path, make_host_path. rewrite Hd2. by rewrite (host_name_ext a (the_mem s)).
  - intros k k' Hk Hk'. apply (same_owns _ _ _ Hd) in Hk, Hk'. by apply tr_one0.
  - intros k h Hk. destruct (Hd4 k) as [-> _]. apply tr_open0. by apply (same_owns _ _ _ Hd).
  - intros Hno. destruct tr_room0 as (k & Hk & Hfp); [intros k Hk; by apply (Hno k), (same_owns _ _ _ Hd)|].
    exists k. by destruct (Hd4 k) as [-> _].
Qed.

(** The common cases: registers, the translator, the FCB's fields. *)
Lemma tracks_ret st s v : tracks st s → tracks st (ret_a v s).
Proof using Type. intros Ht. apply (tracks_frame st st s); try done. by destruct Ht. Qed.
Lemma tracks_logical st s k r : tracks st s → tracks st (on_disk (set_logical k r) s).
Proof using Type. intros Ht. apply (tracks_frame st st s); try done; [apply same_table_logical|by destruct Ht]. Qed.
Lemma tracks_wrote st s x n : tracks st s → tracks st (host_wrote x n s).
Proof using Type.
  intros Ht. destruct (host_wrote_same x n s) as (Hm & Hd & Hf).
  apply (tracks_frame st st s); [done|rewrite Hd; apply same_table_refl|done|intros i _; apply Hm|done|].
  rewrite <- (tr_pos st s Ht). apply record_pos_ext. intros i _. apply Hm.
Qed.
Lemma tracks_fields st s g (P : Z → Prop) :
  tracks st s → fcb_fields a P (the_mem s) (g (the_mem s)) → (∀ i, P i → 12 <= i < 36) →
  tracks (mk_rfile (body st) (fcb_record_pos a (g (the_mem s)))) (on_mem g s).
Proof using Type.
  intros Ht Hg HP. apply (tracks_frame st _ s); try done.
  intros i Hi. apply (fields_byte a P); [done|lia|]. intros Hp. apply HP in Hp. lia.
Qed.
Lemma tracks_buffer st s bs : tracks st s → (length bs <= 128)%nat → tracks st (on_mem (store_bytes dma bs) s).
Proof using Type.
  intros Ht Hl. pose proof (tr_apart st s Ht) as Ha. apply (tracks_frame st st s); try done.
  - intros i Hi. apply fcb_byte_store; [done|lia|done].
  - rewrite <- (tr_pos st s Ht). apply record_pos_ext. intros i Hi. apply fcb_byte_store; [done|lia|done].
Qed.

(** A step of the host only, seen through its view. *)
Lemma tracks_host st st' s s' :
  tracks st s → s'.1 = s.1 → the_disk s' = the_disk s → at_rec st' = at_rec st →
  names (view (w_fs s'.2)) !! path = Some ino → files (view (w_fs s'.2)) !! ino = Some (body st') →
  (∀ k h, owns (the_disk s) a k → slot_fp (the_disk s) k = Some h →
     ∃ pos, streams (view (w_fs s'.2)) !! h = Some (ino, pos)) →
  (faults = false → healthy (w_fs s'.2)) → elsewhere ino v0 (view (w_fs s'.2)) → tracks st' s'.
Proof using Type.
  intros [] Hc Hd Hr Hn Hb Ho Hh He. assert (the_mem s' = the_mem s) as Hm by (unfold the_mem; by rewrite Hc).
  constructor; rewrite ?Hd, ?Hm, ?Hr; try done. rewrite <- tr_path0. unfold host_path. by rewrite Hd, Hm.
Qed.

(** The stream the FCB owns, at byte [pos] of the file. *)
Definition stream_at (s : world) (k : nat) (h : FILE) (pos : nat) : Prop :=
  owns (the_disk s) a k ∧ slot_fp (the_disk s) k = Some h ∧ streams (view (w_fs s.2)) !! h = Some (ino, pos).

(** Any host call that moves only that stream. *)
Lemma moved_stream st s k h pos n v' :
  tracks st s → stream_at s k h pos → streams v' = <[h:=(ino, n)]> (streams (view (w_fs s.2))) →
  ∀ k' h', owns (the_disk s) a k' → slot_fp (the_disk s) k' = Some h' → ∃ p, streams v' !! h' = Some (ino, p).
Proof using Type.
  intros Ht (Hk & Hf & _) Hv k' h' Hk' Hf'. pose proof (tr_one st s Ht k k' Hk Hk'). subst k'.
  rewrite Hf in Hf'. injection Hf' as <-. rewrite Hv, lookup_insert_eq. by eexists.
Qed.

Lemma seek_tracks st s k rec :
  tracks st s → owns (the_disk s) a k → 0 <= rec →
  ∃ h, slot_fp (the_disk s) k = Some h ∧
  let r := seek_slot k rec s in
  r.2.1 = s.1 ∧ the_disk r.2 = the_disk s ∧ tracks st r.2 ∧
  (r.1 = Some h ∧ stream_at r.2 k h (Z.to_nat (rec * 128)) ∨ r.1 = None ∧ faults = true).
Proof using Type.
  intros Ht Hk Hr. pose proof Hk as (_ & [h Hh] & _). exists h. split; [done|]. cbv zeta.
  destruct (tr_open st s Ht k h Hk Hh) as [pos Hs].
  pose proof (fseek_view h (rec * 128) _ _ _ Hs ltac:(lia)) as Hv.
  assert (faults = false → (fseek h (rec * 128) (w_fs s.2)).1 = true ∧ healthy (fseek h (rec * 128) (w_fs s.2)).2) as Hg.
  { intros Hf. apply healthy_seek; [by apply (tr_health st s Ht)|by eexists|lia]. }
  unfold seek_slot. rewrite Hh. unfold ask. destruct (fseek h (rec * 128) (w_fs s.2)) as [ok f'] eqn:E. cbn [fst snd] in *.
  assert (∃ p, streams (view f') = <[h:=(ino, p)]> (streams (view (w_fs s.2)))) as [p Hp].
  { rewrite Hv. destruct ok; [by eexists|]. exists pos. by rewrite insert_id. }
  assert (names (view f') = names (view (w_fs s.2)) ∧ files (view f') = files (view (w_fs s.2))) as [Hn Hb]
    by (rewrite Hv; by destruct ok).
  assert (tracks st (s.1, mk_dworld (w_dbt s.2) (w_disk s.2) f')) as Ht'.
  { apply (tracks_host st st s); [done..| | | | |]; cbn [snd w_fs].
    - rewrite Hn. apply Ht.
    - rewrite Hb. apply Ht.
    - apply (moved_stream st s k h pos p); [done|by split_and!|done].
    - intros Hf. by apply Hg.
    - by apply (elsewhere_same _ _ (view (w_fs s.2))), Ht. }
  split_and!; [done|done|done|]. destruct ok.
  - left. split; [done|]. split_and!; [done|done|]. cbn [snd w_fs]. rewrite Hv. apply lookup_insert_eq.
  - right. split; [done|]. destruct faults; [done|]. by destruct Hg.
Qed.

Lemma read_tracks st s k h pos :
  tracks st s → stream_at s k h pos →
  let r := read_to_dma h s in
  let bs := take 128 (drop pos (body st)) in
  r.1 = length bs ∧ the_disk r.2 = the_disk s ∧ tracks st r.2 ∧
  take (length bs) (load_bytes dma 128 (the_mem r.2)) = bs ∧
  (bs = [] → the_mem r.2 = the_mem s).
Proof using Type.
  intros Ht Hs. pose proof Hs as (Hk & Hf & Hst). cbv zeta. set (bs := take 128 (drop pos (body st))).
  destruct (fread_view h 128 (w_fs s.2) ino pos (body st) Hst (tr_body st s Ht)) as [Hb Hv].
  pose proof (λ Hg, healthy_read h 128 (w_fs s.2) (tr_health st s Ht Hg)) as Hg.
  unfold read_to_dma, ask. destruct (fread h 128 (w_fs s.2)) as [bs' f']. cbn [fst snd] in *. subst bs'.
  fold bs in Hv |- *.
  set (s1 := (s.1, mk_dworld (w_dbt s.2) (w_disk s.2) f')).
  assert (tracks st s1) as Ht1.
  { apply (tracks_host st st s); [done..| | | |done|]; subst s1; cbn [snd w_fs]; rewrite Hv.
    - apply Ht.
    - apply Ht.
    - apply (moved_stream st s k h pos (pos + length bs)); done.
    - by apply (elsewhere_same _ _ (view (w_fs s.2))), Ht. }
  assert (length bs <= 128)%nat as Hl by (subst bs; rewrite length_take; lia).
  clearbody bs. rewrite (tr_dma st s1 Ht1).
  pose proof (host_wrote_same dma (Z.of_nat (length bs)) (on_mem (store_bytes dma bs) s1)) as (Hm & Hd & _).
  destruct bs as [|b bs]; [done|]. set (l := b :: bs) in *. cbn [fst snd]. split_and!.
  - done.
  - by rewrite Hd.
  - by apply tracks_wrote, tracks_buffer.
  - rewrite (load_bytes_ext _ _ (store_bytes dma l (the_mem s))) by (intros; apply Hm).
    rewrite load_bytes_take by done. apply load_store. lia.
  - done.
Qed.

Lemma write_tracks st s k h pos :
  tracks st s → stream_at s k h pos →
  let r := write_from_dma h s in
  let data := load_bytes dma 128 (the_mem s) in
  (r.1 <= 128)%nat ∧ r.2.1 = s.1 ∧ the_disk r.2 = the_disk s ∧ (faults = false → r.1 = 128%nat) ∧
  tracks (mk_rfile (if (r.1 =? 0)%nat then body st else splice pos (take r.1 data) (body st)) (at_rec st)) r.2.
Proof using Type.
  intros Ht Hs. pose proof Hs as (Hk & Hf & Hst). cbv zeta.
  unfold write_from_dma, ask. rewrite (tr_dma st s Ht). set (data := load_bytes dma 128 (the_mem s)).
  destruct (fwrite_view h data (w_fs s.2) ino pos (body st) Hst (tr_body st s Ht)) as [Hn Hv].
  pose proof (λ Hg, healthy_write h data (w_fs s.2) (tr_health st s Ht Hg) ltac:(by eexists)) as Hg.
  assert (length data = 128%nat) as Hl by apply length_load. rewrite Hl in *.
  destruct (fwrite h data (w_fs s.2)) as [n f']. cbn [fst snd] in *.
  split_and!; [done|done|done|by intros E; apply Hg|].
  apply (tracks_host st _ s); [done..| | | |by intros E; apply Hg|]; cbn [snd w_fs body].
  - rewrite Hv. apply Ht.
  - rewrite Hv. cbn. case_match; [apply Ht|]. by rewrite lookup_insert_eq.
  - apply (moved_stream st s k h pos (pos + n)); [done|done|by rewrite Hv].
  - rewrite Hv. destruct (tr_else st s Ht) as [He1 He2]. split; [|done]. intros j Hj. cbn.
    case_match; [by apply He1|]. rewrite lookup_insert_ne by done. by apply He1.
Qed.

Lemma flush_tracks st s h : tracks st s → tracks st (on_host (fflush h) s).
Proof using Type.
  intros Ht. apply (tracks_host st st s); [done..| | | | |]; cbn [snd w_fs on_host]; rewrite ?fflush_view.
  - apply Ht.
  - apply Ht.
  - intros k h'. apply (tr_open st s Ht).
  - intros E. apply healthy_flush, Ht, E.
  - apply Ht.
Qed.

(** Closing leaves a free slot, the names and the contents. *)
Definition one_owner (d : disk) : Prop := ∀ k k', owns d a k → owns d a k' → k = k'.

Lemma retire_plain s : table_ok (the_disk s) → one_owner (the_disk s) →
  let s1 := retire a s in
  s1.1 = s.1 ∧ table_ok (the_disk s1) ∧ (∀ k, ¬ owns (the_disk s1) a k) ∧
  current_dma (the_disk s1) = current_dma (the_disk s) ∧ a_root (the_disk s1) = a_root (the_disk s) ∧
  names (view (w_fs s1.2)) = names (view (w_fs s.2)) ∧ files (view (w_fs s1.2)) = files (view (w_fs s.2)) ∧
  (healthy (w_fs s.2) → healthy (w_fs s1.2)) ∧
  ((∃ k, owns (the_disk s) a k) ∨ s1 = s) ∧
  ((∃ k, owns (the_disk s) a k) → ∃ k, (k < MAX_OPEN_FILES)%nat ∧ slot_fp (the_disk s1) k = None).
Proof using Type.
  intros Htab Hone. cbv zeta. unfold retire. destruct (get_file_slot_from_fcb (the_disk s) a) as [k|] eqn:Eg.
  2:{ split_and!; try done; [intros k; by apply get_slot_none|by right|]. intros [k Hk]. by destruct (get_slot_none _ _ _ Eg Hk). }
  pose proof (get_slot_some _ _ _ Eg) as Hk. pose proof Hk as (Hlt & [h Hh] & _). unfold close_slot. rewrite Hh.
  set (s1 := on_disk (free_slot k) (on_host (fclose h) s)).
  assert (∀ j, slot_fp (the_disk s1) j = (if decide (j = k) then None else slot_fp (the_disk s) j) ∧
               slot_addr (the_disk s1) j = (if decide (j = k) then 0 else slot_addr (the_disk s) j)) as Hs
    by (intros j; by apply slot_free).
  assert (∀ j, ¬ owns (the_disk s1) a j) as Hno.
  { intros j (Hj & Hp & Ha). destruct (Hs j) as [E1 E2]. rewrite E1 in Hp. rewrite E2 in Ha. case_decide; [by destruct Hp|].
    assert (j = k) as E; [|by rewrite E in *]. apply Hone; [by split_and!|done]. }
  split_and!; [done|by apply table_free|done|..].
  - subst s1. unfold the_disk, free_slot. cbn. by case_match.
  - subst s1. unfold the_disk, free_slot. cbn. by case_match.
  - subst s1. cbn. by rewrite fclose_view.
  - subst s1. cbn. by rewrite fclose_view.
  - apply healthy_close.
  - left. by exists k.
  - intros _. exists k. destruct (Hs k) as [-> _]. by rewrite decide_True.
Qed.

Lemma retire_tracks st s : tracks st s →
  tracks st (retire a s) ∧ (retire a s).1 = s.1 ∧ ∀ k, ¬ owns (the_disk (retire a s)) a k.
Proof using Type.
  intros Ht. destruct (retire_plain s (tr_table st s Ht) (tr_one st s Ht)) as (Hc & Htab & Hno & Hd1 & Hd2 & Hn & Hf & Hh & Hor & Hfree).
  split_and!; [|done|done]. destruct Hor as [Hown|E]; [|by rewrite E].
  pose proof (mem_of_cpu s (retire a s) Hc) as Hm. constructor; rewrite ?Hd1, ?Hn, ?Hf, ?Hm; try apply Ht; try done.
  - rewrite <- (tr_path st s Ht). unfold host_path, make_host_path. by rewrite Hd2, Hm.
  - intros j j' Hj. by destruct (Hno j).
  - intros j h' Hj. by destruct (Hno j).
  - intros _. by apply Hfree.
  - intros E. by apply Hh, Ht.
  - by apply (elsewhere_same _ _ (view (w_fs s.2))), Ht.
Qed.

Lemma fopen_tracks st s m : m ≠ WPlus → tracks st s →
  let r := ask (fopen m path) s in
  r.2.1 = s.1 ∧ the_disk r.2 = the_disk s ∧ tracks st r.2 ∧
  match r.1 with
  | Some h => streams (view (w_fs r.2.2)) !! h = Some (ino, 0%nat)
  | None => m = RPlus → faults = true
  end.
Proof using Type.
  intros Hm Ht. cbv zeta. unfold ask.
  pose proof (λ Hg, healthy_open path (w_fs s.2) ino (tr_health st s Ht Hg) (tr_name st s Ht) ltac:(eexists; apply (tr_body st s Ht))) as Hg.
  pose proof (λ Hg, healthy_fopen m path (w_fs s.2) (tr_health st s Ht Hg)) as Hh.
  destruct (fopen m path (w_fs s.2)) as [[h|] f'] eqn:E; cbn [fst snd] in *.
  - destruct (fopen_some _ _ _ _ _ E) as (Hno & i & Hs & Hp & Hn & Hi).
    assert (i = ino ∧ files (view f') = files (view (w_fs s.2))) as [-> Hf].
    { pose proof (tr_name st s Ht). destruct m; [| |done]; destruct Hi as (Hi & _ & Hf); split; congruence. }
    split_and!; [done|done| |cbn; rewrite Hs; apply lookup_insert_eq].
    apply (tracks_host st st s); [done..| | | |exact Hh|]; cbn [snd w_fs].
    + done.
    + rewrite Hf. apply Ht.
    + intros k h' Hk Hk'. destruct (tr_open st s Ht k h' Hk Hk') as [p Hq]. rewrite Hs.
      rewrite lookup_insert_ne by congruence. by exists p.
    + destruct (tr_else st s Ht) as [He1 He2]. split; [intros j Hj; rewrite Hf; by apply He1|]. intros q j Hq. by apply Hn, He2.
  - pose proof (fopen_none _ _ _ _ E) as Hv. split_and!; [done|done| |].
    + apply (tracks_host st st s); [done..| | | |exact Hh|]; cbn [snd w_fs]; rewrite Hv; apply Ht.
    + intros ->. destruct faults; [done|]. destruct (Hg eq_refl) as [h' E']. by rewrite E in E'.
Qed.

Lemma open_tracks st s : tracks st s →
  let r := open_rw_or_ro path s in
  r.2.1 = s.1 ∧ the_disk r.2 = the_disk s ∧ tracks st r.2 ∧
  match r.1 with Some h => streams (view (w_fs r.2.2)) !! h = Some (ino, 0%nat) | None => faults = true end.
Proof using Type.
  intros Ht. cbv zeta. unfold open_rw_or_ro.
  destruct (fopen_tracks st s RPlus ltac:(done) Ht) as (Hc & Hd & Ht1 & Hr).
  destruct (ask (fopen RPlus path) s) as [[h|] s1]; cbn [fst snd] in *; [by split_and!|].
  destruct (fopen_tracks st s1 ROnly ltac:(done) Ht1) as (Hc2 & Hd2 & Ht2 & Hr2).
  destruct (ask (fopen ROnly path) s1) as [[h|] s2]; cbn [fst snd] in *; (split_and!; [congruence|congruence|done|auto]).
Qed.

(** A free slot given to the FCB. *)
Lemma own_tracks st s i h rec :
  tracks st s → (∀ k, ¬ owns (the_disk s) a k) → alloc_file_slot (the_disk s) = Some i →
  streams (view (w_fs s.2)) !! h = Some (ino, 0%nat) →
  tracks st (own_slot i h a rec s) ∧ owns (the_disk (own_slot i h a rec s)) a i.
Proof using Type.
  intros Ht Hno Ha Hs. destruct (alloc_some _ _ Ha) as [Hi Hfree]. set (s1 := own_slot i h a rec s).
  set (o := mk_open (Some h) (load_bytes a CPM_FCB_SIZE (the_mem s)) rec).
  assert (∀ j, slot_fp (the_disk s1) j = (if decide (j = i) then Some h else slot_fp (the_disk s) j) ∧
               slot_addr (the_disk s1) j = (if decide (j = i) then a else slot_addr (the_disk s) j)) as Hp
    by (intros j; apply (slot_put (the_disk s) i o a j); [apply Ht|done]).
  assert (∀ j, owns (the_disk s1) a j → j = i) as Hone.
  { intros j (Hj & Hf & Haj). destruct (Hp j) as [E1 E2]. rewrite E1 in Hf. rewrite E2 in Haj. case_decide; [done|].
    destruct (Hno j). by split_and!. }
  assert (owns (the_disk s1) a i) as Hi'.
  { destruct (Hp i) as [E1 E2]. rewrite decide_True in E1 by done. rewrite decide_True in E2 by done. split_and!; [done|rewrite E1; by eexists|done]. }
  split; [|done]. constructor; try apply Ht.
  - apply (table_put i o a), Ht.
  - intros k k' Hk Hk'. by rewrite (Hone k), (Hone k').
  - intros k h' Hk Hf. rewrite (Hone k Hk) in Hf. destruct (Hp i) as [E1 _]. rewrite decide_True in E1 by done.
    rewrite E1 in Hf. injection Hf as <-. by eexists.
  - intros Hno'. by destruct (Hno' i).
Qed.

Lemma io_tracks st s : tracks st s →
  let r := slot_for_io a s in
  r.2.1 = s.1 ∧ tracks st r.2 ∧ match r.1 with Some k => owns (the_disk r.2) a k | None => faults = true end.
Proof using Type.
  intros Ht. cbv zeta. unfold slot_for_io. destruct (get_file_slot_from_fcb (the_disk s) a) as [k|] eqn:Eg; cbn [fst snd].
  { split_and!; [done|done|by apply get_slot_some]. }
  rewrite (tr_path st s Ht). destruct (open_tracks st s Ht) as (Hc & Hd & Ht1 & Hr).
  destruct (open_rw_or_ro path s) as [[h|] s1]; cbn [fst snd] in *; [|by split_and!].
  assert (∀ k, ¬ owns (the_disk s1) a k) as Hno by (intros k; rewrite Hd; by apply get_slot_none).
  destruct (tr_room st s1 Ht1 Hno) as (j & Hj & Hfj). destruct (alloc_free _ _ Hj Hfj) as [i Hi]. rewrite Hi. cbn [fst snd].
  destruct (own_tracks st s1 i h (u16 (fcb_record_pos a (the_mem s1))) Ht1 Hno Hi Hr) as [H2 H3]. by split_and!.
Qed.

(** The two steps every access starts with. *)
Lemma access_tracks st s rec : tracks st s → 0 <= rec →
  (∃ s1, slot_for_io a s = (None, s1) ∧ s1.1 = s.1 ∧ faults = true ∧ tracks st s1) ∨
  ∃ k s1 s2, slot_for_io a s = (Some k, s1) ∧ s1.1 = s.1 ∧ s2.1 = s.1 ∧ tracks st s2 ∧
    (seek_slot k rec s1 = (None, s2) ∧ faults = true ∨
     ∃ h, seek_slot k rec s1 = (Some h, s2) ∧ stream_at s2 k h (Z.to_nat (rec * 128))).
Proof using Type.
  intros Ht Hr. destruct (io_tracks st s Ht) as (Hc & Ht1 & Hk).
  destruct (slot_for_io a s) as [[k|] s1]; cbn [fst snd] in *; [|left; by exists s1].
  right. destruct (seek_tracks st s1 k rec Ht1 Hk Hr) as (h & _ & Hc2 & _ & Ht2 & Hs).
  destruct (seek_slot k rec s1) as [r s2] eqn:E; cbn [fst snd] in *. exists k, s1, s2.
  split_and!; [done|done|congruence|done|]. destruct Hs as [[-> Hs]|[-> Hf]]; [right; by exists h|by left].
Qed.

Lemma fields_record_pos rec m : fcb_fields a (λ i, i = 12 ∨ i = 14 ∨ i = 32) m (fcb_set_record_pos a rec m).
Proof using Type. unfold fcb_set_record_pos. repeat (apply fields_set; [|lia|lia]). apply fields_refl. Qed.
Lemma fields_bump m m' (P : Z → Prop) : fcb_fields a P m m' → P 15 → fcb_fields a P m (bump_rc a m').
Proof using Type. intros Hm Hp. unfold bump_rc. case_match; [|done]. apply fields_set; [done|lia|done]. Qed.
Lemma record_pos_bump m : fcb_record_pos a (bump_rc a m) = fcb_record_pos a m.
Proof using Type.
  unfold bump_rc. case_match; [|done]. unfold fcb_record_pos. rewrite !fcb_byte_set by lia. by decided.
Qed.

(** Moving the position, with or without the record count. *)
Lemma tracks_move st s rec : tracks st s → 0 <= rec →
  let s' := on_mem (fcb_set_record_pos a rec) s in
  tracks (mk_rfile (body st) (u16 rec)) s' ∧ load_bytes dma 128 (the_mem s') = load_bytes dma 128 (the_mem s).
Proof using Type.
  intros Ht Hr. cbv zeta. rewrite <- (record_pos_set a rec (the_mem s) Hr).
  split; [|apply (fields_buffer a _ _ _ _ _ (fields_record_pos rec (the_mem s))); [apply Ht|done]].
  eapply tracks_fields; [done|apply fields_record_pos|cbv beta; lia].
Qed.
Lemma tracks_bump st s : tracks st s →
  let s' := on_mem (bump_rc a) s in
  tracks st s' ∧ load_bytes dma 128 (the_mem s') = load_bytes dma 128 (the_mem s).
Proof using Type.
  intros Ht. cbv zeta. pose proof (fields_bump _ _ (λ i, i = 15) (fields_refl a _ (the_mem s)) eq_refl) as Hf.
  split; [|apply (fields_buffer a _ _ _ _ _ Hf); [apply Ht|done]].
  destruct st as [d p]. pose proof (tr_pos _ _ Ht) as Hp. cbn in Hp. subst p.
  rewrite <- (record_pos_bump (the_mem s)). eapply (tracks_fields (mk_rfile d _)); [done|exact Hf|cbv beta; lia].
Qed.

(** ** What a program sees of one file *)

Inductive file_op : Type :=
  | ReadSeq
  | WriteSeq (data : list Z)
  | ReadRand (r : Z)
  | WriteRand (r : Z) (data : list Z)
  | CloseFile.

Definition op_ok (o : file_op) : Prop :=
  match o with
  | WriteSeq data => length data = 128%nat
  | ReadRand r => 0 <= r < 16777216
  | WriteRand r data => 0 <= r < 16777216 ∧ length data = 128%nat
  | ReadSeq | CloseFile => True
  end.

(** The program fills the buffer and the random-record bytes, then calls. *)
Definition do_op (o : file_op) (s : world) : world :=
  match o with
  | ReadSeq => cpm_bdos_read_sequential a s
  | WriteSeq data => cpm_bdos_write_sequential a (on_mem (store_bytes dma data) s)
  | ReadRand r => cpm_bdos_random_read a (on_mem (put_random a r (u8 (r >>' 16))) s)
  | WriteRand r data =>
      cpm_bdos_random_write a (on_mem (store_bytes dma data) (on_mem (put_random a r (u8 (r >>' 16))) s))
  | CloseFile => cpm_bdos_close_file a s
  end.

(** A record of the file: fewer than 128 bytes at its end, none past it. *)
Definition record_at (d : list Z) (p : Z) : list Z := take 128 (drop (Z.to_nat (p * 128)) d).
Definition write_record (p : Z) (data d : list Z) : list Z := splice (Z.to_nat (p * 128)) data d.

(** What an operation does to the file, given A and the buffer after it.
    Only a host with faults lets one fail otherwise than at the end of the
    file, and then a write may have stored part of its record. *)
Inductive file_step : rfile → file_op → Z → list Z → rfile → Prop :=
  | step_read d p buf : record_at d p ≠ [] → take (length (record_at d p)) buf = record_at d p →
      file_step (mk_rfile d p) ReadSeq 0 buf (mk_rfile d (u16 (p + 1)))
  | step_eof d p buf : record_at d p = [] → file_step (mk_rfile d p) ReadSeq 1 buf (mk_rfile d p)
  | step_write d p data buf :
      file_step (mk_rfile d p) (WriteSeq data) 0 buf (mk_rfile (write_record p data d) (u16 (p + 1)))
  | step_rand_read d p r buf : record_at d r ≠ [] → take (length (record_at d r)) buf = record_at d r →
      file_step (mk_rfile d p) (ReadRand r) 0 buf (mk_rfile d (u16 r))
  | step_rand_eof d p r buf : record_at d r = [] → file_step (mk_rfile d p) (ReadRand r) 1 buf (mk_rfile d p)
  | step_rand_write d p r data buf :
      file_step (mk_rfile d p) (WriteRand r data) 0 buf (mk_rfile (write_record r data d) (u16 r))
  | step_close st buf : file_step st CloseFile 0 buf st
  | fault_read st o v buf : faults = true → v ≠ 0 → o ≠ CloseFile → file_step st o v buf st
  | fault_write d p data n buf : faults = true → (0 < n < 128)%nat →
      file_step (mk_rfile d p) (WriteSeq data) 1 buf (mk_rfile (write_record p (take n data) d) p)
  | fault_rand_write d p r data n buf : faults = true → (0 < n < 128)%nat →
      file_step (mk_rfile d p) (WriteRand r data) 2 buf (mk_rfile (write_record r (take n data) d) p).

(** A run of operations, with A and the buffer after each. *)
Fixpoint run_file (os : list file_op) (s : world) : list (Z * list Z) * world :=
  match os with
  | [] => ([], s)
  | o :: os =>
      let s := do_op o s in
      let '(outs, s') := run_file os s in ((rA s.1, load_bytes dma 128 (the_mem s)) :: outs, s')
  end.
Inductive file_steps : rfile → list file_op → list (Z * list Z) → rfile → Prop :=
  | steps_nil st : file_steps st [] [] st
  | steps_cons st o v buf st' os outs st'' : file_step st o v buf st' → file_steps st' os outs st'' →
      file_steps st (o :: os) ((v, buf) :: outs) st''.

Lemma tracks_put_random st s r top : tracks st s →
  tracks st (on_mem (put_random a r top) s).
Proof using Type.
  intros Ht. destruct st as [d p]. pose proof (tr_pos _ _ Ht) as Hp. cbn in Hp. subst p.
  assert (fcb_record_pos a (put_random a r top (the_mem s)) = fcb_record_pos a (the_mem s)) as <-
    by (unfold put_random, fcb_record_pos; rewrite !fcb_byte_set by lia; by decided).
  eapply (tracks_fields (mk_rfile d _) s (put_random a r top) (λ i, i = 33 ∨ i = 34 ∨ i = 35)); [done| |cbv beta; lia].
  unfold put_random. repeat (apply fields_set; [|lia|lia]). apply fields_refl.
Qed.

(** How both reads and both writes end. *)
Lemma end_read st s k h rec next l :
  tracks st s → stream_at s k h (Z.to_nat (rec * 128)) → 0 <= next →
  let '(n, s1) := read_to_dma h s in
  if (n =? 0)%nat then record_at (body st) rec = [] ∧ tracks st s1
  else
    let s2 := on_disk (set_logical k l) (on_mem (fcb_set_record_pos a next) s1) in
    record_at (body st) rec ≠ [] ∧ tracks (mk_rfile (body st) (u16 next)) s2 ∧
    take (length (record_at (body st) rec)) (load_bytes dma 128 (the_mem s2)) = record_at (body st) rec.
Proof using Type.
  intros Ht Hs Hn. destruct (read_tracks st s k h _ Ht Hs) as (Hl & _ & Ht1 & Hb & _). fold (record_at (body st) rec) in *.
  destruct (read_to_dma h s) as [n s1]. cbn [fst snd] in *. subst n. destruct (record_at (body st) rec) as [|b bs] eqn:E; [done|].
  cbn [length Nat.eqb]. cbv zeta. destruct (tracks_move st s1 next Ht1 Hn) as [Ht2 Hm].
  split_and!; [done|by apply tracks_logical|]. change (the_mem (on_disk ?g ?t)) with (the_mem t). by rewrite Hm.
Qed.

Lemma end_write st s k h rec next l :
  tracks st s → stream_at s k h (Z.to_nat (rec * 128)) → 0 <= next →
  let data := load_bytes dma 128 (the_mem s) in
  let '(n, s1) := write_from_dma h s in
  if negb (n =? 128)%nat
  then faults = true ∧ (tracks st s1 ∨ (0 < n < 128)%nat ∧ tracks (mk_rfile (write_record rec (take n data) (body st)) (at_rec st)) s1)
  else tracks (mk_rfile (write_record rec data (body st)) (u16 next))
         (on_disk (set_logical k l) (on_mem (bump_rc a) (on_mem (fcb_set_record_pos a next) (on_host (fflush h) s1)))).
Proof using Type.
  intros Ht Hs Hn data. destruct (write_tracks st s k h _ Ht Hs) as (Hle & _ & _ & Hg & Ht1). fold data in Ht1.
  destruct (write_from_dma h s) as [n s1]. cbn [fst snd] in *.
  destruct (Nat.eqb_spec n 128) as [->|Hne]; cbn [negb].
  - assert (length data = 128%nat) as Hl by apply length_load. rewrite firstn_all2 in Ht1 by lia. cbn in Ht1.
    apply tracks_logical, tracks_bump.
    by apply (tracks_move _ (on_host (fflush h) s1) next (flush_tracks _ _ h Ht1) Hn).
  - split; [by destruct faults; [|destruct Hne; apply Hg]|].
    destruct (Nat.eqb_spec n 0) as [->|]; [left; by destruct st|right; split; [lia|done]].
Qed.

(** A fault leaves the file as it was. *)
Lemma step_faulted st s o v : faults = true → v ≠ 0 → o ≠ CloseFile → tracks st s →
  ∃ st', tracks st' (ret_a v s) ∧ file_step st o v (load_bytes dma 128 (the_mem (ret_a v s))) st'.
Proof using Type. intros. exists st. split; [by apply tracks_ret|by apply fault_read]. Qed.

Definition op_correct (st : rfile) (o : file_op) (s' : world) : Prop :=
  ∃ st', tracks st' s' ∧ file_step st o (rA s'.1) (load_bytes dma 128 (the_mem s')) st'.

Lemma op_read_seq st s : tracks st s → op_correct st ReadSeq (cpm_bdos_read_sequential a s).
Proof using Type.
  intros Ht. destruct st as [d p]. pose proof (tr_pos _ _ Ht) as Hp. cbn in Hp.
  pose proof (record_pos_range a (the_mem s)) as Hr. rewrite Hp in Hr. unfold cpm_bdos_read_sequential.
  destruct (access_tracks _ s p Ht ltac:(lia)) as [(s1 & -> & _ & Hf & Ht1)|(k & s1 & s2 & -> & Hc1 & Hc2 & Ht2 & Hs)];
    [by apply step_faulted|].
  rewrite (mem_of_cpu s s1 Hc1), Hp. cbv zeta. destruct Hs as [[-> Hf]|(h & -> & Hs)]; [by apply step_faulted|].
  pose proof (end_read _ _ _ _ p (p + 1) (p + 1) Ht2 Hs ltac:(lia)) as He. destruct (read_to_dma h s2) as [n s3].
  destruct (n =? 0)%nat.
  - destruct He as [Hb Ht3]. eexists. split; [apply tracks_ret, Ht3|by apply step_eof].
  - destruct He as (Hb & Ht3 & Hm). eexists. split; [apply tracks_ret, Ht3|by apply step_read].
Qed.

Lemma op_rand_read st s r : get_random_record a (the_mem s) = r → 0 <= r → tracks st s →
  op_correct st (ReadRand r) (cpm_bdos_random_read a s).
Proof using Type.
  intros Hp Hr Ht. destruct st as [d p]. unfold cpm_bdos_random_read.
  destruct (access_tracks _ s r Ht Hr) as [(s1 & -> & _ & Hf & Ht1)|(k & s1 & s2 & -> & Hc1 & Hc2 & Ht2 & Hs)];
    [by apply step_faulted|].
  rewrite (mem_of_cpu s s1 Hc1), Hp. cbv zeta. destruct Hs as [[-> Hf]|(h & -> & Hs)]; [by apply step_faulted|].
  pose proof (end_read _ _ _ _ r r r Ht2 Hs Hr) as He. destruct (read_to_dma h s2) as [n s3].
  destruct (n =? 0)%nat.
  - destruct He as [Hb Ht3]. eexists. split; [apply tracks_ret, Ht3|by apply step_rand_eof].
  - destruct He as (Hb & Ht3 & Hm). eexists. split; [apply tracks_ret, Ht3|by apply step_rand_read].
Qed.

Lemma op_write_seq st s : tracks st s →
  op_correct st (WriteSeq (load_bytes dma 128 (the_mem s))) (cpm_bdos_write_sequential a s).
Proof using Type.
  intros Ht. destruct st as [d p]. pose proof (tr_pos _ _ Ht) as Hp. cbn in Hp.
  pose proof (record_pos_range a (the_mem s)) as Hr. rewrite Hp in Hr. unfold cpm_bdos_write_sequential.
  destruct (access_tracks _ s p Ht ltac:(lia)) as [(s1 & -> & _ & Hf & Ht1)|(k & s1 & s2 & -> & Hc1 & Hc2 & Ht2 & Hs)];
    [by apply step_faulted|].
  rewrite (mem_of_cpu s s1 Hc1), Hp. cbv zeta. destruct Hs as [[-> Hf]|(h & -> & Hs)]; [by apply step_faulted|].
  pose proof (end_write _ _ _ _ p (p + 1) (p + 1) Ht2 Hs ltac:(lia)) as He. rewrite (mem_of_cpu s s2 Hc2) in He. cbv zeta in He.
  destruct (write_from_dma h s2) as [n s3]. destruct (negb (n =? 128)%nat).
  - destruct He as [Hf [Ht3|[Hn Ht3]]]; [by apply step_faulted|].
    eexists. split; [apply tracks_ret, Ht3|by apply fault_write].
  - eexists. split; [apply tracks_ret, He|apply step_write].
Qed.

Lemma op_rand_write st s r : get_random_record a (the_mem s) = r → 0 <= r → tracks st s →
  op_correct st (WriteRand r (load_bytes dma 128 (the_mem s))) (cpm_bdos_random_write a s).
Proof using Type.
  intros Hp Hr Ht. destruct st as [d p]. unfold cpm_bdos_random_write.
  destruct (access_tracks _ s r Ht Hr) as [(s1 & -> & _ & Hf & Ht1)|(k & s1 & s2 & -> & Hc1 & Hc2 & Ht2 & Hs)];
    [by apply step_faulted|].
  rewrite (mem_of_cpu s s1 Hc1), Hp. cbv zeta. destruct Hs as [[-> Hf]|(h & -> & Hs)]; [by apply step_faulted|].
  pose proof (end_write _ _ _ _ r r r Ht2 Hs Hr) as He. rewrite (mem_of_cpu s s2 Hc2) in He. cbv zeta in He.
  destruct (write_from_dma h s2) as [n s3]. destruct (negb (n =? 128)%nat).
  - destruct He as [Hf [Ht3|[Hn Ht3]]]; [by apply step_faulted|].
    eexists. split; [apply tracks_ret, Ht3|by apply fault_rand_write].
  - eexists. split; [apply tracks_ret, He|apply step_rand_write].
Qed.

(** The buffer and the record number survive the program's preparations. *)
Lemma buffer_filled s data : length data = 128%nat →
  load_bytes dma 128 (the_mem (on_mem (store_bytes dma data) s)) = data.
Proof using Type. intros Hl. rewrite <- Hl. apply load_store. lia. Qed.
Lemma random_filled s r data : apart a dma → length data = 128%nat → 0 <= r < 16777216 →
  get_random_record a (the_mem (on_mem (store_bytes dma data) (on_mem (put_random a r (u8 (r >>' 16))) s))) = r.
Proof using Type.
  intros Ha Hl Hr. transitivity (get_random_record a (put_random a r (u8 (r >>' 16)) (the_mem s)));
    [|by apply random_record_put].
  unfold get_random_record. f_equal; [f_equal|]; [|f_equal|f_equal]; by apply fcb_byte_store; [|lia|lia].
Qed.

Lemma op_step st s o : op_ok o → tracks st s → op_correct st o (do_op o s).
Proof using Type.
  intros Ho Ht. pose proof (tr_apart st s Ht) as Ha. destruct o as [|data|r|r data|]; cbn [do_op op_ok] in *.
  - by apply op_read_seq.
  - rewrite <- (buffer_filled s data Ho) at 1. apply op_write_seq, tracks_buffer; [done|lia].
  - apply op_rand_read; [by apply random_record_put|lia|by apply tracks_put_random].
  - destruct Ho as [Hr Hl]. rewrite <- (buffer_filled (on_mem (put_random a r (u8 (r >>' 16))) s) data Hl) at 1.
    apply op_rand_write; [by apply random_filled|lia|]. apply tracks_buffer; [by apply tracks_put_random|lia].
  - destruct (retire_tracks st s Ht) as (Ht1 & _ & _). exists st. split; [by apply tracks_ret|apply step_close].
Qed.

Lemma run_tracks st s os : Forall op_ok os → tracks st s →
  ∃ st', file_steps st os (run_file os s).1 st' ∧ tracks st' (run_file os s).2.
Proof using Type.
  intros Hos. revert st s. induction Hos as [|o os Ho Hos IH]; intros st s Ht; cbn [run_file].
  { exists st. split; [constructor|done]. }
  destruct (op_step st s o Ho Ht) as (st1 & Ht1 & Hs). destruct (IH st1 _ Ht1) as (st2 & Hs2 & Ht2).
  destruct (run_file os (do_op o s)) as [outs s2]. exists st2. split; [by econstructor|done].
Qed.

(** A stream just opened on the file, given to the FCB. *)
Lemma begin_tracks d0 s h i l : apart a dma → current_dma (the_disk s) = dma → table_ok (the_disk s) → host_path a s = path →
  (∀ k, ¬ owns (the_disk s) a k) → (faults = false → healthy (w_fs s.2)) →
  names (view (w_fs s.2)) !! path = Some ino → files (view (w_fs s.2)) !! ino = Some d0 →
  streams (view (w_fs s.2)) !! h = Some (ino, 0%nat) → alloc_file_slot (the_disk s) = Some i →
  elsewhere ino v0 (view (w_fs s.2)) →
  tracks (mk_rfile d0 (fcb_record_pos a (the_mem s))) (own_slot i h a l s).
Proof using Type.
  intros Ha Hd Htab Hp Hno Hh Hn Hf Hs Hal He. apply own_tracks; [|done..]. constructor; try done.
  - intros k k' Hk. by destruct (Hno k).
  - intros k h' Hk. by destruct (Hno k).
  - intros _. exists i. by apply alloc_some.
Qed.
End Files.

(** BDOS 22 or 15. *)
Definition begin_file `{HostFs F} (make : bool) (a : Z) (s : mach (dworld F)) : mach (dworld F) :=
  if make then cpm_bdos_make_file a s else cpm_bdos_open_file a s.

(** What [cpm_disk_init] sets up and every call keeps. *)
Definition slots_ok (a : Z) (d : disk) : Prop := table_ok d ∧ one_owner a d.

(** What MAKE and OPEN ask of the host for a file that ends up open. *)
Definition begun `{FsLaws F} (make : bool) (path : list Z) (v v' : fs_view) (ino : nat) (d0 : list Z) (h : FILE) : Prop :=
  names v' !! path = Some ino ∧ files v' !! ino = Some d0 ∧ streams v' !! h = Some (ino, 0%nat) ∧ elsewhere ino v v' ∧
  if make then d0 = [] else names v !! path = Some ino ∧ files v !! ino = Some d0.

Section Begin.
Context {F : Type} `{FsHealth F}.
Implicit Types (s : mach (dworld F)).

Lemma begin_fopen m p s : let r := ask (fopen m p) s in
  r.2.1 = s.1 ∧ the_disk r.2 = the_disk s ∧ (healthy (w_fs s.2) → healthy (w_fs r.2.2)) ∧
  match r.1 with
  | Some h => ∃ ino d0, begun (bool_decide (m = WPlus)) p (view (w_fs s.2)) (view (w_fs r.2.2)) ino d0 h
  | None => view (w_fs r.2.2) = view (w_fs s.2)
  end.
Proof using Type.
  cbv zeta. unfold ask. pose proof (healthy_fopen m p (w_fs s.2)) as Hh. unfold begun.
  destruct (fopen m p (w_fs s.2)) as [[h|] f'] eqn:E; cbn [fst snd w_fs] in *; (split_and!; [done..|]).
  - destruct (fopen_some _ _ _ _ _ E) as (_ & i & Hs & Hp & Hmono & Hi). exists i.
    destruct m; [| |exists []; rewrite bool_decide_true by done; destruct Hi as [_ Hf];
      split_and!; [done|by rewrite Hf, lookup_insert_eq|by rewrite Hs, lookup_insert_eq|
        split; [intros j Hj; rewrite Hf; by rewrite lookup_insert_ne|done]|done]];
      (destruct Hi as (Hn & [d0 Hd] & Hf); exists d0; rewrite bool_decide_false by done;
       split_and!; [done|by rewrite Hf|by rewrite Hs, lookup_insert_eq|split; [by rewrite Hf|done]|done|done]).
  - by apply fopen_none in E.
Qed.

Lemma begin_open p s : let r := open_rw_or_ro p s in
  r.2.1 = s.1 ∧ the_disk r.2 = the_disk s ∧ (healthy (w_fs s.2) → healthy (w_fs r.2.2)) ∧
  match r.1 with
  | Some h => ∃ ino d0, begun false p (view (w_fs s.2)) (view (w_fs r.2.2)) ino d0 h
  | None => True
  end.
Proof using Type.
  cbv zeta. unfold open_rw_or_ro. destruct (begin_fopen RPlus p s) as (Hc & Hd & Hh & Hr).
  destruct (ask (fopen RPlus p) s) as [[h|] s1]; cbn [fst snd] in *; [done|].
  destruct (begin_fopen ROnly p s1) as (Hc2 & Hd2 & Hh2 & Hr2).
  destruct (ask (fopen ROnly p) s1) as [[h|] s2]; cbn [fst snd] in *; (split_and!; [congruence|congruence|auto|]); [|done].
  by rewrite Hr in Hr2.
Qed.

(** The FCB fields each sets last. *)
Definition made (a : Z) (m : memory) : memory := set_fcb_byte a 32 0 (set_fcb_byte a 15 0 (set_fcb_byte a 12 0 m)).
Lemma fields_made a m : fcb_fields a (λ i, i = 12 ∨ i = 15 ∨ i = 32) m (made a m).
Proof using Type. unfold made. repeat (apply fields_set; [|lia|lia]). apply fields_refl. Qed.
Lemma fields_opened a rc m : fcb_fields a (λ i, i = 15) m (set_fcb_byte a 15 rc m).
Proof using Type. apply fields_set; [apply fields_refl|lia|done]. Qed.
Lemma begin_fields faults a dma path ino v0 d p s g (P : Z → Prop) :
  tracks faults a dma path ino v0 (mk_rfile d p) s → fcb_fields a P (the_mem s) (g (the_mem s)) → (∀ i, P i → 12 <= i < 36) →
  tracks faults a dma path ino v0 (mk_rfile d (fcb_record_pos a (the_mem (ret_a 0 (on_mem g s))))) (ret_a 0 (on_mem g s)).
Proof using Type. intros Ht Hg HP. apply tracks_ret. exact (tracks_fields _ _ _ _ _ _ _ _ g P Ht Hg HP). Qed.

(** A successful MAKE or OPEN leaves the FCB on its file. *)
Lemma begin_spec faults make a s :
  slots_ok a (the_disk s) → apart a (current_dma (the_disk s)) → (faults = false → healthy (w_fs s.2)) →
  let s1 := begin_file make a s in rA s1.1 = 0 →
  ∃ ino d0,
    (if make then d0 = []
     else names (view (w_fs s.2)) !! host_path a s = Some ino ∧ files (view (w_fs s.2)) !! ino = Some d0) ∧
    tracks faults a (current_dma (the_disk s)) (host_path a s) ino (view (w_fs s.2)) (mk_rfile d0 (fcb_record_pos a (the_mem s1))) s1.
Proof using Type.
  intros [Htab Hone] Ha Hh. cbv zeta.
  destruct (retire_plain a s Htab Hone) as (Hc & Htab1 & Hno & Hd1 & Hd2 & Hn & Hf & Hh1 & _).
  set (s1 := retire a s) in *. pose proof (mem_of_cpu s s1 Hc) as Hm.
  assert (host_path a s1 = host_path a s) as Hp by (unfold host_path, make_host_path; by rewrite Hd2, Hm).
  destruct make; cbn [begin_file]; unfold cpm_bdos_make_file, cpm_bdos_open_file; fold s1; rewrite Hp.
  - destruct (begin_fopen WPlus (host_path a s) s1) as (Hc2 & Hd & Hh2 & Hr).
    destruct (ask (fopen WPlus (host_path a s)) s1) as [[h|] s2]; cbn [fst snd] in *; [|done].
    destruct Hr as (ino & d0 & Hn2 & Hf2 & Hs2 & [He1 He2] & ->). destruct (alloc_file_slot (the_disk s2)) as [i|] eqn:Ei; [|done].
    intros _. exists ino, []. split; [done|]. set (s3 := own_slot i h a 0 s2).
    assert (tracks faults a (current_dma (the_disk s)) (host_path a s) ino (view (w_fs s.2)) (mk_rfile [] (fcb_record_pos a (the_mem s2))) s3) as Ht.
    { rewrite Hd in Ei. apply begin_tracks; rewrite ?Hd, ?Hd1; try done; [|by auto|by rewrite Hn in He2; rewrite Hf in He1].
      rewrite <- Hp. unfold host_path, make_host_path. by rewrite Hd, (mem_of_cpu _ _ Hc2). }
    change (the_mem s2) with (the_mem s3) in Ht. clearbody s3. apply (begin_fields _ _ _ _ _ _ _ _ _ (made a) _ Ht (fields_made a (the_mem s3))). lia.
  - destruct (begin_open (host_path a s) s1) as (Hc2 & Hd & Hh2 & Hr).
    destruct (open_rw_or_ro (host_path a s) s1) as [[h|] s2]; cbn [fst snd] in *; [|done].
    destruct Hr as (ino & d0 & Hn2 & Hf2 & Hs2 & [He1 He2] & Hn0 & Hf0). destruct (alloc_file_slot (the_disk s2)) as [i|] eqn:Ei; [|done].
    intros _. exists ino, d0. rewrite <- Hn, <- Hf. split; [done|]. set (s3 := own_slot i h a _ s2).
    assert (tracks faults a (current_dma (the_disk s)) (host_path a s) ino (view (w_fs s.2)) (mk_rfile d0 (fcb_record_pos a (the_mem s2))) s3) as Ht.
    { rewrite Hd in Ei. apply begin_tracks; rewrite ?Hd, ?Hd1; try done; [|by auto|by rewrite Hn in He2; rewrite Hf in He1].
      rewrite <- Hp. unfold host_path, make_host_path. by rewrite Hd, (mem_of_cpu _ _ Hc2). }
    change (the_mem s2) with (the_mem s3) in Ht. clearbody s3. set (rc := match fsize h _ with Some _ => _ | None => _ end). clearbody rc.
    apply tracks_ret, tracks_logical. exact (tracks_fields _ _ _ _ _ _ _ _ (set_fcb_byte a 15 rc) _ Ht (fields_opened a rc (the_mem s3)) ltac:(cbv beta; lia)).
Qed.
End Begin.

(** C32: a CP/M file is an array of 128-byte records.  After a MAKE or an OPEN
    that returns A = 0, any sequence of sequential and random reads and
    writes and closes through the FCB returns, in A and the DMA buffer, what
    the same operations on the file's bytes and a record position return,
    and leaves those bytes in the host file and every other host file as it
    was (and every name leading where it led): a closed FCB goes on working, a
    write past the end fills the gap with zeros, and A tells the end of the
    file exactly.  The position is the FCB's own, of sixteen bits.  Where the
    host has faults an operation may fail, and then only a failing write
    touches the file, and only its own record. *)
Theorem record_file_refines {F} `{FsHealth F} faults make a s os :
  slots_ok a (the_disk s) → apart a (current_dma (the_disk s)) → Forall op_ok os →
  (faults = false → healthy (w_fs s.2)) →
  let s1 := begin_file make a s in rA s1.1 = 0 →
  ∃ ino d0 st,
    (if make then d0 = []
     else names (view (w_fs s.2)) !! host_path a s = Some ino ∧ files (view (w_fs s.2)) !! ino = Some d0) ∧
    let r := run_file a (current_dma (the_disk s)) os s1 in
    file_steps faults (mk_rfile d0 (fcb_record_pos a (the_mem s1))) os r.1 st ∧
    names (view (w_fs r.2.2)) !! host_path a s = Some ino ∧ files (view (w_fs r.2.2)) !! ino = Some (body st) ∧
    (∀ j, j ≠ ino → files (view (w_fs r.2.2)) !! j = files (view (w_fs s.2)) !! j) ∧
    (∀ q i, names (view (w_fs s.2)) !! q = Some i → names (view (w_fs r.2.2)) !! q = Some i).
Proof.
  intros Hs Ha Hos Hh s1 Hz. destruct (begin_spec faults make a s Hs Ha Hh Hz) as (ino & d0 & Hd0 & Ht).
  destruct (run_tracks _ _ _ _ _ _ _ _ os Hos Ht) as (st & Hr & Ht'). exists ino, d0, st. split; [done|]. split; [exact Hr|].
  split; [apply Ht'|]. split; [apply Ht'|]. exact (tr_else _ _ _ _ _ _ _ _ Ht').
Qed.

(** FCB 5C holding the name A.B, the buffer at 80, an empty host directory. *)
Definition fcb_cpu : z80_cpu :=
  set_mem (store_bytes 0x5C (0 :: 0x41 :: replicate 7 0x20 ++ 0x42 :: replicate 2 0x20 ++ replicate 24 0) ∅) z80_cpu_init.
Definition no_disk : disk := cpm_disk_init (mk_disk 0 [] [] [] None []).
Definition empty_host : mem_host := mk_mem (mk_view ∅ ∅ ∅) None [].
Definition fcb_world : mach (dworld mem_host) := (fcb_cpu, mk_dworld None no_disk empty_host).

Definition demo_ops : list file_op :=
  [WriteSeq (replicate 128 1); WriteRand 2 (replicate 128 3); CloseFile; ReadRand 1; ReadSeq; ReadSeq; ReadSeq].

Lemma no_disk_ok a : slots_ok a no_disk.
Proof.
  split; [done|]. intros k k' (Hk & [h Hh] & _). exfalso. revert Hh. unfold slot_fp, no_disk, cpm_disk_init.
  change (open_files (set_current_dma _ (set_slots ?l _ _))) with l. rewrite lookup_replicate_2 by done. done.
Qed.

Lemma record_file_refines_witness :
  map fst (run_file 0x5C 0x80 demo_ops (begin_file true 0x5C fcb_world)).1 = [0; 0; 0; 0; 0; 0; 1] ∧
  ∃ ino st, file_steps false (mk_rfile [] 0) demo_ops
              (run_file 0x5C 0x80 demo_ops (begin_file true 0x5C fcb_world)).1 st ∧
            files (view (w_fs (run_file 0x5C 0x80 demo_ops (begin_file true 0x5C fcb_world)).2.2)) !! ino = Some (body st).
Proof.
  split; [by vm_compute|].
  destruct (record_file_refines false true 0x5C fcb_world demo_ops) as (ino & d0 & st & -> & Hr & _ & Hb & _).
  - apply no_disk_ok.
  - intros i j Hi Hj. unfold u16. change (current_dma (the_disk fcb_world)) with 0x80. Z.div_mod_to_equations. lia.
  - unfold demo_ops. repeat (apply Forall_cons_2); cbn; try done; (split; [lia|done]) || lia.
  - intros _. by split.
  - by vm_compute.
  - assert (fcb_record_pos 0x5C (the_mem (begin_file true 0x5C fcb_world)) = 0) as E by (vm_compute; reflexivity).
    change (current_dma (the_disk fcb_world)) with 0x80 in Hr, Hb. rewrite E in Hr. exists ino, st. split; [exact Hr|exact Hb].
Defined.
