(* ===== verification/SearchOk.v ===== *)
(** * SearchOk: BDOS 17 and 18 list the host directory

    A search for all names delivers each visible file of a directory of 8.3
    names once, in the directory's order, and then reports the end.  For
    other names and narrower patterns the matcher reads bytes of its stack
    buffers it never wrote, or writes past them; the last two theorems say
    exactly when. *)

From Stdlib Require Import ZArith Lia Bool List.
From stdpp Require Import base gmap list.
From S2P Require Import Prelude Cpu BlockCache HostFs Disk DiskOk.

Open Scope list_scope.
Open Scope Z_scope.
Open Scope z80_scope.

(** A name an FCB can hold. *)
Definition is_8_3 (name : list Z) : Prop :=
  (length (stem_ext name).1 <= 8)%nat ∧ (length (stem_ext name).2 <= 3)%nat.

(** The FCB at [a] asks for every name. *)
Definition asks_all (a : Z) (m : memory) : Prop :=
  name_bytes a m = replicate 8 QUERY ∧ ext_bytes a m = replicate 3 QUERY.

Lemma pattern_all n arr : pattern_loop (replicate n QUERY) arr = true.
Proof. revert arr. induction n as [|n IH]; intros arr; [done|]. cbn. apply IH. Qed.

Lemma matches_all stack a m name :
  asks_all a m → (length (stem_ext name).1 < 64)%nat → (length (stem_ext name).2 < 16)%nat →
  fcb_name_matches stack a m name = Some true.
Proof.
  intros [Hn He] Hb Hx. unfold fcb_name_matches. rewrite Hn, He. destruct (stem_ext name) as [b x]. cbn [fst snd] in *.
  unfold HOST_BASE, HOST_EXT. destruct (Nat.leb_spec 64 (length b)); [lia|]. destruct (Nat.leb_spec 16 (length x)); [lia|].
  cbn [orb]. rewrite (pattern_all 8). cbn [replicate]. rewrite (pattern_all 3). by rewrite !orb_true_r.
Qed.

(** The copy SNEXT searches with asks for what the original asked for. *)
Lemma load_store_prefix a k bs m n :
  Z.of_nat (length bs) <= 65536 → (k + n <= length bs)%nat →
  load_bytes (a + Z.of_nat k) n (store_bytes a bs m) = take n (drop k bs).
Proof.
  revert a bs m. induction k as [|k IH]; intros a bs m Hl Hk.
  - rewrite Z.add_0_r, drop_0. rewrite <- (load_store a bs m Hl) at 2. by rewrite load_bytes_take.
  - destruct bs as [|b bs]; cbn [length] in *; [lia|]. cbn [store_bytes drop].
    replace (a + Z.of_nat (S k)) with (a + 1 + Z.of_nat k) by lia. apply IH; lia.
Qed.
Lemma take_drop_load a n k l m : (k + l <= n)%nat → take l (drop k (load_bytes a n m)) = load_bytes (a + Z.of_nat k) l m.
Proof.
  revert a n. induction k as [|k IH]; intros a n Hk.
  - rewrite drop_0, Z.add_0_r. apply load_bytes_take. lia.
  - destruct n as [|n]; [lia|]. replace (a + Z.of_nat (S k)) with (a + 1 + Z.of_nat k) by lia.
    rewrite <- (IH (a + 1) n) by lia. done.
Qed.
Lemma fcb_copied a m : 
  let m' := store_bytes 0 (load_bytes a CPM_FCB_SIZE m) ∅ in
  name_bytes 0 m' = name_bytes a m ∧ ext_bytes 0 m' = ext_bytes a m ∧ fcb_byte 0 0 m' = fcb_byte a 0 m.
Proof.
  cbv zeta. assert (length (load_bytes a CPM_FCB_SIZE m) = 36%nat) as Hl by apply length_load.
  unfold name_bytes, ext_bytes. change (0 + 1) with (0 + Z.of_nat 1). change (0 + 9) with (0 + Z.of_nat 9).
  rewrite !load_store_prefix, !take_drop_load by (rewrite ?Hl; unfold CPM_FCB_SIZE; lia). split_and!; [done|done|].
  pose proof (load_store_prefix 0 0 (load_bytes a CPM_FCB_SIZE m) ∅ 1 ltac:(lia) ltac:(lia)) as E.
  rewrite take_drop_load in E by (unfold CPM_FCB_SIZE; lia). clear Hl. revert E. unfold fcb_byte.
  generalize (store_bytes 0 (load_bytes a CPM_FCB_SIZE m) ∅). intros m' E. by injection E.
Qed.

Section Search.
Context {F : Type} `{HostFs F} (stack : list Z → list Z * list Z).
Implicit Types (s : mach (dworld F)).

Lemma dot_file_head name : dot_file name = bool_decide (hd_error name = Some 0x2E).
Proof.
  destruct name as [|c name]; [done|]. cbn. destruct (Z.eqb_spec c DOT) as [->|Hc]; symmetry; [by apply bool_decide_eq_true|].
  apply bool_decide_eq_false. intros [=]. done.
Qed.

(** A directory entry a search can deliver: a regular file whose name does
    not start with a dot. *)
Definition visible (d : disk) (f : F) (name : list Z) : option stat_t :=
  if bool_decide (hd_error name = Some 0x2E) then None
  else match stat (make_host_path d name) f with
       | Some st => if st_reg st then Some st else None | None => None end.
Definition listed (d : disk) (f : F) (entries : list (list Z)) : list (list Z * stat_t) :=
  omap (λ n, option_map (λ st, (n, st)) (visible d f n)) entries.

Definition all_8_3 (d : disk) (f : F) (entries : list (list Z)) : Prop :=
  ∀ n st, In n entries → visible d f n = Some st → is_8_3 n.

Lemma listed_cons d f n entries : listed d f (n :: entries) =
  match visible d f n with Some st => (n, st) :: listed d f entries | None => listed d f entries end.
Proof using Type. unfold listed. cbn. by destruct (visible d f n). Qed.
Lemma search_cons a m n entries s : search_loop stack a m (n :: entries) s =
  match visible (the_disk s) (w_fs s.2) n with
  | None => search_loop stack a m entries s
  | Some st =>
      match fcb_name_matches (stack n) a m n with
      | None => None
      | Some true => Some (Some (n, st), entries)
      | Some false => search_loop stack a m entries s
      end
  end.
Proof using Type.
  cbn [search_loop]. unfold visible. rewrite <- dot_file_head. destruct (dot_file n); [done|]. destruct (stat _ _) as [st|]; [|done]. by destruct (st_reg st).
Qed.

(** The loop stops at the first visible name. *)
Lemma search_loop_all a m entries s :
  asks_all a m → all_8_3 (the_disk s) (w_fs s.2) entries →
  match search_loop stack a m entries s with
  | Some (Some (n, st), rest) =>
      listed (the_disk s) (w_fs s.2) entries = (n, st) :: listed (the_disk s) (w_fs s.2) rest ∧ is_8_3 n ∧
      all_8_3 (the_disk s) (w_fs s.2) rest ∧ (length rest < length entries)%nat
  | Some (None, rest) => listed (the_disk s) (w_fs s.2) entries = []
  | None => False
  end.
Proof using Type.
  intros Ha. induction entries as [|n entries IH]; intros Hok; [done|].
  assert (all_8_3 (the_disk s) (w_fs s.2) entries) as Hok' by (intros n' st' Hn'; apply Hok; by right).
  specialize (IH Hok'). pose proof (λ st, Hok n st (or_introl eq_refl)) as Hn. rewrite search_cons, listed_cons.
  destruct (visible (the_disk s) (w_fs s.2) n) as [st|].
  - destruct (Hn st eq_refl) as [H8 H3]. rewrite matches_all by (done || lia). split_and!; [done|by split|done|cbn; lia].
  - destruct (search_loop stack a m entries s) as [[[[n' st']|] rest]|]; [|done|done].
    destruct IH as (? & ? & ? & ?). split_and!; [done..|cbn; lia].
Qed.

(** ** A whole listing *)

(** SNEXT until it returns FF: the 32 bytes in the buffer after each. *)
Fixpoint more_entries (fuel : nat) (s : mach (dworld F)) : option (list (list Z)) :=
  match fuel with
  | O => None
  | S fuel =>
      match cpm_bdos_search_next stack s with
      | None => None
      | Some s =>
          if rA s.1 =? 0xFF then Some []
          else option_map (cons (load_bytes (current_dma (the_disk s)) 32 (the_mem s))) (more_entries fuel s)
      end
  end.
Definition all_entries (fuel : nat) (a : Z) (s : mach (dworld F)) : option (list (list Z)) :=
  match cpm_bdos_search_first stack a s with
  | None => None
  | Some s =>
      if rA s.1 =? 0xFF then Some []
      else option_map (cons (load_bytes (current_dma (the_disk s)) 32 (the_mem s))) (more_entries fuel s)
  end.
End Search.

(** The entry of a file: drive, name and extension in upper case and padded,
    t1' for a file no one may write, one record. *)
Definition dir_entry (drive : Z) (name : list Z) (st : stat_t) : list Z :=
  let '(base, ext) := stem_ext name in
  let t1 := if st_perm st &' 0x92 =? 0 then 0x80 else 0 in
  map u8 (drive :: pad_field 8 base ++ (default 0x20 (head (pad_field 3 ext)) |' t1) :: tail (pad_field 3 ext) ++
          [0; 0; 0; 1] ++ replicate 16 0).

Lemma length_pad n l : length (pad_field n l) = n.
Proof. unfold pad_field. rewrite length_take, length_app, length_replicate. lia. Qed.

Lemma length_dir_entry drive name st : length (dir_entry drive name st) = 32%nat.
Proof.
  unfold dir_entry. destruct (stem_ext name) as [b x]. rewrite length_map. pose proof (length_pad 3 x) as Hx. destruct (pad_field 3 x) as [|y e]; [done|].
  cbn [length tail] in *. rewrite length_app, length_pad. cbn [length]. rewrite length_app. cbn. lia.
Qed.
Lemma fill_8_3 drive name st : is_8_3 name →
  fill_dir_entry name (negb (nz (st_perm st &' 0x92))) drive = Some (dir_entry drive name st).
Proof.
  intros [Hb Hx]. unfold fill_dir_entry, dir_entry, stem_ext, nz in *. rewrite negb_involutive.
  assert (∀ x, (if st_perm st &' 0x92 =? 0
       then match pad_field 3 x with y :: e => (y |' 0x80) :: e | [] => [] end else pad_field 3 x)
     = (default 0x20 (head (pad_field 3 x)) |' (if st_perm st &' 0x92 =? 0 then 0x80 else 0)) :: tail (pad_field 3 x)) as Hp.
  { intros x. pose proof (length_pad 3 x). destruct (pad_field 3 x) as [|y e]; [done|]. cbn. by case_match; rewrite ?Z.lor_0_r. }
  destruct (split_dot name) as [[b x]|]; cbn [default fst snd id] in *.
  - destruct (Nat.leb_spec 9 (length b)); [lia|]. by rewrite firstn_all2, Hp by lia.
  - by rewrite firstn_all2, Hp by lia.
Qed.

Section Listing.
Context {F : Type} `{HostFs F} (stack : list Z → list Z * list Z).
Implicit Types (s : mach (dworld F)).

(** What both searches do once the loop has run on an all-8.3 directory. *)
Lemma result_some s drive n st rest : is_8_3 n →
  ∃ s', search_result drive (Some (n, st)) rest s = Some s' ∧ rA s'.1 = 0 ∧
    load_bytes (current_dma (the_disk s')) 32 (the_mem s') = dir_entry drive n st ∧
    the_disk s' = set_search (Some rest) (search_fcb (the_disk s)) (the_disk s) ∧ w_fs s'.2 = w_fs s.2.
Proof using Type.
  intros Hn. unfold search_result. rewrite fill_8_3 by done. eexists. split; [reflexivity|].
  set (s1 := on_disk _ s). set (dma := current_dma (the_disk s1)). set (e := dir_entry drive n st).
  destruct (host_wrote_same dma 32 (on_mem (store_bytes dma e) s1)) as (Hm & Hd & Hf).
  split; [done|]. change (the_disk (ret_a 0 ?t)) with (the_disk t). change (the_mem (ret_a 0 ?t)) with (the_mem t).
  change (w_fs (ret_a 0 ?t).2) with (w_fs t.2). rewrite Hd, Hf. split_and!; [|done|done].
  rewrite (load_bytes_ext _ _ (store_bytes dma e (the_mem s1))) by (intros; apply Hm).
  pose proof (length_dir_entry drive n st) as Hl. fold e in Hl. rewrite <- Hl. apply load_store. lia.
Qed.

Lemma more_spec fcb fuel s entries :
  asks_all 0 (store_bytes 0 fcb ∅) → search_dir (the_disk s) = Some entries → search_fcb (the_disk s) = fcb →
  all_8_3 (the_disk s) (w_fs s.2) entries → (length entries < fuel)%nat →
  more_entries stack fuel s =
  Some (map (λ e, dir_entry (fcb_byte 0 0 (store_bytes 0 fcb ∅)) e.1 e.2) (listed (the_disk s) (w_fs s.2) entries)).
Proof using Type.
  intros Ha. revert s entries. induction fuel as [|fuel IH]; intros s entries Hd Hf Hok Hl; [lia|].
  cbn [more_entries]. unfold cpm_bdos_search_next. rewrite Hd, Hf.
  pose proof (search_loop_all stack 0 _ entries s Ha Hok) as Hs.
  destruct (search_loop stack 0 _ entries s) as [[[[n st]|] rest]|]; [| |done].
  - destruct Hs as (-> & Hn & Hok' & Hlen). 
    destruct (result_some s (fcb_byte 0 0 (store_bytes 0 fcb ∅)) n st rest Hn) as (s' & -> & Hz & He & Hd' & Hf').
    rewrite Hz. cbn [Z.eqb]. rewrite He.
    assert (∀ l, listed (the_disk s') (w_fs s'.2) l = listed (the_disk s) (w_fs s.2) l) as Hlist by (intros l; by rewrite Hd', Hf').
    rewrite (IH s' rest); [by rewrite Hlist|by rewrite Hd'|by rewrite Hd'|by rewrite Hd', Hf'|lia].
  - by rewrite Hs.
Qed.
End Listing.

(** C33: a search for all names lists the directory.  When every visible file
    has an 8.3 name, SEARCH FIRST for ????????.??? and as many SEARCH NEXTs
    as succeed deliver one directory entry for each regular file whose name
    does not start with a dot, in the order of the host directory, and then
    FF; whatever the matcher's stack buffers held. *)
Theorem search_lists_directory {F} `{HostFs F} stack a s entries :
  asks_all a (the_mem s) → opendir (make_host_path (the_disk s) [DOT]) (w_fs s.2) = Some entries →
  all_8_3 (the_disk s) (w_fs s.2) entries →
  all_entries stack (S (length entries)) a s =
  Some (map (λ e, dir_entry (fcb_byte a 0 (the_mem s)) e.1 e.2) (listed (the_disk s) (w_fs s.2) entries)).
Proof.
  intros Ha Ho Hok. unfold all_entries, cpm_bdos_search_first.
  set (fcb := load_bytes a CPM_FCB_SIZE (the_mem s)). set (s1 := on_disk (set_search None fcb) s).
  change (the_mem s1) with (the_mem s). change (make_host_path (the_disk s1)) with (make_host_path (the_disk s)).
  change (w_fs s1.2) with (w_fs s.2). rewrite Ho.
  destruct (fcb_copied a (the_mem s)) as (Hn & He & Hdr). fold fcb in Hn, He, Hdr.
  pose proof (search_loop_all stack a _ entries s1 Ha Hok) as Hs. change (w_fs s1.2) with (w_fs s.2) in Hs.
  change (listed (the_disk s1)) with (listed (F:=F) (the_disk s)) in Hs. change (all_8_3 (the_disk s1)) with (all_8_3 (F:=F) (the_disk s)) in Hs.
  destruct (search_loop stack a _ entries s1) as [[[[n st]|] rest]|]; [| |done].
  - destruct Hs as (-> & Hn8 & Hok' & Hlen).
    destruct (result_some s1 (fcb_byte a 0 (the_mem s)) n st rest Hn8) as (s' & -> & Hz & Hb & Hd' & Hf').
    rewrite Hz. cbn [Z.eqb]. rewrite Hb.
    assert (∀ l, listed (the_disk s') (w_fs s'.2) l = listed (the_disk s) (w_fs s.2) l) as Hlist by (intros l; by rewrite Hd', Hf').
    rewrite (more_spec stack fcb _ s' rest).
    + by rewrite Hlist, Hdr.
    + unfold asks_all. by rewrite Hn, He.
    + by rewrite Hd'.
    + by rewrite Hd'.
    + by rewrite Hd', Hf'.
    + lia.
  - by rewrite Hs.
Qed.

(** A host directory with the files A.B and README. *)
Definition two_files : mem_host :=
  mk_mem (mk_view {[ [0x41; DOT; 0x42] := 1%nat; [0x52; 0x45; 0x41; 0x44; 0x4D; 0x45] := 2%nat ]}
            {[ 1%nat := [7]; 2%nat := [] ]} ∅) None [[0x41; DOT; 0x42]].
Definition search_world : mach (dworld mem_host) :=
  (set_mem (store_bytes 0x5C (0 :: replicate 11 QUERY ++ replicate 24 0) ∅) z80_cpu_init,
   mk_dworld None (cpm_disk_init (mk_disk 0 [] [] [] None [])) two_files).
Definition some_stack (name : list Z) : list Z * list Z := (replicate 64 0xAA, replicate 16 0x55).

Lemma search_lists_directory_witness :
  asks_all 0x5C (the_mem search_world) ∧
  all_entries some_stack 3 0x5C search_world =
  Some [dir_entry 0 [0x52; 0x45; 0x41; 0x44; 0x4D; 0x45] (mk_stat 0 true 0x1A4); dir_entry 0 [0x41; DOT; 0x42] (mk_stat 1 true 0x124)].
Proof.
  assert (asks_all 0x5C (the_mem search_world)) as Ha by (split; vm_compute; reflexivity). split; [done|].
  destruct (opendir (make_host_path (the_disk search_world) [DOT]) (w_fs search_world.2)) as [entries|] eqn:Eo; [|by vm_compute in Eo].
  pose proof (search_lists_directory some_stack 0x5C search_world entries Ha Eo) as Hl.
  vm_compute in Eo. injection Eo as <-. cbn [length] in Hl. rewrite Hl; [vm_compute; reflexivity|].
  intros n st [<-|[<-|[]]] _; split; vm_compute; lia.
Defined.

(** ** Names the buffers do not hold *)

(** [host_base] and [host_ext] have room for the name, and [base], of nine
    bytes, for its stem if it has a dot. *)
Definition name_fits (name : list Z) : Prop :=
  match split_dot name with
  | Some (b, x) => (length b <= 8)%nat ∧ (length x <= 15)%nat
  | None => (length name <= 63)%nat
  end.

Lemma listed_none {F} `{HostFs F} d (f : F) entries :
  listed d f entries = [] → ∀ n, In n entries → visible d f n = None.
Proof.
  induction entries as [|e entries IH]; [done|]. rewrite listed_cons. intros Hl n Hn. destruct (visible d f e) eqn:E; [done|].
  destruct Hn as [<-|Hn]; [done|by apply IH].
Qed.
Lemma search_skip {F} `{HostFs F} stack a m before n rest (s : mach (dworld F)) :
  listed (the_disk s) (w_fs s.2) before = [] →
  search_loop stack a m (before ++ n :: rest) s = search_loop stack a m (n :: rest) s.
Proof.
  intros Hl. pose proof (listed_none _ _ _ Hl) as Hv. clear Hl. induction before as [|e before IH]; [done|].
  cbn [app]. rewrite search_cons, (Hv e) by (by left). apply IH. intros n' Hn'. apply Hv. by right.
Qed.

(** C40: a long host name overruns the search.  The first visible file of the
    directory decides a search for all names: if its name fits the
    routine's buffers the search succeeds, and if not (a stem of nine bytes
    or more before a dot, an extension of sixteen, an undotted name of
    sixty-four) it writes past one of them. *)
Theorem long_name_overruns {F} `{HostFs F} stack a (s : mach (dworld F)) before n st rest :
  asks_all a (the_mem s) →
  opendir (make_host_path (the_disk s) [DOT]) (w_fs s.2) = Some (before ++ n :: rest) →
  listed (the_disk s) (w_fs s.2) before = [] → visible (the_disk s) (w_fs s.2) n = Some st →
  (name_fits n → ∃ s', cpm_bdos_search_first stack a s = Some s' ∧ rA s'.1 = 0) ∧
  (¬ name_fits n → cpm_bdos_search_first stack a s = None).
Proof.
  intros Ha Ho Hb Hv. unfold cpm_bdos_search_first. set (s1 := on_disk _ s).
  change (the_mem s1) with (the_mem s). change (make_host_path (the_disk s1)) with (make_host_path (the_disk s)).
  change (w_fs s1.2) with (w_fs s.2). rewrite Ho, search_skip by exact Hb. rewrite search_cons.
  change (visible (the_disk s1) (w_fs s1.2) n) with (visible (the_disk s) (w_fs s.2) n). rewrite Hv.
  unfold search_result, fill_dir_entry, name_fits.
  assert (∀ b x, stem_ext n = (b, x) → (length b < 64)%nat → (length x < 16)%nat →
            fcb_name_matches (stack n) a (the_mem s) n = Some true) as Hm.
  { intros b x E Hb' Hx. apply matches_all; [done|by rewrite E|by rewrite E]. }
  assert (∀ b x, stem_ext n = (b, x) → (64 <= length b ∨ 16 <= length x)%nat →
            fcb_name_matches (stack n) a (the_mem s) n = None) as Hover.
  { intros b x E Hl. unfold fcb_name_matches. rewrite E. unfold HOST_BASE, HOST_EXT.
    destruct (Nat.leb_spec 64 (length b)), (Nat.leb_spec 16 (length x)); done || lia. }
  unfold stem_ext in *. destruct (split_dot n) as [[b x]|] eqn:Ed; cbn [default id] in *.
  - specialize (Hm b x eq_refl). specialize (Hover b x eq_refl). split.
    + intros [H8 H15]. rewrite Hm by lia. cbv beta iota. rewrite Ed.
      destruct (Nat.leb_spec 9 (length b)); [lia|]. eexists. split; reflexivity.
    + intros Hno. destruct (decide (64 <= length b ∨ 16 <= length x)%nat) as [Hl|Hl]; [by rewrite Hover|].
      rewrite Hm by lia. cbv beta iota. rewrite Ed. destruct (Nat.leb_spec 9 (length b)); [done|lia].
  - specialize (Hm n [] eq_refl). specialize (Hover n [] eq_refl). split.
    + intros Hl. rewrite Hm by (cbn; lia). cbv beta iota. rewrite Ed. eexists. split; reflexivity.
    + intros Hl. by rewrite Hover by lia.
Qed.

Definition long_file : mem_host :=
  mk_mem (mk_view {[ replicate 9 0x61 ++ [DOT; 0x63] := 1%nat ]} {[ 1%nat := [] ]} ∅) None [].
Definition long_world : mach (dworld mem_host) :=
  (search_world.1, mk_dworld None (w_disk search_world.2) long_file).
Lemma long_name_overruns_witness : cpm_bdos_search_first some_stack 0x5C long_world = None.
Proof.
  assert (asks_all 0x5C (the_mem long_world)) as Ha by (split; vm_compute; reflexivity).
  assert (opendir (make_host_path (the_disk long_world) [DOT]) (w_fs long_world.2) = Some ([] ++ (replicate 9 0x61 ++ [DOT; 0x63]) :: []))
    as Ho by (vm_compute; reflexivity).
  assert (visible (the_disk long_world) (w_fs long_world.2) (replicate 9 0x61 ++ [DOT; 0x63]) = Some (mk_stat 0 true 0x1A4))
    as Hv by (vm_compute; reflexivity).
  destruct (long_name_overruns some_stack 0x5C long_world [] _ _ [] Ha Ho eq_refl Hv) as [_ Hn].
  apply Hn. unfold name_fits. change (split_dot _) with (Some (replicate 9 0x61, [0x63])). cbn. lia.
Defined.

(** ** What the matcher reads *)

(** The bytes of an array of [n] after a string [l] and its NUL are blank. *)
Definition blanks (n : nat) (l junk : list Z) : bool :=
  forallb (λ c, (c =? 0) || (c =? 0x20)) (take (n - S (length l)) (drop (S (length l)) junk)).

(** A byte of a name that stands for itself. *)
Definition plain_byte (c : Z) : Prop := 0x20 < c < 0x7F ∧ c ≠ QUERY ∧ c ≠ STAR.

Lemma pad_short n l : (length l <= n)%nat → pad_field n l = map toupper l ++ replicate (n - length l) 0x20.
Proof.
  intros Hl. unfold pad_field. rewrite take_app_ge by (rewrite length_map; lia). rewrite length_map, take_replicate.
  do 2 f_equal. lia.
Qed.
Lemma lower_upper c : tolower (toupper c) = tolower c.
Proof.
  unfold toupper. destruct (Z.leb_spec 0x61 c), (Z.leb_spec c 0x7A); cbn [andb]; try done. unfold tolower.
  destruct (Z.leb_spec 0x41 (c - 32)), (Z.leb_spec (c - 32) 0x5A), (Z.leb_spec 0x41 c), (Z.leb_spec c 0x5A); cbn [andb]; lia.
Qed.
Lemma upper_plain c : plain_byte c → 0 < toupper c < 0x80 ∧ toupper c ≠ STAR.
Proof. unfold plain_byte, toupper, STAR, QUERY. intros. case_match eqn:E; [apply andb_true_iff in E as [?%Z.leb_le ?%Z.leb_le]|]; lia. Qed.

Lemma c_string_plain l k : Forall plain_byte l →
  c_string (map toupper l ++ replicate k 0x20) = map toupper l ++ replicate k 0x20.
Proof.
  induction 1 as [|c l Hc Hl IH]; cbn [map app].
  - induction k as [|k IH]; [done|]. cbn. by rewrite IH.
  - cbn [c_string]. destruct (upper_plain c Hc) as [Hu _]. destruct (Z.eqb_spec (toupper c) 0); [lia|]. by rewrite IH.
Qed.
Lemma strncase_pad l k : strncase_eq (length l + k) (map toupper l ++ replicate k 0x20) l = (k =? 0)%nat.
Proof.
  induction l as [|c l IH]; cbn [map app length Nat.add strncase_eq].
  - by destruct k.
  - by rewrite lower_upper, Z.eqb_refl.
Qed.

Lemma pattern_blanks k arr :
  pattern_loop (replicate k 0x20) arr = forallb (λ c, (c =? 0) || (c =? 0x20)) (take k arr).
Proof.
  revert arr. induction k as [|k IH]; intros arr; [by destruct arr|]. cbn [replicate pattern_loop].
  change (0x20 =? 0) with false. change (0x20 =? QUERY) with false. cbv zeta iota. cbn [negb andb].
  destruct arr as [|h arr]; cbn [tl take forallb].
  - change (tolower 0x20 =? tolower (if 0 =? 0 then 0x20 else 0)) with true. cbn [negb]. rewrite IH. by rewrite take_nil.
  - rewrite <- IH. destruct (Z.eqb_spec h 0) as [->|]; [done|]. cbn [orb].
    assert ((tolower 0x20 =? tolower h) = (h =? 0x20)) as ->; [|by destruct (h =? 0x20)].
    apply eq_true_iff_eq. rewrite !Z.eqb_eq. unfold tolower at 2. change (tolower 0x20) with 0x20.
    case_match eqn:E; [apply andb_true_iff in E as [?%Z.leb_le ?%Z.leb_le]|]; lia.
Qed.
Lemma pattern_same l pat arr : Forall plain_byte l →
  pattern_loop (map toupper l ++ pat) (l ++ arr) = pattern_loop pat arr.
Proof.
  induction 1 as [|c l Hc Hl IH]; [done|]. cbn [map app pattern_loop tl]. destruct (upper_plain c Hc) as [Hu _].
  destruct Hc as [Hc _]. destruct (Z.eqb_spec (toupper c) 0); [lia|]. destruct (Z.eqb_spec c 0); [lia|].
  by rewrite lower_upper, Z.eqb_refl, andb_false_r.
Qed.

(** One field of the FCB against the string of its own name. *)
Lemma field_match n l junk : Forall plain_byte l → (length l <= n)%nat →
  strncase_eq n (c_string (pad_field n l)) l || pattern_loop (pad_field n l) (copied l junk) = blanks n l junk.
Proof.
  intros Hl Hn. rewrite pad_short by done. rewrite c_string_plain by done. unfold copied, blanks.
  replace (strncase_eq n) with (strncase_eq (length l + (n - length l))) by (f_equal; lia).
  rewrite strncase_pad, pattern_same by done. destruct (n - length l)%nat as [|k] eqn:E.
  - cbn. by replace (n - S (length l))%nat with 0%nat by lia.
  - cbn [Nat.eqb orb]. rewrite pattern_blanks. cbn [take forallb]. by replace (n - S (length l))%nat with k by lia.
Qed.

Lemma star_pad n l : Forall plain_byte l → (length l <= n)%nat →
  match pad_field n l with c :: _ => c =? STAR | [] => false end = false.
Proof.
  intros Hl Hn. rewrite pad_short by done. destruct Hl as [|c l Hc Hl]; cbn [map app].
  - by destruct (n - length [])%nat.
  - destruct (upper_plain c Hc). by apply Z.eqb_neq.
Qed.
Lemma first_pad l : Forall plain_byte l → (length l <= 3)%nat → ∃ c r, pad_field 3 l = c :: r ∧ c ≠ 0.
Proof.
  intros Hl Hn. rewrite pad_short by done. destruct Hl as [|c l Hc Hl]; cbn [map app length Nat.sub replicate]; [by eexists _, _|].
  destruct (upper_plain c Hc). eexists _, _. split; [done|lia].
Qed.

(** An exact search depends on what the stack held.  When the FCB holds
    the name of a host file, the matcher accepts that file just when the
    bytes its two arrays held before the call are NUL or blank in the places
    the name does not reach: it compares them all, but copies only the
    string.  A name of eight characters with an extension of three, or one
    short of that, is always found; a shorter one only by luck. *)
Theorem exact_match_reads_stack stack a m name :
  is_8_3 name → Forall plain_byte (stem_ext name).1 → Forall plain_byte (stem_ext name).2 →
  name_bytes a m = pad_field 8 (stem_ext name).1 → ext_bytes a m = pad_field 3 (stem_ext name).2 →
  fcb_name_matches stack a m name =
  Some (blanks 8 (stem_ext name).1 stack.1 && blanks 3 (stem_ext name).2 stack.2).
Proof.
  intros [H8 H3] Hb Hx Hn He. unfold fcb_name_matches. rewrite Hn, He. destruct (stem_ext name) as [b x]. cbn [fst snd] in *.
  unfold HOST_BASE, HOST_EXT. destruct (Nat.leb_spec 64 (length b)); [lia|]. destruct (Nat.leb_spec 16 (length x)); [lia|].
  cbn [orb]. rewrite !star_pad by done. cbn [orb]. rewrite field_match by done. do 2 f_equal.
  rewrite <- (field_match 3 x) by done. f_equal. destruct (first_pad x Hx H3) as (c & r & -> & Hc).
  by destruct (Z.eqb_spec c 0).
Qed.

Definition ab_memory : memory := store_bytes 0x5D (pad_field 8 [0x41] ++ pad_field 3 [0x42]) ∅.
Lemma exact_match_reads_stack_witness :
  fcb_name_matches (replicate 64 0, replicate 16 0) 0x5C ab_memory [0x41; DOT; 0x42] = Some true ∧
  fcb_name_matches (replicate 64 0xAA, replicate 16 0) 0x5C ab_memory [0x41; DOT; 0x42] = Some false.
Proof.
  split; (rewrite exact_match_reads_stack;
    [vm_compute; reflexivity|split; cbn; lia|repeat constructor; vm_compute; done|repeat constructor; vm_compute; done
    |vm_compute; reflexivity|vm_compute; reflexivity]).
Defined.
