(* ===== verification/Term.v ===== *)
(** * Term: the terminal the emulator paints on

    [TtyHost] is what src/kaypro/kaypro_render_tty.c asks of the host: bytes
    to the stream, the monotonic clock, the window size.  [TermLaws] states
    the documented meaning (ECMA-48, VT100) of the few sequences the renderer
    sends, on a view of the terminal: cells with glyph and style, the cursor,
    the current style.  [mem_tty] is a terminal that has them. *)

From Stdlib Require Import ZArith Lia Bool List Ascii String.
From stdpp Require Import base list.
From S2P Require Import Prelude Video Kbd.

Open Scope string_scope.
Open Scope list_scope.
Open Scope Z_scope.
Open Scope z80_scope.

(** [clock]: nanoseconds of [CLOCK_MONOTONIC].  [winsize]: [TIOCGWINSZ]. *)
Class TtyHost (H : Type) := {
  tty_put : list Z → H → H;
  clock : H → Z * H;
  winsize : H → option (Z * Z)
}.

(** ** The view *)

Record style := mk_style { dim : bool; underline : bool; blink : bool; reversed : bool }.
Definition plain : style := mk_style false false false false.

(** [t_glyph r c]: code point and style.  [t_at]: the cursor; a column equal
    to the width is the pending wrap after the last cell of a line. *)
Record tview := mk_tview {
  t_glyph : Z → Z → Z * style;
  t_at : Z * Z;
  t_style : style;
  t_shown : bool;
  t_size : Z * Z
}.

(** Control sequences with numeric parameters, private modes, characters. *)
Inductive tty_op : Set :=
  | Csi (params : list Z) (final : Z)
  | Priv (mode : Z) (on : bool)
  | Glyph (cp : Z).

(** *** As bytes *)

Definition ESC : Z := 0x1B.
(** [%d] of a value that is not negative. *)
Fixpoint dec_go (fuel : nat) (n : Z) (acc : list Z) : list Z :=
  match fuel with
  | O => acc
  | S fuel => let acc := (chr "0" + n mod 10) :: acc in if n <? 10 then acc else dec_go fuel (n / 10) acc
  end.
Definition dec (n : Z) : list Z := dec_go 20 n [].

Fixpoint join (ps : list Z) : list Z :=
  match ps with [] => [] | [p] => dec p | p :: ps => dec p ++ chr ";" :: join ps end.
Definition utf8 (cp : Z) : list Z :=
  if cp <? 0x80 then [cp] else [0xE0 |' (cp >>' 12); 0x80 |' ((cp >>' 6) &' 0x3F); 0x80 |' (cp &' 0x3F)].

Definition op_bytes (op : tty_op) : list Z :=
  match op with
  | Csi ps f => [ESC; chr "["] ++ join ps ++ [f]
  | Priv n on => [ESC; chr "["; chr "?"] ++ dec n ++ [if on then chr "h" else chr "l"]
  | Glyph cp => utf8 cp
  end.

(** *** What they do *)

Definition sgr (s : style) (p : Z) : style :=
  match p with
  | 0 => plain
  | 2 => mk_style true (underline s) (blink s) (reversed s)
  | 4 => mk_style (dim s) true (blink s) (reversed s)
  | 5 => mk_style (dim s) (underline s) true (reversed s)
  | 7 => mk_style (dim s) (underline s) (blink s) true
  | _ => s
  end.
Definition upd (f : Z → Z → Z * style) (r c : Z) (g : Z * style) : Z → Z → Z * style :=
  λ r' c', if (r' =? r) && (c' =? c) then g else f r' c'.

Definition apply_op (op : tty_op) (v : tview) : tview :=
  match op with
  | Csi ps f =>
      if f =? chr "H" then
        mk_tview (t_glyph v) (match ps with [r; c] => (r - 1, c - 1) | _ => (0, 0) end) (t_style v) (t_shown v) (t_size v)
      else if f =? chr "m" then
        mk_tview (t_glyph v) (t_at v) (fold_left sgr ps (t_style v)) (t_shown v) (t_size v)
      else if f =? chr "J" then
        mk_tview (λ _ _, (0x20, plain)) (t_at v) (t_style v) (t_shown v) (t_size v)
      else if f =? chr "K" then
        mk_tview (λ r c, if (r =? (t_at v).1) && ((t_at v).2 <=? c) then (0x20, plain) else t_glyph v r c)
          (t_at v) (t_style v) (t_shown v) (t_size v)
      else v
  | Priv _ on => mk_tview (t_glyph v) (t_at v) (t_style v) on (t_size v)
  | Glyph cp =>
      mk_tview (upd (t_glyph v) (t_at v).1 (t_at v).2 (cp, t_style v)) ((t_at v).1, (t_at v).2 + 1)
        (t_style v) (t_shown v) (t_size v)
  end.

(** When the documents say so: a position on the screen, erasing in the
    default style, cursor visibility, a printable narrow character (ASCII,
    or a braille pattern) with no wrap pending. *)
Definition op_ok (op : tty_op) (v : tview) : Prop :=
  match op with
  | Csi ps f =>
      f = chr "H" ∧ (ps = [] ∨ ∃ r c, ps = [r; c] ∧ 1 <= r <= (t_size v).1 ∧ 1 <= c <= (t_size v).2) ∨
      f = chr "m" ∧ ps ≠ [] ∧ Forall (λ p, 0 <= p < 10) ps ∨
      f = chr "J" ∧ ps = [2] ∧ t_style v = plain ∨
      f = chr "K" ∧ ps = [] ∧ t_style v = plain
  | Priv n _ => n = 25
  | Glyph cp => (0x20 <= cp < 0x7F ∨ 0x2800 <= cp < 0x2900) ∧ (t_at v).2 < (t_size v).2
  end.

(** [ready]: no sequence is half sent. *)
Class TermLaws (H : Type) `{TtyHost H} := {
  ready : H → Prop;
  tty_view : H → tview;
  put_nil h : tty_put [] h = h;
  put_app a b h : tty_put (a ++ b) h = tty_put b (tty_put a h);
  put_op op h : ready h → op_ok op (tty_view h) →
    ready (tty_put (op_bytes op) h) ∧ tty_view (tty_put (op_bytes op) h) = apply_op op (tty_view h);
  put_alternate on h : ready h →
    ready (tty_put (op_bytes (Priv 1049 on)) h) ∧ t_size (tty_view (tty_put (op_bytes (Priv 1049 on)) h)) = t_size (tty_view h);
  clock_view h : tty_view (clock h).2 = tty_view h;
  clock_ready h : ready h → ready (clock h).2;
  winsize_view h r c : winsize h = Some (r, c) → t_size (tty_view h) = (r, c)
}.

(** ** A terminal *)

(** Where the parser of the byte stream is. *)
Inductive pstate : Set :=
  | Ground
  | Escape
  | InCsi (private : bool) (got : list Z) (cur : option Z)
  | InUtf8 (left : nat) (acc : Z).

Record mem_tty := mk_mem_tty { m_view : tview; m_parse : pstate; m_time : Z }.

Definition digit (c : Z) : bool := (chr "0" <=? c) && (c <=? chr "9").
Definition params (got : list Z) (cur : option Z) : list Z :=
  match cur with Some n => got ++ [n] | None => got end.

Definition mem_byte (t : mem_tty) (b : Z) : mem_tty :=
  let to st := mk_mem_tty (m_view t) st (m_time t) in
  let run op := mk_mem_tty (apply_op op (m_view t)) Ground (m_time t) in
  match m_parse t with
  | Ground =>
      if b =? ESC then to Escape
      else if b <? 0x80 then run (Glyph b)
      else to (InUtf8 2 (b &' 0x0F))
  | InUtf8 n acc =>
      let acc := (acc <<' 6) |' (b &' 0x3F) in
      match n with S (S n) => to (InUtf8 (S n) acc) | _ => run (Glyph acc) end
  | Escape => to (InCsi false [] None)
  | InCsi priv got cur =>
      if b =? chr "?" then to (InCsi true got cur)
      else if digit b then to (InCsi priv got (Some (10 * default 0 cur + (b - chr "0"))))
      else if b =? chr ";" then to (InCsi priv (got ++ [default 0 cur]) None)
      else if priv then run (Priv (default 0 cur) (b =? chr "h"))
      else run (Csi (params got cur) b)
  end.

#[export] Instance mem_tty_host : TtyHost mem_tty := {|
  tty_put bs t := fold_left mem_byte bs t;
  clock t := (m_time t, mk_mem_tty (m_view t) (m_parse t) (m_time t + 20000000));
  winsize t := Some (t_size (m_view t))
|}.

Definition no_stop (f : Z) : Prop := f = chr "H" ∨ f = chr "m" ∨ f = chr "J" ∨ f = chr "K" ∨ f = chr "h" ∨ f = chr "l".

(** A decimal number inside a sequence. *)
Definition shift10 (cur : option Z) (n : Z) (l : nat) : Z := 10 ^ Z.of_nat l * default 0 cur + n.

Lemma dec_go_app fuel n acc : dec_go fuel n acc = dec_go fuel n [] ++ acc.
Proof.
  revert n acc. induction fuel as [|fuel IH]; intros n acc; [done|]. cbn [dec_go]. case_match; [done|].
  rewrite IH, (IH _ [_]), <- app_assoc. done.
Qed.
Lemma mem_digit v priv got cur t d : 0 <= d < 10 →
  mem_byte (mk_mem_tty v (InCsi priv got cur) t) (chr "0" + d) =
  mk_mem_tty v (InCsi priv got (Some (10 * default 0 cur + d))) t.
Proof.
  intros Hd. unfold mem_byte. cbn [m_parse m_view m_time]. change (chr "0") with 48. unfold digit.
  change (chr "?") with 63. change (chr "0") with 48. change (chr "9") with 57.
  destruct (Z.eqb_spec (48 + d) 63); [lia|]. destruct (Z.leb_spec 48 (48 + d)), (Z.leb_spec (48 + d) 57); try lia.
  cbn [andb]. do 4 f_equal. lia.
Qed.
Lemma dec_go_S fuel n acc :
  dec_go (S fuel) n acc = if n <? 10 then (chr "0" + n mod 10) :: acc else dec_go fuel (n / 10) ((chr "0" + n mod 10) :: acc).
Proof. done. Qed.
Lemma mem_dec_go fuel n v priv got t : 0 <= n < 10 ^ Z.of_nat (S fuel) →
  fold_left mem_byte (dec_go (S fuel) n []) (mk_mem_tty v (InCsi priv got None) t) =
  mk_mem_tty v (InCsi priv got (Some n)) t.
Proof.
  revert n. induction fuel as [|fuel IH]; intros n Hn; rewrite dec_go_S; assert (0 <= n mod 10 < 10) as Hm by (apply Z.mod_pos_bound; lia);
    destruct (Z.ltb_spec n 10) as [|Hge].
  1, 3: cbn [fold_left]; rewrite mem_digit, Z.mod_small by lia; reflexivity.
  - change (10 ^ Z.of_nat 1) with 10 in Hn. lia.
  - rewrite Nat2Z.inj_succ, Z.pow_succ_r in Hn by lia.
    assert (0 <= n / 10 < 10 ^ Z.of_nat (S fuel)) as Hd by (split; [apply Z.div_pos; lia|apply Z.div_lt_upper_bound; lia]).
    rewrite dec_go_app, fold_left_app, (IH (n / 10) Hd). cbn [fold_left]. rewrite mem_digit by lia. cbn [from_option id].
    do 3 f_equal. pose proof (Z.div_mod n 10). lia.
Qed.
Lemma mem_dec n v priv got t : 0 <= n < 10000 →
  fold_left mem_byte (dec n) (mk_mem_tty v (InCsi priv got None) t) = mk_mem_tty v (InCsi priv got (Some n)) t.
Proof. intros Hn. apply mem_dec_go. cbn. lia. Qed.

Lemma mem_final v got cur t f : f = chr "H" ∨ f = chr "m" ∨ f = chr "J" ∨ f = chr "K" →
  mem_byte (mk_mem_tty v (InCsi false got cur) t) f = mk_mem_tty (apply_op (Csi (params got cur) f) v) Ground t.
Proof. by intros [->|[->|[->| ->]]]. Qed.
Lemma mem_join ps v got t : ps ≠ [] → Forall (λ p, 0 <= p < 10000) ps →
  ∃ d c, fold_left mem_byte (join ps) (mk_mem_tty v (InCsi false got None) t) = mk_mem_tty v (InCsi false d c) t ∧
         params d c = got ++ ps.
Proof.
  intros Hne Hps. revert got Hne. induction Hps as [|p ps Hp Hps IH]; intros got Hne; [done|].
  destruct ps as [|q ps].
  - exists got, (Some p). cbn [join]. by rewrite mem_dec.
  - change (join (p :: q :: ps)) with (dec p ++ chr ";" :: join (q :: ps)).
    rewrite fold_left_app, mem_dec by done. cbn [fold_left].
    change (mem_byte (mk_mem_tty v (InCsi false got (Some p)) t) (chr ";"))
      with (mk_mem_tty v (InCsi false (got ++ [p]) None) t).
    destruct (IH (got ++ [p])) as (d & c & -> & E); [done|]. exists d, c. split; [done|]. by rewrite E, <- app_assoc.
Qed.
Lemma mem_csi ps v t f : f = chr "H" ∨ f = chr "m" ∨ f = chr "J" ∨ f = chr "K" → Forall (λ p, 0 <= p < 10000) ps →
  fold_left mem_byte (op_bytes (Csi ps f)) (mk_mem_tty v Ground t) = mk_mem_tty (apply_op (Csi ps f) v) Ground t.
Proof.
  intros Hf Hps. cbn [op_bytes app fold_left].
  change (mem_byte (mem_byte _ ESC) (chr "[")) with (mk_mem_tty v (InCsi false [] None) t).
  rewrite fold_left_app. destruct (decide (ps = [])) as [->|Hne]; [by apply mem_final|].
  destruct (mem_join ps v [] t Hne Hps) as (d & c & -> & E). cbn [fold_left]. rewrite mem_final by done. by rewrite E.
Qed.
Lemma mem_priv n on v t : 0 <= n < 10000 →
  fold_left mem_byte (op_bytes (Priv n on)) (mk_mem_tty v Ground t) = mk_mem_tty (apply_op (Priv n on) v) Ground t.
Proof.
  intros Hn. cbn [op_bytes app fold_left].
  change (mem_byte (mem_byte (mem_byte _ ESC) (chr "[")) (chr "?")) with (mk_mem_tty v (InCsi true [] None) t).
  rewrite fold_left_app, mem_dec by done. by destruct on.
Qed.
Lemma mem_glyph cp v t : 0x20 <= cp < 0x7F ∨ 0x2800 <= cp < 0x2900 →
  fold_left mem_byte (utf8 cp) (mk_mem_tty v Ground t) = mk_mem_tty (apply_op (Glyph cp) v) Ground t.
Proof.
  intros Hc. unfold utf8. destruct (Z.ltb_spec cp 0x80) as [Hl|Hl].
  - cbn [fold_left]. unfold mem_byte. cbn [m_parse m_view m_time]. unfold ESC.
    destruct (Z.eqb_spec cp 0x1B); [lia|]. by destruct (Z.ltb_spec cp 0x80); [|lia].
  - cbn [fold_left]. assert (0xE0 |' (cp >>' 12) = 0xE2) as E2.
    { rewrite Z.shiftr_div_pow2 by lia. replace (cp / 2 ^ 12) with 2; [done|]. apply (Z.div_unique _ _ _ (cp - 2 * 2 ^ 12)); lia. }
    assert (∀ acc b, mem_byte (mk_mem_tty v (InUtf8 2 acc) t) b = mk_mem_tty v (InUtf8 1 ((acc <<' 6) |' (b &' 0x3F))) t) as S2 by done.
    assert (∀ acc b, mem_byte (mk_mem_tty v (InUtf8 1 acc) t) b =
              mk_mem_tty (apply_op (Glyph ((acc <<' 6) |' (b &' 0x3F))) v) Ground t) as S1 by done.
    rewrite E2. change (mem_byte (mk_mem_tty v Ground t) 0xE2) with (mk_mem_tty v (InUtf8 2 2) t). rewrite S2, S1.
    do 3 f_equal. clear S1 S2 E2. assert (∀ x, (0x80 |' (x &' 0x3F)) &' 0x3F = x &' 0x3F) as E.
    { intros x. rewrite Z.land_lor_distr_l. change (0x80 &' 0x3F) with 0. rewrite Z.lor_0_l, <- Z.land_assoc. done. }
    rewrite !E. change 0x3F with (Z.ones 6). rewrite !Z.land_ones, !Z.shiftr_div_pow2, !Z.shiftl_mul_pow2 by lia.
    rewrite (Z.lor_comm (2 * 2 ^ 6)), <- (Z.shiftl_mul_pow2 2 6), (lor_shift_add 6 _ 2) by (try lia; apply Z.mod_pos_bound; lia).
    set (q := cp / 2 ^ 6) in *. rewrite (Z.lor_comm (_ * 2 ^ 6)), <- Z.shiftl_mul_pow2 by lia.
    rewrite lor_shift_add by (try lia; pose proof (Z.mod_pos_bound q (2 ^ 6)); pose proof (Z.mod_pos_bound cp (2 ^ 6)); lia).
    pose proof (Z.div_mod cp (2 ^ 6)). fold q in H. assert (q / 2 ^ 6 = 2) as Hq.
    { unfold q. rewrite Z.div_div by lia. symmetry. apply (Z.div_unique _ _ _ (cp - 2 * 2 ^ 12)); lia. }
    pose proof (Z.div_mod q (2 ^ 6)). lia.
Qed.

#[export] Instance mem_tty_laws : TermLaws mem_tty.
Proof.
  refine {| ready t := m_parse t = Ground ∧ 1 <= (t_size (m_view t)).1 < 10000 ∧ 1 <= (t_size (m_view t)).2 < 10000;
            tty_view := m_view |}.
  - done.
  - intros a b t. apply fold_left_app.
  - intros op [v p t] [Hp [Hr Hc]] Ho. cbn [m_parse m_view] in *. subst p. cbn [tty_put mem_tty_host].
    assert (fold_left mem_byte (op_bytes op) (mk_mem_tty v Ground t) = mk_mem_tty (apply_op op v) Ground t) as ->.
    { destruct op as [ps f|n on|cp]; cbn [op_ok] in Ho.
      - apply mem_csi; [tauto|].
        destruct Ho as [[_ [->|(r & c & -> & ? & ?)]]|[[_ [_ Hps]]|[[_ [-> _]]|[_ [-> _]]]]]; try (by repeat constructor; lia).
        eapply Forall_impl; [exact Hps|]. cbn. lia.
      - apply mem_priv. subst. lia.
      - apply mem_glyph. tauto. }
    assert (t_size (apply_op op v) = t_size v) as E by (destruct op; cbn; repeat case_match; done).
    cbn [m_parse m_view]. by rewrite E.
  - intros on [v p t] [Hp Hs]. cbn [m_parse m_view] in *. subst p. cbn [tty_put mem_tty_host]. by rewrite mem_priv by lia.
  - done.
  - by intros [v p t] H.
  - intros t r c E. by injection E.
Defined.
