(* ===== verification/Render.v ===== *)
(** * Render: painting the screen on the terminal (src/kaypro/kaypro_render_tty.c)

    The diffing renderer: it keeps a copy of what it painted last, walks the
    rows the screen marked dirty, and sends a cursor move per run of changed
    cells, an SGR per change of attribute and the characters, writing through
    gaps of up to six unchanged cells; then the status line below the screen
    and the cursor.  The terminal and the clock are the class [TtyHost]. *)

From Stdlib Require Import ZArith Lia Bool List Ascii String.
From stdpp Require Import base list.
From S2P Require Import Prelude Video Kbd Term.

Open Scope string_scope.
Open Scope list_scope.
Open Scope Z_scope.
Open Scope z80_scope.

Definition FRAME_NS : Z := 16000000.
Definition GAP_MAX : Z := 6.
Definition HUD_COLS : nat := 80.

(** The statics of the file.  [out_set]: [out] is not NULL. *)
Record tty := mk_tty {
  out_set : bool;
  active : bool;
  shadow : list (list kaypro_cell);
  shadow_valid : bool;
  last_paint : Z;
  hud_text : list Z;
  hud_painted : list Z;
  hud_dirty : bool;
  term_rows : Z;
  term_cols : Z
}.
Definition tty_static : tty :=
  mk_tty false false (replicate 25 (replicate 80 (mk_cell 0 0))) false 0 [] [] false 24 80.

Definition set_active (b : bool) (t : tty) : tty :=
  mk_tty (out_set t) b (shadow t) (shadow_valid t) (last_paint t) (hud_text t) (hud_painted t) (hud_dirty t)
    (term_rows t) (term_cols t).
Definition set_last_paint (n : Z) (t : tty) : tty :=
  mk_tty (out_set t) (active t) (shadow t) (shadow_valid t) n (hud_text t) (hud_painted t) (hud_dirty t)
    (term_rows t) (term_cols t).
Definition set_shadow (sh : list (list kaypro_cell)) (valid : bool) (t : tty) : tty :=
  mk_tty (out_set t) (active t) sh valid (last_paint t) (hud_text t) (hud_painted t) (hud_dirty t)
    (term_rows t) (term_cols t).
Definition set_hud (text painted : list Z) (dirty : bool) (t : tty) : tty :=
  mk_tty (out_set t) (active t) (shadow t) (shadow_valid t) (last_paint t) text painted dirty (term_rows t) (term_cols t).
Definition kaypro_render_tty_set_size (rows cols : Z) (t : tty) : tty :=
  mk_tty (out_set t) (active t) (shadow t) (shadow_valid t) (last_paint t) (hud_text t) (hud_painted t) (hud_dirty t)
    rows cols.
Definition kaypro_render_tty_set_output (f : bool) (t : tty) : tty :=
  mk_tty f (active t) (shadow t) (shadow_valid t) (last_paint t) (hud_text t) (hud_painted t) (hud_dirty t)
    (term_rows t) (term_cols t).
Definition kaypro_render_tty_active (t : tty) : bool := active t.

(** [kaypro_video_clear_dirty]. *)
Definition kaypro_video_clear_dirty (k : kaypro_video) : kaypro_video :=
  set_cursor_moved false (set_dirty_rows 0 k).

(** ** Bytes *)

Definition put_graphic (g : Z) (pixel7 : bool) : list Z :=
  let dots := if pixel7 then 0x40 else 0 in
  let dots := if nz (g &' 0x02) then dots |' 0x01 else dots in
  let dots := if nz (g &' 0x08) then dots |' 0x02 else dots in
  let dots := if nz (g &' 0x20) then dots |' 0x04 else dots in
  let dots := if nz (g &' 0x01) then dots |' 0x08 else dots in
  let dots := if nz (g &' 0x04) then dots |' 0x10 else dots in
  let dots := if nz (g &' 0x10) then dots |' 0x20 else dots in
  let dots := if nz (g &' 0x40) then dots |' 0x80 else dots in
  let cp := 0x2800 + dots in
  [0xE0 |' (cp >>' 12); 0x80 |' ((cp >>' 6) &' 0x3F); 0x80 |' (cp &' 0x3F)].

Definition put_cell_char (c a : Z) : list Z :=
  if nz (c &' 0x80) then put_graphic c (nz (a &' KV_ATTR_PIXEL7))
  else if (0x20 <=? c) && (c <? 0x7F) then [c]
  else str "?".

Definition emit_attr (a : Z) : list Z :=
  if a =? 0 then ESC :: str "[0m"
  else
    (ESC :: str "[0") ++
    (if nz (a &' KV_ATTR_DIM) then str ";2" else []) ++
    (if nz (a &' KV_ATTR_UNDERLINE) then str ";4" else []) ++
    (if nz (a &' KV_ATTR_BLINK) then str ";5" else []) ++
    (if nz (a &' KV_ATTR_REVERSE) then str ";7" else []) ++ str "m".

Definition emit_goto (r c : Z) : list Z :=
  (ESC :: str "[") ++ dec (r + 1) ++ str ";" ++ dec (c + 1) ++ str "H".

(** ** One row *)

Definition cell_eqb (a b : kaypro_cell) : bool := (ch a =? ch b) && (cell_attr a =? cell_attr b).
Definition cell_in (row : list kaypro_cell) (c : Z) : kaypro_cell := default (mk_cell 0 0) (row !! Z.to_nat c).

(** [diff[c]]: the cell needs painting. *)
Definition diff (full : bool) (row old : list kaypro_cell) (c : Z) : bool :=
  if full then negb (cell_eqb (cell_in row c) blank) else negb (cell_eqb (cell_in row c) (cell_in old c)).
Definition last_diff (d : Z → bool) : Z :=
  fold_left (λ last c, if d c then c else last) (zseq 0 (Z.to_nat KV_COLS)) (-1).

Section Row.
Context (d : Z → bool) (row : list kaypro_cell) (r last : Z).

(** [while (c + k <= last && !diff[c + k]) k++]. *)
Fixpoint gap (fuel : nat) (c : Z) : Z :=
  match fuel with
  | O => 0
  | S fuel => if (c <=? last) && negb (d c) then 1 + gap fuel (c + 1) else 0
  end.

(** The inner loop: a run from [c], the attribute in force [cur]. *)
Fixpoint run_loop (fuel : nat) (c cur : Z) : list Z * Z * Z :=
  match fuel with
  | O => ([], c, cur)
  | S fuel =>
      if negb (c <=? last) then ([], c, cur)
      else if negb (d c) && (GAP_MAX <? gap (Z.to_nat KV_COLS) c) then ([], c, cur)
      else
        let cell := cell_in row c in
        let sgr := cell_attr cell &' Z.lnot KV_ATTR_PIXEL7 in
        let pre := if negb (sgr =? cur) then emit_attr (u8 sgr) else [] in
        let '(bs, c', cur') := run_loop fuel (c + 1) sgr in
        (pre ++ put_cell_char (ch cell) (cell_attr cell) ++ bs, c', cur')
  end.

(** The outer loop. *)
Fixpoint row_loop (fuel : nat) (c cur : Z) : list Z * Z :=
  match fuel with
  | O => ([], cur)
  | S fuel =>
      if negb (c <=? last) then ([], cur)
      else if negb (d c) then row_loop fuel (c + 1) cur
      else
        let '(run, c', cur) := run_loop (Z.to_nat KV_COLS) c cur in
        let '(bs, cur) := row_loop fuel c' cur in
        (emit_goto r c ++ run ++ bs, cur)
  end.
End Row.

(** ** The flush *)

(** The loop over the marked rows: bytes, attribute in force, shadow. *)
Definition paint_row (full : bool) (rows : Z) (k : kaypro_video)
    (acc : list Z * Z * list (list kaypro_cell)) (r : Z) : list Z * Z * list (list kaypro_cell) :=
  let '(bs, cur, sh) := acc in
  if nz (rows &' (1 <<' r)) then
    let row := row_at k r in
    let d := diff full row (default [] (sh !! Z.to_nat r)) in
    let '(b, cur) := row_loop d row r (last_diff d) (S (Z.to_nat KV_COLS)) 0 cur in
    (bs ++ b, cur, <[Z.to_nat r:=row]> sh)
  else acc.
Definition paint_rows (full : bool) (k : kaypro_video) (sh : list (list kaypro_cell)) :=
  let rows := if full then (1 <<' KV_ROWS) - 1 else dirty_rows k in
  fold_left (paint_row full rows k) (zseq 0 (Z.to_nat KV_ROWS)) ([], 0, sh).

Definition hud_goto : list Z := (ESC :: str "[") ++ dec (KV_ROWS + 1) ++ str ";1H".
Definition paint_hud (full : bool) (t : tty) : list Z * tty :=
  if hud_dirty t || full then
    let '(bs, painted) :=
      if KV_ROWS <? term_rows t then
        (match hud_text t, hud_painted t with
         | _ :: _, _ => hud_goto ++ (ESC :: str "[0;2m") ++ hud_text t ++ (ESC :: str "[0m")
         | [], _ :: _ => hud_goto ++ (ESC :: str "[K")
         | [], [] => []
         end, hud_text t)
      else ([], hud_painted t) in
    (bs, set_hud (hud_text t) painted false t)
  else ([], t).

Definition flush_bytes (full : bool) (k : kaypro_video) (t : tty) : list Z * tty :=
  let head := if full then (ESC :: str "[?25l") ++ (ESC :: str "[0m") ++ (ESC :: str "[2J") else ESC :: str "[?25l" in
  let '(body, cur, sh) := paint_rows full k (shadow t) in
  let reset := if nz cur then ESC :: str "[0m" else [] in
  let '(hud, t) := paint_hud full t in
  let tail := emit_goto (cur_row k) (cur_col k) ++ (if cursor_visible k then ESC :: str "[?25h" else []) in
  (head ++ body ++ reset ++ hud ++ tail, set_shadow sh true t).

Definition up_to_date (k : kaypro_video) (t : tty) : bool :=
  shadow_valid t && (dirty_rows k =? 0) && negb (cursor_moved k) && negb (hud_dirty t).

Section Render.
Context {H : Type} `{TtyHost H}.

Definition kaypro_render_tty_flush (force : bool) (k : kaypro_video) (t : tty) (h : H) : kaypro_video * tty * H :=
  if negb (active t) then (k, t, h)
  else if negb force && up_to_date k t then (k, t, h)
  else
    let '(bs, t) := flush_bytes (force || negb (shadow_valid t)) k t in
    let '(now, h) := clock (tty_put bs h) in
    (kaypro_video_clear_dirty k, set_last_paint now t, h).

Definition kaypro_render_tty_flush_if_due (k : kaypro_video) (t : tty) (h : H) : kaypro_video * tty * H :=
  if negb (active t) then (k, t, h)
  else if up_to_date k t then (k, t, h)
  else
    let '(now, h) := clock h in
    if FRAME_NS <=? now - last_paint t then kaypro_render_tty_flush false k t h else (k, t, h).

Definition query_size (t : tty) (h : H) : tty :=
  match winsize h with
  | Some (r, c) => if 0 <? r then kaypro_render_tty_set_size r c t else t
  | None => t
  end.

Definition kaypro_render_tty_set_hud (text : list Z) (t : tty) : tty :=
  let next := match text with [] => [] | _ => take HUD_COLS (text ++ replicate HUD_COLS 0x20) end in
  if decide (next = hud_text t) then t else set_hud next (hud_painted t) true t.

Definition kaypro_render_tty_invalidate (t : tty) (h : H) : tty :=
  let t := set_hud (hud_text t) (hud_painted t) true (set_shadow (shadow t) false t) in
  if out_set t then t else query_size t h.

Definition kaypro_render_tty_init (t : tty) (h : H) : tty * H :=
  let h := tty_put ((ESC :: str "[?1049h") ++ (ESC :: str "[0m") ++ (ESC :: str "[2J") ++ (ESC :: str "[H")
                    ++ (ESC :: str "[?25l")) h in
  let t := set_hud (hud_text t) [] true (set_shadow (shadow t) false t) in
  let t := if out_set t then t else query_size t h in
  let '(now, h) := clock h in
  (set_active true (set_last_paint now t), h).

Definition kaypro_render_tty_shutdown (t : tty) (h : H) : tty * H :=
  if negb (active t) then (t, h)
  else (set_active false t, tty_put ((ESC :: str "[0m") ++ (ESC :: str "[?25h") ++ (ESC :: str "[?1049l")) h).
End Render.
