(* ===== verification/RenderOk.v ===== *)
(** * RenderOk: what the terminal shows (Render.v)

    [painted] ties the renderer's shadow to the terminal: while it is valid
    the terminal shows it, and a row that differs from it is marked dirty.
    Every operation keeps it, and a flush leaves the terminal showing the
    Kaypro screen. *)

From Stdlib Require Import ZArith Lia Bool List Ascii String.
From stdpp Require Import base list.
From S2P Require Import Prelude Video VideoOk Kbd Term Render.

Open Scope string_scope.
Open Scope list_scope.
Open Scope Z_scope.
Open Scope z80_scope.

(** ** What a cell looks like *)

(** The Kaypro's 2 x 4 pixel block, left to right and top to bottom, is
    pixels 1 0, 3 2, 5 4, 7 6; braille numbers its dots by columns, the
    bottom row last. *)
Definition pixel (g : Z) (pixel7 : bool) (x y : Z) : bool :=
  let n := 2 * y + (1 - x) in if n =? 7 then pixel7 else Z.testbit g n.
Definition braille_bit (x y : Z) : Z := if y <? 3 then 3 * x + y else 6 + x.
Definition braille (g : Z) (pixel7 : bool) : Z :=
  fold_left (λ cp xy, if pixel g pixel7 xy.1 xy.2 then cp + 2 ^ braille_bit xy.1 xy.2 else cp)
    [(0, 0); (1, 0); (0, 1); (1, 1); (0, 2); (1, 2); (0, 3); (1, 3)] 0x2800.

Definition glyph (c : kaypro_cell) : Z :=
  if Z.testbit (ch c) 7 then braille (ch c) (Z.testbit (cell_attr c) 4)
  else if (0x20 <=? ch c) && (ch c <? 0x7F) then ch c else chr "?".
(** Dim, underlined, blinking, reversed. *)
Definition style_of (a : Z) : style :=
  mk_style (Z.testbit a 1) (Z.testbit a 3) (Z.testbit a 2) (Z.testbit a 0).
Definition shown (c : kaypro_cell) : Z * style := (glyph c, style_of (cell_attr c)).

(** ** Bytes as operations *)

Lemma nz_bit x n : 0 <= n → nz (x &' 2 ^ n) = Z.testbit x n.
Proof.
  intros Hn. unfold nz. destruct (Z.testbit x n) eqn:E.
  - destruct (Z.eqb_spec (x &' 2 ^ n) 0) as [E0|]; [|done]. exfalso.
    assert (Z.testbit (x &' 2 ^ n) n = true) as Ht by (rewrite Z.land_spec, E, Z.pow2_bits_true by lia; done).
    by rewrite E0, Z.testbit_0_l in Ht.
  - assert (x &' 2 ^ n = 0) as ->; [|done]. apply Z.bits_inj_0. intros m. rewrite Z.land_spec, Z.pow2_bits_eqb by lia.
    destruct (Z.eqb_spec n m); [subst; by rewrite E|apply andb_false_r].
Qed.
Lemma nz_shift x n : 0 <= n → nz (x &' (1 <<' n)) = Z.testbit x n.
Proof. intros. rewrite Z.shiftl_1_l. by apply nz_bit. Qed.

Lemma graphic_bytes g p7 : put_graphic g p7 = utf8 (braille g p7) ∧ 0x2800 <= braille g p7 < 0x2900.
Proof.
  unfold put_graphic. change (g &' 0x02) with (g &' 2 ^ 1). change (g &' 0x08) with (g &' 2 ^ 3). change (g &' 0x20) with (g &' 2 ^ 5).
  change (g &' 0x01) with (g &' 2 ^ 0). change (g &' 0x04) with (g &' 2 ^ 2). change (g &' 0x10) with (g &' 2 ^ 4).
  change (g &' 0x40) with (g &' 2 ^ 6). rewrite !nz_bit by lia. unfold braille, pixel. cbn [fold_left fst snd].
  change (2 * 0 + (1 - 0)) with 1. change (2 * 0 + (1 - 1)) with 0. change (2 * 1 + (1 - 0)) with 3.
  change (2 * 1 + (1 - 1)) with 2. change (2 * 2 + (1 - 0)) with 5. change (2 * 2 + (1 - 1)) with 4.
  change (2 * 3 + (1 - 0)) with 7. change (2 * 3 + (1 - 1)) with 6. cbn [Z.eqb Pos.eqb].
  destruct p7, (Z.testbit g 0), (Z.testbit g 1), (Z.testbit g 2), (Z.testbit g 3), (Z.testbit g 4), (Z.testbit g 5), (Z.testbit g 6);
    (split; [vm_compute; reflexivity|vm_compute; split; [discriminate|reflexivity]]).
Qed.

Lemma cell_bytes c : put_cell_char (ch c) (cell_attr c) = utf8 (glyph c) ∧
  (0x20 <= glyph c < 0x7F ∨ 0x2800 <= glyph c < 0x2900).
Proof.
  unfold put_cell_char, glyph. change 0x80 with (2 ^ 7). change KV_ATTR_PIXEL7 with (2 ^ 4). rewrite !nz_bit by lia.
  destruct (Z.testbit (ch c) 7).
  - destruct (graphic_bytes (ch c) (Z.testbit (cell_attr c) 4)). auto.
  - destruct (Z.leb_spec 0x20 (ch c)), (Z.ltb_spec (ch c) 0x7F); cbn [andb]; try (by split; [|left; vm_compute]).
    split; [|lia]. unfold utf8. by destruct (Z.ltb_spec (ch c) 128); [|lia].
Qed.

Definition attr_params (a : Z) : list Z :=
  0 :: (if Z.testbit a 1 then [2] else []) ++ (if Z.testbit a 3 then [4] else []) ++
  (if Z.testbit a 2 then [5] else []) ++ (if Z.testbit a 0 then [7] else []).
Lemma attr_bytes a : emit_attr a = op_bytes (Csi (attr_params a) (chr "m")).
Proof.
  unfold emit_attr, attr_params. destruct (Z.eqb_spec a 0) as [->|]; [done|].
  change KV_ATTR_DIM with (2 ^ 1). change KV_ATTR_UNDERLINE with (2 ^ 3). change KV_ATTR_BLINK with (2 ^ 2).
  change KV_ATTR_REVERSE with (2 ^ 0). rewrite !nz_bit by lia.
  by destruct (Z.testbit a 1), (Z.testbit a 3), (Z.testbit a 2), (Z.testbit a 0).
Qed.
Lemma attr_style a s : fold_left sgr (attr_params a) s = style_of a.
Proof. unfold attr_params, style_of. by destruct (Z.testbit a 1), (Z.testbit a 3), (Z.testbit a 2), (Z.testbit a 0). Qed.
Lemma attr_params_ok a : Forall (λ p, 0 <= p < 10) (attr_params a).
Proof.
  unfold attr_params. destruct (Z.testbit a 1), (Z.testbit a 3), (Z.testbit a 2), (Z.testbit a 0); cbn; repeat constructor; lia.
Qed.
(** The bits that make the style survive the mask and the truncation. *)
Lemma style_masked a : style_of (u8 (a &' Z.lnot KV_ATTR_PIXEL7)) = style_of a.
Proof.
  unfold style_of, u8. change 256 with (2 ^ 8).
  assert (∀ n, 0 <= n < 4 → Z.testbit ((a &' Z.lnot KV_ATTR_PIXEL7) mod 2 ^ 8) n = Z.testbit a n) as E.
  { intros n Hn. rewrite Z.mod_pow2_bits_low, Z.land_spec, Z.lnot_spec by lia. change KV_ATTR_PIXEL7 with (2 ^ 4).
    rewrite Z.pow2_bits_false by lia. apply andb_true_r. }
  by rewrite !E by lia.
Qed.
Lemma style_sgr a : style_of (a &' Z.lnot KV_ATTR_PIXEL7) = style_of a.
Proof.
  unfold style_of. rewrite !Z.land_spec, !Z.lnot_spec by lia. change KV_ATTR_PIXEL7 with (2 ^ 4).
  rewrite !Z.pow2_bits_false by lia. by rewrite !andb_true_r.
Qed.

Lemma goto_bytes r c : emit_goto r c = op_bytes (Csi [r + 1; c + 1] (chr "H")).
Proof. unfold emit_goto. cbn [op_bytes join]. change (str ";") with [chr ";"]. rewrite <- !app_assoc. done. Qed.

(** ** What bytes do to a terminal *)

Section Draw.
Context {H : Type} `{TermLaws H}.

Definition draws (bs : list Z) (v v' : tview) : Prop :=
  ∀ h, ready h → tty_view h = v → ready (tty_put bs h) ∧ tty_view (tty_put bs h) = v'.

Lemma draws_nil v : draws [] v v.
Proof using Type. intros h Hr Hv. by rewrite put_nil. Qed.
Lemma draws_app a b v v1 v2 : draws a v v1 → draws b v1 v2 → draws (a ++ b) v v2.
Proof using Type. intros Ha Hb h Hr Hv. rewrite put_app. destruct (Ha h Hr Hv). by apply Hb. Qed.
Lemma draws_op op v : op_ok op v → draws (op_bytes op) v (apply_op op v).
Proof using Type. intros Ho h Hr <-. by apply put_op. Qed.

Lemma draws_goto r c v : 0 <= r < (t_size v).1 → 0 <= c < (t_size v).2 →
  draws (emit_goto r c) v (mk_tview (t_glyph v) (r, c) (t_style v) (t_shown v) (t_size v)).
Proof using Type.
  intros Hr Hc. rewrite goto_bytes.
  replace (r, c) with (r + 1 - 1, c + 1 - 1) by (f_equal; lia).
  refine (draws_op (Csi [r + 1; c + 1] (chr "H")) v _). left. split; [done|]. right. exists (r + 1), (c + 1). split; [done|lia].
Qed.
Lemma draws_attr a v : draws (emit_attr a) v (mk_tview (t_glyph v) (t_at v) (style_of a) (t_shown v) (t_size v)).
Proof using Type.
  rewrite attr_bytes, <- (attr_style a (t_style v)).
  refine (draws_op (Csi (attr_params a) (chr "m")) v _). right. left. split; [done|]. split; [done|apply attr_params_ok].
Qed.
Lemma draws_char c v : (t_at v).2 < (t_size v).2 →
  draws (put_cell_char (ch c) (cell_attr c)) v
    (mk_tview (upd (t_glyph v) (t_at v).1 (t_at v).2 (glyph c, t_style v)) ((t_at v).1, (t_at v).2 + 1)
       (t_style v) (t_shown v) (t_size v)).
Proof using Type.
  intros Hat. destruct (cell_bytes c) as [-> Hg]. by refine (draws_op (Glyph (glyph c)) v _).
Qed.

(** ** One row *)

(** Outside row [r] nothing changes; the size and visibility neither. *)
Definition framed (r : Z) (v v' : tview) : Prop :=
  t_size v' = t_size v ∧ t_shown v' = t_shown v ∧ ∀ r' c', r' ≠ r → t_glyph v' r' c' = t_glyph v r' c'.
Lemma framed_refl r v : framed r v v.
Proof using Type. done. Qed.
Lemma framed_trans r v1 v2 v3 : framed r v1 v2 → framed r v2 v3 → framed r v1 v3.
Proof using Type. intros (A1 & B1 & C1) (A2 & B2 & C2). split; [congruence|]. split; [congruence|]. intros. by rewrite C2, C1. Qed.

Section Row.
Context (d : Z → bool) (row : list kaypro_cell) (r last : Z).
Hypothesis Hlast : last < KV_COLS.
Hypothesis Hr : 0 <= r < KV_ROWS.

(** The cells before [c], and those that need no painting, are right. *)
Definition right_to (c : Z) (v : tview) : Prop :=
  KV_ROWS <= (t_size v).1 ∧ KV_COLS <= (t_size v).2 ∧
  ∀ c', 0 <= c' < KV_COLS → c' < c ∨ d c' = false → t_glyph v r c' = shown (cell_in row c').

Lemma run_spec fuel c cur v : 0 <= c → right_to c v → t_at v = (r, c) → t_style v = style_of cur →
  let '(bs, c', cur') := run_loop d row last fuel c cur in
  ∃ v', draws bs v v' ∧ framed r v v' ∧ right_to c' v' ∧ t_style v' = style_of cur' ∧ c <= c' ∧
        ((0 < fuel)%nat → c <= last → d c = true → c < c').
Proof using Hlast.
  revert c cur v. induction fuel as [|fuel IH]; intros c cur v Hc Hright Hat Hst; cbn [run_loop].
  { exists v. split; [apply draws_nil|]. do 4 (split; [done|]). lia. }
  destruct (Z.leb_spec c last) as [Hcl|]; cbn [negb].
  2:{ exists v. split; [apply draws_nil|]. do 4 (split; [done|]). lia. }
  destruct (negb (d c) && _) eqn:Eg.
  { exists v. split; [apply draws_nil|]. do 4 (split; [done|]). intros _ _ Hd. by rewrite Hd in Eg. }
  cbv zeta. set (cell := cell_in row c). set (sg := cell_attr cell &' Z.lnot KV_ATTR_PIXEL7).
  destruct Hright as (Hrows & Hcols & Hcell).
  assert (∃ v1, draws (if negb (sg =? cur) then emit_attr (u8 sg) else []) v v1 ∧
            v1 = mk_tview (t_glyph v) (t_at v) (style_of (cell_attr cell)) (t_shown v) (t_size v)) as (v1 & Hd1 & E1).
  { eexists. split; [|reflexivity]. destruct (Z.eqb_spec sg cur) as [E|]; cbn [negb].
    - rewrite <- (style_sgr (cell_attr cell)). fold sg. rewrite E, <- Hst. destruct v. apply draws_nil.
    - rewrite <- (style_masked (cell_attr cell)). fold sg. apply draws_attr. }
  assert (t_at v1 = (r, c) ∧ t_size v1 = t_size v ∧ t_shown v1 = t_shown v ∧ t_glyph v1 = t_glyph v
          ∧ t_style v1 = style_of (cell_attr cell)) as (Eat & Esz & Esh & Egl & Est) by (by rewrite E1).
  pose proof (draws_char cell v1 ltac:(rewrite Eat, Esz; cbn; lia)) as Hd2. rewrite Eat, Esz, Esh, Egl, Est in Hd2. cbn [fst snd] in Hd2.
  set (v2 := mk_tview _ _ _ _ _) in Hd2.
  assert (framed r v v2) as Hf.
  { split; [done|]. split; [done|]. intros r' c' Hne. subst v2. unfold upd. cbn. by destruct (Z.eqb_spec r' r). }
  assert (right_to (c + 1) v2) as Hr2.
  { split; [done|]. split; [done|]. intros c' Hc' Hor. subst v2. unfold upd. cbn. rewrite Z.eqb_refl. cbn [andb].
    destruct (Z.eqb_spec c' c) as [->|]; [done|]. apply Hcell; [done|]. destruct Hor; [left; lia|by right]. }
  specialize (IH (c + 1) sg v2 ltac:(lia) Hr2 eq_refl).
  destruct (run_loop d row last fuel (c + 1) sg) as [[bs c'] cur'].
  destruct IH as (v' & Hd & Hf' & Hr' & Hst' & Hc' & _); [subst v2; cbn; by rewrite <- style_sgr|].
  exists v'. split; [|split; [by eapply framed_trans|split; [done|split; [done|lia]]]].
  eapply draws_app; [exact Hd1|]. eapply draws_app; [exact Hd2|exact Hd].
Qed.

Lemma row_spec fuel c cur v : last - c < Z.of_nat fuel → 0 <= c → right_to c v → t_style v = style_of cur →
  (∀ c', last < c' < KV_COLS → d c' = false) →
  let '(bs, cur') := row_loop d row r last fuel c cur in
  ∃ v', draws bs v v' ∧ framed r v v' ∧ right_to KV_COLS v' ∧ t_style v' = style_of cur'.
Proof using Hlast Hr.
  intros Hf Hc Hright Hst Hd. revert c cur v Hf Hc Hright Hst.
  assert (∀ c v, last < c → right_to c v → right_to KV_COLS v) as Hend.
  { intros c v Hl (A & B & C). split; [done|]. split; [done|]. intros c' Hc' _. apply C; [done|].
    destruct (decide (c' < c)); [by left|right; apply Hd; lia]. }
  induction fuel as [|fuel IH]; intros c cur v Hf Hc Hright Hst; cbn [row_loop].
  { exists v. split; [apply draws_nil|]. split; [done|]. split; [eapply Hend; [|exact Hright]; lia|done]. }
  destruct (Z.leb_spec c last) as [Hcl|Hcl]; cbn [negb].
  2:{ exists v. split; [apply draws_nil|]. split; [done|]. split; [by eapply Hend|done]. }
  destruct (d c) eqn:Edc; cbn [negb].
  - destruct Hright as (A & B & C). pose proof (draws_goto r c v ltac:(lia) ltac:(unfold KV_COLS in *; lia)) as Hg.
    set (v1 := mk_tview _ _ _ _ _) in Hg.
    assert (right_to c v1) as Hr1 by (by split).
    pose proof (run_spec (Z.to_nat KV_COLS) c cur v1 Hc Hr1 eq_refl Hst) as Hrun.
    destruct (run_loop d row last (Z.to_nat KV_COLS) c cur) as [[run c'] cur1].
    destruct Hrun as (v2 & Hd2 & Hf2 & Hr2 & Hst2 & _ & Hlt). specialize (Hlt ltac:(unfold KV_COLS; lia) Hcl Edc).
    specialize (IH c' cur1 v2 ltac:(lia) ltac:(lia) Hr2 Hst2). destruct (row_loop d row r last fuel c' cur1) as [bs cur'].
    destruct IH as (v' & Hd3 & Hf3 & Hr3 & Hst3). exists v'. split; [|split; [|done]].
    + eapply draws_app; [exact Hg|]. by eapply draws_app.
    + eapply framed_trans; [|exact Hf3]. eapply framed_trans; [|exact Hf2]. done.
  - apply IH; [lia|lia| |done]. destruct Hright as (A & B & C). split; [done|]. split; [done|]. intros c' Hc' Hor.
    apply C; [done|]. destruct Hor as [|]; [|by right]. destruct (decide (c' = c)) as [->|]; [by right|left; lia].
Qed.
End Row.

Lemma last_diff_spec (d : Z → bool) : let l := last_diff d in
  -1 <= l < KV_COLS ∧ ∀ c, 0 <= c < KV_COLS → l < c → d c = false.
Proof using Type.
  unfold last_diff. change KV_COLS with (Z.of_nat 80). rewrite Nat2Z.id. generalize 80%nat as m.
  intros m. induction m as [|n IH]; [split; [cbn; lia|lia]|].
  rewrite zseq_snoc, fold_left_app, Nat2Z.inj_succ. cbn [fold_left]. cbv zeta in *. set (l := fold_left _ _ _) in *.
  destruct IH as [IH1 IH2]. replace (0 + Z.of_nat n) with (Z.of_nat n) by lia. destruct (d (Z.of_nat n)) eqn:E; split; try lia.
  intros c Hc Hl. destruct (decide (c = Z.of_nat n)) as [->|]; [done|]. apply IH2; lia.
Qed.

(** ** The rows *)

Definition shows_row (v : tview) (r : Z) (row : list kaypro_cell) : Prop :=
  ∀ c, 0 <= c < KV_COLS → t_glyph v r c = shown (cell_in row c).

(** Row [r] can be painted from what the terminal shows. *)
Definition paintable (full : bool) (v : tview) (r : Z) (row old : list kaypro_cell) : Prop :=
  ∀ c, 0 <= c < KV_COLS → diff full row old c = false → t_glyph v r c = shown (cell_in row c).

Lemma cell_eqb_eq a b : cell_eqb a b = true → a = b.
Proof using Type. destruct a, b. unfold cell_eqb. cbn. rewrite andb_true_iff, !Z.eqb_eq. intros []. by subst. Qed.
Lemma paintable_old v r row old : shows_row v r old → paintable false v r row old.
Proof using Type.
  intros Hs c Hc Hd. rewrite Hs by done. unfold diff in Hd. apply negb_false_iff, cell_eqb_eq in Hd. by rewrite Hd.
Qed.
Lemma paintable_clear v r row old : (∀ c, 0 <= c < KV_COLS → t_glyph v r c = (0x20, plain)) → paintable true v r row old.
Proof using Type.
  intros Hs c Hc Hd. rewrite Hs by done. unfold diff in Hd. apply negb_false_iff, cell_eqb_eq in Hd. by rewrite Hd.
Qed.

Definition big (v : tview) : Prop := KV_ROWS <= (t_size v).1 ∧ KV_COLS <= (t_size v).2.

Lemma rows_spec (full : bool) k sh v : let rows := if full then (1 <<' KV_ROWS) - 1 else dirty_rows k in
  big v → t_style v = plain → length sh = 25%nat →
  (∀ r, 0 <= r < KV_ROWS → Z.testbit rows r = true → paintable full v r (row_at k r) (default [] (sh !! Z.to_nat r))) →
  (∀ r, 0 <= r < KV_ROWS → Z.testbit rows r = false → shows_row v r (row_at k r) ∧ default [] (sh !! Z.to_nat r) = row_at k r) →
  let '(bs, cur, sh') := paint_rows full k sh in
  ∃ v', draws bs v v' ∧ t_size v' = t_size v ∧ t_shown v' = t_shown v ∧ t_style v' = style_of cur ∧ length sh' = 25%nat ∧
        (∀ r, KV_ROWS <= r → ∀ c, t_glyph v' r c = t_glyph v r c) ∧
        (∀ r, 0 <= r < KV_ROWS → shows_row v' r (row_at k r) ∧ default [] (sh' !! Z.to_nat r) = row_at k r).
Proof using Type.
  intros rows [Hbr Hbc] Hst Hsh Hp Hu. unfold paint_rows. fold rows.
  assert (∀ n, (n <= 25)%nat → let '(bs, cur, sh') := fold_left (paint_row full rows k) (zseq 0 n) ([], 0, sh) in
    ∃ v', draws bs v v' ∧ t_size v' = t_size v ∧ t_shown v' = t_shown v ∧ t_style v' = style_of cur ∧ length sh' = 25%nat ∧
          (∀ r, Z.of_nat n <= r → (∀ c, t_glyph v' r c = t_glyph v r c) ∧ sh' !! Z.to_nat r = sh !! Z.to_nat r) ∧
          (∀ r, 0 <= r < Z.of_nat n → shows_row v' r (row_at k r) ∧ default [] (sh' !! Z.to_nat r) = row_at k r)) as Hn.
  2:{ specialize (Hn 25%nat ltac:(lia)). change (Z.to_nat KV_ROWS) with 25%nat.
      destruct (fold_left (paint_row full rows k) _ ([], 0, sh)) as [[bs cur] sh']. destruct Hn as (v' & A & B & C & D & E & F & G).
      exists v'. do 5 (split; [done|]). split; [|exact G]. intros r Hr'. by apply F. }
  induction n as [|n IH]; intros Hn.
  { exists v. split; [apply draws_nil|]. do 3 (split; [done|]). split; [done|]. split; [done|lia]. }
  rewrite zseq_snoc, fold_left_app. specialize (IH ltac:(lia)). cbn [fold_left]. replace (0 + Z.of_nat n) with (Z.of_nat n) by lia.
  destruct (fold_left (paint_row full rows k) _ ([], 0, sh)) as [[bs cur] sh']. destruct IH as (v1 & Hd1 & Hsz & Hsw & Hs1 & Hl & Hrest & Hdone).
  set (r := Z.of_nat n) in *. assert (0 <= r < KV_ROWS) as Hr by (unfold KV_ROWS; lia).
  unfold paint_row at 1. cbv zeta iota beta. rewrite nz_shift by lia. destruct (Hrest r ltac:(lia)) as [Hg Hshr].
  destruct (Z.testbit rows r) eqn:Et.
  - rewrite Hshr. set (old := default [] (sh !! Z.to_nat r)). set (d := diff full (row_at k r) old).
    destruct (last_diff_spec d) as [Hb Hd].
    pose proof (row_spec d (row_at k r) r (last_diff d) ltac:(lia) Hr (S (Z.to_nat KV_COLS)) 0 cur v1) as Hrow.
    destruct (row_loop _ _ _ _ _ _ _) as [b cur'].
    destruct Hrow as (v2 & Hd2 & (Fs & Fw & Fr) & (_ & _ & Hsr) & Hs2); [unfold KV_COLS in *; lia|lia| |done|intros; apply Hd; lia|].
    { split; [by rewrite Hsz|]. split; [by rewrite Hsz|]. intros c Hc [|Hdc]; [lia|]. rewrite Hg. by apply (Hp r Hr Et). }
    exists v2. split; [by eapply draws_app|]. split; [congruence|]. split; [congruence|]. split; [done|].
    split; [by rewrite length_insert|]. split.
    + intros r' Hr'. assert (r' ≠ r) by lia. split; [intros c; rewrite Fr by done; apply Hrest; lia|].
      rewrite list_lookup_insert_ne by lia. apply Hrest. lia.
    + intros r' Hr'. destruct (decide (r' = r)) as [->|Hne].
      * rewrite list_lookup_insert_eq by lia. split; [|done]. intros c Hc. apply Hsr; [done|]. left. lia.
      * rewrite list_lookup_insert_ne by lia. destruct (Hdone r' ltac:(lia)) as [Hs ?]. split; [|done].
        intros c Hc. rewrite Fr by done. by apply Hs.
  - exists v1. do 5 (split; [done|]). split; [intros r' ?; apply Hrest; lia|]. intros r' Hr'.
    destruct (decide (r' = r)) as [->|Hne]; [|apply Hdone; lia]. destruct (Hu r Hr Et) as [Hs Ho]. rewrite Hshr. split; [|done].
    intros c Hc. rewrite Hg. by apply Hs.
Qed.

(** ** The status line *)

Definition above (v v' : tview) : Prop :=
  t_size v' = t_size v ∧ t_shown v' = t_shown v ∧ t_style v' = t_style v ∧
  ∀ r c, r < KV_ROWS → t_glyph v' r c = t_glyph v r c.
Lemma above_refl v : above v v.
Proof using Type. done. Qed.

Lemma text_spec bs v : Forall printable bs → (t_at v).2 + Z.of_nat (length bs) <= (t_size v).2 →
  ∃ v', draws bs v v' ∧ framed (t_at v).1 v v' ∧ t_style v' = t_style v.
Proof using Type.
  intros Hp. revert v. induction Hp as [|b bs Hb Hp IH]; intros v Hat.
  { exists v. split; [apply draws_nil|]. done. }
  cbn [length] in Hat. pose proof (draws_op (Glyph b) v ltac:(split; [by left|lia])) as Hd.
  assert (op_bytes (Glyph b) = [b]) as E by (cbn; unfold utf8; unfold printable in Hb; by destruct (Z.ltb_spec b 128); [|lia]).
  rewrite E in Hd. set (v1 := apply_op (Glyph b) v) in Hd.
  destruct (IH v1) as (v' & Hd' & Hf & Hs); [cbn; lia|]. exists v'. split; [exact (draws_app [b] bs _ _ _ Hd Hd')|].
  split; [|done]. eapply framed_trans; [|exact Hf]. split; [done|]. split; [done|]. intros r' c' Hne. cbn. unfold upd.
  by destruct (Z.eqb_spec r' (t_at v).1).
Qed.

(** The status text is printable and fits; the remembered height is not
    more than the terminal's. *)
Definition hud_ok (t : tty) (v : tview) : Prop :=
  Forall printable (hud_text t) ∧ (length (hud_text t) <= 80)%nat ∧ (KV_ROWS < term_rows t → KV_ROWS < (t_size v).1).

Lemma hud_spec full t v : hud_ok t v → KV_COLS <= (t_size v).2 → t_style v = plain →
  ∃ v', draws (paint_hud full t).1 v v' ∧ above v v'.
Proof using Type.
  intros (Hp & Hl & Hr) Hc Hs. assert (∃ v', draws [] v v' ∧ above v v') as Hnil.
  { exists v. split; [apply draws_nil|done]. }
  unfold paint_hud. destruct (hud_dirty t || full); [|exact Hnil]. destruct (Z.ltb_spec KV_ROWS (term_rows t)) as [Ht|]; [|exact Hnil].
  pose proof (draws_goto KV_ROWS 0 v ltac:(unfold KV_ROWS in *; lia) ltac:(unfold KV_COLS in *; lia)) as Hg.
  change (emit_goto KV_ROWS 0) with hud_goto in Hg. set (v1 := mk_tview _ _ _ _ _) in Hg.
  destruct (hud_text t) as [|x text] eqn:Etext.
  - destruct (hud_painted t); [exact Hnil|]. cbn [fst]. eexists. split.
    + eapply draws_app; [exact Hg|]. refine (draws_op (Csi [] (chr "K")) v1 _). right. right. right. done.
    + split; [done|]. split; [done|]. split; [done|]. intros r c Hrc.
      change ((if (r =? KV_ROWS) && (0 <=? c) then (0x20, plain) else t_glyph v r c) = t_glyph v r c).
      by destruct (Z.eqb_spec r KV_ROWS); [lia|].
  - cbn [fst]. rewrite <- Etext in *. set (s2 := mk_style true false false false).
    set (v2 := mk_tview (t_glyph v) (KV_ROWS, 0) s2 (t_shown v) (t_size v)).
    assert (draws (ESC :: str "[0;2m") v1 v2) as Hd2.
    { refine (draws_op (Csi [0; 2] (chr "m")) v1 _). right. left. split; [done|]. split; [done|]. repeat constructor; lia. }
    destruct (text_spec (hud_text t) v2 Hp) as (v3 & Hd3 & Hf & _); [cbn; unfold KV_COLS in Hc; lia|].
    eexists. split.
    + eapply draws_app; [exact Hg|]. eapply draws_app; [exact Hd2|]. eapply draws_app; [exact Hd3|].
      refine (draws_op (Csi [0] (chr "m")) v3 _). right. left. split; [done|]. split; [done|]. repeat constructor; lia.
    + destruct Hf as (F1 & F2 & F3). split; [done|]. split; [done|]. split; [done|]. intros r c Hrc. cbn.
      apply F3. cbn. lia.
Qed.
Lemma hud_keeps full t : let t' := (paint_hud full t).2 in
  hud_text t' = hud_text t ∧ term_rows t' = term_rows t ∧ active t' = active t ∧ shadow t' = shadow t ∧
  (full || hud_dirty t = true → hud_dirty t' = false) ∧ (hud_dirty t = false → hud_dirty t' = false).
Proof using Type.
  unfold paint_hud. destruct (hud_dirty t) eqn:Ed, full; cbn [orb snd]; try (by cbn; rewrite ?Ed);
    destruct (KV_ROWS <? term_rows t); done.
Qed.

(** ** The flush *)

(** The terminal shows the Kaypro screen. *)
Definition displays (k : kaypro_video) (v : tview) : Prop :=
  (∀ r, 0 <= r < KV_ROWS → shows_row v r (row_at k r)) ∧ t_at v = (cur_row k, cur_col k) ∧ t_shown v = cursor_visible k.

Record painted (k : kaypro_video) (t : tty) (v : tview) : Prop := {
  pt_big : big v;
  pt_style : t_style v = plain;
  pt_len : length (shadow t) = 25%nat;
  pt_hud : hud_ok t v;
  pt_rows : shadow_valid t = true → ∀ r, 0 <= r < KV_ROWS →
    shows_row v r (default [] (shadow t !! Z.to_nat r)) ∧
    (Z.testbit (dirty_rows k) r = false → default [] (shadow t !! Z.to_nat r) = row_at k r);
  pt_cursor : shadow_valid t = true → cursor_moved k = false →
    t_at v = (cur_row k, cur_col k) ∧ t_shown v = cursor_visible k
}.

Lemma up_to_date_displays k t v : painted k t v → up_to_date k t = true → displays k v.
Proof using Type.
  intros Hp Hu. unfold up_to_date in Hu. apply andb_true_iff in Hu as [Hu _]. apply andb_true_iff in Hu as [Hu Hm].
  apply andb_true_iff in Hu as [Hv Hd%Z.eqb_eq]. apply negb_true_iff in Hm. split; [|by apply (pt_cursor _ _ _ Hp)].
  intros r Hr. destruct (pt_rows _ _ _ Hp Hv r Hr) as [Hs He]. rewrite <- He; [done|]. by rewrite Hd, Z.testbit_0_l.
Qed.

Lemma head_spec full k t v : painted k t v → (full = false → shadow_valid t = true) →
  ∃ v1, draws (if full then (ESC :: str "[?25l") ++ (ESC :: str "[0m") ++ (ESC :: str "[2J") else ESC :: str "[?25l") v v1 ∧
    t_style v1 = plain ∧ t_size v1 = t_size v ∧ t_shown v1 = false ∧
    ∀ r, 0 <= r < KV_ROWS → paintable full v1 r (row_at k r) (default [] (shadow t !! Z.to_nat r)) ∧
         (full = false → t_glyph v1 = t_glyph v).
Proof using Type.
  intros Hp Hv. set (v0 := mk_tview (t_glyph v) (t_at v) plain false (t_size v)).
  assert (draws (ESC :: str "[?25l") v v0) as Hd0.
  { replace v0 with (apply_op (Priv 25 false) v) by (subst v0; rewrite <- (pt_style _ _ _ Hp); by destruct v).
    by refine (draws_op (Priv 25 false) v _). }
  destruct full.
  - eexists. split.
    + eapply draws_app; [exact Hd0|]. eapply draws_app.
      * refine (draws_op (Csi [0] (chr "m")) v0 _). right. left. split; [done|]. split; [done|]. repeat constructor; lia.
      * refine (draws_op (Csi [2] (chr "J")) _ _). right. right. left. done.
    + split; [done|]. split; [done|]. split; [done|]. intros r Hr. split; [|done]. by apply paintable_clear.
  - exists v0. split; [done|]. split; [done|]. split; [done|]. split; [done|]. intros r Hr. split; [|done].
    apply paintable_old. by apply (pt_rows _ _ _ Hp (Hv eq_refl) r Hr).
Qed.

Lemma flush_spec full k t v : painted k t v → screen_ok k → (full = false → shadow_valid t = true) →
  let '(bs, t') := flush_bytes full k t in
  ∃ v', draws bs v v' ∧ displays k v' ∧ painted (kaypro_video_clear_dirty k) t' v' ∧
        active t' = active t ∧ up_to_date (kaypro_video_clear_dirty k) t' = true.
Proof using Type.
  intros Hp Hk Hv. unfold flush_bytes. destruct (head_spec full k t v Hp Hv) as (v1 & Hd1 & Hs1 & Hz1 & Hw1 & Hpt).
  pose proof (rows_spec full k (shadow t) v1) as Hrows. cbv zeta in Hrows.
  destruct (paint_rows full k (shadow t)) as [[body cur] sh].
  destruct Hrows as (v2 & Hd2 & Hz2 & Hw2 & Hs2 & Hl2 & _ & Hr2); [unfold big; rewrite Hz1; apply Hp|done|apply Hp| | |].
  { intros r Hr _. by apply Hpt. }
  { intros r Hr Hb. destruct full; [by rewrite all_bits in Hb|]. destruct (pt_rows _ _ _ Hp (Hv eq_refl) r Hr) as [Hs He].
    rewrite (He Hb) in *. split; [|done]. intros c Hc. destruct (Hpt r Hr) as [_ ->]; [|done]. by apply Hs. }
  assert (∃ v3, draws (if nz cur then ESC :: str "[0m" else []) v2 v3 ∧
            v3 = mk_tview (t_glyph v2) (t_at v2) plain (t_shown v2) (t_size v2)) as (v3 & Hd3 & E3).
  { eexists. split; [|reflexivity]. unfold nz. destruct (Z.eqb_spec cur 0) as [->|]; cbn [negb].
    - change plain with (style_of 0). rewrite <- Hs2. destruct v2. apply draws_nil.
    - refine (draws_op (Csi [0] (chr "m")) v2 _). right. left. split; [done|]. split; [done|]. repeat constructor; lia. }
  assert (hud_ok t v3) as Hh.
  { destruct (pt_hud _ _ _ Hp) as (A & B & C). split; [done|]. split; [done|]. subst v3. cbn. by rewrite Hz2, Hz1. }
  assert (big v3) as Hb3 by (subst v3; unfold big; cbn; rewrite Hz2, Hz1; apply Hp).
  destruct (hud_spec full t v3 Hh) as (v4 & Hd4 & (Hz4 & Hw4 & Hs4 & Hg4)); [apply Hb3|by subst v3|].
  pose proof (hud_keeps full t) as (K1 & K2 & K3 & K4 & K5 & K6). destruct (paint_hud full t) as [hud t']. cbn [fst snd] in *.
  assert (big v4) as Hb4 by (unfold big in *; by rewrite Hz4).
  assert (0 <= cur_row k < KV_ROWS) as Hcr by (apply cur_row_25 in Hk; unfold KV_ROWS; lia).
  pose proof (draws_goto (cur_row k) (cur_col k) v4 ltac:(destruct Hb4; lia) ltac:(destruct Hb4, (ok_col _ Hk); lia)) as Hd5.
  set (v5 := mk_tview _ _ _ _ _) in Hd5.
  assert (∃ v6, draws (if cursor_visible k then ESC :: str "[?25h" else []) v5 v6 ∧
            v6 = mk_tview (t_glyph v4) (cur_row k, cur_col k) plain (cursor_visible k) (t_size v4)) as (v6 & Hd6 & E6).
  { assert (t_style v4 = plain) as Es by (rewrite Hs4; by subst v3).
    assert (t_shown v4 = false) as Ew by (rewrite Hw4; subst v3; cbn; congruence).
    eexists. split; [|reflexivity]. rewrite <- Es. destruct (cursor_visible k).
    - by refine (draws_op (Priv 25 true) v5 _).
    - rewrite <- Ew. apply draws_nil. }
  assert (∀ r, 0 <= r < KV_ROWS → shows_row v6 r (row_at k r)) as Hshow.
  { intros r Hr c Hc. subst v6 v3. cbn in *. rewrite Hg4 by lia. by apply Hr2. }
  assert (hud_dirty t' = false) as Ehd.
  { destruct (hud_dirty t) eqn:E; [apply K5|by apply K6]. by rewrite orb_true_r. }
  exists v6. split.
  { eapply draws_app; [exact Hd1|]. eapply draws_app; [exact Hd2|]. eapply draws_app; [exact Hd3|].
    eapply draws_app; [exact Hd4|]. by eapply draws_app. }
  split; [split; [done|by subst v6]|]. split; [|split; [done|]].
  - constructor; cbn [shadow set_shadow shadow_valid].
    + subst v6. by unfold big in *.
    + by subst v6.
    + done.
    + destruct Hh as (A & B & C). split; [cbn; by rewrite K1|]. split; [cbn; by rewrite K1|]. cbn. rewrite K2. subst v6 v3. cbn in *. by rewrite Hz4.
    + intros _ r Hr. destruct (Hr2 r Hr) as [_ E]. rewrite E. split; [by apply Hshow|done].
    + intros _ _. by subst v6.
  - unfold up_to_date. cbn. by rewrite Ehd.
Qed.

(** ** Any use of the renderer *)

Definition paint_state : Type := kaypro_video * tty * H.

(** What the emulator does to the screen and the renderer once painting is
    on. *)
Inductive paint_event : Set :=
  | PutByte (c : Z)
  | Flush (force : bool)
  | FlushIfDue
  | SetHud (text : list Z)
  | Invalidate.
Definition paint_step (s : paint_state) (e : paint_event) : paint_state :=
  let '(k, t, h) := s in
  match e with
  | PutByte c => (kaypro_video_putc c k, t, h)
  | Flush force => kaypro_render_tty_flush force k t h
  | FlushIfDue => kaypro_render_tty_flush_if_due k t h
  | SetHud text => (k, kaypro_render_tty_set_hud text t, h)
  | Invalidate => (k, kaypro_render_tty_invalidate t h, h)
  end.
Definition event_ok (e : paint_event) : Prop := match e with SetHud text => Forall printable text | _ => True end.

Definition paint_inv (s : paint_state) : Prop :=
  video_ok s.1.1 ∧ ready s.2 ∧ active s.1.2 = true ∧ painted s.1.1 s.1.2 (tty_view s.2).

Lemma painted_putc c k t v : video_ok k → painted k t v → painted (kaypro_video_putc c k) t v.
Proof using Type.
  intros Hk Hp. destruct (rep_putc c k Hk) as [Hr Hc]. constructor; try apply Hp.
  - intros Hv r Hin. destruct (pt_rows _ _ _ Hp Hv r Hin) as [Hs He]. split; [done|]. intros Hb.
    destruct (Hr r Hin) as [E|[-> E]]; [congruence|]. apply He. congruence.
  - intros Hv Hm. destruct Hc as [E|[E Em]]; [congruence|]. unfold cursor in E. injection E as -> -> ->.
    apply (pt_cursor _ _ _ Hp Hv). congruence.
Qed.
Lemma video_ok_clear k : video_ok k → video_ok (kaypro_video_clear_dirty k).
Proof using Type. intros [Hs He]. split; [by destruct Hs; constructor|done]. Qed.

Lemma painted_set_hud text k t v : Forall printable text → painted k t v → painted k (kaypro_render_tty_set_hud text t) v.
Proof using Type.
  intros Ht Hp. unfold kaypro_render_tty_set_hud. set (next := match text with [] => _ | _ => _ end).
  assert (Forall printable next ∧ (length next <= 80)%nat) as [Hn Hl].
  { subst next. destruct text as [|c text]; [split; [done|cbn; lia]|]. split; [|rewrite length_take; unfold HUD_COLS; lia].
    apply Forall_take, Forall_app. split; [done|]. by apply Forall_replicate. }
  destruct (decide _); [done|]. destruct Hp as [H2 H3 H4 (A & B & C) H6 H7]. by constructor.
Qed.
Lemma query_hud k t h : painted k t (tty_view h) → painted k (query_size t h) (tty_view h).
Proof using Type.
  intros Hp. unfold query_size. destruct (winsize h) as [[r c]|] eqn:E; [|done]. destruct (0 <? r); [|done].
  destruct Hp as [H2 H3 H4 (A & B & C) H6 H7]. constructor; try done. split; [done|]. split; [done|]. cbn.
  by rewrite (winsize_view _ _ _ E).
Qed.
Lemma painted_invalid k t v dirty painted_text : painted k t v →
  painted k (set_hud (hud_text t) painted_text dirty (set_shadow (shadow t) false t)) v.
Proof using Type. intros Hp. by destruct Hp; constructor. Qed.
Lemma painted_same k t t' v : painted k t v → shadow t' = shadow t → shadow_valid t' = shadow_valid t →
  hud_text t' = hud_text t → term_rows t' = term_rows t → painted k t' v.
Proof using Type.
  intros [H2 H3 H4 H5 H6 H7] E1 E2 E3 E4. unfold hud_ok in *. constructor; unfold hud_ok; rewrite ?E1, ?E2, ?E3, ?E4; try done.
Qed.

Lemma flush_inv force s : paint_inv s → let s' := kaypro_render_tty_flush force s.1.1 s.1.2 s.2 in
  paint_inv s' ∧ displays s'.1.1 (tty_view s'.2) ∧ (s'.1.1 = s.1.1 ∨ s'.1.1 = kaypro_video_clear_dirty s.1.1).
Proof using Type.
  destruct s as [[k t] h]. intros (Hk & Hr & Ha & Hp). cbn [fst snd] in *. unfold kaypro_render_tty_flush. rewrite Ha. cbn [negb].
  destruct (negb force && up_to_date k t) eqn:Eu.
  { apply andb_true_iff in Eu as [_ Eu]. cbv zeta. cbn [fst snd]. split; [done|]. split; [by eapply up_to_date_displays|by left]. }
  assert (force || negb (shadow_valid t) = false → shadow_valid t = true) as Hv.
  { intros E. apply orb_false_iff in E as [_ E]. by apply negb_false_iff in E. }
  pose proof (flush_spec (force || negb (shadow_valid t)) k t (tty_view h) Hp (proj1 Hk) Hv) as Hf.
  destruct (flush_bytes _ k t) as [bs t']. destruct Hf as (v' & Hd & Hs & Hp' & Ha' & _).
  destruct (Hd h Hr eq_refl) as [Hr' Hv'].
  pose proof (clock_view (tty_put bs h)) as Hcv. pose proof (clock_ready (tty_put bs h) Hr') as Hcr.
  destruct (clock (tty_put bs h)) as [now h']. cbv zeta. cbn [fst snd] in *. rewrite Hv' in Hcv. rewrite Hcv.
  split; [|split; [done|by right]]. split; [by apply video_ok_clear|]. split; [done|]. cbn [fst snd].
  split; [cbn; congruence|]. rewrite Hcv. by eapply painted_same.
Qed.

Lemma if_due_inv s : paint_inv s → paint_inv (kaypro_render_tty_flush_if_due s.1.1 s.1.2 s.2).
Proof using Type.
  intros Hi. unfold kaypro_render_tty_flush_if_due. destruct (negb (active s.1.2)); [by destruct s as [[]]|].
  destruct (up_to_date s.1.1 s.1.2); [by destruct s as [[]]|].
  pose proof (clock_view s.2) as Hcv. pose proof (clock_ready s.2) as Hcr. destruct (clock s.2) as [now h]. cbn [snd] in *.
  assert (paint_inv (s.1.1, s.1.2, h)) as Hi'.
  { destruct Hi as (A & B & C & D). split; [done|]. split; [by apply Hcr|]. split; [done|]. cbn. by rewrite Hcv. }
  destruct (_ <=? _); [|done]. by apply (flush_inv false (s.1.1, s.1.2, h)).
Qed.

Lemma render_step_inv s e : paint_inv s → event_ok e → paint_inv (paint_step s e).
Proof using Type.
  intros Hi He. destruct s as [[k t] h]. destruct e as [c|force| |text|]; cbn [paint_step].
  - destruct Hi as (A & B & C & D). split; [by apply putc_ok|]. split; [done|]. split; [done|]. by apply painted_putc.
  - by apply (flush_inv force (k, t, h)).
  - by apply (if_due_inv (k, t, h)).
  - destruct Hi as (A & B & C & D). split; [done|]. split; [done|]. split; [|by apply painted_set_hud].
    cbn. unfold kaypro_render_tty_set_hud. by destruct (decide _).
  - destruct Hi as (A & B & C & D). split; [done|]. split; [done|]. unfold kaypro_render_tty_invalidate. cbv zeta. cbn [out_set set_hud set_shadow].
    cbn [fst snd] in *. split.
    + cbn. destruct (out_set t); [done|]. unfold query_size. destruct (winsize h) as [[r c]|]; [|done]. by destruct (0 <? r).
    + cbn [fst snd]. pose proof (painted_invalid k t (tty_view h) true (hud_painted t) D) as Hpi.
      destruct (out_set t); [done|]. by apply query_hud.
Qed.

Lemma render_init_inv k h : video_ok k → ready h → big (tty_view h) →
  let '(t, h') := kaypro_render_tty_init tty_static h in paint_inv (k, t, h').
Proof using Type.
  intros Hk Hr Hb. unfold kaypro_render_tty_init. rewrite put_app.
  destruct (put_alternate true h Hr) as [Hr1 Hz1]. change (ESC :: str "[?1049h") with (op_bytes (Priv 1049 true)).
  set (h1 := tty_put (op_bytes (Priv 1049 true)) h) in *.
  set (rest := (ESC :: str "[0m") ++ _). destruct (tty_view h1) as [g at1 st1 sw1 sz1] eqn:Ev1.
  assert (draws rest (tty_view h1) (mk_tview (λ _ _, (0x20, plain)) (0, 0) plain false sz1)) as Hd.
  { rewrite Ev1. subst rest. eapply draws_app.
    { refine (draws_op (Csi [0] (chr "m")) _ _). right. left. split; [done|]. split; [done|]. repeat constructor; lia. }
    eapply draws_app. { refine (draws_op (Csi [2] (chr "J")) _ _). right. right. left. done. }
    eapply draws_app. { refine (draws_op (Csi [] (chr "H")) _ _). left. split; [done|by left]. }
    by refine (draws_op (Priv 25 false) _ _). }
  destruct (Hd h1 Hr1 eq_refl) as [Hr2 Hv2]. set (h2 := tty_put rest h1) in *.
  pose proof (clock_view h2) as Hcv. pose proof (clock_ready h2 Hr2) as Hcr. cbn [out_set tty_static set_hud set_shadow].
  destruct (clock h2) as [now h3]. cbn [snd] in *. split; [done|]. split; [done|]. split; [done|]. cbn [fst snd].
  rewrite Hcv. cbn in Hz1. apply (painted_same k (query_size (set_hud [] [] true (set_shadow (shadow tty_static) false tty_static)) h2)); try done.
  apply query_hud. rewrite Hv2. constructor; try done; cbn.
  - unfold big in *. cbn. by rewrite Hz1.
  - split; [done|]. split; [cbn; lia|]. cbn. unfold KV_ROWS. lia.
Qed.

(** C11: the terminal shows the Kaypro screen.  From power-on of the renderer
    on a terminal of at least 25 lines and 80 columns, after any bytes to
    the screen, flushes, throttled flushes, status texts and invalidations
    in any order, a flush leaves every one of the 2000 cells on the terminal
    with its character (graphics as the braille pattern of their pixels) and
    its attributes, the cursor where the Kaypro's is and visible just when
    it is. *)
Theorem flush_shows_screen k h events force :
  video_ok k → ready h → big (tty_view h) → Forall event_ok events →
  let s := fold_left paint_step events (k, (kaypro_render_tty_init tty_static h).1, (kaypro_render_tty_init tty_static h).2) in
  let s' := kaypro_render_tty_flush force s.1.1 s.1.2 s.2 in
  displays s.1.1 (tty_view s'.2) ∧ cells s'.1.1 = cells s.1.1 ∧ ready s'.2.
Proof using Type.
  intros Hk Hr Hb He s s'. pose proof (render_init_inv k h Hk Hr Hb) as Hi. destruct (kaypro_render_tty_init tty_static h) as [t h'].
  cbn [fst snd] in *. assert (paint_inv s) as Hs.
  { subst s. revert Hi. generalize (k, t, h'). induction He as [|e es He Hes IH]; intros s0 Hi; [done|]. apply IH. by apply render_step_inv. }
  destruct (flush_inv force s Hs) as ((_ & Hr' & _) & Hd & Hc). fold s' in Hr', Hd, Hc. split; [|split; [|done]].
  - destruct Hc as [E|E]; rewrite E in Hd; exact Hd.
  - by destruct Hc as [->| ->].
Qed.
End Draw.

Definition blank_terminal : mem_tty := mk_mem_tty (mk_tview (λ _ _, (0x20, plain)) (0, 0) plain true (30, 100)) Ground 0.
Definition some_events : list paint_event :=
  [PutByte (chr "A"); Flush false; PutByte (chr "B"); SetHud (str "hud"); FlushIfDue; PutByte 0x1B; PutByte (chr "B");
   PutByte (chr "0"); Invalidate; PutByte (chr "C")].
Lemma flush_shows_screen_witness :
  let s := fold_left paint_step some_events (kaypro_video_init KAYPRO_MODEL_84,
    (kaypro_render_tty_init tty_static blank_terminal).1, (kaypro_render_tty_init tty_static blank_terminal).2) in
  displays s.1.1 (tty_view (kaypro_render_tty_flush false s.1.1 s.1.2 s.2).2) ∧
  shown (cell_in (row_at s.1.1 0) 1) = (chr "B", plain) ∧
  shown (cell_in (row_at s.1.1 0) 2) = (chr "C", mk_style false false false true) ∧ cur_col s.1.1 = 3.
Proof.
  assert (Forall event_ok some_events) as He by (repeat constructor; cbn; repeat constructor; done).
  assert (ready blank_terminal ∧ big (tty_view blank_terminal)) as [Hr0 Hb0]
    by (vm_compute; repeat split; discriminate).
  intros s. split; [|split; [|split]]; [|vm_compute; reflexivity..].
  exact (proj1 (flush_shows_screen (kaypro_video_init KAYPRO_MODEL_84) blank_terminal some_events false
                  (init_ok KAYPRO_MODEL_84 (or_intror eq_refl)) Hr0 Hb0 He)).
Defined.
