(* ===== verification/Console.v ===== *)
(** * Console: the unified console of the CP/M shim (src/cpm/cpm_bios.c)

    Console output goes to the Kaypro screen, or to stdout when it is off;
    input comes from the keyboard ring; the list device is a host file.
    BDOS 10, the line editor, is built on them.  [cpm] is the emulator's
    state around the CPU: the files, the keyboard, the screen, its renderer
    and the host.

    A call that does not come back (the process exits, or waits for ever) is
    [None]. *)

From Stdlib Require Import ZArith Lia Bool List Ascii String.
From stdpp Require Import base gmap list.
From S2P Require Import Prelude Cpu BlockCache HostFs Disk Video Kbd Term Render.

Open Scope string_scope.
Open Scope list_scope.
Open Scope Z_scope.
Open Scope z80_scope.

(** The host of the console.  [list_append path]: [fopen(path, "ab")], with
    success; [list_put]: [fputc] and [fflush] on that stream. *)
Class ConsoleHost (H : Type) := {
  console_kbd :: KbdHost H;
  console_tty :: TtyHost H;
  list_append : list Z → H → bool * H;
  list_put : Z → H → H
}.

Record cpm (F H : Type) := mk_cpm {
  cw_files : dworld F;
  cw_kbd : kbd;
  cw_video : kaypro_video;
  cw_tty : tty;
  cw_host : H;
  kaypro_video_enabled : bool;
  list_fp : bool;
  ro_vector : Z;
  user_code : Z;
  latch : list Z;
  traps : bool;
  over : bool
}.
Arguments mk_cpm {F H}.
Arguments cw_files {F H}.
Arguments cw_kbd {F H}.
Arguments cw_video {F H}.
Arguments cw_tty {F H}.
Arguments cw_host {F H}.
Arguments kaypro_video_enabled {F H}.
Arguments list_fp {F H}.
Arguments ro_vector {F H}.
Arguments user_code {F H}.
Arguments latch {F H}.
Arguments traps {F H}.
Arguments over {F H}.

Section Setters.
Context {F H : Type}.
Definition set_files (x : dworld F) (w : cpm F H) : cpm F H :=
  mk_cpm x (cw_kbd w) (cw_video w) (cw_tty w) (cw_host w) (kaypro_video_enabled w) (list_fp w) (ro_vector w)
    (user_code w) (latch w) (traps w) (over w).
Definition set_kbd (x : kbd) (h : H) (w : cpm F H) : cpm F H :=
  mk_cpm (cw_files w) x (cw_video w) (cw_tty w) h (kaypro_video_enabled w) (list_fp w) (ro_vector w)
    (user_code w) (latch w) (traps w) (over w).
Definition set_screen (x : kaypro_video * tty * H) (w : cpm F H) : cpm F H :=
  mk_cpm (cw_files w) (cw_kbd w) x.1.1 x.1.2 x.2 (kaypro_video_enabled w) (list_fp w) (ro_vector w)
    (user_code w) (latch w) (traps w) (over w).
Definition set_list_fp (x : bool) (h : H) (w : cpm F H) : cpm F H :=
  mk_cpm (cw_files w) (cw_kbd w) (cw_video w) (cw_tty w) h (kaypro_video_enabled w) x (ro_vector w)
    (user_code w) (latch w) (traps w) (over w).
Definition set_ro_vector (x : Z) (w : cpm F H) : cpm F H :=
  mk_cpm (cw_files w) (cw_kbd w) (cw_video w) (cw_tty w) (cw_host w) (kaypro_video_enabled w) (list_fp w) x
    (user_code w) (latch w) (traps w) (over w).
Definition set_user_code (x : Z) (w : cpm F H) : cpm F H :=
  mk_cpm (cw_files w) (cw_kbd w) (cw_video w) (cw_tty w) (cw_host w) (kaypro_video_enabled w) (list_fp w) (ro_vector w)
    x (latch w) (traps w) (over w).
Definition set_latch (x : list Z) (w : cpm F H) : cpm F H :=
  mk_cpm (cw_files w) (cw_kbd w) (cw_video w) (cw_tty w) (cw_host w) (kaypro_video_enabled w) (list_fp w) (ro_vector w)
    (user_code w) x (traps w) (over w).
Definition set_traps (x : bool) (w : cpm F H) : cpm F H :=
  mk_cpm (cw_files w) (cw_kbd w) (cw_video w) (cw_tty w) (cw_host w) (kaypro_video_enabled w) (list_fp w) (ro_vector w)
    (user_code w) (latch w) x (over w).
Definition set_over (w : cpm F H) : cpm F H :=
  mk_cpm (cw_files w) (cw_kbd w) (cw_video w) (cw_tty w) (cw_host w) (kaypro_video_enabled w) (list_fp w) (ro_vector w)
    (user_code w) (latch w) (traps w) true.
End Setters.

Section Console.
Context {F H : Type} `{HF : HostFs F, HC : ConsoleHost H}.
Abbreviation world := (cpm F H).

(** A file call on the whole machine. *)
Definition on_files (g : mach (dworld F) → mach (dworld F)) (s : mach world) : mach world :=
  let '(c, x) := g (s.1, cw_files s.2) in (c, set_files x s.2).
(** A device step: the context is left alone. *)
Definition on_dev (g : world → world) (s : mach world) : mach world := (s.1, g s.2).

(** ** The list device *)

Definition cpm_list_open (path : list Z) (w : world) : world :=
  match path with
  | [] => w
  | _ => let '(ok, h) := list_append path (cw_host w) in set_list_fp ok h w
  end.
Definition cpm_list_out (ch : Z) (w : world) : world :=
  if list_fp w then set_list_fp true (list_put ch (cw_host w)) w else w.

(** ** The console *)

Definition render_flush (w : world) : world :=
  set_screen (kaypro_render_tty_flush false (cw_video w) (cw_tty w) (cw_host w)) w.
Definition render_flush_if_due (w : world) : world :=
  set_screen (kaypro_render_tty_flush_if_due (cw_video w) (cw_tty w) (cw_host w)) w.

Definition cpm_conout (ch : Z) (w : world) : world :=
  let w := set_kbd (kaypro_kbd_note_activity (cw_kbd w)) (cw_host w) w in
  if kaypro_video_enabled w then
    render_flush_if_due (set_screen (kaypro_video_putc ch (cw_video w), cw_tty w, cw_host w) w)
  else set_kbd (cw_kbd w) (tty_put [ch] (cw_host w)) w.
Definition conouts (chs : list Z) (w : world) : world := fold_left (λ w ch, cpm_conout ch w) chs w.

(** [waits]: turns of the blocking read, each of which swallows a key the
    key map leaves without bytes. *)
Definition cpm_conin (waits : nat) (w : world) : option (Z * world) :=
  let w := render_flush w in
  match kaypro_kbd_read waits (cw_kbd w) (cw_host w) with
  | None => None
  | Some (ch, k, h) => if ch =? KBD_END then None else Some (u8 ch, set_kbd k h w)
  end.

Definition cpm_constat (w : world) : option (Z * world) :=
  let w := render_flush_if_due w in
  match kaypro_kbd_poll (cw_kbd w) (cw_host w) with
  | None => None
  | Some (r, k, h) => Some (if nz r then 0xFF else 0, set_kbd k h w)
  end.

Definition cpm_console_wait (waits : nat) (w : world) : option world :=
  let w := render_flush w in
  match kaypro_kbd_wait waits (cw_kbd w) (cw_host w) with
  | None => None
  | Some (k, h) => Some (set_kbd k h w)
  end.

(** ** BDOS 10: the line editor *)

Definition CR : Z := 0x0D.
Definition LF : Z := 0x0A.
Definition BS : Z := 0x08.
Definition rubout : list Z := [BS; 0x20; BS].

(** The bytes of the line in the buffer at [de]. *)
Definition line_bytes (de len : Z) (m : memory) : list Z := load_bytes (de + 2) (Z.to_nat len) m.

(** The loop, for [keys] characters; returns the length of the line. *)
Fixpoint line_loop (waits keys : nat) (de max len : Z) (s : mach world) : option (Z * mach world) :=
  match keys with
  | O => None
  | S keys =>
      match cpm_conin waits s.2 with
      | None => None
      | Some (ch, w) =>
          let s := (s.1, w) in
          if (ch =? CR) || (ch =? LF) then Some (len, on_dev (conouts [CR; LF]) s)
          else if (ch =? 0x08) || (ch =? 0x7F) then
            if 0 <? len then line_loop waits keys de max (len - 1) (on_dev (conouts rubout) s)
            else line_loop waits keys de max len s
          else if ch =? 0x15 then
            line_loop waits keys de max 0 (on_dev (conouts (concat (replicate (Z.to_nat len) rubout))) s)
          else if ch =? 0x12 then
            line_loop waits keys de max len
              (on_dev (conouts ([chr "#"; CR; LF] ++ line_bytes de len (mem s.1))) s)
          else if (0x20 <=? ch) && (ch <=? 0x7E) && (len <? max) then
            let s := on_cpu (λ c, set_mem (set_fcb_byte de (2 + len) ch (mem c)) c) s in
            line_loop waits keys de max (len + 1) (on_dev (cpm_conout ch) s)
          else line_loop waits keys de max len s
      end
  end.

Definition cpm_read_console_buffer (waits keys : nat) (de : Z) (s : mach world) : option (mach world) :=
  let max := fcb_byte de 0 (mem s.1) in
  if max =? 0 then Some (on_files (λ s, ret_a 0 (on_mem (set_fcb_byte de 1 0) s)) s)
  else
    let s := on_files (λ s, host_wrote 0x80 128 (on_mem (store_bytes 0x80 (replicate 128 0)) s)) s in
    let s := on_files (on_mem (set_fcb_byte de 1 0)) s in
    match line_loop waits keys de max 0 s with
    | None => None
    | Some (len, s) =>
        Some (on_files (λ s, ret_a 0 (host_wrote de (2 + len) (on_mem (set_fcb_byte de 1 len) s))) s)
    end.
End Console.
