(* ===== verification/ConsoleOk.v ===== *)
(** * ConsoleOk: BDOS 10, the line editor (Console.v)

    [edit] says what a line of keys comes to: characters append, Backspace
    and ^U take back, Return ends.  Fed from a script, the read of a console
    buffer leaves exactly that line in the buffer, reads no key beyond
    Return, and touches no other memory but the page it clears, which is
    where a program may well have its buffer. *)

From Stdlib Require Import ZArith Lia Bool List Ascii String.
From stdpp Require Import base gmap list.
From S2P Require Import Prelude Cpu BlockCache HostFs Disk DiskOk Video Kbd KbdOk Term Render Console.

Open Scope string_scope.
Open Scope list_scope.
Open Scope Z_scope.
Open Scope z80_scope.

(** The line so far and the keys to come; [None]: no Return among them. *)
Fixpoint edit (max : Z) (line keys : list Z) : option (list Z * list Z) :=
  match keys with
  | [] => None
  | ch :: keys =>
      if (ch =? CR) || (ch =? LF) then Some (line, keys)
      else if (ch =? 0x08) || (ch =? 0x7F) then edit max (removelast line) keys
      else if ch =? 0x15 then edit max [] keys
      else if (0x20 <=? ch) && (ch <=? 0x7E) && (Z.of_nat (length line) <? max) then edit max (line ++ [ch]) keys
      else edit max line keys
  end.

Lemma edit_short max line keys l rest :
  edit max line keys = Some (l, rest) → Z.of_nat (length line) <= max → Z.of_nat (length l) <= max.
Proof.
  revert line. induction keys as [|ch keys IH]; intros line; cbn [edit]; [done|]. repeat case_match; try (by intros [= <- _]).
  all: intros E Hl; apply IH in E; try done.
  - destruct line as [|c line] using rev_ind; [done|]. rewrite removelast_last. rewrite length_app in Hl. cbn in Hl. lia.
  - cbn. lia.
  - rewrite length_app. cbn. apply andb_true_iff in H2 as [_ H2%Z.ltb_lt]. lia.
Qed.

(** The other cells are as they were. *)
Definition only (P : Z → Prop) (m m' : memory) : Prop := ∀ x, is_word x → ¬ P x → mget m' x = mget m x.
Lemma only_refl P m : only P m m.
Proof. done. Qed.
Lemma only_trans P m1 m2 m3 : only P m1 m2 → only P m2 m3 → only P m1 m3.
Proof. intros H1 H2 x Hx Hp. by rewrite H2, H1. Qed.
Lemma only_set_fcb P a i v m : P (u16 (a + i)) → only P m (set_fcb_byte a i v m).
Proof. intros Hp x _ Hx. apply mget_mset_ne. by intros <-. Qed.

Section Line.
Context {F H : Type} `{HF : HostFs F, HC : ConsoleHost H}.
Implicit Types (s : mach (cpm F H)) (w : cpm F H).

(** The keys a script has still to type. *)
Definition to_type (w : cpm F H) (keys : list Z) : Prop :=
  script_ok (cw_kbd w) ∧ script_text (cw_kbd w) = keys ∧ Forall is_byte keys.

Lemma conin_script waits w ch keys : to_type w (ch :: keys) →
  ∃ w', cpm_conin waits w = Some (ch, w') ∧ to_type w' keys.
Proof using Type.
  intros (Hk & Ht & Hb). apply Forall_cons in Hb as [Hch Hb]. unfold cpm_conin. cbv zeta. unfold render_flush.
  destruct (kaypro_render_tty_flush _ _ _ _) as [[k t] h]. cbn [set_screen cw_kbd cw_host fst snd].
  destruct (read_same (cw_kbd w) h waits Hk) as (c & k' & h' & -> & Hk' & Hc). rewrite Ht in Hc. destruct Hc as [-> Ht'].
  unfold is_byte in Hch. unfold KBD_END. destruct (Z.eqb_spec ch (-1)); [lia|]. rewrite u8_id by done. by eexists.
Qed.
Lemma conout_script ch w keys : to_type w keys → to_type (cpm_conout ch w) keys.
Proof using Type.
  intros (Hk & Ht & Hb). unfold cpm_conout, render_flush_if_due, to_type. cbn [set_kbd kaypro_video_enabled cw_kbd cw_video cw_tty cw_host set_screen].
  destruct (same_fields (cw_kbd w) (kaypro_kbd_note_activity (cw_kbd w)) Hk) as [Hk1 E];
    try (unfold kaypro_kbd_note_activity; cbv zeta; by case_match).
  destruct (kaypro_video_enabled w); cbn [cw_kbd set_screen set_kbd]; by rewrite E.
Qed.
Lemma conouts_script chs w keys : to_type w keys → to_type (conouts chs w) keys.
Proof using Type. unfold conouts. revert w. induction chs as [|c chs IH]; intros w Hw; [done|]. by apply IH, conout_script. Qed.

Lemma line_bytes_snoc de line ch m : Z.of_nat (length line) < 256 → load_bytes (de + 2) (length line) m = line →
  load_bytes (de + 2) (length (line ++ [ch])) (set_fcb_byte de (2 + Z.of_nat (length line)) ch m) = line ++ [ch].
Proof using Type.
  intros Hl E. unfold load_bytes in *. rewrite length_app. cbn [length]. rewrite Nat.add_1_r, zseq_snoc, map_app. cbn [map]. f_equal.
  - rewrite <- E at 2. apply map_zseq_ext. intros i Hi. apply mget_mset_ne. intros E1. replace i with (de + (i - de)) in E1 by lia.
    apply u16_inj in E1; lia.
  - f_equal. unfold set_fcb_byte. replace (de + 2 + Z.of_nat (length line)) with (de + (2 + Z.of_nat (length line))) by lia.
    apply mget_mset_eq.
Qed.
Lemma line_bytes_removelast de line m : load_bytes (de + 2) (length line) m = line →
  load_bytes (de + 2) (length (removelast line)) m = removelast line.
Proof using Type.
  intros E. destruct line as [|c line _] using rev_ind; [done|]. rewrite removelast_last. rewrite length_app in E. cbn [length] in E.
  rewrite Nat.add_1_r in E. unfold load_bytes in *. rewrite zseq_snoc, map_app in E. cbn [map] in E. by apply app_inj_tail in E as [E _].
Qed.
Lemma length_removelast {A} (l : list A) : length (removelast l) = (length l - 1)%nat.
Proof using Type. destruct l as [|c l _] using rev_ind; [done|]. rewrite removelast_last, length_app. cbn. lia. Qed.

(** The cells of the line. *)
Definition line_area (de max x : Z) : Prop := ∃ i, 0 <= i < max ∧ x = u16 (de + (2 + i)).

Lemma line_loop_spec waits max de keys : 0 <= max < 256 → ∀ fuel line s l rest,
  (length keys <= fuel)%nat → to_type s.2 keys → edit max line keys = Some (l, rest) →
  load_bytes (de + 2) (length line) (mem s.1) = line → Z.of_nat (length line) <= max →
  ∃ m' w', line_loop waits fuel de max (Z.of_nat (length line)) s = Some (Z.of_nat (length l), (set_mem m' s.1, w')) ∧
    to_type w' rest ∧ load_bytes (de + 2) (length l) m' = l ∧ only (line_area de max) (mem s.1) m'.
Proof using Type.
  intros Hmax. induction keys as [|ch keys IH]; intros fuel line s l rest Hf Hk He Hm Hl; cbn [edit length] in *; [done|].
  destruct fuel as [|fuel]; [lia|]. cbn [line_loop]. destruct (conin_script waits s.2 ch keys Hk) as (w & -> & Hw).
  cbv zeta. assert (set_mem (mem s.1) s.1 = s.1) as Esm by (by destruct s.1).
  destruct ((ch =? CR) || (ch =? LF)).
  { injection He as <- <-. exists (mem s.1), (conouts [CR; LF] w). rewrite Esm. split_and!; [done|by apply conouts_script|done|done]. }
  destruct ((ch =? 0x08) || (ch =? 0x7F)) eqn:Ebs.
  { destruct (Z.ltb_spec 0 (Z.of_nat (length line))) as [Hpos|Hz].
    - replace (Z.of_nat (length line) - 1) with (Z.of_nat (length (removelast line))) by (rewrite length_removelast; lia).
      apply (IH fuel (removelast line) (on_dev (conouts rubout) (s.1, w)) l rest ltac:(lia)); [by apply conouts_script|done| |rewrite length_removelast; lia].
      by apply line_bytes_removelast.
    - destruct line; [|cbn in Hz; lia]. by apply (IH fuel [] (s.1, w) l rest ltac:(lia)). }
  destruct (ch =? 0x15) eqn:Eu.
  { apply (IH fuel [] (on_dev _ (s.1, w)) l rest ltac:(lia)); [by apply conouts_script|done|done|cbn; lia]. }
  destruct (ch =? 0x12) eqn:Er.
  { apply Z.eqb_eq in Er. subst ch. cbn [Z.leb Z.compare Pos.compare Pos.compare_cont andb] in He.
    apply (IH fuel line (on_dev _ (s.1, w)) l rest ltac:(lia)); [by apply conouts_script|done|done|done]. }
  destruct (_ && (Z.of_nat (length line) <? max)) eqn:Ep; [|by apply (IH fuel line (s.1, w) l rest ltac:(lia))].
  apply andb_true_iff in Ep as [_ Hlt%Z.ltb_lt].
  set (m1 := set_fcb_byte de (2 + Z.of_nat (length line)) ch (mem s.1)).
  replace (Z.of_nat (length line) + 1) with (Z.of_nat (length (line ++ [ch]))) by (rewrite length_app; cbn; lia).
  destruct (IH fuel (line ++ [ch]) (set_mem m1 s.1, cpm_conout ch w) l rest) as (m' & w' & E & Hw' & Hm' & Ho);
    [lia|by apply conout_script|done|by apply line_bytes_snoc; [lia|]|rewrite length_app; cbn; lia|].
  exists m', w'. split_and!; [exact E|done|done|]. eapply only_trans; [|exact Ho]. apply only_set_fcb.
  exists (Z.of_nat (length line)). split; [lia|done].
Qed.

Lemma wrote_on_mem a n g s : ∃ m' x, on_files (λ t, host_wrote a n (on_mem g t)) s = (set_mem m' s.1, set_files x s.2) ∧
  ∀ y, mget m' y = mget (g (mem s.1)) y.
Proof using Type.
  unfold on_files. destruct (host_wrote_cpu a n (on_mem g (s.1, cw_files s.2))) as (m' & E & Hm).
  destruct (host_wrote _ _ _) as [c x]. cbn [fst] in E. subst c. exists m', x. by split.
Qed.

(** What the routine does around its loop: the page cleared, the count
    zeroed before and set after. *)
Lemma read_console_split waits fuel de s : fcb_byte de 0 (mem s.1) ≠ 0 → ∃ m1 x1,
  (∀ y, mget m1 y = mget (set_fcb_byte de 1 0 (store_bytes 0x80 (replicate 128 0) (mem s.1))) y) ∧
  ∀ r, line_loop waits fuel de (fcb_byte de 0 (mem s.1)) 0 (set_mem m1 s.1, set_files x1 s.2) = r →
  match r with
  | None => cpm_read_console_buffer waits fuel de s = None
  | Some (len, t) => ∃ m2 x2, cpm_read_console_buffer waits fuel de s = Some (set_rA 0 (set_mem m2 t.1), set_files x2 t.2) ∧
      ∀ y, mget m2 y = mget (set_fcb_byte de 1 len (mem t.1)) y
  end.
Proof using Type.
  intros Hmax. unfold cpm_read_console_buffer. cbv zeta. apply Z.eqb_neq in Hmax. rewrite Hmax.
  destruct (wrote_on_mem 0x80 128 (store_bytes 0x80 (replicate 128 0)) s) as (m0 & x0 & -> & Hm0).
  exists (set_fcb_byte de 1 0 m0), x0. split.
  { intros y. unfold set_fcb_byte. rewrite !mget_mset. by case_decide. }
  change (on_files (on_mem (set_fcb_byte de 1 0)) (set_mem m0 s.1, set_files x0 s.2))
    with (set_mem (set_fcb_byte de 1 0 m0) s.1, set_files x0 s.2).
  intros r ->. destruct r as [[len t]|]; [|done].
  destruct (wrote_on_mem de (2 + len) (set_fcb_byte de 1 len) t) as (m2 & x2 & E & Hm2).
  exists m2, x2. split; [|done]. f_equal. unfold on_files in *.
  change (ret_a 0 ?u) with (set_rA 0 u.1, u.2). destruct (host_wrote de (2 + len) _) as [c x]. cbn [fst snd].
  cbn [fst snd] in E. by injection E as -> ->.
Qed.

Definition clear_area (x : Z) : Prop := 0x80 <= x < 0x100.
Lemma only_cleared m : only clear_area m (store_bytes 0x80 (replicate 128 0) m).
Proof using Type.
  intros x Hx Hn. apply mget_store_other. rewrite length_replicate. intros j Hj <-. apply Hn. unfold clear_area, u16.
  rewrite Z.mod_small by lia. lia.
Qed.

Lemma zeros_at M x : load_bytes 0x80 128 M = replicate 128 0 → clear_area x → mget M x = 0.
Proof using Type.
  intros Hl Hx. unfold clear_area in Hx. assert (replicate 128 0 !! Z.to_nat (x - 0x80) = Some 0) as Hj by (apply lookup_replicate_2; lia).
  rewrite <- Hl, lookup_load in Hj by lia. replace (u16 (0x80 + Z.of_nat (Z.to_nat (x - 0x80)))) with x in Hj; [congruence|].
  unfold u16. rewrite Z.mod_small; lia.
Qed.
Lemma cleared_zero m x : clear_area x → mget (store_bytes 0x80 (replicate 128 0) m) x = 0.
Proof using Type.
  apply zeros_at. apply (load_store 0x80 (replicate 128 0)). rewrite length_replicate. lia.
Qed.

(** C34: a console line is what was typed.  BDOS 10 on a buffer of capacity
    [max] >= 1, the keys coming from a script with a Return among them,
    returns: the count and the bytes in the buffer are the line the keys
    edit to (Backspace, DEL and ^U taking back, other controls and what
    does not fit ignored), never more than [max], A is 0 and the other
    registers stay; the keys after Return are still to be read; and no cell
    changes outside the buffer and the page at 0080 that the call clears. *)
Theorem read_line waits fuel de s keys l rest :
  let max := fcb_byte de 0 (mem s.1) in
  0 < max < 256 → to_type s.2 keys → edit max [] keys = Some (l, rest) → (length keys <= fuel)%nat →
  ∃ m' w', cpm_read_console_buffer waits fuel de s = Some (set_rA 0 (set_mem m' s.1), w') ∧
    to_type w' rest ∧ Z.of_nat (length l) <= max ∧ fcb_byte de 1 m' = Z.of_nat (length l) ∧
    load_bytes (de + 2) (length l) m' = l ∧
    only (λ x, clear_area x ∨ x = u16 (de + 1) ∨ line_area de max x) (mem s.1) m'.
Proof using Type.
  intros max Hmax Hk He Hf. destruct (read_console_split waits fuel de s ltac:(fold max; lia)) as (m1 & x1 & Hm1 & Hs). fold max in Hs.
  destruct (line_loop_spec waits max de keys ltac:(lia) fuel [] (set_mem m1 s.1, set_files x1 s.2) l rest Hf Hk He eq_refl ltac:(cbn; lia))
    as (m2 & w2 & E & Hw2 & Hl2 & Ho2).
  change (Z.of_nat (length [])) with 0 in E. specialize (Hs _ E). cbn [fst snd mem set_mem] in Hs.
  destruct Hs as (m3 & x3 & E3 & Hm3). exists m3, (set_files x3 w2). pose proof (edit_short _ _ _ _ _ He ltac:(cbn; lia)) as Hlen.
  split; [exact E3|]. split; [exact Hw2|]. split; [done|]. split; [unfold fcb_byte; rewrite Hm3; apply mget_mset_eq|]. split.
  - rewrite <- Hl2 at 2. apply load_bytes_ext. intros i Hi. rewrite Hm3. apply mget_mset_ne. intros E1.
    replace (de + 2 + i) with (de + (2 + i)) in E1 by lia. apply u16_inj in E1; lia.
  - intros x Hx Hn. assert (u16 (de + 1) ≠ x) by (intros E1; apply Hn; by right; left).
    rewrite Hm3. unfold set_fcb_byte. rewrite mget_mset_ne by done. cbn [mem set_mem fst] in Ho2. rewrite (Ho2 x Hx) by tauto.
    rewrite Hm1. unfold set_fcb_byte. rewrite mget_mset_ne by done. apply only_cleared; [done|tauto].
Qed.

Lemma line_loop_first waits max de fuel : 0 <= max < 256 → ∀ len s len' s', 0 <= len →
  line_loop waits fuel de max len s = Some (len', s') → fcb_byte de 0 (mem s'.1) = fcb_byte de 0 (mem s.1).
Proof using Type.
  intros Hmax. induction fuel as [|fuel IH]; intros len s len' s' Hl; cbn [line_loop]; [done|].
  destruct (cpm_conin waits s.2) as [[ch w]|]; [|done]. cbv zeta. destruct ((ch =? CR) || _); [by intros [= _ <-]|].
  destruct ((ch =? 0x08) || _); [destruct (Z.ltb_spec 0 len); intros E; apply IH in E; (done || lia)|].
  destruct (ch =? 0x15); [intros E; apply IH in E; (done || lia)|]. destruct (ch =? 0x12); [intros E; apply IH in E; (done || lia)|].
  destruct (_ && (len <? max)) eqn:El; [|intros E; apply IH in E; (done || lia)]. apply andb_true_iff in El as [_ Hlt%Z.ltb_lt].
  intros E. apply IH in E; [|lia]. rewrite E. cbn. unfold fcb_byte, set_fcb_byte. apply mget_mset_ne. intros E1.
  apply u16_inj in E1; lia.
Qed.

(** A console buffer in the page at 0080 works once.  The routine clears
    that page before it reads, the buffer's capacity byte included; so when
    a read on a buffer there comes back, the next read on it returns an
    empty line at once, without waiting for or taking any key. *)
Theorem buffer_at_80_works_once waits fuel de s s' :
  0x80 <= de < 0x100 → 0 < fcb_byte de 0 (mem s.1) < 256 → cpm_read_console_buffer waits fuel de s = Some s' →
  ∃ s2, cpm_read_console_buffer waits fuel de s' = Some s2 ∧ fcb_byte de 1 (mem s2.1) = 0 ∧ rA s2.1 = 0 ∧
        cw_kbd s2.2 = cw_kbd s'.2 ∧ cw_host s2.2 = cw_host s'.2.
Proof using Type.
  intros Hde Hmax E. destruct (read_console_split waits fuel de s ltac:(lia)) as (m1 & x1 & Hm1 & Hs). specialize (Hs _ eq_refl).
  destruct (line_loop waits fuel de _ 0 _) as [[len t]|] eqn:El; [|congruence]. destruct Hs as (m2 & x2 & E2 & Hm2).
  rewrite E in E2. injection E2 as ->. apply line_loop_first in El; [|lia..]. cbn [fst mem set_mem] in El.
  assert (fcb_byte de 0 m2 = 0) as E0.
  { unfold fcb_byte in *. rewrite Hm2. unfold set_fcb_byte at 1. rewrite mget_mset_ne by (intros E1; apply u16_inj in E1; lia).
    rewrite El, Hm1. unfold set_fcb_byte. rewrite mget_mset_ne by (intros E1; apply u16_inj in E1; lia).
    rewrite Z.add_0_r, u16_id by (unfold is_word; lia). by apply cleared_zero. }
  unfold cpm_read_console_buffer. cbn [fst mem set_mem set_rA]. cbv zeta. rewrite E0. cbn [Z.eqb]. eexists. split; [reflexivity|].
  split; [|done]. unfold on_files. cbn. unfold fcb_byte, set_fcb_byte. apply mget_mset_eq.
Qed.
End Line.

(** ** A machine with a script to type *)

Definition no_keys : KbdHost mem_tty :=
  {| stdin_readable _ h := (false, h); stdin_read _ h := (None, h); look_due h := (true, h); idle_sleep h := h; step_io _ h := h |}.
#[export] Instance screen_console : ConsoleHost mem_tty :=
  {| console_kbd := no_keys; console_tty := mem_tty_host; list_append _ h := (true, h); list_put _ h := h |}.
Definition some_screen : mem_tty := mk_mem_tty (mk_tview (λ _ _, (0x20, Term.plain)) (0, 0) Term.plain true (30, 100)) Ground 0.

(** [buffer]: where the console buffer is; it holds up to 80 characters. *)
Definition typing_cpu (buffer : Z) : z80_cpu := set_mem (mset buffer 80 ∅) z80_cpu_init.
Definition typing_world : cpm mem_host mem_tty :=
  mk_cpm (mk_dworld None no_disk empty_host) dir_kbd (kaypro_video_init KAYPRO_MODEL_84) tty_static some_screen
    true false 0 0 [] true false.

Lemma typing_script : to_type typing_world (str "dir" ++ [13]).
Proof.
  split; [exact dir_kbd_ok|]. split; [by vm_compute|]. apply Forall_forall. intros x Hx.
  repeat (apply elem_of_cons in Hx as [->|Hx]; [by vm_compute|]). by apply elem_of_nil in Hx.
Qed.

Lemma read_line_witness : ∃ m' w',
  cpm_read_console_buffer 0 10 0x200 (typing_cpu 0x200, typing_world) = Some (set_rA 0 (set_mem m' (typing_cpu 0x200)), w') ∧
  fcb_byte 0x200 1 m' = 3 ∧ load_bytes 0x202 3 m' = str "dir".
Proof.
  destruct (read_line 0 10 0x200 (typing_cpu 0x200, typing_world) (str "dir" ++ [13]) (str "dir") [])
    as (m' & w' & E & _ & _ & Hn & Hl & _); [by vm_compute|apply typing_script|by vm_compute|cbn; lia|].
  exists m', w'. split; [exact E|]. split; [exact Hn|exact Hl].
Defined.

Lemma buffer_at_80_works_once_witness : ∃ s1 s2,
  cpm_read_console_buffer 0 10 0x80 (typing_cpu 0x80, typing_world) = Some s1 ∧
  cpm_read_console_buffer 0 10 0x80 s1 = Some s2 ∧ fcb_byte 0x80 1 (mem s2.1) = 0.
Proof.
  destruct (read_line 0 10 0x80 (typing_cpu 0x80, typing_world) (str "dir" ++ [13]) (str "dir") [])
    as (m' & w' & E & _); [by vm_compute|apply typing_script|by vm_compute|cbn; lia|].
  set (s := (typing_cpu 0x80, typing_world)) in E. set (s1 := (set_rA 0 (set_mem m' (typing_cpu 0x80)), w')) in E.
  assert (0x80 <= 0x80 < 0x100) as Hde by lia. assert (0 < fcb_byte 0x80 0 (mem s.1) < 256) as Hmax by (vm_compute; split; reflexivity).
  destruct (buffer_at_80_works_once 0 10 0x80 s s1 Hde Hmax E) as (s2 & E2 & H0 & _).
  exists s1, s2. split; [exact E|]. split; [exact E2|exact H0].
Defined.
