(* ===== verification/Bdos.v ===== *)
(** * Bdos: the CP/M shim's services (src/cpm)

    The BDOS and BIOS dispatchers (cpm_bdos.c, cpm_bios.c), the default port
    latch (cpm_ports.c) and the set-up of a program's memory
    (cpm_loader.c).  [shim] is the host they make for the interpreter.

    [None] is a call that does not come back: the process exits while
    waiting for a key, waits for ever, prints a string that has no end, or
    overruns a buffer of the directory search. *)

From Stdlib Require Import ZArith Lia Bool List Ascii String.
From stdpp Require Import base gmap list.
From S2P Require Import Prelude Cpu BlockCache Interp HostFs Disk Video Kbd Term Render Console.

Open Scope string_scope.
Open Scope list_scope.
Open Scope Z_scope.
Open Scope z80_scope.

Definition CPM_BDOS_HIGH : Z := 0xE400.
Definition CPM_CCP_BASE : Z := 0xDC00.
Definition CPM_BIOS_COUNT : Z := 17.

(** [CPM_F_*]: the BDOS function numbers. *)
Inductive bdos_f : Set :=
  | F_WBOOT | F_CONIN | F_CONOUT | F_RDR | F_PUNCH | F_LIST | F_DIRIO | F_GETIOB | F_SETIOB | F_PRINTSTR | F_RDSTR
  | F_CONSTAT | F_VERSION | F_RESET | F_SELDSK | F_OPEN | F_CLOSE | F_SFIRST | F_SNEXT | F_DELETE | F_READ | F_WRITE
  | F_MAKE | F_RENAME | F_LOGINV | F_RETDSK | F_SETDMA | F_GETALV | F_WRPROT | F_GETROV | F_SETATTR | F_GETDPB | F_USER
  | F_RANDRD | F_RANDWR | F_FSIZE | F_SETRAND | F_RESETDRV | F_RANDWRZ.
Definition bdos_functions : list bdos_f :=
  [F_WBOOT; F_CONIN; F_CONOUT; F_RDR; F_PUNCH; F_LIST; F_DIRIO; F_GETIOB; F_SETIOB; F_PRINTSTR; F_RDSTR;
   F_CONSTAT; F_VERSION; F_RESET; F_SELDSK; F_OPEN; F_CLOSE; F_SFIRST; F_SNEXT; F_DELETE; F_READ; F_WRITE;
   F_MAKE; F_RENAME; F_LOGINV; F_RETDSK; F_SETDMA; F_GETALV; F_WRPROT; F_GETROV; F_SETATTR; F_GETDPB; F_USER;
   F_RANDRD; F_RANDWR; F_FSIZE; F_SETRAND; F_RESETDRV].
(** The number is the position, except for 40. *)
Definition bdos_function (n : Z) : option bdos_f :=
  if n =? 40 then Some F_RANDWRZ else if n <? 0 then None else bdos_functions !! Z.to_nat n.

(** [BIOS_*]. *)
Inductive bios_f : Set :=
  | BIOS_BOOT | BIOS_WBOOT | BIOS_CONST | BIOS_CONIN | BIOS_CONOUT | BIOS_LIST | BIOS_PUNCH | BIOS_READER | BIOS_HOME
  | BIOS_SELDSK | BIOS_SETTRK | BIOS_SETSEC | BIOS_SETDMA | BIOS_READ | BIOS_WRITE | BIOS_LISTST | BIOS_SECTRAN.
Definition bios_functions : list bios_f :=
  [BIOS_BOOT; BIOS_WBOOT; BIOS_CONST; BIOS_CONIN; BIOS_CONOUT; BIOS_LIST; BIOS_PUNCH; BIOS_READER; BIOS_HOME;
   BIOS_SELDSK; BIOS_SETTRK; BIOS_SETSEC; BIOS_SETDMA; BIOS_READ; BIOS_WRITE; BIOS_LISTST; BIOS_SECTRAN].

(** HL, with A = L and B = H. *)
Definition ret_hl (v : Z) (c : z80_cpu) : z80_cpu := set_rB (u8 (v >>' 8)) (set_rA (u8 v) (set_HL (u16 v) c)).

Section Bdos.
Context {F H : Type} `{HF : HostFs F, HC : ConsoleHost H}.
Context (stack : list Z → list Z * list Z) (waits keys : nat).
Abbreviation world := (cpm F H).
Implicit Type s : mach world.

Definition ret_A (v : Z) s : mach world := on_cpu (set_rA v) s.

(** What [go]es on with the program, and what does not come back. *)
Definition go s : option (bool * mach world) := Some (true, s).
Definition go_some (r : option (mach world)) : option (bool * mach world) :=
  match r with Some s => go s | None => None end.

(** A call of the console that returns a byte. *)
Definition byte_call (call : world → option (Z * world)) s : option (Z * mach world) :=
  match call s.2 with Some (v, w) => Some (v, (s.1, w)) | None => None end.
Definition to_A (r : option (Z * mach world)) : option (bool * mach world) :=
  match r with Some (v, s) => go (ret_A v s) | None => None end.

(** ** BDOS *)

(** BDOS 9, for [n] characters. *)
Fixpoint print_loop (n : nat) (addr : Z) s : option (mach world) :=
  match n with
  | O => None
  | S n =>
      let ch := mget (mem s.1) addr in
      if ch =? chr "$" then Some s else print_loop n (u16 (addr + 1)) (on_dev (cpm_conout ch) s)
  end.

(** BDOS 6: E selects; D is ignored. *)
Definition direct_io s : option (bool * mach world) :=
  let e := rE s.1 in
  if e =? 0xFF then
    match byte_call cpm_constat s with
    | None => None
    | Some (v, s) => if nz v then to_A (byte_call (cpm_conin waits) s) else go (ret_A 0 s)
    end
  else if e =? 0xFE then to_A (byte_call cpm_constat s)
  else if e =? 0xFD then to_A (byte_call (cpm_conin waits) s)
  else go (ret_A e (on_dev (cpm_conout e) s)).

(** A search of the directory. *)
Definition search (g : mach (dworld F) → option (mach (dworld F))) s : option (bool * mach world) :=
  match g (s.1, cw_files s.2) with Some (c, x) => go (c, set_files x s.2) | None => None end.

Definition bdos_call (f : bdos_f) s : option (bool * mach world) :=
  let de := rDE s.1 in
  let file (g : Z → mach (dworld F) → mach (dworld F)) := go (on_files (g de) s) in
  match f with
  | F_WBOOT => Some (false, s)
  | F_CONOUT => go (ret_A 0 (on_dev (cpm_conout (rE s.1)) s))
  | F_PRINTSTR => match print_loop (Z.to_nat 65536) de s with Some s => go (ret_A 0 s) | None => None end
  | F_RDR => go (ret_A 0x1A s)
  | F_PUNCH => go s
  | F_LIST => go (on_dev (cpm_list_out (rE s.1)) s)
  | F_GETIOB => go (ret_A (mget (mem s.1) 3) s)
  | F_SETIOB => go (on_files (λ t, host_wrote 3 1 (on_mem (mset 3 (rE t.1)) t)) s)
  | F_LOGINV => go (on_cpu (ret_hl 0x0001) s)
  | F_GETALV => go (on_files cpm_bdos_alloc_vector s)
  | F_WRPROT => go (ret_A 0 (on_dev (λ w, set_ro_vector (ro_vector w |' 0x0001) w) s))
  | F_GETROV => go (on_cpu (ret_hl (ro_vector s.2)) s)
  | F_SETATTR => file cpm_bdos_set_attributes
  | F_GETDPB => go (on_cpu (ret_hl CPM_SHIM_DPB) s)
  | F_USER =>
      if rE s.1 =? 0xFF then go (ret_A (u8 (user_code s.2)) s)
      else go (ret_A 0 (on_dev (set_user_code (rE s.1 &' 0x0F)) s))
  | F_FSIZE => file cpm_bdos_file_size
  | F_SETRAND => file cpm_bdos_set_random
  | F_RESETDRV => go (ret_A 0 (on_dev (λ w, set_ro_vector (ro_vector w &' u16 (Z.lnot de)) w) s))
  | F_RANDWRZ => file cpm_bdos_random_write
  | F_CONSTAT => to_A (byte_call cpm_constat s)
  | F_CONIN => to_A (byte_call (cpm_conin waits) s)
  | F_DIRIO => direct_io s
  | F_RDSTR => go_some (cpm_read_console_buffer waits keys de s)
  | F_VERSION => go (on_cpu (set_HL 0x0022) s)
  | F_RETDSK | F_SELDSK => go (ret_A 0 s)
  | F_RESET => go (ret_A 0 (on_dev (set_ro_vector 0) (on_files (cpm_set_dma CPM_DEFAULT_DMA) s)))
  | F_SETDMA => go (on_files cpm_bdos_set_dma s)
  | F_OPEN => file cpm_bdos_open_file
  | F_CLOSE => file cpm_bdos_close_file
  | F_READ => file cpm_bdos_read_sequential
  | F_SFIRST => search (cpm_bdos_search_first stack de) s
  | F_SNEXT => search (cpm_bdos_search_next stack) s
  | F_MAKE => file cpm_bdos_make_file
  | F_RENAME => file cpm_bdos_rename
  | F_DELETE => file cpm_bdos_delete_file
  | F_WRITE => file cpm_bdos_write_sequential
  | F_RANDRD => file cpm_bdos_random_read
  | F_RANDWR => file cpm_bdos_random_write
  end.

(** A function the shim has not: HL = 0, A = B = 0. *)
Definition unimplemented s : mach world := on_cpu (λ c, set_rB 0 (set_rA 0 (set_HL 0 c))) s.
Definition cpm_bdos_dispatch s : option (bool * mach world) :=
  match bdos_function (rC s.1) with
  | Some f => bdos_call f s
  | None => go (unimplemented s)
  end.

(** ** BIOS *)

(** The index of the function PC is at: in the vector table, or in the area
    its jumps point to. *)
Definition bios_index (pc : Z) : option Z :=
  let base := CPM_BIOS_BASE in
  if (base <=? pc) && (pc <? base + CPM_BIOS_COUNT * 3) then Some ((pc - base) / 3)
  else if (base + 0x30 <=? pc) && (pc <? base + 0x30 + CPM_BIOS_COUNT * 3) then Some ((pc - (base + 0x30)) / 3)
  else None.
Definition bios_function (pc : Z) : option bios_f :=
  match bios_index pc with Some i => bios_functions !! Z.to_nat i | None => None end.

Definition cpm_bios_dispatch s : option (bool * mach world) :=
  match bios_function (rPC s.1) with
  | None => go s
  | Some f =>
      match f with
      | BIOS_WBOOT | BIOS_BOOT => Some (false, s)
      | BIOS_CONST => to_A (byte_call cpm_constat s)
      | BIOS_CONIN => to_A (byte_call (cpm_conin waits) s)
      | BIOS_CONOUT => go (on_dev (cpm_conout (rC s.1)) s)
      | BIOS_LIST => go (on_dev (cpm_list_out (rC s.1)) s)
      | BIOS_LISTST => go (ret_A 0xFF s)
      | _ => go s
      end
  end.

(** ** Ports *)

Definition ports_in (port high : Z) s : Z * mach world := (u8 (default 0 (latch s.2 !! Z.to_nat port)), s).
Definition ports_out (port high val : Z) s : mach world :=
  on_dev (λ w, set_latch (<[Z.to_nat port:=val]> (latch w)) w) s.
Definition cpm_install_ports (w : world) : world := set_latch (replicate 256 0xFF) w.

(** ** The host *)

(** A call that does not come back ends the run. *)
Definition ended (r : option (bool * mach world)) s : bool * mach world :=
  match r with Some r => r | None => (false, (s.1, set_over s.2)) end.

Definition shim_host : Host world := {|
  smc_store a w :=
    let x := cw_files w in set_files (mk_dworld (@smc_store (option z80_dbt) _ a (w_dbt x)) (w_disk x) (w_fs x)) w;
  port_in_hook := Some ports_in;
  port_out_hook := Some ports_out;
  console_wait w := match cpm_console_wait waits w with Some w => w | None => set_over w end;
  traps_enabled := traps;
  bdos_dispatch s := ended (cpm_bdos_dispatch s) s;
  bios_dispatch s := ended (cpm_bios_dispatch s) s
|}.
End Bdos.
