(* ===== verification/BdosOk.v ===== *)
(** * BdosOk: the services keep the machine in range (Bdos.v)

    Whatever a program asks of the BDOS, the BIOS and the ports, registers
    and memory stay within their C types: the shim is a [HostOk], so the
    interpreter's theorems hold of programs that call it.  Then the number
    a BIOS entry stands for, and what BDOS 9 prints. *)

From Stdlib Require Import ZArith Lia Bool List Ascii String.
From stdpp Require Import base gmap list.
From S2P Require Import Prelude Cpu BlockCache Interp InterpOk HostFs Disk Video Kbd Term Render Console ConsoleOk Bdos.

Open Scope string_scope.
Open Scope list_scope.
Open Scope Z_scope.
Open Scope z80_scope.

Lemma u8_bytes l : Forall is_byte (map u8 l).
Proof. apply Forall_forall. intros x Hx. apply list_elem_of_fmap in Hx as (y & -> & _). apply u8_byte. Qed.

(** [fread] stores bytes. *)
Class HostBytes (F : Type) `{HostFs F} : Prop := {
  fread_bytes h n f : Forall is_byte (fread h n f).1
}.

(** Any host, what it reads cut to eight bits. *)
Definition clamped {F} (HF : HostFs F) : HostFs F := {|
  fopen := fopen; fclose := fclose; fseek := fseek;
  fread h n f := (map u8 (fread h n f).1, (fread h n f).2);
  fwrite := fwrite; fflush := fflush; fsize := fsize; stat := stat; unlink := unlink; rename := rename; chmod := chmod;
  opendir := opendir
|}.
Lemma clamped_bytes {F} (HF : HostFs F) : @HostBytes F (clamped HF).
Proof.
  split. intros h n f. apply u8_bytes.
Qed.

(** ** Memory *)

Lemma mem_ok_set_fcb a i v m : mem_ok m → is_byte v → mem_ok (set_fcb_byte a i v m).
Proof. intros. by apply mem_ok_mset. Qed.
Lemma fcb_byte_ok a i m : mem_ok m → is_byte (fcb_byte a i m).
Proof. intros Hm. apply Hm. Qed.
Lemma mem_ok_store a bs m : mem_ok m → Forall is_byte bs → mem_ok (store_bytes a bs m).
Proof. intros Hm Hb. revert a m Hm. induction Hb as [|b bs Hb _ IH]; intros a m Hm; [done|]. apply IH. by apply mem_ok_mset. Qed.
Lemma load_bytes_ok a n m : mem_ok m → Forall is_byte (load_bytes a n m).
Proof. intros Hm. apply Forall_forall. intros x Hx. apply list_elem_of_fmap in Hx as (y & -> & _). apply Hm. Qed.
Lemma mem_ok_record_pos a rec m : mem_ok m → mem_ok (fcb_set_record_pos a rec m).
Proof. intros. repeat apply mem_ok_set_fcb; try done; apply byte_land_r; unfold is_byte; lia. Qed.
Lemma mem_ok_bump a m : mem_ok m → mem_ok (bump_rc a m).
Proof. intros. unfold bump_rc. destruct (_ <? _); [|done]. apply mem_ok_set_fcb; [done|apply u8_byte]. Qed.
Lemma mem_ok_random a recs top m : mem_ok m → is_byte top → mem_ok (put_random a recs top m).
Proof. intros. repeat apply mem_ok_set_fcb; try done; apply u8_byte. Qed.

Lemma dir_entry_bytes name ro drive e : fill_dir_entry name ro drive = Some e → Forall is_byte e.
Proof.
  assert (∀ l, Some (map u8 l) = Some e → Forall is_byte e) as Hm by (intros l [= <-]; apply u8_bytes).
  unfold fill_dir_entry. destruct (split_dot name) as [[b x]|]; [destruct (_ <=? _)%nat; [done|]|]; apply Hm.
Qed.

Ltac bytes := unfold is_byte; lia.

(** ** File calls *)

Section Files.
Context {F : Type} `{HB : HostBytes F}.
Implicit Type s : mach (dworld F).

Lemma ok_ret_a v s : cpu_ok s.1 → is_byte v → cpu_ok (ret_a v s).1.
Proof using Type. intros. cbn. in_range. Qed.
Lemma ok_on_disk g s : cpu_ok s.1 → cpu_ok (on_disk g s).1.
Proof using Type. done. Qed.
Lemma ok_on_host g s : cpu_ok s.1 → cpu_ok (on_host g s).1.
Proof using Type. done. Qed.
Lemma ok_on_mem g s : cpu_ok s.1 → mem_ok (g (mem s.1)) → cpu_ok (on_mem g s).1.
Proof using Type. intros. cbn. in_range. Qed.
Lemma ok_ask {R} (g : F → R * F) s : cpu_ok s.1 → cpu_ok (ask g s).2.1.
Proof using Type. intros. unfold ask. by destruct (g _). Qed.
Lemma ok_host_wrote a n s : cpu_ok s.1 → cpu_ok (host_wrote a n s).1.
Proof using Type.
  intros Hc. unfold host_wrote. assert (cpu_ok (z80_mem_host_wrote a n (s.1, w_dbt s.2)).1) as H1; [|by destruct (z80_mem_host_wrote _ _ _)].
  unfold z80_mem_host_wrote. cbn [snd]. destruct (w_dbt s.2) as [d|]; [|done]. assert (cpu_ok (s.1, Some d).1) as Ht by done.
  revert Ht. generalize (s.1, Some d). generalize (zseq 0 (Z.to_nat n)). intros l. induction l as [|i l IH]; intros t Ht; [done|].
  apply IH. cbv zeta. apply ok_mem_w; [done|]. apply (ok_mem _ Ht).
Qed.
Create HintDb svc.
#[local] Hint Resolve ok_ret_a ok_on_disk ok_on_host ok_on_mem ok_ask ok_host_wrote mem_ok_set_fcb mem_ok_store
  mem_ok_record_pos mem_ok_bump mem_ok_random ok_mem u8_byte byte_0 byte_1 : svc.
Ltac svc := eauto 12 with svc.

Lemma ok_retire a s : cpu_ok s.1 → cpu_ok (retire a s).1.
Proof using Type. intros. unfold retire, close_slot. repeat case_match; svc. Qed.
Lemma ok_open_rw p s : cpu_ok s.1 → cpu_ok (open_rw_or_ro p s).2.1.
Proof using Type.
  intros Hc. unfold open_rw_or_ro. pose proof (ok_ask (fopen RPlus p) s Hc). destruct (ask (fopen RPlus p) s) as [[h|] t]; svc.
Qed.
Lemma ok_slot a s : cpu_ok s.1 → cpu_ok (slot_for_io a s).2.1.
Proof using Type.
  intros Hc. unfold slot_for_io. destruct (get_file_slot_from_fcb _ _); [done|].
  pose proof (ok_open_rw (host_path a s) s Hc). destruct (open_rw_or_ro _ s) as [[h|] t]; [|done]. cbn in *.
  case_match; svc.
Qed.
Lemma ok_seek i rec s : cpu_ok s.1 → cpu_ok (seek_slot i rec s).2.1.
Proof using Type.
  intros Hc. unfold seek_slot. destruct (slot_fp _ _) as [h|]; [|done]. pose proof (ok_ask (fseek h (rec * 128)) s Hc).
  by destruct (ask _ s).
Qed.
Lemma ok_read h s : cpu_ok s.1 → cpu_ok (read_to_dma h s).2.1.
Proof using HB.
  intros Hc. unfold read_to_dma, ask. pose proof (fread_bytes h 128 (w_fs s.2)) as Hb.
  destruct (fread h 128 (w_fs s.2)) as [bs f]. destruct bs as [|b bs]; [done|]. cbn [fst] in Hb. svc.
Qed.
Lemma ok_write h s : cpu_ok s.1 → cpu_ok (write_from_dma h s).2.1.
Proof using Type. intros. unfold write_from_dma. svc. Qed.
#[local] Hint Resolve ok_retire ok_slot ok_seek ok_read ok_write ok_open_rw : svc.

(** Every pair a call produces on the way to its result. *)
Ltac each_pair :=
  repeat match goal with
  | |- context [match ?x with (_, _) => _ end] =>
      lazymatch type of x with
      | (_ * mach (dworld F))%type => let H := fresh "Hok" in assert (cpu_ok x.2.1) as H by svc; destruct x as [? ?]; cbn [fst snd] in H
      end
  | |- context [match ?x with _ => _ end] => destruct x
  end.
Ltac call := intros Hc; cbv zeta; each_pair; svc; try (apply ok_ret_a; [svc|bytes]).

Lemma ok_open_file a s : cpu_ok s.1 → cpu_ok (cpm_bdos_open_file a s).1.
Proof using Type. unfold cpm_bdos_open_file. call. Qed.
Lemma ok_close_file a s : cpu_ok s.1 → cpu_ok (cpm_bdos_close_file a s).1.
Proof using Type. unfold cpm_bdos_close_file. call. Qed.
Lemma ok_make_file a s : cpu_ok s.1 → cpu_ok (cpm_bdos_make_file a s).1.
Proof using Type. unfold cpm_bdos_make_file. call. Qed.
Lemma ok_delete_file a s : cpu_ok s.1 → cpu_ok (cpm_bdos_delete_file a s).1.
Proof using Type. unfold cpm_bdos_delete_file. call. Qed.
Lemma ok_rename a s : cpu_ok s.1 → cpu_ok (cpm_bdos_rename a s).1.
Proof using Type. unfold cpm_bdos_rename. call. Qed.
Lemma ok_read_sequential a s : cpu_ok s.1 → cpu_ok (cpm_bdos_read_sequential a s).1.
Proof using HB. unfold cpm_bdos_read_sequential. call. Qed.
Lemma ok_write_sequential a s : cpu_ok s.1 → cpu_ok (cpm_bdos_write_sequential a s).1.
Proof using HB. unfold cpm_bdos_write_sequential. call. Qed.
Lemma ok_random_read a s : cpu_ok s.1 → cpu_ok (cpm_bdos_random_read a s).1.
Proof using HB. unfold cpm_bdos_random_read. call. Qed.
Lemma ok_random_write a s : cpu_ok s.1 → cpu_ok (cpm_bdos_random_write a s).1.
Proof using HB. unfold cpm_bdos_random_write. call. Qed.
Lemma ok_set_dma s : cpu_ok s.1 → cpu_ok (cpm_bdos_set_dma s).1.
Proof using Type. unfold cpm_bdos_set_dma, cpm_set_dma. call. Qed.
Lemma ok_file_size a s : cpu_ok s.1 → cpu_ok (cpm_bdos_file_size a s).1.
Proof using Type. unfold cpm_bdos_file_size. call. Qed.
Lemma ok_set_random a s : cpu_ok s.1 → cpu_ok (cpm_bdos_set_random a s).1.
Proof using Type. unfold cpm_bdos_set_random. call. Qed.
Lemma ok_set_attributes a s : cpu_ok s.1 → cpu_ok (cpm_bdos_set_attributes a s).1.
Proof using Type. unfold cpm_bdos_set_attributes. call. Qed.

Lemma alloc_vector_bytes used : Forall is_byte (alloc_vector used).
Proof using Type.
  unfold alloc_vector. assert (Forall is_byte (replicate (Z.to_nat ((SHIM_DSM + 1) / 8)) 0)) as H0 by (apply Forall_replicate; bytes).
  revert H0. generalize (replicate (Z.to_nat ((SHIM_DSM + 1) / 8)) 0). generalize (zseq 0 (Z.to_nat used)).
  intros l. induction l as [|b l IH]; intros v Hv; [done|]. apply IH. apply Forall_insert; [done|apply u8_byte].
Qed.
Lemma ok_alloc_vector s : cpu_ok s.1 → cpu_ok (cpm_bdos_alloc_vector s).1.
Proof using Type.
  intros Hc. unfold cpm_bdos_alloc_vector. cbv zeta. set (used := if _ <? _ then _ else _). clearbody used. cbn [fst].
  assert (cpu_ok (host_wrote CPM_SHIM_ALV ((SHIM_DSM + 1) / 8) (on_mem (store_bytes CPM_SHIM_ALV (alloc_vector used)) s)).1) as Hw.
  { apply ok_host_wrote, ok_on_mem; [done|]. apply mem_ok_store; [by apply ok_mem|apply alloc_vector_bytes]. }
  revert Hw. generalize (host_wrote CPM_SHIM_ALV ((SHIM_DSM + 1) / 8) (on_mem (store_bytes CPM_SHIM_ALV (alloc_vector used)) s)).
  intros t Ht. apply ok_set_rB; [apply ok_set_rA; [apply ok_set_HL; [done|]|]|]; vm_compute; split; congruence.
Qed.

Lemma ok_search_result drive found rest s s' : cpu_ok s.1 → search_result drive found rest s = Some s' → cpu_ok s'.1.
Proof using Type.
  intros Hc. unfold search_result. destruct found as [[n st]|]; [|intros [= <-]; apply ok_ret_a; [done|bytes]].
  destruct (fill_dir_entry _ _ _) as [e|] eqn:E; [|done]. cbv zeta. intros [= <-].
  apply dir_entry_bytes in E. svc.
Qed.
Lemma ok_search_first stack a s s' : cpu_ok s.1 → cpm_bdos_search_first stack a s = Some s' → cpu_ok s'.1.
Proof using Type.
  intros Hc. unfold cpm_bdos_search_first. cbv zeta. destruct (opendir _ _); [|intros [= <-]; apply ok_ret_a; [done|bytes]].
  destruct (search_loop _ _ _ _ _) as [[found rest]|]; [|done]. by apply ok_search_result.
Qed.
Lemma ok_search_next stack s s' : cpu_ok s.1 → cpm_bdos_search_next stack s = Some s' → cpu_ok s'.1.
Proof using Type.
  intros Hc. unfold cpm_bdos_search_next. destruct (search_dir _); [|intros [= <-]; apply ok_ret_a; [done|bytes]].
  cbv zeta. destruct (search_loop _ _ _ _ _) as [[found rest]|]; [|done]. by apply ok_search_result.
Qed.
End Files.

(** ** The console and the dispatchers *)

Section Services.
Context {F H : Type} `{HB : HostBytes F, HC : ConsoleHost H}.
Context (stack : list Z → list Z * list Z) (waits keys : nat).
Implicit Type s : mach (cpm F H).

Lemma ok_on_files g s : (∀ t, cpu_ok t.1 → cpu_ok (g t).1) → cpu_ok s.1 → cpu_ok (on_files g s).1.
Proof using Type.
  intros Hg Hc. unfold on_files. pose proof (Hg (s.1, cw_files s.2) Hc) as Ht. by destruct (g _).
Qed.
Lemma conin_byte (w : cpm F H) ch w' : cpm_conin waits w = Some (ch, w') → is_byte ch.
Proof using Type.
  unfold cpm_conin. cbv zeta. destruct (kaypro_kbd_read _ _ _) as [[[c k] h]|]; [|done]. destruct (_ =? _); [done|].
  intros [= <- _]. apply u8_byte.
Qed.
Lemma constat_byte (w : cpm F H) v w' : cpm_constat w = Some (v, w') → is_byte v.
Proof using Type.
  unfold cpm_constat. cbv zeta. destruct (kaypro_kbd_poll _ _) as [[[r k] h]|]; [|done]. intros [= <- _].
  unfold is_byte. destruct (nz r); lia.
Qed.

Lemma line_ok keys' de max len s len' s' : cpu_ok s.1 → 0 <= len <= max → max < 256 →
  line_loop waits keys' de max len s = Some (len', s') → cpu_ok s'.1 ∧ 0 <= len' <= max.
Proof using Type.
  revert len s. induction keys' as [|n IH]; intros len s Hc Hl Hm; cbn [line_loop]; [done|].
  destruct (cpm_conin waits s.2) as [[ch w]|] eqn:E; [|done]. apply conin_byte in E. cbv zeta.
  destruct ((ch =? CR) || _); [intros [= <- <-]; by split|].
  destruct ((ch =? 0x08) || _). { destruct (Z.ltb_spec 0 len); apply IH; (done || lia). }
  destruct (ch =? 0x15); [apply IH; (done || lia)|]. destruct (ch =? 0x12); [by apply IH|].
  destruct (_ && (len <? max)) eqn:El; [|by apply IH]. apply andb_true_iff in El as [_ Hlt%Z.ltb_lt]. apply IH; [|lia|done].
  cbn. apply ok_set_mem; [done|]. apply mem_ok_set_fcb; [by apply ok_mem|done].
Qed.
Lemma ok_read_console de s s' : cpu_ok s.1 → cpm_read_console_buffer waits keys de s = Some s' → cpu_ok s'.1.
Proof using Type.
  intros Hc. pose proof (fcb_byte_ok de 0 (mem s.1) (ok_mem _ Hc)) as Hmax. unfold cpm_read_console_buffer. cbv zeta.
  destruct (_ =? 0).
  { intros [= <-]. apply ok_on_files; [|done]. intros t Ht. apply ok_ret_a; [|bytes]. apply ok_on_mem; [done|].
    apply mem_ok_set_fcb; [by apply ok_mem|bytes]. }
  set (s1 := on_files _ s). assert (cpu_ok s1.1) as H1.
  { apply ok_on_files; [|done]. intros t Ht. apply ok_host_wrote, ok_on_mem; [done|].
    apply mem_ok_store; [by apply ok_mem|]. apply Forall_replicate. bytes. }
  clearbody s1. set (s2 := on_files _ s1). assert (cpu_ok s2.1) as H2.
  { apply ok_on_files; [|done]. intros t Ht. apply ok_on_mem; [done|]. apply mem_ok_set_fcb; [by apply ok_mem|bytes]. }
  clearbody s2. unfold is_byte in Hmax. destruct (line_loop _ _ _ _ _ s2) as [[len t]|] eqn:E; [|done].
  apply line_ok in E as [Ht Hlen]; [|done|lia|lia]. intros [= <-]. apply ok_on_files; [|done]. intros u Hu.
  apply ok_ret_a; [|bytes]. apply ok_host_wrote, ok_on_mem; [done|]. apply mem_ok_set_fcb; [by apply ok_mem|bytes].
Qed.

Lemma ok_print n addr s s' : cpu_ok s.1 → print_loop n addr s = Some s' → cpu_ok s'.1.
Proof using Type.
  revert addr s. induction n as [|n IH]; intros addr s Hc; cbn [print_loop]; [done|]. cbv zeta.
  destruct (_ =? _); [by intros [= <-]|]. by apply IH.
Qed.

(** What a call may leave, when it comes back. *)
Definition good_end (r : option (bool * mach (cpm F H))) : Prop := match r with Some (_, s) => cpu_ok s.1 | None => True end.
Lemma good_go s : cpu_ok s.1 → good_end (go s).
Proof using Type. done. Qed.
Lemma good_ret_A v s : is_byte v → cpu_ok s.1 → good_end (go (ret_A v s)).
Proof using Type. intros. cbn. in_range. Qed.
Lemma good_byte call s : (∀ v w, call s.2 = Some (v, w) → is_byte v) → cpu_ok s.1 → good_end (to_A (byte_call call s)).
Proof using Type.
  intros Hv Hc. unfold to_A, byte_call. destruct (call s.2) as [[v w]|]; [|done]. apply good_ret_A; [by eapply Hv|done].
Qed.
Lemma good_conin s : cpu_ok s.1 → good_end (to_A (byte_call (cpm_conin waits) s)).
Proof using Type. apply good_byte. intros v w. apply conin_byte. Qed.
Lemma good_constat s : cpu_ok s.1 → good_end (to_A (byte_call cpm_constat s)).
Proof using Type. apply good_byte. intros v w. apply constat_byte. Qed.
Lemma good_file g s : (∀ t, cpu_ok t.1 → cpu_ok (g t).1) → cpu_ok s.1 → good_end (go (on_files g s)).
Proof using Type. apply ok_on_files. Qed.
Lemma good_search g s : (∀ t t', cpu_ok t.1 → g t = Some t' → cpu_ok t'.1) → cpu_ok s.1 → good_end (search g s).
Proof using Type.
  intros Hg Hc. unfold search. destruct (g _) as [[c x]|] eqn:E; [|done]. by apply (Hg (s.1, cw_files s.2) (c, x)).
Qed.
Lemma ok_ret_hl v c : cpu_ok c → cpu_ok (ret_hl v c).
Proof using Type.
  intros. unfold ret_hl. apply ok_set_rB; [apply ok_set_rA; [apply ok_set_HL; [done|apply u16_word]|]|]; apply u8_byte.
Qed.

Lemma good_direct_io s : cpu_ok s.1 → good_end (direct_io waits s).
Proof using Type.
  intros Hc. unfold direct_io. cbv zeta. destruct (_ =? 0xFF).
  { unfold byte_call at 1. destruct (cpm_constat s.2) as [[v w]|]; [|done]. destruct (nz v); [by apply good_conin|].
    apply good_ret_A; [bytes|done]. }
  destruct (_ =? 0xFE); [by apply good_constat|]. destruct (_ =? 0xFD); [by apply good_conin|].
  apply good_ret_A; [by apply ok_rE|done].
Qed.

Lemma good_bdos_call f s : cpu_ok s.1 → good_end (bdos_call stack waits keys f s).
Proof using HB.
  intros Hc. destruct f; unfold bdos_call; cbv zeta;
    try (apply good_ret_A; [bytes|done]); try (by apply good_conin); try (by apply good_constat);
    try (apply good_file; [|done]; intros t; first
      [apply ok_set_attributes|apply ok_file_size|apply ok_set_random|apply ok_random_write|apply ok_set_dma|apply ok_open_file
      |apply ok_close_file|apply ok_read_sequential|apply ok_make_file|apply ok_rename|apply ok_delete_file
      |apply ok_write_sequential|apply ok_random_read|apply ok_alloc_vector]);
    try (by apply good_go); try (apply good_go; apply ok_on_cpu; apply ok_ret_hl; exact Hc).
  - by apply good_direct_io.
  - apply good_ret_A; [by apply (ok_mem _ Hc)|done].
  - apply good_file; [|done]. intros t Ht. apply ok_host_wrote, ok_on_mem; [done|]. apply mem_ok_mset; [by apply ok_mem|by apply ok_rE].
  - destruct (print_loop _ _ _) as [t|] eqn:E; [|done]. apply good_ret_A; [bytes|by eapply ok_print].
  - destruct (cpm_read_console_buffer _ _ _ s) as [t|] eqn:E; [|done]. apply good_go. by eapply ok_read_console.
  - apply good_go, ok_on_cpu, ok_set_HL; [done|unfold is_word; lia].
  - apply good_search; [|done]. intros t t'. apply ok_search_first.
  - apply good_search; [|done]. intros t t'. apply ok_search_next.
  - destruct (_ =? 0xFF); (apply good_ret_A; [|done]); [apply u8_byte|bytes].
Qed.

Lemma good_bdos s : cpu_ok s.1 → good_end (cpm_bdos_dispatch stack waits keys s).
Proof using HB.
  intros Hc. unfold cpm_bdos_dispatch. destruct (bdos_function _); [by apply good_bdos_call|]. apply good_go.
  unfold unimplemented. apply ok_on_cpu. apply ok_set_rB; [apply ok_set_rA; [apply ok_set_HL; [done|unfold is_word; lia]|]|]; bytes.
Qed.
Lemma good_bios s : cpu_ok s.1 → good_end (cpm_bios_dispatch waits s).
Proof using Type.
  intros Hc. unfold cpm_bios_dispatch. destruct (bios_function _) as [[]|]; try done; try (by apply good_conin);
    try (by apply good_constat); try (by apply good_go). apply good_ret_A; [bytes|done].
Qed.
Lemma ok_ended r s : good_end r → cpu_ok s.1 → cpu_ok (ended r s).2.1.
Proof using Type. by destruct r as [[b t]|]. Qed.

Lemma shim_host_ok : HostOk (H := shim_host stack waits keys) (cpm F H).
Proof using HB.
  constructor; cbn [port_in_hook port_out_hook bdos_dispatch bios_dispatch shim_host].
  - intros hook p h c w [= <-] Hc. split; [apply u8_byte|done].
  - by intros hook p h v c w [= <-].
  - by intros hook p h c w [= <-].
  - by intros hook p h v c w [= <-].
  - intros c w Hc. apply ok_ended; [by apply good_bdos|done].
  - intros c w Hc. apply ok_ended; [by apply good_bios|done].
Qed.
End Services.

(** A CP/M program stays within the machine's types.  Under the real
    BDOS, BIOS and port services, on any host whose [fread] stores bytes,
    whatever the keyboard, the files and the directory hold, any number of
    interpreter steps from a state in range ends in one: every register,
    counter and memory cell has the width of its C type. *)
Theorem cpm_steps_in_range {F H : Type} `{HostBytes F, ConsoleHost H} stack waits keys n (s : mach (cpm F H)) :
  cpu_ok s.1 → cpu_ok (z80_steps (H := shim_host stack waits keys) n s).2.1.
Proof.
  pose proof (shim_host_ok (F := F) (H := H) stack waits keys) as Hok. revert s.
  induction n as [|n IH]; intros s Hc; [done|]. cbn [z80_steps].
  pose proof (ok_z80_step (H := shim_host stack waits keys) s Hc) as Hs.
  destruct (z80_step s) as [[] t]; [by apply IH|done|done].
Qed.

(** ** BDOS 9 *)

Section Print.
Context {F H : Type} `{HF : HostFs F, HC : ConsoleHost H}.
Context (stack : list Z → list Z * list Z) (waits keys : nat).
Implicit Type s : mach (cpm F H).

Lemma load_bytes_from a n m : load_bytes a n m = map (λ j, mget m (u16 (a + j))) (zseq 0 n).
Proof using Type.
  unfold load_bytes. revert a. induction n as [|n IH]; intros a; [done|]. cbn [zseq map]. rewrite Z.add_0_r. f_equal.
  rewrite IH, (map_zseq_shift _ 0). apply map_zseq_ext. intros i _. do 2 f_equal. lia.
Qed.
Lemma load_bytes_u16 a n m : load_bytes (u16 a) n m = load_bytes a n m.
Proof using Type. rewrite !load_bytes_from. apply map_zseq_ext. intros i _. by rewrite u16_add_l. Qed.

Lemma print_spec l : ∀ n addr s, (length l < n)%nat → is_word addr → chr "$" ∉ l → load_bytes addr (length l) (mem s.1) = l →
  mget (mem s.1) (u16 (addr + Z.of_nat (length l))) = chr "$" →
  print_loop n addr s = Some (on_dev (conouts l) s).
Proof using Type.
  induction l as [|c l IH]; intros [|n] addr s Hn Ha Hd Hl Hend; cbn [length print_loop] in *; try lia; cbv zeta.
  - rewrite Z.add_0_r, u16_id in Hend by done. rewrite Hend. by destruct s.
  - apply not_elem_of_cons in Hd as [Hc Hd]. unfold load_bytes in Hl. cbn [zseq map] in Hl. injection Hl as Hc' Hl.
    rewrite u16_id in Hc' by done. rewrite Hc'. destruct (Z.eqb_spec c (chr "$")); [done|].
    rewrite (IH n (u16 (addr + 1)) (on_dev (cpm_conout c) s)); [done|lia|apply u16_word|done| |].
    + by rewrite load_bytes_u16.
    + cbn [on_dev fst]. rewrite u16_add_l. rewrite <- Hend. do 2 f_equal. lia.
Qed.
Lemma print_endless n : ∀ addr s, is_word addr → (∀ a, is_word a → mget (mem s.1) a ≠ chr "$") → print_loop n addr s = None.
Proof using Type.
  induction n as [|n IH]; intros addr s Ha Hm; cbn [print_loop]; [done|]. cbv zeta.
  destruct (Z.eqb_spec (mget (mem s.1) addr) (chr "$")) as [E|]; [by apply Hm in E|]. apply IH; [apply u16_word|done].
Qed.

(** C35: BDOS 9 prints the string at DE.  If the bytes [l] stand at DE, none
    of them a dollar sign, and one follows (wrapping past FFFF), the call
    sends exactly [l] to the console, sets A to 0 and goes on; if memory
    holds no dollar sign at all, no number of characters ends the loop. *)
Theorem print_string l s :
  cpu_ok s.1 → rC s.1 = 9 →
  (Z.of_nat (length l) < 65536 → chr "$" ∉ l → load_bytes (rDE s.1) (length l) (mem s.1) = l →
   mget (mem s.1) (u16 (rDE s.1 + Z.of_nat (length l))) = chr "$" →
   cpm_bdos_dispatch stack waits keys s = Some (true, (set_rA 0 s.1, conouts l s.2))) ∧
  ((∀ a, is_word a → mget (mem s.1) a ≠ chr "$") → ∀ n, print_loop n (rDE s.1) s = None).
Proof using Type.
  intros Hc H9. assert (is_word (rDE s.1)) as Hde by (by apply word_of_word; [apply ok_rE|apply ok_rD]).
  split; [|intros Hm n; by apply print_endless]. intros Hl Hd Hb Hend. unfold cpm_bdos_dispatch. rewrite H9.
  change (bdos_function 9) with (Some F_PRINTSTR). unfold bdos_call. cbv zeta.
  by rewrite (print_spec l (Z.to_nat 65536) (rDE s.1) s) by (done || lia).
Qed.
End Print.

(** ** A machine with a program *)

(** A file host in memory that reads bytes. *)
#[local] Instance byte_files : HostFs mem_host := clamped mem_fs.
#[local] Instance byte_files_bytes : HostBytes mem_host := clamped_bytes mem_fs.
Definition no_stack (_ : list Z) : list Z * list Z := ([], []).

(** LD C,9; LD DE,0110; CALL 5; RET, and a string. *)
Definition hello_cpu : z80_cpu :=
  set_rPC 0x100 (set_rSP 0xFEFE (set_mem (mset_list 0x110 (str "hi$") (mset_list 0x100 [0x0E; 0x09; 0x11; 0x10; 0x01; 0xCD; 0x05; 0x00; 0xC9] ∅))
    z80_cpu_init)).
Definition hello_state : mach (cpm mem_host mem_tty) := (hello_cpu, typing_world).
Lemma hello_ok : cpu_ok hello_cpu.
Proof.
  unfold hello_cpu. assert (∀ m, mem_ok m → cpu_ok (set_rPC 0x100 (set_rSP 0xFEFE (set_mem m z80_cpu_init)))) as Hm.
  { intros m Hm. pose proof z80_cpu_init_ok. apply ok_set_rPC; [|unfold is_word; lia]. apply ok_set_rSP; [|unfold is_word; lia]. by apply ok_set_mem. }
  apply Hm. apply mem_ok_mset_list; [apply mem_ok_mset_list; [apply mem_ok_empty|]|]; repeat constructor; vm_compute; congruence.
Qed.

Lemma cpm_steps_in_range_witness :
  cpu_ok (z80_steps (H := shim_host no_stack 0 10) 4 hello_state).2.1.
Proof. apply (cpm_steps_in_range no_stack 0 10 4 hello_state). exact hello_ok. Defined.

Definition hello_call : mach (cpm mem_host mem_tty) := (set_rC 9 (set_rE 0x10 (set_rD 0x01 hello_cpu)), typing_world).
Lemma print_string_witness :
  cpm_bdos_dispatch no_stack 0 10 hello_call = Some (true, (set_rA 0 hello_call.1, conouts (str "hi") hello_call.2)).
Proof.
  assert (cpu_ok hello_call.1) as Hc.
  { pose proof hello_ok. unfold hello_call. cbn [fst]. repeat apply ok_set_rC || apply ok_set_rE || apply ok_set_rD; done || (unfold is_byte; lia). }
  apply (print_string no_stack 0 10 (str "hi") hello_call Hc eq_refl); [cbn; lia| |by vm_compute|by vm_compute].
  vm_compute. intros Hx. repeat (apply elem_of_cons in Hx as [?|Hx]; [done|]). by apply elem_of_nil in Hx.
Defined.
