(* ===== verification/Loader.v ===== *)
(** * Loader: a program in memory (src/cpm/cpm_loader.c)

    [cpm_load_com] reads a .COM file to 0100 and sets the machine up as the
    CCP leaves it; [cpm_install] writes the entry vectors and
    [cpm_install_bios] (cpm_bios.c) the BIOS jump table.  The size that
    [ftell] reports at the end of the file is [fsize]. *)

From Stdlib Require Import ZArith Lia Bool List Ascii String.
From stdpp Require Import base gmap list.
From S2P Require Import Prelude Cpu BlockCache Interp HostFs Disk DiskOk Video Kbd Term Render Console Bdos.

Open Scope string_scope.
Open Scope list_scope.
Open Scope Z_scope.
Open Scope z80_scope.

Section Loader.
Context {F : Type} `{HostFs F}.
Abbreviation world := (mach (dworld F)).
Implicit Type s : world.

Definition signature : list Z := str "CPM2MONSTER" ++ [0].

(** [mem_size] is 64K here. *)
Definition cpm_install s : world :=
  let s := on_mem (store_bytes 0x0000 [0xC3; 0x00; 0xF0]) s in
  let s := on_mem (store_bytes 0x0005 [0xC3; CPM_BDOS_HIGH &' 0xFF; CPM_BDOS_HIGH >>' 8]) s in
  let s := on_mem (store_bytes 0xF000 signature) s in
  cpm_disk_install_defaults (on_disk cpm_disk_init s).

(** Vector [i]: a jump to an address of its own. *)
Definition bios_vector (i : Z) : list Z :=
  let dest := CPM_BIOS_BASE + 0x30 + i * 3 in [0xC3; dest &' 0xFF; dest >>' 8].
Definition cpm_install_bios (m : memory) : memory :=
  let base := CPM_BIOS_BASE in
  let m := fold_left (λ m i, store_bytes (base + i * 3) (bios_vector i) m) (zseq 0 (Z.to_nat CPM_BIOS_COUNT)) m in
  let m := store_bytes 0x0001 [(base + 3) &' 0xFF; (base + 3) >>' 8] m in
  store_bytes base (str "BIOS") m.

(** Page zero as the CCP leaves it for a command with no arguments. *)
Definition page_zero (m : memory) : memory :=
  let m := store_bytes 0x5C (replicate 0x24 0) m in
  let m := store_bytes 0x5D (replicate 11 0x20) m in
  let m := store_bytes 0x6D (replicate 11 0x20) m in
  store_bytes 0x80 [0] m.

Definition cpm_load_com (path : list Z) s : Z * world :=
  let '(h, s) := ask (fopen ROnly path) s in
  match h with
  | None => (-1, s)
  | Some h =>
      let size := default (-1) (fsize h (w_fs s.2)) in
      let '(_, s) := ask (fseek h 0) s in
      if (size <=? 0) || (0xFE00 <? size) then (-1, on_host (fclose h) s)
      else
        let '(bs, s) := ask (fread h (Z.to_nat size)) s in
        let s := on_host (fclose h) (on_mem (store_bytes 0x0100 bs) s) in
        if negb (length bs =? Z.to_nat size)%nat then (-1, s)
        else
          let s : world := (set_rSP (0xFF00 - 2) (set_rPC 0x0100 s.1), s.2) in
          let s := on_mem (λ m, page_zero (store_bytes (rSP s.1) [0x00; 0x00] m)) s in
          let s : world := (set_rC 0 s.1, s.2) in
          let s := cpm_install s in
          let s := cpm_disk_install_defaults (on_disk cpm_disk_init s) in
          (0, on_mem cpm_install_bios s)
  end.
End Loader.

(** ** Memory after a sequence of stores *)

Lemma mget_store a bs m x : 0 <= a → a + Z.of_nat (length bs) <= 65536 → is_word x →
  mget (store_bytes a bs m) x =
  if decide (a <= x < a + Z.of_nat (length bs)) then default 0 (bs !! Z.to_nat (x - a)) else mget m x.
Proof.
  intros Ha Hl Hx. revert a m Ha Hl. induction bs as [|b bs IH]; intros a m Ha Hl; cbn [store_bytes length] in *.
  - by rewrite decide_False by lia.
  - rewrite IH by lia. assert (u16 a = a) as Ea by (apply u16_id; unfold is_word; lia). rewrite Ea.
    destruct (decide (a + 1 <= x < a + 1 + Z.of_nat (length bs))).
    + rewrite decide_True by lia. replace (Z.to_nat (x - a)) with (S (Z.to_nat (x - (a + 1)))) by lia. done.
    + rewrite mget_mset. destruct (decide (a = x)) as [->|].
      * rewrite decide_True by lia. by rewrite Z.sub_diag.
      * by rewrite decide_False by lia.
Qed.
Lemma store_app a l1 l2 m : store_bytes a (l1 ++ l2) m = store_bytes (a + Z.of_nat (length l1)) l2 (store_bytes a l1 m).
Proof.
  revert a m. induction l1 as [|b l1 IH]; intros a m; cbn [app store_bytes length]; [f_equal; lia|].
  rewrite IH. f_equal. lia.
Qed.
Lemma store_rows (f : Z → list Z) k base n m : (∀ i, Z.of_nat (length (f i)) = k) →
  fold_left (λ m i, store_bytes (base + i * k) (f i) m) (zseq 0 n) m = store_bytes base (flat_map f (zseq 0 n)) m.
Proof.
  intros Hf. induction n as [|n IH]; [done|]. rewrite zseq_snoc, fold_left_app, flat_map_app, store_app, IH. cbn [fold_left flat_map].
  rewrite app_nil_r. f_equal. assert (Z.of_nat (length (flat_map f (zseq 0 n))) = Z.of_nat n * k) as ->; [|lia].
  clear IH. induction n as [|n IH]; [done|]. rewrite zseq_snoc, flat_map_app, length_app. cbn [flat_map]. rewrite app_nil_r, Nat2Z.inj_add, IH, Hf. lia.
Qed.

(** What [cpm_install_bios] leaves at the table: the mark over the first
    four bytes, then the jumps. *)
Definition bios_table : list Z := str "BIOS" ++ drop 4 (flat_map bios_vector (zseq 0 17)).
Lemma bios_memory m x : is_word x →
  mget (cpm_install_bios m) x =
  if decide (0xF200 <= x < 0xF233) then default 0 (bios_table !! Z.to_nat (x - 0xF200))
  else if decide (x = 1) then 0x03 else if decide (x = 2) then 0xF2 else mget m x.
Proof.
  intros Hx. unfold cpm_install_bios. cbv zeta. rewrite (store_rows bios_vector 3) by done.
  change (Z.to_nat CPM_BIOS_COUNT) with 17%nat. unfold bios_table. set (tab := flat_map bios_vector (zseq 0 17)).
  assert (length tab = 51%nat) as Ht by (by vm_compute). assert (length (str "BIOS") = 4%nat) as Hb by done.
  rewrite mget_store by (rewrite ?Hb; unfold CPM_BIOS_BASE; done || lia).
  rewrite Hb. unfold CPM_BIOS_BASE. rewrite mget_store by (done || (cbn; lia)). cbn [length].
  rewrite mget_store by (rewrite ?Ht; done || lia). rewrite Ht.
  destruct (decide (0xF200 <= x < 0xF200 + Z.of_nat 4)).
  { rewrite decide_True by lia. rewrite lookup_app_l by (rewrite Hb; lia). done. }
  destruct (decide (1 <= x < 1 + Z.of_nat 2)).
  { rewrite decide_False by lia. assert (x = 1 ∨ x = 2) as [-> | ->] by lia; done. }
  destruct (decide (0xF200 <= x < 0xF200 + Z.of_nat 51)).
  - rewrite decide_True by lia. rewrite lookup_app_r by (rewrite Hb; lia). rewrite Hb, lookup_drop.
    by replace (4 + (Z.to_nat (x - 61952) - 4))%nat with (Z.to_nat (x - 61952)) by lia.
  - rewrite !decide_False by lia. done.
Qed.

(** ** The BIOS table and its dispatcher *)

(** Which function a BIOS entry runs.  After [cpm_install_bios], entry
    [i] of the table and any address of its three bytes dispatch to function
    [i]; every entry past the first two is a jump (the mark "BIOS" covers
    those), and the address it jumps to dispatches to the same function.
    The first is the exception: the area it would jump to begins inside the
    table's last entry, so BOOT's own address runs SECTRAN. *)
Theorem bios_entries (m : memory) (i b : Z) :
  0 <= i < CPM_BIOS_COUNT → 0 <= b < 3 →
  let entry := CPM_BIOS_BASE + i * 3 in
  let target := CPM_BIOS_BASE + 0x30 + i * 3 in
  let m' := cpm_install_bios m in
  bios_function (entry + b) = bios_functions !! Z.to_nat i ∧
  (2 <= i → mget m' entry = 0xC3) ∧
  (1 <= i → mget16 m' (entry + 1) = target ∧ bios_function (target + b) = bios_functions !! Z.to_nat i) ∧
  (i = 0 → load_bytes entry 3 m' = str "BIO" ∧ bios_function (target + b) = Some BIOS_SECTRAN).
Proof.
  intros Hi Hb entry target m'.
  assert (∀ j c, 0 <= j < 17 → 0 <= c < 3 → (j * 3 + c) / 3 = j) as Hdiv.
  { intros j c Hj Hc. symmetry. apply (Z.div_unique _ _ _ c); lia. }
  assert (bios_index (entry + b) = Some i) as Eentry.
  { unfold bios_index, entry, CPM_BIOS_BASE, CPM_BIOS_COUNT in *. destruct (Z.leb_spec 61952 (61952 + i * 3 + b)); [|lia].
    destruct (Z.ltb_spec (61952 + i * 3 + b) (61952 + 17 * 3)); [|lia]. cbn [andb]. f_equal. transitivity ((i * 3 + b) / 3); [f_equal; lia|by apply Hdiv]. }
  assert (bios_index (target + b) = Some (if decide (i = 0) then 16 else i)) as Etarget.
  { unfold bios_index, target, CPM_BIOS_BASE, CPM_BIOS_COUNT in *. destruct (Z.leb_spec 61952 (61952 + 0x30 + i * 3 + b)); [|lia].
    destruct (Z.ltb_spec (61952 + 0x30 + i * 3 + b) (61952 + 17 * 3)); cbn [andb].
    - rewrite decide_True by lia. f_equal. transitivity ((16 * 3 + b) / 3); [f_equal; lia|by apply Hdiv].
    - rewrite decide_False by lia. destruct (Z.leb_spec (61952 + 0x30) (61952 + 0x30 + i * 3 + b)); [|lia].
      destruct (Z.ltb_spec (61952 + 0x30 + i * 3 + b) (61952 + 0x30 + 17 * 3)); [|lia]. cbn [andb]. f_equal.
      transitivity ((i * 3 + b) / 3); [f_equal; lia|by apply Hdiv]. }
  assert (∀ x, 0xF200 <= x < 0xF233 → mget m' x = default 0 (bios_table !! Z.to_nat (x - 0xF200))) as Hm.
  { intros x Hx. unfold m'. rewrite bios_memory by (unfold is_word; lia). by rewrite decide_True. }
  unfold bios_function. rewrite Eentry, Etarget.
  assert (∀ P : Z → Prop, Forall P (zseq 0 17) → P i) as Hall.
  { intros P HP. rewrite Forall_forall in HP. apply HP. apply list_elem_of_In, elem_of_zseq. unfold CPM_BIOS_COUNT in Hi. lia. }
  split; [done|]. split; [|split].
  - intros H2. unfold entry. rewrite Hm by (unfold CPM_BIOS_BASE, CPM_BIOS_COUNT in *; lia). clear -H2 Hall. revert H2. apply Hall.
    repeat (constructor; [vm_compute; intros; (reflexivity || congruence)|]). constructor.
  - intros H1. rewrite decide_False by lia. split; [|done]. unfold mget16, entry.
    rewrite !u16_id by (unfold is_word, CPM_BIOS_BASE, CPM_BIOS_COUNT in *; lia).
    rewrite !Hm by (unfold CPM_BIOS_BASE, CPM_BIOS_COUNT in *; lia). unfold target. clear -H1 Hall. revert H1. apply Hall.
    repeat (constructor; [vm_compute; intros; (reflexivity || congruence)|]). constructor.
  - intros ->. split; [|done]. unfold load_bytes. cbn [zseq map].
    rewrite !Hm by (vm_compute; split; congruence). by vm_compute.
Qed.

Lemma bios_entries_witness :
  bios_function 0xF230 = Some BIOS_SECTRAN ∧ mget16 (cpm_install_bios ∅) 0xF20D = 0xF23C ∧ bios_function 0xF23C = Some BIOS_CONOUT.
Proof.
  destruct (bios_entries ∅ 0 0 ltac:(by vm_compute) ltac:(by vm_compute)) as (_ & _ & _ & H0).
  destruct (bios_entries ∅ 4 0 ltac:(by vm_compute) ltac:(by vm_compute)) as (_ & _ & H4 & _).
  split; [exact (proj2 (H0 eq_refl))|]. exact (H4 ltac:(by vm_compute)).
Defined.

(** ** A loaded program *)

(** What the set-up writes into the upper memory. *)
Definition system_area (x : Z) : Prop :=
  0xE500 <= x < 0xE50F ∨ 0xF000 <= x < 0xF00C ∨ 0xF200 <= x < 0xF233 ∨ 0xFEFE <= x < 0xFF00.
Definition system_byte (x : Z) : Z :=
  if decide (0xF200 <= x < 0xF233) then default 0 (bios_table !! Z.to_nat (x - 0xF200))
  else if decide (0xF000 <= x < 0xF00C) then default 0 (signature !! Z.to_nat (x - 0xF000))
  else if decide (0xE500 <= x < 0xE50F) then default 0 (shim_dpb !! Z.to_nat (x - 0xE500)) else 0.
(** The two default FCBs: no drive, blank names, position zero. *)
Definition blank_fcbs : list Z :=
  let fcb := 0 :: replicate 11 0x20 ++ [0; 0; 0; 0] in fcb ++ fcb ++ [0; 0; 0; 0].

Section Load.
Context {F : Type} `{FsLaws F}.
Implicit Type s : mach (dworld F).

Ltac stores := rewrite ?mget_store by (done || (cbn; lia)).
Ltac settle := repeat first [rewrite decide_True by lia | rewrite decide_False by lia].

Lemma defaults_mem s x : is_word x → mget (the_mem (cpm_disk_install_defaults s)) x =
  if decide (0xE500 <= x < 0xE50F) then default 0 (shim_dpb !! Z.to_nat (x - 0xE500)) else mget (the_mem s) x.
Proof using Type.
  intros Hx. unfold cpm_disk_install_defaults. cbv zeta. rewrite (proj1 (host_wrote_same _ _ _)).
  change (the_mem (on_mem ?g (on_disk ?k s))) with (g (the_mem s)). rewrite mget_store by (done || (cbn; lia)). done.
Qed.
Lemma defaults_cpu s : ∃ m, (cpm_disk_install_defaults s).1 = set_mem m s.1.
Proof using Type.
  unfold cpm_disk_install_defaults. cbv zeta. destruct (host_wrote_cpu CPM_SHIM_DPB 15
    (on_mem (store_bytes CPM_SHIM_DPB shim_dpb) (on_disk (set_current_dma CPM_DEFAULT_DMA) s))) as (m & E & _). by exists m.
Qed.

Lemma install_mem s x : is_word x → mget (the_mem (cpm_install s)) x =
  if decide (0xE500 <= x < 0xE50F) then default 0 (shim_dpb !! Z.to_nat (x - 0xE500))
  else if decide (0xF000 <= x < 0xF00C) then default 0 (signature !! Z.to_nat (x - 0xF000))
  else if decide (5 <= x < 8) then default 0 ([0xC3; 0x00; 0xE4] !! Z.to_nat (x - 5))
  else if decide (0 <= x < 3) then default 0 ([0xC3; 0x00; 0xF0] !! Z.to_nat (x - 0)) else mget (the_mem s) x.
Proof using Type.
  intros Hx. unfold cpm_install. cbv zeta. rewrite defaults_mem by done.
  match goal with |- context [mget (the_mem (on_disk cpm_disk_init ?t)) x] => change (the_mem (on_disk cpm_disk_init t)) with (the_mem t) end.
  change (the_mem (on_mem ?g3 (on_mem ?g2 (on_mem ?g1 s)))) with (g3 (g2 (g1 (the_mem s)))).
  rewrite (mget_store 0xF000), (mget_store 5), (mget_store 0) by (done || (cbn; lia)). done.
Qed.

Lemma page_zero_mem m x : is_word x → mget (page_zero m) x =
  if decide (0x5C <= x < 0x80) then default 0 (blank_fcbs !! Z.to_nat (x - 0x5C))
  else if decide (x = 0x80) then 0 else mget m x.
Proof using Type.
  intros Hx. unfold page_zero. cbv zeta. rewrite !mget_store by (rewrite ?length_replicate; done || (cbn; lia)).
  rewrite !length_replicate. cbn [length].
  destruct (decide (0x5C <= x < 0x80)) as [Hr|Hr].
  - rewrite (decide_False (P := 128 <= x < 128 + Z.of_nat 1)) by lia.
    assert (∀ P : Z → Prop, Forall P (zseq 0x5C 36) → P x) as Hall.
    { intros P HP. rewrite Forall_forall in HP. apply HP. apply list_elem_of_In, elem_of_zseq. lia. }
    clear Hx Hr. apply Hall. repeat (constructor; [vm_compute; reflexivity|]). constructor.
  - destruct (decide (x = 0x80)) as [->|]; [done|]. settle. done.
Qed.

(** The steps after the file is in memory. *)
Definition set_up s : mach (dworld F) :=
  let s : mach (dworld F) := (set_rSP (0xFF00 - 2) (set_rPC 0x0100 s.1), s.2) in
  let s := on_mem (λ m, page_zero (store_bytes (rSP s.1) [0x00; 0x00] m)) s in
  let s : mach (dworld F) := (set_rC 0 s.1, s.2) in
  let s := cpm_install s in
  let s := cpm_disk_install_defaults (on_disk cpm_disk_init s) in
  on_mem cpm_install_bios s.

Lemma set_up_cpu s : ∃ m, (set_up s).1 = set_mem m (set_rC 0 (set_rSP 0xFEFE (set_rPC 0x0100 s.1))).
Proof using Type.
  unfold set_up. cbv zeta. set (s1 := (set_rC 0 _, _)). assert (∃ m, (cpm_install s1).1 = set_mem m s1.1) as [m1 E1].
  { unfold cpm_install. cbv zeta. match goal with |- context [cpm_disk_install_defaults ?t] => destruct (defaults_cpu t) as [m E] end.
    by exists m. }
  match goal with |- context [cpm_disk_install_defaults ?t] => destruct (defaults_cpu t) as [m E] end.
  eexists. cbn [on_mem fst]. rewrite E. cbn [on_disk fst]. rewrite E1. reflexivity.
Qed.

Lemma set_up_mem s x : is_word x → mget (the_mem (set_up s)) x =
  if decide (0xF200 <= x < 0xF233) then default 0 (bios_table !! Z.to_nat (x - 0xF200))
  else if decide (x = 1) then 0x03 else if decide (x = 2) then 0xF2
  else if decide (0xE500 <= x < 0xE50F) then default 0 (shim_dpb !! Z.to_nat (x - 0xE500))
  else if decide (0xF000 <= x < 0xF00C) then default 0 (signature !! Z.to_nat (x - 0xF000))
  else if decide (5 <= x < 8) then default 0 ([0xC3; 0x00; 0xE4] !! Z.to_nat (x - 5))
  else if decide (0 <= x < 3) then default 0 ([0xC3; 0x00; 0xF0] !! Z.to_nat (x - 0))
  else if decide (0x5C <= x < 0x80) then default 0 (blank_fcbs !! Z.to_nat (x - 0x5C))
  else if decide (x = 0x80) then 0
  else if decide (0xFEFE <= x < 0xFF00) then default 0 ([0; 0] !! Z.to_nat (x - 0xFEFE))
  else mget (the_mem s) x.
Proof using Type.
  intros Hx. unfold set_up. cbv zeta. change (the_mem (on_mem ?g ?t)) with (g (the_mem t)).
  rewrite bios_memory, defaults_mem by done.
  change (the_mem (on_disk cpm_disk_init ?t)) with (the_mem t). rewrite install_mem by done.
  match goal with |- context [the_mem (set_rC 0 ?c, ?w)] => change (the_mem (set_rC 0 c, w)) with (mem c) end.
  match goal with |- context [mem ?c] => change (mem c) with (page_zero (store_bytes 0xFEFE [0; 0] (the_mem s))) end.
  rewrite page_zero_mem, mget_store by (done || (cbn; lia)). cbn [length].
  repeat case_decide; try done; lia.
Qed.

(** C36: a loaded program.  When [cpm_load_com] succeeds, memory from 0100 on
    holds the file, byte for byte, wherever the set-up does not put its own
    data: the parameter block at E500, the mark at F000, the BIOS table at
    F200 and the zero word on the stack, which replace a long program's
    bytes.  The program starts at 0100 with SP at a zero word, so that a
    final RET leads to 0000, C = 0, two blank FCBs and an empty command
    tail; 0000 and 0005 hold the jumps. *)
Theorem loaded_program path s s' :
  cpm_load_com path s = (0, s') → ∃ ino d,
  let m := the_mem s' in
  names (view (w_fs s.2)) !! path = Some ino ∧ files (view (w_fs s.2)) !! ino = Some d ∧ (0 < length d <= Z.to_nat 0xFE00)%nat ∧
  (∀ i, (i < length d)%nat → ¬ system_area (0x100 + Z.of_nat i) → Some (mget m (0x100 + Z.of_nat i)) = d !! i) ∧
  (∀ x, system_area x → mget m x = system_byte x) ∧
  rPC s'.1 = 0x100 ∧ rSP s'.1 = 0xFEFE ∧ mget16 m 0xFEFE = 0 ∧ rC s'.1 = 0 ∧
  load_bytes 0x5C 36 m = blank_fcbs ∧ mget m 0x80 = 0 ∧
  load_bytes 0 3 m = [0xC3; 0x03; 0xF2] ∧ load_bytes 5 3 m = [0xC3; 0x00; 0xE4].
Proof using Type.
  unfold cpm_load_com, ask. destruct (fopen ROnly path (w_fs s.2)) as [[h|] f1] eqn:Eo; [|done].
  destruct (fopen_some _ _ _ _ _ Eo) as (_ & ino & Hst & _ & _ & Hn & [d Hd] & Hfs). cbn [fst snd w_fs].
  assert (streams (view f1) !! h = Some (ino, 0%nat)) as Hs1 by (rewrite Hst; apply lookup_insert_eq).
  rewrite <- Hfs in Hd. pose proof (fseek_view h 0 f1 ino 0 Hs1 ltac:(lia)) as Hseek.
  destruct (fsize h f1) as [size|] eqn:Esz; cbn [default from_option id].
  2:{ destruct (fseek h 0 f1). done. }
  pose proof (fsize_view h f1 ino 0 d Hs1 Hd size Esz) as ->. destruct (fseek h 0 f1) as [ok f2]. cbn [fst snd w_fs] in *.
  destruct ((Z.of_nat (length d) <=? 0) || (0xFE00 <? Z.of_nat (length d))) eqn:Er; [done|].
  apply orb_false_iff in Er as [Hpos%Z.leb_gt Hmax%Z.ltb_ge].
  assert (streams (view f2) !! h = Some (ino, 0%nat) ∧ files (view f2) !! ino = Some d) as [Hs2 Hd2].
  { rewrite Hseek. destruct ok; [|done]. cbn. split; [apply lookup_insert_eq|done]. }
  destruct (fread_view h (Z.to_nat (Z.of_nat (length d))) f2 ino 0 d Hs2 Hd2) as [Hbs _].
  destruct (fread h _ f2) as [bs f3]. cbn [fst] in Hbs. rewrite drop_0, Nat2Z.id, firstn_all in Hbs. subst bs.
  rewrite Nat2Z.id, Nat.eqb_refl. cbn [negb]. cbv zeta. set (s0 := on_host (fclose h) _).
  intros E. apply (f_equal snd) in E. change (set_up s0 = s') in E. subst s'.
  assert (∀ x, is_word x → mget (the_mem s0) x = mget (store_bytes 0x100 d (mem s.1)) x) as Hm0 by done. clearbody s0.
  destruct (set_up_cpu s0) as [mm Ecpu]. exists ino, d. cbv zeta. split; [done|]. split; [by rewrite <- Hfs|]. split; [lia|].
  split_and!.
  - intros i Hi Hsys. unfold system_area in Hsys. rewrite set_up_mem by (unfold is_word; lia). settle.
    rewrite Hm0, mget_store by (unfold is_word; lia). settle. replace (Z.to_nat (256 + Z.of_nat i - 256)) with i by lia.
    by destruct (lookup_lt_is_Some_2 d i Hi) as [y ->].
  - intros x Hx. unfold system_area in Hx. rewrite set_up_mem by (unfold is_word; lia). unfold system_byte.
    destruct (decide (0xF200 <= x < 0xF233)); [done|]. rewrite !(decide_False (P := x = _)) by lia.
    destruct (decide (0xE500 <= x < 0xE50F)); [by rewrite decide_False by lia|].
    destruct (decide (0xF000 <= x < 0xF00C)); [done|]. settle. assert (x = 0xFEFE ∨ x = 0xFEFF) as [-> | ->] by lia; done.
  - by rewrite Ecpu.
  - by rewrite Ecpu.
  - unfold mget16. rewrite !u16_id by (unfold is_word; lia). by rewrite !set_up_mem.
  - by rewrite Ecpu.
  - apply load_bytes_list; [done|lia|lia|]. intros x Hx. rewrite set_up_mem by (unfold is_word; lia). by settle.
  - by rewrite set_up_mem.
  - apply load_bytes_list; [done|lia|cbn; lia|]. intros x Hx. rewrite set_up_mem by (unfold is_word; lia).
    assert (x = 0 ∨ x = 1 ∨ x = 2) as [-> | [-> | ->]] by (cbn in Hx; lia); done.
  - apply load_bytes_list; [done|lia|cbn; lia|]. intros x Hx. rewrite set_up_mem by (unfold is_word; lia). cbn in Hx. by settle.
Qed.
End Load.

Definition hello_file : mem_host :=
  mk_mem (mk_view {[ str "hello.com" := 1%nat ]} {[ 1%nat := [0x0E; 0x09; 0xC9] ]} ∅) None [].
Lemma loaded_program_witness :
  let s' := (cpm_load_com (str "hello.com") (z80_cpu_init, mk_dworld None no_disk hello_file)).2 in
  rPC s'.1 = 0x100 ∧ mget (the_mem s') 0x102 = 0xC9.
Proof.
  set (s := (z80_cpu_init, mk_dworld None no_disk hello_file)). intros s'.
  destruct (loaded_program (str "hello.com") s s') as (ino & d & Hn & Hd & _ & Hb & _ & Hpc & _).
  { assert ((cpm_load_com (str "hello.com") s).1 = 0) as E by (vm_compute; reflexivity). subst s'.
    destruct (cpm_load_com (str "hello.com") s) as [r t]. cbn in *. by subst r. }
  assert (names (view (w_fs s.2)) !! str "hello.com" = Some 1%nat) as Hn' by (vm_compute; reflexivity).
  rewrite Hn' in Hn. injection Hn as <-.
  assert (files (view (w_fs s.2)) !! 1%nat = Some [0x0E; 0x09; 0xC9]) as Hd' by (vm_compute; reflexivity).
  rewrite Hd' in Hd. injection Hd as <-. split; [exact Hpc|].
  specialize (Hb 2%nat ltac:(cbn; lia) ltac:(unfold system_area; lia)).
  exact (f_equal (default 0) Hb).
Defined.
