(* ===== verification/Native.v ===== *)
(** * Native: the host half of the CP/M 2.2 BIOS (src/cpm/cpm_host.c)

    When a real system image is booted, the guest's BIOS reaches the host
    through ports E0-EF: console bytes, 128-byte records of the mounted disk
    images, the warm-boot reload, the exit.  [native] adds the drives and the
    port registers to the console's state; a handler that ends the emulator
    leaves [over] set. *)

From Stdlib Require Import ZArith Lia Bool List.
From stdpp Require Import base gmap list.
From S2P Require Import Prelude Cpu BlockCache Interp HostFs Disk Video Kbd Term Render Console Bdos.

Open Scope list_scope.
Open Scope Z_scope.
Open Scope z80_scope.

Definition HOST_DRIVES : nat := 16.
Definition RECORD : nat := 128.
(** 400K floppy, 8 MB hard disk. *)
Definition FLOPPY_SIZE : Z := 409600.
Definition HARD_SIZE : Z := 8388608.

Record host_drive := mk_drive {
  drive_fp : option FILE;
  drive_path : list Z;
  drive_type : Z;
  spt : Z;
  tracks : Z;
  readonly : bool
}.
Definition no_drive : host_drive := mk_drive None [] 0 0 0 false.

(** [cur_drive]: -1 for none.  [sys_image]: the system as loaded, and its
    address. *)
Record native (F H : Type) := mk_native {
  n_cpm : cpm F H;
  drives : list host_drive;
  cur_drive : Z;
  cur_track : Z;
  cur_sector : Z;
  cur_dma : Z;
  last_result : Z;
  host_latch : list Z;
  sys_image : option (list Z);
  sys_base : Z
}.
Arguments mk_native {F H}.
Arguments n_cpm {F H}.
Arguments drives {F H}.
Arguments cur_drive {F H}.
Arguments cur_track {F H}.
Arguments cur_sector {F H}.
Arguments cur_dma {F H}.
Arguments last_result {F H}.
Arguments host_latch {F H}.
Arguments sys_image {F H}.
Arguments sys_base {F H}.

Section Setters.
Context {F H : Type}.
Implicit Type w : native F H.
Definition set_cpm (x : cpm F H) w : native F H :=
  mk_native x (drives w) (cur_drive w) (cur_track w) (cur_sector w) (cur_dma w) (last_result w) (host_latch w)
    (sys_image w) (sys_base w).
Definition set_drive (i : nat) (d : host_drive) w : native F H :=
  mk_native (n_cpm w) (<[i:=d]> (drives w)) (cur_drive w) (cur_track w) (cur_sector w) (cur_dma w) (last_result w)
    (host_latch w) (sys_image w) (sys_base w).
Definition set_cur_drive (x : Z) w : native F H :=
  mk_native (n_cpm w) (drives w) x (cur_track w) (cur_sector w) (cur_dma w) (last_result w) (host_latch w)
    (sys_image w) (sys_base w).
Definition set_cur_track (x : Z) w : native F H :=
  mk_native (n_cpm w) (drives w) (cur_drive w) x (cur_sector w) (cur_dma w) (last_result w) (host_latch w)
    (sys_image w) (sys_base w).
Definition set_cur_sector (x : Z) w : native F H :=
  mk_native (n_cpm w) (drives w) (cur_drive w) (cur_track w) x (cur_dma w) (last_result w) (host_latch w)
    (sys_image w) (sys_base w).
Definition set_cur_dma (x : Z) w : native F H :=
  mk_native (n_cpm w) (drives w) (cur_drive w) (cur_track w) (cur_sector w) x (last_result w) (host_latch w)
    (sys_image w) (sys_base w).
Definition set_last_result (x : Z) w : native F H :=
  mk_native (n_cpm w) (drives w) (cur_drive w) (cur_track w) (cur_sector w) (cur_dma w) x (host_latch w)
    (sys_image w) (sys_base w).
Definition set_host_latch (x : list Z) w : native F H :=
  mk_native (n_cpm w) (drives w) (cur_drive w) (cur_track w) (cur_sector w) (cur_dma w) (last_result w) x
    (sys_image w) (sys_base w).
Definition set_system (image : list Z) (base : Z) w : native F H :=
  mk_native (n_cpm w) (drives w) (cur_drive w) (cur_track w) (cur_sector w) (cur_dma w) (last_result w) (host_latch w)
    (Some image) base.
End Setters.

Section Native.
Context {F H : Type} `{HF : HostFs F, HC : ConsoleHost H}.
(** [on_event]: [cpu->on_host_event]. *)
Context (waits : nat) (on_event : mach (native F H) → native F H).
Abbreviation world := (native F H).
Implicit Types (s : mach world) (w : world).

Definition w_host w : F := w_fs (cw_files (n_cpm w)).
Definition set_host (f : F) w : world :=
  let x := cw_files (n_cpm w) in set_cpm (set_files (mk_dworld (w_dbt x) (w_disk x) f) (n_cpm w)) w.
Definition ask_host {R : Type} (g : F → R * F) w : R * world := let '(r, f) := g (w_host w) in (r, set_host f w).
(** A memory step of the file layer on the whole machine. *)
Definition on_cpm_files (g : mach (dworld F) → mach (dworld F)) s : mach world :=
  let '(c, x) := on_files g (s.1, n_cpm s.2) in (c, set_cpm x s.2).

(** ** Images *)

Definition cpm_host_mount (drive : Z) (path : list Z) w : Z * world :=
  if (drive <? 0) || (Z.of_nat HOST_DRIVES <=? drive) then (-1, w)
  else match stat path (w_host w) with
  | None => (-1, w)
  | Some st =>
      let i := Z.to_nat drive in
      let geometry :=
        if st_size st =? FLOPPY_SIZE then Some (1, 40, 80)
        else if st_size st =? HARD_SIZE then Some (2, 64, 1024) else None in
      match geometry with
      | None => (-1, w)
      | Some (ty, sp, tr) =>
          let old := drive_path (default no_drive (drives w !! i)) in
          let '(h, w) := ask_host (fopen RPlus path) w in
          match h with
          | Some h => (0, set_drive i (mk_drive (Some h) path ty sp tr false) w)
          | None =>
              let '(h, w) := ask_host (fopen ROnly path) w in
              match h with
              | Some h => (0, set_drive i (mk_drive (Some h) path ty sp tr true) w)
              | None => (-1, set_drive i (mk_drive None old 0 sp tr true) w)
              end
          end
      end
  end.

(** The drive of an index, if it is one. *)
Definition drive_at (drive : Z) w : option host_drive :=
  if (0 <=? drive) && (drive <? Z.of_nat HOST_DRIVES) then drives w !! Z.to_nat drive else None.
Definition cpm_host_drive_type (drive : Z) w : Z :=
  match drive_at drive w with Some d => drive_type d | None => 0 end.

Definition cpm_host_set_system (image : list Z) (base : Z) w : world := set_system image base w.

(** Only the CCP and BDOS: the BIOS is running this code. *)
Definition reload_system s : mach world :=
  match sys_image s.2 with
  | None => s
  | Some image =>
      let n := u32 (CPM_BIOS_BASE - sys_base s.2) in
      let n := if Z.of_nat (length image) <? n then Z.of_nat (length image) else n in
      let base := sys_base s.2 in
      on_cpm_files (λ t, host_wrote base n (on_mem (store_bytes base (take (Z.to_nat n) image)) t)) s
  end.

Definition disk_io (write : bool) s : Z * mach world :=
  match drive_at (cur_drive s.2) s.2 with
  | None => (1, s)
  | Some d =>
      match drive_fp d with
      | None => (1, s)
      | Some h =>
          if (tracks d <=? cur_track s.2) || (spt d <=? cur_sector s.2) then (1, s)
          else if write && readonly d then (1, s)
          else
            let off := (cur_track s.2 * spt d + cur_sector s.2) * 128 in
            let '(ok, w) := ask_host (fseek h off) s.2 in
            let s := (s.1, w) in
            if negb ok then (1, s)
            else if write then
              let '(n, w) := ask_host (fwrite h (load_bytes (cur_dma s.2) RECORD (mem s.1))) s.2 in
              (if (n =? RECORD)%nat then 0 else 1, (s.1, w))
            else
              let '(bs, w) := ask_host (fread h RECORD) s.2 in
              let s := (s.1, w) in
              let buf := bs ++ replicate (RECORD - length bs) 0xE5 in
              let dma := cur_dma s.2 in
              (0, on_cpm_files (λ t, host_wrote dma 128 (on_mem (store_bytes dma buf) t)) s)
      end
  end.

(** ** The ports *)

Definition host_events s : mach world :=
  if nz (host_event s.1) then
    let c := set_host_event 0 s.1 in (c, on_event (c, s.2))
  else s.

(** A console call: its byte, or the end of the emulator. *)
Definition console_byte (call : cpm F H → option (Z * cpm F H)) s : Z * mach world :=
  match call (n_cpm s.2) with
  | Some (v, x) => (v, (s.1, set_cpm x s.2))
  | None => (0, (s.1, set_cpm (set_over (n_cpm s.2)) s.2))
  end.

Definition host_in (port high : Z) s : Z * mach world :=
  match port with
  | 0xE0 => console_byte cpm_constat (host_events s)
  | 0xE1 => console_byte (cpm_conin waits) (host_events s)
  | 0xE3 => (0x1A, s)
  | 0xE8 => (u8 (cpm_host_drive_type (cur_drive s.2) s.2), s)
  | 0xEF => (u8 (last_result s.2), s)
  | _ => (u8 (default 0 (host_latch s.2 !! Z.to_nat port)), s)
  end.

Definition low_byte (v x : Z) : Z := u16 ((x &' 0xFF00) |' v).
Definition high_byte (v x : Z) : Z := u16 ((x &' 0x00FF) |' (v <<' 8)).
Definition on_world (g : world → world) s : mach world := (s.1, g s.2).

Definition host_out (port high val : Z) s : mach world :=
  let s := on_world (λ w, set_host_latch (<[Z.to_nat port:=val]> (host_latch w)) w) s in
  match port with
  | 0xE1 => on_world (λ w, set_cpm (cpm_conout val (n_cpm w)) w) s
  | 0xE2 => on_world (λ w, set_cpm (cpm_list_out val (n_cpm w)) w) s
  | 0xE5 =>
      if val =? 0 then reload_system s
      else if val =? 1 then on_world (λ w, set_cpm (set_over (n_cpm w)) w) s
      else s
  | 0xE8 => on_world (set_cur_drive (if val <? Z.of_nat HOST_DRIVES then val else -1)) s
  | 0xE9 => on_world (λ w, set_cur_track (low_byte val (cur_track w)) w) s
  | 0xEA => on_world (λ w, set_cur_track (high_byte val (cur_track w)) w) s
  | 0xEB => on_world (λ w, set_cur_sector (low_byte val (cur_sector w)) w) s
  | 0xEC => on_world (λ w, set_cur_sector (high_byte val (cur_sector w)) w) s
  | 0xED => on_world (λ w, set_cur_dma (low_byte val (cur_dma w)) w) s
  | 0xEE => on_world (λ w, set_cur_dma (high_byte val (cur_dma w)) w) s
  | 0xEF => let '(r, s) := disk_io (val =? 1) s in on_world (set_last_result (u8 r)) s
  | _ => s
  end.

Definition cpm_host_install w : world :=
  set_cpm (set_traps false (n_cpm w)) (set_host_latch (replicate 256 0xFF) w).

Definition SYSTEM_MIN : Z := 0x1600 + 51.
Definition cpm_host_boot (system_path : list Z) s : Z * mach world :=
  let '(h, w) := ask_host (fopen ROnly system_path) s.2 in
  match h with
  | None => (-1, (s.1, w))
  | Some h =>
      let '(image, w) := ask_host (fread h (Z.to_nat 0x10000)) w in
      let w := set_host (fclose h (w_host w)) w in
      if Z.of_nat (length image) <? SYSTEM_MIN then (-1, (s.1, w))
      else
        let base := CPM_CCP_BASE in
        let n := if 0x10000 <? base + Z.of_nat (length image) then 0x10000 - base else Z.of_nat (length image) in
        let image := take (Z.to_nat n) image in
        let c := set_mem (store_bytes base image (mem s.1)) s.1 in
        (0, (set_rSP 0x80 (set_rPC CPM_BIOS_BASE c), cpm_host_set_system image base w))
  end.

(** ** The host *)

(** With the traps off the dispatchers are never called. *)
Definition native_host : Host world := {|
  smc_store a w := set_cpm (@smc_store (cpm F H) (shim_host (λ _, ([], [])) waits 0) a (n_cpm w)) w;
  port_in_hook := Some host_in;
  port_out_hook := Some host_out;
  console_wait w := set_cpm (match cpm_console_wait waits (n_cpm w) with Some x => x | None => set_over (n_cpm w) end) w;
  traps_enabled w := traps (n_cpm w);
  bdos_dispatch s := (true, s);
  bios_dispatch s := (true, s)
|}.
End Native.
