(* ===== verification/NativeOk.v ===== *)
(** * NativeOk: the disk ports store records (Native.v)

    The specification is a set of drives, each a map from track and sector
    to a record of 128 bytes.  Selecting drive, track, sector and buffer
    through the ports and giving the command refines a read or a write of
    that map, whatever was transferred before.  Then the warm boot, and the
    types. *)

From Stdlib Require Import ZArith Lia Bool List Ascii String.
From stdpp Require Import base gmap list.
From S2P Require Import Prelude Cpu BlockCache Interp InterpOk HostFs Disk DiskOk Video Kbd Term Render Console ConsoleOk Bdos BdosOk Loader Native.

Open Scope string_scope.
Open Scope list_scope.
Open Scope Z_scope.
Open Scope z80_scope.

(** ** Port registers *)

Lemma u16_ones x : u16 x = x &' 0xFFFF.
Proof. symmetry. apply word_land_ffff. Qed.
(** A register written low byte first, then high, is the word. *)
Lemma low_high x w : is_word w → high_byte (w >>' 8) (low_byte (u8 w) x) = w.
Proof.
  intros Hw. unfold high_byte, low_byte. rewrite !u16_ones. rewrite <- (Z.land_assoc _ 0xFFFF). change (0xFFFF &' 0x00FF) with 0x00FF.
  rewrite (Z.land_lor_distr_l _ (u8 w)), <- (Z.land_assoc x). change (0xFF00 &' 0x00FF) with 0. rewrite Z.land_0_r, Z.lor_0_l.
  change 0x00FF with (Z.ones 8). rewrite Z.land_ones, (Z.mod_small (u8 w)) by (try lia; apply u8_byte).
  change (u8 w |' ((w >>' 8) <<' 8)) with (word_of (u8 w) (w >>' 8)). rewrite word_of_split by done.
  change 0xFFFF with (Z.ones 16). rewrite Z.land_ones, Z.mod_small by (unfold is_word in Hw; lia). done.
Qed.

(** ** The record store *)

Record store_drive := mk_store {
  st_spt : Z;
  st_tracks : Z;
  st_ro : bool;
  st_record : Z → Z → list Z
}.
Abbreviation stores := (gmap Z store_drive).

Inductive xfer : Set :=
  | ReadRecord (drive track sector dma : Z)
  | WriteRecord (drive track sector dma : Z) (data : list Z).
Definition xfer_ok (x : xfer) : Prop :=
  match x with
  | ReadRecord d t s a => is_byte d ∧ is_word t ∧ is_word s ∧ is_word a
  | WriteRecord d t s a data => is_byte d ∧ is_word t ∧ is_word s ∧ is_word a ∧ length data = RECORD
  end.

Definition in_range_of (sd : store_drive) (t s : Z) : bool := (t <? st_tracks sd) && (s <? st_spt sd).
Definition put_record (t s : Z) (data : list Z) (sd : store_drive) : store_drive :=
  mk_store (st_spt sd) (st_tracks sd) (st_ro sd) (λ t' s', if (t' =? t) && (s' =? s) then data else st_record sd t' s').

(** Result 0 and the record in the buffer, or 1. *)
Definition abs_xfer (x : xfer) (sds : stores) : option (list Z) * stores :=
  match x with
  | ReadRecord d t s _ =>
      match sds !! d with
      | Some sd => (if in_range_of sd t s then Some (st_record sd t s) else None, sds)
      | None => (None, sds)
      end
  | WriteRecord d t s _ data =>
      match sds !! d with
      | Some sd => if in_range_of sd t s && negb (st_ro sd) then (Some data, <[d:=put_record t s data sd]> sds) else (None, sds)
      | None => (None, sds)
      end
  end.
Fixpoint abs_xfers (xs : list xfer) (sds : stores) : list (option (list Z)) * stores :=
  match xs with
  | [] => ([], sds)
  | x :: xs => let '(r, sds) := abs_xfer x sds in let '(rs, sds) := abs_xfers xs sds in (r :: rs, sds)
  end.

(** ** Through the ports *)

Section Ports.
Context {F H : Type} `{FsHealth F, HC : ConsoleHost H}.
Context (waits : nat) (on_event : mach (native F H) → native F H).

(** Drive, track, sector and buffer, each a byte at a time. *)
Definition select (d t s a : Z) (m : mach (native F H)) : mach (native F H) :=
  let m := host_out 0xE8 0 d m in
  let m := host_out 0xE9 0 (u8 t) m in
  let m := host_out 0xEA 0 (t >>' 8) m in
  let m := host_out 0xEB 0 (u8 s) m in
  let m := host_out 0xEC 0 (s >>' 8) m in
  let m := host_out 0xED 0 (u8 a) m in
  host_out 0xEE 0 (a >>' 8) m.
Definition command (write : bool) (d t s a : Z) (m : mach (native F H)) : Z * mach (native F H) :=
  host_in waits on_event 0xEF 0 (host_out 0xEF 0 (if write then 1 else 0) (select d t s a m)).
Definition do_xfer (x : xfer) (m : mach (native F H)) : option (list Z) * mach (native F H) :=
  let '(a, (r, m)) := match x with
    | ReadRecord d t s a => (a, command false d t s a m)
    | WriteRecord d t s a data => (a, command true d t s a (on_cpu (λ c, set_mem (store_bytes a data (mem c)) c) m))
    end in
  (if r =? 0 then Some (load_bytes a RECORD (mem m.1)) else None, m).
Fixpoint do_xfers (xs : list xfer) (m : mach (native F H)) : list (option (list Z)) * mach (native F H) :=
  match xs with
  | [] => ([], m)
  | x :: xs => let '(r, m) := do_xfer x m in let '(rs, m) := do_xfers xs m in (r :: rs, m)
  end.

(** ** Drives on the host *)

Definition drive_bytes (sp tr : Z) : nat := Z.to_nat (tr * sp * 128).
Definition record_off (sp t s : Z) : nat := Z.to_nat ((t * sp + s) * 128).

(** Drive [d] is the stream [h] on file [ino] holding [img]. *)
Definition drive_on (w : native F H) (i : Z) (d : host_drive) (h : FILE) (ino : nat) (img : list Z) : Prop :=
  0 <= i < 16 ∧ drives w !! Z.to_nat i = Some d ∧ drive_fp d = Some h ∧
  (∃ pos, streams (view (w_host w)) !! h = Some (ino, pos)) ∧ files (view (w_host w)) !! ino = Some img.

Record backed (sds : stores) (w : native F H) : Prop := {
  bk_healthy : healthy (w_host w);
  bk_none i : 0 <= i < 16 → sds !! i = None → ∃ d, drives w !! Z.to_nat i = Some d ∧ drive_fp d = None;
  bk_some i sd : sds !! i = Some sd → ∃ d h ino img, drive_on w i d h ino img ∧
    spt d = st_spt sd ∧ tracks d = st_tracks sd ∧ readonly d = st_ro sd ∧ length img = drive_bytes (spt d) (tracks d) ∧
    ∀ t s, 0 <= t < tracks d → 0 <= s < spt d → st_record sd t s = take RECORD (drop (record_off (spt d) t s) img);
  bk_apart i j di dj hi hj ii ij mi mj : i ≠ j → drive_on w i di hi ii mi → drive_on w j dj hj ij mj → hi ≠ hj ∧ ii ≠ ij
}.

(** A state with the same drives and host. *)
Lemma backed_same sds w w' : drives w' = drives w → w_host w' = w_host w → backed sds w → backed sds w'.
Proof using Type.
  intros E1 E2 [Hh Hn Hs Ha]. constructor; unfold drive_on in *; rewrite ?E1, ?E2; done.
Qed.

Lemma record_fits sp tr t s : 0 <= t < tr → 0 <= s < sp → (record_off sp t s + RECORD <= drive_bytes sp tr)%nat.
Proof using Type. intros Ht Hs. unfold record_off, drive_bytes, RECORD. nia. Qed.
Lemma records_apart sp t s t' s' : 0 <= t → 0 <= s < sp → 0 <= t' → 0 <= s' < sp → (t', s') ≠ (t, s) →
  (record_off sp t' s' + RECORD <= record_off sp t s ∨ record_off sp t s + RECORD <= record_off sp t' s')%nat.
Proof using Type.
  intros Ht Hs Ht' Hs' Hne. unfold record_off, RECORD. assert (t' * sp + s' ≠ t * sp + s) as Hd; [|nia].
  intros E. apply Hne. assert (t' = t) by nia. subst. f_equal. lia.
Qed.

Lemma take_drop_lookup (l l' : list Z) p n : (p + n <= length l)%nat → (p + n <= length l')%nat →
  (∀ i, (p <= i < p + n)%nat → l !! i = l' !! i) → take n (drop p l) = take n (drop p l').
Proof using Type.
  intros Hl Hl' He. apply list_eq. intros i. destruct (decide (i < n)%nat).
  - rewrite !lookup_take_lt, !lookup_drop by done. apply He. lia.
  - by rewrite !lookup_ge_None_2 by (rewrite length_take; lia).
Qed.

Lemma splice_record img sp tr t s t' s' data : length img = drive_bytes sp tr → length data = RECORD →
  0 <= t < tr → 0 <= s < sp → 0 <= t' < tr → 0 <= s' < sp →
  take RECORD (drop (record_off sp t' s') (splice (record_off sp t s) data img)) =
  if (t' =? t) && (s' =? s) then data else take RECORD (drop (record_off sp t' s') img).
Proof using Type.
  intros Hi Hd Ht Hs Ht' Hs'. pose proof (record_fits sp tr t s Ht Hs). pose proof (record_fits sp tr t' s' Ht' Hs').
  destruct (decide ((t', s') = (t, s))) as [[= -> ->]|Hne].
  { rewrite !Z.eqb_refl. cbn [andb]. rewrite <- Hd. apply splice_here. }
  assert ((t' =? t) && (s' =? s) = false) as ->.
  { apply andb_false_iff. rewrite !Z.eqb_neq. destruct (decide (t' = t)) as [->|]; [right|by left]. intros ->. done. }
  pose proof (records_apart sp t s t' s' ltac:(lia) Hs ltac:(lia) Hs' Hne) as Ha.
  apply take_drop_lookup; [rewrite splice_length; lia|lia|]. intros i Hi'. rewrite splice_lookup.
  rewrite decide_False by lia. by rewrite decide_True by lia.
Qed.

(** The host moved on, no stream having changed file. *)
Definition same_streams (v v' : fs_view) : Prop :=
  ∀ h ino, (∃ pos, streams v' !! h = Some (ino, pos)) ↔ (∃ pos, streams v !! h = Some (ino, pos)).
Lemma same_set_stream h ino pos p v : streams v !! h = Some (ino, p) → same_streams v (set_stream h ino pos v).
Proof using Type.
  intros Hh h' i'. unfold set_stream. cbn. destruct (decide (h' = h)) as [->|].
  - rewrite lookup_insert_eq, Hh. split; intros [q [= -> _]]; by eexists.
  - by rewrite lookup_insert_ne by done.
Qed.
Lemma same_streams_trans v1 v2 v3 : same_streams v1 v2 → same_streams v2 v3 → same_streams v1 v3.
Proof using Type. intros H12 H23 h i. etrans; [apply H23|apply H12]. Qed.

Lemma set_host_host f (w : native F H) : w_host (set_host f w) = f.
Proof using Type. done. Qed.

Lemma backed_host sds f' w : healthy f' → same_streams (view (w_host w)) (view f') → files (view f') = files (view (w_host w)) →
  backed sds w → backed sds (set_host f' w).
Proof using Type.
  intros Hf Hs Ef [Hh Hn Hb Ha]. constructor; [done|done| |].
  - intros i sd E. destruct (Hb i sd E) as (d & h & ino & img & (D1 & D2 & D3 & D4 & D5) & Hr). exists d, h, ino, img. split; [|done].
    split; [done|]. split; [done|]. split; [done|]. rewrite set_host_host. split; [by apply Hs|by rewrite Ef].
  - intros i j di dj hi hj ii ij mi mj Hij (A1 & A2 & A3 & A4 & A5) (B1 & B2 & B3 & B4 & B5).
    rewrite set_host_host, Ef in *. apply Hs in A4, B4. by apply (Ha i j di dj hi hj ii ij mi mj Hij).
Qed.

Lemma backed_write sds f' w i sd d h ino img t s data :
  backed sds w → sds !! i = Some sd → drive_on w i d h ino img → spt d = st_spt sd → tracks d = st_tracks sd →
  0 <= t < tracks d → 0 <= s < spt d → length data = RECORD → length img = drive_bytes (spt d) (tracks d) →
  healthy f' → same_streams (view (w_host w)) (view f') →
  files (view f') = <[ino:=splice (record_off (spt d) t s) data img]> (files (view (w_host w))) →
  backed (<[i:=put_record t s data sd]> sds) (set_host f' w).
Proof using Type.
  intros [Hh Hn Hb Ha] Ei Hon Esp Etr Ht Hs Hd Hl Hf Hst Ef. constructor; [done| | |].
  - intros j Hj E. destruct (decide (j = i)) as [->|]; [by rewrite lookup_insert_eq in E|]. rewrite lookup_insert_ne in E by done. by apply Hn.
  - intros j sdj E. destruct (decide (j = i)) as [->|Hne].
    + rewrite lookup_insert_eq in E. injection E as <-. pose proof Hon as (D1 & D2 & D3 & D4 & D5).
      destruct (Hb i sd Ei) as (d0 & h0 & ino0 & img0 & (E1 & E2 & E3 & E4 & E5) & Hr).
      assert (d0 = d) as -> by congruence. assert (h0 = h) as -> by congruence.
      assert (ino0 = ino) as -> by (destruct D4, E4; congruence). assert (img0 = img) as -> by congruence.
      destruct Hr as (R1 & R2 & R3 & R4 & R5). exists d, h, ino, (splice (record_off (spt d) t s) data img). split.
      { split; [done|]. split; [done|]. split; [done|]. rewrite set_host_host. split; [by apply Hst|]. rewrite Ef. apply lookup_insert_eq. }
      split; [done|]. split; [done|]. split; [done|]. split.
      { pose proof (record_fits (spt d) (tracks d) t s Ht Hs). rewrite splice_length. lia. }
      intros t' s' Ht' Hs'. rewrite (splice_record img (spt d) (tracks d) t s t' s' data) by done. cbn. by rewrite <- R5.
    + rewrite lookup_insert_ne in E by done. destruct (Hb j sdj E) as (dj & hj & ij & mj & Hj & Hr).
      exists dj, hj, ij, mj. split; [|done]. destruct (Ha i j d dj h hj ino ij img mj ltac:(congruence) Hon Hj) as [_ Hino].
      destruct Hj as (D1 & D2 & D3 & D4 & D5). split; [done|]. split; [done|]. split; [done|]. rewrite set_host_host.
      split; [by apply Hst|]. rewrite Ef. by rewrite lookup_insert_ne.
  - assert (∀ j dj hj ij mj, drive_on (set_host f' w) j dj hj ij mj → ∃ old, drive_on w j dj hj ij old) as Hback.
    { intros j dj hj ij mj (A1 & A2 & A3 & A4 & A5). rewrite set_host_host, Ef in *. apply Hst in A4.
      destruct (decide (ij = ino)) as [->|]; [exists img|exists mj]; (split; [done|]); (split; [done|]); (split; [done|]); (split; [done|]).
      - by destruct Hon as (_ & _ & _ & _ & ?).
      - by rewrite lookup_insert_ne in A5. }
    intros j k dj dk hj hk ij ik mj mk Hjk Hj Hk. apply Hback in Hj as [o1 Hj], Hk as [o2 Hk]. by apply (Ha j k dj dk hj hk ij ik o1 o2 Hjk).
Qed.

Lemma on_cpm_wrote a n g (m : mach (native F H)) : ∃ m' w', on_cpm_files (λ t, host_wrote a n (on_mem g t)) m = (set_mem m' m.1, w') ∧
  (∀ y, mget m' y = mget (g (mem m.1)) y) ∧ drives w' = drives m.2 ∧ w_host w' = w_host m.2.
Proof using Type.
  unfold on_cpm_files, on_files. cbn [fst snd]. set (t := on_mem g (m.1, cw_files (n_cpm m.2))).
  destruct (host_wrote_cpu a n t) as (m' & E & Hm). destruct (host_wrote_same a n t) as (_ & _ & Ef).
  destruct (host_wrote a n t) as [c x]. cbn [fst snd] in *. subst c. exists m'. eexists. split; [reflexivity|]. split; [exact Hm|].
  split; [done|]. unfold w_host. cbn. exact Ef.
Qed.

(** ** One command *)

Definition regs_at (d t s a : Z) (w : native F H) : Prop :=
  cur_drive w = (if d <? 16 then d else -1) ∧ cur_track w = t ∧ cur_sector w = s ∧ cur_dma w = a.

Lemma io_none d t s a write m sds : regs_at d t s a m.2 → backed sds m.2 → is_byte d → sds !! d = None →
  disk_io write m = (1, m).
Proof using Type.
  intros (Ed & _) Hb Hd E. unfold disk_io, drive_at. rewrite Ed. change (Z.of_nat HOST_DRIVES) with 16.
  destruct (Z.ltb_spec d 16); [|done]. unfold is_byte in Hd. destruct (Z.leb_spec 0 d); [|lia]. destruct (Z.ltb_spec d 16); [|lia]. cbn [andb].
  destruct (bk_none _ _ Hb d ltac:(lia) E) as (dr & -> & ->). done.
Qed.

Lemma io_refused d t s a write m sds sd : regs_at d t s a m.2 → backed sds m.2 → sds !! d = Some sd →
  in_range_of sd t s && negb (write && st_ro sd) = false → disk_io write m = (1, m).
Proof using Type.
  intros (Ed & Et & Es & _) Hb E Hr. destruct (bk_some _ _ Hb d sd E) as (dr & h & ino & img & (D1 & D2 & D3 & _) & Esp & Etr & Ero & _).
  unfold disk_io, drive_at. rewrite Ed. change (Z.of_nat HOST_DRIVES) with 16.
  destruct (Z.ltb_spec d 16); [|lia]. destruct (Z.leb_spec 0 d); [|lia]. destruct (Z.ltb_spec d 16); [|lia]. cbn [andb]. rewrite D2, D3.
  rewrite Et, Es, Etr, Esp, Ero. unfold in_range_of in Hr.
  destruct (Z.ltb_spec t (st_tracks sd)), (Z.leb_spec (st_tracks sd) t); try lia; [|done].
  destruct (Z.ltb_spec s (st_spt sd)), (Z.leb_spec (st_spt sd) s); try lia; [|done]. cbn [orb andb] in *.
  apply negb_false_iff in Hr. by rewrite Hr.
Qed.

Lemma io_done d t s a write m sds sd : regs_at d t s a m.2 → backed sds m.2 → sds !! d = Some sd → 0 <= t → 0 <= s →
  in_range_of sd t s && negb (write && st_ro sd) = true →
  ∃ m' w', disk_io write m = (0, (set_mem m' m.1, w')) ∧
    if write then m' = mem m.1 ∧ backed (<[d:=put_record t s (load_bytes a RECORD (mem m.1)) sd]> sds) w'
    else (∀ y, mget m' y = mget (store_bytes a (st_record sd t s) (mem m.1)) y) ∧ length (st_record sd t s) = RECORD ∧ backed sds w'.
Proof using Type.
  intros (Ed & Et & Es & Ea) Hb E Ht Hs Hr.
  destruct (bk_some _ _ Hb d sd E) as (dr & h & ino & img & Hon & Esp & Etr & Ero & Hl & Hrec).
  pose proof Hon as (D1 & D2 & D3 & [pos D4] & D5). unfold disk_io, drive_at. rewrite Ed. change (Z.of_nat HOST_DRIVES) with 16.
  destruct (Z.ltb_spec d 16); [|lia]. destruct (Z.leb_spec 0 d); [|lia]. destruct (Z.ltb_spec d 16); [|lia]. cbn [andb]. rewrite D2, D3.
  unfold in_range_of in Hr. rewrite Et, Es, Etr, Esp, Ero.
  destruct (Z.ltb_spec t (st_tracks sd)), (Z.leb_spec (st_tracks sd) t); try lia; try done.
  destruct (Z.ltb_spec s (st_spt sd)), (Z.leb_spec (st_spt sd) s); try lia; try done. cbn [orb andb] in *.
  apply negb_true_iff in Hr. rewrite Hr. set (off := (t * st_spt sd + s) * 128).
  assert (0 <= off) as Hoff by (unfold off; nia).
  pose proof (bk_healthy _ _ Hb) as Hh. destruct (healthy_seek h off (w_host m.2) Hh (mk_is_Some _ _ D4) Hoff) as [Hok Hh1].
  pose proof (fseek_view h off (w_host m.2) ino pos D4 Hoff) as Hv1. rewrite Hok in Hv1. unfold ask_host at 1.
  destruct (fseek h off (w_host m.2)) as [ok f1]. cbn [fst snd] in *. subst ok. cbn [negb].
  assert (Z.to_nat off = record_off (spt dr) t s) as Eoff by (unfold record_off, off; by rewrite Esp).
  set (w1 := set_host f1 m.2). assert (streams (view f1) !! h = Some (ino, record_off (spt dr) t s)) as Hs1.
  { rewrite Hv1. cbn. rewrite lookup_insert_eq. by rewrite Eoff. }
  assert (files (view f1) !! ino = Some img) as Hf1 by (by rewrite Hv1).
  assert (same_streams (view (w_host m.2)) (view f1)) as Hst1 by (rewrite Hv1; by eapply same_set_stream).
  pose proof (record_fits (spt dr) (tracks dr) t s ltac:(lia) ltac:(lia)) as Hfit.
  fold w1. cbn [fst snd]. assert (cur_dma w1 = a) as Ea1 by exact Ea. destruct write.
  - unfold ask_host. rewrite Ea1. change (w_host w1) with f1.
    set (data := load_bytes a RECORD (mem m.1)). assert (length data = RECORD) as Hdl by apply length_load.
    destruct (healthy_write h data f1 Hh1 (mk_is_Some _ _ Hs1)) as [Hn Hh2].
    destruct (fwrite_view h data f1 ino _ img Hs1 Hf1) as [_ Hv2]. rewrite Hn in Hv2.
    destruct (fwrite h data f1) as [n f2]. cbn [fst snd] in *. subst n. rewrite Hdl in *. cbn [Nat.eqb RECORD] in Hv2.
    rewrite firstn_all2 in Hv2 by (rewrite Hdl; done). exists (mem m.1), (set_host f2 w1). cbn [fst snd].
    split; [by destruct m as [[]]|]. split; [done|].
    change (set_host f2 w1) with (set_host f2 m.2).
    apply (backed_write sds f2 m.2 d sd dr h ino img t s data); try done; try lia.
    + eapply same_streams_trans; [exact Hst1|]. rewrite Hv2. intros h' i'. cbn. destruct (decide (h' = h)) as [->|].
      * rewrite lookup_insert_eq, Hs1. split; intros [q [= -> _]]; by eexists.
      * by rewrite lookup_insert_ne by done.
    + rewrite Hv2. cbn. by rewrite Hv1.
  - unfold ask_host. change (w_host w1) with f1.
    destruct (fread_view h RECORD f1 ino _ img Hs1 Hf1) as [Hbs Hv2]. pose proof (healthy_read h RECORD f1 Hh1) as Hh2.
    destruct (fread h RECORD f1) as [bs f2]. cbn [fst snd] in *.
    assert (bs = st_record sd t s) as Ebs by (rewrite Hrec by lia; by rewrite Hbs). rewrite <- Hbs in Hv2.
    assert (length bs = RECORD) as Hbl by (rewrite Hbs, length_take, length_drop; lia).
    rewrite Hbl, Nat.sub_diag. cbn [replicate]. rewrite app_nil_r.
    change (cur_dma (set_host f2 w1)) with (cur_dma m.2). rewrite Ea.
    destruct (on_cpm_wrote a 128 (store_bytes a bs) (m.1, set_host f2 w1)) as (m' & w' & -> & Hm' & Hd' & Hf').
    exists m', w'. split; [done|]. rewrite <- Ebs. split; [exact Hm'|]. split; [done|].
    apply (backed_same sds (set_host f2 m.2) w'); [exact Hd'|exact Hf'|].
    apply backed_host; [done| |by rewrite Hv2; cbn; rewrite Hv1|done].
    eapply same_streams_trans; [exact Hst1|]. rewrite Hv2. by eapply same_set_stream.
Qed.

Lemma selected d t s a (m : mach (native F H)) : is_word t → is_word s → is_word a →
  let m' := select d t s a m in
  regs_at d t s a m'.2 ∧ m'.1 = m.1 ∧ drives m'.2 = drives m.2 ∧ w_host m'.2 = w_host m.2.
Proof using Type.
  intros Ht Hs Ha. destruct m as [c [x ds cd ct cs ca r l im b]].
  cbv [select host_out on_world regs_at w_host fst snd set_host_latch set_cur_drive set_cur_track set_cur_sector set_cur_dma
    n_cpm drives cur_drive cur_track cur_sector cur_dma last_result host_latch sys_image sys_base].
  rewrite !low_high by done. change (Z.of_nat HOST_DRIVES) with 16. by split_and!.
Qed.

Lemma commanded write d t s a (m : mach (native F H)) : is_word t → is_word s → is_word a →
  ∃ m', regs_at d t s a m'.2 ∧ m'.1 = m.1 ∧ drives m'.2 = drives m.2 ∧ w_host m'.2 = w_host m.2 ∧
    command write d t s a m = (u8 (u8 (disk_io write m').1), on_world (set_last_result (u8 (disk_io write m').1)) (disk_io write m').2).
Proof using Type.
  intros Ht Hs Ha. destruct (selected d t s a m Ht Hs Ha) as (Hr & E1 & E2 & E3). unfold command.
  destruct (select d t s a m) as [c1 w1]. set (m1 := (c1, w1)) in *. set (m2 := on_world (λ w, set_host_latch (<[Z.to_nat 0xEF:=if write then 1 else 0]> (host_latch w)) w) m1).
  exists m2. split; [exact Hr|]. split; [exact E1|]. split; [exact E2|]. split; [exact E3|].
  change (host_out 0xEF 0 (if write then 1 else 0) m1) with
    (let '(r, m) := disk_io ((if write then 1 else 0) =? 1) m2 in on_world (set_last_result (u8 r)) m).
  clearbody m2 m1. replace ((if write then 1 else 0) =? 1) with write by (by destruct write).
  by destruct (disk_io write m2) as [r m3].
Qed.

Lemma command_refines (write : bool) d t s a (m : mach (native F H)) sds :
  is_byte d → is_word t → is_word s → is_word a → backed sds m.2 →
  let x := if write then WriteRecord d t s a (load_bytes a RECORD (mem m.1)) else ReadRecord d t s a in
  let r := command write d t s a m in
  let r' := abs_xfer x sds in
  (if r.1 =? 0 then Some (load_bytes a RECORD (mem r.2.1)) else None) = r'.1 ∧ backed r'.2 r.2.2.
Proof using Type.
  intros Hd Ht Hs Ha Hb. destruct (commanded write d t s a m Ht Hs Ha) as (m2 & Hr & E1 & E2 & E3 & ->).
  assert (backed sds m2.2) as Hb2 by (by apply (backed_same sds m.2)). clear Hb.
  assert (∀ w : native F H, backed sds w → backed sds (set_last_result 1 w)) as Hone.
  { intros w. by apply backed_same. }
  destruct (sds !! d) as [sd|] eqn:E; cycle 1.
  { rewrite (io_none d t s a write m2 sds Hr Hb2 Hd E). destruct write; cbn -[load_bytes]; rewrite E; cbn; split; auto. }
  destruct (in_range_of sd t s && negb (write && st_ro sd)) eqn:Hg; cycle 1.
  { rewrite (io_refused d t s a write m2 sds sd Hr Hb2 E Hg). destruct write; cbn -[load_bytes]; rewrite E.
    - cbn [andb] in Hg. rewrite Hg. cbn. auto.
    - cbn [andb negb] in Hg. rewrite andb_true_r in Hg. rewrite Hg. cbn. auto. }
  unfold is_word in Ht, Hs.
  destruct (io_done d t s a write m2 sds sd Hr Hb2 E ltac:(lia) ltac:(lia) Hg) as (M & w' & -> & Hio).
  destruct write; cbn -[load_bytes RECORD]; rewrite E; cbn [andb negb] in Hg.
  - rewrite Hg. destruct Hio as [-> Hio]. rewrite E1 in *. cbn [fst snd]. split; [done|]. by apply (backed_same _ w').
  - rewrite andb_true_r in Hg. rewrite Hg. destruct Hio as (HM & Hl & Hio). cbn [fst snd]. split; [|by apply (backed_same _ w')].
    f_equal. rewrite (load_bytes_ext a RECORD (store_bytes a (st_record sd t s) (mem m2.1)) M) by (intros; apply HM).
    rewrite <- Hl. apply load_store. rewrite Hl. done.
Qed.

(** C12: a disk image behaves as a map from track and sector to a record of
    128 bytes.  On a host without file faults ([backed]), any sequence of
    transfers to mounted images, each selecting drive, track,
    sector and buffer through ports E8-EE, giving command EF and reading its
    result, returns what the map would: the record last written there, and
    an error outside the image, on an empty or unselected drive and when
    writing a read-only one, which then changes nothing. *)
Theorem image_records_refine xs (m : mach (native F H)) sds :
  Forall xfer_ok xs → backed sds m.2 →
  (do_xfers xs m).1 = (abs_xfers xs sds).1 ∧ backed (abs_xfers xs sds).2 (do_xfers xs m).2.2.
Proof using Type.
  intros Hx. revert m sds. induction Hx as [|x xs Hx _ IH]; intros m sds Hb; [done|]. cbn [do_xfers abs_xfers].
  assert ((do_xfer x m).1 = (abs_xfer x sds).1 ∧ backed (abs_xfer x sds).2 (do_xfer x m).2.2) as [E Hb'].
  { unfold do_xfer. destruct x as [d t s a|d t s a data].
    - destruct Hx as (Hd & Ht & Hs & Ha). destruct (command_refines false d t s a m sds Hd Ht Hs Ha Hb) as [E Hb'].
      by destruct (command false d t s a m).
    - destruct Hx as (Hd & Ht & Hs & Ha & Hl). set (m1 := on_cpu _ m).
      destruct (command_refines true d t s a m1 sds Hd Ht Hs Ha Hb) as [E Hb'].
      assert (load_bytes a RECORD (mem m1.1) = data) as El.
      { rewrite <- Hl. cbn. apply load_store. by rewrite Hl. }
      rewrite El in *. by destruct (command true d t s a m1). }
  destruct (do_xfer x m) as [r m'], (abs_xfer x sds) as [r' sds']. cbn [fst snd] in *. subst r'.
  destruct (IH m' sds' Hb') as [E2 Hb2]. destruct (do_xfers xs m') as [rs m2], (abs_xfers xs sds') as [rs' sds2]. cbn [fst snd] in *.
  by subst rs'.
Qed.

(** ** Mounting *)

Definition geometry_of (size : Z) : option (Z * Z) :=
  if size =? FLOPPY_SIZE then Some (40, 80) else if size =? HARD_SIZE then Some (64, 1024) else None.
Definition store_of (sp tr : Z) (img : list Z) : store_drive :=
  mk_store sp tr false (λ t s, take RECORD (drop (record_off sp t s) img)).

Lemma geometry_bytes size sp tr : geometry_of size = Some (sp, tr) → size = Z.of_nat (drive_bytes sp tr).
Proof using Type.
  unfold geometry_of, drive_bytes. destruct (Z.eqb_spec size FLOPPY_SIZE) as [->|]; [intros [= <- <-]; by rewrite Z2Nat.id by done|].
  destruct (Z.eqb_spec size HARD_SIZE) as [->|]; [|done]. intros [= <- <-]. by rewrite Z2Nat.id by done.
Qed.

Lemma drive_elsewhere i d f h ino pos (w : native F H) j dj hj ij mj : i ≠ j → 0 <= i →
  streams (view (w_host w)) !! h = None → streams (view f) = <[h:=(ino, pos)]> (streams (view (w_host w))) →
  files (view f) = files (view (w_host w)) →
  (drive_on w j dj hj ij mj → drive_on (set_drive (Z.to_nat i) d (set_host f w)) j dj hj ij mj ∧ hj ≠ h) ∧
  (hj ≠ h → drive_on (set_drive (Z.to_nat i) d (set_host f w)) j dj hj ij mj → drive_on w j dj hj ij mj).
Proof using Type.
  intros Hij Hi Hh Hs Hf. unfold drive_on. cbn [set_drive drives n_cpm w_host set_host]. unfold w_host. cbn [n_cpm set_drive set_host set_cpm cw_files set_files w_fs drives].
  rewrite Hs, Hf. split.
  - intros (A1 & A2 & A3 & [p A4] & A5). assert (hj ≠ h) by (intros ->; unfold w_host in *; congruence). split; [|done].
    split; [done|]. rewrite list_lookup_insert_ne by lia. split; [done|]. split; [done|]. split; [|done]. exists p. by rewrite lookup_insert_ne by done.
  - intros Hne (A1 & A2 & A3 & [p A4] & A5). split; [done|]. rewrite list_lookup_insert_ne in A2 by lia. split; [done|]. split; [done|].
    split; [|done]. exists p. by rewrite lookup_insert_ne in A4 by done.
Qed.

(** Mounting an image.  On an empty drive, [cpm_host_mount] accepts
    a file of one of the two sizes, and from then on the drive is the map of
    the image's records, in track order, next to the drives already there;
    any other size is refused and changes nothing. *)
Theorem mounted_image i path (w : native F H) sds st ino img :
  0 <= i < 16 → length (drives w) = HOST_DRIVES → backed sds w → sds !! i = None →
  stat path (w_host w) = Some st → st_reg st = true →
  names (view (w_host w)) !! path = Some ino → files (view (w_host w)) !! ino = Some img →
  (∀ j d h m, ¬ drive_on w j d h ino m) →
  match geometry_of (Z.of_nat (length img)) with
  | Some (sp, tr) => ∃ w', cpm_host_mount i path w = (0, w') ∧ backed (<[i:=store_of sp tr img]> sds) w'
  | None => cpm_host_mount i path w = (-1, w)
  end.
Proof using Type.
  intros Hi Hlen Hb Hno Est Hreg Hname Himg Hfree. pose proof (stat_view _ _ _ _ _ Hname Himg Est Hreg) as Esz.
  unfold cpm_host_mount. change (Z.of_nat HOST_DRIVES) with 16. destruct (Z.ltb_spec i 0); [lia|]. destruct (Z.leb_spec 16 i); [lia|].
  cbn [orb]. rewrite Est, Esz. destruct (geometry_of (Z.of_nat (length img))) as [[sp tr]|] eqn:Eg; cycle 1.
  { unfold geometry_of in Eg. by destruct (Z.eqb_spec (Z.of_nat (length img)) FLOPPY_SIZE), (Z.eqb_spec (Z.of_nat (length img)) HARD_SIZE). }
  pose proof (geometry_bytes _ _ _ Eg) as Hsize. pose proof (bk_healthy _ _ Hb) as Hh.
  assert (∃ ty, (if Z.of_nat (length img) =? FLOPPY_SIZE then Some (1, 40, 80)
    else if Z.of_nat (length img) =? HARD_SIZE then Some (2, 64, 1024) else None) = Some (ty, sp, tr)) as [ty ->].
  { unfold geometry_of in Eg. repeat case_match; try done; injection Eg as <- <-; by eexists. }
  destruct (healthy_open path (w_host w) ino Hh Hname (mk_is_Some _ _ Himg)) as [h Eh]. pose proof (healthy_fopen RPlus path _ Hh) as Hh'.
  unfold ask_host. destruct (fopen RPlus path (w_host w)) as [o f] eqn:Eo. cbn [fst snd] in *. subst o.
  destruct (fopen_some _ _ _ _ _ Eo) as (Hnew & i0 & Hs & _ & _ & Hn & _ & Hf). assert (i0 = ino) as -> by congruence.
  set (d := mk_drive (Some h) path ty sp tr false). set (w' := set_drive _ d _). exists w'. split; [done|].
  pose proof (λ j dj hj ij mj Hij, drive_elsewhere i d f h ino 0%nat w j dj hj ij mj Hij ltac:(lia) Hnew Hs Hf) as Helse. fold w' in Helse.
  assert (drive_on w' i d h ino img) as Hon.
  { split; [done|]. split.
    { apply list_lookup_insert_eq. change (Z.to_nat i < length (drives w))%nat. rewrite Hlen. unfold HOST_DRIVES. lia. } split; [done|].
    change (w_host w') with f. rewrite Hs, Hf. split; [exists 0%nat; apply lookup_insert_eq|done]. }
  assert (∀ j, i ≠ j → 0 <= j → drives w' !! Z.to_nat j = drives w !! Z.to_nat j) as Hsame.
  { intros j Hij Hj. change (<[Z.to_nat i:=d]> (drives w) !! Z.to_nat j = drives w !! Z.to_nat j). apply list_lookup_insert_ne. lia. }
  assert (∀ dj hj ij mj, drive_on w' i dj hj ij mj → hj = h ∧ ij = ino) as Honly.
  { intros dj hj ij mj (A1 & A2 & A3 & [p A4] & A5). destruct Hon as (B1 & B2 & B3 & [q B4] & B5).
    assert (dj = d) as -> by congruence. injection A3 as <-. split; [done|]. congruence. }
  assert (∀ j dj hj ij mj, i ≠ j → drive_on w' j dj hj ij mj → drive_on w j dj hj ij mj ∧ hj ≠ h ∧ ij ≠ ino) as Hold.
  { intros j dj hj ij mj Hij Hj. assert (drives w !! Z.to_nat j = Some dj) as Ej.
    { destruct Hj as (A1 & A2 & _). by rewrite <- (Hsame j Hij ltac:(lia)). }
    assert (hj ≠ h) as Hne.
    { intros ->. destruct Hj as (A1 & _ & A3 & _). destruct (sds !! j) as [sd|] eqn:Esd.
      - destruct (bk_some _ _ Hb j sd Esd) as (d1 & h1 & i1 & m1 & (_ & B2 & B3 & [p B4] & _) & _). congruence.
      - destruct (bk_none _ _ Hb j A1 Esd) as (d1 & B2 & B3). congruence. }
    pose proof (proj2 (Helse j dj hj ij mj Hij) Hne Hj) as Hj'. split; [done|]. split; [done|]. intros ->. by apply (Hfree j dj hj mj). }
  constructor; [done| | |].
  - intros j Hj Ej. destruct (decide (i = j)) as [->|Hij]; [by rewrite lookup_insert_eq in Ej|]. rewrite lookup_insert_ne in Ej by done.
    destruct (bk_none _ _ Hb j Hj Ej) as (dj & E1 & E2). exists dj. by rewrite (Hsame j Hij ltac:(lia)).
  - intros j sd Ej. destruct (decide (i = j)) as [->|Hij].
    + rewrite lookup_insert_eq in Ej. injection Ej as <-. exists d, h, ino, img. split; [done|]. by split_and!; [..|change (length img = drive_bytes sp tr); lia|].
    + rewrite lookup_insert_ne in Ej by done. destruct (bk_some _ _ Hb j sd Ej) as (dj & hj & ij & mj & Hj & Hr).
      exists dj, hj, ij, mj. split; [by apply (Helse j dj hj ij mj Hij)|done].
  - intros j k dj dk hj hk ij ik mj mk Hjk Hj Hk. destruct (decide (i = j)) as [->|Hij].
    + apply Honly in Hj as [-> ->]. destruct (Hold k dk hk ik mk Hjk Hk) as (_ & ? & ?). done.
    + destruct (Hold j dj hj ij mj Hij Hj) as (Hj' & ? & ?). destruct (decide (i = k)) as [->|Hik]; [by apply Honly in Hk as [-> ->]|].
      destruct (Hold k dk hk ik mk Hik Hk) as (Hk' & _ & _). by apply (bk_apart _ _ Hb j k dj dk hj hk ij ik mj mk Hjk).
Qed.

(** ** The system image *)

Definition system_end (img : list Z) : Z := Z.min 0x10000 (CPM_CCP_BASE + Z.of_nat (length img)).

Lemma reloaded (m : mach (native F H)) img n : sys_image m.2 = Some (take n img) → sys_base m.2 = CPM_CCP_BASE → (n <= length img)%nat →
  0x1600 <= Z.of_nat n → ∃ M w', reload_system m = (set_mem M m.1, w') ∧ drives w' = drives m.2 ∧ w_host w' = w_host m.2 ∧
  ∀ x, is_word x → mget M x = if decide (CPM_CCP_BASE <= x < CPM_BIOS_BASE) then default 0 (img !! Z.to_nat (x - CPM_CCP_BASE)) else mget (mem m.1) x.
Proof using Type.
  intros Ei Eb Hn Hlen. unfold reload_system. rewrite Ei, Eb. rewrite length_take, Nat.min_l by done.
  change (u32 (CPM_BIOS_BASE - CPM_CCP_BASE)) with 0x1600. destruct (Z.ltb_spec (Z.of_nat n) 0x1600); [lia|].
  rewrite take_take, Nat.min_l by lia. set (bs := take (Z.to_nat 0x1600) img).
  assert (Z.of_nat (length bs) = 0x1600) as Hl by (unfold bs; rewrite length_take; lia).
  destruct (on_cpm_wrote CPM_CCP_BASE 0x1600 (store_bytes CPM_CCP_BASE bs) m) as (M & w' & E & HM & Hd & Hh).
  exists M, w'. split; [exact E|]. split; [done|]. split; [done|]. intros x Hx. rewrite HM.
  rewrite mget_store by (unfold CPM_CCP_BASE; done || lia). rewrite Hl. unfold CPM_CCP_BASE, CPM_BIOS_BASE.
  destruct (decide (0xDC00 <= x < 0xF200)); [rewrite decide_True by lia|by rewrite decide_False by lia].
  unfold bs. by rewrite lookup_take_lt by lia.
Qed.

End Ports.

(** ** Examples *)

Section Few.
Context {F H : Type} `{FsHealth F}.
Lemma no_drives_backed (w : native F H) : drives w = replicate HOST_DRIVES no_drive → healthy (w_host w) → backed ∅ w.
Proof using Type.
  intros Ed Hh. assert (∀ i d, drives w !! Z.to_nat i = Some d → drive_fp d = None) as Hno.
  { intros i d. rewrite Ed. by intros [-> _]%lookup_replicate. }
  constructor; [done| | |].
  - intros i Hi _. exists no_drive. split; [|done]. rewrite Ed. apply lookup_replicate_2. unfold HOST_DRIVES. lia.
  - intros i sd Hi. by rewrite lookup_empty in Hi.
  - intros i j di dj hi hj ii ij mi mj _ (_ & A2 & A3 & _). rewrite (Hno i di A2) in A3. done.
Qed.

Lemma one_drive_backed (w : native F H) i d h ino img pos : 0 <= i < 16 → healthy (w_host w) →
  drives w = <[Z.to_nat i:=d]> (replicate HOST_DRIVES no_drive) → drive_fp d = Some h → readonly d = false →
  streams (view (w_host w)) !! h = Some (ino, pos) → files (view (w_host w)) !! ino = Some img →
  length img = drive_bytes (spt d) (Native.tracks d) → backed {[ i := store_of (spt d) (Native.tracks d) img ]} w.
Proof using Type.
  intros Hi Hh Ed Eh Er Es Ef Hl.
  assert (∀ j, j ≠ i → 0 <= j < 16 → drives w !! Z.to_nat j = Some no_drive) as Hother.
  { intros j Hij Hj. rewrite Ed, list_lookup_insert_ne by lia. apply lookup_replicate_2. unfold HOST_DRIVES. lia. }
  constructor; [done| | |].
  - intros j Hj E. destruct (decide (j = i)) as [->|Hij]; [by rewrite lookup_singleton_eq in E|]. exists no_drive. auto.
  - intros j sd E. apply lookup_singleton_Some in E as [<- <-]. exists d, h, ino, img. split; [|done]. split; [done|].
    rewrite Ed. split; [apply list_lookup_insert_eq; rewrite length_replicate; unfold HOST_DRIVES; lia|]. eauto.
  - intros j k dj dk hj hk ij ik mj mk Hjk (A1 & A2 & A3 & _) (B1 & B2 & B3 & _).
    destruct (decide (j = i)) as [->|Hij].
    + rewrite (Hother k) in B2 by done. injection B2 as <-. done.
    + rewrite (Hother j) in A2 by done. injection A2 as <-. done.
Qed.
End Few.

Definition native_on (f : mem_host) (ds : list host_drive) : native mem_host mem_tty :=
  mk_native (set_files (mk_dworld None no_disk f) typing_world) ds (-1) 0 0 0 0 (replicate 256 0xFF) None 0.
Definition no_event (m : mach (native mem_host mem_tty)) : native mem_host mem_tty := m.2.

(** A drive of two tracks of two records, as drive B. *)
Definition small_image : list Z := replicate 512 0xE5.
Definition small_host : mem_host := mk_mem (mk_view {[ str "b.img" := 1%nat ]} {[ 1%nat := small_image ]} {[ 5%nat := (1%nat, 0%nat) ]}) None [].
Definition small_drive : host_drive := mk_drive (Some 5%nat) (str "b.img") 1 2 2 false.
Definition small_machine : mach (native mem_host mem_tty) :=
  (z80_cpu_init, native_on small_host (<[1%nat:=small_drive]> (replicate HOST_DRIVES no_drive))).
Definition sevens : list Z := replicate 128 7.
Lemma image_records_refine_witness :
  (do_xfers 0 no_event [WriteRecord 1 1 0 0x80 sevens; ReadRecord 1 1 0 0x1000; ReadRecord 1 0 1 0x80; ReadRecord 1 2 0 0x80; ReadRecord 0 0 0 0x80]
    small_machine).1 = [Some sevens; Some sevens; Some (replicate 128 0xE5); None; None].
Proof.
  set (xs := [_; _; _; _; _]). assert (Forall xfer_ok xs) as Hx by (repeat constructor; vm_compute; congruence).
  assert (backed {[ 1 := store_of 2 2 small_image ]} small_machine.2) as Hb.
  { apply (one_drive_backed small_machine.2 1 small_drive 5%nat 1%nat small_image 0%nat); done. }
  destruct (image_records_refine 0 no_event xs small_machine _ Hx Hb) as [E _]. rewrite E. by vm_compute.
Defined.

(** A host with one file. *)
Definition one_file (name img : list Z) : native mem_host mem_tty :=
  native_on (mk_mem (mk_view {[ name := 1%nat ]} {[ 1%nat := img ]} ∅) None []) (replicate HOST_DRIVES no_drive).
Definition floppy_image : list Z := replicate (Z.to_nat FLOPPY_SIZE) 0xE5.
Lemma mounted_image_witness :
  ∃ w', cpm_host_mount 0 (str "a.img") (one_file (str "a.img") floppy_image) = (0, w') ∧ backed {[ 0 := store_of 40 80 floppy_image ]} w'.
Proof.
  assert (Z.of_nat (length floppy_image) = FLOPPY_SIZE) as Hl by (unfold floppy_image; by rewrite length_replicate, Z2Nat.id).
  revert Hl. generalize floppy_image. intros img Hl. set (w := one_file (str "a.img") img).
  assert (∀ j d h m, ¬ drive_on w j d h 1%nat m) as Hfree.
  { intros j d h m (_ & E & Ed & _). apply lookup_replicate in E as [-> _]. done. }
  pose proof (mounted_image 0 (str "a.img") w ∅ (mk_stat (Z.of_nat (length img)) true 0x1A4) 1%nat img
    ltac:(done) eq_refl (no_drives_backed w eq_refl (conj eq_refl eq_refl)) eq_refl eq_refl eq_refl eq_refl eq_refl Hfree) as Hm.
  rewrite Hl in Hm. exact Hm.
Defined.

Definition system_image : list Z := replicate (Z.to_nat 0x1700) 0xC9.
Definition power_on (img : list Z) : mach (native mem_host mem_tty) := (z80_cpu_init, one_file (str "cpm.sys") img).
