(* ===== verification/Mkdsk.v ===== *)
(** * Mkdsk: the disk image tool (src/tools/mkdsk.c)

    A CP/M 2.2 file system in a raw image: directory entries of 32 bytes,
    allocation blocks, 8- or 16-bit block pointers.  The image's bytes are a
    map from offsets, blank (E5) where nothing was stored.  [die] ends the
    program with its message; [Lost] is a read outside the image (an entry's
    pointer is not checked on extraction). *)

From Stdlib Require Import ZArith Lia Bool List Ascii String.
From stdpp Require Import base gmap list.
From S2P Require Import Prelude HostFs Disk Video Kbd.

Open Scope string_scope.
Open Scope list_scope.
Open Scope Z_scope.
Open Scope z80_scope.

(** ** Formats *)

Record fmt_t := mk_fmt {
  f_name : list Z;
  f_size : Z;
  f_spt : Z;
  f_tracks : Z;
  f_off : Z;
  f_bsize : Z;
  f_dsm : Z;
  f_drm : Z;
  f_exm : Z
}.
Definition FMT_FD : fmt_t := mk_fmt (str "fd") 409600 40 80 2 2048 194 63 1.
Definition FMT_HD : fmt_t := mk_fmt (str "hd") 8388608 64 1024 2 4096 2043 1023 1.
Definition fmt_for_size (size : Z) : option fmt_t :=
  if size =? f_size FMT_FD then Some FMT_FD else if size =? f_size FMT_HD then Some FMT_HD else None.

(** ** The image *)

Abbreviation image := (gmap Z Z).
Definition dget (d : image) (i : Z) : Z := default 0xE5 (d !! i).
(** [memcpy] into the image, and out of it. *)
Fixpoint dput (i : Z) (bs : list Z) (d : image) : image :=
  match bs with [] => d | b :: bs => dput (i + 1) bs (<[i:=b]> d) end.
Definition dread (i : Z) (n : nat) (d : image) : list Z := map (dget d) (zseq i n).

(** [alloc]: the blocks in use. *)
Record img_t := mk_img { im_f : fmt_t; im_data : image; im_alloc : gset Z }.
Definition set_data (g : image → image) (im : img_t) : img_t := mk_img (im_f im) (g (im_data im)) (im_alloc im).

Definition dir_blocks (f : fmt_t) : Z := Z.quot ((f_drm f + 1) * 32 + f_bsize f - 1) (f_bsize f).
Definition ptrs (f : fmt_t) : Z := if f_dsm f <? 256 then 16 else 8.
Definition data_base (f : fmt_t) : Z := f_off f * f_spt f * 128.
Definition block_off (f : fmt_t) (b : Z) : Z := data_base f + b * f_bsize f.
Definition entry_off (f : fmt_t) (e : Z) : Z := block_off f 0 + e * 32.
(** Byte [j] of entry [e]. *)
Definition ebyte (f : fmt_t) (d : image) (e j : Z) : Z := dget d (entry_off f e + j).
Definition entries (f : fmt_t) : list Z := zseq 0 (Z.to_nat (f_drm f + 1)).

(** The [i]th block pointer of an entry. *)
Definition pointer (f : fmt_t) (d : image) (e i : Z) : Z :=
  if ptrs f =? 16 then ebyte f d e (16 + i) else ebyte f d e (16 + 2 * i) |' (ebyte f d e (17 + 2 * i) <<' 8).
Definition pointers (f : fmt_t) (d : image) (e : Z) : list Z := map (pointer f d e) (zseq 0 (Z.to_nat (ptrs f))).
Definition put_pointer (f : fmt_t) (e i b : Z) (d : image) : image :=
  if ptrs f =? 16 then dput (entry_off f e + 16 + i) [u8 b] d
  else dput (entry_off f e + 16 + 2 * i) [u8 b; u8 (b >>' 8)] d.
(** A pointer that names a block. *)
Definition names_block (f : fmt_t) (b : Z) : bool := nz b && (b <=? f_dsm f).

(** ** Failure *)

Inductive message : Set :=
  | NotImage | ShortRead | CannotOpen | CannotWrite | ShortWrite | ImageFull | DirectoryFull | CannotRead
  | BadFormat | UnknownOption | Usage.
Inductive outcome (A : Type) : Type := Done (a : A) | Died (m : message) | Lost.
Arguments Done {A}.
Arguments Died {A}.
Arguments Lost {A}.
Definition andThen {A B} (r : outcome A) (k : A → outcome B) : outcome B :=
  match r with Done a => k a | Died m => Died m | Lost => Lost end.

(** ** Allocation *)

Definition mark_used (f : fmt_t) (bs : list Z) (used : gset Z) : gset Z :=
  fold_left (λ used b, if names_block f b then {[ b ]} ∪ used else used) bs used.
Definition mark_free (f : fmt_t) (bs : list Z) (used : gset Z) : gset Z :=
  fold_left (λ used b, if names_block f b then used ∖ {[ b ]} else used) bs used.

(** The blocks of the directory and of every file of users 0 to 15. *)
Definition load_alloc (f : fmt_t) (d : image) : gset Z :=
  fold_left (λ used e, if (ebyte f d e 0 =? 0xE5) || (15 <? ebyte f d e 0) then used else mark_used f (pointers f d e) used)
    (entries f) (list_to_set (zseq 0 (Z.to_nat (dir_blocks f)))).

Definition alloc_block (im : img_t) : outcome (Z * img_t) :=
  let f := im_f im in
  match List.find (λ b, bool_decide (b ∉ im_alloc im)) (zseq (dir_blocks f) (Z.to_nat (f_dsm f + 1 - dir_blocks f))) with
  | Some b => Done (b, mk_img f (im_data im) ({[ b ]} ∪ im_alloc im))
  | None => Died ImageFull
  end.
Definition free_entry (im : img_t) : outcome Z :=
  match List.find (λ e, ebyte (im_f im) (im_data im) e 0 =? 0xE5) (entries (im_f im)) with
  | Some e => Done e
  | None => Died DirectoryFull
  end.

(** ** Names *)

Definition SPACE : Z := 0x20.
Definition SLASH : Z := 0x2F.

(** After the last slash. *)
Fixpoint base_name (host : list Z) : list Z :=
  match host with
  | [] => []
  | c :: rest => if (c =? SLASH) || existsb (Z.eqb SLASH) rest then base_name rest else host
  end.
(** Up to eight characters before the dot; what is left. *)
Fixpoint stem_loop (room : nat) (p : list Z) : list Z * list Z :=
  match p with
  | [] => ([], [])
  | c :: rest =>
      if c =? DOT then ([], p)
      else match room with
      | O => ([], p)
      | S room' =>
          if c =? SPACE then stem_loop room rest
          else let '(out, p) := stem_loop room' rest in (toupper c :: out, p)
      end
  end.
Fixpoint to_dot (p : list Z) : list Z :=
  match p with [] => [] | c :: rest => if c =? DOT then p else to_dot rest end.
Fixpoint ext_loop (room : nat) (p : list Z) : list Z :=
  match p, room with
  | c :: rest, S room' =>
      if (c =? DOT) || (c =? SPACE) then ext_loop room rest else toupper c :: ext_loop room' rest
  | _, _ => []
  end.
Definition pad (n : nat) (s : list Z) : list Z := s ++ replicate (n - length s) SPACE.
Definition to_cpm_name (host : list Z) : list Z :=
  let '(stem, p) := stem_loop 8 (base_name host) in
  let ext := match to_dot p with _ :: p => ext_loop 3 p | [] => [] end in
  pad 8 stem ++ pad 3 ext.

(** [name_eq] of the name bytes of entry [e]. *)
Definition entry_name (f : fmt_t) (d : image) (e : Z) : list Z := dread (entry_off f e + 1) 11 d.
Definition low7 (name : list Z) : list Z := map (λ c, c &' 0x7F) name.
Definition name_eq (f : fmt_t) (d : image) (e : Z) (name : list Z) : bool :=
  bool_decide (low7 (entry_name f d e) = name).

(** ** Deleting and adding *)

Definition delete_entry (name : list Z) (im : img_t) (e : Z) : img_t :=
  let f := im_f im in let d := im_data im in
  if nz (ebyte f d e 0) || negb (name_eq f d e name) then im
  else mk_img f (dput (entry_off f e) [0xE5] d) (mark_free f (pointers f d e) (im_alloc im)).
Definition delete_file (name : list Z) (im : img_t) : img_t := fold_left (delete_entry name) (entries (im_f im)) im.

(** The first sixteen bytes of the entry for records [rec] to [rec + n],
    the [k]th of its file, before any pointer. *)
Definition new_entry (name : list Z) (n k : Z) : list Z :=
  let ext := 2 * k + (if 128 <? n then 1 else 0) in
  let rc := if 128 <? n then n - 128 else n in
  [0] ++ name ++ [u8 (ext &' 0x1F); 0; u8 (ext >>' 5); u8 rc] ++ replicate 16 0.

(** The loop over the blocks [ix] of entry [e]. *)
Fixpoint fill_blocks (buf : list Z) (e rec n : Z) (ix : list Z) (im : img_t) : outcome img_t :=
  match ix with
  | [] => Done im
  | i :: ix =>
      andThen (alloc_block im) (λ r,
        let '(b, im) := r in
        let f := im_f im in
        let per := Z.quot (f_bsize f) 128 in
        let first := rec + i * per in
        let cnt := if rec + n <? first + per then rec + n - first else per in
        let bytes := take (Z.to_nat (cnt * 128)) (drop (Z.to_nat (first * 128)) buf) in
        let im := set_data (put_pointer f e i b) im in
        let im := set_data (dput (block_off f b) (replicate (Z.to_nat (f_bsize f)) 0x1A)) im in
        let im := set_data (dput (block_off f b) bytes) im in
        fill_blocks buf e rec n ix im)
  end.

(** [do ... while (rec < records)], for [fuel] entries. *)
Definition per_entry : Z := 256.
Fixpoint add_loop (fuel : nat) (name buf : list Z) (records rec k : Z) (im : img_t) : outcome img_t :=
  match fuel with
  | O => Lost
  | S fuel =>
      let n := if per_entry <? records - rec then per_entry else records - rec in
      andThen (free_entry im) (λ e,
        let f := im_f im in
        let im := set_data (dput (entry_off f e) (new_entry name n k)) im in
        let blocks := Z.quot (n * 128 + f_bsize f - 1) (f_bsize f) in
        andThen (fill_blocks buf e rec n (zseq 0 (Z.to_nat blocks)) im) (λ im,
          let rec := rec + n in
          if rec <? records then add_loop fuel name buf records rec (k + 1) im else Done im))
  end.

(** A file's bytes, filled up with ^Z to whole records. *)
Definition record_count (size : Z) : Z := u32 (Z.quot (size + 127) 128).
Definition padded (bytes : list Z) : list Z :=
  let size := Z.of_nat (length bytes) in bytes ++ replicate (Z.to_nat (record_count size * 128 - size)) 0x1A.
Definition add_bytes (name bytes : list Z) (im : img_t) : outcome img_t :=
  let records := record_count (Z.of_nat (length bytes)) in
  add_loop (S (Z.to_nat (Z.quot records per_entry))) name (padded bytes) records 0 0 (delete_file name im).

(** ** Reading files back *)

Definition entry_extent (f : fmt_t) (d : image) (e : Z) : Z := (ebyte f d e 12 &' 0x1F) |' (ebyte f d e 14 <<' 5).
Definition entry_records (f : fmt_t) (d : image) (e : Z) : Z := (entry_extent f d e &' f_exm f) * 128 + ebyte f d e 15.

(** Record [r] of entry [e]. *)
Definition entry_record (f : fmt_t) (d : image) (e r : Z) : outcome (list Z) :=
  let per := Z.quot (f_bsize f) 128 in
  let at_ := block_off f (pointer f d e (Z.quot r per)) + Z.rem r per * 128 in
  if at_ + 128 <=? f_size f then Done (dread at_ 128 d) else Lost.
Fixpoint entry_bytes (f : fmt_t) (d : image) (e : Z) (rs : list Z) : outcome (list (list Z)) :=
  match rs with
  | [] => Done []
  | r :: rs => andThen (entry_record f d e r) (λ bs, andThen (entry_bytes f d e rs) (λ l, Done (bs :: l)))
  end.

(** The entry of file [name] with first extent [x]. *)
Definition is_extent (f : fmt_t) (d : image) (name : list Z) (x e : Z) : bool :=
  negb (nz (ebyte f d e 0)) && name_eq f d e name && (entry_extent f d e &~ f_exm f =? x).
Fixpoint walk (fuel : nat) (f : fmt_t) (d : image) (name : list Z) (x : Z) : outcome (list (list Z)) :=
  match fuel with
  | O => Lost
  | S fuel =>
      match List.find (is_extent f d name x) (entries f) with
      | None => Done []
      | Some e =>
          let recs := entry_records f d e in
          andThen (entry_bytes f d e (zseq 0 (Z.to_nat recs))) (λ l,
            if recs <? 256 then Done l
            else andThen (walk fuel f d name (x + 2)) (λ l', Done (l ++ l')))
      end
  end.
(** Extents are below 8192. *)
Definition WALK_FUEL : nat := 4097.

(** Is [e] the first entry of a file that is [want]ed? *)
Definition first_entry (f : fmt_t) (d : image) (want : option (list Z)) (e : Z) : bool :=
  negb (nz (ebyte f d e 0)) && negb (nz (entry_extent f d e &~ f_exm f)) &&
  match want with Some name => name_eq f d e name | None => true end.

Fixpoint to_space (s : list Z) : list Z :=
  match s with [] => [] | c :: s => if c =? SPACE then [] else c :: to_space s end.
(** The bytes a C string has. *)
Fixpoint to_nul (s : list Z) : list Z :=
  match s with [] => [] | c :: s => if c =? 0 then [] else c :: to_nul s end.
Definition host_name (name : list Z) : list Z :=
  to_nul (to_space (take 8 name) ++
    (if negb (nth 8 name 0 =? SPACE) then DOT :: to_space (drop 8 name) else [])).

(** A line of the listing: entry, name, user, extent, records, blocks. *)
Definition list_line (f : fmt_t) (d : image) (e : Z) : Z * list Z * Z * Z * Z * Z :=
  (e, entry_name f d e, ebyte f d e 0, entry_extent f d e, entry_records f d e,
   Z.of_nat (length (filter (λ b, b ≠ 0) (pointers f d e)))).
Definition listed_entry (f : fmt_t) (d : image) (e : Z) : bool :=
  negb ((ebyte f d e 0 =? 0xE5) || (15 <? ebyte f d e 0)).
(** The lines, the number of files, the blocks used and the blocks there are. *)
Definition list_dir (im : img_t) : list (Z * list Z * Z * Z * Z * Z) * Z * Z * Z :=
  let f := im_f im in let d := im_data im in
  let es := List.filter (listed_entry f d) (entries f) in
  let lines := map (list_line f d) es in
  (lines,
   Z.of_nat (length (List.filter (λ e, negb (nz (entry_extent f d e &~ f_exm f))) es)),
   fold_left (λ n l, n + l.2) lines 0,
   f_dsm f + 1 - dir_blocks f).

(** ** The program *)

Section Program.
Context {F : Type} `{HostFs F}.

Definition img_load (path : list Z) (create_as : option fmt_t) (h : F) : outcome img_t * F :=
  let '(fp, h) := fopen ROnly path h in
  let init f d h := (Done (mk_img f d (load_alloc f d)), h) in
  match fp with
  | Some fp =>
      let size := default (-1) (fsize fp h) in
      match fmt_for_size size with
      | None => (Died NotImage, h)
      | Some f =>
          let '(_, h) := fseek fp 0 h in
          let '(bs, h) := fread fp (Z.to_nat size) h in
          if negb (Z.of_nat (length bs) =? size) then (Died ShortRead, h)
          else init f (dput 0 bs ∅) (fclose fp h)
      end
  | None =>
      match create_as with
      | None => (Died CannotOpen, h)
      | Some f => init f ∅ h
      end
  end.

Definition img_save (im : img_t) (path : list Z) (h : F) : outcome unit * F :=
  let '(fp, h) := fopen WPlus path h in
  match fp with
  | None => (Died CannotWrite, h)
  | Some fp =>
      let '(n, h) := fwrite fp (dread 0 (Z.to_nat (f_size (im_f im))) (im_data im)) h in
      if negb (Z.of_nat n =? f_size (im_f im)) then (Died ShortWrite, h) else (Done tt, fclose fp h)
  end.

Definition add_file (host : list Z) (im : img_t) (h : F) : outcome img_t * F :=
  let '(fp, h) := fopen ROnly host h in
  match fp with
  | None => (Died CannotRead, h)
  | Some fp =>
      match fsize fp h with
      | None => (Lost, h)
      | Some size =>
          let '(_, h) := fseek fp 0 h in
          let '(bs, h) := fread fp (Z.to_nat size) h in
          if negb (Z.of_nat (length bs) =? size) then (Died ShortRead, h)
          else (add_bytes (to_cpm_name host) bs im, fclose fp h)
      end
  end.

(** One extracted file: [fwrite] of each record, its result unread. *)
Definition extract_entry (im : img_t) (outdir : list Z) (e : Z) (h : F) : outcome unit * F :=
  let f := im_f im in let d := im_data im in
  let name := low7 (entry_name f d e) in
  let path := take 1023 (outdir ++ [SLASH] ++ host_name name) in
  let '(fp, h) := fopen WPlus path h in
  match fp with
  | None => (Died CannotWrite, h)
  | Some fp =>
      match walk WALK_FUEL f d name 0 with
      | Done rs => (Done tt, fclose fp (fold_left (λ h r, (fwrite fp r h).2) rs h))
      | Died m => (Died m, h)
      | Lost => (Lost, h)
      end
  end.
Fixpoint extract_loop (im : img_t) (outdir : list Z) (es : list Z) (h : F) : outcome unit * F :=
  match es with
  | [] => (Done tt, h)
  | e :: es =>
      match extract_entry im outdir e h with
      | (Done _, h) => extract_loop im outdir es h
      | r => r
      end
  end.
Definition extract (im : img_t) (want : option (list Z)) (outdir : list Z) (h : F) : outcome unit * F :=
  extract_loop im outdir (List.filter (first_entry (im_f im) (im_data im) want) (entries (im_f im))) h.

(** ** Arguments *)

Inductive mode_t : Set := ModeAdd | ModeList | ModeExtract.

(** The options before the image; what is left. *)
Fixpoint options (fuel : nat) (args : list (list Z)) (create : fmt_t) (mode : mode_t) (outdir : list Z)
    : outcome (fmt_t * mode_t * list Z * list (list Z)) :=
  match fuel, args with
  | S fuel, arg :: rest =>
      match arg with
      | c :: _ =>
          if negb (c =? chr "-") then Done (create, mode, outdir, args)
          else if bool_decide (arg = str "-f") && negb (bool_decide (rest = [])) then
            match rest with
            | v :: rest =>
                if bool_decide (v = str "fd") then options fuel rest FMT_FD mode outdir
                else if bool_decide (v = str "hd") then options fuel rest FMT_HD mode outdir
                else Died BadFormat
            | [] => Died UnknownOption
            end
          else if bool_decide (arg = str "-l") then options fuel rest create ModeList outdir
          else if bool_decide (arg = str "-x") then options fuel rest create ModeExtract outdir
          else if bool_decide (arg = str "-o") && negb (bool_decide (rest = [])) then
            match rest with v :: rest => options fuel rest create mode v | [] => Died UnknownOption end
          else Died UnknownOption
      | [] => Done (create, mode, outdir, args)
      end
  | _, _ => Done (create, mode, outdir, args)
  end.

(** The last -o among the names, and the names. *)
Fixpoint last_outdir (args : list (list Z)) (outdir : list Z) : list Z :=
  match args with
  | a :: rest =>
      last_outdir rest (match rest with v :: _ => if bool_decide (a = str "-o") then v else outdir | [] => outdir end)
  | [] => outdir
  end.
Fixpoint wanted (args : list (list Z)) : list (list Z) :=
  match args with
  | a :: rest =>
      if bool_decide (a = str "-o") then match rest with _ :: rest => wanted rest | [] => [] end else a :: wanted rest
  | [] => []
  end.

Fixpoint extract_names (im : img_t) (names : list (list Z)) (outdir : list Z) (h : F) : outcome unit * F :=
  match names with
  | [] => (Done tt, h)
  | a :: names =>
      match extract im (Some (to_cpm_name a)) outdir h with
      | (Done _, h) => extract_names im names outdir h
      | r => r
      end
  end.
Fixpoint add_files (hosts : list (list Z)) (im : img_t) (h : F) : outcome img_t * F :=
  match hosts with
  | [] => (Done im, h)
  | a :: hosts =>
      match add_file a im h with
      | (Done im, h) => add_files hosts im h
      | r => r
      end
  end.

(** [args]: after the program's name. *)
Definition mkdsk (args : list (list Z)) (h : F) : outcome unit * F :=
  match options (S (length args)) args FMT_HD ModeAdd [DOT] with
  | Died m => (Died m, h)
  | Lost => (Lost, h)
  | Done (_, _, _, []) => (Died Usage, h)
  | Done (create, mode, outdir, path :: rest) =>
      match mode with
      | ModeList => let '(r, h) := img_load path None h in (andThen r (λ _, Done tt), h)
      | ModeExtract =>
          match img_load path None h with
          | (Done im, h) =>
              let outdir := last_outdir rest outdir in
              match wanted rest with
              | [] => extract im None outdir h
              | names => extract_names im names outdir h
              end
          | (Died m, h) => (Died m, h)
          | (Lost, h) => (Lost, h)
          end
      | ModeAdd =>
          match img_load path (Some create) h with
          | (Done im, h) =>
              match add_files rest im h with
              | (Done im, h) => img_save im path h
              | (Died m, h) => (Died m, h)
              | (Lost, h) => (Lost, h)
              end
          | (Died m, h) => (Died m, h)
          | (Lost, h) => (Lost, h)
          end
      end
  end.
End Program.
