(* ===== verification/MkdskOk.v ===== *)
(** * MkdskOk: the image tool keeps a file system (Mkdsk.v)

    [img_ok] is the file system's invariant: every block a live entry points
    to is allocated, belongs to it alone and lies outside the directory.
    Adding a file keeps it and makes the image, seen as a map from names to
    records, the map with that file inserted; what is saved loads back, and
    what is added comes out again ([extracted]). *)

From Stdlib Require Import ZArith Lia Bool List Ascii String.
From stdpp Require Import base gmap list.
From S2P Require Import Prelude HostFs Disk Video Kbd Mkdsk.

Open Scope string_scope.
Open Scope list_scope.
Open Scope Z_scope.
Open Scope z80_scope.

(** ** Bytes of an image *)

Lemma dget_dput i bs d x :
  dget (dput i bs d) x = if decide (i <= x < i + Z.of_nat (length bs)) then default 0xE5 (bs !! Z.to_nat (x - i)) else dget d x.
Proof.
  revert i d. induction bs as [|b bs IH]; intros i d; cbn [dput length]; [by rewrite decide_False by lia|].
  rewrite IH. destruct (decide (i + 1 <= x < i + 1 + Z.of_nat (length bs))).
  - rewrite decide_True by lia. by replace (Z.to_nat (x - i)) with (S (Z.to_nat (x - (i + 1)))) by lia.
  - unfold dget. destruct (decide (x = i)) as [->|Hx].
    + rewrite lookup_insert_eq. rewrite decide_True by lia. by rewrite Z.sub_diag.
    + rewrite lookup_insert_ne by done. by rewrite decide_False by lia.
Qed.
Lemma dget_dput_out i bs d x : ¬ (i <= x < i + Z.of_nat (length bs)) → dget (dput i bs d) x = dget d x.
Proof. intros Hx. rewrite dget_dput. by rewrite decide_False. Qed.
Lemma dread_ext i n d d' : (∀ x, i <= x < i + Z.of_nat n → dget d' x = dget d x) → dread i n d' = dread i n d.
Proof. intros Hx. unfold dread. apply map_ext_in. intros x Hin%elem_of_zseq. by apply Hx. Qed.
Lemma length_dread i n d : length (dread i n d) = n.
Proof. unfold dread. by rewrite length_map, length_zseq. Qed.
Lemma dread_lookup i n d j : (j < n)%nat → dread i n d !! j = Some (dget d (i + Z.of_nat j)).
Proof.
  intros Hj. unfold dread. rewrite list_lookup_fmap. change (dget d <$> zseq i n !! j = Some (dget d (i + Z.of_nat j))).
  assert (zseq i n !! j = Some (i + Z.of_nat j)) as ->; [|done]. rewrite <- (nth_zseq i n j Hj).
  destruct (lookup_lt_is_Some_2 (zseq i n) j) as [x Hx]; [by rewrite length_zseq|]. by rewrite (nth_lookup_Some _ _ 0 x Hx).
Qed.
Lemma dread_dput i bs d : dread i (length bs) (dput i bs d) = bs.
Proof.
  apply list_eq. intros j. destruct (decide (j < length bs)%nat) as [Hj|Hj].
  - rewrite dread_lookup, dget_dput by done. rewrite decide_True by lia. replace (Z.to_nat (i + Z.of_nat j - i)) with j by lia.
    by destruct (lookup_lt_is_Some_2 bs j Hj) as [y ->].
  - by rewrite !lookup_ge_None_2 by (rewrite ?length_dread; lia).
Qed.

(** ** Geometry *)

(** What both formats are. *)
Record fmt_ok (f : fmt_t) : Prop := {
  fo_ptrs : ptrs f = 8 ∨ ptrs f = 16;
  fo_bsize : 0 < f_bsize f ∧ f_bsize f * ptrs f = 32768;
  fo_exm : f_exm f = 1;
  fo_dsm : 0 < dir_blocks f <= f_dsm f ∧ f_dsm f < 2 ^ (128 `div` ptrs f);
  fo_drm : 0 <= f_drm f ∧ (f_drm f + 1) * 32 <= dir_blocks f * f_bsize f;
  fo_size : 0 <= data_base f ∧ data_base f + (f_dsm f + 1) * f_bsize f <= f_size f
}.
Lemma fd_ok : fmt_ok FMT_FD.
Proof. constructor; [by right|..]; by vm_compute. Qed.
Lemma hd_ok : fmt_ok FMT_HD.
Proof. constructor; [by left|..]; by vm_compute. Qed.

Section Geometry.
Context (f : fmt_t) (Hf : fmt_ok f).

Definition valid (e : Z) : Prop := 0 <= e <= f_drm f.
Definition data_block (b : Z) : Prop := dir_blocks f <= b <= f_dsm f.
Definition per : Z := Z.quot (f_bsize f) 128.

Lemma valid_entries e : In e (entries f) ↔ valid e.
Proof using Hf. unfold entries, valid. rewrite elem_of_zseq. pose proof (fo_drm f Hf). lia. Qed.

Lemma per_bsize : 0 < per ∧ f_bsize f = per * 128 ∧ per * ptrs f = 256.
Proof using Hf.
  unfold per. destruct (fo_bsize f Hf) as [H0 Hp]. rewrite Z.quot_div_nonneg by lia.
  destruct (fo_ptrs f Hf) as [E|E]; rewrite E in *; [assert (f_bsize f = 4096) as -> by lia|assert (f_bsize f = 2048) as -> by lia]; done.
Qed.

(** Offset [j] of block [b]. *)
Definition in_block (b x : Z) : Prop := block_off f b <= x < block_off f b + f_bsize f.
Definition in_entry (e x : Z) : Prop := entry_off f e <= x < entry_off f e + 32.

Lemma blocks_apart b b' x : in_block b x → in_block b' x → b = b'.
Proof using Hf. unfold in_block, block_off. pose proof (fo_bsize f Hf). nia. Qed.
Lemma entries_apart e e' x : in_entry e x → in_entry e' x → e = e'.
Proof using Type. unfold in_entry, entry_off. lia. Qed.
Lemma entry_not_block e b x : valid e → data_block b → in_entry e x → ¬ in_block b x.
Proof using Hf.
  unfold valid, data_block, in_entry, in_block, entry_off, block_off. pose proof (fo_drm f Hf). pose proof (fo_bsize f Hf). nia.
Qed.
Lemma names_data b : names_block f b = true ↔ b ≠ 0 ∧ b <= f_dsm f.
Proof using Type. unfold names_block, nz. rewrite andb_true_iff, negb_true_iff, Z.eqb_neq, Z.leb_le. done. Qed.
Lemma data_names b : data_block b → names_block f b = true.
Proof using Hf. unfold data_block. intros Hb. apply names_data. pose proof (fo_dsm f Hf). lia. Qed.

(** Two images with the same entry [e]. *)
Definition same_entry (e : Z) (d d' : image) : Prop := ∀ j, 0 <= j < 32 → ebyte f d' e j = ebyte f d e j.
Definition same_block (b : Z) (d d' : image) : Prop := ∀ x, in_block b x → dget d' x = dget d x.

Lemma same_entry_refl e d : same_entry e d d.
Proof using Type. done. Qed.
Lemma same_entry_trans e d1 d2 d3 : same_entry e d1 d2 → same_entry e d2 d3 → same_entry e d1 d3.
Proof using Type. intros H12 H23 j Hj. by rewrite H23, H12. Qed.
Lemma same_block_trans b d1 d2 d3 : same_block b d1 d2 → same_block b d2 d3 → same_block b d1 d3.
Proof using Type. intros H12 H23 j Hj. by rewrite H23, H12. Qed.

Lemma same_pointer e d d' i : 0 <= i < ptrs f → same_entry e d d' → pointer f d' e i = pointer f d e i.
Proof using Hf. intros Hi He. unfold pointer. destruct (fo_ptrs f Hf) as [E|E]; rewrite E in *; cbn; by rewrite !He by lia. Qed.
Lemma same_pointers e d d' : same_entry e d d' → pointers f d' e = pointers f d e.
Proof using Hf.
  intros He. unfold pointers. apply map_ext_in. intros i Hi%elem_of_zseq. apply same_pointer; [|done].
  destruct (fo_ptrs f Hf) as [E|E]; rewrite E in *; lia.
Qed.
Lemma same_name e d d' : same_entry e d d' → entry_name f d' e = entry_name f d e.
Proof using Type.
  intros He. unfold entry_name. apply dread_ext. intros x Hx.
  replace x with (entry_off f e + (x - entry_off f e)) by lia. apply He. lia.
Qed.
Lemma same_extent e d d' : same_entry e d d' → entry_extent f d' e = entry_extent f d e.
Proof using Type. intros He. unfold entry_extent. by rewrite !He by lia. Qed.
Lemma same_records e d d' : same_entry e d d' → entry_records f d' e = entry_records f d e.
Proof using Type. intros He. unfold entry_records. rewrite (same_extent e d d' He). by rewrite He by lia. Qed.
End Geometry.

(** ** Writes keep to their place *)

Section Writes.
Context (f : fmt_t) (Hf : fmt_ok f).

Lemma entry_write e j bs d : valid f e → 0 <= j → j + Z.of_nat (length bs) <= 32 →
  let d' := dput (entry_off f e + j) bs d in
  (∀ e', e' ≠ e → same_entry f e' d d') ∧ (∀ b, data_block f b → same_block f b d d') ∧
  (∀ i, 0 <= i < 32 → ¬ (j <= i < j + Z.of_nat (length bs)) → ebyte f d' e i = ebyte f d e i) ∧
  ∀ i, (i < length bs)%nat → Some (ebyte f d' e (j + Z.of_nat i)) = bs !! i.
Proof using Hf.
  intros He Hj Hl d'. unfold d', same_entry, same_block, ebyte. split_and!.
  - intros e' Hne i Hi. apply dget_dput_out. unfold entry_off. lia.
  - intros b Hb x Hx. apply dget_dput_out. intros Hin. apply (entry_not_block f Hf e b x He Hb); [|done]. unfold in_entry. lia.
  - intros i Hi Hout. apply dget_dput_out. lia.
  - intros i Hi. rewrite dget_dput, decide_True by lia. replace (Z.to_nat _) with i by lia.
    by destruct (lookup_lt_is_Some_2 bs i Hi) as [y ->].
Qed.

Lemma block_write b bs d : data_block f b → Z.of_nat (length bs) <= f_bsize f →
  let d' := dput (block_off f b) bs d in
  (∀ e, valid f e → same_entry f e d d') ∧ (∀ b', b' ≠ b → same_block f b' d d').
Proof using Hf.
  intros Hb Hl d'. unfold d'. split.
  - intros e He j Hj. apply dget_dput_out. intros Hin. apply (entry_not_block f Hf e b (entry_off f e + j) He Hb); unfold in_entry, in_block; lia.
  - intros b' Hne x Hx. apply dget_dput_out. intros Hin. apply Hne. apply (blocks_apart f Hf b' b x); [done|]. unfold in_block. lia.
Qed.

(** ** Entries of a file *)

Definition live (d : image) (e : Z) : bool := negb ((ebyte f d e 0 =? 0xE5) || (15 <? ebyte f d e 0)).
Definition matches (d : image) (name : list Z) (e : Z) : bool := negb (nz (ebyte f d e 0)) && name_eq f d e name.
Definition owns (d : image) (e b : Z) : Prop :=
  valid f e ∧ live d e = true ∧ In b (pointers f d e) ∧ names_block f b = true.
(** A finished entry: its records are in blocks. *)
Definition whole (d : image) (e : Z) : Prop :=
  entry_records f d e <= 256 ∧ ∀ i, 0 <= i → i * per f < entry_records f d e → names_block f (pointer f d e i) = true.

Lemma same_matches e d d' name : same_entry f e d d' → matches d' name e = matches d name e.
Proof using Type. intros He. unfold matches, name_eq. rewrite (same_name f e d d' He). by rewrite He by lia. Qed.
Lemma same_owner e d d' b : same_entry f e d d' → owns d' e b ↔ owns d e b.
Proof using Hf. intros He. unfold owns, live. rewrite (same_pointers f Hf e d d' He). by rewrite He by lia. Qed.
Lemma whole_index d e i : whole d e → 0 <= i → i * per f < entry_records f d e → 0 <= i < ptrs f.
Proof using Hf. intros [Hr _] Hi Hlt. destruct (per_bsize f Hf) as (? & ? & ?). nia. Qed.
Lemma same_whole e d d' : same_entry f e d d' → whole d e → whole d' e.
Proof using Hf.
  intros He Hw. pose proof Hw as [Hr Hp]. unfold whole. rewrite (same_records f e d d' He). split; [done|]. intros i Hi Hlt.
  rewrite (same_pointer f Hf e d d'); [by apply Hp|by apply (whole_index d e)|done].
Qed.
Lemma matches_live d name e : matches d name e = true → live d e = true ∧ ebyte f d e 0 = 0.
Proof using Type.
  unfold matches, live, nz. intros [H _]%andb_true_iff. rewrite negb_involutive in H. apply Z.eqb_eq in H. by rewrite H.
Qed.

Record core_ok (im : img_t) : Prop := {
  co_fmt : im_f im = f;
  co_dir b : 0 <= b < dir_blocks f → b ∈ im_alloc im;
  co_used e b : owns (im_data im) e b → data_block f b ∧ b ∈ im_alloc im;
  co_apart e e' b : owns (im_data im) e b → owns (im_data im) e' b → e = e'
}.
Definition all_whole (im : img_t) : Prop := ∀ e, valid f e → ebyte f (im_data im) e 0 = 0 → whole (im_data im) e.

(** The same file system but for entry [e], which owns less. *)
Lemma core_less im im' e :
  core_ok im → im_f im' = f → (∀ b, 0 <= b < dir_blocks f → b ∈ im_alloc im') →
  (∀ e', valid f e' → e' ≠ e → same_entry f e' (im_data im) (im_data im')) →
  (∀ b, owns (im_data im') e b → owns (im_data im) e b) →
  (∀ e' b, owns (im_data im') e' b → b ∈ im_alloc im') → core_ok im'.
Proof using Hf.
  intros [_ _ Hu Ha] Ef Hd Hs He Hal. assert (∀ e' b, owns (im_data im') e' b → owns (im_data im) e' b) as Hless.
  { intros e' b Ho. destruct (decide (e' = e)) as [->|Hne]; [by apply He|]. apply (same_owner e' (im_data im) (im_data im') b); [|done].
    apply Hs; [apply Ho|done]. }
  constructor; [done|done| |].
  - intros e' b Ho. split; [by apply (Hu e'), Hless|by apply (Hal e')].
  - intros e1 e2 b H1 H2. apply (Ha e1 e2 b); by apply Hless.
Qed.

(** ** Allocation *)

Lemma mark_free_spec bs used b : b ∈ mark_free f bs used ↔ b ∈ used ∧ ¬ (In b bs ∧ names_block f b = true).
Proof using Type.
  revert used. induction bs as [|c bs IH]; intros used; [cbn; tauto|]. cbn [mark_free fold_left] in *.
  change (fold_left _ bs ?u) with (mark_free f bs u). rewrite IH. cbn [In]. destruct (names_block f c) eqn:Hc.
  - rewrite elem_of_difference, elem_of_singleton. split; intros [Hu Hn].
    + destruct Hu as [Hu Hne]. split; [done|]. intros [[<-|?] ?]; auto.
    + split; [split; [done|intros ->; auto]|intros [? ?]; auto].
  - split; intros [Hu Hn]; (split; [done|]); [intros [[<-|?] ?]; [congruence|auto]|intros [? ?]; auto].
Qed.
Lemma mark_used_spec bs used b : b ∈ mark_used f bs used ↔ b ∈ used ∨ (In b bs ∧ names_block f b = true).
Proof using Type.
  revert used. induction bs as [|c bs IH]; intros used; [cbn; tauto|]. cbn [mark_used fold_left] in *.
  change (fold_left _ bs ?u) with (mark_used f bs u). rewrite IH. cbn [In]. destruct (names_block f c) eqn:Hc.
  - rewrite elem_of_union, elem_of_singleton. split.
    + intros [[->|?]|[? ?]]; auto.
    + intros [?|[[->|?] ?]]; auto.
  - split; [intros [?|[? ?]]; auto|]. intros [?|[[<-|?] ?]]; [auto|congruence|auto].
Qed.

Lemma alloc_spec im : core_ok im → (match alloc_block im with
  | Done (b, im') => data_block f b ∧ ¬ (b ∈ im_alloc im) ∧ im' = mk_img f (im_data im) ({[ b ]} ∪ im_alloc im)
  | Died m => m = ImageFull ∧ ∀ b, data_block f b → b ∈ im_alloc im
  | Lost => False end).
Proof using Type.
  intros [Ef _ _ _]. unfold alloc_block. rewrite Ef. destruct (List.find _ _) as [b|] eqn:E.
  - apply find_some in E as [Hb%elem_of_zseq Ha%bool_decide_eq_true]. split; [unfold data_block; lia|done].
  - split; [done|]. intros b Hb. unfold data_block in Hb. pose proof (find_none _ _ E b) as Hn. cbn in Hn.
    apply bool_decide_eq_false, dec_stable in Hn; [done|]. apply elem_of_zseq. lia.
Qed.
Lemma free_spec im : im_f im = f → (match free_entry im with
  | Done e => valid f e ∧ ebyte f (im_data im) e 0 = 0xE5
  | Died m => m = DirectoryFull ∧ ∀ e, valid f e → ebyte f (im_data im) e 0 ≠ 0xE5
  | Lost => False end).
Proof using Hf.
  intros Ef. unfold free_entry. rewrite Ef. destruct (List.find _ _) as [e|] eqn:E.
  - apply find_some in E as [He%(valid_entries f Hf) Hb%Z.eqb_eq]. done.
  - split; [done|]. intros e He. pose proof (find_none _ _ E e) as Hn. apply Z.eqb_neq, Hn. by apply valid_entries.
Qed.

(** What is left. *)
Definition free_blocks (im : img_t) : gset Z :=
  list_to_set (zseq (dir_blocks f) (Z.to_nat (f_dsm f + 1 - dir_blocks f))) ∖ im_alloc im.
Definition free_entries (im : img_t) : gset Z :=
  list_to_set (List.filter (λ e, ebyte f (im_data im) e 0 =? 0xE5) (entries f)).
Definition room (im : img_t) : Z := Z.of_nat (size (free_blocks im)).
Definition entry_room (im : img_t) : Z := Z.of_nat (size (free_entries im)).

Lemma elem_free_blocks im b : b ∈ free_blocks im ↔ data_block f b ∧ ¬ (b ∈ im_alloc im).
Proof using Hf.
  unfold free_blocks, data_block. rewrite elem_of_difference, elem_of_list_to_set, list_elem_of_In, elem_of_zseq. pose proof (fo_dsm f Hf).
  split; intros [? ?]; (split; [lia|done]).
Qed.
Lemma elem_free_entries im e : e ∈ free_entries im ↔ valid f e ∧ ebyte f (im_data im) e 0 = 0xE5.
Proof using Hf.
  unfold free_entries. rewrite elem_of_list_to_set, list_elem_of_In, filter_In, (valid_entries f Hf), Z.eqb_eq. done.
Qed.
Lemma size_less (X Y : gset Z) x : x ∈ X → (∀ y, y ∈ Y ↔ y ∈ X ∧ y ≠ x) → Z.of_nat (size Y) + 1 = Z.of_nat (size X).
Proof using Type.
  intros Hx HY. assert (Y = X ∖ {[x]}) as ->.
  { apply set_eq. intros y. rewrite HY, elem_of_difference, elem_of_singleton. done. }
  rewrite size_difference by (intros y ->%elem_of_singleton; done). rewrite size_singleton.
  assert (size X ≠ 0%nat); [|lia]. intros E%size_empty_inv. apply E in Hx. by apply elem_of_empty in Hx.
Qed.
Lemma no_room im : (∀ b, data_block f b → b ∈ im_alloc im) → room im = 0.
Proof using Hf.
  intros Ha. unfold room. assert (free_blocks im ≡ ∅) as E by (intros b; rewrite elem_free_blocks, elem_of_empty; split; [intros [? Hn]; by apply Hn, Ha || by apply (Ha b)|done]).
  apply size_empty_iff in E. lia.
Qed.
Lemma no_entry_room im : (∀ e, valid f e → ebyte f (im_data im) e 0 ≠ 0xE5) → entry_room im = 0.
Proof using Hf.
  intros Ha. unfold entry_room. assert (free_entries im ≡ ∅) as E by (intros b; rewrite elem_free_entries, elem_of_empty; split; [intros [? Hn]; by apply Hn, Ha || by apply (Ha b)|done]).
  apply size_empty_iff in E. lia.
Qed.

(** ** Deleting *)

Lemma delete_one name im e : valid f e → core_ok im →
  let im' := delete_entry name im e in
  core_ok im' ∧ (∀ b, b ∈ im_alloc im' → b ∈ im_alloc im) ∧ (∀ b, data_block f b → same_block f b (im_data im) (im_data im')) ∧
  (∀ e', valid f e' → e' ≠ e → same_entry f e' (im_data im) (im_data im')) ∧
  (if matches (im_data im) name e then ebyte f (im_data im') e 0 = 0xE5 else im' = im).
Proof using Hf.
  intros He Hc im'. pose proof (co_fmt im Hc) as Ef. unfold im', delete_entry. rewrite Ef.
  assert (nz (ebyte f (im_data im) e 0) || negb (name_eq f (im_data im) e name) = negb (matches (im_data im) name e)) as ->.
  { unfold matches. by rewrite negb_andb, negb_involutive. }
  destruct (matches (im_data im) name e) eqn:Hm; cbn [negb]; [|done].
  destruct (matches_live _ _ _ Hm) as [Hl H0]. cbn [im_data im_alloc].
  destruct (entry_write e 0 [0xE5] (im_data im) He ltac:(lia) ltac:(cbn; lia)) as (Hs & Hb & _ & _). rewrite Z.add_0_r in Hs, Hb.
  assert (ebyte f (dput (entry_off f e) [0xE5] (im_data im)) e 0 = 0xE5) as Hw.
  { unfold ebyte. rewrite dget_dput, decide_True by (cbn; lia). by rewrite Z.add_0_r, Z.sub_diag. }
  set (d' := dput _ _ _) in *.
  assert (∀ b, ¬ owns d' e b) as Hno.
  { intros b (_ & Hl' & _). unfold live in Hl'. rewrite Hw in Hl'. done. }
  assert (∀ b, owns (im_data im) e b ↔ In b (pointers f (im_data im) e) ∧ names_block f b = true) as Hown.
  { intros b. split; [by intros (_ & _ & ? & ?)|intros [? ?]; by split]. }
  split_and!; [|intros b [Hb' _]%mark_free_spec; done|done|by intros; apply Hs|done].
  apply (core_less im _ e Hc); cbn [im_f im_alloc im_data]; [done| |by intros; apply Hs|intros b Ho; by apply Hno in Ho|].
  - intros b Hbd. apply mark_free_spec. split; [by apply (co_dir im Hc)|]. intros Hp%Hown.
    destruct (co_used im Hc e b Hp) as [Hdb _]. unfold data_block in Hdb. lia.
  - intros e' b Ho. destruct (decide (e' = e)) as [->|Hne]; [by apply Hno in Ho|].
    apply (same_owner e' (im_data im)) in Ho; [|by apply Hs]. apply mark_free_spec. split; [by apply (co_used im Hc e')|].
    intros Hp%Hown. apply Hne. by apply (co_apart im Hc e' e b).
Qed.

(** Entries of [name] are gone, the others as they were. *)
Definition deleted (name : list Z) (es : list Z) (im im' : img_t) : Prop :=
  core_ok im' ∧ (∀ b, b ∈ im_alloc im' → b ∈ im_alloc im) ∧ (∀ b, data_block f b → same_block f b (im_data im) (im_data im')) ∧
  (∀ e, In e es → matches (im_data im') name e = false) ∧
  ∀ e, valid f e → if matches (im_data im) name e then ebyte f (im_data im') e 0 = 0xE5 ∨ same_entry f e (im_data im) (im_data im')
                   else same_entry f e (im_data im) (im_data im').
Lemma erased_unmatched d name e : ebyte f d e 0 = 0xE5 → matches d name e = false.
Proof using Type. intros E. unfold matches. by rewrite E. Qed.

Lemma delete_many name es : (∀ e, In e es → valid f e) → ∀ im, core_ok im →
  deleted name es im (fold_left (delete_entry name) es im).
Proof using Hf.
  intros Hes im Hc. induction es as [|e es IH] using rev_ind.
  { cbn. split_and!; [done..|]. intros e He. case_match; [right|]; apply same_entry_refl. }
  destruct IH as (Hc1 & Ha1 & Hb1 & Hm1 & Hs1); [intros e' He'; apply Hes, in_or_app; by left|].
  rewrite fold_left_app. cbn [fold_left]. set (im1 := fold_left _ es im) in *.
  assert (valid f e) as He by (apply Hes, in_or_app; right; by left).
  destruct (delete_one name im1 e He Hc1) as (Hc2 & Ha2 & Hb2 & Hs2 & Hd2). set (im2 := delete_entry name im1 e) in *.
  assert (∀ e', valid f e' → ebyte f (im_data im2) e' 0 = 0xE5 ∨ same_entry f e' (im_data im1) (im_data im2)) as Hor.
  { intros e' He'. destruct (decide (e' = e)) as [->|Hne]; [|right; by apply Hs2].
    destruct (matches (im_data im1) name e); [by left|right; by rewrite Hd2]. }
  split_and!; [done|auto| | |].
  - intros b Hb. eapply same_block_trans; [by apply Hb1|by apply Hb2].
  - intros e' [Hin|[<-|[]]]%in_app_or.
    + destruct (Hor e') as [E|E]; [apply Hes, in_or_app; by left|by apply erased_unmatched|].
      rewrite (same_matches e' _ _ name E). by apply Hm1.
    + destruct (matches (im_data im1) name e) eqn:Hm; [by apply erased_unmatched|by rewrite Hd2].
  - intros e' He'. specialize (Hs1 e' He'). destruct (matches (im_data im) name e') eqn:Hm.
    + destruct (Hor e' He') as [E|E]; [by left|]. destruct Hs1 as [E1|E1].
      * left. by rewrite E by lia.
      * right. by eapply same_entry_trans.
    + eapply same_entry_trans; [done|]. destruct (decide (e' = e)) as [->|Hne]; [|by apply Hs2].
      rewrite <- (same_matches e _ _ name Hs1) in Hm. rewrite Hm in Hd2. rewrite Hd2. apply same_entry_refl.
Qed.
Lemma delete_spec name im : core_ok im → deleted name (entries f) im (delete_file name im).
Proof using Hf.
  intros Hc. unfold delete_file. rewrite (co_fmt im Hc). apply delete_many; [|done]. intros e. by apply valid_entries.
Qed.
Lemma delete_whole name im : core_ok im → all_whole im → all_whole (delete_file name im).
Proof using Hf.
  intros Hc Hw e He H0. destruct (delete_spec name im Hc) as (_ & _ & _ & _ & Hs). specialize (Hs e He).
  assert (same_entry f e (im_data im) (im_data (delete_file name im))) as Hsame.
  { destruct (matches _ _ _); [|done]. destruct Hs as [E|E]; [congruence|done]. }
  apply (same_whole e (im_data im)); [done|]. apply Hw; [done|]. by rewrite <- Hsame by lia.
Qed.

(** ** Filling an entry *)

Lemma pointers_in d e b : In b (pointers f d e) ↔ ∃ i, 0 <= i < ptrs f ∧ pointer f d e i = b.
Proof using Hf.
  unfold pointers. rewrite in_map_iff. assert (Z.of_nat (Z.to_nat (ptrs f)) = ptrs f) as Hp by (destruct (fo_ptrs f Hf); lia).
  split; intros [i [H1 H2]]; exists i; rewrite elem_of_zseq, Hp in *; split; (lia || done).
Qed.
Lemma block_word b : data_block f b → is_word b ∧ (ptrs f = 16 → is_byte b).
Proof using Hf.
  unfold data_block. pose proof (fo_dsm f Hf) as [H1 H2]. unfold is_word, is_byte.
  destruct (fo_ptrs f Hf) as [E|E]; rewrite E in *; change (2 ^ (128 `div` 8)) with 65536 in *; change (2 ^ (128 `div` 16)) with 256 in *;
    (split; [lia|intros; lia]).
Qed.
Lemma entry_bytes_at e j bs d i : j <= i < j + Z.of_nat (length bs) →
  ebyte f (dput (entry_off f e + j) bs d) e i = default 0xE5 (bs !! Z.to_nat (i - j)).
Proof using Type. intros Hi. unfold ebyte. rewrite dget_dput, decide_True by lia. do 2 f_equal. lia. Qed.
Lemma entry_bytes_off e j bs d i : ¬ (j <= i < j + Z.of_nat (length bs)) →
  ebyte f (dput (entry_off f e + j) bs d) e i = ebyte f d e i.
Proof using Type. intros Hi. unfold ebyte. rewrite dget_dput, decide_False by lia. done. Qed.

(** A pointer is a write of one or two bytes into the entry. *)
Lemma put_pointer_spec e i b d : valid f e → 0 <= i < ptrs f → data_block f b →
  let d' := put_pointer f e i b d in
  (∀ e', e' ≠ e → same_entry f e' d d') ∧ (∀ b', data_block f b' → same_block f b' d d') ∧
  (∀ j, 0 <= j < 16 → ebyte f d' e j = ebyte f d e j) ∧ pointer f d' e i = b ∧
  ∀ i', 0 <= i' < ptrs f → i' ≠ i → pointer f d' e i' = pointer f d e i'.
Proof using Hf.
  intros He Hi Hb d'. destruct (block_word b Hb) as [Hw Hb8]. unfold d', put_pointer, pointer.
  destruct (fo_ptrs f Hf) as [E|E]; rewrite E in *; cbn [Z.eqb Pos.eqb]; rewrite <- (Z.add_assoc (entry_off f e)).
  - destruct (entry_write e (16 + 2 * i) [u8 b; u8 (b >>' 8)] d He ltac:(lia) ltac:(cbn; lia)) as (H1 & H2 & H3 & _). cbn [length] in H3.
    split_and!; [done|done|intros j Hj; apply H3; lia| |].
    + rewrite !entry_bytes_at by (cbn; lia). replace (Z.to_nat (16 + 2 * i - (16 + 2 * i))) with 0%nat by lia.
      replace (Z.to_nat (17 + 2 * i - (16 + 2 * i))) with 1%nat by lia. cbn [lookup list_lookup default from_option].
      rewrite (u8_id (b >>' 8)); [by apply word_of_split|]. unfold is_byte, is_word in *. rewrite Z.shiftr_div_pow2 by lia.
      change (2 ^ 8) with 256. split; [apply Z.div_pos; lia|apply Z.div_lt_upper_bound; lia].
    + intros i' Hi' Hne. by rewrite !entry_bytes_off by (cbn; lia).
  - destruct (entry_write e (16 + i) [u8 b] d He ltac:(lia) ltac:(cbn; lia)) as (H1 & H2 & H3 & _). cbn [length] in H3.
    split_and!; [done|done|intros j Hj; apply H3; lia| |].
    + rewrite entry_bytes_at by (cbn; lia). rewrite Z.sub_diag. cbn. by apply u8_id, Hb8.
    + intros i' Hi' Hne. by rewrite !entry_bytes_off by (cbn; lia).
Qed.

(** The bytes block [i] of an entry for records [rec] to [rec + n] gets. *)
Definition chunk (buf : list Z) (rec n i : Z) : list Z :=
  let first := rec + i * per f in
  let cnt := if rec + n <? first + per f then rec + n - first else per f in
  take (Z.to_nat (cnt * 128)) (drop (Z.to_nat (first * 128)) buf).
Lemma chunk_fits buf rec n i : Z.of_nat (length (chunk buf rec n i)) <= f_bsize f.
Proof using Hf.
  unfold chunk. rewrite length_take. destruct (per_bsize f Hf) as (H0 & -> & _). case_match eqn:E; [apply Z.ltb_lt in E|]; lia.
Qed.

(** One block: allocated, pointed to, written. *)
Definition place (e i b : Z) (bs : list Z) (im : img_t) : img_t :=
  mk_img f (dput (block_off f b) bs (dput (block_off f b) (replicate (Z.to_nat (f_bsize f)) 0x1A) (put_pointer f e i b (im_data im))))
    ({[ b ]} ∪ im_alloc im).
Lemma place_spec e i b bs im : core_ok im → valid f e → live (im_data im) e = true → 0 <= i < ptrs f → data_block f b →
  ¬ (b ∈ im_alloc im) → Z.of_nat (length bs) <= f_bsize f →
  let im' := place e i b bs im in let d := im_data im in let d' := im_data im' in
  core_ok im' ∧ (∀ e', valid f e' → e' ≠ e → same_entry f e' d d') ∧
  (∀ j, 0 <= j < 16 → ebyte f d' e j = ebyte f d e j) ∧ (∀ b', data_block f b' → b' ∈ im_alloc im → same_block f b' d d') ∧
  (∀ i', 0 <= i' < ptrs f → i' ≠ i → pointer f d' e i' = pointer f d e i') ∧ pointer f d' e i = b ∧
  dread (block_off f b) (length bs) d' = bs.
Proof using Hf.
  intros Hc He Hl Hi Hb Hfree Hbs im' d d'. destruct (put_pointer_spec e i b d He Hi Hb) as (P1 & P2 & P3 & P4 & P5).
  unfold d', im', place. cbn [im_data]. fold d. set (d1 := put_pointer f e i b d) in *. set (blank := replicate _ 0x1A).
  assert (Z.of_nat (length blank) <= f_bsize f) as Hbl by (unfold blank; rewrite length_replicate; pose proof (fo_bsize f Hf); lia).
  destruct (block_write b blank d1 Hb Hbl) as [B1 B2]. set (d2 := dput _ blank d1) in *.
  destruct (block_write b bs d2 Hb Hbs) as [B3 B4]. set (d3 := dput _ bs d2) in *.
  assert (∀ e', valid f e' → same_entry f e' d1 d3) as Hs13 by (intros; eapply same_entry_trans; auto).
  assert (∀ e', valid f e' → e' ≠ e → same_entry f e' d d3) as Hs by (intros; eapply same_entry_trans; [by apply P1|by apply Hs13]).
  assert (∀ i', 0 <= i' < ptrs f → pointer f d3 e i' = pointer f d1 e i') as Hp by (intros; apply same_pointer; auto).
  assert (∀ j, 0 <= j < 16 → ebyte f d3 e j = ebyte f d e j) as Hb16.
  { intros j Hj. rewrite (Hs13 e He j) by lia. by apply P3. }
  split_and!; [|done|done| |intros i' Hi' Hne; rewrite Hp by done; by apply P5|by rewrite Hp|apply dread_dput].
  - destruct Hc as [Ef Hdir Hused Hap].
    assert (∀ b', owns d3 e b' → b' = b ∨ owns d e b') as Howne.
    { intros b' (_ & _ & (i' & Hi' & Eb)%pointers_in & Hn). rewrite Hp in Eb by done. destruct (decide (i' = i)) as [->|Hne]; [left; congruence|].
      right. split; [done|]. split; [done|]. split; [|done]. apply pointers_in. exists i'. split; [done|]. by rewrite <- P5. }
    assert (∀ e' b', owns d3 e' b' → (e' = e ∧ b' = b) ∨ owns d e' b') as Hown.
    { intros e' b' Ho. destruct (decide (e' = e)) as [->|Hne]; [destruct (Howne b' Ho); auto|]. right.
      apply (same_owner e' d d3 b'); [|done]. apply Hs; [apply Ho|done]. }
    constructor; cbn [im_f im_data im_alloc]; [done|intros b' Hb'; apply elem_of_union_r; by apply Hdir| |].
    + intros e' b' [[-> ->]|Ho]%Hown; [split; [done|by apply elem_of_union_l, elem_of_singleton]|].
      destruct (Hused e' b' Ho). split; [done|]. by apply elem_of_union_r.
    + intros e1 e2 b' [[-> ->]|H1]%Hown [[-> E2]|H2]%Hown; [done| | |by apply (Hap e1 e2 b')].
      * by destruct (Hused e2 b H2).
      * subst b'. by destruct (Hused e1 b H1).
  - intros b' Hb' Ha. assert (b' ≠ b) by (intros ->; done). eapply same_block_trans; [by apply P2|]. eapply same_block_trans; [by apply B2|by apply B4].
Qed.

Definition filled (buf : list Z) (e rec n i0 m : Z) (im im' : img_t) : Prop :=
  let d := im_data im in let d' := im_data im' in
  core_ok im' ∧ (∀ b, b ∈ im_alloc im → b ∈ im_alloc im') ∧ (∀ e', valid f e' → e' ≠ e → same_entry f e' d d') ∧
  (∀ j, 0 <= j < 16 → ebyte f d' e j = ebyte f d e j) ∧ (∀ b, data_block f b → b ∈ im_alloc im → same_block f b d d') ∧
  (∀ i, 0 <= i < i0 → pointer f d' e i = pointer f d e i) ∧
  ∀ i, i0 <= i < i0 + m → data_block f (pointer f d' e i) ∧
    let bs := chunk buf rec n i in dread (block_off f (pointer f d' e i)) (length bs) d' = bs.

Lemma same_dread b n d d' : same_block f b d d' → Z.of_nat n <= f_bsize f → dread (block_off f b) n d' = dread (block_off f b) n d.
Proof using Type. intros Hs Hn. apply dread_ext. intros x Hx. apply Hs. unfold in_block. lia. Qed.

Lemma fill_spec buf e rec n m : ∀ i0 im, core_ok im → valid f e → ebyte f (im_data im) e 0 = 0 → 0 <= i0 →
  i0 + Z.of_nat m <= ptrs f →
  match fill_blocks buf e rec n (zseq i0 m) im with
  | Done im' => filled buf e rec n i0 (Z.of_nat m) im im' ∧ room im' + Z.of_nat m = room im
  | Died msg => msg = ImageFull ∧ room im < Z.of_nat m
  | Lost => False
  end.
Proof using Hf.
  induction m as [|m IH]; intros i0 im Hc He H0 Hi0 Hm.
  { cbn. unfold filled. split_and!; try done; [intros i Hi|]; lia. }
  cbn [zseq fill_blocks]. pose proof (alloc_spec im Hc) as Ha. destruct (alloc_block im) as [[b im1]|msg|]; [|destruct Ha as [-> Ha]; split; [done|rewrite (no_room im Ha); lia]|done].
  destruct Ha as (Hb & Hfree & ->). cbn [andThen im_f]. cbv beta iota zeta.
  change (fill_blocks buf e rec n (zseq (i0 + 1) m) _) with (fill_blocks buf e rec n (zseq (i0 + 1) m) (place e i0 b (chunk buf rec n i0) im)).
  assert (live (im_data im) e = true) as Hl by (unfold live; by rewrite H0).
  destruct (place_spec e i0 b (chunk buf rec n i0) im Hc He Hl ltac:(lia) Hb Hfree (chunk_fits buf rec n i0)) as (P1 & P2 & P3 & P4 & P5 & P6 & P7).
  set (im2 := place e i0 b _ im) in *.
  assert (room im2 + 1 = room im) as Hroom.
  { apply (size_less _ _ b); [by apply elem_free_blocks|]. intros b'. rewrite !elem_free_blocks. cbn [im2 place im_alloc].
    rewrite elem_of_union, elem_of_singleton. tauto. }
  specialize (IH (i0 + 1) im2 P1 He). rewrite P3 in IH by lia.
  specialize (IH H0 ltac:(lia) ltac:(lia)). destruct (fill_blocks _ _ _ _ _ im2) as [im'|msg|]; [|destruct IH; split; [done|lia]|done].
  destruct IH as [(Q1 & Q2 & Q3 & Q4 & Q5 & Q6 & Q7) Hr2]. split; [|lia]. cbv zeta in *. unfold filled. cbv zeta.
  assert (∀ b', b' ∈ im_alloc im → b' ∈ im_alloc im2) as Hsub by (intros b' Hb'; by apply elem_of_union_r).
  split_and!; [done|auto| | | | |].
  - intros e' He' Hne. eapply same_entry_trans; auto.
  - intros j Hj. by rewrite Q4, P3.
  - intros b' Hb' Ha'. eapply same_block_trans; auto.
  - intros i Hi. rewrite Q6 by lia. apply P5; lia.
  - intros i Hi. destruct (decide (i = i0)) as [->|Hne].
    + rewrite Q6, P6 by lia. split; [done|]. rewrite <- P7 at 2. apply same_dread; [|apply chunk_fits]. apply Q5; [done|].
      by apply elem_of_union_l, elem_of_singleton.
    + apply Q7. lia.
Qed.

(** ** A new entry *)

Lemma length_new name n k : length name = 11%nat → length (new_entry name n k) = 32%nat.
Proof using Type. intros Hn. unfold new_entry. rewrite !length_app, length_replicate, Hn. done. Qed.

Lemma extent_split x : 0 <= x < 8192 → (u8 (x &' 0x1F) &' 0x1F) |' (u8 (x >>' 5) <<' 5) = x.
Proof using Type.
  intros Hx. rewrite (u8_id (x >>' 5)) by (unfold is_byte; rewrite Z.shiftr_div_pow2 by lia; change (2 ^ 5) with 32;
    split; [apply Z.div_pos; lia|apply Z.div_lt_upper_bound; lia]).
  change 0x1F with (Z.ones 5). rewrite (u8_id (x &' Z.ones 5)) by (rewrite Z.land_ones by lia; unfold is_byte; pose proof (Z.mod_pos_bound x (2 ^ 5)); lia).
  rewrite <- Z.land_assoc, Z.land_diag, <- Z.ldiff_ones_r, Z.lor_comm by lia. apply Z.lor_ldiff_and.
Qed.
Lemma extent_base k (odd : bool) : (2 * k + (if odd then 1 else 0)) &~ 1 = 2 * k.
Proof using Type. change 1 with (Z.ones 1) at 2. rewrite Z.ldiff_ones_r, Z.shiftr_div_pow2, Z.shiftl_mul_pow2 by lia. change (2 ^ 1) with 2. destruct odd; Z.div_mod_to_equations; lia. Qed.
Lemma extent_odd k (odd : bool) : (2 * k + (if odd then 1 else 0)) &' 1 = if odd then 1 else 0.
Proof using Type. change 1 with (Z.ones 1) at 2. rewrite Z.land_ones by lia. change (2 ^ 1) with 2. destruct odd; Z.div_mod_to_equations; lia. Qed.

Lemma entry_name_bytes d e : entry_name f d e = map (ebyte f d e) (zseq 1 11).
Proof using Type. unfold entry_name, dread, ebyte. cbn [zseq map]. repeat (apply (f_equal2 cons); [f_equal; lia|]). done. Qed.

(** Entry [e] is the [k]th of [name], with [n] records. *)
Definition is_part (d : image) (name : list Z) (k n e : Z) : Prop :=
  ebyte f d e 0 = 0 ∧ entry_name f d e = name ∧ entry_extent f d e = 2 * k + (if 128 <? n then 1 else 0) ∧ entry_records f d e = n.

Definition put_new (name : list Z) (n k e : Z) (im : img_t) : img_t := set_data (dput (entry_off f e) (new_entry name n k)) im.
Lemma new_entry_spec name n k e im : core_ok im → valid f e → ebyte f (im_data im) e 0 = 0xE5 → length name = 11%nat →
  0 <= n <= 256 → 0 <= k < 4096 →
  let im' := put_new name n k e im in let d := im_data im in let d' := im_data im' in
  core_ok im' ∧ im_alloc im' = im_alloc im ∧ (∀ e', valid f e' → e' ≠ e → same_entry f e' d d') ∧
  (∀ b, data_block f b → same_block f b d d') ∧ is_part d' name k n e.
Proof using Hf.
  intros Hc He Hfree Hname Hn Hk im' d d'. pose proof (length_new name n k Hname) as Hl.
  destruct (entry_write e 0 (new_entry name n k) d He ltac:(lia) ltac:(rewrite Hl; lia)) as (W1 & W2 & _ & _). rewrite Z.add_0_r in W1, W2.
  assert (∀ j, 0 <= j < 32 → Some (ebyte f d' e j) = new_entry name n k !! Z.to_nat j) as Hj.
  { intros j Hj. unfold d', im', put_new, ebyte. cbn [set_data im_data]. rewrite dget_dput, decide_True by (rewrite Hl; lia).
    replace (Z.to_nat _) with (Z.to_nat j) by lia. destruct (lookup_lt_is_Some_2 (new_entry name n k) (Z.to_nat j)) as [y ->]; [lia|done]. }
  assert (∀ j v, 0 <= j < 32 → new_entry name n k !! Z.to_nat j = Some v → ebyte f d' e j = v) as Hv.
  { intros j v Hjj E. pose proof (Hj j Hjj) as E'. rewrite E in E'. by injection E'. }
  clear Hj. do 11 (destruct name as [|? name]; [done|]). destruct name; [|done].
  unfold new_entry in Hv.
  assert (∀ j, 16 <= j < 32 → ebyte f d' e j = 0) as Hzero.
  { intros j Hj16. apply Hv; [lia|]. rewrite lookup_app_r by (cbn; lia). rewrite lookup_app_r by (cbn; lia). rewrite lookup_app_r by (cbn; lia).
    apply lookup_replicate_2. cbn. lia. }
  assert (∀ i, 0 <= i < ptrs f → pointer f d' e i = 0) as Hp.
  { intros i Hi. unfold pointer. destruct (fo_ptrs f Hf) as [E|E]; rewrite E in *; cbn [Z.eqb Pos.eqb]; by rewrite !Hzero by lia. }
  split_and!; [|done|by intros; apply W1|by intros; apply W2|].
  - assert (∀ b, ¬ owns d' e b) as Hno.
    { intros b (_ & _ & (i & Hi & E)%pointers_in & Hn'). rewrite Hp in E by done. by subst b. }
    apply (core_less im im' e Hc); [by apply (co_fmt im Hc)|by apply (co_dir im Hc)|by intros; apply W1|by intros b Ho%Hno|].
    intros e' b Ho. destruct (decide (e' = e)) as [->|Hne]; [by apply Hno in Ho|].
    apply (same_owner e' d d') in Ho; [|by apply W1]. by apply (co_used im Hc e' b).
  - set (ext := 2 * k + (if 128 <? n then 1 else 0)) in *. assert (entry_extent f d' e = ext) as Hext.
    { unfold entry_extent. rewrite (Hv 12 _ ltac:(lia) eq_refl), (Hv 14 _ ltac:(lia) eq_refl). apply extent_split.
      unfold ext. case_match; lia. }
    split; [by apply Hv|]. split; [|split; [done|]].
    + rewrite entry_name_bytes. cbn [zseq map]. repeat (apply (f_equal2 cons); [by apply Hv|]). done.
    + unfold entry_records. rewrite Hext, (fo_exm f Hf). unfold ext. rewrite extent_odd.
      rewrite (Hv 15 _ ltac:(lia) eq_refl). destruct (Z.ltb_spec 128 n); rewrite u8_id by (unfold is_byte; lia); lia.
Qed.

(** ** Records *)

Lemma entry_record_at d e r : entry_record f d e r =
  if block_off f (pointer f d e (Z.quot r (per f))) + Z.rem r (per f) * 128 + 128 <=? f_size f
  then Done (dread (block_off f (pointer f d e (Z.quot r (per f))) + Z.rem r (per f) * 128) 128 d) else Lost.
Proof using Type. done. Qed.
(** Where record [r] is: pointer [i], record [j] of the block. *)
Lemma record_place r : 0 <= r → exists i j, Z.quot r (per f) = i ∧ Z.rem r (per f) = j ∧ r = i * per f + j ∧ 0 <= i ∧ 0 <= j < per f.
Proof using Hf.
  intros Hr. destruct (per_bsize f Hf) as (Hp & _). exists (Z.quot r (per f)), (Z.rem r (per f)).
  pose proof (Z.quot_rem' r (per f)). pose proof (Z.rem_bound_pos r (per f) Hr Hp). pose proof (Z.quot_pos r (per f) Hr Hp).
  split_and!; try lia.
Qed.
Lemma in_size b x : data_block f b → in_block f b x → x < f_size f.
Proof using Hf. unfold data_block, in_block, block_off. pose proof (fo_size f Hf). pose proof (fo_bsize f Hf). nia. Qed.

Lemma record_kept im d' e r : core_ok im → valid f e → live (im_data im) e = true → whole (im_data im) e →
  same_entry f e (im_data im) d' → (∀ b, data_block f b → b ∈ im_alloc im → same_block f b (im_data im) d') →
  0 <= r < entry_records f (im_data im) e → entry_record f d' e r = entry_record f (im_data im) e r.
Proof using Hf.
  intros Hc He Hl Hw Hs Hb Hr. destruct (record_place r ltac:(lia)) as (i & j & Ei & Ej & Er & Hi & Hj).
  assert (i * per f < entry_records f (im_data im) e) as Hlt by lia. pose proof (whole_index _ _ i Hw Hi Hlt) as Hix.
  rewrite !entry_record_at, Ei, Ej. rewrite (same_pointer f Hf e _ _ i Hix Hs). case_match; [|done]. f_equal.
  apply dread_ext. intros x Hx. apply (Hb (pointer f (im_data im) e i)).
  - apply (co_used im Hc e). split; [done|]. split; [done|]. split; [apply pointers_in; by exists i|by apply Hw].
  - apply (co_used im Hc e). split; [done|]. split; [done|]. split; [apply pointers_in; by exists i|by apply Hw].
  - unfold in_block. destruct (per_bsize f Hf) as (_ & Hbs & _). nia.
Qed.

Lemma slice_slice (l : list Z) a b c d : (c + d <= b)%nat → take d (drop c (take b (drop a l))) = take d (drop (a + c) l).
Proof using Type.
  intros Hl. apply list_eq. intros i. destruct (decide (i < d)%nat).
  - rewrite !lookup_take_lt, !lookup_drop by done. rewrite lookup_take_lt, lookup_drop by lia. f_equal. lia.
  - by rewrite !(lookup_take_ge _ d) by lia.
Qed.
Lemma dread_part i n m k d : (m + k <= n)%nat → dread (i + Z.of_nat m) k d = take k (drop m (dread i n d)).
Proof using Type.
  intros Hl. apply list_eq. intros j. destruct (decide (j < k)%nat).
  - rewrite lookup_take_lt, lookup_drop, !dread_lookup by lia. do 2 f_equal. lia.
  - rewrite lookup_take_ge by lia. apply lookup_ge_None_2. rewrite length_dread. lia.
Qed.

(** The records of a buffer. *)
Definition record_of (buf : list Z) (r : Z) : list Z := take 128 (drop (Z.to_nat (r * 128)) buf).

Lemma filled_record buf e rec n m im im' r : filled buf e rec n 0 m im im' → 0 <= r < n → 0 <= rec →
  n <= m * per f → (Z.to_nat ((rec + n) * 128) <= length buf)%nat →
  entry_record f (im_data im') e r = Done (record_of buf (rec + r)).
Proof using Hf.
  intros (_ & _ & _ & _ & _ & _ & Hfill) Hr Hrec Hm Hlen. destruct (per_bsize f Hf) as (Hp & Hbs & _).
  destruct (record_place r ltac:(lia)) as (i & j & Ei & Ej & Er & Hi & Hj).
  assert (i < m) as Him by nia. destruct (Hfill i ltac:(lia)) as [Hb Hd]. cbv zeta in Hd.
  rewrite entry_record_at, Ei, Ej. set (b := pointer f (im_data im') e i) in *.
  assert (in_block f b (block_off f b + j * 128 + 127)) as Hin by (unfold in_block; nia).
  pose proof (in_size b _ Hb Hin). destruct (Z.leb_spec (block_off f b + j * 128 + 128) (f_size f)); [|lia]. f_equal.
  set (cnt := if rec + n <? rec + i * per f + per f then rec + n - (rec + i * per f) else per f).
  assert (j < cnt) as Hjc by (unfold cnt; destruct (Z.ltb_spec (rec + n) (rec + i * per f + per f)); lia).
  assert (rec + i * per f + cnt <= rec + n) as Hcn by (unfold cnt; destruct (Z.ltb_spec (rec + n) (rec + i * per f + per f)); lia).
  assert (chunk buf rec n i = take (Z.to_nat (cnt * 128)) (drop (Z.to_nat ((rec + i * per f) * 128)) buf)) as Ec by done.
  assert (length (chunk buf rec n i) = Z.to_nat (cnt * 128)) as Hl by (rewrite Ec, length_take, length_drop; nia).
  rewrite Hl in Hd. assert (j * 128 = Z.of_nat (Z.to_nat (j * 128))) as -> by lia.
  rewrite (dread_part _ (Z.to_nat (cnt * 128))) by nia. rewrite Hd, Ec, slice_slice by nia. unfold record_of. do 2 f_equal. nia.
Qed.

(** ** Walking a file *)

Lemma find_ext {A} (p q : A → bool) l : (∀ x, In x l → p x = q x) → List.find p l = List.find q l.
Proof using Type.
  induction l as [|x l IH]; intros Hpq; [done|]. cbn. rewrite (Hpq x) by by left. destruct (q x); [done|]. apply IH. intros y Hy. apply Hpq. by right.
Qed.
Lemma entry_bytes_ext d d' e rs : (∀ r, In r rs → entry_record f d' e r = entry_record f d e r) → entry_bytes f d' e rs = entry_bytes f d e rs.
Proof using Type.
  induction rs as [|r rs IH]; intros Hr; [done|]. cbn [entry_bytes]. rewrite (Hr r) by by left. rewrite IH; [done|].
  intros r' Hr'. apply Hr. by right.
Qed.
Lemma entry_bytes_done d e rs g : (∀ r, In r rs → entry_record f d e r = Done (g r)) → entry_bytes f d e rs = Done (map g rs).
Proof using Type.
  induction rs as [|r rs IH]; intros Hr; [done|]. cbn [entry_bytes map]. rewrite (Hr r) by by left. rewrite IH; [done|].
  intros r' Hr'. apply Hr. by right.
Qed.

(** A file whose entries are kept is read as before. *)
Definition kept (name : list Z) (d d' : image) : Prop :=
  ∀ e, valid f e → matches d' name e = matches d name e ∧
    (matches d name e = true → same_entry f e d d' ∧
      ∀ r, 0 <= r < entry_records f d e → entry_record f d' e r = entry_record f d e r).
Lemma is_extent_matches d name x e : is_extent f d name x e = matches d name e && (entry_extent f d e &~ f_exm f =? x).
Proof using Type. done. Qed.
Lemma kept_extent name d d' x e : kept name d d' → valid f e → is_extent f d' name x e = is_extent f d name x e.
Proof using Type.
  intros Hk He. destruct (Hk e He) as [Hm Hs]. rewrite !is_extent_matches, Hm. destruct (matches d name e); [|done].
  by rewrite (same_extent f e d d') by by apply Hs.
Qed.
Lemma walk_kept name d d' fuel : kept name d d' → ∀ x, walk fuel f d' name x = walk fuel f d name x.
Proof using Hf.
  intros Hk. induction fuel as [|fuel IH]; intros x; [done|]. cbn [walk].
  rewrite (find_ext _ (is_extent f d name x)) by (intros e He; by apply kept_extent, valid_entries).
  destruct (List.find _ _) as [e|] eqn:E; [|done]. apply find_some in E as [He%(valid_entries f Hf) Hx].
  rewrite is_extent_matches in Hx. apply andb_true_iff in Hx as [Hm _]. destruct (Hk e He) as [_ Hs]. destruct (Hs Hm) as [Hsame Hr].
  rewrite (same_records f e d d' Hsame). rewrite (entry_bytes_ext d d' e) by (intros r Hin%elem_of_zseq; apply Hr; lia).
  by rewrite IH.
Qed.

(** What is stored under a name, if anything is. *)
Definition stored (d : image) (name : list Z) : option (list (list Z)) :=
  if existsb (first_entry f d (Some name)) (entries f) then
    match walk WALK_FUEL f d name 0 with Done l => Some l | _ => None end
  else None.
Lemma first_matches d name e : first_entry f d (Some name) e = matches d name e && negb (nz (entry_extent f d e &~ f_exm f)).
Proof using Type. unfold first_entry, matches. by destruct (negb (nz (ebyte f d e 0))), (negb (nz (entry_extent f d e &~ f_exm f))), (name_eq f d e name). Qed.
Lemma existsb_same {A} (p q : A → bool) l : (∀ x, In x l → p x = q x) → existsb p l = existsb q l.
Proof using Type.
  induction l as [|x l IH]; intros Hpq; [done|]. cbn. rewrite (Hpq x) by by left. f_equal. apply IH. intros y Hy. apply Hpq. by right.
Qed.
Lemma stored_kept name d d' : kept name d d' → stored d' name = stored d name.
Proof using Hf.
  intros Hk. unfold stored. rewrite (walk_kept name d d' _ Hk).
  rewrite (existsb_same _ (first_entry f d (Some name))); [done|]. intros e He%(valid_entries f Hf).
  rewrite !first_matches. destruct (Hk e He) as [-> Hs]. destruct (matches d name e); [|done].
  by rewrite (same_extent f e d d') by by apply Hs.
Qed.

(** ** A file in parts *)

Definition part_size (records k : Z) : Z := Z.min 256 (records - 256 * k).
Definition part_ok (d : image) (name buf : list Z) (k n e : Z) : Prop :=
  is_part d name k n e ∧ ∀ r, 0 <= r < n → entry_record f d e r = Done (record_of buf (256 * k + r)).
(** [es]: the entries of [name], in order; [last]: its records. *)
Definition parts (d : image) (name buf : list Z) (records : Z) (es : list Z) : Prop :=
  (∀ j e, es !! j = Some e → valid f e ∧ part_ok d name buf (Z.of_nat j) (part_size records (Z.of_nat j)) e) ∧
  ∀ e, valid f e → matches d name e = true → In e es.

Lemma part_matches d name buf k n e : low7 name = name → part_ok d name buf k n e → matches d name e = true.
Proof using Type.
  intros H7 [(H0 & Hn & _) _]. unfold matches, name_eq. rewrite H0, Hn, H7. cbn. by apply bool_decide_eq_true.
Qed.
Lemma part_base d name buf k n e : part_ok d name buf k n e → entry_extent f d e &~ f_exm f = 2 * k.
Proof using Hf. intros [(_ & _ & -> & _) _]. rewrite (fo_exm f Hf). apply extent_base. Qed.

Lemma parts_find d name buf records es j : low7 name = name → parts d name buf records es →
  List.find (is_extent f d name (2 * Z.of_nat j)) (entries f) = es !! j.
Proof using Hf.
  intros H7 [Hp Ha]. destruct (List.find _ _) as [e|] eqn:E.
  - apply find_some in E as [He%(valid_entries f Hf) Hx]. rewrite is_extent_matches in Hx. apply andb_true_iff in Hx as [Hm Hx%Z.eqb_eq].
    apply Ha in Hm; [|done]. apply list_elem_of_In, list_elem_of_lookup in Hm as [i Hi]. destruct (Hp i e Hi) as [_ Hok].
    rewrite (part_base _ _ _ _ _ _ Hok) in Hx. by replace j with i by lia.
  - destruct (es !! j) as [e|] eqn:Hj; [|done]. destruct (Hp j e Hj) as [He Hok].
    pose proof (find_none _ _ E e) as Hn. rewrite is_extent_matches in Hn. rewrite (part_matches _ _ _ _ _ _ H7 Hok), (part_base _ _ _ _ _ _ Hok) in Hn.
    rewrite Z.eqb_refl in Hn. discriminate Hn. by apply valid_entries.
Qed.

Lemma zseq_app s m n : zseq s (m + n) = zseq s m ++ zseq (s + Z.of_nat m) n.
Proof using Type.
  revert s. induction m as [|m IH]; intros s; cbn [Nat.add zseq app]; [f_equal; lia|]. rewrite IH. do 3 f_equal. lia.
Qed.
Lemma map_shift {A} (g : Z → A) a n : map (λ r, g (a + r)) (zseq 0 n) = map g (zseq a n).
Proof using Type.
  apply list_eq. intros i. rewrite !list_lookup_fmap. destruct (decide (i < n)%nat) as [Hi|Hi].
  - change ((λ r, g (a + r)) <$> zseq 0 n !! i = g <$> zseq a n !! i).
    assert (∀ s, zseq s n !! i = Some (s + Z.of_nat i)) as Hz.
    { intros s. rewrite <- (nth_zseq s n i Hi). destruct (lookup_lt_is_Some_2 (zseq s n) i) as [x Hx]; [by rewrite length_zseq|].
      by rewrite (nth_lookup_Some _ _ 0 x Hx). }
    rewrite !Hz. cbn. by do 2 f_equal; lia.
  - by rewrite !lookup_ge_None_2 by (rewrite length_zseq; lia).
Qed.

Lemma walk_parts d name buf records es : low7 name = name → parts d name buf records es →
  256 * (Z.of_nat (length es) - 1) <= records <= 256 * Z.of_nat (length es) →
  ∀ fuel j, (length es < fuel + j)%nat → (j <= length es)%nat →
  walk fuel f d name (2 * Z.of_nat j) = Done (map (record_of buf) (zseq (256 * Z.of_nat j) (Z.to_nat (records - 256 * Z.of_nat j)))).
Proof using Hf.
  intros H7 Hps Hle fuel. induction fuel as [|fuel IH]; intros j Hfu Hj; [lia|]. cbn [walk].
  rewrite (parts_find d name buf records es j H7 Hps). destruct (es !! j) as [e|] eqn:E; cycle 1.
  { apply lookup_ge_None in E. by replace (Z.to_nat (records - 256 * Z.of_nat j)) with 0%nat by lia. }
  destruct Hps as [Hp Ha]. destruct (Hp j e E) as [He [(_ & _ & _ & Hrec) Hbytes]]. rewrite Hrec.
  apply lookup_lt_Some in E. unfold part_size in *. set (n := Z.min 256 (records - 256 * Z.of_nat j)) in *.
  assert (0 <= n) by lia.
  rewrite (entry_bytes_done d e _ (λ r, record_of buf (256 * Z.of_nat j + r))) by (intros r Hr%elem_of_zseq; apply Hbytes; lia).
  cbn [andThen]. rewrite map_shift. destruct (Z.ltb_spec n 256).
  { do 3 f_equal. lia. }
  replace (2 * Z.of_nat j + 2) with (2 * Z.of_nat (S j)) by lia. rewrite (IH (S j)) by lia. cbn [andThen]. f_equal.
  replace (Z.to_nat (records - 256 * Z.of_nat j)) with (Z.to_nat n + Z.to_nat (records - 256 * Z.of_nat (S j)))%nat by lia.
  rewrite zseq_app, map_app. do 3 f_equal. lia.
Qed.
Lemma stored_parts d name buf records es : low7 name = name → parts d name buf records es → es ≠ [] →
  256 * (Z.of_nat (length es) - 1) <= records <= 256 * Z.of_nat (length es) → (length es < WALK_FUEL)%nat →
  stored d name = Some (map (record_of buf) (zseq 0 (Z.to_nat records))).
Proof using Hf.
  intros H7 Hps Hne Hle Hfu. unfold stored.
  assert (existsb (first_entry f d (Some name)) (entries f) = true) as ->.
  { destruct es as [|e es]; [done|]. destruct (proj1 Hps 0%nat e eq_refl) as [He Hok]. apply existsb_exists. exists e.
    split; [by apply valid_entries|]. rewrite first_matches, (part_matches _ _ _ _ _ _ H7 Hok), (part_base _ _ _ _ _ _ Hok). done. }
  pose proof (walk_parts d name buf records es H7 Hps Hle WALK_FUEL 0 ltac:(lia) ltac:(lia)) as Hw.
  change (2 * Z.of_nat 0) with 0 in Hw. rewrite Hw. by rewrite Z.sub_0_r.
Qed.

(** ** Adding *)

Lemma is_part_head d d' name k n e : (∀ j, 0 <= j < 16 → ebyte f d' e j = ebyte f d e j) → is_part d name k n e → is_part d' name k n e.
Proof using Type.
  intros Hj (H0 & H1 & H2 & H3). unfold is_part. rewrite Hj by lia. split; [done|]. split.
  - rewrite <- H1, !entry_name_bytes. apply map_zseq_ext. intros j Hjj. apply Hj. lia.
  - assert (entry_extent f d' e = entry_extent f d e) as E by (unfold entry_extent; by rewrite !Hj by lia).
    split; [by rewrite E|]. rewrite <- H3. unfold entry_records. rewrite E. by rewrite Hj by lia.
Qed.

(** The blocks and the entries of [r] records. *)
Definition blocks_for (r : Z) : Z := (r + per f - 1) / per f.
Definition entries_for (r : Z) : Z := Z.max 1 ((r + 255) / 256).
Lemma blocks_unique n m : n <= m * per f < n + per f → m = blocks_for n.
Proof using Hf.
  intros Hm. destruct (per_bsize f Hf) as (Hp & _). unfold blocks_for. apply (Z.div_unique _ _ _ (n + per f - 1 - m * per f)); lia.
Qed.
Lemma blocks_nonneg r : 0 <= r → 0 <= blocks_for r.
Proof using Hf. intros Hr. destruct (per_bsize f Hf) as (Hp & _). apply Z.div_pos; lia. Qed.
Lemma for_more r : 256 < r → blocks_for r = blocks_for 256 + blocks_for (r - 256) ∧ entries_for r = 1 + entries_for (r - 256).
Proof using Hf.
  intros Hr. destruct (per_bsize f Hf) as (Hp & _ & H256). split; [|unfold entries_for; Z.div_mod_to_equations; lia].
  assert (blocks_for 256 = ptrs f) as -> by (symmetry; apply blocks_unique; lia). unfold blocks_for.
  replace (r + per f - 1) with (r - 256 + per f - 1 + ptrs f * per f) by lia. rewrite Z.div_add by lia. lia.
Qed.

Section Adding.
Context (name buf : list Z) (records : Z) (im0 : img_t).
Context (Hname : length name = 11%nat) (H7 : low7 name = name).
Context (Hrec : 0 <= records <= 256 * 4096) (Hbuf : length buf = Z.to_nat (records * 128)).

(** The entries [es] of the file are in place; nothing else has changed. *)
Record growing (im : img_t) (es : list Z) : Prop := {
  gr_core : core_ok im;
  gr_whole : all_whole im;
  gr_alloc b : b ∈ im_alloc im0 → b ∈ im_alloc im;
  gr_block b : data_block f b → b ∈ im_alloc im0 → same_block f b (im_data im0) (im_data im);
  gr_other e : valid f e → same_entry f e (im_data im0) (im_data im) ∨ (ebyte f (im_data im0) e 0 = 0xE5 ∧ In e es);
  gr_parts : parts (im_data im) name buf records es
}.

(** One turn of the loop: entry [e], [n] records in [m] blocks. *)
Lemma grow im es e im' m :
  let k := Z.of_nat (length es) in let n := part_size records k in
  growing im es → valid f e → ebyte f (im_data im) e 0 = 0xE5 → k < 4096 → 0 <= n → n <= m * per f → m <= ptrs f →
  filled buf e (256 * k) n 0 m (put_new name n k e im) im' → growing im' (es ++ [e]).
Proof using Hf Hname H7 Hrec Hbuf.
  intros k n [Hc Hw Hal Hbl Hot [Hpa Hall]] He Hfree Hk Hn Hm Hmp Hfill. assert (n <= 256) as Hn256 by (unfold n, part_size; lia).
  destruct (new_entry_spec name n k e im Hc He Hfree Hname ltac:(lia) ltac:(lia)) as (N1 & N2 & N3 & N4 & N5).
  set (im1 := put_new name n k e im) in *. pose proof Hfill as (F1 & F2 & F3 & F4 & F5 & _ & F7). cbv zeta in *. rewrite N2 in F2, F5.
  assert (∀ e', valid f e' → e' ≠ e → same_entry f e' (im_data im) (im_data im')) as Hs by (intros; eapply same_entry_trans; auto).
  assert (∀ b, data_block f b → b ∈ im_alloc im → same_block f b (im_data im) (im_data im')) as Hb by (intros; eapply same_block_trans; auto).
  pose proof (is_part_head _ _ name k n e F4 N5) as Hpart. pose proof Hpart as (P0 & _ & _ & Pr).
  constructor; [done| |auto| | |].
  - intros e' He' H0. destruct (decide (e' = e)) as [->|Hne].
    + unfold whole. rewrite Pr. split; [lia|]. intros i Hi Hlt. apply (data_names f Hf). apply F7.
      destruct (per_bsize f Hf) as (? & _ & _). nia.
    + apply (same_whole e' (im_data im)); [by apply Hs|]. apply Hw; [done|]. by rewrite <- (Hs e' He' Hne 0) by lia.
  - intros b Hb1 Hb2. eapply same_block_trans; [by apply Hbl|apply Hb; auto].
  - intros e' He'. destruct (decide (e' = e)) as [->|Hne].
    + destruct (Hot e He) as [Hsame|[H0 Hin]]; right; (split; [|apply in_or_app; right; by left]); [|done]. by rewrite <- Hsame by lia.
    + destruct (Hot e' He') as [Hsame|[H0 Hin]]; [left; eapply same_entry_trans; [exact Hsame|by apply Hs]|right; split; [done|apply in_or_app; by left]].
  - split.
    + intros j e' [Hj|[Hlen Hj]]%lookup_app_Some.
      * destruct (Hpa j e' Hj) as [He' [Hip Hr]]. split; [done|]. destruct Hip as (Q0 & Q1 & Q2 & Q3).
        assert (e' ≠ e) as Hne by (intros ->; rewrite Q0 in Hfree; done). pose proof (Hs e' He' Hne) as Hse.
        split; [apply (is_part_head (im_data im)); [intros i Hi; apply Hse; lia|done]|]. intros r Hrr. rewrite <- Hr by done.
        apply (record_kept im (im_data im')); try done.
        -- unfold live. by rewrite Q0.
        -- by apply Hw.
        -- by rewrite Q3.
      * apply list_lookup_singleton_Some in Hj as [Hj <-]. assert (j = length es) as -> by lia. split; [done|]. split; [done|].
        intros r Hr. change (part_size records (Z.of_nat (length es))) with n in Hr. change (Z.of_nat (length es)) with k.
        apply (filled_record buf e (256 * k) n m im1 im' r); try done; [lia|]. rewrite Hbuf. unfold n, part_size. lia.
    + intros e' He' Hm'. apply in_or_app. destruct (decide (e' = e)) as [->|Hne]; [right; by left|left]. apply Hall; [done|].
      by rewrite <- (same_matches e' _ _ name (Hs e' He' Hne)).
Qed.

Lemma add_loop_spec fuel : ∀ im es, growing im es → let k := Z.of_nat (length es) in k = 0 ∨ 256 * k < records →
  records < 256 * (k + Z.of_nat fuel) →
  match add_loop fuel name buf records (256 * k) k im with
  | Done im' => (∃ es', growing im' es' ∧ es' ≠ [] ∧ 256 * (Z.of_nat (length es') - 1) <= records <= 256 * Z.of_nat (length es')) ∧
      room im' + blocks_for (records - 256 * k) = room im ∧ entry_room im' + entries_for (records - 256 * k) = entry_room im
  | Died ImageFull => room im < blocks_for (records - 256 * k)
  | Died DirectoryFull => entry_room im < entries_for (records - 256 * k)
  | _ => False
  end.
Proof using Hf Hname H7 Hrec Hbuf.
  induction fuel as [|fuel IH]; intros im es Hg k Hk Hfu; [destruct Hk; lia|]. cbn [add_loop].
  assert ((if per_entry <? records - 256 * k then per_entry else records - 256 * k) = part_size records k) as ->.
  { unfold part_size, per_entry. destruct (Z.ltb_spec 256 (records - 256 * k)); lia. }
  set (n := part_size records k). pose proof (gr_core im es Hg) as Hc. pose proof (free_spec im (co_fmt im Hc)) as Hfree.
  set (left := records - 256 * k) in *.
  assert (1 <= entries_for left) as He1 by (unfold entries_for; lia).
  destruct (free_entry im) as [e|m|]; [|destruct Hfree as [-> Hfree]; cbn [andThen]; rewrite (no_entry_room im Hfree); lia|done].
  destruct Hfree as [He H0]. cbn [andThen].
  rewrite (co_fmt im Hc). change (set_data (dput (entry_off f e) (new_entry name n k)) im) with (put_new name n k e im).
  set (m := Z.quot (n * 128 + f_bsize f - 1) (f_bsize f)). assert (0 <= n <= 256) as Hn by (unfold n, part_size; lia).
  destruct (fo_bsize f Hf) as [Hb0 Hb32]. destruct (per_bsize f Hf) as (Hp0 & Hbp & _).
  assert (n * 128 <= m * f_bsize f ∧ m * f_bsize f < n * 128 + f_bsize f ∧ 0 <= m) as (Hm1 & Hm2 & Hm0).
  { unfold m. rewrite Z.quot_div_nonneg by lia. pose proof (Z.div_mod (n * 128 + f_bsize f - 1) (f_bsize f)).
    pose proof (Z.mod_pos_bound (n * 128 + f_bsize f - 1) (f_bsize f) Hb0). split_and!; [nia|nia|]. apply Z.div_pos; lia. }
  assert (m <= ptrs f) as Hmp by nia. assert (n <= m * per f) as Hmn by nia.
  assert (m = blocks_for n) as Em by (apply blocks_unique; nia).
  assert (left <= 256 → n = left) as Hlast by (unfold n, part_size, left; lia).
  assert (256 < left → n = 256 ∧ blocks_for left = m + blocks_for (left - 256) ∧ entries_for left = 1 + entries_for (left - 256)) as Hmore.
  { intros Hl. assert (n = 256) as E by (unfold n, part_size, left in *; lia). split; [done|]. rewrite Em, E. apply for_more. done. }
  destruct (new_entry_spec name n k e im Hc He H0 Hname Hn ltac:(lia)) as (N1 & N2 & N3 & _ & N5).
  pose proof (fill_spec buf e (256 * k) n (Z.to_nat m) 0 (put_new name n k e im) N1 He (proj1 N5) ltac:(lia) ltac:(lia)) as Hfs.
  assert (room (put_new name n k e im) = room im) as Hr1 by (unfold room, free_blocks; by rewrite N2).
  rewrite Hr1, Z2Nat.id in Hfs by done.
  destruct (fill_blocks _ _ _ _ _ _) as [im'|msg|]; [|destruct Hfs as [-> Hfs]|done]; cycle 1.
  { cbn [andThen]. destruct (Z.leb_spec left 256); [rewrite (Hlast ltac:(lia)) in Em; lia|]. pose proof (Hmore ltac:(lia)).
    pose proof (blocks_nonneg (left - 256)). lia. }
  cbn [andThen]. destruct Hfs as [Hfs Hr2].
  assert (entry_room im' + 1 = entry_room im) as He2.
  { apply (size_less _ _ e); [by apply elem_free_entries|]. destruct Hfs as (_ & _ & Fs & F16 & _). intros e'. rewrite !elem_free_entries.
    destruct (decide (e' = e)) as [->|Hne].
    - rewrite F16, (proj1 N5) by lia. split; [intros [_ ?]; lia|tauto].
    - assert (valid f e' → ebyte f (im_data im') e' 0 = ebyte f (im_data im) e' 0) as Heq.
      { intros Hv. by rewrite (Fs e' Hv Hne 0), (N3 e' Hv Hne 0) by lia. }
      split; [intros [Hv E]; rewrite Heq in E by done; done|intros [[Hv E] _]; by rewrite Heq]. }
  assert (k < 4096) as Hk4 by lia. pose proof (grow im es e im' m Hg He H0 Hk4 (proj1 Hn) Hmn Hmp Hfs) as Hg'.
  assert (Z.of_nat (length (es ++ [e])) = k + 1) as Hlen by (rewrite length_app; cbn; lia).
  destruct (Z.ltb_spec (256 * k + n) records) as [Hlt|Hge].
  - assert (n = 256) as En by (unfold n, part_size in *; lia). specialize (IH im' (es ++ [e]) Hg'). cbv zeta in IH. rewrite Hlen in IH.
    destruct (Hmore ltac:(lia)) as (_ & M1 & M2). replace (256 * k + n) with (256 * (k + 1)) by lia.
    replace (records - 256 * (k + 1)) with (left - 256) in IH by lia. specialize (IH ltac:(lia) ltac:(lia)).
    destruct (add_loop _ _ _ _ _ _ _) as [im''|[]|]; try done; [|lia|lia]. destruct IH as (IH & ? & ?). split; [done|lia].
  - assert (left <= 256) as Hl by (unfold n, part_size, left in *; lia). rewrite (Hlast Hl) in Em.
    assert (entries_for left = 1) as He3 by (unfold entries_for, left; Z.div_mod_to_equations; lia).
    split; [|lia]. exists (es ++ [e]). split; [done|]. split; [by destruct es|]. rewrite Hlen. destruct Hk; unfold n, part_size in *; lia.
Qed.
End Adding.
End Writes.

(** ** The file system as a map *)

Definition img_ok (im : img_t) : Prop := fmt_ok (im_f im) ∧ core_ok (im_f im) im ∧ all_whole (im_f im) im.
(** An 8.3 name of seven-bit characters, as the directory stores it. *)
Definition cpm_name (name : list Z) : Prop := length name = 11%nat ∧ low7 name = name.
(** A file's records. *)
Definition records_of (bytes : list Z) : list (list Z) :=
  map (record_of (padded bytes)) (zseq 0 (Z.to_nat (record_count (Z.of_nat (length bytes))))).
Definition small (bytes : list Z) : Prop := Z.of_nat (length bytes) < 2 ^ 26.

Lemma small_count bytes : small bytes → let n := Z.of_nat (length bytes) in
  0 <= record_count n <= 256 * 2048 ∧ 0 <= record_count n * 128 - n < 128.
Proof.
  intros Hs n. unfold small, record_count, u32 in *. assert (0 <= n < 67108864) as Hn by (unfold n; change (2 ^ 26) with 67108864 in Hs; lia).
  rewrite Z.quot_div_nonneg by lia. rewrite Z.mod_small; Z.div_mod_to_equations; lia.
Qed.
Lemma length_padded bytes : small bytes → length (padded bytes) = Z.to_nat (record_count (Z.of_nat (length bytes)) * 128).
Proof. intros Hs. unfold padded. rewrite length_app, length_replicate. pose proof (small_count bytes Hs). cbv zeta in *. lia. Qed.
(** A file read back is the file, filled up with ^Z. *)
Lemma concat_records bytes : small bytes → concat (records_of bytes) = padded bytes.
Proof.
  intros Hs. unfold records_of. pose proof (length_padded bytes Hs) as Hl. pose proof (small_count bytes Hs) as Hc. cbv zeta in Hc. destruct Hc as [Hc _].
  set (n := record_count (Z.of_nat (length bytes))) in *. generalize dependent (padded bytes). clear Hs. intros buf Hl.
  assert (Hall : ∀ k, (k <= Z.to_nat n)%nat → concat (map (record_of buf) (zseq 0 k)) = take (k * 128) buf).
  { induction k as [|k IH]; intros Hk; [done|]. rewrite zseq_snoc, map_app, concat_app, IH by lia. cbn [map concat]. rewrite app_nil_r.
    unfold record_of. replace (S k * 128)%nat with (k * 128 + 128)%nat by lia. rewrite <- take_take_drop. do 3 f_equal. lia. }
  rewrite Hall by lia. apply firstn_all2. lia.
Qed.

Lemma kept_beyond f (Hf : fmt_ok f) im name n' records buf es im' :
  let im0 := delete_file name im in core_ok f im → all_whole f im → cpm_name name → n' ≠ name →
  growing f name buf records im0 im' es → kept f n' (im_data im) (im_data im').
Proof.
  intros im0 Hc Hw [_ H7] Hne Hg e He. destruct (delete_spec f Hf name im Hc) as (Hc0 & _ & Hb0 & _ & Hs0). fold im0 in Hc0, Hb0, Hs0.
  specialize (Hs0 e He). destruct Hg as [_ _ _ Hgb Hgo [Hgp _]].
  assert (∀ d, matches f d name e = true → matches f d n' e = false) as Hdiff.
  { intros d. unfold matches, name_eq. intros [-> Hn%bool_decide_eq_true]%andb_true_iff. rewrite andb_true_l. apply bool_decide_eq_false. congruence. }
  assert (same_entry f e (im_data im) (im_data im0) → same_entry f e (im_data im0) (im_data im') →
    matches f (im_data im') n' e = matches f (im_data im) n' e ∧ (matches f (im_data im) n' e = true → same_entry f e (im_data im) (im_data im') ∧
      ∀ r, 0 <= r < entry_records f (im_data im) e → entry_record f (im_data im') e r = entry_record f (im_data im) e r)) as Hboth.
  { intros S1 S2. pose proof (same_entry_trans f e _ _ _ S1 S2) as S3. split; [by apply same_matches|]. intros Hm. split; [done|].
    intros r Hr. destruct (matches_live f _ _ _ Hm) as [Hl H0]. transitivity (entry_record f (im_data im0) e r).
    - apply (record_kept f Hf im0); [done|done| |apply (delete_whole f Hf name im Hc Hw e He); by rewrite S1 by lia|done|exact Hgb|by rewrite (same_records f e _ _ S1)].
      unfold live in *. by rewrite S1 by lia.
    - apply (record_kept f Hf im); [done|done|done|by apply Hw|done|by intros; apply Hb0|done]. }
  destruct (matches f (im_data im) name e) eqn:Hm.
  - pose proof (Hdiff _ Hm) as Hf1. destruct Hs0 as [E|S1].
    + rewrite Hf1. split; [|done]. destruct (Hgo e He) as [S2|[_ Hin]]; [apply erased_unmatched; by rewrite S2 by lia|].
      apply list_elem_of_In, list_elem_of_lookup in Hin as [j Hj]. destruct (Hgp j e Hj) as [_ Hok]. by apply Hdiff, (part_matches f _ name buf _ _ e H7 Hok).
    + destruct (Hgo e He) as [S2|[E _]]; [by apply Hboth|]. rewrite S1 in E by lia. rewrite (erased_unmatched f _ name e E) in Hm. done.
  - destruct (Hgo e He) as [S2|[E Hin]]; [by apply Hboth|]. rewrite Hs0 in E by lia.
    rewrite (erased_unmatched f _ n' e E). split; [|done]. apply list_elem_of_In, list_elem_of_lookup in Hin as [j Hj].
    destruct (Hgp j e Hj) as [_ Hok]. by apply Hdiff, (part_matches f _ name buf _ _ e H7 Hok).
Qed.

(** Its length in records. *)
Definition count_of (bytes : list Z) : Z := record_count (Z.of_nat (length bytes)).
Lemma add_spec name bytes im : img_ok im → cpm_name name → small bytes →
  (match add_bytes name bytes im with
   | Done im' => img_ok im' ∧ im_f im' = im_f im ∧ stored (im_f im) (im_data im') name = Some (records_of bytes) ∧
       (∀ n', n' ≠ name → stored (im_f im) (im_data im') n' = stored (im_f im) (im_data im) n') ∧
       room (im_f im) im' + blocks_for (im_f im) (count_of bytes) = room (im_f im) (delete_file name im) ∧
       entry_room (im_f im) im' + entries_for (count_of bytes) = entry_room (im_f im) (delete_file name im)
   | Died ImageFull => room (im_f im) (delete_file name im) < blocks_for (im_f im) (count_of bytes)
   | Died DirectoryFull => entry_room (im_f im) (delete_file name im) < entries_for (count_of bytes)
   | _ => False
   end).
Proof.
  intros (Hf & Hc & Hw) Hname Hs. pose proof Hname as [Hn11 H7]. set (f := im_f im) in *. unfold add_bytes, count_of.
  set (records := record_count (Z.of_nat (length bytes))). set (im0 := delete_file name im).
  pose proof (small_count bytes Hs) as Hcount. cbv zeta in Hcount. destruct Hcount as [Hcount _]. fold records in Hcount.
  destruct (delete_spec f Hf name im Hc) as (Hc0 & _ & _ & Hm0 & _). fold im0 in Hc0, Hm0.
  assert (growing f name (padded bytes) records im0 im0 []) as Hg0.
  { constructor; [done|by apply delete_whole|done|done|by left|]. split; [done|]. intros e He Hm. rewrite Hm0 in Hm; [done|by apply valid_entries]. }
  pose proof (add_loop_spec f Hf name (padded bytes) records im0 Hn11 H7 ltac:(lia) (length_padded bytes Hs)
    (S (Z.to_nat (Z.quot records per_entry))) im0 [] Hg0 ltac:(by left)) as Hloop.
  cbn [length] in Hloop. change (256 * Z.of_nat 0) with 0 in Hloop. change (Z.of_nat 0) with 0 in Hloop.
  assert (records < 256 * (0 + Z.of_nat (S (Z.to_nat (Z.quot records per_entry))))) as Hfu.
  { unfold per_entry. rewrite Z.quot_div_nonneg by lia. Z.div_mod_to_equations. lia. }
  specialize (Hloop Hfu). rewrite Z.sub_0_r in Hloop. destruct (add_loop _ _ _ _ _ _ _) as [im'|m|]; [|by destruct m|done].
  destruct Hloop as ((es & Hg & Hne & Hle) & Hr & He). pose proof (gr_core _ _ _ _ _ _ _ Hg) as Hc'. pose proof (co_fmt _ _ Hc') as Ef.
  split_and!; [|done| | |done|done].
  { unfold img_ok. rewrite Ef. split; [done|]. split; [done|by apply (gr_whole _ _ _ _ _ _ _ Hg)]. }
  - apply (stored_parts f Hf _ name (padded bytes) records es H7 (gr_parts _ _ _ _ _ _ _ Hg) Hne Hle). unfold WALK_FUEL. lia.
  - intros n' Hn'. apply (stored_kept f Hf). by apply (kept_beyond f Hf im name n' records (padded bytes) es im').
Qed.

(** The image [im] holds the files [D]. *)
Abbreviation directory := (gmap (list Z) (list (list Z))).
Definition holds (im : img_t) (D : directory) : Prop := ∀ n, low7 n = n → stored (im_f im) (im_data im) n = D !! n.
Fixpoint add_all (fs : list (list Z * list Z)) (im : img_t) : outcome img_t :=
  match fs with [] => Done im | (name, bytes) :: fs => andThen (add_bytes name bytes im) (add_all fs) end.
Definition insert_all (fs : list (list Z * list Z)) (D : directory) : directory :=
  fold_left (λ D p, <[p.1:=records_of p.2]> D) fs D.

(** C14: a disk image is a map from names to files.  On an image whose live
    entries own separate blocks, adding files, one after the other and
    replacing those of the same name, either stops because the image or its
    directory is full, or leaves an image of that kind that holds, under
    every name, what the map with those insertions holds: the records of the
    last file added under it, ^Z up to the last record, and every other file
    as it was.  Names are CP/M names of seven-bit bytes ([cpm_name]) and
    files are smaller than 64 MB ([small]). *)
Theorem files_added fs im D :
  img_ok im → holds im D → Forall (λ p, cpm_name p.1 ∧ small p.2) fs →
  (match add_all fs im with
   | Done im' => im_f im' = im_f im ∧ img_ok im' ∧ holds im' (insert_all fs D) ∧ ∀ p, In p fs → concat (records_of p.2) = padded p.2
   | Died m => m = ImageFull ∨ m = DirectoryFull
   | Lost => False
   end).
Proof.
  intros Hok Hh Hfs. assert (∀ p, In p fs → concat (records_of p.2) = padded p.2) as Hpad.
  { intros p Hp. apply concat_records. rewrite Forall_forall in Hfs. apply (Hfs p). by apply list_elem_of_In. }
  cut (match add_all fs im with Done im' => im_f im' = im_f im ∧ img_ok im' ∧ holds im' (insert_all fs D) | Died m => m = ImageFull ∨ m = DirectoryFull | Lost => False end).
  { destruct (add_all fs im); [|done|done]. intros (? & ? & ?). by split_and!. }
  clear Hpad. revert im D Hok Hh. induction Hfs as [|[name bytes] fs [Hn Hs] _ IH]; intros im D Hok Hh; [done|]. cbn [add_all insert_all fold_left fst snd].
  pose proof (add_spec name bytes im Hok Hn Hs) as Ha. destruct (add_bytes name bytes im) as [im1|[]|]; try done; [|by left|by right].
  destruct Ha as (Hok1 & Ef & Hst & Hot & _). cbn [andThen]. rewrite <- Ef. apply (IH im1); [done|]. intros n Hn7. rewrite Ef.
  destruct (decide (n = name)) as [->|Hne]; [by rewrite lookup_insert_eq|]. rewrite lookup_insert_ne by done. rewrite Hot by done. by apply Hh.
Qed.

(** C39: when an image is full.  Once the old file of the name is deleted,
    adding succeeds exactly when the free blocks and the free directory
    entries are as many as the file's records need, and then takes just
    those; otherwise it stops with one of the two messages. *)
Theorem full_exactly name bytes im :
  img_ok im → cpm_name name → small bytes →
  let f := im_f im in let old := delete_file name im in
  let enough := blocks_for f (count_of bytes) <= room f old ∧ entries_for (count_of bytes) <= entry_room f old in
  (enough ↔ ∃ im', add_bytes name bytes im = Done im') ∧
  (¬ enough → add_bytes name bytes im = Died ImageFull ∨ add_bytes name bytes im = Died DirectoryFull) ∧
  ∀ im', add_bytes name bytes im = Done im' →
    room f im' = room f old - blocks_for f (count_of bytes) ∧ entry_room f im' = entry_room f old - entries_for (count_of bytes).
Proof.
  intros Hok Hn Hs f old enough. pose proof (add_spec name bytes im Hok Hn Hs) as Ha. fold f old in Ha.
  assert (∀ i, 0 <= room f i ∧ 0 <= entry_room f i) as Hpos by (intros; unfold room, entry_room; lia).
  destruct (add_bytes name bytes im) as [im'|[]|]; try done.
  - destruct Ha as (_ & _ & _ & _ & Hr & He). destruct (Hpos im'). split_and!.
    + split; [intros _; by exists im'|intros _; split; lia].
    + intros Hne. exfalso. apply Hne. split; lia.
    + intros im'' [= <-]. lia.
  - split_and!; [split; [intros []; lia|by intros [? ?]]|auto|done].
  - split_and!; [split; [intros []; lia|by intros [? ?]]|auto|done].
Qed.

(** ** Images on the host *)

Lemma load_alloc_spec f (Hf : fmt_ok f) d b : b ∈ load_alloc f d ↔ 0 <= b < dir_blocks f ∨ ∃ e, owns f d e b.
Proof.
  unfold load_alloc.
  assert (∀ es used, b ∈ fold_left (λ used e, if (ebyte f d e 0 =? 0xE5) || (15 <? ebyte f d e 0) then used else mark_used f (pointers f d e) used) es used
    ↔ b ∈ used ∨ ∃ e, In e es ∧ live f d e = true ∧ In b (pointers f d e) ∧ names_block f b = true) as Hfold.
  { induction es as [|e es IH]; intros used; cbn [fold_left In]; [split; [auto|intros [?|(? & [] & _)]; done]|]. rewrite IH. clear IH.
    destruct ((ebyte f d e 0 =? 0xE5) || (15 <? ebyte f d e 0)) eqn:El.
    - assert (live f d e = false) as Hl by (unfold live; by rewrite El). split; [intros [?|(e' & ? & ?)]; [by left|right; exists e'; auto]|].
      intros [?|(e' & [<-|?] & Hl' & ?)]; [by left|congruence|right; by exists e'].
    - assert (live f d e = true) as Hl by (unfold live; by rewrite El). rewrite mark_used_spec. split.
      + intros [[?|?]|(e' & ? & ?)]; [by left|right; exists e; auto|right; exists e'; auto].
      + intros [?|(e' & [<-|?] & ? & ?)]; [by left; left|left; right; auto|right; by exists e']. }
  rewrite Hfold, elem_of_list_to_set, list_elem_of_In, elem_of_zseq. pose proof (fo_dsm f Hf).
  split; (intros [?|(e & He)]; [left; lia|right; exists e]).
  - destruct He as (He%(valid_entries f Hf) & ? & ?). by split.
  - destruct He as (He & ? & ?). by rewrite (valid_entries f Hf).
Qed.

(** An image of the same bytes, its blocks marked afresh. *)
Lemma same_image im f d' D : img_ok im → im_f im = f → holds im D →
  (∀ x, 0 <= x < f_size f → dget d' x = dget (im_data im) x) →
  img_ok (mk_img f d' (load_alloc f d')) ∧ holds (mk_img f d' (load_alloc f d')) D.
Proof.
  intros (Hf & Hc & Hw) Ef Hh Hd. rewrite Ef in *. pose proof (fo_size f Hf) as [Hs0 Hs1]. pose proof (fo_bsize f Hf). pose proof (fo_dsm f Hf). pose proof (fo_drm f Hf).
  assert (∀ e, valid f e → same_entry f e (im_data im) d') as Hse.
  { intros e He j Hj. apply Hd. unfold valid, entry_off, block_off in *. nia. }
  assert (∀ b, data_block f b → same_block f b (im_data im) d') as Hsb.
  { intros b Hb x Hx. apply Hd. split; [|by apply (in_size f Hf b)]. unfold data_block, in_block, block_off in *. nia. }
  assert (∀ e b, owns f d' e b ↔ owns f (im_data im) e b) as Hown.
  { intros e b. split; intros Ho; (apply (same_owner f Hf e (im_data im) d'); [apply Hse, Ho|done]). }
  split; [split; [done|split]|].
  - constructor; cbn [im_f im_data im_alloc]; [done| | |].
    + intros b Hb. apply load_alloc_spec; [done|by left].
    + intros e b Ho. split; [by apply (co_used f im Hc e), Hown|]. apply load_alloc_spec; [done|]. right. by exists e.
    + intros e e' b Ho%Hown Ho'%Hown. by apply (co_apart f im Hc e e' b).
  - intros e He Hz. cbn in *. apply (same_whole f Hf e (im_data im)); [by apply Hse|]. apply Hw; [done|]. by rewrite <- (Hse e He 0) by lia.
  - intros n Hn. cbn [im_f im_data]. rewrite <- Hh, Ef by done. apply (stored_kept f Hf). intros e He. split; [apply same_matches; by apply Hse|].
    intros Hm. split; [by apply Hse|]. intros r Hr. destruct (matches_live f _ _ _ Hm) as [Hl Hz]. apply (record_kept f Hf im); [done|done|done|by apply Hw|by apply Hse|by intros; apply Hsb|done].
Qed.

(** A new image holds nothing. *)
Lemma blank_ok f : fmt_ok f → img_ok (mk_img f ∅ (load_alloc f ∅)) ∧ holds (mk_img f ∅ (load_alloc f ∅)) ∅.
Proof.
  intros Hf. assert (∀ e j, ebyte f ∅ e j = 0xE5) as He by done.
  assert (∀ e b, ¬ owns f ∅ e b) as Hno by (intros e b (_ & Hl & _); unfold live in Hl; by rewrite He in Hl).
  split; [split; [done|split]|].
  - constructor; cbn [im_f im_data im_alloc]; [done|intros b Hb; apply load_alloc_spec; [done|by left]| |]; intros; exfalso; by eapply Hno.
  - intros e _ H0. cbn in H0. by rewrite He in H0.
  - intros n _. rewrite lookup_empty. unfold stored. cbn [im_f im_data]. replace (existsb _ _) with false; [done|]. symmetry. apply not_true_iff_false.
    intros (e & _ & Hfe)%existsb_exists. rewrite first_matches, (erased_unmatched f ∅ n e) in Hfe; [done|apply He].
Qed.

Section Saved.
Context {F : Type} `{FsLaws F}.

Definition std (f : fmt_t) : Prop := f = FMT_FD ∨ f = FMT_HD.
Lemma std_ok f : std f → fmt_ok f.
Proof using Type. intros [-> | ->]; [apply fd_ok|apply hd_ok]. Qed.
Lemma std_size f : std f → fmt_for_size (f_size f) = Some f ∧ 0 <= f_size f.
Proof using Type. by intros [-> | ->]. Qed.

Lemma splice_all bs : splice 0 bs [] = bs.
Proof using Type. unfold splice. cbn. by rewrite drop_nil, app_nil_r. Qed.

(** C37: a saved image loads back.  Reading the file [img_save] wrote gives
    an image of the same format, sound, that holds the same files. *)
Theorem saved_image im path (h h1 h2 : F) D fp n c :
  std (im_f im) → img_ok im → holds im D →
  img_save im path h = (Done tt, h1) → fopen ROnly path h1 = (Some fp, h2) → fsize fp h2 = Some n →
  ∃ im' h3, img_load path c h1 = (Done im', h3) ∧ im_f im' = im_f im ∧ img_ok im' ∧ holds im' D.
Proof using All.
  intros Hstd Hok Hh Hsave Ho Hsize. destruct (std_size _ Hstd) as [Hfs Hs0]. set (f := im_f im) in *.
  set (bytes := dread 0 (Z.to_nat (f_size f)) (im_data im)). assert (length bytes = Z.to_nat (f_size f)) as Hl by apply length_dread.
  assert (∃ i, names (view h1) !! path = Some i ∧ files (view h1) !! i = Some bytes) as (i & Hn & Hi).
  { unfold img_save in Hsave. fold f bytes in Hsave. destruct (fopen WPlus path h) as [[fp0|] h0] eqn:Eo; [|done].
    destruct (fopen_some _ _ _ _ _ Eo) as (_ & i & Hst & Hn & _ & _ & Hfl). exists i.
    assert (streams (view h0) !! fp0 = Some (i, 0%nat)) as Hs by (rewrite Hst; apply lookup_insert_eq).
    assert (files (view h0) !! i = Some []) as Hf0 by (rewrite Hfl; apply lookup_insert_eq).
    destruct (fwrite_view fp0 bytes h0 i 0 [] Hs Hf0) as [_ Hv]. destruct (fwrite fp0 bytes h0) as [m h0']. cbn [fst snd] in *.
    destruct (Z.of_nat m =? f_size f) eqn:Em; [|done]. apply Z.eqb_eq in Em. injection Hsave as <-. rewrite fclose_view. cbn [names files]. rewrite Hv. cbn [names files].
    assert (m = length bytes) as -> by lia. split; [done|]. rewrite firstn_all, splice_all.
    destruct (Nat.eqb_spec (length bytes) 0); [|apply lookup_insert_eq]. rewrite Hf0. f_equal. symmetry. by apply nil_length_inv. }
  destruct (fopen_some _ _ _ _ _ Ho) as (_ & i' & Hst & _ & _ & Hn' & _ & Hfl). assert (i' = i) as -> by congruence.
  assert (streams (view h2) !! fp = Some (i, 0%nat)) as Hs2 by (rewrite Hst; apply lookup_insert_eq). rewrite <- Hfl in Hi.
  pose proof (fsize_view _ _ _ _ _ Hs2 Hi n Hsize) as ->. unfold img_load. rewrite Ho, Hsize. cbn [default from_option id].
  assert (Z.of_nat (length bytes) = f_size f) as Hlz by lia. rewrite Hlz, Hfs. pose proof (fseek_view fp 0 h2 i 0 Hs2 ltac:(lia)) as Hv.
  destruct (fseek fp 0 h2) as [ok h3]. cbn [fst snd] in Hv.
  assert (streams (view h3) !! fp = Some (i, 0%nat) ∧ files (view h3) !! i = Some bytes) as [Hs3 Hi3].
  { rewrite Hv. destruct ok; [|done]. cbn. split; [apply lookup_insert_eq|done]. }
  destruct (fread_view fp (Z.to_nat (f_size f)) h3 i 0 bytes Hs3 Hi3) as [Hbs _]. destruct (fread fp _ h3) as [bs h4]. cbn [fst] in Hbs.
  rewrite drop_0, firstn_all2 in Hbs by lia. subst bs. rewrite Hlz, Z.eqb_refl. cbn [negb].
  destruct (same_image im f (dput 0 bytes ∅) D Hok eq_refl Hh) as [Hok' Hh'].
  { intros x Hx. rewrite dget_dput, decide_True by lia. rewrite Z.sub_0_r. unfold bytes. rewrite dread_lookup by lia. cbn. f_equal. lia. }
  eexists _, _. split; [reflexivity|]. by split.
Qed.

End Saved.

Definition ascii7 (l : list Z) : Prop := Forall (λ c, 0 <= c < 128) l.
Lemma ascii7_low7 l : ascii7 l → low7 l = l.
Proof.
  intros Hl. unfold low7. induction Hl as [|c l Hc Hl IH]; [done|]. cbn [map]. rewrite IH. f_equal.
  change 0x7F with (Z.ones 7). rewrite Z.land_ones by lia. by apply Z.mod_small.
Qed.
Section Extracted.
Context {F : Type} `{FsHealth F}.

(** Writing records one after the other. *)
Lemma write_records fp i rs : ∀ h d, healthy h → streams (view h) !! fp = Some (i, length d) → files (view h) !! i = Some d →
  let h' := fold_left (λ h r, (fwrite fp r h).2) rs h in
  healthy h' ∧ names (view h') = names (view h) ∧ files (view h') !! i = Some (d ++ concat rs).
Proof using Type.
  induction rs as [|r rs IH]; intros h d Hh Hs Hd; cbn [fold_left concat]; [by rewrite app_nil_r|].
  destruct (healthy_write fp r h Hh (mk_is_Some _ _ Hs)) as [Hn Hh1]. destruct (fwrite_view fp r h i _ d Hs Hd) as [_ Hv].
  rewrite Hn in Hv. destruct (fwrite fp r h) as [n h1]. cbn [fst snd] in *. rewrite firstn_all in Hv.
  assert (splice (length d) r d = d ++ r) as Esp.
  { unfold splice. rewrite Nat.sub_diag. cbn [replicate]. rewrite app_nil_r, firstn_all, drop_ge by lia. by rewrite app_nil_r. }
  rewrite Esp in Hv. destruct (IH h1 (d ++ r) Hh1) as (H2 & H3 & H4).
  - rewrite Hv. cbn. rewrite lookup_insert_eq, length_app. done.
  - rewrite Hv. cbn. destruct (Nat.eqb_spec (length r) 0) as [E|E]; [|apply lookup_insert_eq].
    apply nil_length_inv in E. subst r. by rewrite app_nil_r.
  - split; [done|]. rewrite H3, H4, Hv. split; [done|]. by rewrite <- app_assoc.
Qed.

(** What [extract] does with a name the image holds. *)
Lemma extract_stored im name rs outdir (h : F) :
  img_ok im → cpm_name name → stored (im_f im) (im_data im) name = Some rs → healthy h →
  let path := take 1023 (outdir ++ [SLASH] ++ host_name name) in
  (match extract im (Some name) outdir h with
   | (Done _, h') => ∃ i, names (view h') !! path = Some i ∧ files (view h') !! i = Some (concat rs)
   | (Died m, _) => m = CannotWrite
   | (Lost, _) => False
   end).
Proof using Type.
  intros (Hf & Hc & Hw) [_ H7] Hh Hhe path. unfold stored in Hh. set (f := im_f im) in *.
  unfold extract. fold f. destruct (existsb _ _) eqn:Ee; [|done]. apply existsb_exists in Ee as (e0 & He0 & Hf0).
  destruct (walk WALK_FUEL f (im_data im) name 0) as [l|m|] eqn:Ew; [|done|done]. injection Hh as ->.
  set (es := List.filter _ _). assert (es ≠ []) as Hne.
  { intros E. pose proof (proj2 (filter_In (first_entry f (im_data im) (Some name)) e0 (entries f)) (conj He0 Hf0)) as Hin. fold es in Hin. by rewrite E in Hin. }
  assert (∀ e, In e es → low7 (entry_name f (im_data im) e) = name) as Hall.
  { intros e [_ Hfe]%filter_In. rewrite first_matches in Hfe. apply andb_true_iff in Hfe as [Hm _]. unfold matches, name_eq in Hm.
    apply andb_true_iff in Hm as [_ Hn]. by apply bool_decide_eq_true in Hn. }
  clearbody es. clear He0 Hf0 e0. revert h Hhe Hne Hall. induction es as [|e es IH]; intros h Hhe Hne Hall; [done|]. cbn [extract_loop].
  unfold extract_entry at 1. fold f. rewrite (Hall e) by by left. fold path. pose proof (healthy_fopen WPlus path h Hhe) as Hh1.
  destruct (fopen WPlus path h) as [[fp|] h1] eqn:Eo; [|done]. cbn [snd] in Hh1. rewrite Ew.
  destruct (fopen_some _ _ _ _ _ Eo) as (_ & i & Hst & Hn & _ & _ & Hfl).
  assert (streams (view h1) !! fp = Some (i, length (@nil Z))) as Hs by (rewrite Hst; apply lookup_insert_eq).
  assert (files (view h1) !! i = Some []) as Hi by (rewrite Hfl; apply lookup_insert_eq).
  destruct (write_records fp i rs h1 [] Hh1 Hs Hi) as (Hh2 & Hn2 & Hf2). set (h2 := fold_left _ rs h1) in *.
  destruct es as [|e' es]; [|apply IH; [by apply healthy_close|done|intros; apply Hall; by right]].
  cbn [extract_loop]. exists i. rewrite fclose_view. cbn. by rewrite Hn2.
Qed.

(** A part of a file name: printable seven-bit characters, no blank. *)
Definition name_part (n : nat) (s : list Z) : Prop := (length s <= n)%nat ∧ Forall (λ c, 0x20 < c < 0x80) s.
(** The eleven bytes of a directory entry, and the name on the host. *)
Definition entry_form (stem ext : list Z) : list Z :=
  stem ++ replicate (8 - length stem) 0x20 ++ ext ++ replicate (3 - length ext) 0x20.
Definition dotted (stem ext : list Z) : list Z := if decide (ext = []) then stem else stem ++ str "." ++ ext.

Lemma entry_form_cpm stem ext : name_part 8 stem → name_part 3 ext → cpm_name (entry_form stem ext).
Proof using Type.
  intros [Hs Hs7] [He He7]. unfold entry_form. split; [rewrite !length_app, !length_replicate; lia|].
  apply ascii7_low7. unfold ascii7. rewrite !Forall_app. split_and!; try (apply Forall_replicate; lia); eapply Forall_impl; eauto; cbn; lia.
Qed.
Lemma to_space_part s k : Forall (λ c, 0x20 < c < 0x80) s → to_space (s ++ replicate k 0x20) = s.
Proof using Type.
  induction 1 as [|c s Hc _ IH]; cbn [app to_space]; [by destruct k|].
  destruct (Z.eqb_spec c SPACE) as [->|]; [unfold SPACE in Hc; lia|by rewrite IH].
Qed.
Lemma to_nul_part s : Forall (λ c, 0 < c) s → to_nul s = s.
Proof using Type. induction 1 as [|c s Hc _ IH]; cbn [to_nul]; [done|]. destruct (Z.eqb_spec c 0); [lia|by rewrite IH]. Qed.
Lemma host_name_form stem ext : name_part 8 stem → name_part 3 ext → host_name (entry_form stem ext) = dotted stem ext.
Proof using Type.
  intros [Hs Hs7] [He He7]. unfold host_name, entry_form. rewrite (app_assoc stem).
  assert (length (stem ++ replicate (8 - length stem) 0x20) = 8%nat) as Hl by (rewrite length_app, length_replicate; lia).
  assert (∀ t, take 8 ((stem ++ replicate (8 - length stem) 0x20) ++ t) = stem ++ replicate (8 - length stem) 0x20) as -> by (intros t; by apply take_app_length').
  assert (∀ t, drop 8 ((stem ++ replicate (8 - length stem) 0x20) ++ t) = t) as -> by (intros t; by apply drop_app_length').
  rewrite (to_space_part stem), app_nth2, Hl by (done || lia). change (8 - 8)%nat with 0%nat. unfold dotted.
  assert (Forall (λ c, 0 < c) stem) as Hp by (eapply Forall_impl; [done|cbn; lia]).
  destruct ext as [|c ext]; cbn [app length replicate nth Nat.sub].
  - cbn. rewrite app_nil_r. by apply to_nul_part.
  - rewrite decide_False by done. inversion_clear He7 as [|? ? Hc He7'].
    destruct (Z.eqb_spec c SPACE) as [->|]; [unfold SPACE in Hc; lia|]. cbn [negb].
    rewrite (app_comm_cons ext), (to_space_part (c :: ext)) by (by constructor). apply to_nul_part.
    apply Forall_app. split; [done|]. constructor; [by vm_compute|]. constructor; [lia|]. eapply Forall_impl; [done|cbn; lia].
Qed.

Lemma add_all_keeps fs im im' n : img_ok im → Forall (λ p, cpm_name p.1 ∧ small p.2) fs → (∀ p, In p fs → p.1 ≠ n) →
  add_all fs im = Done im' → img_ok im' ∧ im_f im' = im_f im ∧ stored (im_f im) (im_data im') n = stored (im_f im) (im_data im) n.
Proof using Type.
  intros Hok Hfs. revert im Hok. induction Hfs as [|[name bytes] fs [Hn Hs] _ IH]; intros im Hok Hne; cbn [add_all fst snd].
  { by intros [= <-]. }
  pose proof (add_spec name bytes im Hok Hn Hs) as Ha. destruct (add_bytes name bytes im) as [im1|m|]; [|done|done]. cbn [andThen].
  destruct Ha as (Hok1 & Ef & _ & Hot & _). intros E. destruct (IH im1 Hok1 (λ p Hp, Hne p (or_intror Hp)) E) as (Hok2 & Ef2 & Hk).
  split_and!; [done|congruence|]. rewrite Ef in Hk. rewrite Hk. apply Hot. intros ->. by apply (Hne (name, bytes) ltac:(by left)).
Qed.

(** C38: a file added comes out again.  After a file, and any others of other
    names, have been added to a sound image, [extract] of its name writes, on
    a host without faults, under the directory and NAME.EXT, or NAME where
    there is no extension, exactly the file's bytes filled up with ^Z to a
    multiple of 128, or stops because that file cannot be opened; it never
    reads outside the image. *)
Theorem extracted im im' stem ext bytes fs outdir (h : F) :
  img_ok im → name_part 8 stem → name_part 3 ext → small bytes →
  Forall (λ p, cpm_name p.1 ∧ small p.2 ∧ p.1 ≠ entry_form stem ext) fs →
  add_all ((entry_form stem ext, bytes) :: fs) im = Done im' →
  (length outdir < 1000)%nat → healthy h →
  (match extract im' (Some (entry_form stem ext)) outdir h with
   | (Done _, h') => ∃ i fill,
       names (view h') !! (outdir ++ str "/" ++ dotted stem ext) = Some i ∧
       files (view h') !! i = Some (bytes ++ replicate fill 0x1A) ∧
       (fill < 128)%nat ∧ (Z.of_nat (length bytes) + Z.of_nat fill) mod 128 = 0
   | (Died m, _) => m = CannotWrite
   | (Lost, _) => False
   end).
Proof using Type.
  intros Hok Hst Hex Hs Hfs Hadd Hlen Hh. set (name := entry_form stem ext) in *. pose proof (entry_form_cpm stem ext Hst Hex) as Hn. fold name in Hn.
  cbn [add_all fst snd] in Hadd. pose proof (add_spec name bytes im Hok Hn Hs) as Ha.
  destruct (add_bytes name bytes im) as [im1|m|]; [|done|done]. cbn [andThen] in Hadd. destruct Ha as (Hok1 & Ef & Hsto & _).
  rewrite Forall_forall in Hfs.
  destruct (add_all_keeps fs im1 im' name Hok1) as (Hok' & Ef' & Hk); [|intros p Hp; by apply Hfs, list_elem_of_In|done|].
  { apply Forall_forall. intros p Hp. by destruct (Hfs p Hp) as (? & ? & _). }
  rewrite <- Ef in Hsto. rewrite Hsto, <- Ef' in Hk. rewrite Ef' in Hk at 1. rewrite <- Ef' in Hk.
  pose proof (extract_stored im' name (records_of bytes) outdir h Hok' Hn Hk Hh) as He. cbv zeta in He.
  unfold name in He at 2. rewrite host_name_form in He by done.
  assert ((length (dotted stem ext) <= 12)%nat) as Hd.
  { destruct Hst as [? _], Hex as [? _]. unfold dotted. case_decide; rewrite ?length_app; cbn; lia. }
  rewrite firstn_all2 in He by (rewrite !length_app; cbn; lia).
  destruct (extract im' (Some name) outdir h) as [[u|m|] h']; [|done|done]. destruct He as (i & Hi & Hb).
  rewrite (concat_records bytes Hs) in Hb. pose proof (small_count bytes Hs) as Hc. cbv zeta in Hc.
  eexists i, _. split; [exact Hi|]. split; [exact Hb|]. set (n := Z.of_nat (length bytes)) in *. split; [lia|].
  rewrite Z2Nat.id by lia. replace (n + _) with (record_count n * 128) by lia. apply Z_mod_mult.
Qed.
End Extracted.

(** ** Names of host files *)

Lemma toupper_ascii c : 0 <= c < 128 → 0 <= toupper c < 128.
Proof. unfold toupper. intros Hc. destruct ((0x61 <=? c) && (c <=? 0x7A)) eqn:E; lia. Qed.
Lemma base_name_ascii l : ascii7 l → ascii7 (base_name l).
Proof.
  intros Hl. induction Hl as [|c l Hc Hl IH]; [constructor|]. cbn [base_name]. case_match; [done|]. by constructor.
Qed.
Lemma stem_ascii p : ascii7 p → ∀ n, let r := stem_loop n p in ascii7 r.1 ∧ ascii7 r.2 ∧ (length r.1 <= n)%nat.
Proof.
  intros Hp. induction Hp as [|c p Hc Hp IH]; intros n; cbn [stem_loop]; [repeat split; [constructor..|cbn; lia]|].
  assert (ascii7 (c :: p)) by by constructor. destruct (c =? DOT); [repeat split; [constructor|done|cbn; lia]|].
  destruct n as [|n]; [repeat split; [constructor|done|cbn; lia]|]. destruct (c =? SPACE); [apply (IH (S n))|].
  specialize (IH n). destruct (stem_loop n p) as [o q]. cbn in *. destruct IH as (? & ? & ?).
  repeat split; [constructor; [by apply toupper_ascii|done]|done|lia].
Qed.
Lemma ext_ascii p : ascii7 p → ∀ n, ascii7 (ext_loop n p) ∧ (length (ext_loop n p) <= n)%nat.
Proof.
  intros Hp. induction Hp as [|c p Hc Hp IH]; intros n; [split; [constructor|cbn; lia]|]. destruct n as [|n]; [split; [constructor|cbn; lia]|].
  cbn [ext_loop]. destruct ((c =? DOT) || (c =? SPACE)); [apply (IH (S n))|]. destruct (IH n). split; [constructor; [by apply toupper_ascii|done]|cbn; lia].
Qed.
Lemma to_dot_ascii p : ascii7 p → ascii7 (to_dot p).
Proof. intros Hp. induction Hp as [|c p Hc Hp IH]; [constructor|]. cbn [to_dot]. case_match; [by constructor|done]. Qed.
Lemma pad_ascii n l : ascii7 l → (length l <= n)%nat → ascii7 (pad n l) ∧ length (pad n l) = n.
Proof.
  intros Hl Hn. unfold pad. rewrite length_app, length_replicate. split; [|lia]. apply Forall_app. split; [done|].
  apply Forall_replicate. unfold SPACE. lia.
Qed.
(** Every seven-bit host name becomes a name of the directory. *)
Lemma to_cpm_ascii host : ascii7 host → cpm_name (to_cpm_name host).
Proof.
  intros Hh. unfold to_cpm_name. destruct (stem_ascii _ (base_name_ascii _ Hh) 8) as (Hs & Hp & Hl). destruct (stem_loop 8 _) as [stem p]. cbn [fst snd] in *.
  pose proof (to_dot_ascii p Hp) as Hd.
  assert (let ext := match to_dot p with _ :: q => ext_loop 3 q | [] => [] end in ascii7 ext ∧ (length ext <= 3)%nat) as [He Hel].
  { destruct (to_dot p) as [|c q]; [split; [constructor|cbn; lia]|]. apply ext_ascii. by inversion Hd. }
  destruct (pad_ascii 8 stem Hs Hl) as [A1 L1]. destruct (pad_ascii 3 _ He Hel) as [A2 L2].
  split; [by rewrite length_app, L1, L2|]. apply ascii7_low7, Forall_app. by split.
Qed.

(** ** Examples *)

Definition blank_floppy : img_t := mk_img FMT_FD ∅ (load_alloc FMT_FD ∅).
Definition read_me : list Z := to_cpm_name (str "docs/read.me").
Definition read_me_bytes : list Z := str "hello".
Lemma read_me_ok : cpm_name read_me ∧ small read_me_bytes.
Proof. split; [|by vm_compute]. apply to_cpm_ascii. repeat (constructor; [by vm_compute|]). constructor. Qed.

Definition is_done {A} (r : outcome A) : bool := match r with Done _ => true | _ => false end.

Lemma files_added_witness :
  ∃ im', add_all [(read_me, read_me_bytes)] blank_floppy = Done im' ∧
    stored FMT_FD (im_data im') read_me = Some [read_me_bytes ++ replicate 123 0x1A].
Proof.
  destruct (blank_ok FMT_FD fd_ok) as [Hok Hh].
  pose proof (files_added [(read_me, read_me_bytes)] blank_floppy ∅ Hok Hh ltac:(constructor; [apply read_me_ok|constructor])) as Ha.
  assert (is_done (add_all [(read_me, read_me_bytes)] blank_floppy) = true) as Hd by (vm_compute; reflexivity).
  destruct (add_all [(read_me, read_me_bytes)] blank_floppy) as [im'|m|]; [|done|done]. exists im'. split; [done|]. destruct Ha as (Ef & _ & Hh' & _).
  specialize (Hh' read_me (proj2 (proj1 read_me_ok))). rewrite Ef in Hh'. cbn [im_f blank_floppy] in Hh'. rewrite Hh'. by vm_compute.
Defined.

Lemma full_exactly_witness : ∃ im', add_bytes read_me read_me_bytes blank_floppy = Done im' ∧
  room FMT_FD im' = 193 ∧ entry_room FMT_FD im' = 63.
Proof.
  destruct (blank_ok FMT_FD fd_ok) as [Hok _]. destruct read_me_ok as [Hn Hs].
  destruct (full_exactly read_me read_me_bytes blank_floppy Hok Hn Hs) as (He & _ & Hroom).
  assert (room FMT_FD (delete_file read_me blank_floppy) = 194 ∧ entry_room FMT_FD (delete_file read_me blank_floppy) = 64) as [R1 R2] by (split; vm_compute; reflexivity).
  assert (blocks_for FMT_FD (count_of read_me_bytes) = 1 ∧ entries_for (count_of read_me_bytes) = 1) as [B1 B2] by (split; vm_compute; reflexivity).
  cbn [im_f blank_floppy] in *. rewrite R1, R2, B1, B2 in *. destruct (proj1 He ltac:(lia)) as [im' E]. exists im'. split; [done|]. by apply Hroom.
Defined.

Definition empty_disk : mem_host := mk_mem (mk_view ∅ ∅ ∅) None [].
Definition saved_disk : mem_host := (img_save blank_floppy (str "a.img") empty_disk).2.
Lemma saved_image_witness : ∃ im' h3, img_load (str "a.img") None saved_disk = (Done im', h3) ∧ im_f im' = FMT_FD ∧ holds im' ∅.
Proof.
  destruct (blank_ok FMT_FD fd_ok) as [Hok Hh].
  assert ((img_save blank_floppy (str "a.img") empty_disk).1 = Done tt) as E1 by (vm_compute; reflexivity).
  assert ((fopen ROnly (str "a.img") saved_disk).1 = Some 0%nat) as E2 by (vm_compute; reflexivity).
  assert (fsize 0%nat (fopen ROnly (str "a.img") saved_disk).2 = Some 409600) as E3 by (vm_compute; reflexivity).
  unfold saved_disk in *. destruct (img_save blank_floppy (str "a.img") empty_disk) as [r h1] eqn:Es. cbn [fst snd] in *. subst r.
  destruct (fopen ROnly (str "a.img") h1) as [o h2] eqn:Eo. cbn [fst snd] in *. subst o.
  destruct (saved_image blank_floppy (str "a.img") empty_disk h1 h2 ∅ 0%nat 409600 None ltac:(by left) Hok Hh Es Eo E3) as (im' & h3 & El & Ef & _ & Hh').
  exists im', h3. split; [done|]. split; [exact Ef|exact Hh'].
Defined.

Definition two_files : list (list Z * list Z) := [(entry_form (str "READ") (str "ME"), read_me_bytes); (entry_form (str "X") [], [])].
Lemma read_me_parts : name_part 8 (str "READ") ∧ name_part 3 (str "ME") ∧ name_part 8 (str "X") ∧ name_part 3 [].
Proof. split_and!; (split; [cbn; lia|]); repeat (constructor; [by vm_compute|]); constructor. Qed.
Lemma two_files_added : ∃ im', add_all two_files blank_floppy = Done im' ∧
  is_done (extract im' (Some (entry_form (str "READ") (str "ME"))) (str "out") empty_disk).1 = true.
Proof.
  assert (match add_all two_files blank_floppy with
          | Done im => is_done (extract im (Some (entry_form (str "READ") (str "ME"))) (str "out") empty_disk).1
          | _ => false end = true) as Hx by (vm_compute; reflexivity).
  destruct (add_all two_files blank_floppy) as [im'|m|]; [by exists im'|discriminate|discriminate].
Qed.
Lemma extracted_witness : ∃ im' i fill, add_all two_files blank_floppy = Done im' ∧
  let h' := (extract im' (Some (entry_form (str "READ") (str "ME"))) (str "out") empty_disk).2 in
  names (view h') !! str "out/READ.ME" = Some i ∧ files (view h') !! i = Some (read_me_bytes ++ replicate fill 0x1A).
Proof.
  destruct (blank_ok FMT_FD fd_ok) as [Hok _]. destruct read_me_parts as (H1 & H2 & H3 & H4). destruct two_files_added as (im' & E & Hx).
  assert (small read_me_bytes) as Hs by apply read_me_ok. exists im'.
  pose proof (extracted blank_floppy im' (str "READ") (str "ME") read_me_bytes [(entry_form (str "X") [], [])] (str "out") empty_disk Hok H1 H2 Hs) as He.
  destruct (extract im' (Some (entry_form (str "READ") (str "ME"))) (str "out") empty_disk) as [r h']. cbn [fst snd] in *.
  destruct r; [|discriminate|discriminate]. destruct He as (i & fill & Hp & Hi & _); [|exact E|cbn; lia|by split|].
  - constructor; [|constructor]. cbn [fst snd]. split_and!; [by apply entry_form_cpm|vm_compute; reflexivity|vm_compute; discriminate].
  - exists i, fill. split; [exact E|]. split; [exact Hp|exact Hi].
Defined.
