(* ===== verification/X86.v ===== *)
(** * X86: the x86-64 subset the backend emits, as a reference

    The specification side of the x86-64 backend: instructions as data, a
    decoder for the byte encodings of the subset (prefix 66, REX, one and two
    byte opcodes, ModRM, SIB, displacement, immediate) and the effect of one
    instruction on registers, flags and memory, written from the architecture
    and not from the emitter.  What the architecture leaves undefined (AF
    after a logic operation, SF, ZF, AF and PF after BT, OF after a long
    shift) is [None], and an instruction that reads it has no result.
    Encodings outside the subset do not decode. *)

From Stdlib Require Import ZArith Lia Bool List.
From stdpp Require Import base option list.
From S2P Require Import Prelude.

Open Scope list_scope.
Open Scope Z_scope.
Open Scope z80_scope.

(** ** Instructions *)

Inductive size : Set := B8 | W16 | D32 | Q64.
Definition size_eqb (a b : size) : bool :=
  match a, b with B8, B8 | W16, W16 | D32, D32 | Q64, Q64 => true | _, _ => false end.

(** A register by number, AH to BH, memory at base + index * 2^scale + disp,
    an immediate as a signed integer. *)
Inductive operand : Set :=
| OReg (r : Z) | OHigh (r : Z) | OMem (base : Z) (index : option Z) (scale disp : Z) | OImm (v : Z).

Inductive alu_op : Set := ADD | OR | ADC | SBB | AND | SUB | XOR | CMP.
Inductive shift_op : Set := ROL | ROR | RCL | RCR | SHL | SHR | SAR.

Inductive instr : Set :=
| IAlu (op : alu_op) (sz : size) (dst src : operand)
| IMov (sz : size) (dst src : operand)
| IMovzx (from : size) (dst : Z) (src : operand)
| ILea (sz : size) (dst : Z) (mem : operand)
| ITest (sz : size) (a b : operand)
| IShift (op : shift_op) (sz : size) (dst : operand) (n : Z)
| INot (dst : operand) | INeg (dst : operand)
| IInc (sz : size) (dst : operand) | IDec (sz : size) (dst : operand)
| ISetcc (cc : Z) (dst : operand) | ICmov (cc dst : Z) (src : operand)
| IBt (dst : operand) (n : Z) | ILahf
| IPush (src : operand) | IPop (r : Z)
| IJcc (cc rel : Z) | IJmp (rel : Z) | ICall (rel : Z)
| IJmpInd (t : operand) | ICallInd (t : operand) | IRet | IInt3 | INop.

(** ** Decoding *)

Definition sext32 (x : Z) : Z := if x <? 2147483648 then x else x - 4294967296.
Definition sext64 (x : Z) : Z := if x <? 9223372036854775808 then x else x - 18446744073709551616.

Fixpoint le_val (bs : list Z) : Z := match bs with [] => 0 | b :: t => b + 256 * le_val t end.
(** The next [n] bytes, little endian. *)
Definition take_le (n : nat) (bs : list Z) : option (Z * list Z) :=
  if (length bs <? n)%nat then None else Some (le_val (take n bs), drop n bs).
Definition imm8 (bs : list Z) : option (Z * list Z) := '(v, t) ← take_le 1 bs; Some (s8 v, t).
Definition imm32 (bs : list Z) : option (Z * list Z) := '(v, t) ← take_le 4 bs; Some (sext32 v, t).

Definition rexbit (rex : option Z) (k : Z) : bool := if rex is Some b then Z.testbit b k else false.
Definition ext (b : bool) (r : Z) : Z := if b then r + 8 else r.

Inductive rm_form : Set := RReg (r : Z) | RMem (base : Z) (index : option Z) (scale disp : Z).

Definition parse_disp (md : Z) (bs : list Z) : option (Z * list Z) :=
  if md =? 0 then Some (0, bs) else if md =? 1 then imm8 bs else imm32 bs.
(** SIB when rm = 100. *)
Definition parse_base (rex : option Z) (rm : Z) (bs : list Z) : option (Z * option Z * Z * list Z) :=
  if rm =? 4 then
    match bs with
    | s :: t =>
        let idx := ext (rexbit rex 1) ((s >>' 3) &' 7) in
        Some (s &' 7, if idx =? 4 then None else Some idx, s >>' 6, t)
    | [] => None
    end
  else Some (rm, None, 0, bs).
(** The reg field and the r/m operand; mod = 00 with base 101 (RIP or no
    base) is outside the subset. *)
Definition parse_modrm (rex : option Z) (bs : list Z) : option (Z * rm_form * list Z) :=
  match bs with
  | [] => None
  | m :: t =>
      let md := m >>' 6 in
      let reg := ext (rexbit rex 2) ((m >>' 3) &' 7) in
      let rm := m &' 7 in
      if md =? 3 then Some (reg, RReg (ext (rexbit rex 0) rm), t)
      else
        '(base, index, scale, t) ← parse_base rex rm t;
        if (md =? 0) && (base =? 5) then None
        else '(disp, t) ← parse_disp md t; Some (reg, RMem (ext (rexbit rex 0) base) index scale disp, t)
  end.

(** A register field as an operand: without REX the byte registers 4 to 7
    are AH, CH, DH, BH. *)
Definition reg_operand (rex : option Z) (sz : size) (r : Z) : operand :=
  if size_eqb sz B8 && negb (if rex is Some _ then true else false) && (4 <=? r) && (r <? 8) then OHigh (r - 4) else OReg r.
Definition rm_operand (rex : option Z) (sz : size) (f : rm_form) : operand :=
  match f with RReg r => reg_operand rex sz r | RMem b i s d => OMem b i s d end.

Definition alu_of (n : Z) : alu_op :=
  match n with 0 => ADD | 1 => OR | 2 => ADC | 3 => SBB | 4 => AND | 5 => SUB | 6 => XOR | _ => CMP end.
Definition shift_of (n : Z) : option shift_op :=
  match n with
  | 0 => Some ROL | 1 => Some ROR | 2 => Some RCL | 3 => Some RCR
  | 4 => Some SHL | 5 => Some SHR | 7 => Some SAR | _ => None
  end.

Section Opcodes.
Variables (p66 : bool) (rex : option Z).
Definition osize : size := if rexbit rex 3 then Q64 else if p66 then W16 else D32.
Abbreviation rmop := (rm_operand rex).
Abbreviation rgop := (reg_operand rex).

(** 80 to 83: the digit is the operation. *)
Definition decode_grp1 (sz : size) (imm : list Z → option (Z * list Z)) (t : list Z) : option (instr * list Z) :=
  '(d, rm, t) ← parse_modrm rex t; '(v, t) ← imm t;
  Some (IAlu (alu_of (d &' 7)) sz (rmop sz rm) (OImm v), t).
Definition decode_shift (sz : size) (by1 : bool) (t : list Z) : option (instr * list Z) :=
  '(d, rm, t) ← parse_modrm rex t; op ← shift_of (d &' 7);
  if by1 then Some (IShift op sz (rmop sz rm) 1, t)
  else '(n, t) ← take_le 1 t; Some (IShift op sz (rmop sz rm) n, t).
(** F6 and F7; NOT and NEG in their 32-bit forms. *)
Definition decode_grp3 (sz : size) (t : list Z) : option (instr * list Z) :=
  '(d, rm, t) ← parse_modrm rex t;
  match d &' 7 with
  | 0 => '(v, t) ← (if size_eqb sz B8 then imm8 t else imm32 t); Some (ITest sz (rmop sz rm) (OImm v), t)
  | 2 => if size_eqb sz D32 then Some (INot (rmop sz rm), t) else None
  | 3 => if size_eqb sz D32 then Some (INeg (rmop sz rm), t) else None
  | _ => None
  end.
(** FE and FF. *)
Definition decode_grp5 (sz : size) (t : list Z) : option (instr * list Z) :=
  '(d, rm, t) ← parse_modrm rex t;
  match d &' 7 with
  | 0 => Some (IInc sz (rmop sz rm), t)
  | 1 => Some (IDec sz (rmop sz rm), t)
  | 2 => if size_eqb sz B8 then None else Some (ICallInd (rmop Q64 rm), t)
  | 4 => if size_eqb sz B8 then None else Some (IJmpInd (rmop Q64 rm), t)
  | _ => None
  end.

Definition decode_1 (o : Z) (t : list Z) : option (instr * list Z) :=
  if o <? 0x40 then
    let op := alu_of (o >>' 3) in
    let k := o &' 7 in
    let sz := if Z.even k then B8 else osize in
    if 4 <=? k then None
    else '(r, rm, t) ← parse_modrm rex t;
         Some (if k <? 2 then IAlu op sz (rmop sz rm) (rgop sz r) else IAlu op sz (rgop sz r) (rmop sz rm), t)
  else if (0x50 <=? o) && (o <? 0x58) then Some (IPush (OReg (ext (rexbit rex 0) (o &' 7))), t)
  else if (0x58 <=? o) && (o <? 0x60) then Some (IPop (ext (rexbit rex 0) (o &' 7)), t)
  else if (0x70 <=? o) && (o <? 0x80) then '(rel, t) ← imm8 t; Some (IJcc (o &' 15) rel, t)
  else if (0xB0 <=? o) && (o <? 0xB8) then
    '(v, t) ← imm8 t; Some (IMov B8 (rgop B8 (ext (rexbit rex 0) (o &' 7))) (OImm v), t)
  else if (0xB8 <=? o) && (o <? 0xC0) then
    let r := ext (rexbit rex 0) (o &' 7) in
    match osize with
    | D32 => '(v, t) ← imm32 t; Some (IMov D32 (OReg r) (OImm v), t)
    | Q64 => '(v, t) ← take_le 8 t; Some (IMov Q64 (OReg r) (OImm (sext64 v)), t)
    | _ => None
    end
  else match o with
  | 0x68 => '(v, t) ← imm32 t; Some (IPush (OImm v), t)
  | 0x80 => decode_grp1 B8 imm8 t
  | 0x81 => if size_eqb osize W16 then None else decode_grp1 osize imm32 t
  | 0x83 => decode_grp1 osize imm8 t
  | 0x85 => '(r, rm, t) ← parse_modrm rex t; Some (ITest osize (rmop osize rm) (rgop osize r), t)
  | 0x88 => '(r, rm, t) ← parse_modrm rex t; Some (IMov B8 (rmop B8 rm) (rgop B8 r), t)
  | 0x89 => '(r, rm, t) ← parse_modrm rex t; Some (IMov osize (rmop osize rm) (rgop osize r), t)
  | 0x8B => '(r, rm, t) ← parse_modrm rex t; Some (IMov osize (rgop osize r) (rmop osize rm), t)
  | 0x8D => '(r, rm, t) ← parse_modrm rex t;
            if rm is RMem _ _ _ _ then Some (ILea osize r (rmop osize rm), t) else None
  | 0x90 => Some (INop, t)
  | 0x9F => Some (ILahf, t)
  | 0xC0 => decode_shift B8 false t
  | 0xC1 => decode_shift osize false t
  | 0xD0 => decode_shift B8 true t
  | 0xD1 => decode_shift osize true t
  | 0xC3 => Some (IRet, t)
  | 0xC6 => '(d, rm, t) ← parse_modrm rex t; '(v, t) ← imm8 t;
            if d &' 7 =? 0 then Some (IMov B8 (rmop B8 rm) (OImm v), t) else None
  | 0xC7 => '(d, rm, t) ← parse_modrm rex t;
            '(v, t) ← (if size_eqb osize W16 then take_le 2 t else imm32 t);
            if d &' 7 =? 0 then Some (IMov osize (rmop osize rm) (OImm v), t) else None
  | 0xCC => Some (IInt3, t)
  | 0xE8 => '(rel, t) ← imm32 t; Some (ICall rel, t)
  | 0xE9 => '(rel, t) ← imm32 t; Some (IJmp rel, t)
  | 0xF6 => decode_grp3 B8 t
  | 0xF7 => decode_grp3 osize t
  | 0xFE => decode_grp5 B8 t
  | 0xFF => decode_grp5 osize t
  | _ => None
  end.

(** After 0F. *)
Definition decode_2 (o : Z) (t : list Z) : option (instr * list Z) :=
  if (0x40 <=? o) && (o <? 0x50) then
    '(r, rm, t) ← parse_modrm rex t;
    if size_eqb osize D32 then Some (ICmov (o &' 15) r (rmop D32 rm), t) else None
  else if (0x80 <=? o) && (o <? 0x90) then '(rel, t) ← imm32 t; Some (IJcc (o &' 15) rel, t)
  else if (0x90 <=? o) && (o <? 0xA0) then '(_, rm, t) ← parse_modrm rex t; Some (ISetcc (o &' 15) (rmop B8 rm), t)
  else match o with
  | 0xB6 => '(r, rm, t) ← parse_modrm rex t; Some (IMovzx B8 r (rmop B8 rm), t)
  | 0xB7 => '(r, rm, t) ← parse_modrm rex t; Some (IMovzx W16 r (rmop W16 rm), t)
  | 0xBA => '(d, rm, t) ← parse_modrm rex t; '(n, t) ← take_le 1 t;
            if d &' 7 =? 4 then Some (IBt (rmop D32 rm) n, t) else None
  | _ => None
  end.
End Opcodes.

(** The prefixes, in the order 66, REX. *)
Definition parse_prefix (bs : list Z) : bool * option Z * list Z :=
  let '(p66, bs) := match bs with b :: t => if b =? 0x66 then (true, t) else (false, bs) | [] => (false, bs) end in
  match bs with
  | b :: t => if b >>' 4 =? 4 then (p66, Some b, t) else (p66, None, bs)
  | [] => (p66, None, bs)
  end.
Definition decode_instr (bs : list Z) : option (instr * list Z) :=
  let '(p66, rex, bs) := parse_prefix bs in
  match bs with
  | o :: t =>
      if o =? 0x0F then match t with o2 :: t => decode_2 p66 rex o2 t | [] => None end
      else decode_1 p66 rex o t
  | [] => None
  end.

(** [n] instructions, with the bytes that are left. *)
Fixpoint disassemble (n : nat) (bs : list Z) : option (list instr * list Z) :=
  match n with
  | O => Some ([], bs)
  | S n => '(i, t) ← decode_instr bs; '(is_, t) ← disassemble n t; Some (i :: is_, t)
  end.

(** ** State *)

(** An undefined flag is [None]. *)
Record flags := mk_flags { cf : option bool; pf : option bool; af : option bool; zf : option bool; sf : option bool; vf : option bool }.
Record xstate := mk_x { xr : Z → Z; xf : flags; xm : Z → Z }.
Definition set_xf (f : flags) (s : xstate) : xstate := mk_x (xr s) f (xm s).

Definition upd (k v : Z) (f : Z → Z) : Z → Z := λ i, if i =? k then v else f i.
Definition set_reg (r v : Z) (s : xstate) : xstate := mk_x (upd r v (xr s)) (xf s) (xm s).

Definition bits (sz : size) : Z := match sz with B8 => 8 | W16 => 16 | D32 => 32 | Q64 => 64 end.
Definition modulus (sz : size) : Z := match sz with B8 => 256 | W16 => 65536 | D32 => 4294967296 | Q64 => 18446744073709551616 end.
Definition nbytes_of (sz : size) : nat := match sz with B8 => 1 | W16 => 2 | D32 => 4 | Q64 => 8 end.
Definition trunc (sz : size) (v : Z) : Z := v mod modulus sz.
Definition sign (sz : size) (v : Z) : bool := Z.testbit v (bits sz - 1).

(** A write to the low part of a register: 8 and 16 bits leave the rest, 32
    bits clear it. *)
Definition merge (sz : size) (old v : Z) : Z :=
  match sz with D32 | Q64 => trunc sz v | _ => old - trunc sz old + trunc sz v end.

(** Virtual addresses name physical bytes through [phys], so that two pages
    may be the same memory. *)
Section Machine.
Variable phys : Z → Z.

Definition ea (base : Z) (index : option Z) (scale disp : Z) (s : xstate) : Z :=
  u64 (xr s base + (if index is Some i then xr s i <<' scale else 0) + disp).

Definition ld8 (s : xstate) (a : Z) : Z := xm s (phys (u64 a)).
Definition st8 (a v : Z) (s : xstate) : xstate := mk_x (xr s) (xf s) (upd (phys (u64 a)) (u8 v) (xm s)).
Fixpoint ld (n : nat) (s : xstate) (a : Z) : Z :=
  match n with O => 0 | S n => ld8 s a + 256 * ld n s (a + 1) end.
Fixpoint st (n : nat) (a v : Z) (s : xstate) : xstate :=
  match n with O => s | S n => st n (a + 1) (v >>' 8) (st8 a v s) end.

Definition get (sz : size) (o : operand) (s : xstate) : Z :=
  match o with
  | OReg r => trunc sz (xr s r)
  | OHigh r => (xr s r >>' 8) mod 256
  | OMem b i k d => ld (nbytes_of sz) s (ea b i k d s)
  | OImm v => trunc sz v
  end.
Definition put (sz : size) (o : operand) (v : Z) (s : xstate) : xstate :=
  match o with
  | OReg r => set_reg r (merge sz (xr s r) v) s
  | OHigh r => set_reg r (xr s r - (((xr s r >>' 8) mod 256) <<' 8) + ((v mod 256) <<' 8)) s
  | OMem b i k d => st (nbytes_of sz) (ea b i k d s) v s
  | OImm _ => s
  end.

(** ** Arithmetic *)

Definition parity_even (v : Z) : bool :=
  negb (xorb (xorb (xorb (Z.testbit v 0) (Z.testbit v 1)) (xorb (Z.testbit v 2) (Z.testbit v 3)))
             (xorb (xorb (Z.testbit v 4) (Z.testbit v 5)) (xorb (Z.testbit v 6) (Z.testbit v 7)))).
(** SF, ZF and PF of a result. *)
Definition result_flags (sz : size) (c a v : option bool) (r : Z) : flags :=
  mk_flags c (Some (parity_even r)) a (Some (r =? 0)) (Some (sign sz r)) v.

Definition add_flags (sz : size) (a b c : Z) : flags :=
  let r := trunc sz (a + b + c) in
  result_flags sz (Some (modulus sz <=? a + b + c)) (Some (16 <=? a mod 16 + b mod 16 + c))
    (Some (eqb (sign sz a) (sign sz b) && negb (eqb (sign sz a) (sign sz r)))) r.
Definition sub_flags (sz : size) (a b c : Z) : flags :=
  let r := trunc sz (a - b - c) in
  result_flags sz (Some (a <? b + c)) (Some (a mod 16 <? b mod 16 + c))
    (Some (negb (eqb (sign sz a) (sign sz b)) && negb (eqb (sign sz a) (sign sz r)))) r.
Definition logic_flags (sz : size) (r : Z) : flags := result_flags sz (Some false) None (Some false) r.

(** The value, and the flags. *)
Definition alu (op : alu_op) (sz : size) (a b : Z) (f : flags) : option (Z * flags) :=
  match op with
  | ADD => Some (trunc sz (a + b), add_flags sz a b 0)
  | ADC => c ← cf f; Some (trunc sz (a + b + Z.b2z c), add_flags sz a b (Z.b2z c))
  | SUB | CMP => Some (trunc sz (a - b), sub_flags sz a b 0)
  | SBB => c ← cf f; Some (trunc sz (a - b - Z.b2z c), sub_flags sz a b (Z.b2z c))
  | AND => Some (a &' b, logic_flags sz (a &' b))
  | OR => Some (a |' b, logic_flags sz (a |' b))
  | XOR => Some (a ^' b, logic_flags sz (a ^' b))
  end.

(** By [n] = 0 (no change), or 1 to the width less one; OF is left undefined, and the
    rotates through carry by 1 only. *)
Definition shift (op : shift_op) (sz : size) (a n : Z) (f : flags) : option (Z * flags) :=
  if n =? 0 then Some (a, f)
  else if bits sz <=? n then None
  else
    let w := bits sz in
    let rot c := mk_flags (Some c) (pf f) (af f) (zf f) (sf f) None in
    let arith c r := Some (r, result_flags sz (Some c) None None r) in
    match op with
    | ROL => let r := trunc sz (a <<' n) |' (a >>' (w - n)) in Some (r, rot (Z.testbit r 0))
    | ROR => let r := (a >>' n) |' trunc sz (a <<' (w - n)) in Some (r, rot (sign sz r))
    | RCL => c ← cf f; if n =? 1 then Some (trunc sz (a <<' 1) |' Z.b2z c, rot (sign sz a)) else None
    | RCR => c ← cf f; if n =? 1 then Some ((a >>' 1) |' (Z.b2z c <<' (w - 1)), rot (Z.testbit a 0)) else None
    | SHL => arith (Z.testbit a (w - n)) (trunc sz (a <<' n))
    | SHR => arith (Z.testbit a (n - 1)) (a >>' n)
    | SAR => let v := if sign sz a then a - modulus sz else a in arith (Z.testbit a (n - 1)) (trunc sz (v >>' n))
    end.

Definition cond (cc : Z) (f : flags) : option bool :=
  b ← (match cc >>' 1 with
       | 0 => vf f
       | 1 => cf f
       | 2 => zf f
       | 3 => c ← cf f; z ← zf f; Some (c || z)
       | 4 => sf f
       | 5 => pf f
       | 6 => s ← sf f; v ← vf f; Some (xorb s v)
       | _ => s ← sf f; v ← vf f; z ← zf f; Some (z || xorb s v)
       end);
  Some (xorb (Z.odd cc) b).

(** LAHF's byte. *)
Definition lahf_byte (f : flags) : option Z :=
  s ← sf f; z ← zf f; a ← af f; p ← pf f; c ← cf f;
  Some (Z.b2z s * 128 + Z.b2z z * 64 + Z.b2z a * 16 + Z.b2z p * 4 + 2 + Z.b2z c).

Definition RSP : Z := 4.
Definition push (v : Z) (s : xstate) : xstate :=
  let a := u64 (xr s RSP - 8) in st 8 a v (set_reg RSP a s).

(** An instruction that does not transfer control. *)
Definition exec_instr (i : instr) (s : xstate) : option xstate :=
  match i with
  | IAlu op sz d src =>
      '(v, f) ← alu op sz (get sz d s) (get sz src s) (xf s);
      Some (set_xf f (if op is CMP then s else put sz d v s))
  | IMov sz d src => Some (put sz d (get sz src s) s)
  | IMovzx sz d src => Some (put D32 (OReg d) (get sz src s) s)
  | ILea sz d (OMem b i k o) => Some (put sz (OReg d) (ea b i k o s) s)
  | ILea _ _ _ => None
  | ITest sz a b => Some (set_xf (logic_flags sz (get sz a s &' get sz b s)) s)
  | IShift op sz d n => '(v, f) ← shift op sz (get sz d s) n (xf s); Some (set_xf f (put sz d v s))
  | INot d => Some (put D32 d (trunc D32 (Z.lnot (get D32 d s))) s)
  | INeg d => let v := get D32 d s in Some (set_xf (sub_flags D32 0 v 0) (put D32 d (trunc D32 (- v)) s))
  | IInc sz d =>
      let v := get sz d s in let f := add_flags sz v 1 0 in
      Some (set_xf (mk_flags (cf (xf s)) (pf f) (af f) (zf f) (sf f) (vf f)) (put sz d (trunc sz (v + 1)) s))
  | IDec sz d =>
      let v := get sz d s in let f := sub_flags sz v 1 0 in
      Some (set_xf (mk_flags (cf (xf s)) (pf f) (af f) (zf f) (sf f) (vf f)) (put sz d (trunc sz (v - 1)) s))
  | ISetcc cc d => b ← cond cc (xf s); Some (put B8 d (Z.b2z b) s)
  | ICmov cc d src => b ← cond cc (xf s); Some (put D32 (OReg d) (if b : bool then get D32 src s else trunc D32 (xr s d)) s)
  | IBt d n =>
      Some (set_xf (mk_flags (Some (Z.testbit (get D32 d s) (n mod 32))) None None (zf (xf s)) None None) s)
  | ILahf => b ← lahf_byte (xf s); Some (put B8 (OHigh 0) b s)
  | IPush src => Some (push (get Q64 src s) s)
  | IPop r => Some (set_reg r (ld 8 s (xr s RSP)) (set_reg RSP (u64 (xr s RSP + 8)) s))
  | INop => Some s
  | IJcc _ _ | IJmp _ | ICall _ | IJmpInd _ | ICallInd _ | IRet | IInt3 => None
  end.
End Machine.
