(* ===== verification/EmitX64.v ===== *)
(** * EmitX64: x86-64 code emission (src/dbt/emit_x64.h)

    The encoder of the x86-64 backend: prefixes, REX, ModRM, SIB, displacement
    and immediate, written byte by byte into the code buffer.  An emitter is
    a function on the buffer; the named ones keep the names of the header.
    A byte past the capacity is dropped, the offset goes on. *)

From Stdlib Require Import ZArith Lia Bool List.
From stdpp Require Import base list.
From S2P Require Import Prelude.

Open Scope list_scope.
Open Scope Z_scope.
Open Scope z80_scope.

(** ** The buffer *)

Record emit_t := mk_emit { e_buf : list Z; e_offset : Z; e_capacity : Z }.
Abbreviation emitter := (emit_t → emit_t).
Definition then_emit (a b : emitter) : emitter := λ e, b (a e).
Notation "a +> b" := (then_emit a b) (at level 60, right associativity) : z80_scope.
Definition emit_if (c : bool) (a : emitter) : emitter := λ e, if c then a e else e.

Definition emit_byte (b : Z) : emitter := λ e,
  mk_emit (if e_offset e <? e_capacity e then <[Z.to_nat (e_offset e):=b]> (e_buf e) else e_buf e)
    (u32 (e_offset e + 1)) (e_capacity e).
Definition emit_u16 (v : Z) : emitter := emit_byte (u8 v) +> emit_byte (u8 (v >>' 8)).
Definition emit_u32 (v : Z) : emitter := emit_u16 (u16 v) +> emit_u16 (u16 (v >>' 16)).
Definition emit_u64 (v : Z) : emitter := emit_u32 (u32 v) +> emit_u32 (u32 (v >>' 32)).
Definition emit_pos (e : emit_t) : Z := e_offset e.

(** Four bytes of the buffer, unchecked. *)
Definition emit_patch_rel32 (imm_off target_off : Z) : emitter := λ e,
  let disp := u32 (target_off - (imm_off + 4)) in
  let o := Z.to_nat imm_off in
  mk_emit (<[o:=u8 disp]> (<[S o:=u8 (disp >>' 8)]> (<[S (S o):=u8 (disp >>' 16)]> (<[S (S (S o)):=u8 (disp >>' 24)]> (e_buf e)))))
    (e_offset e) (e_capacity e).

(** ** Registers, conditions, operations *)

Definition X64_NOREG : Z := -1.
Definition X64_ALU_ADD : Z := 0.
Definition X64_ALU_OR : Z := 1.
Definition X64_ALU_ADC : Z := 2.
Definition X64_ALU_SBB : Z := 3.
Definition X64_ALU_AND : Z := 4.
Definition X64_ALU_SUB : Z := 5.
Definition X64_ALU_XOR : Z := 6.
Definition X64_ALU_CMP : Z := 7.
Definition X64_SH_ROL : Z := 0.
Definition X64_SH_ROR : Z := 1.
Definition X64_SH_RCL : Z := 2.
Definition X64_SH_RCR : Z := 3.
Definition X64_SH_SHL : Z := 4.
Definition X64_SH_SHR : Z := 5.
Definition X64_SH_SAR : Z := 7.

Definition X64_CC_O : Z := 0x0.
Definition X64_CC_C : Z := 0x2.
Definition X64_CC_E : Z := 0x4.
Definition X64_CC_NE : Z := 0x5.
Definition X64_CC_Z : Z := X64_CC_E.
Definition X64_CC_NZ : Z := X64_CC_NE.

(** ** Encoding primitives *)

Definition x64_byte_reg_needs_rex (r : Z) : bool := (4 <=? r) && (r <=? 7).
Definition bit3 (r : Z) : bool := nz ((r >>' 3) &' 1).

Definition x64_rex (w : bool) (reg index base : Z) (force : bool) : emitter :=
  let rex := 0x40 in
  let rex := if w then rex |' 0x08 else rex in
  let rex := if bit3 reg then rex |' 0x04 else rex in
  let rex := if (0 <=? index) && bit3 index then rex |' 0x02 else rex in
  let rex := if bit3 base then rex |' 0x01 else rex in
  emit_if (negb (rex =? 0x40) || force) (emit_byte rex).

Definition x64_modrm_mem (reg base index scale_log2 disp : Z) : emitter :=
  let need_sib := (0 <=? index) || ((base &' 7) =? 4) in
  let mode := if (disp =? 0) && negb ((base &' 7) =? 5) then 0
    else if (-128 <=? disp) && (disp <=? 127) then 1 else 2 in
  (if need_sib then
     let idx := if 0 <=? index then index &' 7 else 4 in
     emit_byte (u8 ((mode <<' 6) |' ((reg &' 7) <<' 3) |' 4)) +>
     emit_byte (u8 ((scale_log2 <<' 6) |' (idx <<' 3) |' (base &' 7)))
   else emit_byte (u8 ((mode <<' 6) |' ((reg &' 7) <<' 3) |' (base &' 7)))) +>
  emit_if (mode =? 1) (emit_byte (u8 disp)) +>
  emit_if (mode =? 2) (emit_u32 (u32 disp)).

(** [op1]: -1 for none. *)
Definition x64_op (op0 op1 : Z) : emitter := emit_byte (u8 op0) +> emit_if (0 <=? op1) (emit_byte (u8 op1)).
Definition x64_mem (w pfx66 force : bool) (op0 op1 reg base index disp : Z) : emitter :=
  emit_if pfx66 (emit_byte 0x66) +>
  x64_rex w reg index base force +>
  x64_op op0 op1 +>
  x64_modrm_mem reg base index 0 disp.
Definition x64_rr (w pfx66 force : bool) (op0 op1 reg rm : Z) : emitter :=
  emit_if pfx66 (emit_byte 0x66) +>
  x64_rex w reg X64_NOREG rm force +>
  x64_op op0 op1 +>
  emit_byte (u8 (0xC0 |' ((reg &' 7) <<' 3) |' (rm &' 7))).

(** ** Moves *)

Definition emit_mov_r32_r32 (dst src : Z) : emitter := x64_rr false false false 0x89 (-1) src dst.
Definition emit_mov_r64_r64 (dst src : Z) : emitter := x64_rr true false false 0x89 (-1) src dst.
Definition emit_mov_r8_r8 (dst src : Z) : emitter :=
  x64_rr false false (x64_byte_reg_needs_rex dst || x64_byte_reg_needs_rex src) 0x88 (-1) src dst.
Definition emit_mov_r32_imm32 (dst imm : Z) : emitter :=
  x64_rex false 0 (-1) dst false +> emit_byte (u8 (0xB8 |' (dst &' 7))) +> emit_u32 imm.
Definition emit_mov_r64_imm64 (dst imm : Z) : emitter :=
  x64_rex true 0 (-1) dst false +> emit_byte (u8 (0xB8 |' (dst &' 7))) +> emit_u64 imm.
Definition emit_mov_r8_imm8 (dst imm : Z) : emitter :=
  x64_rex false 0 (-1) dst (x64_byte_reg_needs_rex dst) +> emit_byte (u8 (0xB0 |' (dst &' 7))) +> emit_byte imm.
Definition emit_movzx_r32_r8 (dst src : Z) : emitter :=
  x64_rr false false (x64_byte_reg_needs_rex src) 0x0F 0xB6 dst src.
Definition emit_movzx_r32_r16 (dst src : Z) : emitter := x64_rr false false false 0x0F 0xB7 dst src.

Definition emit_movzx_r32_m8 (dst base index disp : Z) : emitter := x64_mem false false false 0x0F 0xB6 dst base index disp.
Definition emit_movzx_r32_m16 (dst base index disp : Z) : emitter := x64_mem false false false 0x0F 0xB7 dst base index disp.
Definition emit_movzx_r32_m16_sib (dst base index scale_log2 disp : Z) : emitter :=
  x64_rex false dst index base false +> emit_byte 0x0F +> emit_byte 0xB7 +> x64_modrm_mem dst base index scale_log2 disp.
Definition emit_mov_r32_m32 (dst base index disp : Z) : emitter := x64_mem false false false 0x8B (-1) dst base index disp.
Definition emit_mov_r64_m64 (dst base index disp : Z) : emitter := x64_mem true false false 0x8B (-1) dst base index disp.

Definition emit_mov_m8_r8 (base index disp src : Z) : emitter :=
  x64_mem false false (x64_byte_reg_needs_rex src) 0x88 (-1) src base index disp.
Definition emit_mov_m16_r16 (base index disp src : Z) : emitter := x64_mem false true false 0x89 (-1) src base index disp.
Definition emit_mov_m32_r32 (base index disp src : Z) : emitter := x64_mem false false false 0x89 (-1) src base index disp.
Definition emit_mov_m64_r64 (base index disp src : Z) : emitter := x64_mem true false false 0x89 (-1) src base index disp.
Definition emit_mov_m8_imm8 (base index disp imm : Z) : emitter :=
  x64_mem false false false 0xC6 (-1) 0 base index disp +> emit_byte imm.
Definition emit_mov_m16_imm16 (base index disp imm : Z) : emitter :=
  x64_mem false true false 0xC7 (-1) 0 base index disp +> emit_u16 imm.
Definition emit_mov_m32_imm32 (base index disp imm : Z) : emitter :=
  x64_mem false false false 0xC7 (-1) 0 base index disp +> emit_u32 imm.

(** ** Compares and arithmetic *)

Definition emit_cmp_m8_imm8 (base index disp imm : Z) : emitter :=
  x64_mem false false false 0x80 (-1) 7 base index disp +> emit_byte imm.
Definition emit_cmp_m16_imm8 (base index disp imm : Z) : emitter :=
  x64_mem false true false 0x83 (-1) 7 base index disp +> emit_byte (u8 imm).
Definition emit_cmp_m32_r32 (base index disp reg : Z) : emitter := x64_mem false false false 0x39 (-1) reg base index disp.

Definition emit_alu_r32_r32 (op dst src : Z) : emitter := x64_rr false false false ((op <<' 3) |' 0x01) (-1) src dst.
Definition emit_alu_r64_r64 (op dst src : Z) : emitter := x64_rr true false false ((op <<' 3) |' 0x01) (-1) src dst.
Definition emit_alu_r8_r8 (op dst src : Z) : emitter :=
  x64_rr false false (x64_byte_reg_needs_rex dst || x64_byte_reg_needs_rex src) ((op <<' 3) |' 0x00) (-1) src dst.
Definition emit_alu_r8_m8 (op dst base index disp : Z) : emitter :=
  x64_mem false false (x64_byte_reg_needs_rex dst) ((op <<' 3) |' 0x02) (-1) dst base index disp.
Definition emit_alu_imm (w : bool) (op dst imm : Z) : emitter :=
  if (-128 <=? imm) && (imm <=? 127) then x64_rr w false false 0x83 (-1) op dst +> emit_byte (u8 imm)
  else x64_rr w false false 0x81 (-1) op dst +> emit_u32 (u32 imm).
Definition emit_alu_r32_imm : Z → Z → Z → emitter := emit_alu_imm false.
Definition emit_alu_r64_imm : Z → Z → Z → emitter := emit_alu_imm true.
Definition emit_alu_r16_imm8 (op dst imm : Z) : emitter := x64_rr false true false 0x83 (-1) op dst +> emit_byte (u8 imm).
Definition emit_alu_r16_r16 (op dst src : Z) : emitter := x64_rr false true false ((op <<' 3) |' 0x01) (-1) src dst.
Definition emit_alu_r8_imm8 (op dst imm : Z) : emitter :=
  x64_rr false false (x64_byte_reg_needs_rex dst) 0x80 (-1) op dst +> emit_byte imm.
Definition emit_add_m64_r64 (base index disp src : Z) : emitter := x64_mem true false false 0x01 (-1) src base index disp.
Definition emit_alu_m8_imm8 (op base index disp imm : Z) : emitter :=
  x64_mem false false false 0x80 (-1) op base index disp +> emit_byte imm.
Definition emit_alu_m32_imm8 (op base index disp imm : Z) : emitter :=
  x64_mem false false false 0x83 (-1) op base index disp +> emit_byte (u8 imm).
Definition emit_incdec_m16 (base index disp : Z) (is_inc : bool) : emitter :=
  x64_mem false true false 0xFF (-1) (if is_inc then 0 else 1) base index disp.

Definition emit_test_r32_r32 (a b : Z) : emitter := x64_rr false false false 0x85 (-1) b a.
Definition emit_test_r32_imm32 (r imm : Z) : emitter := x64_rr false false false 0xF7 (-1) 0 r +> emit_u32 imm.
Definition emit_test_r8_imm8 (r imm : Z) : emitter :=
  x64_rr false false (x64_byte_reg_needs_rex r) 0xF6 (-1) 0 r +> emit_byte imm.

Definition emit_shift_r32_imm (sh r n : Z) : emitter :=
  if n =? 1 then x64_rr false false false 0xD1 (-1) sh r
  else x64_rr false false false 0xC1 (-1) sh r +> emit_byte n.
Definition emit_shift_r8_imm (sh r n : Z) : emitter :=
  if n =? 1 then x64_rr false false (x64_byte_reg_needs_rex r) 0xD0 (-1) sh r
  else x64_rr false false (x64_byte_reg_needs_rex r) 0xC0 (-1) sh r +> emit_byte n.

Definition emit_not_r32 (r : Z) : emitter := x64_rr false false false 0xF7 (-1) 2 r.
Definition emit_neg_r32 (r : Z) : emitter := x64_rr false false false 0xF7 (-1) 3 r.
Definition emit_inc_r8 (r : Z) : emitter := x64_rr false false (x64_byte_reg_needs_rex r) 0xFE (-1) 0 r.
Definition emit_dec_r8 (r : Z) : emitter := x64_rr false false (x64_byte_reg_needs_rex r) 0xFE (-1) 1 r.
Definition emit_inc_r32 (r : Z) : emitter := x64_rr false false false 0xFF (-1) 0 r.
Definition emit_dec_r32 (r : Z) : emitter := x64_rr false false false 0xFF (-1) 1 r.
Definition emit_lea_r32 (dst base index disp : Z) : emitter := x64_mem false false false 0x8D (-1) dst base index disp.
Definition emit_lea_r64 (dst base index disp : Z) : emitter := x64_mem true false false 0x8D (-1) dst base index disp.
Definition emit_setcc_r8 (cc r : Z) : emitter := x64_rr false false (x64_byte_reg_needs_rex r) 0x0F (0x90 |' cc) 0 r.
Definition emit_cmovcc_r32_r32 (cc dst src : Z) : emitter := x64_rr false false false 0x0F (0x40 |' cc) dst src.
Definition emit_bt_r32_imm8 (r bit : Z) : emitter := x64_rr false false false 0x0F 0xBA 4 r +> emit_byte bit.
Definition emit_lahf : emitter := emit_byte 0x9F.
Definition emit_movzx_r32_ah (dst : Z) : emitter :=
  emit_byte 0x0F +> emit_byte 0xB6 +> emit_byte (u8 (0xC0 |' ((dst &' 7) <<' 3) |' 4)).

(** ** Control flow *)

Definition emit_jcc_rel8 (cc rel8 : Z) : emitter := emit_byte (u8 (0x70 |' cc)) +> emit_byte (u8 rel8).
(** With a zero field; the field's offset. *)
Definition emit_jcc_rel32 (cc : Z) (e : emit_t) : Z * emit_t :=
  let e := (emit_byte 0x0F +> emit_byte (u8 (0x80 |' cc))) e in (emit_pos e, emit_u32 0 e).
Definition emit_jmp_rel32 (e : emit_t) : Z * emit_t := let e := emit_byte 0xE9 e in (emit_pos e, emit_u32 0 e).
Definition emit_call_rel32 (e : emit_t) : Z * emit_t := let e := emit_byte 0xE8 e in (emit_pos e, emit_u32 0 e).
Definition emit_jmp_rel32_to (target_off : Z) : emitter := λ e, let '(at_, e) := emit_jmp_rel32 e in emit_patch_rel32 at_ target_off e.
Definition emit_jcc_rel32_to (cc target_off : Z) : emitter := λ e,
  let '(at_, e) := emit_jcc_rel32 cc e in emit_patch_rel32 at_ target_off e.
Definition emit_call_rel32_to (target_off : Z) : emitter := λ e, let '(at_, e) := emit_call_rel32 e in emit_patch_rel32 at_ target_off e.
Definition emit_jmp_r64 (r : Z) : emitter := x64_rr false false false 0xFF (-1) 4 r.
Definition emit_call_r64 (r : Z) : emitter := x64_rr false false false 0xFF (-1) 2 r.
Definition emit_jmp_m64 (base index disp : Z) : emitter := x64_mem false false false 0xFF (-1) 4 base index disp.
Definition emit_ret : emitter := emit_byte 0xC3.
Definition emit_push_imm32 (imm : Z) : emitter := emit_byte 0x68 +> emit_u32 (u32 imm).
Definition emit_push_r64 (r : Z) : emitter := x64_rex false 0 (-1) r false +> emit_byte (u8 (0x50 |' (r &' 7))).
Definition emit_pop_r64 (r : Z) : emitter := x64_rex false 0 (-1) r false +> emit_byte (u8 (0x58 |' (r &' 7))).
Definition emit_int3 : emitter := emit_byte 0xCC.
Definition emit_nop : emitter := emit_byte 0x90.
