(* ===== verification/EmitX64Ok.v ===== *)
(** * EmitX64Ok: what the x86-64 emitters emit

    Every emitter of EmitX64 appends the encoding of one instruction, and the
    reference decoder of X86 reads that instruction back: [encodes] is the
    table of the header, emitter by emitter.  Branches land on their targets,
    and emission never writes past the buffer. *)

From Stdlib Require Import ZArith Lia Bool List.
From stdpp Require Import base option list.
From S2P Require Import Prelude X86 EmitX64.

Open Scope list_scope.
Open Scope Z_scope.
Open Scope z80_scope.

(** ** Emitters as byte strings *)

Definition put_bytes (bs : list Z) (e : emit_t) : emit_t := fold_left (λ e b, emit_byte b e) bs e.
(** [a] appends [bs]. *)
Definition Emits (a : emitter) (bs : list Z) : Prop := ∀ e, a e = put_bytes bs e.

Lemma emits_byte b : Emits (emit_byte b) [b].
Proof. done. Qed.
Lemma emits_then a b xs ys : Emits a xs → Emits b ys → Emits (a +> b) (xs ++ ys).
Proof. intros Ha Hb e. unfold then_emit, put_bytes. by rewrite Ha, Hb, fold_left_app. Qed.
Lemma emits_if c a xs : Emits a xs → Emits (emit_if c a) (if c then xs else []).
Proof. intros Ha e. by destruct c; [apply Ha|]. Qed.
Lemma emits_cond (c : bool) a b xs ys : Emits a xs → Emits b ys → Emits (if c then a else b) (if c then xs else ys).
Proof. by destruct c. Qed.

(** [n] bytes of [v], low first. *)
Fixpoint le_bytes (n : nat) (v : Z) : list Z := match n with O => [] | S n => u8 v :: le_bytes n (v >>' 8) end.
Lemma le_bytes_length n v : length (le_bytes n v) = n.
Proof. revert v. induction n; intros v; cbn; auto. Qed.
Lemma low_byte v k : 8 <= k → u8 (v mod 2 ^ k) = u8 v.
Proof.
  intros Hk. unfold u8. change 256 with (2 ^ 8).
  rewrite <- !Z.land_ones by lia. rewrite <- Z.land_assoc. f_equal.
  apply Z.bits_inj'. intros n Hn. rewrite Z.land_spec, !Z.testbit_ones by lia. 
  destruct (Z.ltb_spec n 8), (Z.ltb_spec n k); cbn; try lia; by rewrite ?andb_false_r, ?andb_true_r.
Qed.
Lemma byte_of_low v j k : 0 <= j → j + 8 <= k → u8 ((v mod 2 ^ k) >>' j) = u8 (v >>' j).
Proof.
  intros Hj Hk. unfold u8. change 256 with (2 ^ 8). rewrite <- !Z.land_ones by lia.
  apply Z.bits_inj'. intros n Hn. rewrite !Z.land_spec, !Z.shiftr_spec, Z.land_spec, !Z.testbit_ones by lia.
  destruct (Z.ltb_spec n 8), (Z.leb_spec 0 n), (Z.ltb_spec (n + j) k), (Z.leb_spec 0 (n + j)); cbn; try lia;
    by rewrite ?andb_false_r, ?andb_true_r.
Qed.
Lemma emits_u16 v : Emits (emit_u16 v) (le_bytes 2 v).
Proof. done. Qed.
Lemma emits_u32 v : Emits (emit_u32 v) (le_bytes 4 v).
Proof.
  intros e. unfold emit_u32, then_emit. rewrite !emits_u16. unfold put_bytes. cbn.
  unfold u16. change 65536 with (2 ^ 16). rewrite !low_byte, !byte_of_low, !Z.shiftr_shiftr by lia. done.
Qed.
Lemma emits_u64 v : Emits (emit_u64 v) (le_bytes 8 v).
Proof.
  intros e. unfold emit_u64, then_emit. rewrite !emits_u32. unfold put_bytes. cbn.
  unfold u32. change 4294967296 with (2 ^ 32). rewrite !Z.shiftr_shiftr by lia. cbn [Z.add Pos.add Pos.succ].
  rewrite !low_byte, !byte_of_low, !Z.shiftr_shiftr by lia. done.
Qed.

(** ** Immediates read back *)

Lemma le_val_bytes n v : le_val (le_bytes n v) = v mod 2 ^ (8 * Z.of_nat n).
Proof.
  revert v. induction n as [|n IH]; intros v; cbn [le_bytes le_val].
  { change (2 ^ _) with 1. by rewrite Z.mod_1_r. }
  rewrite IH, Z.shiftr_div_pow2 by lia. unfold u8. change 256 with (2 ^ 8).
  replace (8 * Z.of_nat (S n)) with (8 + 8 * Z.of_nat n) by lia.
  rewrite Z.pow_add_r by lia. rewrite Z.rem_mul_r; nia || lia.
Qed.
Lemma take_le_bytes n v rest : take_le n (le_bytes n v ++ rest) = Some (v mod 2 ^ (8 * Z.of_nat n), rest).
Proof.
  unfold take_le. rewrite length_app, le_bytes_length. replace (n + length rest <? n)%nat with false.
  - rewrite take_app_length', drop_app_length' by (symmetry; apply le_bytes_length). by rewrite le_val_bytes.
  - symmetry. apply Nat.ltb_ge. lia.
Qed.

(** A signed integer of [w] bits. *)
Definition int8 (v : Z) : Prop := -128 <= v < 128.
Definition int32 (v : Z) : Prop := -2147483648 <= v < 2147483648.
Definition is_uint32 (v : Z) : Prop := 0 <= v < 4294967296.
Definition is_uint64 (v : Z) : Prop := 0 <= v < 18446744073709551616.

Lemma s8_u8 v : int8 v → s8 (u8 v) = v.
Proof. unfold int8, s8, u8. intros Hv. destruct (Z.ltb_spec (v mod 256) 128); Z.to_euclidean_division_equations; lia. Qed.
Lemma sext32_u32 v : int32 v → sext32 (v mod 4294967296) = v.
Proof. unfold int32, sext32. intros Hv. destruct (Z.ltb_spec (v mod 4294967296) 2147483648); Z.to_euclidean_division_equations; lia. Qed.

Lemma imm8_byte b rest : is_byte b → imm8 (b :: rest) = Some (s8 b, rest).
Proof.
  intros Hb. unfold imm8. cbn. 
  by rewrite drop_0, take_0, Z.mul_0_r, Z.add_0_r.
Qed.
Lemma imm8_int v rest : int8 v → imm8 (u8 v :: rest) = Some (v, rest).
Proof. intros Hv. rewrite imm8_byte by apply u8_byte. by rewrite s8_u8. Qed.
Lemma imm32_bytes v rest : imm32 (le_bytes 4 v ++ rest) = Some (sext32 (v mod 4294967296), rest).
Proof. unfold imm32. by rewrite take_le_bytes. Qed.
Lemma imm32_int v rest : int32 v → imm32 (le_bytes 4 (u32 v) ++ rest) = Some (v, rest).
Proof. intros Hv. rewrite imm32_bytes. unfold u32. by rewrite Z.mod_mod, sext32_u32. Qed.
Lemma imm32_uint v rest : is_uint32 v → imm32 (le_bytes 4 v ++ rest) = Some (sext32 v, rest).
Proof. intros Hv. rewrite imm32_bytes. by rewrite Z.mod_small. Qed.

Lemma take_le_1 b rest : take_le 1 (b :: rest) = Some (b, rest).
Proof. unfold take_le. cbn. by rewrite drop_0, take_0, Z.mul_0_r, Z.add_0_r. Qed.
Lemma take_le_2 v rest : is_word v → take_le 2 (le_bytes 2 v ++ rest) = Some (v, rest).
Proof. intros Hv. rewrite take_le_bytes. by rewrite Z.mod_small. Qed.
Lemma take_le_8 v rest : is_uint64 v → take_le 8 (le_bytes 8 v ++ rest) = Some (v, rest).
Proof. intros Hv. rewrite take_le_bytes. by rewrite Z.mod_small. Qed.

(** ** Registers and prefixes *)

Definition is_reg (r : Z) : Prop := 0 <= r < 16.
(** RSP cannot be an index. *)
Definition is_index (i : Z) : Prop := i = X64_NOREG ∨ (is_reg i ∧ i ≠ 4).
Definition index_of (i : Z) : option Z := if i <? 0 then None else Some i.

Lemma below_16 (P : Z → bool) r : forallb P (zseq 0 16) = true → is_reg r → P r = true.
Proof. intros H Hr. rewrite forallb_forall in H. apply H, elem_of_zseq. unfold is_reg in Hr. lia. Qed.
Lemma below_8 (P : Z → bool) r : forallb P (zseq 0 8) = true → 0 <= r < 8 → P r = true.
Proof. intros H Hr. rewrite forallb_forall in H. apply H, elem_of_zseq. lia. Qed.

Lemma low3 r : is_reg r → 0 <= r &' 7 < 8.
Proof. intros Hr. change 7 with (Z.ones 3). rewrite Z.land_ones by lia. by apply Z.mod_pos_bound. Qed.
Lemma ext_reg r : is_reg r → ext (bit3 r) (r &' 7) = r.
Proof. intros Hr. apply Z.eqb_eq. by apply (below_16 (λ r, ext (bit3 r) (r &' 7) =? r)). Qed.

(** The REX byte for these fields, and what the decoder makes of it. *)
Definition rex_byte (w r x b : bool) : Z :=
  let rex := 0x40 in
  let rex := if w then rex |' 0x08 else rex in
  let rex := if r then rex |' 0x04 else rex in
  let rex := if x then rex |' 0x02 else rex in
  if b then rex |' 0x01 else rex.
Definition rex_of (w r x b force : bool) : option Z :=
  if w || r || x || b || force then Some (rex_byte w r x b) else None.
Definition rex_bytes (w r x b force : bool) : list Z :=
  if w || r || x || b || force then [rex_byte w r x b] else [].
Definition index_bit (i : Z) : bool := (0 <=? i) && bit3 i.

Lemma emits_rex w reg index base force :
  Emits (x64_rex w reg index base force) (rex_bytes w (bit3 reg) (index_bit index) (bit3 base) force).
Proof.
  intros e. unfold x64_rex, index_bit. by destruct w, (bit3 reg), (0 <=? index), (bit3 index), (bit3 base), force.
Qed.

Definition pfx (p66 : bool) : list Z := if p66 then [0x66] else [].
Lemma parse_prefix_bytes p66 w r x b force o t :
  o ≠ 0x66 → o >>' 4 ≠ 4 →
  parse_prefix (pfx p66 ++ rex_bytes w r x b force ++ o :: t) = (p66, rex_of w r x b force, o :: t).
Proof.
  intros H1%Z.eqb_neq H2%Z.eqb_neq. unfold parse_prefix.
  destruct p66, w, r, x, b, force; cbn -[Z.eqb Z.shiftr]; rewrite ?Z.eqb_refl, ?H1, ?H2; try done; by rewrite ?H1, ?H2.
Qed.
Lemma rex_r w r x b f : rexbit (rex_of w r x b f) 2 = r.
Proof. by destruct w, r, x, b, f. Qed.
Lemma rex_x w r x b f : rexbit (rex_of w r x b f) 1 = x.
Proof. by destruct w, r, x, b, f. Qed.
Lemma rex_b w r x b f : rexbit (rex_of w r x b f) 0 = b.
Proof. by destruct w, r, x, b, f. Qed.
Lemma rex_w w r x b f : rexbit (rex_of w r x b f) 3 = w.
Proof. by destruct w, r, x, b, f. Qed.

(** With REX whenever the register is SPL to DIL, byte registers are the low
    bytes. *)
Lemma byte_operand w r x b f q :
  (x64_byte_reg_needs_rex q = true → f = true) → reg_operand (rex_of w r x b f) B8 q = OReg q.
Proof.
  unfold reg_operand, x64_byte_reg_needs_rex. intros H.
  destruct (Z.leb_spec 4 q), (Z.ltb_spec q 8); rewrite ?andb_false_r; try done.
  rewrite H by (destruct (Z.leb_spec q 7); [done|lia]).
  unfold rex_of. by rewrite orb_true_r.
Qed.
Lemma wide_operand rex sz q : sz ≠ B8 → reg_operand rex sz q = OReg q.
Proof. intros H. unfold reg_operand. by destruct sz. Qed.

(** ** ModRM, SIB, displacement *)

(** The byte with fields of 2, 3 and 3 bits. *)
Definition pack (m x y : Z) : Z := u8 ((m <<' 6) |' (x <<' 3) |' y).
Lemma pack_fields m x y : 0 <= m < 4 → 0 <= x < 8 → 0 <= y < 8 →
  (pack m x y) >>' 6 = m ∧ ((pack m x y) >>' 3) &' 7 = x ∧ (pack m x y) &' 7 = y.
Proof.
  intros Hm Hx Hy.
  assert (∀ z, 0 <= z < 8 → z = 0 ∨ z = 1 ∨ z = 2 ∨ z = 3 ∨ z = 4 ∨ z = 5 ∨ z = 6 ∨ z = 7) as E by lia.
  assert (m = 0 ∨ m = 1 ∨ m = 2 ∨ m = 3) as Em by lia.
  destruct Em as [->|[->|[->| ->]]]; destruct (E x Hx) as [->|[->|[->|[->|[->|[->|[->| ->]]]]]]];
    destruct (E y Hy) as [->|[->|[->|[->|[->|[->|[->| ->]]]]]]]; by vm_compute.
Qed.

Definition disp_bytes (md disp : Z) : list Z :=
  (if md =? 1 then [u8 disp] else []) ++ (if md =? 2 then le_bytes 4 (u32 disp) else []).
Definition mem_bytes (reg base index k disp : Z) : list Z :=
  let md := if (disp =? 0) && negb ((base &' 7) =? 5) then 0
    else if (-128 <=? disp) && (disp <=? 127) then 1 else 2 in
  (if (0 <=? index) || ((base &' 7) =? 4) then
     [pack md (reg &' 7) 4; pack k (if 0 <=? index then index &' 7 else 4) (base &' 7)]
   else [pack md (reg &' 7) (base &' 7)]) ++ disp_bytes md disp.

Lemma emits_modrm_mem reg base index k disp :
  Emits (x64_modrm_mem reg base index k disp) (mem_bytes reg base index k disp).
Proof.
  intros e. unfold x64_modrm_mem, mem_bytes, disp_bytes. cbv zeta.
  set (md := if (disp =? 0) && _ then 0 else _).
  set (sib := (0 <=? index) || _). set (idx := if 0 <=? index then index &' 7 else 4).
  unfold pack. destruct sib; unfold then_emit, emit_if; destruct (md =? 1), (md =? 2); rewrite ?emits_u32; reflexivity.
Qed.

Lemma parse_disp_bytes disp md rest : int32 disp →
  md = (if (disp =? 0) then 0 else if (-128 <=? disp) && (disp <=? 127) then 1 else 2) ∨
  md = (if (-128 <=? disp) && (disp <=? 127) then 1 else 2) →
  parse_disp md (disp_bytes md disp ++ rest) = Some (disp, rest).
Proof.
  intros Hd Hm. unfold parse_disp, disp_bytes.
  destruct (Z.eqb_spec disp 0), (Z.leb_spec (-128) disp), (Z.leb_spec disp 127); destruct Hm as [-> | ->]; try lia; cbn -[imm8 imm32];
    subst; rewrite ?imm8_int, <- ?app_assoc, ?imm32_int by (unfold int8; lia); try done.
  all: change (0 mod 256) with 0.
  all: try (exact (imm32_int disp rest Hd)).
Qed.

Lemma index_field i : is_reg i → i ≠ 4 → 0 <= i &' 7 < 8 ∧ (ext (bit3 i) (i &' 7) =? 4) = false.
Proof. intros Hi H. split; [by apply low3|]. rewrite ext_reg by done. by apply Z.eqb_neq. Qed.

(** The operand the decoder finds is the one asked for. *)
Lemma parse_modrm_mem rex reg base index k disp rest :
  is_reg reg → is_reg base → is_index index → 0 <= k < 4 → (index = X64_NOREG → k = 0) → int32 disp →
  rexbit rex 2 = bit3 reg → rexbit rex 1 = index_bit index → rexbit rex 0 = bit3 base →
  parse_modrm rex (mem_bytes reg base index k disp ++ rest) =
  Some (reg, RMem base (index_of index) k disp, rest).
Proof.
  intros Hr Hb Hi Hk Hk0 Hd R2 R1 R0. unfold mem_bytes.
  set (md := if (disp =? 0) && _ then 0 else _).
  assert (0 <= md < 3) as Hmd by (subst md; repeat case_match; lia).
  assert (((md =? 0) && ((base &' 7) =? 5)) = false) as Hb5.
  { subst md. by destruct ((base &' 7) =? 5), (disp =? 0), ((-128 <=? disp) && (disp <=? 127)). }
  assert (parse_disp md (disp_bytes md disp ++ rest) = Some (disp, rest)) as Hp.
  { apply parse_disp_bytes; [done|]. subst md. destruct (disp =? 0); cbn [andb]; [|by left].
    destruct ((base &' 7) =? 5); cbn [negb]; [by right|by left]. }
  pose proof (low3 reg Hr) as Lr. pose proof (low3 base Hb) as Lb.
  assert ((md =? 3) = false) as Hmd3 by (apply Z.eqb_neq; lia).
  assert (is_index index → (0 <=? index) = false → index_of index = None ∧ k = 0) as Hno.
  { intros [->|[H _]] H0; [by auto|]. apply Z.leb_gt in H0. unfold is_reg in H. lia. }
  destruct (0 <=? index) eqn:Hpos.
  - destruct Hi as [->|[Hi Hi4]]; [done|]. destruct (index_field index Hi Hi4) as [Li Hne].
    destruct (pack_fields md (reg &' 7) 4) as (E1 & E2 & E3); [lia..|].
    destruct (pack_fields k (index &' 7) (base &' 7)) as (F1 & F2 & F3); [lia..|].
    cbn [orb app]. unfold parse_modrm. cbv zeta. rewrite E1, E2, E3, Hmd3. unfold parse_base. cbn [Z.eqb Pos.eqb].
    rewrite F1, F2, F3, R1. unfold index_bit. rewrite Hpos. cbn [andb]. rewrite Hne. cbn -[disp_bytes parse_disp ext Z.land Z.shiftr].
    rewrite Hb5, Hp. cbn -[disp_bytes parse_disp ext Z.land Z.shiftr]. rewrite R2, R0, !ext_reg by done. unfold index_of.
    rewrite (proj2 (Z.ltb_ge index 0)) by (apply Z.leb_le; done). done.
  - destruct (Hno Hi eq_refl) as [-> ->]. cbn [orb].
    assert (index_bit index = false) as X by (unfold index_bit; by rewrite Hpos).
    destruct ((base &' 7) =? 4) eqn:H4.
    + destruct (pack_fields md (reg &' 7) 4) as (E1 & E2 & E3); [lia..|].
      destruct (pack_fields 0 4 (base &' 7)) as (F1 & F2 & F3); [lia..|].
      cbn [app]. unfold parse_modrm. cbv zeta. rewrite E1, E2, E3, Hmd3. unfold parse_base. cbn [Z.eqb Pos.eqb].
      rewrite F1, F2, F3, R1, X. cbn -[disp_bytes parse_disp ext Z.land Z.shiftr]. rewrite Hb5, Hp. cbn -[disp_bytes parse_disp ext Z.land Z.shiftr]. by rewrite R2, R0, !ext_reg.
    + destruct (pack_fields md (reg &' 7) (base &' 7)) as (E1 & E2 & E3); [lia..|].
      cbn [app]. unfold parse_modrm. cbv zeta. rewrite E1, E2, E3, Hmd3. unfold parse_base. rewrite H4. cbn -[disp_bytes parse_disp ext Z.land Z.shiftr].
      rewrite Hb5, Hp. cbn -[disp_bytes parse_disp ext Z.land Z.shiftr]. by rewrite R2, R0, !ext_reg.
Qed.

Definition rr_byte (reg rm : Z) : Z := u8 (0xC0 |' ((reg &' 7) <<' 3) |' (rm &' 7)).
Lemma parse_modrm_rr rex reg rm rest : is_reg reg → is_reg rm →
  rexbit rex 2 = bit3 reg → rexbit rex 0 = bit3 rm →
  parse_modrm rex (rr_byte reg rm :: rest) = Some (reg, RReg rm, rest).
Proof.
  intros Hr Hm R2 R0. change (rr_byte reg rm) with (pack 3 (reg &' 7) (rm &' 7)).
  pose proof (low3 reg Hr). pose proof (low3 rm Hm).
  destruct (pack_fields 3 (reg &' 7) (rm &' 7)) as (E1 & E2 & E3); [lia..|].
  unfold parse_modrm. cbv zeta. rewrite E1, E2, E3, R2, R0. cbn -[disp_bytes parse_disp ext Z.land Z.shiftr]. by rewrite !ext_reg.
Qed.

Lemma emits_op op0 op1 : Emits (x64_op op0 op1) ([u8 op0] ++ (if 0 <=? op1 then [u8 op1] else [])).
Proof. apply emits_then; [apply emits_byte|apply emits_if, emits_byte]. Qed.
Lemma emits_rr w p66 force op0 op1 reg rm : Emits (x64_rr w p66 force op0 op1 reg rm)
  (pfx p66 ++ rex_bytes w (bit3 reg) false (bit3 rm) force ++ ([u8 op0] ++ (if 0 <=? op1 then [u8 op1] else [])) ++ [rr_byte reg rm]).
Proof.
  apply emits_then; [apply emits_if, emits_byte|]. apply emits_then; [apply (emits_rex w reg X64_NOREG rm force)|].
  apply emits_then; [apply emits_op|apply emits_byte].
Qed.
Lemma emits_mem w p66 force op0 op1 reg base index disp : Emits (x64_mem w p66 force op0 op1 reg base index disp)
  (pfx p66 ++ rex_bytes w (bit3 reg) (index_bit index) (bit3 base) force ++
   ([u8 op0] ++ (if 0 <=? op1 then [u8 op1] else [])) ++ mem_bytes reg base index 0 disp).
Proof.
  apply emits_then; [apply emits_if, emits_byte|]. apply emits_then; [apply emits_rex|].
  apply emits_then; [apply emits_op|apply emits_modrm_mem].
Qed.

(** ** Emitters that decode *)

Definition decodes (a : emitter) (i : instr) : Prop :=
  ∃ bs, Emits a bs ∧ (1 <= length bs <= 15)%nat ∧ ∀ rest, decode_instr (bs ++ rest) = Some (i, rest).

(** At most 15 bytes, and one at least. *)
Lemma length_pfx p : (length (pfx p) <= 1)%nat.
Proof. destruct p; cbn; lia. Qed.
Lemma length_rex w r x b f : (length (rex_bytes w r x b f) <= 1)%nat.
Proof. unfold rex_bytes. destruct (_ || _); cbn; lia. Qed.
Lemma length_mem reg base index k disp : (1 <= length (mem_bytes reg base index k disp) <= 7)%nat.
Proof.
  unfold mem_bytes, disp_bytes. cbv zeta. set (md := if _ && negb _ then 0 else _). clearbody md.
  rewrite !length_app. destruct (_ || _), (Z.eqb_spec md 1), (Z.eqb_spec md 2); cbn; lia.
Qed.
Ltac short :=
  rewrite ?length_app, ?le_bytes_length;
  repeat match goal with
  | |- context [length (pfx ?p)] => pose proof (length_pfx p); generalize dependent (length (pfx p)); intros
  | |- context [length (rex_bytes ?w ?r ?x ?b ?f)] =>
      pose proof (length_rex w r x b f); generalize dependent (length (rex_bytes w r x b f)); intros
  | |- context [length (mem_bytes ?a ?b ?c ?d ?f)] =>
      pose proof (length_mem a b c d f); generalize dependent (length (mem_bytes a b c d f)); intros
  | |- context [length (if ?c then _ else _)] => destruct c
  end; cbn [length]; lia.

Lemma decode_pfx_1 p66 w r x b f o t : (o =? 0x66) = false → (o >>' 4 =? 4) = false → (o =? 0x0F) = false →
  decode_instr (pfx p66 ++ rex_bytes w r x b f ++ o :: t) = decode_1 p66 (rex_of w r x b f) o t.
Proof.
  intros H1%Z.eqb_neq H2%Z.eqb_neq H3. unfold decode_instr. rewrite parse_prefix_bytes by done. by rewrite H3.
Qed.
Lemma decode_pfx_2 p66 w r x b f o t :
  decode_instr (pfx p66 ++ rex_bytes w r x b f ++ 0x0F :: o :: t) = decode_2 p66 (rex_of w r x b f) o t.
Proof. unfold decode_instr. by rewrite parse_prefix_bytes. Qed.

Lemma osize_of p66 w r x b f : osize p66 (rex_of w r x b f) = if w then Q64 else if p66 then W16 else D32.
Proof. unfold osize. by rewrite rex_w. Qed.

Lemma needs_l a b : x64_byte_reg_needs_rex a = true → x64_byte_reg_needs_rex a || x64_byte_reg_needs_rex b = true.
Proof. by intros ->. Qed.
Lemma needs_r a b : x64_byte_reg_needs_rex b = true → x64_byte_reg_needs_rex a || x64_byte_reg_needs_rex b = true.
Proof. intros ->. apply orb_true_r. Qed.
Lemma needs_id a : x64_byte_reg_needs_rex a = true → x64_byte_reg_needs_rex a = true.
Proof. done. Qed.

Create HintDb x64 discriminated.
#[export] Hint Resolve needs_l needs_r needs_id rex_r rex_x rex_b : x64.

(** ** The table *)

Definition is_cc (cc : Z) : Prop := 0 <= cc < 16.
Definition is_alu_code (op : Z) : Prop := 0 <= op < 8.
Definition is_shift (sh : Z) (op : shift_op) : Prop := shift_of sh = Some op ∧ 0 <= sh < 8.
Definition mem_op (base index disp : Z) : operand := OMem base (index_of index) 0 disp.
Definition is_mem (base index disp : Z) : Prop := is_reg base ∧ is_index index ∧ int32 disp.

(** What each emitter stands for. *)
Inductive encodes : emitter → instr → Prop :=
(* moves *)
| enc_mov_r32_r32 dst src : is_reg dst → is_reg src → encodes (emit_mov_r32_r32 dst src) (IMov D32 (OReg dst) (OReg src))
| enc_mov_r64_r64 dst src : is_reg dst → is_reg src → encodes (emit_mov_r64_r64 dst src) (IMov Q64 (OReg dst) (OReg src))
| enc_mov_r8_r8 dst src : is_reg dst → is_reg src → encodes (emit_mov_r8_r8 dst src) (IMov B8 (OReg dst) (OReg src))
| enc_mov_r32_imm32 dst v : is_reg dst → is_uint32 v → encodes (emit_mov_r32_imm32 dst v) (IMov D32 (OReg dst) (OImm (sext32 v)))
| enc_mov_r64_imm64 dst v : is_reg dst → is_uint64 v → encodes (emit_mov_r64_imm64 dst v) (IMov Q64 (OReg dst) (OImm (sext64 v)))
| enc_mov_r8_imm8 dst v : is_reg dst → is_byte v → encodes (emit_mov_r8_imm8 dst v) (IMov B8 (OReg dst) (OImm (s8 v)))
| enc_movzx_r32_r8 dst src : is_reg dst → is_reg src → encodes (emit_movzx_r32_r8 dst src) (IMovzx B8 dst (OReg src))
| enc_movzx_r32_r16 dst src : is_reg dst → is_reg src → encodes (emit_movzx_r32_r16 dst src) (IMovzx W16 dst (OReg src))
| enc_movzx_r32_m8 dst b i d : is_reg dst → is_mem b i d → encodes (emit_movzx_r32_m8 dst b i d) (IMovzx B8 dst (mem_op b i d))
| enc_movzx_r32_m16 dst b i d : is_reg dst → is_mem b i d → encodes (emit_movzx_r32_m16 dst b i d) (IMovzx W16 dst (mem_op b i d))
| enc_movzx_r32_m16_sib dst b i k d : is_reg dst → is_mem b i d → 0 <= k < 4 → i ≠ X64_NOREG →
    encodes (emit_movzx_r32_m16_sib dst b i k d) (IMovzx W16 dst (OMem b (index_of i) k d))
| enc_mov_r32_m32 dst b i d : is_reg dst → is_mem b i d → encodes (emit_mov_r32_m32 dst b i d) (IMov D32 (OReg dst) (mem_op b i d))
| enc_mov_r64_m64 dst b i d : is_reg dst → is_mem b i d → encodes (emit_mov_r64_m64 dst b i d) (IMov Q64 (OReg dst) (mem_op b i d))
| enc_mov_m8_r8 b i d src : is_reg src → is_mem b i d → encodes (emit_mov_m8_r8 b i d src) (IMov B8 (mem_op b i d) (OReg src))
| enc_mov_m16_r16 b i d src : is_reg src → is_mem b i d → encodes (emit_mov_m16_r16 b i d src) (IMov W16 (mem_op b i d) (OReg src))
| enc_mov_m32_r32 b i d src : is_reg src → is_mem b i d → encodes (emit_mov_m32_r32 b i d src) (IMov D32 (mem_op b i d) (OReg src))
| enc_mov_m64_r64 b i d src : is_reg src → is_mem b i d → encodes (emit_mov_m64_r64 b i d src) (IMov Q64 (mem_op b i d) (OReg src))
| enc_mov_m8_imm8 b i d v : is_mem b i d → is_byte v → encodes (emit_mov_m8_imm8 b i d v) (IMov B8 (mem_op b i d) (OImm (s8 v)))
| enc_mov_m16_imm16 b i d v : is_mem b i d → is_word v → encodes (emit_mov_m16_imm16 b i d v) (IMov W16 (mem_op b i d) (OImm v))
| enc_mov_m32_imm32 b i d v : is_mem b i d → is_uint32 v → encodes (emit_mov_m32_imm32 b i d v) (IMov D32 (mem_op b i d) (OImm (sext32 v)))
| enc_lea_r32 dst b i d : is_reg dst → is_mem b i d → encodes (emit_lea_r32 dst b i d) (ILea D32 dst (mem_op b i d))
| enc_lea_r64 dst b i d : is_reg dst → is_mem b i d → encodes (emit_lea_r64 dst b i d) (ILea Q64 dst (mem_op b i d))
(* compares and arithmetic *)
| enc_cmp_m8_imm8 b i d v : is_mem b i d → is_byte v → encodes (emit_cmp_m8_imm8 b i d v) (IAlu CMP B8 (mem_op b i d) (OImm (s8 v)))
| enc_cmp_m16_imm8 b i d v : is_mem b i d → int8 v → encodes (emit_cmp_m16_imm8 b i d v) (IAlu CMP W16 (mem_op b i d) (OImm v))
| enc_cmp_m32_r32 b i d r : is_reg r → is_mem b i d → encodes (emit_cmp_m32_r32 b i d r) (IAlu CMP D32 (mem_op b i d) (OReg r))
| enc_alu_r32_r32 op dst src : is_alu_code op → is_reg dst → is_reg src → encodes (emit_alu_r32_r32 op dst src) (IAlu (alu_of op) D32 (OReg dst) (OReg src))
| enc_alu_r64_r64 op dst src : is_alu_code op → is_reg dst → is_reg src → encodes (emit_alu_r64_r64 op dst src) (IAlu (alu_of op) Q64 (OReg dst) (OReg src))
| enc_alu_r8_r8 op dst src : is_alu_code op → is_reg dst → is_reg src → encodes (emit_alu_r8_r8 op dst src) (IAlu (alu_of op) B8 (OReg dst) (OReg src))
| enc_alu_r8_m8 op dst b i d : is_alu_code op → is_reg dst → is_mem b i d → encodes (emit_alu_r8_m8 op dst b i d) (IAlu (alu_of op) B8 (OReg dst) (mem_op b i d))
| enc_alu_r32_imm op dst v : is_alu_code op → is_reg dst → int32 v → encodes (emit_alu_r32_imm op dst v) (IAlu (alu_of op) D32 (OReg dst) (OImm v))
| enc_alu_r64_imm op dst v : is_alu_code op → is_reg dst → int32 v → encodes (emit_alu_r64_imm op dst v) (IAlu (alu_of op) Q64 (OReg dst) (OImm v))
| enc_alu_r16_imm8 op dst v : is_alu_code op → is_reg dst → int8 v → encodes (emit_alu_r16_imm8 op dst v) (IAlu (alu_of op) W16 (OReg dst) (OImm v))
| enc_alu_r16_r16 op dst src : is_alu_code op → is_reg dst → is_reg src → encodes (emit_alu_r16_r16 op dst src) (IAlu (alu_of op) W16 (OReg dst) (OReg src))
| enc_alu_r8_imm8 op dst v : is_alu_code op → is_reg dst → is_byte v → encodes (emit_alu_r8_imm8 op dst v) (IAlu (alu_of op) B8 (OReg dst) (OImm (s8 v)))
| enc_add_m64_r64 b i d src : is_reg src → is_mem b i d → encodes (emit_add_m64_r64 b i d src) (IAlu ADD Q64 (mem_op b i d) (OReg src))
| enc_alu_m8_imm8 op b i d v : is_alu_code op → is_mem b i d → is_byte v → encodes (emit_alu_m8_imm8 op b i d v) (IAlu (alu_of op) B8 (mem_op b i d) (OImm (s8 v)))
| enc_alu_m32_imm8 op b i d v : is_alu_code op → is_mem b i d → int8 v → encodes (emit_alu_m32_imm8 op b i d v) (IAlu (alu_of op) D32 (mem_op b i d) (OImm v))
| enc_incdec_m16 b i d inc : is_mem b i d → encodes (emit_incdec_m16 b i d inc) ((if inc : bool then IInc else IDec) W16 (mem_op b i d))
| enc_test_r32_r32 a b : is_reg a → is_reg b → encodes (emit_test_r32_r32 a b) (ITest D32 (OReg a) (OReg b))
| enc_test_r32_imm32 r v : is_reg r → is_uint32 v → encodes (emit_test_r32_imm32 r v) (ITest D32 (OReg r) (OImm (sext32 v)))
| enc_test_r8_imm8 r v : is_reg r → is_byte v → encodes (emit_test_r8_imm8 r v) (ITest B8 (OReg r) (OImm (s8 v)))
| enc_shift_r32_imm sh op r n : is_shift sh op → is_reg r → is_byte n → encodes (emit_shift_r32_imm sh r n) (IShift op D32 (OReg r) n)
| enc_shift_r8_imm sh op r n : is_shift sh op → is_reg r → is_byte n → encodes (emit_shift_r8_imm sh r n) (IShift op B8 (OReg r) n)
| enc_not_r32 r : is_reg r → encodes (emit_not_r32 r) (INot (OReg r))
| enc_neg_r32 r : is_reg r → encodes (emit_neg_r32 r) (INeg (OReg r))
| enc_inc_r8 r : is_reg r → encodes (emit_inc_r8 r) (IInc B8 (OReg r))
| enc_dec_r8 r : is_reg r → encodes (emit_dec_r8 r) (IDec B8 (OReg r))
| enc_inc_r32 r : is_reg r → encodes (emit_inc_r32 r) (IInc D32 (OReg r))
| enc_dec_r32 r : is_reg r → encodes (emit_dec_r32 r) (IDec D32 (OReg r))
| enc_setcc_r8 cc r : is_cc cc → is_reg r → encodes (emit_setcc_r8 cc r) (ISetcc cc (OReg r))
| enc_cmovcc_r32_r32 cc dst src : is_cc cc → is_reg dst → is_reg src → encodes (emit_cmovcc_r32_r32 cc dst src) (ICmov cc dst (OReg src))
| enc_bt_r32_imm8 r n : is_reg r → is_byte n → encodes (emit_bt_r32_imm8 r n) (IBt (OReg r) n)
| enc_lahf : encodes emit_lahf ILahf
| enc_movzx_r32_ah dst : 0 <= dst < 8 → encodes (emit_movzx_r32_ah dst) (IMovzx B8 dst (OHigh 0))
(* control flow and the stack *)
| enc_jcc_rel8 cc rel : is_cc cc → int8 rel → encodes (emit_jcc_rel8 cc rel) (IJcc cc rel)
| enc_jmp_r64 r : is_reg r → encodes (emit_jmp_r64 r) (IJmpInd (OReg r))
| enc_call_r64 r : is_reg r → encodes (emit_call_r64 r) (ICallInd (OReg r))
| enc_jmp_m64 b i d : is_mem b i d → encodes (emit_jmp_m64 b i d) (IJmpInd (mem_op b i d))
| enc_ret : encodes emit_ret IRet
| enc_push_imm32 v : int32 v → encodes (emit_push_imm32 v) (IPush (OImm v))
| enc_push_r64 r : is_reg r → encodes (emit_push_r64 r) (IPush (OReg r))
| enc_pop_r64 r : is_reg r → encodes (emit_pop_r64 r) (IPop r)
| enc_int3 : encodes emit_int3 IInt3
| enc_nop : encodes emit_nop INop.
#[export] Hint Constructors encodes : x64.

(** ** The table is right *)

Create HintDb emitters discriminated.
#[export] Hint Unfold
  emit_mov_r32_r32 emit_mov_r64_r64 emit_mov_r8_r8 emit_mov_r32_imm32 emit_mov_r64_imm64 emit_mov_r8_imm8
  emit_movzx_r32_r8 emit_movzx_r32_r16 emit_movzx_r32_m8 emit_movzx_r32_m16 emit_movzx_r32_m16_sib
  emit_mov_r32_m32 emit_mov_r64_m64 emit_mov_m8_r8 emit_mov_m16_r16 emit_mov_m32_r32 emit_mov_m64_r64
  emit_mov_m8_imm8 emit_mov_m16_imm16 emit_mov_m32_imm32 emit_cmp_m8_imm8 emit_cmp_m16_imm8 emit_cmp_m32_r32
  emit_alu_r32_r32 emit_alu_r64_r64 emit_alu_r8_r8 emit_alu_r8_m8 emit_alu_imm emit_alu_r32_imm
  emit_alu_r64_imm emit_alu_r16_imm8 emit_alu_r16_r16 emit_alu_r8_imm8 emit_add_m64_r64 emit_alu_m8_imm8
  emit_alu_m32_imm8 emit_incdec_m16 emit_test_r32_r32 emit_test_r32_imm32 emit_test_r8_imm8 emit_shift_r32_imm
  emit_shift_r8_imm emit_not_r32 emit_neg_r32 emit_inc_r8 emit_dec_r8 emit_inc_r32 emit_dec_r32 emit_lea_r32
  emit_lea_r64 emit_setcc_r8 emit_cmovcc_r32_r32 emit_bt_r32_imm8 emit_lahf emit_movzx_r32_ah emit_jcc_rel8
  emit_jmp_r64 emit_call_r64 emit_jmp_m64 emit_ret emit_push_imm32 emit_push_r64 emit_pop_r64 emit_int3
  emit_nop : emitters.

(** The bytes of an emitter, by its shape. *)
Ltac emits_by_shape :=
  lazymatch goal with
  | |- Emits (then_emit _ _) _ => apply emits_then; emits_by_shape
  | |- Emits (x64_rr _ _ _ _ _ _ _) _ => apply emits_rr
  | |- Emits (x64_mem _ _ _ _ _ _ _ _ _) _ => apply emits_mem
  | |- Emits (x64_modrm_mem _ _ _ _ _) _ => apply emits_modrm_mem
  | |- Emits (x64_rex _ _ _ _ _) _ => apply emits_rex
  | |- Emits (emit_byte _) _ => apply emits_byte
  | |- Emits (emit_u16 _) _ => apply emits_u16
  | |- Emits (emit_u32 _) _ => apply emits_u32
  | |- Emits (emit_u64 _) _ => apply emits_u64
  end.

(** A closed integer expression. *)
Ltac ground_pos p := lazymatch p with xH => idtac | xO ?q => ground_pos q | xI ?q => ground_pos q end.
Ltac ground_z z :=
  lazymatch z with
  | ?a |' ?b => ground_z a; ground_z b
  | ?a &' ?b => ground_z a; ground_z b
  | ?a <<' ?b => ground_z a; ground_z b
  | Z0 => idtac
  | Zpos ?p => ground_pos p
  | Zneg ?p => ground_pos p
  end.
(** Find the opcode, then its operands, then its immediate. *)
Ltac opcode_step :=
  intros rest; rewrite <- ?app_assoc;
  repeat match goal with
  | |- context [[u8 ?z] ++ _] => ground_z z; let v := eval vm_compute in (u8 z) in progress change (u8 z) with v
  | |- context [if 0 <=? ?z then [u8 ?y] else []] => ground_z z; ground_z y;
      let v := eval vm_compute in (if 0 <=? z then [u8 y] else []) in change (if 0 <=? z then [u8 y] else []) with v
  end;
  rewrite <- ?app_assoc; cbn [app];
  first [rewrite decode_pfx_2 | rewrite decode_pfx_1 by reflexivity].
Ltac opcode_run :=
  unfold decode_1, decode_2;
  cbn -[parse_modrm osize rm_operand reg_operand imm8 imm32 take_le rex_of decode_grp1 decode_shift decode_grp3 decode_grp5 le_bytes u8 u32 s8 sext32].
Ltac operands :=
  unfold decode_grp1, decode_shift, decode_grp3, decode_grp5;
  first [rewrite parse_modrm_rr by (auto with x64; (unfold is_reg; lia))
        |rewrite parse_modrm_mem by (auto with x64; (unfold is_reg; lia))];
  rewrite ?osize_of;
  cbn -[osize reg_operand imm8 imm32 take_le rex_of le_bytes u8 u32 s8 sext32].
Ltac immediate :=
  rewrite ?imm8_byte, ?imm8_int, ?imm32_int, ?imm32_uint, ?take_le_1, ?take_le_2, ?take_le_8 by assumption;
  cbn -[osize reg_operand imm8 imm32 take_le rex_of le_bytes u8 u32 s8 sext32].
Ltac encoded :=
  unfold decodes; eexists; split; [emits_by_shape|split; [short|]]; opcode_step; opcode_run;
  try operands; immediate; rewrite ?byte_operand, ?wide_operand by first [done | auto with x64]; try reflexivity.

Lemma alu_code_cases op : is_alu_code op → op = 0 ∨ op = 1 ∨ op = 2 ∨ op = 3 ∨ op = 4 ∨ op = 5 ∨ op = 6 ∨ op = 7.
Proof. unfold is_alu_code. lia. Qed.
Lemma cc_cases cc : is_cc cc → cc = 0 ∨ cc = 1 ∨ cc = 2 ∨ cc = 3 ∨ cc = 4 ∨ cc = 5 ∨ cc = 6 ∨ cc = 7 ∨
  cc = 8 ∨ cc = 9 ∨ cc = 10 ∨ cc = 11 ∨ cc = 12 ∨ cc = 13 ∨ cc = 14 ∨ cc = 15.
Proof. unfold is_cc. lia. Qed.
Ltac alternatives H := repeat (destruct H as [H|H]).
Lemma shift_cases sh op : is_shift sh op → sh = 0 ∧ op = ROL ∨ sh = 1 ∧ op = ROR ∨ sh = 2 ∧ op = RCL ∨ sh = 3 ∧ op = RCR ∨
  sh = 4 ∧ op = SHL ∨ sh = 5 ∧ op = SHR ∨ sh = 7 ∧ op = SAR.
Proof.
  intros [H Hr]. assert (sh = 0 ∨ sh = 1 ∨ sh = 2 ∨ sh = 3 ∨ sh = 4 ∨ sh = 5 ∨ sh = 6 ∨ sh = 7) as E by lia.
  alternatives E; subst; vm_compute in H; try congruence; simplify_eq; tauto.
Qed.
Lemma decodes_fits a b i v : (int8 v → decodes a i) → decodes b i →
  decodes (if (-128 <=? v) && (v <=? 127) then a else b) i.
Proof. intros Ha Hb. destruct (Z.leb_spec (-128) v), (Z.leb_spec v 127); cbn [andb]; auto. apply Ha. unfold int8. lia. Qed.
Lemma decodes_one a b i n : (n = 1 → decodes a i) → decodes b i → decodes (if n =? 1 then a else b) i.
Proof. intros Ha Hb. destruct (Z.eqb_spec n 1); auto. Qed.

Lemma reg_cases r : is_reg r → r = 0 ∨ r = 1 ∨ r = 2 ∨ r = 3 ∨ r = 4 ∨ r = 5 ∨ r = 6 ∨ r = 7 ∨
  r = 8 ∨ r = 9 ∨ r = 10 ∨ r = 11 ∨ r = 12 ∨ r = 13 ∨ r = 14 ∨ r = 15.
Proof. unfold is_reg. lia. Qed.
(** Opcodes with the register in their low bits, and without operands. *)
Ltac encoded_plain :=
  unfold decodes; eexists; split; [emits_by_shape|split; [short|]]; intros rest; rewrite <- ?app_assoc;
  repeat match goal with |- context [u8 ?z] => ground_z z; let v := eval vm_compute in (u8 z) in progress change (u8 z) with v
  | |- context [rex_bytes ?a ?b ?c ?d ?f] => let v := eval vm_compute in (rex_bytes a b c d f) in change (rex_bytes a b c d f) with v end;
  cbn [app]; cbv -[le_bytes imm8 imm32 take_le u8 u32 s8 sext32 sext64 app];
  rewrite ?imm8_byte, ?imm8_int, ?imm32_int, ?imm32_uint, ?take_le_8 by assumption; reflexivity.

Lemma decodes_sib dst b i k d : is_reg dst → is_reg b → is_index i → int32 d → 0 <= k < 4 → i ≠ X64_NOREG →
  decodes (emit_movzx_r32_m16_sib dst b i k d) (IMovzx W16 dst (OMem b (index_of i) k d)).
Proof.
  intros Hd Hb Hi Hz Hk Hn. eexists. split; [unfold emit_movzx_r32_m16_sib; emits_by_shape|split; [short|]]. intros rest.
  rewrite <- !app_assoc. cbn [app]. etransitivity; [exact (decode_pfx_2 false _ _ _ _ _ _ _)|]. unfold decode_2. cbn -[parse_modrm rex_of rm_operand].
  by rewrite parse_modrm_mem by (auto with x64; by intros).
Qed.
Lemma encodes_decodes a i : encodes a i → decodes a i.
Proof.
  destruct 1; repeat match goal with
    | H : is_mem _ _ _ |- _ => destruct H as (? & ? & ?)
    | H : is_alu_code _ |- _ => apply alu_code_cases in H; alternatives H; subst
    | H : is_cc _ |- _ => apply cc_cases in H; alternatives H; subst
    | H : is_shift _ _ |- _ => apply shift_cases in H; alternatives H; destruct H as [-> ->]
    | inc : bool |- _ => destruct inc
    end; autounfold with emitters; unfold mem_op.
  all: repeat first [apply decodes_fits; [intros ?|] | apply decodes_one; [intros ->|]].
  all: try solve [encoded].
  all: try match goal with H : is_reg ?r |- decodes (_ +> emit_byte (u8 (_ |' ?r &' 7)) +> _) _ => apply reg_cases in H; alternatives H; subst end.
  all: try match goal with H : is_reg ?r |- decodes (_ +> emit_byte (u8 (_ |' ?r &' 7))) _ => apply reg_cases in H; alternatives H; subst end.
  all: try solve [encoded_plain].
  - by apply decodes_sib.
  - assert (dst = 0 ∨ dst = 1 ∨ dst = 2 ∨ dst = 3 ∨ dst = 4 ∨ dst = 5 ∨ dst = 6 ∨ dst = 7) as E by lia.
    alternatives E; subst; encoded_plain.
Qed.

(** ** The buffer *)

(** [room n e]: the next [n] bytes fit. *)
Definition emit_ok (e : emit_t) : Prop :=
  0 <= e_offset e ∧ e_capacity e <= Z.of_nat (length (e_buf e)) ∧ e_capacity e < 2147483648.
Definition room (n : nat) (e : emit_t) : Prop := e_offset e + Z.of_nat n <= e_capacity e.
Definition pos (e : emit_t) : nat := Z.to_nat (e_offset e).
(** The buffer with [bs] at [o]. *)
Definition write_at (o : nat) (bs buf : list Z) : list Z := take o buf ++ bs ++ drop (o + length bs) buf.

Lemma length_write_at o bs buf : (o + length bs <= length buf)%nat → length (write_at o bs buf) = length buf.
Proof. intros H. unfold write_at. rewrite !length_app, length_take, length_drop. lia. Qed.
Lemma take_write_at o bs buf : (o <= length buf)%nat → take o (write_at o bs buf) = take o buf.
Proof. intros H. unfold write_at. rewrite take_app_length' by (rewrite length_take; lia). done. Qed.
Lemma drop_write_at o bs buf : (o <= length buf)%nat → drop o (write_at o bs buf) = bs ++ drop (o + length bs) buf.
Proof. intros H. unfold write_at. rewrite drop_app_length' by (rewrite length_take; lia). done. Qed.
Lemma drop_write_after o xs ys buf : (o <= length buf)%nat →
  drop (o + length xs) (write_at o (xs ++ ys) buf) = ys ++ drop (o + length (xs ++ ys)) buf.
Proof. intros H. rewrite <- drop_drop, drop_write_at, <- app_assoc by done. by rewrite drop_app_length. Qed.
Lemma write_at_app o xs ys buf : (o + length xs <= length buf)%nat →
  write_at (o + length xs) ys (write_at o xs buf) = write_at o (xs ++ ys) buf.
Proof.
  intros H. unfold write_at. rewrite !length_app.
  rewrite (app_assoc (take o buf)). rewrite take_app_length' by (rewrite length_app, length_take; lia).
  rewrite drop_app_ge by (rewrite length_app, length_take; lia). rewrite drop_drop, length_app, length_take.
  rewrite <- !app_assoc. do 4 f_equal. lia.
Qed.
Lemma write_at_one o b buf : (o < length buf)%nat → <[o:=b]> buf = write_at o [b] buf.
Proof. intros H. unfold write_at. cbn. rewrite insert_take_drop by done. by rewrite Nat.add_1_r. Qed.

(** Bytes that fit are the next ones of the buffer. *)
Lemma put_bytes_room bs e : emit_ok e → room (length bs) e →
  put_bytes bs e = mk_emit (write_at (pos e) bs (e_buf e)) (e_offset e + Z.of_nat (length bs)) (e_capacity e).
Proof.
  revert e. induction bs as [|b bs IH]; intros [buf o c] (H0 & H1 & H2) Hr; unfold room, pos in *; cbn [e_buf e_offset e_capacity length] in *.
  - cbn. unfold write_at. cbn. rewrite Nat.add_0_r, take_drop. f_equal. lia.
  - change (put_bytes (b :: bs) (mk_emit buf o c)) with (put_bytes bs (emit_byte b (mk_emit buf o c))).
    assert (emit_byte b (mk_emit buf o c) = mk_emit (write_at (Z.to_nat o) [b] buf) (o + 1) c) as ->.
    { unfold emit_byte. cbn [e_buf e_offset e_capacity]. rewrite (proj2 (Z.ltb_lt o c)) by lia.
      rewrite write_at_one by lia. unfold u32. by rewrite Z.mod_small by lia. }
    rewrite IH; unfold pos; cbn [e_buf e_offset e_capacity].
    + replace (Z.to_nat (o + 1)) with (Z.to_nat o + length [b])%nat by (cbn; lia).
      rewrite write_at_app by (cbn; lia). f_equal. lia.
    + split_and!; [cbn; lia|cbn; rewrite length_write_at by (cbn; lia); cbn; lia|cbn; lia].
    + unfold room. cbn. lia.
Qed.

(** Whatever is emitted, nothing at or past the capacity changes. *)
Lemma put_bytes_capacity bs e : 0 <= e_offset e → 
  let e' := put_bytes bs e in
  length (e_buf e') = length (e_buf e) ∧ e_capacity e' = e_capacity e ∧ 
  ∀ i : nat, e_capacity e <= Z.of_nat i → e_buf e' !! i = e_buf e !! i.
Proof.
  revert e. induction bs as [|b bs IH]; intros e He; [done|].
  change (put_bytes (b :: bs) e) with (put_bytes bs (emit_byte b e)).
  destruct (IH (emit_byte b e)) as (L & C & B).
  { unfold emit_byte, u32. cbn. apply Z.mod_pos_bound. lia. }
  assert (length (e_buf (emit_byte b e)) = length (e_buf e)) as E.
  { unfold emit_byte. cbn. case_match; [apply length_insert|done]. }
  split_and!; [congruence|done|]. intros i Hi. rewrite B by done.
  unfold emit_byte. cbn. destruct (Z.ltb_spec (e_offset e) (e_capacity e)); [|done].
  apply list_lookup_insert_ne. lia.
Qed.

(** ** Sequences *)

(** [a] emits the encodings of [is_]. *)
Definition assembles (a : emitter) (is_ : list instr) : Prop :=
  ∃ bs, Emits a bs ∧ ∀ rest, disassemble (length is_) (bs ++ rest) = Some (is_, rest).

Lemma assembles_none : assembles (λ e, e) [].
Proof. by exists []. Qed.
Lemma assembles_one a i : encodes a i → assembles a [i].
Proof. intros (bs & H & _ & D)%encodes_decodes. exists bs. split; [done|]. intros rest. cbn. by rewrite D. Qed.
Lemma disassemble_app xs ys bs bs' rest : disassemble (length xs) bs = Some (xs, bs') →
  disassemble (length ys) bs' = Some (ys, rest) → disassemble (length (xs ++ ys)) bs = Some (xs ++ ys, rest).
Proof.
  revert bs. induction xs as [|x xs IH]; cbn; intros bs H1 H2; [by simplify_eq|].
  destruct (decode_instr bs) as [[i t]|]; [|done]. cbn in *.
  destruct (disassemble (length xs) t) as [[is_ t']|] eqn:E; [|done]. cbn in *. simplify_eq.
  by rewrite (IH t E H2).
Qed.
Lemma assembles_then a b xs ys : assembles a xs → assembles b ys → assembles (a +> b) (xs ++ ys).
Proof.
  intros (bs & Ha & Da) (cs & Hb & Db). exists (bs ++ cs). split; [by apply emits_then|].
  intros rest. rewrite <- app_assoc. by eapply disassemble_app.
Qed.
Lemma assembles_if (c : bool) a xs : assembles a xs → assembles (emit_if c a) (if c then xs else []).
Proof. destruct c; [done|]. intros _. apply assembles_none. Qed.
Lemma assembles_cond (c : bool) a b xs ys : assembles a xs → assembles b ys → assembles (if c then a else b) (if c then xs else ys).
Proof. by destruct c. Qed.
Lemma assembles_cons a b i ys : encodes a i → assembles b ys → assembles (a +> b) (i :: ys).
Proof. intros Ha Hb. by apply (assembles_then a b [i]); [apply assembles_one|]. Qed.

(** ** Branches *)

Lemma write_at_cons o x ys buf : (o < length buf)%nat →
  write_at o [x] (write_at (S o) ys buf) = write_at o (x :: ys) buf.
Proof.
  intros H. unfold write_at at 1. cbn [length]. rewrite Nat.add_1_r, drop_write_at by lia.
  assert (take o (write_at (S o) ys buf) = take o buf) as ->.
  { unfold write_at. rewrite take_app_le by (rewrite length_take; lia). rewrite take_take. f_equal. lia. }
  unfold write_at. cbn. by rewrite Nat.add_succ_r.
Qed.
Lemma patch_writes at_ t e : 0 <= at_ → at_ + 4 <= Z.of_nat (length (e_buf e)) →
  emit_patch_rel32 at_ t e =
  mk_emit (write_at (Z.to_nat at_) (le_bytes 4 (u32 (t - (at_ + 4)))) (e_buf e)) (e_offset e) (e_capacity e).
Proof.
  intros H0 H1. unfold emit_patch_rel32. cbv zeta. f_equal.
  set (d := u32 _). cbn [le_bytes]. rewrite !Z.shiftr_shiftr by lia.
  change (8 + 8) with 16. change (16 + 8) with 24.
  rewrite !write_at_one by (rewrite ?length_insert; lia).
  rewrite (write_at_cons (S (S _)) _ [_]), (write_at_cons (S _)), write_at_cons by lia. done.
Qed.

(** Writing over bytes that were just written. *)
Lemma write_at_over o xs ys zs ys' buf : length ys = length ys' → (o + length (xs ++ ys ++ zs) <= length buf)%nat →
  write_at (o + length xs) ys' (write_at o (xs ++ ys ++ zs) buf) = write_at o (xs ++ ys' ++ zs) buf.
Proof.
  intros E H. rewrite !length_app in H. unfold write_at.
  rewrite <- !app_assoc. rewrite !length_app, <- E.
  rewrite take_app_ge by (rewrite length_take; lia). rewrite length_take.
  replace (o + length xs - o `min` length buf)%nat with (length xs) by lia. rewrite take_app_length.
  rewrite <- app_assoc. do 3 f_equal.
  rewrite drop_app_ge by (rewrite length_take; lia). rewrite length_take.
  replace (o + length xs + length ys - o `min` length buf)%nat with (length xs + length ys)%nat by lia.
  rewrite <- drop_drop, drop_app_length, drop_app_length. done.
Qed.

(** Where the byte string at [o] of the buffer decodes to [i]. *)
Definition code_at (o : nat) (e : emit_t) (i : instr) (next : nat) : Prop :=
  decode_instr (drop o (e_buf e)) = Some (i, drop next (e_buf e)).

Lemma decode_jmp d rest : int32 d → decode_instr (0xE9 :: le_bytes 4 (u32 d) ++ rest) = Some (IJmp d, rest).
Proof. intros Hd. cbv -[le_bytes imm32 u32 app]. by rewrite imm32_int. Qed.
Lemma decode_call d rest : int32 d → decode_instr (0xE8 :: le_bytes 4 (u32 d) ++ rest) = Some (ICall d, rest).
Proof. intros Hd. cbv -[le_bytes imm32 u32 app]. by rewrite imm32_int. Qed.
Lemma decode_jcc cc d rest : is_cc cc → int32 d →
  decode_instr (0x0F :: u8 (0x80 |' cc) :: le_bytes 4 (u32 d) ++ rest) = Some (IJcc cc d, rest).
Proof.
  intros Hc Hd. apply cc_cases in Hc. alternatives Hc; subst;
    (match goal with |- context [u8 (0x80 |' ?z)] => let v := eval vm_compute in (u8 (0x80 |' z)) in change (u8 (0x80 |' z)) with v end);
    cbv -[le_bytes imm32 u32 app]; by rewrite imm32_int.
Qed.

(** A branch with an empty field: opcode, then four bytes to be patched. *)
Lemma emits_field op e : emit_ok e → room (length op + 4) e → 
  ∀ bs, room (length op + 4 + length bs) e → ∀ t, 
  emit_patch_rel32 (e_offset e + Z.of_nat (length op)) t (put_bytes bs (emit_u32 0 (put_bytes op e))) =
  mk_emit (write_at (pos e) (op ++ le_bytes 4 (u32 (t - (e_offset e + Z.of_nat (length op) + 4))) ++ bs) (e_buf e))
    (e_offset e + Z.of_nat (length op + 4 + length bs)) (e_capacity e).
Proof.
  intros Hok Hr bs Hr2 t. rewrite emits_u32.
  assert (put_bytes bs (put_bytes (le_bytes 4 0) (put_bytes op e)) = put_bytes (op ++ le_bytes 4 0 ++ bs) e) as ->.
  { unfold put_bytes. by rewrite !fold_left_app. }
  assert (length (op ++ le_bytes 4 0 ++ bs) = length op + 4 + length bs)%nat as L by (rewrite !length_app; cbn; lia).
  rewrite put_bytes_room by (rewrite ?L; done). destruct Hok as (H0 & H1 & H2). unfold room in *.
  rewrite patch_writes; cbn [e_buf e_offset e_capacity].
  - rewrite L. replace (Z.to_nat (e_offset e + Z.of_nat (length op))) with (pos e + length op)%nat by (unfold pos; lia).
    rewrite write_at_over; [done|done|]. rewrite L. unfold pos. lia.
  - lia.
  - rewrite length_write_at by (rewrite L; unfold pos; lia). lia.
Qed.

(** C5: every emitter of the header appends the encoding of exactly one
    instruction: where the buffer has room, the bytes from the old offset to
    the new one, at most 15, decode with the reference decoder to the
    instruction the table [encodes] gives for the emitter's name, operands
    and immediate, and the bytes before are untouched.  Covered are REX on
    SPL to DIL, the SIB byte for RSP and R12, and the zero displacement of RBP
    and R13. *)
Theorem emitted_instruction a i e :
  encodes a i → emit_ok e → room 15 e →
  let e' := a e in
  (1 <= e_offset e' - e_offset e <= 15) ∧ e_capacity e' = e_capacity e ∧
  take (pos e) (e_buf e') = take (pos e) (e_buf e) ∧
  decode_instr (drop (pos e) (e_buf e')) = Some (i, drop (pos e') (e_buf e')).
Proof.
  intros (bs & H & L & D)%encodes_decodes Hok Hr. cbv zeta. rewrite H.
  rewrite put_bytes_room by (unfold room in *; done || lia). destruct Hok as (H0 & H1 & H2). unfold room, pos in *.
  cbn [e_buf e_offset e_capacity]. split_and!; [lia..|done|by apply take_write_at; lia|].
  rewrite drop_write_at by lia. rewrite D. do 2 f_equal.
  replace (Z.to_nat (e_offset e + Z.of_nat (length bs))) with (Z.to_nat (e_offset e) + length bs)%nat by lia.
  pose proof (drop_write_after (Z.to_nat (e_offset e)) bs [] (e_buf e)) as E. rewrite !app_nil_r in E. by rewrite E by lia.
Qed.
Example emitted_instruction_witness :
  (* add cl, [r13 + r8]: the displacement byte of R13, no REX.W *)
  let e := mk_emit (repeat 0xCC 20) 2 20 in
  let e' := emit_alu_r8_m8 X64_ALU_ADD 1 13 8 0 e in
  take 8 (drop 2 (e_buf e')) = [0x43; 0x02; 0x4C; 0x05; 0x00; 0xCC; 0xCC; 0xCC] ∧
  decode_instr (drop 2 (e_buf e')) = Some (IAlu ADD B8 (OReg 1) (OMem 13 (Some 8) 0 0), drop 7 (e_buf e')).
Proof.
  intros e e'. split; [by vm_compute|].
  assert (encodes (emit_alu_r8_m8 X64_ALU_ADD 1 13 8 0) (IAlu ADD B8 (OReg 1) (OMem 13 (Some 8) 0 0))) as H.
  { apply (enc_alu_r8_m8 0 1 13 8 0); [by split|by split|]. split_and!; [by split|right; by split|by split]. }
  destruct (emitted_instruction _ _ e H) as (_ & _ & _ & D); [by split|unfold room; cbn; lia|exact D].
Defined.

(** A branch with opcode [op] and its field patched. *)
Lemma patched_branch op (i : Z → instr) t skip e :
  (∀ d rest, int32 d → decode_instr (op ++ le_bytes 4 (u32 d) ++ rest) = Some (i d, rest)) →
  emit_ok e → room (length op + 4 + length skip) e → 
  let rel := t - (e_offset e + Z.of_nat (length op) + 4) in
  let e' := emit_patch_rel32 (e_offset e + Z.of_nat (length op)) t (put_bytes skip (emit_u32 0 (put_bytes op e))) in
  let after := (pos e + (length op + 4))%nat in
  int32 rel →
  e_offset e' = e_offset e + Z.of_nat (length op + 4 + length skip) ∧
  drop after (e_buf e') = skip ++ drop (after + length skip) (e_buf e) ∧
  decode_instr (drop (pos e) (e_buf e')) = Some (i rel, drop after (e_buf e')).
Proof.
  intros D Hok Hr rel e' after Hd. subst e'. rewrite emits_field by (unfold room in *; done || lia). fold rel.
  cbn [e_buf e_offset e_capacity]. destruct Hok as (H0 & H1 & H2). unfold room, pos in *.
  assert (length (op ++ le_bytes 4 (u32 rel)) = length op + 4)%nat as L by (by rewrite length_app, le_bytes_length).
  assert (∀ buf, drop after (write_at (Z.to_nat (e_offset e)) (op ++ le_bytes 4 (u32 rel) ++ skip) buf) =
    drop (Z.to_nat (e_offset e) + length (op ++ le_bytes 4 (u32 rel)))
      (write_at (Z.to_nat (e_offset e)) ((op ++ le_bytes 4 (u32 rel)) ++ skip) buf)) as E by (intros; by rewrite L, <- app_assoc).
  assert (drop after (write_at (Z.to_nat (e_offset e)) (op ++ le_bytes 4 (u32 rel) ++ skip) (e_buf e)) =
    skip ++ drop (after + length skip) (e_buf e)) as E2.
  { rewrite E, drop_write_after by lia. do 2 f_equal. rewrite length_app, L. subst after. lia. }
  split_and!; [done|done|]. rewrite drop_write_at by lia. rewrite <- !app_assoc, D by done.
  rewrite E2. do 4 f_equal. rewrite !length_app, le_bytes_length. subst after. lia.
Qed.

Lemma put_bytes_offset bs e : emit_ok e → room (length bs) e → emit_pos (put_bytes bs e) = e_offset e + Z.of_nat (length bs).
Proof. intros Hok Hr. by rewrite put_bytes_room. Qed.
Lemma jmp_to_patched t e : emit_ok e → room 1 e → emit_jmp_rel32_to t e =
  emit_patch_rel32 (e_offset e + Z.of_nat (length [0xE9])) t (put_bytes [] (emit_u32 0 (put_bytes [0xE9] e))).
Proof. intros Hok Hr. by rewrite <- put_bytes_offset. Qed.
Lemma call_to_patched t e : emit_ok e → room 1 e → emit_call_rel32_to t e =
  emit_patch_rel32 (e_offset e + Z.of_nat (length [0xE8])) t (put_bytes [] (emit_u32 0 (put_bytes [0xE8] e))).
Proof. intros Hok Hr. by rewrite <- put_bytes_offset. Qed.
Lemma jcc_patched cc e : emit_ok e → room 2 e → emit_jcc_rel32 cc e =
  (e_offset e + Z.of_nat (length [0x0F; u8 (0x80 |' cc)]), emit_u32 0 (put_bytes [0x0F; u8 (0x80 |' cc)] e)).
Proof. intros Hok Hr. by rewrite <- put_bytes_offset. Qed.

(** C24: rel32 branches land where they are told.  A JMP, CALL or Jcc emitted
    to a known offset decodes to a branch whose end plus displacement is that
    offset; a Jcc emitted with an empty field and patched after [skip] more
    bytes, as the out-of-line exits are, decodes to a Jcc over exactly those
    bytes; and patching leaves them as they were. *)
Theorem branches_land cc t skip e :
  is_cc cc → emit_ok e → room (6 + length skip) e → 0 <= t < 2147483648 →
  let o := pos e in
  (∃ d, decode_instr (drop o (e_buf (emit_jmp_rel32_to t e))) =
      Some (IJmp d, drop (o + 5) (e_buf (emit_jmp_rel32_to t e))) ∧ Z.of_nat (o + 5) + d = t) ∧
  (∃ d, decode_instr (drop o (e_buf (emit_call_rel32_to t e))) =
      Some (ICall d, drop (o + 5) (e_buf (emit_call_rel32_to t e))) ∧ Z.of_nat (o + 5) + d = t) ∧
  (∃ d, decode_instr (drop o (e_buf (emit_jcc_rel32_to cc t e))) =
      Some (IJcc cc d, drop (o + 6) (e_buf (emit_jcc_rel32_to cc t e))) ∧ Z.of_nat (o + 6) + d = t) ∧
  (let '(at_, e1) := emit_jcc_rel32 cc e in
   let e2 := put_bytes skip e1 in
   let e3 := emit_patch_rel32 at_ (emit_pos e2) e2 in
   decode_instr (drop o (e_buf e3)) = Some (IJcc cc (Z.of_nat (length skip)), drop (o + 6) (e_buf e3)) ∧
   drop (o + 6) (e_buf e3) = skip ++ drop (o + 6 + length skip) (e_buf e) ∧ pos e3 = (o + 6 + length skip)%nat).
Proof.
  intros Hcc Hok Hr Ht. pose proof Hok as (H0 & H1 & H2). unfold room in Hr. cbv zeta.
  assert (room 1 e ∧ room 2 e) as [R1 R2] by (unfold room; lia).
  unfold emit_jcc_rel32_to. rewrite jmp_to_patched, call_to_patched, jcc_patched by done. unfold room in *.
  split; [|split; [|split]].
  - destruct (patched_branch [0xE9] IJmp t [] e) as (_ & _ & D); [exact decode_jmp|done|unfold room; cbn; lia|unfold int32; cbn; lia|].
    eexists. split; [exact D|]. cbn. unfold pos. lia.
  - destruct (patched_branch [0xE8] ICall t [] e) as (_ & _ & D); [exact decode_call|done|unfold room; cbn; lia|unfold int32; cbn; lia|].
    eexists. split; [exact D|]. cbn. unfold pos. lia.
  - destruct (patched_branch [0x0F; u8 (0x80 |' cc)] (IJcc cc) t [] e) as (_ & _ & D);
      [intros; by apply decode_jcc|done|unfold room; cbn; lia|unfold int32; cbn; lia|].
    eexists. split; [exact D|]. cbn. unfold pos. lia.
  - set (op := [0x0F; u8 (0x80 |' cc)]).
    assert (emit_pos (put_bytes skip (emit_u32 0 (put_bytes op e))) = e_offset e + 6 + Z.of_nat (length skip)) as ->.
    { rewrite emits_u32. unfold put_bytes. rewrite <- !fold_left_app. change (fold_left _ ?l e) with (put_bytes l e).
      rewrite put_bytes_offset; unfold room; rewrite ?length_app, ?le_bytes_length; cbn [length op]; done || lia. }
    destruct (patched_branch op (IJcc cc) (e_offset e + 6 + Z.of_nat (length skip)) skip e) as (P & E & D);
      [intros; by apply decode_jcc|done|unfold room; cbn; lia|unfold int32; cbn; lia|].
    change (length op) with 2%nat in *. change (2 + 4)%nat with 6%nat in *. split; [|split; [exact E|unfold pos in *; rewrite P; lia]].
    rewrite D. do 4 f_equal. lia.
Qed.
Example branches_land_witness :
  let e := mk_emit (repeat 0 32) 4 32 in
  (∃ d, decode_instr (drop 4 (e_buf (emit_jmp_rel32_to 0 e))) =
      Some (IJmp d, drop 9 (e_buf (emit_jmp_rel32_to 0 e))) ∧ 9 + d = 0).
Proof.
  intros e. destruct (branches_land X64_CC_NE 0 [0x90; 0x90] e) as ((d & H1 & H2) & _); [by split|by split|by vm_compute|by split|].
  exists d. split; [exact H1|exact H2].
Defined.
