(* ===== verification/TransX64.v ===== *)
(** * TransX64: host code for one Z80 instruction (src/dbt/dbt_x64.c)

    The emission half of the x86-64 translator, up to [emit_op]: the pinned
    registers, access to guest registers and memory, the store check against
    the code bitmap with its out-of-line slow paths, the inline 8-bit ALU,
    the rotates, BIT, the switch over the straight-line instructions, and
    phase 3's loop over a stretch of them.
    An emitter appends code; a [generator] also records slow paths
    ([s_slow], [s_nslow]) and links.  Functions that return a register or an
    operand next to emitting code are pairs.  The addresses of the C helpers
    the code calls are parameters. *)

From Stdlib Require Import ZArith Lia Bool List.
From stdpp Require Import base gmap list.
From S2P Require Import Prelude Cpu Decode Interp Translate JitFlags BlockCache EmitX64.

Open Scope list_scope.
Open Scope Z_scope.
Open Scope z80_scope.

(** ** The register convention *)

Definition R_CPU : Z := 3.
Definition R_MEM : Z := 12.
Definition R_AUX : Z := 13.
Definition R_HL : Z := 14.
Definition R_BC : Z := 15.
Definition R_DE : Z := 5.
Definition R_SP : Z := 8.
Definition R_A : Z := 1.
Definition R_F : Z := 2.
Definition R_CNT : Z := 9.
Definition T0 : Z := 0.
Definition T1 : Z := 6.
Definition T2 : Z := 7.
Definition T3 : Z := 10.
Definition T4 : Z := 11.
Definition X64_RSP : Z := 4.
Definition X64_RDI : Z := 7.

(** The aux block behind [R_AUX]. *)
Definition AUX_BITMAP_OFF : Z := 0x10000.
Definition AUX_CACHE_OFF : Z := 0x20000.
Definition FT_DAA : Z := 0x400.
Definition FT_ADD16 : Z := FT_DAA + DAA_TABLE_LEN * 2.

(** [offsetof(z80_cpu_t, ...)] with natural alignment, little endian. *)
Definition OFF_F : Z := 0.
Definition OFF_A : Z := 1.
Definition OFF_C : Z := 2.
Definition OFF_B : Z := 3.
Definition OFF_E : Z := 4.
Definition OFF_D : Z := 5.
Definition OFF_L : Z := 6.
Definition OFF_H : Z := 7.
Definition OFF_BC : Z := 2.
Definition OFF_DE : Z := 4.
Definition OFF_HL : Z := 6.
Definition OFF_IX : Z := 16.
Definition OFF_IY : Z := 18.
Definition OFF_IXL : Z := OFF_IX + 0.
Definition OFF_IXH : Z := OFF_IX + 1.
Definition OFF_IYL : Z := OFF_IY + 0.
Definition OFF_IYH : Z := OFF_IY + 1.
Definition OFF_SP : Z := 20.
Definition OFF_PC : Z := 22.
Definition OFF_SP_BASE : Z := 56.
Definition OFF_CALL_BUDGET : Z := 64.
Definition OFF_INSN_COUNT : Z := 184.
Definition OFF_MEMPTR : Z := 234.
Definition OFF_Q : Z := 236.

Definition RAS_CALL_BUDGET : Z := 32 * 1024.

(** ** Guest registers *)

(** -1: unsupported. *)
Definition reg8_offset_p (r pfx : Z) : Z :=
  match r with
  | 0 => OFF_B
  | 1 => OFF_C
  | 2 => OFF_D
  | 3 => OFF_E
  | 4 => OFF_H
  | 5 => OFF_L
  | 7 => OFF_A
  | 8 => if pfx =? 0xFD then OFF_IYH else OFF_IXH
  | 9 => if pfx =? 0xFD then OFF_IYL else OFF_IXL
  | _ => -1
  end.

(** The pinned pair of a register code and whether it is the high half. *)
Definition r8_host_pair (r : Z) : option (Z * bool) :=
  match r with
  | 0 => Some (R_BC, true)
  | 1 => Some (R_BC, false)
  | 2 => Some (R_DE, true)
  | 3 => Some (R_DE, false)
  | 4 => Some (R_HL, true)
  | 5 => Some (R_HL, false)
  | _ => None
  end.

(** No code. *)
Definition emit_none : emitter := λ e, e.

Definition emit_shl_r32_imm (r n : Z) : emitter := emit_shift_r32_imm X64_SH_SHL r n.
Definition emit_shr_r32_imm (r n : Z) : emitter := emit_shift_r32_imm X64_SH_SHR r n.
Definition emit_ror_r32_imm (r n : Z) : emitter := emit_shift_r32_imm X64_SH_ROR r n.
Definition emit_rol_r32_imm (r n : Z) : emitter := emit_shift_r32_imm X64_SH_ROL r n.

(** The code, and the register the value is in. *)
Definition emit_read_r8 (tmp r pfx : Z) : emitter * Z :=
  if r =? 7 then (emit_none, R_A)
  else match r8_host_pair r with
  | Some (pr, false) => (emit_movzx_r32_r8 tmp pr, tmp)
  | Some (pr, true) => (emit_mov_r32_r32 tmp pr +> emit_shr_r32_imm tmp 8, tmp)
  | None => (emit_movzx_r32_m8 tmp R_CPU X64_NOREG (reg8_offset_p r pfx), tmp)
  end.

Definition emit_write_r8 (r pfx src : Z) : emitter :=
  if r =? 7 then emit_if (negb (src =? R_A)) (emit_mov_r32_r32 R_A src)
  else match r8_host_pair r with
  | Some (pr, false) => emit_mov_r8_r8 pr src
  | Some (pr, true) => emit_ror_r32_imm pr 8 +> emit_mov_r8_r8 pr src +> emit_rol_r32_imm pr 8
  | None => emit_mov_m8_r8 R_CPU X64_NOREG (reg8_offset_p r pfx) src
  end.

Definition emit_write_r8_imm (r pfx imm : Z) : emitter :=
  if r =? 7 then emit_mov_r32_imm32 R_A imm
  else match r8_host_pair r with
  | Some (pr, false) => emit_mov_r8_imm8 pr imm
  | Some (pr, true) =>
      emit_alu_r32_imm X64_ALU_AND pr 0xFF +> emit_if (nz imm) (emit_alu_r32_imm X64_ALU_OR pr (imm <<' 8))
  | None => emit_mov_m8_imm8 R_CPU X64_NOREG (reg8_offset_p r pfx) imm
  end.

Definition idx_reg_offset (pfx : Z) : Z := if pfx =? 0xFD then OFF_IY else OFF_IX.

(** [None] for -1: IX or IY, in the context. *)
Definition rr_host_p (rr pfx : Z) : option Z :=
  if (rr =? 2) && ((pfx =? 0xDD) || (pfx =? 0xFD)) then None
  else match rr with
  | 0 => Some R_BC
  | 1 => Some R_DE
  | 2 => Some R_HL
  | 3 => Some R_SP
  | _ => None
  end.

(** ** Small pieces *)

Definition emit_addr_plus (dst src delta : Z) : emitter :=
  emit_lea_r32 dst src X64_NOREG delta +> emit_movzx_r32_r16 dst dst.
Definition emit_sp_add (delta : Z) : emitter := emit_alu_r16_imm8 X64_ALU_ADD R_SP delta.
Definition emit_set_memptr_imm (value : Z) : emitter := emit_mov_m16_imm16 R_CPU X64_NOREG OFF_MEMPTR value.
Definition emit_set_memptr_quirk_imm (low8_imm : Z) : emitter :=
  emit_mov_r32_r32 T1 R_A +> emit_shl_r32_imm T1 8 +>
  emit_if (nz low8_imm) (emit_alu_r32_imm X64_ALU_OR T1 low8_imm) +>
  emit_mov_m16_r16 R_CPU X64_NOREG OFF_MEMPTR T1.
Definition emit_set_memptr_quirk_rr (pr : Z) : emitter :=
  emit_lea_r32 T1 pr X64_NOREG 1 +> emit_movzx_r32_r8 T1 T1 +>
  emit_mov_r32_r32 T0 R_A +> emit_shl_r32_imm T0 8 +> emit_alu_r32_r32 X64_ALU_OR T1 T0 +>
  emit_mov_m16_r16 R_CPU X64_NOREG OFF_MEMPTR T1.
Definition emit_set_memptr_rr_plus_one (pr : Z) : emitter :=
  emit_lea_r32 T1 pr X64_NOREG 1 +> emit_mov_m16_r16 R_CPU X64_NOREG OFF_MEMPTR T1.

(** [disp]: an int8. *)
Definition emit_idx_eff_addr (dst pfx disp : Z) : emitter :=
  emit_movzx_r32_m16 dst R_CPU X64_NOREG (idx_reg_offset pfx) +>
  emit_if (negb (disp =? 0)) (emit_lea_r32 dst dst X64_NOREG disp +> emit_movzx_r32_r16 dst dst).

Definition flag_mask_for_cc (k : Z) : Z :=
  match (k >>' 1) &' 3 with 0 => FLAG_Z | 1 => FLAG_C | 2 => FLAG_PV | _ => FLAG_S end.
Definition host_cc_for_cc (k : Z) : Z := if nz (k &' 1) then X64_CC_NZ else X64_CC_Z.
Definition emit_test_z80_flag (mask : Z) : emitter := emit_test_r8_imm8 R_F mask.

(** ** The inline ALU *)

Inductive alu_kind : Set := ALU_ADD | ALU_ADC | ALU_SUB | ALU_SBC | ALU_AND | ALU_OR | ALU_XOR | ALU_CP.

Inductive alu_src : Set :=
| SRC_IMM (imm : Z)
| SRC_REG (reg : Z)
| SRC_MEM (base index disp : Z).

Definition emit_alu8_src (x : Z) (src : alu_src) : emitter :=
  match src with
  | SRC_IMM imm => emit_alu_r8_imm8 x R_A (u8 imm)
  | SRC_REG reg => emit_alu_r8_r8 x R_A reg
  | SRC_MEM base index disp => emit_alu_r8_m8 x R_A base index disp
  end.

Definition emit_alu_logic (x : Z) (is_and : bool) (fmask : Z) (src : alu_src) : emitter :=
  emit_alu8_src x src +>
  emit_if (nz fmask)
    (emit_movzx_r32_m8 R_F R_AUX R_A FT_LOGIC +>
     emit_if (is_and && nz (fmask &' FLAG_H)) (emit_alu_r32_imm X64_ALU_OR R_F FLAG_H)).

Definition is_sub_op (op : alu_kind) : bool := match op with ALU_SUB | ALU_SBC | ALU_CP => true | _ => false end.

(** The tail of [emit_alu_inline]: F from CF, the LAHF byte, V and the
    undocumented bits. *)
Definition emit_alu_flags (op : alu_kind) (fmask : Z) (src : alu_src) : emitter :=
  let is_sub := is_sub_op op in
  let want_xy := nz (fmask &' (FLAG_5 |' FLAG_3)) in
  let want_v := nz (fmask &' FLAG_PV) in
  if fmask =? FLAG_C then emit_setcc_r8 X64_CC_C R_F
  else
    let lahf_bits := fmask &' (FLAG_S |' FLAG_Z |' FLAG_H |' FLAG_C) in
    let keep := lahf_bits |' (if is_sub then FLAG_N else 0) in
    emit_if want_v (emit_setcc_r8 X64_CC_O T3) +>
    (if nz lahf_bits then emit_lahf +> emit_movzx_r32_ah R_F +> emit_alu_r32_imm X64_ALU_AND R_F keep
     else emit_mov_r32_imm32 R_F (if is_sub && nz (fmask &' FLAG_N) then FLAG_N else 0)) +>
    emit_if want_v (emit_shl_r32_imm T3 2 +> emit_alu_r32_r32 X64_ALU_OR R_F T3) +>
    emit_if want_xy
      match op, src with
      | ALU_CP, SRC_IMM imm =>
          emit_if (nz (imm &' (FLAG_5 |' FLAG_3))) (emit_alu_r32_imm X64_ALU_OR R_F (imm &' (FLAG_5 |' FLAG_3)))
      | _, _ =>
          match op with
          | ALU_CP => emit_movzx_r32_r8 T0 (if src is SRC_REG reg then reg else 0)
          | _ => emit_mov_r32_r32 T0 R_A
          end +>
          emit_alu_r32_imm X64_ALU_AND T0 (FLAG_5 |' FLAG_3) +> emit_alu_r32_r32 X64_ALU_OR R_F T0
      end.

Definition alu_code (op : alu_kind) : Z :=
  match op with
  | ALU_ADD => X64_ALU_ADD | ALU_ADC => X64_ALU_ADC | ALU_SUB => X64_ALU_SUB | ALU_SBC => X64_ALU_SBB
  | ALU_AND => X64_ALU_AND | ALU_OR => X64_ALU_OR | ALU_XOR => X64_ALU_XOR | ALU_CP => X64_ALU_CMP
  end.

Definition emit_alu_arith (op : alu_kind) (fmask : Z) (src : alu_src) : emitter :=
  emit_if (nz (fmask &' FLAG_PV)) (emit_alu_r32_r32 X64_ALU_XOR T3 T3) +>
  match op with ALU_ADC | ALU_SBC => emit_bt_r32_imm8 R_F 0 | _ => emit_none end +>
  emit_alu8_src (alu_code op) src +>
  emit_if (nz fmask) (emit_alu_flags op fmask src).

Definition emit_alu_inline (op : alu_kind) (fmask : Z) (src : alu_src) : emitter :=
  match op with
  | ALU_AND => emit_alu_logic X64_ALU_AND true fmask src
  | ALU_OR => emit_alu_logic X64_ALU_OR false fmask src
  | ALU_XOR => emit_alu_logic X64_ALU_XOR false fmask src
  | ALU_CP =>
      if negb (nz fmask) then emit_none
      else match src with
      | SRC_MEM base index disp =>
          if nz (fmask &' (FLAG_5 |' FLAG_3))
          then emit_movzx_r32_m8 T1 base index disp +> emit_alu_arith ALU_CP fmask (SRC_REG T1)
          else emit_alu_arith ALU_CP fmask src
      | _ => emit_alu_arith ALU_CP fmask src
      end
  | _ => emit_alu_arith op fmask src
  end.

Definition alu_op_for (t : z80_op_type) : alu_kind :=
  match t with
  | Z80_OP_ADD_A_R | Z80_OP_ADD_A_N | Z80_OP_ADD_A_HL_ind => ALU_ADD
  | Z80_OP_ADC_A_R | Z80_OP_ADC_A_N | Z80_OP_ADC_A_HL_ind => ALU_ADC
  | Z80_OP_SUB_A_R | Z80_OP_SUB_A_N | Z80_OP_SUB_A_HL_ind => ALU_SUB
  | Z80_OP_SBC_A_R | Z80_OP_SBC_A_N | Z80_OP_SBC_A_HL_ind => ALU_SBC
  | Z80_OP_AND_A_R | Z80_OP_AND_A_N | Z80_OP_AND_A_HL_ind => ALU_AND
  | Z80_OP_OR_A_R | Z80_OP_OR_A_N | Z80_OP_OR_A_HL_ind => ALU_OR
  | Z80_OP_XOR_A_R | Z80_OP_XOR_A_N | Z80_OP_XOR_A_HL_ind => ALU_XOR
  | _ => ALU_CP
  end.

(** ** INC, DEC, rotates, BIT *)

Definition emit_incdec8_inline (v : Z) (is_inc : bool) (fmask : Z) : emitter :=
  let rest := nz (fmask &' (0xFF &~ FLAG_C)) in
  let keep_c := rest && nz (fmask &' FLAG_C) in
  emit_if keep_c (emit_mov_r32_r32 T0 R_F +> emit_alu_r32_imm X64_ALU_AND T0 FLAG_C) +>
  (if is_inc then emit_inc_r8 v else emit_dec_r8 v) +>
  emit_if rest
    (emit_movzx_r32_m8 R_F R_AUX v (if is_inc then FT_INC else FT_DEC) +>
     emit_if keep_c (emit_alu_r32_r32 X64_ALU_OR R_F T0)).

Definition emit_cb_rotshift_inline (grp v fmask : Z) : emitter :=
  let c_live := nz (fmask &' FLAG_C) in
  emit_if c_live (emit_alu_r32_r32 X64_ALU_XOR T0 T0) +>
  match grp with
  | 0 => emit_shift_r8_imm X64_SH_ROL v 1
  | 1 => emit_shift_r8_imm X64_SH_ROR v 1
  | 2 => emit_bt_r32_imm8 R_F 0 +> emit_shift_r8_imm X64_SH_RCL v 1
  | 3 => emit_bt_r32_imm8 R_F 0 +> emit_shift_r8_imm X64_SH_RCR v 1
  | 4 => emit_shift_r8_imm X64_SH_SHL v 1
  | 5 => emit_shift_r8_imm X64_SH_SAR v 1
  | 6 => emit_shift_r8_imm X64_SH_SHL v 1 +> emit_if c_live (emit_setcc_r8 X64_CC_C T0) +>
         emit_alu_r8_imm8 X64_ALU_OR v 1
  | _ => emit_shift_r8_imm X64_SH_SHR v 1
  end +>
  emit_if (c_live && negb (grp =? 6)) (emit_setcc_r8 X64_CC_C T0) +>
  emit_if (nz fmask)
    (emit_movzx_r32_m8 R_F R_AUX v FT_LOGIC +> emit_if c_live (emit_alu_r32_r32 X64_ALU_OR R_F T0)).

Definition emit_cb_bit_inline (n v xy : Z) : emitter :=
  emit_alu_r32_imm X64_ALU_AND R_F FLAG_C +>
  emit_test_r8_imm8 v (u8 (1 <<' n)) +>
  emit_mov_r32_imm32 T0 (FLAG_Z |' FLAG_PV |' FLAG_H) +>
  emit_mov_r32_imm32 T4 ((if n =? 7 then FLAG_S else 0) |' FLAG_H) +>
  emit_cmovcc_r32_r32 X64_CC_NZ T0 T4 +>
  emit_alu_r32_r32 X64_ALU_OR R_F T0 +>
  emit_mov_r32_r32 T0 xy +>
  emit_alu_r32_imm X64_ALU_AND T0 (FLAG_5 |' FLAG_3) +>
  emit_alu_r32_r32 X64_ALU_OR R_F T0.

(** The source of ALU A,r. *)
Definition emit_alu_src_from_reg (reg pfx : Z) : emitter * alu_src :=
  if reg =? 6 then (emit_none, SRC_MEM R_MEM R_HL 0)
  else if reg =? 7 then (emit_none, SRC_REG R_A)
  else match r8_host_pair reg with
  | Some (pr, false) => (emit_none, SRC_REG pr)
  | Some (pr, true) => (emit_mov_r32_r32 T1 pr +> emit_shr_r32_imm T1 8, SRC_REG T1)
  | None => (emit_none, SRC_MEM R_CPU X64_NOREG (reg8_offset_p reg pfx))
  end.

(** ** Generators *)

Record slow_path := mk_slow { jcc_imm : Z; join : Z; addr_reg : Z; addr_imm : Z; store_bytes : Z }.
(** The emitter, [s_slow] up to [s_nslow] in order, the translator state the
    link sites are recorded in (its [code_buf] is the emitter's buffer), and
    whether [abort()] was called. *)
Record gen := mk_gen { g_emit : emit_t; g_slow : list slow_path; g_dbt : z80_dbt; g_aborted : bool }.
Abbreviation generator := (gen → gen).
Definition set_g_emit (e : emit_t) (g : gen) : gen := mk_gen e (g_slow g) (g_dbt g) (g_aborted g).
Definition lift (a : emitter) : generator := λ g, set_g_emit (a (g_emit g)) g.
Definition then_gen (a b : generator) : generator := λ g, b (a g).
Notation "a +>> b" := (then_gen a b) (at level 60, right associativity) : z80_scope.
Definition gen_if (c : bool) (a : generator) : generator := λ g, if c then a g else g.
(** An emitter that returns a position. *)
Definition gen_pos (f : emit_t → Z * emit_t) (k : Z → generator) : generator := λ g,
  let '(p, e) := f (g_emit g) in k p (set_g_emit e g).
Definition at_pos (k : Z → generator) : generator := λ g, k (emit_pos (g_emit g)) g.

Definition MAX_SLOW_PATHS : nat := 192.

(** What emitted code bakes in: the addresses of the C helpers
    ([z80_jit_post_store] and so on) and [z80_mem_mirrored]. *)
Class CodeEnv := {
  post_store_at : Z; port_in_at : Z; port_out_at : Z; ldir_at : Z; lddr_at : Z;
  loop_fill_at : Z; loop_copy_at : Z; filtercopy_at : Z;
  z80_mem_mirrored : bool
}.

Section Helpers.
Context `{CodeEnv}.

Definition emit_call_helper (helper_addr : Z) : emitter :=
  emit_push_r64 R_A +> emit_push_r64 R_F +> emit_push_r64 R_SP +> emit_push_r64 R_CNT +>
  emit_mov_r64_r64 X64_RDI R_CPU +> emit_mov_r64_imm64 T0 helper_addr +> emit_call_r64 T0 +>
  emit_pop_r64 R_CNT +> emit_pop_r64 R_SP +> emit_pop_r64 R_F +> emit_pop_r64 R_A.

(** ** Stores and the code bitmap *)

Definition emit_post_store_imm (addr : Z) : emitter :=
  emit_mov_r32_imm32 T1 (addr &' 0xFFFF) +> emit_call_helper post_store_at.
(** The loop over [nbytes] bytes; 1 or 2. *)
Definition emit_smc_slow_body (reg imm nbytes : Z) : emitter :=
  if 0 <=? reg then emit_if (negb (reg =? T1)) (emit_mov_r32_r32 T1 reg) +> emit_call_helper post_store_at
  else fold_left (λ a i, a +> emit_post_store_imm (u32 (imm + i))) (zseq 0 (Z.to_nat nbytes)) emit_none.

Definition emit_smc_branch (reg imm nbytes : Z) : generator := λ g,
  if (length (g_slow g) <? MAX_SLOW_PATHS)%nat then
    let '(jcc, e) := emit_jcc_rel32 X64_CC_NE (g_emit g) in
    mk_gen e (g_slow g ++ [mk_slow jcc (emit_pos e) reg imm nbytes]) (g_dbt g) (g_aborted g)
  else
    let '(skip, e) := emit_jcc_rel32 X64_CC_E (g_emit g) in
    let e := emit_smc_slow_body reg imm nbytes e in
    set_g_emit (emit_patch_rel32 skip (emit_pos e) e) g.

Definition emit_smc_check_dyn (addr : Z) : generator :=
  lift (emit_cmp_m8_imm8 R_AUX addr AUX_BITMAP_OFF 0) +>> emit_smc_branch addr 0 1.
Definition emit_smc_check_imm (nn nbytes : Z) : generator :=
  lift (if nbytes =? 2 then emit_cmp_m16_imm8 R_AUX X64_NOREG (AUX_BITMAP_OFF + nn) 0
        else emit_cmp_m8_imm8 R_AUX X64_NOREG (AUX_BITMAP_OFF + nn) 0) +>>
  emit_smc_branch (-1) nn nbytes.

Definition emit_guest_storeb_smc (val addr : Z) : generator :=
  lift (emit_mov_m8_r8 R_MEM addr 0 val) +>> emit_smc_check_dyn addr.
Definition emit_guest_storeb_imm_smc (imm addr : Z) : generator :=
  lift (emit_mov_m8_imm8 R_MEM addr 0 imm) +>> emit_smc_check_dyn addr.

(** ** The guest stack: [z80_mem_mirrored] decides the form *)

Definition emit_pop16_into (dst : Z) : emitter :=
  (if z80_mem_mirrored then emit_movzx_r32_m16 dst R_MEM R_SP 0
   else
     emit_movzx_r32_m8 dst R_MEM R_SP 0 +> emit_addr_plus T1 R_SP 1 +> emit_movzx_r32_m8 T1 R_MEM T1 0 +>
     emit_shl_r32_imm T1 8 +> emit_alu_r32_r32 X64_ALU_OR dst T1) +>
  emit_sp_add 2.

Definition emit_push16 (val : Z) : emitter :=
  emit_sp_add (-2) +>
  (if z80_mem_mirrored then emit_mov_m16_r16 R_MEM R_SP 0 val
   else
     emit_mov_m8_r8 R_MEM R_SP 0 val +> emit_addr_plus T1 R_SP 1 +> emit_mov_r32_r32 T2 val +>
     emit_shr_r32_imm T2 8 +> emit_mov_m8_r8 R_MEM T1 0 T2).

Definition emit_push16_imm (val : Z) : emitter :=
  emit_sp_add (-2) +>
  (if z80_mem_mirrored then emit_mov_m16_imm16 R_MEM R_SP 0 val
   else
     emit_mov_m8_imm8 R_MEM R_SP 0 (u8 val) +> emit_addr_plus T1 R_SP 1 +>
     emit_mov_m8_imm8 R_MEM T1 0 (u8 (val >>' 8))).

(** ** [emit_op] *)

Definition OP_FALL_THROUGH : Z := 0x0.
Definition OP_MODIFIES_F : Z := 0x2.
Definition OP_SETS_F_INLINE : Z := 0x4.
Definition Q_CLEAR : Z := 0.
Definition Q_KEEP : Z := 1.
Definition Q_SET : Z := 2.

Definition gen_ld_r_r (d : z80_decoded) : generator :=
  if reg1 d =? 6 then
    let '(code, src) := emit_read_r8 T1 (reg2 d) 0 in lift code +>> emit_guest_storeb_smc src R_HL
  else lift
    (if reg2 d =? 6 then
       if reg1 d =? 7 then emit_movzx_r32_m8 R_A R_MEM R_HL 0
       else emit_movzx_r32_m8 T1 R_MEM R_HL 0 +> emit_write_r8 (reg1 d) 0 T1
     else if reg1 d =? reg2 d then emit_none
     else if reg1 d =? 7 then (emit_read_r8 R_A (reg2 d) (prefix d)).1
     else let '(code, src) := emit_read_r8 T1 (reg2 d) (prefix d) in code +> emit_write_r8 (reg1 d) (prefix d) src).

Definition gen_incdec_hl_ind (d : z80_decoded) (is_inc : bool) (fmask : Z) : generator :=
  let addr := if has_idx d then T2 else R_HL in
  lift (emit_if (has_idx d) (emit_idx_eff_addr T2 (prefix d) (disp d)) +>
        emit_movzx_r32_m8 T1 R_MEM addr 0 +> emit_incdec8_inline T1 is_inc fmask) +>>
  emit_guest_storeb_smc T1 addr.

Definition gen_ld_hl_indnn (d : z80_decoded) (store_memptr : bool) : emitter :=
  let nn := imm16 d in
  let nn1 := u16 (nn + 1) in
  let dst := if has_idx d then T1 else R_HL in
  (if negb (nn =? 0xFFFF) then emit_movzx_r32_m16 dst R_MEM X64_NOREG nn
   else
     emit_movzx_r32_m8 dst R_MEM X64_NOREG nn +> emit_movzx_r32_m8 T0 R_MEM X64_NOREG nn1 +>
     emit_shl_r32_imm T0 8 +> emit_alu_r32_r32 X64_ALU_OR dst T0) +>
  emit_if (has_idx d) (emit_mov_m16_r16 R_CPU X64_NOREG (idx_reg_offset (prefix d)) T1) +>
  emit_if store_memptr (emit_set_memptr_imm nn1).

Definition gen_ld_nn_hl (d : z80_decoded) (store_memptr : bool) : generator :=
  let nn := imm16 d in
  let nn1 := u16 (nn + 1) in
  let src := if has_idx d then T3 else R_HL in
  lift (emit_if (has_idx d) (emit_movzx_r32_m16 T3 R_CPU X64_NOREG (idx_reg_offset (prefix d)))) +>>
  (if negb (nn =? 0xFFFF) then
     lift (emit_mov_m16_r16 R_MEM X64_NOREG nn src) +>> emit_smc_check_imm nn 2
   else
     lift (emit_mov_m8_r8 R_MEM X64_NOREG nn src) +>> emit_smc_check_imm nn 1 +>>
     lift (emit_mov_r32_r32 T3 src +> emit_shr_r32_imm T3 8 +> emit_mov_m8_r8 R_MEM X64_NOREG nn1 T3) +>>
     emit_smc_check_imm nn1 1) +>>
  lift (emit_if store_memptr (emit_set_memptr_imm nn1)).

Definition gen_incdec_rr (d : z80_decoded) (is_inc : bool) : emitter :=
  match rr_host_p (reg1 d) (prefix d) with
  | Some host => emit_alu_r16_imm8 (if is_inc then X64_ALU_ADD else X64_ALU_SUB) host 1
  | None => emit_incdec_m16 R_CPU X64_NOREG (idx_reg_offset (prefix d)) is_inc
  end.

Definition gen_add_hl_rr (d : z80_decoded) (fmask : Z) (store_memptr : bool) : emitter :=
  let idx := has_idx d in
  let dst := if idx then T1 else R_HL in
  let self := reg1 d =? 2 in
  let src := if self then dst else default (-1) (rr_host_p (reg1 d) 0) in
  let want := nz (fmask &' (FLAG_C |' FLAG_H |' FLAG_5 |' FLAG_3)) in
  emit_if idx (emit_movzx_r32_m16 T1 R_CPU X64_NOREG (idx_reg_offset (prefix d))) +>
  emit_lea_r32 T3 dst src 0 +>
  emit_if store_memptr (emit_lea_r32 T2 dst X64_NOREG 1 +> emit_mov_m16_r16 R_CPU X64_NOREG OFF_MEMPTR T2) +>
  emit_if want
    ((if nz (fmask &' FLAG_H) && negb self then
        emit_mov_r32_r32 T0 dst +> emit_alu_r32_r32 X64_ALU_XOR T0 src +>
        emit_alu_r32_imm X64_ALU_AND T0 0x1000 +> emit_alu_r32_r32 X64_ALU_XOR T0 T3
      else emit_mov_r32_r32 T0 T3) +>
     emit_shr_r32_imm T0 8) +>
  emit_movzx_r32_r16 dst T3 +>
  emit_if idx (emit_mov_m16_r16 R_CPU X64_NOREG (idx_reg_offset (prefix d)) T1) +>
  emit_if (nz (fmask &' 0x3B))
    (emit_alu_r32_imm X64_ALU_AND R_F (FLAG_S |' FLAG_Z |' FLAG_PV) +>
     emit_if want (emit_movzx_r32_m8 T0 R_AUX T0 FT_ADD16 +> emit_alu_r32_r32 X64_ALU_OR R_F T0)).

Definition gen_rot_a (t : z80_op_type) (fmask : Z) : emitter :=
  let c_live := nz (fmask &' FLAG_C) in
  emit_if c_live (emit_alu_r32_r32 X64_ALU_XOR T0 T0) +>
  match t with
  | Z80_OP_RLCA => emit_shift_r8_imm X64_SH_ROL R_A 1
  | Z80_OP_RRCA => emit_shift_r8_imm X64_SH_ROR R_A 1
  | Z80_OP_RLA => emit_bt_r32_imm8 R_F 0 +> emit_shift_r8_imm X64_SH_RCL R_A 1
  | _ => emit_bt_r32_imm8 R_F 0 +> emit_shift_r8_imm X64_SH_RCR R_A 1
  end +>
  emit_if c_live (emit_setcc_r8 X64_CC_C T0) +>
  emit_if (nz (fmask &' 0x3B))
    (emit_alu_r32_imm X64_ALU_AND R_F (FLAG_S |' FLAG_Z |' FLAG_PV) +>
     emit_if c_live (emit_alu_r32_r32 X64_ALU_OR R_F T0) +>
     emit_if (nz (fmask &' (FLAG_5 |' FLAG_3)))
       (emit_mov_r32_r32 T0 R_A +> emit_alu_r32_imm X64_ALU_AND T0 (FLAG_5 |' FLAG_3) +>
        emit_alu_r32_r32 X64_ALU_OR R_F T0)).

Definition gen_daa (fmask : Z) : emitter :=
  emit_mov_r32_r32 T0 R_F +> emit_alu_r32_imm X64_ALU_AND T0 (FLAG_C |' FLAG_N |' FLAG_H) +>
  emit_shl_r32_imm T0 8 +> emit_alu_r32_r32 X64_ALU_OR T0 R_A +>
  emit_movzx_r32_m16_sib T0 R_AUX T0 1 FT_DAA +> emit_movzx_r32_r8 R_A T0 +>
  emit_if (nz fmask) (emit_movzx_r32_ah R_F).

Definition gen_cpl (fmask : Z) : emitter :=
  emit_alu_r8_imm8 X64_ALU_XOR R_A 0xFF +>
  emit_if (nz (fmask &' 0x3A))
    (emit_alu_r32_imm X64_ALU_AND R_F (0xFF &~ (FLAG_5 |' FLAG_3)) +>
     emit_alu_r32_imm X64_ALU_OR R_F (FLAG_H |' FLAG_N) +>
     emit_mov_r32_r32 T0 R_A +> emit_alu_r32_imm X64_ALU_AND T0 (FLAG_5 |' FLAG_3) +>
     emit_alu_r32_r32 X64_ALU_OR R_F T0).

(** [prev_q]: 1, 0, or -1 when [cpu->q] must be read. *)
Definition gen_scf_ccf (is_scf : bool) (prev_q fmask : Z) : emitter :=
  if negb (nz (fmask &' 0x3B)) then emit_none
  else
    (if 0 <? prev_q then emit_mov_r32_r32 T3 R_A
     else if prev_q =? 0 then emit_mov_r32_r32 T3 R_A +> emit_alu_r32_r32 X64_ALU_OR T3 R_F
     else
       emit_movzx_r32_m8 T0 R_CPU X64_NOREG OFF_Q +> emit_mov_r32_r32 T3 R_A +>
       emit_alu_r32_r32 X64_ALU_OR T3 R_F +> emit_test_r32_r32 T0 T0 +> emit_cmovcc_r32_r32 X64_CC_NZ T3 R_A) +>
    (if is_scf then
       emit_alu_r32_imm X64_ALU_AND R_F (FLAG_S |' FLAG_Z |' FLAG_PV) +> emit_alu_r32_imm X64_ALU_OR R_F FLAG_C
     else
       emit_mov_r32_r32 T0 R_F +> emit_alu_r32_imm X64_ALU_AND T0 FLAG_C +> emit_mov_r32_r32 T2 T0 +>
       emit_alu_r32_imm X64_ALU_XOR T2 1 +> emit_shl_r32_imm T0 4 +>
       emit_alu_r32_imm X64_ALU_AND R_F (FLAG_S |' FLAG_Z |' FLAG_PV) +>
       emit_alu_r32_r32 X64_ALU_OR R_F T2 +> emit_alu_r32_r32 X64_ALU_OR R_F T0) +>
    emit_alu_r32_imm X64_ALU_AND T3 (FLAG_5 |' FLAG_3) +> emit_alu_r32_r32 X64_ALU_OR R_F T3.

Definition gen_ex_sp_hl (d : z80_decoded) (store_memptr : bool) : emitter :=
  let idx := has_idx d in
  let off := if idx then idx_reg_offset (prefix d) else 0 in
  let cur := if idx then T3 else R_HL in
  emit_if idx (emit_movzx_r32_m16 T3 R_CPU X64_NOREG off) +>
  (if z80_mem_mirrored then emit_movzx_r32_m16 T0 R_MEM R_SP 0 +> emit_mov_m16_r16 R_MEM R_SP 0 cur
   else
     emit_movzx_r32_m8 T0 R_MEM R_SP 0 +> emit_addr_plus T1 R_SP 1 +> emit_movzx_r32_m8 T2 R_MEM T1 0 +>
     emit_shl_r32_imm T2 8 +> emit_alu_r32_r32 X64_ALU_OR T0 T2 +> emit_mov_m8_r8 R_MEM R_SP 0 cur +>
     emit_mov_r32_r32 T2 cur +> emit_shr_r32_imm T2 8 +> emit_mov_m8_r8 R_MEM T1 0 T2) +>
  (if idx then emit_mov_m16_r16 R_CPU X64_NOREG off T0 else emit_mov_r32_r32 R_HL T0) +>
  emit_if store_memptr (emit_mov_m16_r16 R_CPU X64_NOREG OFF_MEMPTR T0).

Definition gen_incdec_high (pr : Z) (is_inc : bool) (fmask : Z) : emitter :=
  let rest := nz (fmask &' (0xFF &~ FLAG_C)) in
  let keep_c := rest && nz (fmask &' FLAG_C) in
  emit_if keep_c (emit_mov_r32_r32 T0 R_F +> emit_alu_r32_imm X64_ALU_AND T0 FLAG_C) +>
  emit_alu_r32_imm (if is_inc then X64_ALU_ADD else X64_ALU_SUB) pr 0x100 +> emit_movzx_r32_r16 pr pr +>
  emit_if rest
    (emit_mov_r32_r32 T1 pr +> emit_shr_r32_imm T1 8 +>
     emit_movzx_r32_m8 R_F R_AUX T1 (if is_inc then FT_INC else FT_DEC) +>
     emit_if keep_c (emit_alu_r32_r32 X64_ALU_OR R_F T0)).

Definition gen_incdec_r (d : z80_decoded) (is_inc : bool) (fmask : Z) : generator :=
  if reg1 d =? 6 then
    lift (emit_movzx_r32_m8 T1 R_MEM R_HL 0 +> emit_incdec8_inline T1 is_inc fmask) +>> emit_guest_storeb_smc T1 R_HL
  else lift
    (if reg1 d =? 7 then emit_incdec8_inline R_A is_inc fmask
     else match r8_host_pair (reg1 d) with
     | Some (pr, true) => gen_incdec_high pr is_inc fmask
     | _ =>
         let '(code, v) := emit_read_r8 T1 (reg1 d) (prefix d) in
         code +> emit_incdec8_inline v is_inc fmask +> emit_write_r8 (reg1 d) (prefix d) v
     end).

(** RES (family 2) and SET (3): [addr] for the memory forms. *)
Definition gen_cb_resset (d : z80_decoded) (addr : option Z) : generator :=
  let sub := imm8 d in
  let r := sub &' 7 in
  let grp := (sub >>' 3) &' 7 in
  let res := sub >>' 6 =? 2 in
  let mask := u8 (1 <<' grp) in
  let op := if res then X64_ALU_AND else X64_ALU_OR in
  let m8 := if res then u8 (Z.lnot mask) else mask in
  match addr with
  | None =>
      lift (if r =? 7 then emit_alu_r8_imm8 op R_A m8
            else match r8_host_pair r with
            | Some (pr, false) => emit_alu_r8_imm8 op pr m8
            | Some (pr, true) =>
                if res then emit_alu_r32_imm X64_ALU_AND pr (Z.lnot (mask <<' 8))
                else emit_alu_r32_imm X64_ALU_OR pr (mask <<' 8)
            | None => emit_alu_m8_imm8 op R_CPU X64_NOREG (reg8_offset_p r (prefix d)) m8
            end)
  | Some addr =>
      if negb (has_idx d && negb (r =? 6)) then
        lift (emit_alu_m8_imm8 op R_MEM addr 0 m8) +>> emit_smc_check_dyn addr
      else
        lift (emit_movzx_r32_m8 T1 R_MEM addr 0 +> emit_alu_r8_imm8 op T1 m8 +> emit_write_r8 r 0 T1) +>>
        emit_guest_storeb_smc T1 addr
  end.

Definition gen_cb (d : z80_decoded) (fmask : Z) : generator * Z :=
  let sub := imm8 d in
  let r := sub &' 7 in
  let grp := (sub >>' 3) &' 7 in
  let family := sub >>' 6 in
  let indexed := has_idx d in
  let addr := if indexed then Some T2 else if r =? 6 then Some R_HL else None in
  let ea := lift (emit_if indexed (emit_idx_eff_addr T2 (prefix d) (disp d))) in
  if (family =? 2) || (family =? 3) then (ea +>> gen_cb_resset d addr, OP_FALL_THROUGH)
  else
    let '(rd, val) := match addr with
      | Some a => (emit_movzx_r32_m8 T1 R_MEM a 0, T1)
      | None => emit_read_r8 T1 r 0
      end in
    if family =? 0 then
      (ea +>> lift (rd +> emit_cb_rotshift_inline grp val fmask) +>>
       match addr with
       | Some a => lift (emit_if (indexed && negb (r =? 6)) (emit_write_r8 r 0 val)) +>> emit_guest_storeb_smc val a
       | None => lift (emit_write_r8 r 0 val)
       end, OP_SETS_F_INLINE)
    else if negb (nz (fmask &' (0xFF &~ FLAG_C))) then (ea +>> lift rd, OP_SETS_F_INLINE)
    else
      let '(xycode, xy) :=
        if indexed then (emit_mov_r32_r32 T3 T2 +> emit_shr_r32_imm T3 8, T3)
        else if r =? 6 then (emit_movzx_r32_m8 T3 R_CPU X64_NOREG (OFF_MEMPTR + 1), T3)
        else (emit_none, val) in
      (ea +>> lift (rd +> xycode +> emit_cb_bit_inline grp val xy), OP_SETS_F_INLINE).

Definition gen_port (d : z80_decoded) (store_memptr : bool) : emitter :=
  emit_add_m64_r64 R_CPU X64_NOREG OFF_INSN_COUNT R_CNT +> emit_alu_r32_r32 X64_ALU_XOR R_CNT R_CNT +>
  match dtype d with
  | Z80_OP_OUT_N_A =>
      emit_if store_memptr (emit_set_memptr_quirk_imm (u8 ((imm8 d + 1) &' 0xFF))) +>
      emit_mov_r32_imm32 T1 (imm8 d) +> emit_mov_r32_r32 R_F R_A +> emit_call_helper port_out_at
  | _ =>
      emit_if store_memptr
        (emit_mov_r32_r32 T0 R_A +> emit_shl_r32_imm T0 8 +> emit_alu_r32_imm X64_ALU_ADD T0 (imm8 d + 1) +>
         emit_mov_m16_r16 R_CPU X64_NOREG OFF_MEMPTR T0) +>
      emit_mov_r32_imm32 T1 (imm8 d) +> emit_mov_r32_r32 R_F R_A +> emit_call_helper port_in_at +>
      emit_movzx_r32_r8 R_A T0
  end.

(** Pinned state to the context and back around a block helper. *)
Definition emit_sync_out : emitter :=
  emit_mov_m16_r16 R_CPU X64_NOREG OFF_BC R_BC +> emit_mov_m16_r16 R_CPU X64_NOREG OFF_DE R_DE +>
  emit_mov_m16_r16 R_CPU X64_NOREG OFF_HL R_HL +> emit_mov_m8_r8 R_CPU X64_NOREG OFF_A R_A +>
  emit_mov_m8_r8 R_CPU X64_NOREG OFF_F R_F.
Definition gen_ldir (is_ldir : bool) : emitter :=
  emit_sync_out +> emit_call_helper (if is_ldir then ldir_at else lddr_at) +>
  emit_movzx_r32_m16 R_BC R_CPU X64_NOREG OFF_BC +> emit_movzx_r32_m16 R_DE R_CPU X64_NOREG OFF_DE +>
  emit_movzx_r32_m16 R_HL R_CPU X64_NOREG OFF_HL +> emit_movzx_r32_m8 R_F R_CPU X64_NOREG OFF_F.

Definition gen_push_rr (d : z80_decoded) : emitter :=
  if reg1 d <=? 2 then emit_push16 (default (-1) (rr_host_p (reg1 d) 0))
  else if reg1 d =? 3 then
    emit_mov_r32_r32 T0 R_A +> emit_shl_r32_imm T0 8 +> emit_alu_r32_r32 X64_ALU_OR T0 R_F +> emit_push16 T0
  else emit_movzx_r32_m16 T0 R_CPU X64_NOREG (idx_reg_offset (prefix d)) +> emit_push16 T0.

Definition gen_pop_rr (d : z80_decoded) : emitter :=
  if reg1 d <=? 2 then emit_pop16_into (default (-1) (rr_host_p (reg1 d) 0))
  else if reg1 d =? 3 then
    emit_movzx_r32_m8 R_F R_MEM R_SP 0 +>
    (if z80_mem_mirrored then emit_movzx_r32_m8 R_A R_MEM R_SP 1
     else emit_addr_plus T1 R_SP 1 +> emit_movzx_r32_m8 R_A R_MEM T1 0) +>
    emit_sp_add 2
  else emit_pop16_into T0 +> emit_mov_m16_r16 R_CPU X64_NOREG (idx_reg_offset (prefix d)) T0.

(** The code of one straight-line instruction and what it did to F. *)
Definition emit_op (d : z80_decoded) (prev_q fmask : Z) (store_memptr : bool) : generator * Z :=
  let fall a := (lift a, OP_FALL_THROUGH) in
  let sets a := (lift a, OP_SETS_F_INLINE) in
  let ea := emit_idx_eff_addr T2 (prefix d) (disp d) in
  match dtype d with
  | Z80_OP_NOP => fall emit_none
  | Z80_OP_LD_R_N => fall (emit_write_r8_imm (reg1 d) (prefix d) (imm8 d))
  | Z80_OP_LD_R_R => (gen_ld_r_r d, OP_FALL_THROUGH)
  | Z80_OP_LD_RR_NN =>
      fall match rr_host_p (reg1 d) (prefix d) with
           | Some host => emit_mov_r32_imm32 host (imm16 d)
           | None => emit_mov_m16_imm16 R_CPU X64_NOREG (idx_reg_offset (prefix d)) (imm16 d)
           end
  | Z80_OP_LD_HL_N => (emit_guest_storeb_imm_smc (imm8 d) R_HL, OP_FALL_THROUGH)
  | Z80_OP_LD_A_HL_ind => fall (ea +> emit_movzx_r32_m8 R_A R_MEM T2 0)
  | Z80_OP_LD_HL_A_ind => (lift ea +>> emit_guest_storeb_smc R_A T2, OP_FALL_THROUGH)
  | Z80_OP_LD_R_HL_ind =>
      fall (ea +>
        if reg2 d =? 7 then emit_movzx_r32_m8 R_A R_MEM T2 0
        else emit_movzx_r32_m8 T1 R_MEM T2 0 +> emit_write_r8 (reg2 d) 0 T1)
  | Z80_OP_LD_HL_R_ind =>
      let '(code, src) := emit_read_r8 T1 (reg2 d) 0 in
      (lift (ea +> code) +>> emit_guest_storeb_smc src T2, OP_FALL_THROUGH)
  | Z80_OP_LD_HL_N_ind => (lift ea +>> emit_guest_storeb_imm_smc (imm8 d) T2, OP_FALL_THROUGH)
  | Z80_OP_INC_HL_ind => (gen_incdec_hl_ind d true fmask, OP_SETS_F_INLINE)
  | Z80_OP_DEC_HL_ind => (gen_incdec_hl_ind d false fmask, OP_SETS_F_INLINE)
  | Z80_OP_ADD_A_HL_ind | Z80_OP_ADC_A_HL_ind | Z80_OP_SUB_A_HL_ind | Z80_OP_SBC_A_HL_ind
  | Z80_OP_AND_A_HL_ind | Z80_OP_OR_A_HL_ind | Z80_OP_XOR_A_HL_ind | Z80_OP_CP_A_HL_ind =>
      sets (ea +> emit_alu_inline (alu_op_for (dtype d)) fmask (SRC_MEM R_MEM T2 0))
  | Z80_OP_LD_A_BC => fall (emit_movzx_r32_m8 R_A R_MEM R_BC 0 +> emit_if store_memptr (emit_set_memptr_rr_plus_one R_BC))
  | Z80_OP_LD_A_DE => fall (emit_movzx_r32_m8 R_A R_MEM R_DE 0 +> emit_if store_memptr (emit_set_memptr_rr_plus_one R_DE))
  | Z80_OP_LD_BC_A =>
      (emit_guest_storeb_smc R_A R_BC +>> lift (emit_if store_memptr (emit_set_memptr_quirk_rr R_BC)), OP_FALL_THROUGH)
  | Z80_OP_LD_DE_A =>
      (emit_guest_storeb_smc R_A R_DE +>> lift (emit_if store_memptr (emit_set_memptr_quirk_rr R_DE)), OP_FALL_THROUGH)
  | Z80_OP_LD_A_NN =>
      fall (emit_movzx_r32_m8 R_A R_MEM X64_NOREG (imm16 d) +>
            emit_if store_memptr (emit_set_memptr_imm (u16 (imm16 d + 1))))
  | Z80_OP_LD_NN_A =>
      (lift (emit_mov_m8_r8 R_MEM X64_NOREG (imm16 d) R_A) +>> emit_smc_check_imm (imm16 d) 1 +>>
       lift (emit_if store_memptr (emit_set_memptr_quirk_imm (u8 ((imm16 d + 1) &' 0xFF)))), OP_FALL_THROUGH)
  | Z80_OP_LD_HL_indNN => fall (gen_ld_hl_indnn d store_memptr)
  | Z80_OP_LD_NN_HL => (gen_ld_nn_hl d store_memptr, OP_FALL_THROUGH)
  | Z80_OP_INC_RR => fall (gen_incdec_rr d true)
  | Z80_OP_DEC_RR => fall (gen_incdec_rr d false)
  | Z80_OP_ADD_HL_RR => sets (gen_add_hl_rr d fmask store_memptr)
  | Z80_OP_RLCA | Z80_OP_RRCA | Z80_OP_RLA | Z80_OP_RRA => fall (gen_rot_a (dtype d) fmask)
  | Z80_OP_DAA => sets (gen_daa fmask)
  | Z80_OP_CPL => sets (gen_cpl fmask)
  | Z80_OP_SCF => sets (gen_scf_ccf true prev_q fmask)
  | Z80_OP_CCF => sets (gen_scf_ccf false prev_q fmask)
  | Z80_OP_EX_SP_HL => fall (gen_ex_sp_hl d store_memptr)
  | Z80_OP_EX_DE_HL => fall (emit_mov_r32_r32 T0 R_DE +> emit_mov_r32_r32 R_DE R_HL +> emit_mov_r32_r32 R_HL T0)
  | Z80_OP_LD_SP_HL =>
      fall (if has_idx d then emit_movzx_r32_m16 R_SP R_CPU X64_NOREG (idx_reg_offset (prefix d))
            else emit_mov_r32_r32 R_SP R_HL)
  | Z80_OP_ADD_A_R | Z80_OP_ADC_A_R | Z80_OP_SUB_A_R | Z80_OP_SBC_A_R
  | Z80_OP_AND_A_R | Z80_OP_OR_A_R | Z80_OP_XOR_A_R | Z80_OP_CP_A_R =>
      let '(code, src) := emit_alu_src_from_reg (reg1 d) (prefix d) in
      sets (code +> emit_alu_inline (alu_op_for (dtype d)) fmask src)
  | Z80_OP_ADD_A_N | Z80_OP_ADC_A_N | Z80_OP_SUB_A_N | Z80_OP_SBC_A_N
  | Z80_OP_AND_A_N | Z80_OP_OR_A_N | Z80_OP_XOR_A_N | Z80_OP_CP_A_N =>
      sets (emit_alu_inline (alu_op_for (dtype d)) fmask (SRC_IMM (imm8 d)))
  | Z80_OP_INC_R => (gen_incdec_r d true fmask, OP_SETS_F_INLINE)
  | Z80_OP_DEC_R => (gen_incdec_r d false fmask, OP_SETS_F_INLINE)
  | Z80_OP_CB => gen_cb d fmask
  | Z80_OP_OUT_N_A | Z80_OP_IN_A_N => fall (gen_port d store_memptr)
  | Z80_OP_LDIR => (lift (gen_ldir true), OP_MODIFIES_F)
  | Z80_OP_LDDR => (lift (gen_ldir false), OP_MODIFIES_F)
  | Z80_OP_PUSH_RR => fall (gen_push_rr d)
  | Z80_OP_POP_RR => fall (gen_pop_rr d)
  | _ => fall emit_none
  end.

(** A stretch of phase 3's loop between branches and folded loops: each
    instruction with the masks of phase 2, and, threaded through, whether
    the one before it left F written; with the mode the tail then needs. *)
Fixpoint emit_ops (ops : list op_at) (masks : list (Z * bool)) (prev_q q_mode : Z) : generator * Z :=
  match ops, masks with
  | (d, _) :: ops, (fmask, store_memptr) :: masks =>
      let '(g, r) := emit_op d prev_q fmask store_memptr in
      let q_mode := if nz (r &' OP_MODIFIES_F) then Q_KEEP else if nz (r &' OP_SETS_F_INLINE) then Q_SET else Q_CLEAR in
      let '(g', q_mode') := emit_ops ops masks (if negb (q_mode =? Q_CLEAR) then 1 else 0) q_mode in
      (g +>> g', q_mode')
  | _, _ => (lift emit_none, q_mode)
  end.
End Helpers.
