(* ===== verification/HostX64.v ===== *)
(** * HostX64: translated code on the host machine

    What it means for emitted code to run: [runs] and [gruns] execute, on the
    X86 machine, the instructions the emitted bytes disassemble to, a taken
    branch to an SMC slow path standing for whatever that path leaves
    ([rejoins]).  [host] is the register convention of src/dbt/dbt_x64.c: the
    pinned registers, the guest memory, the context and the flag tables hold
    the Z80 state.  The lemmas run the accesses the translator emits. *)

From Stdlib Require Import ZArith Lia Bool List.
From stdpp Require Import base option gmap list.
From S2P Require Import Prelude Cpu Decode Interp JitFlags X86 EmitX64 EmitX64Ok TransX64.

Open Scope list_scope.
Open Scope Z_scope.
Open Scope z80_scope.

(** ** Widths *)

Lemma trunc_id sz v : 0 <= v < modulus sz → trunc sz v = v.
Proof. intros H. by apply Z.mod_small. Qed.
Lemma trunc_range sz v : 0 <= trunc sz v < modulus sz.
Proof. by apply Z.mod_pos_bound; destruct sz. Qed.
Lemma trunc_byte v : is_byte v → trunc D32 v = v.
Proof. intros H. apply trunc_id. unfold is_byte in H. cbn. lia. Qed.
Lemma trunc_word v : is_word v → trunc D32 v = v.
Proof. intros H. apply trunc_id. unfold is_word in H. cbn. lia. Qed.
Lemma trunc_B8 v : trunc B8 v = u8 v.
Proof. done. Qed.
Lemma trunc_W16 v : trunc W16 v = u16 v.
Proof. done. Qed.
Lemma merge8_byte o v : is_byte o → merge B8 o v = u8 v.
Proof. intros H. unfold merge. rewrite !trunc_B8, (u8_id o) by done. rewrite Z.sub_diag. done. Qed.
Lemma merge16_word o v : is_word o → merge W16 o v = u16 v.
Proof. intros H. unfold merge. rewrite !trunc_W16, (u16_id o) by done. by rewrite Z.sub_diag. Qed.
(** The low byte of a word register. *)
Lemma merge8_word o v : is_word o → merge B8 o v = word_of (u8 v) (o >>' 8).
Proof.
  intros H. change (o - u8 o + u8 v = word_of (u8 v) (o >>' 8)).
  rewrite word_of_add by (apply u8_byte || apply Z.shiftr_nonneg, H).
  unfold is_word, u8 in *. rewrite Z.shiftr_div_pow2 by lia. change (2 ^ 8) with 256.
  Z.to_euclidean_division_equations. lia.
Qed.

(** ** Where things are *)

(** Where the context, the guest memory and the aux block are, and what
    physical bytes their addresses name: distinct ones, except that in a
    mirrored memory 10000h is the byte 0 of the guest. *)
Record layout := mk_layout { phys : Z → Z; cpu_p : Z; mem_p : Z; aux_p : Z; mirrored : bool }.
Definition CTX_SIZE : Z := 240.
Definition AUX_SIZE : Z := 0x20000.
Definition in_cpu (l : layout) (a : Z) : Prop := cpu_p l <= a < cpu_p l + CTX_SIZE.
Definition in_mem (l : layout) (a : Z) : Prop := mem_p l <= a < mem_p l + 0x10000.
Definition in_aux (l : layout) (a : Z) : Prop := aux_p l <= a < aux_p l + AUX_SIZE.
Definition guest_addr (l : layout) (a : Z) : Prop := in_cpu l a ∨ in_mem l a ∨ in_aux l a.
Record layout_ok (l : layout) : Prop := {
  lo_cpu : 0 <= cpu_p l ∧ cpu_p l + CTX_SIZE < 2 ^ 64;
  lo_mem : 0 <= mem_p l ∧ mem_p l + 0x10001 < 2 ^ 64;
  lo_aux : 0 <= aux_p l ∧ aux_p l + AUX_SIZE < 2 ^ 64;
  lo_cpu_mem a : in_cpu l a → ¬ in_mem l a;
  lo_cpu_aux a : in_cpu l a → ¬ in_aux l a;
  lo_mem_aux a : in_mem l a → ¬ in_aux l a;
  lo_inj a b : guest_addr l a → guest_addr l b → phys l a = phys l b → a = b;
  lo_mirror : mirrored l = true → phys l (mem_p l + 0x10000) = phys l (mem_p l)
}.

(** Offsets are in range. *)
Ltac off := unfold CTX_SIZE, AUX_SIZE, AUX_BITMAP_OFF, FT_ADD16, FT_DAA, DAA_TABLE_LEN, ADD16_TABLE_LEN, FT_LOGIC, FT_INC, FT_DEC, FT_SZXY,
  OFF_IXL, OFF_IXH, OFF_IYL, OFF_IYH, OFF_IX, OFF_IY, OFF_MEMPTR, OFF_Q, is_word, is_byte in *; lia.

Section Host.
Context `{CE : CodeEnv} (l : layout) (Hl : layout_ok l).
Implicit Types (σ : xstate) (c : z80_cpu).

(** The byte at an address. *)
Definition at_ (σ : xstate) (a : Z) : Z := xm σ (phys l a).

(** ** The memory part *)

Record hmem (c : z80_cpu) (σ : xstate) : Prop := {
  hm_mem a : is_word a → at_ σ (mem_p l + a) = mget (mem c) a;
  hm_ixl : at_ σ (cpu_p l + OFF_IXL) = u8 (rIX c);
  hm_ixh : at_ σ (cpu_p l + OFF_IXH) = rIX c >>' 8;
  hm_iyl : at_ σ (cpu_p l + OFF_IYL) = u8 (rIY c);
  hm_iyh : at_ σ (cpu_p l + OFF_IYH) = rIY c >>' 8;
  hm_mpl : at_ σ (cpu_p l + OFF_MEMPTR) = u8 (memptr c);
  hm_mph : at_ σ (cpu_p l + (OFF_MEMPTR + 1)) = memptr c >>' 8;
  hm_ft i : 0 <= i < 1024 → at_ σ (aux_p l + i) = table_at z80_f_tables i;
  hm_daal i : 0 <= i < DAA_TABLE_LEN → at_ σ (aux_p l + (FT_DAA + 2 * i)) = u8 (table_at z80_daa_table i);
  hm_daah i : 0 <= i < DAA_TABLE_LEN → at_ σ (aux_p l + (FT_DAA + 2 * i + 1)) = table_at z80_daa_table i >>' 8;
  hm_add16 i : 0 <= i < ADD16_TABLE_LEN → at_ σ (aux_p l + (FT_ADD16 + i)) = table_at z80_add16_table i
}.

Record hregs (c : z80_cpu) (x : Z → Z) : Prop := {
  hr_cpu : x R_CPU = cpu_p l;
  hr_mem : x R_MEM = mem_p l;
  hr_aux : x R_AUX = aux_p l;
  hr_HL : x R_HL = rHL c;
  hr_BC : x R_BC = rBC c;
  hr_DE : x R_DE = rDE c;
  hr_SP : x R_SP = rSP c;
  hr_A : x R_A = rA c;
  hr_F : x R_F = rF c
}.
(** The host holds [c]. *)
Definition host (c : z80_cpu) (σ : xstate) : Prop := hregs c (xr σ) ∧ hmem c σ.

(** ** Running code *)

(** What an SMC slow path may change: scratch registers, flags, and memory
    outside the context, the guest and the tables (the stack, the bitmap and
    the cache). *)
Definition slow_keeps (a : Z) : Prop := in_cpu l a ∨ in_mem l a ∨ (aux_p l <= a < aux_p l + AUX_BITMAP_OFF).
Definition pinned (r : Z) : Prop := r ∈ [R_CPU; R_MEM; R_AUX; R_HL; R_BC; R_DE; R_SP; R_A; R_F; R_CNT; X64_RSP].
Record rejoins (σ σ' : xstate) : Prop := {
  rj_reg r : pinned r → xr σ' r = xr σ r;
  rj_mem a : slow_keeps a → at_ σ' a = at_ σ a
}.
Lemma rejoins_refl σ : rejoins σ σ.
Proof. by split. Qed.

Context (slow : xstate → xstate) (Hslow : ∀ σ, rejoins σ (slow σ)).

(** The branches of straight-line code are those to slow paths. *)
Fixpoint exec_seq (is_ : list instr) (σ : xstate) : option xstate :=
  match is_ with
  | [] => Some σ
  | IJcc cc _ :: is_ => b ← cond cc (xf σ); exec_seq is_ (if b : bool then slow σ else σ)
  | i :: is_ => σ ← exec_instr (phys l) i σ; exec_seq is_ σ
  end.
Lemma exec_seq_app xs ys σ : exec_seq (xs ++ ys) σ = (σ' ← exec_seq xs σ; exec_seq ys σ').
Proof.
  revert σ. induction xs as [|i xs IH]; intros σ; [done|].
  destruct i; cbn [exec_seq app];
    try (destruct (exec_instr (phys l) _ σ) as [σ'|]; cbn; [apply IH|done]).
  destruct (cond cc (xf σ)) as [b|]; cbn; [apply IH|done].
Qed.

(** The code of [a] takes [σ] to [σ']. *)
Definition runs (a : emitter) (σ σ' : xstate) : Prop := ∃ is_, assembles a is_ ∧ exec_seq is_ σ = Some σ'.

Lemma runs_none σ : runs emit_none σ σ.
Proof. exists []. split; [apply assembles_none|done]. Qed.
Lemma runs_then a b σ σ1 σ2 : runs a σ σ1 → runs b σ1 σ2 → runs (a +> b) σ σ2.
Proof.
  intros (xs & Ha & Ea) (ys & Hb & Eb). exists (xs ++ ys). split; [by apply assembles_then|].
  by rewrite exec_seq_app, Ea.
Qed.
Lemma runs_if (b : bool) a σ σ' : (b = true → runs a σ σ') → (b = false → σ' = σ) → runs (emit_if b a) σ σ'.
Proof.
  destruct b; intros H1 H2.
  - destruct (H1 eq_refl) as (xs & Ha & Ea). exists xs. by split.
  - rewrite H2 by done. exists []. split; [apply assembles_none|done].
Qed.
Definition straight (i : instr) : Prop := if i is IJcc _ _ then False else True.
Lemma runs_emit a i σ σ' : encodes a i → straight i → exec_instr (phys l) i σ = Some σ' → runs a σ σ'.
Proof.
  intros He Hs Hx. exists [i]. split; [by apply assembles_one|].
  destruct i; try done; cbn [exec_seq]; by rewrite Hx.
Qed.
Lemma runs_eq a σ σ1 σ2 : runs a σ σ1 → σ1 = σ2 → runs a σ σ2.
Proof. by intros H <-. Qed.

(** A generator that uses [k] slow paths. *)
Definition generates (g : generator) (is_ : list instr) (k : nat) : Prop :=
  ∃ bs, (∀ rest, disassemble (length is_) (bs ++ rest) = Some (is_, rest)) ∧
    ∀ st, (length (g_slow st) + k <= MAX_SLOW_PATHS)%nat →
      g_emit (g st) = put_bytes bs (g_emit st) ∧ length (g_slow (g st)) = (length (g_slow st) + k)%nat ∧
      g_dbt (g st) = g_dbt st ∧ g_aborted (g st) = g_aborted st.
Lemma generates_lift a is_ : assembles a is_ → generates (lift a) is_ 0.
Proof. intros (bs & Ha & D). exists bs. split; [done|]. intros st Hst. split_and!; [apply Ha|cbn; lia|done..]. Qed.
Lemma generates_then a b xs ys j k : generates a xs j → generates b ys k → generates (a +>> b) (xs ++ ys) (j + k).
Proof.
  intros (bs & Da & Ha) (cs & Db & Hb). exists (bs ++ cs). split.
  { intros rest. rewrite <- app_assoc. by eapply disassemble_app. }
  intros st Hst. destruct (Ha st) as (E1 & E2 & E3 & E4); [lia|]. destruct (Hb (a st)) as (F1 & F2 & F3 & F4); [lia|].
  unfold then_gen. split_and!; [|lia|congruence..].
  rewrite F1, E1. unfold put_bytes. by rewrite fold_left_app.
Qed.

Definition gruns (g : generator) (k : nat) (σ σ' : xstate) : Prop :=
  ∃ is_, generates g is_ k ∧ exec_seq is_ σ = Some σ'.
Lemma gruns_lift a σ σ' : runs a σ σ' → gruns (lift a) 0 σ σ'.
Proof. intros (is_ & H & E). exists is_. split; [by apply generates_lift|done]. Qed.
Lemma gruns_then a b j k σ σ1 σ2 : gruns a j σ σ1 → gruns b k σ1 σ2 → gruns (a +>> b) (j + k) σ σ2.
Proof.
  intros (xs & Ha & Ea) (ys & Hb & Eb). exists (xs ++ ys). split; [by apply generates_then|].
  by rewrite exec_seq_app, Ea.
Qed.

Lemma cond_NE f : cond X64_CC_NE f = (z ← zf f; Some (negb z)).
Proof. by destruct f as [? ? ? [z|] ? ?]. Qed.
(** The branch of a store check either falls through or goes the slow way. *)
Lemma gruns_smc_branch reg imm n σ : is_Some (zf (xf σ)) →
  ∃ σ', gruns (emit_smc_branch reg imm n) 1 σ σ' ∧ rejoins σ σ'.
Proof.
  intros [z Hz]. exists (if negb z then slow σ else σ). split; [|destruct z; [apply rejoins_refl|apply Hslow]].
  exists [IJcc X64_CC_NE 0]. split.
  - exists [0x0F; 0x85; 0; 0; 0; 0]. split; [intros rest; by vm_compute|].
    intros [e sl d ab] Hst. cbn [g_slow g_emit] in *. unfold emit_smc_branch. cbn [g_slow g_emit].
    rewrite (proj2 (Nat.ltb_lt _ _)) by lia. cbn. rewrite length_app. cbn. split_and!; [done|lia|done|done].
  - cbn [exec_seq]. by rewrite cond_NE, Hz.
Qed.

(** ** Memory accesses *)

Lemma u64_small a : 0 <= a < 2 ^ 64 → u64 a = a.
Proof. intros H. by apply Z.mod_small. Qed.
Lemma guest_range a : guest_addr l a → 0 <= a < 2 ^ 64.
Proof using Hl.
  destruct (lo_cpu l Hl), (lo_mem l Hl), (lo_aux l Hl). unfold guest_addr, in_cpu, in_mem, in_aux. lia.
Qed.
Lemma ld8_at σ a : guest_addr l a → ld8 (phys l) σ a = at_ σ a.
Proof using Hl. intros H. unfold ld8. by rewrite u64_small by by apply guest_range. Qed.
Lemma at_st8 a b v σ : guest_addr l a → guest_addr l b →
  at_ (st8 (phys l) a v σ) b = if decide (a = b) then u8 v else at_ σ b.
Proof using Hl.
  intros Ha Hb. unfold at_, st8, upd. cbn. rewrite u64_small by by apply guest_range.
  case_decide as E; [subst; by rewrite Z.eqb_refl|].
  destruct (Z.eqb_spec (phys l b) (phys l a)) as [Ep|]; [|done].
  destruct E. symmetry. by apply (lo_inj l Hl).
Qed.
Lemma in_cpu_off o : 0 <= o < CTX_SIZE → in_cpu l (cpu_p l + o).
Proof. unfold in_cpu. lia. Qed.
Lemma in_mem_off a : is_word a → in_mem l (mem_p l + a).
Proof. unfold in_mem, is_word. lia. Qed.
Lemma in_aux_off i : 0 <= i < AUX_SIZE → in_aux l (aux_p l + i).
Proof. unfold in_aux. lia. Qed.
Lemma guest_cpu o : 0 <= o < CTX_SIZE → guest_addr l (cpu_p l + o).
Proof. left. by apply in_cpu_off. Qed.
Lemma guest_mem a : is_word a → guest_addr l (mem_p l + a).
Proof. right; left. by apply in_mem_off. Qed.
Lemma guest_aux i : 0 <= i < AUX_SIZE → guest_addr l (aux_p l + i).
Proof. right; right. by apply in_aux_off. Qed.
Lemma cpu_ne_mem o a : 0 <= o < CTX_SIZE → is_word a → cpu_p l + o ≠ mem_p l + a.
Proof using Hl. intros Ho Ha E. apply (lo_cpu_mem l Hl (cpu_p l + o)); [by apply in_cpu_off|]. rewrite E. by apply in_mem_off. Qed.
Lemma cpu_ne_aux o i : 0 <= o < CTX_SIZE → 0 <= i < AUX_SIZE → cpu_p l + o ≠ aux_p l + i.
Proof using Hl. intros Ho Ha E. apply (lo_cpu_aux l Hl (cpu_p l + o)); [by apply in_cpu_off|]. rewrite E. by apply in_aux_off. Qed.
Lemma mem_ne_aux a i : is_word a → 0 <= i < AUX_SIZE → mem_p l + a ≠ aux_p l + i.
Proof using Hl. intros Ho Ha E. apply (lo_mem_aux l Hl (mem_p l + a)); [by apply in_mem_off|]. rewrite E. by apply in_aux_off. Qed.

(** A byte of guest memory is written. *)
Lemma hmem_st_mem c σ a v : hmem c σ → is_word a → is_byte v →
  hmem (set_mem (mset a v (mem c)) c) (st8 (phys l) (mem_p l + a) v σ).
Proof using Hl.
  intros [] Ha Hv. split; intros; rewrite at_st8 by first [apply guest_mem; done | apply guest_cpu; off | apply guest_aux; off];
    first
      [ rewrite decide_False; [done|]; intros E; symmetry in E; revert E; apply cpu_ne_mem; [off|done]
      | rewrite decide_False; [auto|]; apply mem_ne_aux; [done|off]
      | idtac].
  cbn. rewrite mget_mset. destruct (decide (a = a0)) as [->|Hne].
  - by rewrite decide_True, u8_id.
  - rewrite decide_False by lia. auto.
Qed.
Lemma st8_u8 a v σ : st8 (phys l) a (u8 v) σ = st8 (phys l) a v σ.
Proof. unfold st8. f_equal. f_equal. unfold u8. by rewrite Z.mod_mod. Qed.

(** Two bytes of the context. *)
Lemma at_st_cpu2 o v σ b : 0 <= o → o + 1 < CTX_SIZE → guest_addr l b →
  at_ (st (phys l) 2 (cpu_p l + o) v σ) b =
  if decide (b = cpu_p l + o) then u8 v else if decide (b = cpu_p l + (o + 1)) then u8 (v >>' 8) else at_ σ b.
Proof using Hl.
  intros Ho Ho2 Hb. cbn [st]. rewrite <- Z.add_assoc, !at_st8 by first [done | apply guest_cpu; lia].
  repeat case_decide; subst; try done; try lia; congruence.
Qed.
(** Addresses of different things differ. *)
Ltac apart E :=
  exfalso; revert E;
  first [apply cpu_ne_mem; [off|done] | apply cpu_ne_aux; off | apply not_eq_sym, cpu_ne_mem; [off|done]
        | apply not_eq_sym, cpu_ne_aux; off | off].
Ltac ctx_fact :=
  intros; rewrite ?at_st_cpu2, ?at_st8 by first [off | apply guest_mem; done | apply guest_cpu; off | apply guest_aux; off];
  repeat (let E := fresh "E" in case_decide as E; [try apart E|]);
  try solve [exfalso; off | auto | congruence].
Lemma hmem_st_ix c σ v : hmem c σ → is_word v → hmem (set_rIX v c) (st (phys l) 2 (cpu_p l + OFF_IX) v σ).
Proof using Hl. intros [] Hv. split; ctx_fact; cbn; by rewrite ?u8_id by by apply byte_hi. Qed.
Lemma hmem_st_iy c σ v : hmem c σ → is_word v → hmem (set_rIY v c) (st (phys l) 2 (cpu_p l + OFF_IY) v σ).
Proof using Hl. intros [] Hv. split; ctx_fact; cbn; by rewrite ?u8_id by by apply byte_hi. Qed.
Lemma hmem_st_memptr c σ v : hmem c σ → is_word v → hmem (set_memptr v c) (st (phys l) 2 (cpu_p l + OFF_MEMPTR) v σ).
Proof using Hl. intros [] Hv. split; ctx_fact; cbn; by rewrite ?u8_id by by apply byte_hi. Qed.

(** The halves of IX and IY, by register code. *)
Lemma hmem_st_half c σ r pfx v : hmem c σ → cpu_ok c → r = 8 ∨ r = 9 → is_byte v →
  hmem (set_reg8_p r pfx v c) (st8 (phys l) (cpu_p l + reg8_offset_p r pfx) v σ).
Proof using Hl.
  intros [] Hc [->| ->] Hv; unfold reg8_offset_p, set_reg8_p; destruct (pfx =? 0xFD); split; ctx_fact; cbn;
    rewrite ?word_of_lo, ?word_of_hi, ?u8_id by eauto using u8_byte, byte_hi with z80; done || auto with z80.
Qed.

(** ** Reading operands *)

Lemma ea_mem i σ : xr σ R_MEM = mem_p l → is_word (xr σ i) → ea R_MEM (Some i) 0 0 σ = mem_p l + xr σ i.
Proof using Hl. intros Hm Hi. unfold ea. rewrite Hm, Z.shiftl_0_r, Z.add_0_r. apply u64_small, guest_range, guest_mem, Hi. Qed.
Lemma ea_mem_abs a σ : xr σ R_MEM = mem_p l → is_word a → ea R_MEM None 0 a σ = mem_p l + a.
Proof using Hl. intros Hm Hi. unfold ea. rewrite Hm, Z.add_0_r. apply u64_small, guest_range, guest_mem, Hi. Qed.
Lemma ea_cpu o σ : xr σ R_CPU = cpu_p l → 0 <= o < CTX_SIZE → ea R_CPU None 0 o σ = cpu_p l + o.
Proof using Hl. intros Hm Hi. unfold ea. rewrite Hm, Z.add_0_r. apply u64_small, guest_range, guest_cpu, Hi. Qed.
Lemma ea_aux i off σ : xr σ R_AUX = aux_p l → 0 <= xr σ i + off < AUX_SIZE → ea R_AUX (Some i) 0 off σ = aux_p l + (off + xr σ i).
Proof using Hl.
  intros Hm Hi. unfold ea. rewrite Hm, Z.shiftl_0_r, <- Z.add_assoc, (Z.add_comm (xr σ i)).
  apply u64_small, guest_range, guest_aux. lia.
Qed.

Lemma ld1 σ a : guest_addr l a → ld (phys l) 1 σ a = at_ σ a.
Proof using Hl. intros H. cbn [ld]. rewrite ld8_at by done. lia. Qed.
Lemma ld2 σ a : guest_addr l a → guest_addr l (a + 1) → ld (phys l) 2 σ a = at_ σ a + 256 * at_ σ (a + 1).
Proof using Hl. intros H H'. cbn [ld]. rewrite !ld8_at by done. lia. Qed.

Section Reads.
Context (c : z80_cpu) (σ : xstate) (Hc : cpu_ok c) (Hh : host c σ).

Lemma get_guest i : is_word (xr σ i) → get (phys l) B8 (OMem R_MEM (Some i) 0 0) σ = mget (mem c) (xr σ i).
Proof using Hl Hh.
  intros Hi. destruct Hh as [Hr Hm]. cbn [get nbytes_of]. rewrite ea_mem by (done || apply Hr).
  rewrite ld1 by by apply guest_mem. by apply hm_mem.
Qed.
Lemma get_guest_abs a : is_word a → get (phys l) B8 (OMem R_MEM None 0 a) σ = mget (mem c) a.
Proof using Hl Hh.
  intros Hi. destruct Hh as [Hr Hm]. cbn [get nbytes_of]. rewrite ea_mem_abs by (done || apply Hr).
  rewrite ld1 by by apply guest_mem. by apply hm_mem.
Qed.
Lemma mget16_pair m a : mem_ok m → is_word a → mget16 m a = mget m a + 256 * mget m (u16 (a + 1)).
Proof. intros Hm Ha. unfold mget16. rewrite u16_id by done. apply word_of_add; apply Hm. Qed.
Lemma get_guest16_abs a : is_word a → a ≠ 0xFFFF → get (phys l) W16 (OMem R_MEM None 0 a) σ = mget16 (mem c) a.
Proof using Hl Hh Hc.
  intros Ha Hne. destruct Hh as [Hr Hm]. cbn [get nbytes_of]. rewrite ea_mem_abs by (done || apply Hr).
  assert (is_word (a + 1)) as Ha' by off.
  rewrite ld2, <- Z.add_assoc, !hm_mem with (c := c), mget16_pair, (u16_id (a + 1))
    by first [done | by apply guest_mem | rewrite <- Z.add_assoc; by apply guest_mem | by apply ok_mem]. done.
Qed.
(** At SP, across the top when the memory is mirrored. *)
Lemma get_stack16 : mirrored l = true → get (phys l) W16 (OMem R_MEM (Some R_SP) 0 0) σ = mget16 (mem c) (rSP c).
Proof using Hl Hh Hc.
  intros Hmi. destruct Hh as [Hr Hm]. cbn [get nbytes_of]. pose proof (ok_rSP _ Hc) as Hsp.
  pose proof (hr_SP _ _ Hr) as Es. rewrite ea_mem by (rewrite ?Es; done || apply Hr). rewrite Es.
  rewrite mget16_pair by (done || by apply ok_mem). cbn [ld]. rewrite ld8_at by by apply guest_mem.
  rewrite (hm_mem _ _ Hm) by done. f_equal. rewrite Z.mul_0_r, Z.add_0_r. f_equal.
  rewrite <- Z.add_assoc. destruct (decide (rSP c = 0xFFFF)) as [->|Hne].
  - unfold ld8. change (0xFFFF + 1) with 0x10000. rewrite u64_small by (destruct (lo_mem l Hl); lia). rewrite (lo_mirror l Hl Hmi).
    pose proof (hm_mem _ _ Hm 0 ltac:(off)) as E. by rewrite Z.add_0_r in E.
  - assert (is_word (rSP c + 1)) by off. rewrite ld8_at by by apply guest_mem. rewrite (hm_mem _ _ Hm) by done. by rewrite u16_id.
Qed.
Lemma get_table i off : 0 <= xr σ i + off < 1024 →
  get (phys l) B8 (OMem R_AUX (Some i) 0 off) σ = table_at z80_f_tables (off + xr σ i).
Proof using Hl Hh.
  intros Hi. destruct Hh as [Hr Hm]. cbn [get nbytes_of]. rewrite ea_aux by (apply Hr || off).
  rewrite ld1 by (apply guest_aux; off). apply (hm_ft _ _ Hm). lia.
Qed.
Lemma get_add16 i : 0 <= xr σ i < ADD16_TABLE_LEN →
  get (phys l) B8 (OMem R_AUX (Some i) 0 FT_ADD16) σ = table_at z80_add16_table (xr σ i).
Proof using Hl Hh.
  intros Hi. destruct Hh as [Hr Hm]. cbn [get nbytes_of]. rewrite ea_aux by (apply Hr || off).
  rewrite ld1 by (apply guest_aux; off). by apply (hm_add16 _ _ Hm).
Qed.
Lemma get_daa i : 0 <= xr σ i < DAA_TABLE_LEN → is_word (table_at z80_daa_table (xr σ i)) →
  get (phys l) W16 (OMem R_AUX (Some i) 1 FT_DAA) σ = table_at z80_daa_table (xr σ i).
Proof using Hl Hh.
  intros Hi Hw. destruct Hh as [Hr Hm]. cbn [get nbytes_of].
  assert (ea R_AUX (Some i) 1 FT_DAA σ = aux_p l + (FT_DAA + 2 * xr σ i)) as ->.
  { unfold ea. rewrite (hr_aux _ _ Hr), Z.shiftl_mul_pow2 by lia. change (2 ^ 1) with 2.
    rewrite u64_small; [lia|]. destruct (lo_aux l Hl). off. }
  rewrite ld2 by (rewrite <- ?Z.add_assoc; apply guest_aux; off).
  rewrite <- Z.add_assoc, (hm_daal _ _ Hm), (hm_daah _ _ Hm) by done.
  rewrite <- word_of_add; [by apply word_of_split|apply u8_byte|apply Z.shiftr_nonneg, Hw].
Qed.
Lemma get_ctx16 pfx : get (phys l) W16 (OMem R_CPU None 0 (idx_reg_offset pfx)) σ = if pfx =? 0xFD then rIY c else rIX c.
Proof using Hl Hh Hc.
  destruct Hh as [Hr Hm]. cbn [get nbytes_of]. unfold idx_reg_offset.
  destruct (pfx =? 0xFD); rewrite ea_cpu by (apply Hr || off); rewrite ld2 by (rewrite <- ?Z.add_assoc; apply guest_cpu; off).
  - change (cpu_p l + OFF_IY) with (cpu_p l + (OFF_IY + 0)). rewrite <- Z.add_assoc. change (OFF_IY + 0 + 1) with OFF_IYH.
    fold OFF_IYL. rewrite (hm_iyl _ _ Hm), (hm_iyh _ _ Hm).
    rewrite <- word_of_add; [by apply word_of_split, ok_rIY|apply u8_byte|apply Z.shiftr_nonneg, ok_rIY, Hc].
  - change (cpu_p l + OFF_IX) with (cpu_p l + (OFF_IX + 0)). rewrite <- Z.add_assoc. change (OFF_IX + 0 + 1) with OFF_IXH.
    fold OFF_IXL. rewrite (hm_ixl _ _ Hm), (hm_ixh _ _ Hm).
    rewrite <- word_of_add; [by apply word_of_split, ok_rIX|apply u8_byte|apply Z.shiftr_nonneg, ok_rIX, Hc].
Qed.
Lemma get_half r pfx : r = 8 ∨ r = 9 →
  get (phys l) B8 (OMem R_CPU None 0 (reg8_offset_p r pfx)) σ = default 0 (reg8_p r pfx c).
Proof using Hl Hh.
  intros Hr'. destruct Hh as [Hr Hm]. cbn [get nbytes_of].
  destruct Hr' as [->| ->]; unfold reg8_offset_p, reg8_p; destruct (pfx =? 0xFD);
    rewrite ea_cpu by (apply Hr || off); rewrite ld1 by (apply guest_cpu; off); cbn [default]; apply Hm.
Qed.
Lemma get_memptr_hi : get (phys l) B8 (OMem R_CPU None 0 (OFF_MEMPTR + 1)) σ = memptr c >>' 8.
Proof using Hl Hh.
  destruct Hh as [Hr Hm]. cbn [get nbytes_of]. rewrite ea_cpu by (apply Hr || off). rewrite ld1 by (apply guest_cpu; off). apply Hm.
Qed.
End Reads.
End Host.
