(* ===== verification/RulesX64.v ===== *)
(** * RulesX64: the effect of each emitter, as rules

    [does a Q σ]: the code [a] appends runs from [σ] to a state in [Q].  One
    rule per emitter the translator uses for straight-line instructions,
    with the values a register ends up with written without truncation where
    the operands are in range.  Where no emitted instruction reads the host
    flags a rule leaves them arbitrary. *)

From Stdlib Require Import ZArith Lia Bool List.
From stdpp Require Import base option gmap list.
From S2P Require Import Prelude Cpu X86 EmitX64 EmitX64Ok TransX64 HostX64.

Open Scope list_scope.
Open Scope Z_scope.
Open Scope z80_scope.

(** ** Arithmetic of the rules *)

Definition is_dword (v : Z) : Prop := 0 <= v < 4294967296.
Lemma byte_dword v : is_byte v → is_dword v.
Proof. unfold is_byte, is_dword. lia. Qed.
Lemma word_dword v : is_word v → is_dword v.
Proof. unfold is_word, is_dword. lia. Qed.
Lemma trunc_dword v : is_dword v → trunc D32 v = v.
Proof. intros H. by apply trunc_id. Qed.
Lemma u8_dword v : is_dword (u8 v).
Proof. apply byte_dword, u8_byte. Qed.
Lemma u16_dword v : is_dword (u16 v).
Proof. apply word_dword, u16_word. Qed.
Lemma mem_dword P n σ a : (n <= 2)%nat → (∀ x, 0 <= xm σ x < 256) → is_dword (ld P n σ a).
Proof.
  intros Hn Hx. unfold is_dword. destruct n as [|[|[|]]]; cbn [ld]; unfold ld8; try lia.
  - specialize (Hx (P (u64 a))). lia.
  - pose proof (Hx (P (u64 a))). pose proof (Hx (P (u64 (a + 1)))). lia.
Qed.
Lemma land_dword a b : is_dword a → is_dword b → is_dword (a &' b).
Proof.
  intros Ha Hb. unfold is_dword in *. split; [apply Z.land_nonneg; lia|].
  change 4294967296 with (2 ^ 32) in *. rewrite <- (Z.mod_small a (2 ^ 32)), <- Z.land_ones, <- Z.land_assoc, (Z.land_comm _ b),
    Z.land_assoc, Z.land_ones by lia. by apply Z.mod_pos_bound.
Qed.
Lemma trunc_bits a : 0 <= a → is_dword a ↔ a &' Z.ones 32 = a.
Proof.
  intros Ha. rewrite Z.land_ones by lia. split; [intros H; by apply Z.mod_small|].
  intros <-. by apply Z.mod_pos_bound.
Qed.
Lemma lor_dword a b : is_dword a → is_dword b → is_dword (a |' b).
Proof.
  intros Ha Hb. apply trunc_bits; [apply Z.lor_nonneg; split; [apply Ha|apply Hb]|].
  rewrite Z.land_lor_distr_l. f_equal; apply trunc_bits; first [done|apply Ha|apply Hb].
Qed.
Lemma lxor_dword a b : is_dword a → is_dword b → is_dword (a ^' b).
Proof.
  intros Ha Hb. apply trunc_bits; [apply Z.lxor_nonneg; split; intros _; [apply Hb|apply Ha]|].
  assert (a &' Z.ones 32 = a) as Ea by (apply trunc_bits; [apply Ha|done]).
  assert (b &' Z.ones 32 = b) as Eb by (apply trunc_bits; [apply Hb|done]).
  apply Z.bits_inj'. intros n Hn. rewrite Z.land_spec, Z.lxor_spec.
  rewrite <- Ea, <- Eb, !Z.land_spec. by destruct (Z.testbit a n), (Z.testbit b n), (Z.testbit (Z.ones 32) n).
Qed.
Lemma s8_trunc v : is_byte v → trunc B8 (s8 v) = v.
Proof.
  intros H. unfold trunc, s8. cbn [modulus]. unfold is_byte in H.
  destruct (Z.ltb_spec v 128); Z.to_euclidean_division_equations; lia.
Qed.
Lemma sext_trunc v : is_dword v → trunc D32 (sext32 v) = v.
Proof.
  intros H. unfold trunc, sext32. cbn [modulus]. unfold is_dword in H.
  destruct (Z.ltb_spec v 2147483648); Z.to_euclidean_division_equations; lia.
Qed.
#[export] Hint Resolve byte_dword word_dword u8_dword u16_dword land_dword lor_dword lxor_dword : z80.

Section Rules.
Context (l : layout) (slow : xstate → xstate).
Local Abbreviation P := (phys l).
Implicit Types (σ : xstate) (Q : xstate → Prop).

Definition does (a : emitter) (Q : xstate → Prop) (σ : xstate) : Prop := ∃ σ', runs l slow a σ σ' ∧ Q σ'.

Lemma does_none Q σ : Q σ → does emit_none Q σ.
Proof. intros H. exists σ. split; [apply runs_none|done]. Qed.
Lemma does_then a b Q σ : does a (does b Q) σ → does (a +> b) Q σ.
Proof. intros (σ1 & Ha & σ2 & Hb & HQ). exists σ2. split; [by eapply runs_then|done]. Qed.
Lemma does_seq2 a b k Q σ : does (a +> b) (does k Q) σ → does (a +> b +> k) Q σ.
Proof. exact (does_then (a +> b) k Q σ). Qed.
Lemma does_seq3 a b d k Q σ : does (a +> b +> d) (does k Q) σ → does (a +> b +> d +> k) Q σ.
Proof. exact (does_then (a +> b +> d) k Q σ). Qed.
Lemma does_if (b : bool) a Q σ : (b = true → does a Q σ) → (b = false → Q σ) → does (emit_if b a) Q σ.
Proof. destruct b; intros H1 H2; [by apply H1|]. apply (does_none Q). by apply H2. Qed.
Lemma does_mono a Q Q' σ : does a Q σ → (∀ σ', Q σ' → Q' σ') → does a Q' σ.
Proof. intros (σ' & H & HQ) Hi. exists σ'. split; [done|by apply Hi]. Qed.
Lemma does_emit a i σ' Q σ : encodes a i → straight i → exec_instr P i σ = Some σ' → Q σ' → does a Q σ.
Proof. intros He Hs Hx HQ. exists σ'. split; [by eapply runs_emit|done]. Qed.

Ltac by_enc c := eapply does_emit; [apply c; done|done|reflexivity|].

(** ** Moves *)

Lemma does_mov_r32_r32 d s Q σ : is_reg d → is_reg s → is_dword (xr σ s) →
  Q (set_reg d (xr σ s) σ) → does (emit_mov_r32_r32 d s) Q σ.
Proof.
  intros Hd Hs Hv HQ. by_enc enc_mov_r32_r32. cbn [put get]. change (merge D32) with (λ _ : Z, trunc D32). cbv beta.
  by rewrite !trunc_dword by (rewrite ?trunc_dword; done).
Qed.
Lemma does_mov_r8_r8 d s Q σ : is_reg d → is_reg s →
  Q (set_reg d (merge B8 (xr σ d) (xr σ s)) σ) → does (emit_mov_r8_r8 d s) Q σ.
Proof.
  intros Hd Hs HQ. by_enc enc_mov_r8_r8. cbn [put get]. 
  replace (merge B8 (xr σ d) (trunc B8 (xr σ s))) with (merge B8 (xr σ d) (xr σ s)); [done|].
  unfold merge. by rewrite (trunc_id B8 (trunc B8 (xr σ s))) by apply trunc_range.
Qed.
Lemma does_mov_r32_imm32 d v Q σ : is_reg d → is_dword v → Q (set_reg d v σ) → does (emit_mov_r32_imm32 d v) Q σ.
Proof.
  intros Hd Hv HQ. by_enc enc_mov_r32_imm32. cbn [put get merge]. by rewrite sext_trunc, trunc_dword.
Qed.
Lemma does_mov_r8_imm8 d v Q σ : is_reg d → is_byte v →
  Q (set_reg d (merge B8 (xr σ d) v) σ) → does (emit_mov_r8_imm8 d v) Q σ.
Proof. intros Hd Hv HQ. by_enc enc_mov_r8_imm8. cbn [put get]. by rewrite s8_trunc. Qed.
Lemma does_movzx_r32_r8 d s Q σ : is_reg d → is_reg s → Q (set_reg d (u8 (xr σ s)) σ) → does (emit_movzx_r32_r8 d s) Q σ.
Proof. intros Hd Hs HQ. by_enc enc_movzx_r32_r8. cbn [put get merge]. by rewrite trunc_B8, trunc_dword by auto with z80. Qed.
Lemma does_movzx_r32_r16 d s Q σ : is_reg d → is_reg s → Q (set_reg d (u16 (xr σ s)) σ) → does (emit_movzx_r32_r16 d s) Q σ.
Proof. intros Hd Hs HQ. by_enc enc_movzx_r32_r16. cbn [put get merge]. by rewrite trunc_W16, trunc_dword by auto with z80. Qed.
Lemma does_movzx_r32_ah d Q σ : 0 <= d < 8 → Q (set_reg d (u8 (xr σ T0 >>' 8)) σ) → does (emit_movzx_r32_ah d) Q σ.
Proof. intros Hd HQ. by_enc enc_movzx_r32_ah. cbn [put get merge]. by rewrite trunc_dword by apply u8_dword. Qed.
Lemma does_movzx_r32_m8 d b i o v Q σ : is_reg d → is_mem b i o → get P B8 (mem_op b i o) σ = v → is_byte v →
  Q (set_reg d v σ) → does (emit_movzx_r32_m8 d b i o) Q σ.
Proof. intros Hd Hm Hv Hb HQ. by_enc enc_movzx_r32_m8. rewrite Hv. cbn [put merge]. by rewrite trunc_byte. Qed.
Lemma does_movzx_r32_m16 d b i o v Q σ : is_reg d → is_mem b i o → get P W16 (mem_op b i o) σ = v → is_word v →
  Q (set_reg d v σ) → does (emit_movzx_r32_m16 d b i o) Q σ.
Proof. intros Hd Hm Hv Hb HQ. by_enc enc_movzx_r32_m16. rewrite Hv. cbn [put merge]. by rewrite trunc_word. Qed.
Lemma does_movzx_r32_m16_sib d b i k o v Q σ : is_reg d → is_mem b i o → 0 <= k < 4 → i ≠ X64_NOREG →
  get P W16 (OMem b (index_of i) k o) σ = v → is_word v →
  Q (set_reg d v σ) → does (emit_movzx_r32_m16_sib d b i k o) Q σ.
Proof. intros Hd Hm Hk Hi Hv Hb HQ. by_enc enc_movzx_r32_m16_sib. rewrite Hv. cbn [put merge]. by rewrite trunc_word. Qed.
Lemma st_trunc n a v v' σ : v mod 2 ^ (8 * Z.of_nat n) = v' mod 2 ^ (8 * Z.of_nat n) → st P n a v σ = st P n a v' σ.
Proof.
  revert a v v' σ. induction n as [|n IH]; intros a v v' σ H; [done|]. cbn [st].
  replace (8 * Z.of_nat (S n)) with (8 + 8 * Z.of_nat n) in H by lia.
  assert (u8 v = u8 v') as E8.
  { rewrite <- (low_byte v (8 + 8 * Z.of_nat n)), <- (low_byte v' (8 + 8 * Z.of_nat n)) by lia. by rewrite H. }
  rewrite <- (st8_u8 l a v), <- (st8_u8 l a v'), E8. apply IH.
  rewrite !Z.pow_add_r in H by lia. rewrite !Z.rem_mul_r in H by lia. change (2 ^ 8) with 256 in H.
  fold (u8 v) in H. fold (u8 v') in H. rewrite E8 in H. rewrite !Z.shiftr_div_pow2 by lia. change (2 ^ 8) with 256. lia.
Qed.
Lemma does_mov_m8_r8 b i o s a Q σ : is_reg s → is_mem b i o → ea b (index_of i) 0 o σ = a →
  Q (st8 P a (xr σ s) σ) → does (emit_mov_m8_r8 b i o s) Q σ.
Proof.
  intros Hs Hm Ha HQ. by_enc enc_mov_m8_r8. cbn [put mem_op get nbytes_of st]. rewrite Ha, trunc_B8.
  by rewrite st8_u8.
Qed.
Lemma does_mov_m8_imm8 b i o v a Q σ : is_byte v → is_mem b i o → ea b (index_of i) 0 o σ = a →
  Q (st8 P a v σ) → does (emit_mov_m8_imm8 b i o v) Q σ.
Proof. intros Hs Hm Ha HQ. by_enc enc_mov_m8_imm8. cbn [put mem_op get nbytes_of st]. by rewrite Ha, s8_trunc. Qed.
Lemma does_mov_m16_r16 b i o s a Q σ : is_reg s → is_mem b i o → ea b (index_of i) 0 o σ = a →
  Q (st P 2 a (xr σ s) σ) → does (emit_mov_m16_r16 b i o s) Q σ.
Proof.
  intros Hs Hm Ha HQ. by_enc enc_mov_m16_r16. cbn [put mem_op get nbytes_of]. rewrite Ha, trunc_W16.
  rewrite (st_trunc 2 a _ (xr σ s)); [done|]. unfold u16. change (2 ^ (8 * Z.of_nat 2)) with 65536. by rewrite Z.mod_mod.
Qed.
Lemma does_mov_m16_imm16 b i o v a Q σ : is_word v → is_mem b i o → ea b (index_of i) 0 o σ = a →
  Q (st P 2 a v σ) → does (emit_mov_m16_imm16 b i o v) Q σ.
Proof. intros Hs Hm Ha HQ. by_enc enc_mov_m16_imm16. cbn [put mem_op get nbytes_of]. by rewrite Ha, trunc_W16, u16_id. Qed.

(** ** Arithmetic *)

Lemma does_alu_r32_r32 x d s v Q σ : is_alu_code x → is_reg d → is_reg s → is_dword (xr σ d) → is_dword (xr σ s) →
  (alu_of x = OR ∧ v = xr σ d |' xr σ s) ∨ (alu_of x = XOR ∧ v = xr σ d ^' xr σ s) →
  (∀ f, Q (set_xf f (set_reg d v σ))) → does (emit_alu_r32_r32 x d s) Q σ.
Proof.
  intros Hx Hd Hs Vd Vs Hop HQ.
  destruct Hop as [[E ->]|[E ->]]; (eapply does_emit; [by apply enc_alu_r32_r32|done| |apply HQ]); cbn [exec_instr get];
    rewrite !trunc_dword, E by done; cbn [alu mbind option_bind put merge]; rewrite trunc_dword by auto with z80; reflexivity.
Qed.
(** Clearing a register. *)
Lemma does_zero d Q σ : is_reg d → (∀ f, Q (set_xf f (set_reg d 0 σ))) → does (emit_alu_r32_r32 X64_ALU_XOR d d) Q σ.
Proof.
  intros Hd HQ. eapply does_emit; [by apply enc_alu_r32_r32|done| |apply HQ]. cbn [exec_instr].
  change (alu_of X64_ALU_XOR) with XOR. cbn [alu mbind option_bind put get merge]. rewrite Z.lxor_nilpotent. reflexivity.
Qed.
(** The immediate as the unsigned value it stands for. *)
Lemma does_alu_r32_imm x d i w v Q σ : is_alu_code x → is_reg d → int32 i → is_dword (xr σ d) → trunc D32 i = w →
  (alu_of x = AND ∧ v = xr σ d &' w) ∨ (alu_of x = OR ∧ v = xr σ d |' w) ∨ (alu_of x = XOR ∧ v = xr σ d ^' w) ∨
  (alu_of x = ADD ∧ v = trunc D32 (xr σ d + w)) ∨ (alu_of x = SUB ∧ v = trunc D32 (xr σ d - w)) →
  (∀ f, Q (set_xf f (set_reg d v σ))) → does (emit_alu_r32_imm x d i) Q σ.
Proof.
  intros Hx Hd Hi Vd Vw Hop HQ. assert (is_dword w) as Hw by (subst w; apply trunc_range).
  destruct Hop as [[E ->]|[[E ->]|[[E ->]|[[E ->]|[E ->]]]]];
    (eapply does_emit; [by apply enc_alu_r32_imm|done| |apply HQ]); cbn [exec_instr get];
    rewrite Vw, trunc_dword, E by done; cbn [alu mbind option_bind put merge];
    rewrite trunc_dword by first [apply trunc_range | auto with z80]; reflexivity.
Qed.
Lemma does_alu_r16_imm8 x d i v Q σ : is_alu_code x → is_reg d → int8 i →
  (alu_of x = ADD ∧ v = u16 (xr σ d + i)) ∨ (alu_of x = SUB ∧ v = u16 (xr σ d - i)) →
  (∀ f, Q (set_xf f (set_reg d (merge W16 (xr σ d) v) σ))) → does (emit_alu_r16_imm8 x d i) Q σ.
Proof.
  intros Hx Hd Hi Hop HQ.
  assert (trunc W16 (u16 (xr σ d) + u16 i) = u16 (xr σ d + i)) as Ea by (symmetry; apply Z.add_mod; done).
  assert (trunc W16 (u16 (xr σ d) - u16 i) = u16 (xr σ d - i)) as Es by (symmetry; apply Zminus_mod; done).
  destruct Hop as [[E ->]|[E ->]]; (eapply does_emit; [by apply enc_alu_r16_imm8|done| |apply HQ]); cbn [exec_instr get];
    rewrite (trunc_W16 (xr σ d)), (trunc_W16 i), E; cbn [alu mbind option_bind put]; rewrite ?Ea, ?Es; reflexivity.
Qed.
(** 8-bit operations, flags included: [a] and [b] are the operands. *)
Lemma does_alu8 x d em o a b r f Q σ : encodes em (IAlu (alu_of x) B8 (OReg d) o) → is_byte (xr σ d) →
  xr σ d = a → get P B8 o σ = b → alu (alu_of x) B8 a b (xf σ) = Some (r, f) → is_byte r →
  Q (set_xf f (if alu_of x is CMP then σ else set_reg d r σ)) → does em Q σ.
Proof.
  intros He Hd Ha Hb Halu Hr HQ. eapply does_emit; [done|done| |done]. cbn [exec_instr].
  rewrite Hb. cbn [get]. rewrite trunc_B8, u8_id by done. rewrite Ha, Halu. cbn [mbind option_bind].
  destruct (alu_of x); cbn [put]; by rewrite ?merge8_byte, ?u8_id by (subst; done).
Qed.
(** The low byte of a register is combined with an immediate. *)
Lemma does_alu_r8_imm8 x d i v Q σ : is_alu_code x → is_reg d → is_byte i →
  (alu_of x = AND ∧ v = u8 (xr σ d) &' i) ∨ (alu_of x = OR ∧ v = u8 (xr σ d) |' i) ∨ (alu_of x = XOR ∧ v = u8 (xr σ d) ^' i) →
  (∀ f, Q (set_xf f (set_reg d (merge B8 (xr σ d) v) σ))) → does (emit_alu_r8_imm8 x d i) Q σ.
Proof.
  intros Hx Hd Hi Hop HQ.
  destruct Hop as [[E ->]|[[E ->]|[E ->]]]; (eapply does_emit; [by apply enc_alu_r8_imm8|done| |apply HQ]);
    cbn [exec_instr get]; rewrite s8_trunc, trunc_B8, E by done; reflexivity.
Qed.
Lemma does_alu_m8_imm8 x b i o v a w r Q σ : is_alu_code x → is_mem b i o → is_byte v →
  ea b (index_of i) 0 o σ = a → get P B8 (mem_op b i o) σ = w →
  (alu_of x = AND ∧ r = w &' v) ∨ (alu_of x = OR ∧ r = w |' v) →
  (∀ f, Q (set_xf f (st8 P a r σ))) → does (emit_alu_m8_imm8 x b i o v) Q σ.
Proof.
  intros Hx Hm Hv Ha Hw Hop HQ.
  destruct Hop as [[E ->]|[E ->]]; (eapply does_emit; [by apply enc_alu_m8_imm8|done| |apply HQ]); cbn [exec_instr];
    rewrite Hw, E; cbn [get]; rewrite s8_trunc by done; cbn [alu mbind option_bind put mem_op nbytes_of st]; rewrite Ha; reflexivity.
Qed.
Lemma does_incdec_m16 b i o (inc : bool) a v Q σ : is_mem b i o → ea b (index_of i) 0 o σ = a → get P W16 (mem_op b i o) σ = v →
  (∀ f, Q (set_xf f (st P 2 a (u16 (v + if inc then 1 else -1)) σ))) → does (emit_incdec_m16 b i o inc) Q σ.
Proof.
  intros Hm Ha Hv HQ.
  destruct inc; (eapply does_emit; [by apply enc_incdec_m16|done| |apply HQ]); cbn [exec_instr]; rewrite Hv;
    cbn [put mem_op nbytes_of]; rewrite Ha; reflexivity.
Qed.
Lemma does_inc_r8 d Q σ : is_reg d →
  (∀ f, Q (set_xf f (set_reg d (merge B8 (xr σ d) (u8 (xr σ d + 1))) σ))) → does (emit_inc_r8 d) Q σ.
Proof.
  intros Hd HQ. eapply does_emit; [by apply enc_inc_r8|done|reflexivity|].
  assert (trunc B8 (trunc B8 (xr σ d) + 1) = u8 (xr σ d + 1)) as E by (apply Z.add_mod_idemp_l; done).
  cbn [get put]. rewrite E. apply HQ.
Qed.
Lemma does_dec_r8 d Q σ : is_reg d →
  (∀ f, Q (set_xf f (set_reg d (merge B8 (xr σ d) (u8 (xr σ d - 1))) σ))) → does (emit_dec_r8 d) Q σ.
Proof.
  intros Hd HQ. eapply does_emit; [by apply enc_dec_r8|done|reflexivity|].
  assert (trunc B8 (trunc B8 (xr σ d) - 1) = u8 (xr σ d - 1)) as E by apply Zminus_mod_idemp_l.
  cbn [get put]. rewrite E. apply HQ.
Qed.
Lemma does_lea_r32 d b i o v Q σ : is_reg d → is_mem b i o → trunc D32 (ea b (index_of i) 0 o σ) = v →
  Q (set_reg d v σ) → does (emit_lea_r32 d b i o) Q σ.
Proof. intros Hd Hm Hv HQ. by_enc enc_lea_r32. cbn [put merge]. by rewrite Hv. Qed.

(** ** Shifts *)

Lemma is_shift_code x op : shift_of x = Some op → 0 <= x < 8 → is_shift x op.
Proof. done. Qed.
Lemma shift_other op f n v : 0 < n < 32 → is_dword v → op ≠ RCL → op ≠ RCR → op ≠ SAR →
  ∃ g, shift op D32 v n f =
    Some (match op with
          | SHL => trunc D32 (v <<' n) | SHR => v >>' n
          | ROL => trunc D32 (v <<' n) |' (v >>' (32 - n))
          | _ => (v >>' n) |' trunc D32 (v <<' (32 - n))
          end, g).
Proof.
  intros Hn Hv H1 H2 H3. unfold shift. cbn [bits]. destruct (Z.eqb_spec n 0), (Z.leb_spec 32 n); try lia.
  destruct op; try done; eexists; reflexivity.
Qed.
Lemma does_shift_r32_imm x op d n v Q σ : is_shift x op → is_reg d → 0 < n < 32 → is_dword (xr σ d) →
  (op = SHL ∧ v = trunc D32 (xr σ d <<' n)) ∨ (op = SHR ∧ v = xr σ d >>' n) ∨
  (op = ROR ∧ v = (xr σ d >>' n) |' trunc D32 (xr σ d <<' (32 - n))) ∨
  (op = ROL ∧ v = trunc D32 (xr σ d <<' n) |' (xr σ d >>' (32 - n))) →
  (∀ f, Q (set_xf f (set_reg d v σ))) → does (emit_shift_r32_imm x d n) Q σ.
Proof.
  intros Hx Hd Hn Hv Hop HQ.
  assert (∀ k, 0 <= k → is_dword (xr σ d >>' k)) as Hr.
  { intros k Hk. unfold is_dword in *. rewrite Z.shiftr_div_pow2 by lia. pose proof (Z.pow_pos_nonneg 2 k ltac:(lia) Hk).
    split; [apply Z.div_pos; lia|]. apply Z.div_lt_upper_bound; nia. }
  assert (is_dword v) as Hw.
  { destruct Hop as [[_ ->]|[[_ ->]|[[_ ->]|[_ ->]]]]; first [apply trunc_range | apply lor_dword | idtac];
      first [apply trunc_range | apply Hr; lia]. }
  destruct (shift_other op (xf σ) n (xr σ d)) as [g Hg]; [done|done|by destruct Hop as [[-> _]|[[-> _]|[[-> _]|[-> _]]]]|by destruct Hop as [[-> _]|[[-> _]|[[-> _]|[-> _]]]]|by destruct Hop as [[-> _]|[[-> _]|[[-> _]|[-> _]]]]|].
  eapply does_emit; [apply (enc_shift_r32_imm x op); try done; unfold is_byte; lia|done| |apply (HQ g)].
  cbn [exec_instr get]. rewrite trunc_dword, Hg by done. cbn [mbind option_bind put merge].
  destruct Hop as [[-> ->]|[[-> ->]|[[-> ->]|[-> ->]]]]; by rewrite trunc_dword.
Qed.
Lemma does_shift_r8_imm x op d v r f Q σ : is_shift x op → is_reg d → xr σ d = v → is_byte v →
  shift op B8 v 1 (xf σ) = Some (r, f) → is_byte r →
  Q (set_xf f (set_reg d r σ)) → does (emit_shift_r8_imm x d 1) Q σ.
Proof.
  intros Hx Hd Ev Hv Hs Hr HQ. eapply does_emit; [by apply (enc_shift_r8_imm x op)|done| |exact HQ].
  cbn [exec_instr get]. rewrite Ev, trunc_B8, u8_id, Hs by done. cbn [mbind option_bind put].
  rewrite Ev, merge8_byte, u8_id by done. reflexivity.
Qed.

(** ** Tests and conditions *)

Lemma does_bt_r32_imm8 d n Q σ : is_reg d → 0 <= n < 32 → is_dword (xr σ d) →
  Q (set_xf (mk_flags (Some (Z.testbit (xr σ d) n)) None None (zf (xf σ)) None None) σ) → does (emit_bt_r32_imm8 d n) Q σ.
Proof.
  intros Hd Hn Hv HQ. eapply does_emit; [apply enc_bt_r32_imm8; [done|unfold is_byte; lia]|done|reflexivity|].
  cbn [get]. by rewrite trunc_dword, Z.mod_small.
Qed.
Lemma does_setcc_r8 k d b Q σ : is_cc k → is_reg d → cond k (xf σ) = Some b →
  Q (set_reg d (merge B8 (xr σ d) (Z.b2z b)) σ) → does (emit_setcc_r8 k d) Q σ.
Proof.
  intros Hk Hd Hc HQ. eapply does_emit; [by apply enc_setcc_r8|done| |done]. cbn [exec_instr]. by rewrite Hc.
Qed.
Lemma does_cmovcc_r32_r32 k d s b Q σ : is_cc k → is_reg d → is_reg s → is_dword (xr σ d) → is_dword (xr σ s) →
  cond k (xf σ) = Some b →
  Q (set_reg d (if b then xr σ s else xr σ d) σ) → does (emit_cmovcc_r32_r32 k d s) Q σ.
Proof.
  intros Hk Hd Hs Vd Vs Hc HQ. eapply does_emit; [by apply enc_cmovcc_r32_r32|done| |exact HQ]. cbn [exec_instr].
  rewrite Hc. cbn [mbind option_bind get put merge]. rewrite !(trunc_dword (xr σ _)) by done.
  destruct b; by rewrite trunc_dword.
Qed.
Lemma does_lahf b Q σ : lahf_byte (xf σ) = Some b → is_byte b →
  (∀ x, u8 (x >>' 8) = b → Q (set_reg T0 x σ)) → does emit_lahf Q σ.
Proof.
  intros Hb Hr HQ. eapply does_emit; [apply enc_lahf|done| |].
  - cbn [exec_instr]. rewrite Hb. cbn [mbind option_bind put]. reflexivity.
  - apply HQ. unfold u8. rewrite !Z.shiftl_mul_pow2, !Z.shiftr_div_pow2 by lia. change (2 ^ 8) with 256. unfold is_byte in Hr.
    change (xr σ T0) with (xr σ 0). Z.to_euclidean_division_equations. lia.
Qed.
Lemma does_test_r8_imm8 d v Q σ : is_reg d → is_byte v →
  Q (set_xf (logic_flags B8 (u8 (xr σ d) &' v)) σ) → does (emit_test_r8_imm8 d v) Q σ.
Proof. intros Hd Hv HQ. by_enc enc_test_r8_imm8. cbn [get]. by rewrite s8_trunc. Qed.
Lemma does_test_r32_r32 d s Q σ : is_reg d → is_reg s → is_dword (xr σ d) → is_dword (xr σ s) →
  Q (set_xf (logic_flags D32 (xr σ d &' xr σ s)) σ) → does (emit_test_r32_r32 d s) Q σ.
Proof. intros Hd Hs Vd Vs HQ. by_enc enc_test_r32_r32. cbn [get]. by rewrite !trunc_dword. Qed.
(** Only ZF of the bitmap test is read. *)
Lemma does_cmp_m8_imm8 b i o v Q σ : is_mem b i o → is_byte v →
  (∀ f, is_Some (zf f) → Q (set_xf f σ)) → does (emit_cmp_m8_imm8 b i o v) Q σ.
Proof. intros Hm Hv HQ. by_enc enc_cmp_m8_imm8. by apply HQ. Qed.
Lemma does_cmp_m16_imm8 b i o v Q σ : is_mem b i o → int8 v →
  (∀ f, is_Some (zf f) → Q (set_xf f σ)) → does (emit_cmp_m16_imm8 b i o v) Q σ.
Proof. intros Hm Hv HQ. by_enc enc_cmp_m16_imm8. by apply HQ. Qed.
End Rules.
