(* ===== verification/GuestX64.v ===== *)
(** * GuestX64: guest state through emitted code

    How the host's picture of the Z80 ([host]) changes: writes to pinned and
    scratch registers, to guest memory and to the context, and the
    translator's access functions over them: guest registers by code,
    effective addresses, stores with their code-bitmap check, the stack. *)

From Stdlib Require Import ZArith Lia Bool List.
From stdpp Require Import base option gmap list.
From S2P Require Import Prelude Cpu Decode Interp InterpOk Translate JitFlags X86 EmitX64 EmitX64Ok TransX64 HostX64 RulesX64.

Open Scope list_scope.
Open Scope Z_scope.
Open Scope z80_scope.

(** Registers the translator uses between instructions of one guest
    operation. *)
Definition scratch (r : Z) : Prop := r = T0 ∨ r = T1 ∨ r = T2 ∨ r = T3 ∨ r = T4.

(** Register files by computation. *)
Ltac xs := cbn [xr xf xm set_reg set_xf st8]; unfold upd;
  repeat match goal with
  | |- context [?a =? ?b] =>
      lazymatch eval vm_compute in (a =? b) with
      | true => change (a =? b) with true
      | false => change (a =? b) with false
      end
  end; cbv iota.

Set Default Proof Using "Type".

Section Guest.
Context (l : layout).
Local Abbreviation host := (host l).
Local Abbreviation P := (phys l).
Implicit Types (σ : xstate) (c : z80_cpu) (Q : xstate → Prop).

(** ** The picture after a write *)

Lemma host_ext c c' σ : host c σ → rA c' = rA c → rF c' = rF c → rBC c' = rBC c → rDE c' = rDE c → rHL c' = rHL c →
  rSP c' = rSP c → rIX c' = rIX c → rIY c' = rIY c → memptr c' = memptr c → mem c' = mem c → host c' σ.
Proof.
  intros [[] []] EA EF EB ED EH ES EX EY EM Em. split; split; intros; rewrite ?EA, ?EF, ?EB, ?ED, ?EH, ?ES, ?EX, ?EY, ?EM, ?Em; auto.
Qed.
Definition guest_reg (r : Z) : Prop := r ∈ [R_CPU; R_MEM; R_AUX; R_HL; R_BC; R_DE; R_SP; R_A; R_F].
Lemma host_same c σ σ' : host c σ → (∀ r, guest_reg r → xr σ' r = xr σ r) → (∀ a, at_ l σ' a = at_ l σ a) → host c σ'.
Proof.
  intros [[] []] Hr Hm. split; split; intros; rewrite ?Hr, ?Hm by (unfold guest_reg; set_solver); auto.
Qed.
Lemma scratch_not_guest r g : scratch r → guest_reg g → (g =? r) = false.
Proof.
  unfold guest_reg. intros Hs Hg. rewrite !elem_of_cons, elem_of_nil in Hg.
  destruct Hs as [->|[->|[->|[->| ->]]]]; decompose [or] Hg; subst; done.
Qed.
Lemma host_scratch c σ r v : host c σ → scratch r → host c (set_reg r v σ).
Proof.
  intros H Hs. eapply host_same; [done| |done]. intros g Hg. cbn [xr set_reg]. unfold upd. by rewrite (scratch_not_guest r g).
Qed.
Lemma host_xf c σ f : host c σ → host c (set_xf f σ).
Proof. intros H. by eapply host_same. Qed.
Lemma pinned_guest r : guest_reg r → pinned r.
Proof. unfold guest_reg, pinned. set_solver. Qed.
Lemma host_rejoins c σ σ' : host c σ → rejoins l σ σ' → host c σ'.
Proof.
  intros [Hr Hm] [Jr Jm]. split.
  - destruct Hr. split; rewrite Jr by (unfold pinned; set_solver); done.
  - assert (∀ a, slow_keeps l a → at_ l σ' a = at_ l σ a) as J by done.
    destruct Hm. split; intros; rewrite J; auto; unfold slow_keeps, in_cpu, in_mem;
      unfold CTX_SIZE, AUX_BITMAP_OFF, FT_ADD16, FT_DAA, DAA_TABLE_LEN, ADD16_TABLE_LEN, is_word,
        OFF_IXL, OFF_IXH, OFF_IYL, OFF_IYH, OFF_IX, OFF_IY, OFF_MEMPTR in *; lia.
Qed.

(** Writes to the pinned registers. *)
Ltac reg_write H := destruct H as [[] []]; split; split; xs; try done.
Lemma host_A c σ v : host c σ → host (set_rA v c) (set_reg R_A v σ).
Proof. intros H. reg_write H. Qed.
Lemma host_F c σ v : host c σ → host (set_rF v c) (set_reg R_F v σ).
Proof. intros H. reg_write H. Qed.
Lemma host_SP c σ v : host c σ → host (set_rSP v c) (set_reg R_SP v σ).
Proof. intros H. reg_write H. Qed.
Lemma host_BC c σ v : host c σ → is_word v → host (set_BC v c) (set_reg R_BC v σ).
Proof. intros H Hv. reg_write H. symmetry. by apply word_of_split. Qed.
Lemma host_DE c σ v : host c σ → is_word v → host (set_DE v c) (set_reg R_DE v σ).
Proof. intros H Hv. reg_write H. symmetry. by apply word_of_split. Qed.
Lemma host_HL c σ v : host c σ → is_word v → host (set_HL v c) (set_reg R_HL v σ).
Proof. intros H Hv. reg_write H. symmetry. by apply word_of_split. Qed.
Context (Hl : layout_ok l).
Lemma host_mem c σ a v : host c σ → is_word a → is_byte v → host (set_mem (mset a v (mem c)) c) (st8 P (mem_p l + a) v σ).
Proof using Hl. intros [Hr Hm] Ha Hv. split; [by destruct Hr; split|by apply hmem_st_mem]. Qed.
Lemma host_ctx (c c' : z80_cpu) σ a v : host c σ → hmem l c' (st P 2 a v σ) →
  rA c' = rA c → rF c' = rF c → rBC c' = rBC c → rDE c' = rDE c → rHL c' = rHL c → rSP c' = rSP c →
  host c' (st P 2 a v σ).
Proof.
  intros [Hr _] Hm EA EF EB ED EH ES. split; [|done]. destruct Hr. split; rewrite ?EA, ?EF, ?EB, ?ED, ?EH, ?ES; done.
Qed.
Lemma host_IX c σ v : host c σ → is_word v → host (set_rIX v c) (st P 2 (cpu_p l + OFF_IX) v σ).
Proof using Hl. intros H Hv. eapply host_ctx; [done|apply hmem_st_ix; [done|apply H|done]|done..]. Qed.
Lemma host_IY c σ v : host c σ → is_word v → host (set_rIY v c) (st P 2 (cpu_p l + OFF_IY) v σ).
Proof using Hl. intros H Hv. eapply host_ctx; [done|apply hmem_st_iy; [done|apply H|done]|done..]. Qed.
Lemma host_memptr c σ v : host c σ → is_word v → host (set_memptr v c) (st P 2 (cpu_p l + OFF_MEMPTR) v σ).
Proof using Hl. intros H Hv. eapply host_ctx; [done|apply hmem_st_memptr; [done|apply H|done]|done..]. Qed.
Lemma host_half c σ r pfx v : host c σ → cpu_ok c → r = 8 ∨ r = 9 → is_byte v →
  host (set_reg8_p r pfx v c) (st8 P (cpu_p l + reg8_offset_p r pfx) v σ).
Proof using Hl.
  intros H Hc Hr Hv. split; [|apply hmem_st_half; [done|apply H|done..]].
  destruct H as [[] _]. destruct Hr as [->| ->]; unfold set_reg8_p; destruct (pfx =? 0xFD); by split.
Qed.

(** What the pinned registers hold. *)
Lemma host_rA c σ : host c σ → xr σ R_A = rA c. Proof. intros H; apply H. Qed.
Lemma host_rF c σ : host c σ → xr σ R_F = rF c. Proof. intros H; apply H. Qed.
Lemma host_rBC c σ : host c σ → xr σ R_BC = rBC c. Proof. intros H; apply H. Qed.
Lemma host_rDE c σ : host c σ → xr σ R_DE = rDE c. Proof. intros H; apply H. Qed.
Lemma host_rHL c σ : host c σ → xr σ R_HL = rHL c. Proof. intros H; apply H. Qed.
Lemma host_rSP c σ : host c σ → xr σ R_SP = rSP c. Proof. intros H; apply H. Qed.
Lemma host_rMEM c σ : host c σ → xr σ R_MEM = mem_p l. Proof. intros H; apply H. Qed.
Lemma host_rCPU c σ : host c σ → xr σ R_CPU = cpu_p l. Proof. intros H; apply H. Qed.
End Guest.

(** The base state's registers by name. *)
Ltac pinned_vals := xs; repeat first
  [ erewrite host_rA by eassumption | erewrite host_rF by eassumption | erewrite host_rBC by eassumption
  | erewrite host_rDE by eassumption | erewrite host_rHL by eassumption | erewrite host_rSP by eassumption ].
(** Side conditions of the rules. *)
Ltac regs := unfold is_reg, is_cc, is_alu_code, scratch, R_CPU, R_MEM, R_AUX, R_HL, R_BC, R_DE, R_SP, R_A, R_F, R_CNT, T0, T1, T2, T3, T4 in *; lia.
Ltac mem_side := repeat split; first [regs | by left | right; split; regs | unfold int32, is_word, is_byte in *; off | idtac].
Ltac side :=
  lazymatch goal with
  | |- is_reg _ => regs
  | |- is_alu_code _ => by vm_compute
  | |- is_cc _ => by vm_compute
  | |- is_shift _ _ => by vm_compute
  | |- is_mem _ _ _ => mem_side
  | |- is_dword _ => pinned_vals; in_range
  | |- is_byte _ => pinned_vals; in_range
  | |- is_word _ => pinned_vals; in_range
  | |- _ => idtac
  end.

(** Decide the register comparisons. *)
Ltac eqs := repeat match goal with
  | |- context [?a =? ?b] => first [rewrite (Z.eqb_refl a) | rewrite (proj2 (Z.eqb_neq a b)) by first [assumption | regs | congruence]]
  end.

Section Access.
Context `{CE : CodeEnv} (l : layout) (Hl : layout_ok l) (slow : xstate → xstate) (Hslow : ∀ σ, rejoins l σ (slow σ)).
Local Abbreviation host := (host l).
Local Abbreviation P := (phys l).
Local Abbreviation does := (does l slow).
Implicit Types (σ : xstate) (c : z80_cpu) (Q : xstate → Prop).

(** ** Guest registers by code *)

(** Only [r] changed, to [v]. *)
Definition sets (r v : Z) (σ σ' : xstate) : Prop :=
  (∀ q, xr σ' q = if q =? r then v else xr σ q) ∧ ∀ a, xm σ' a = xm σ a.
Lemma host_sets c σ σ' r v : host c σ → scratch r → sets r v σ σ' → host c σ'.
Proof.
  intros H Hs [E Em]. eapply host_same; [done| |intros a; apply Em].
  intros g Hg. by rewrite E, (scratch_not_guest r g).
Qed.
Lemma host_sets_A c σ σ' v : host c σ → sets R_A v σ σ' → host (set_rA v c) σ'.
Proof.
  intros H [E Em]. eapply host_same; [by apply (host_A l c σ v)| |intros a; apply Em].
  intros g Hg. by rewrite E.
Qed.

(** The bytes of a pair. *)
Lemma does_high tmp pr w Q σ : is_reg tmp → is_reg pr → xr σ pr = w → is_word w →
  (∀ σ', sets tmp (w >>' 8) σ σ' → Q σ') → does (emit_mov_r32_r32 tmp pr +> emit_shr_r32_imm tmp 8) Q σ.
Proof.
  intros Ht Hp Ew Hw HQ. subst w. apply does_then, does_mov_r32_r32; [done|done|in_range|].
  eapply does_shift_r32_imm; [side|done|lia| |right; left; split; reflexivity|].
  { xs. rewrite Z.eqb_refl. in_range. }
  intros f. apply HQ. split; [|done]. intros q. xs. rewrite Z.eqb_refl. by destruct (q =? tmp).
Qed.
Lemma does_low tmp pr w Q σ : is_reg tmp → is_reg pr → xr σ pr = w →
  (∀ σ', sets tmp (u8 w) σ σ' → Q σ') → does (emit_movzx_r32_r8 tmp pr) Q σ.
Proof. intros Ht Hp <- HQ. apply does_movzx_r32_r8; [done|done|]. by apply HQ. Qed.

Definition r8_code (r : Z) : Prop := (0 <= r <= 5 ∨ r = 7) ∨ r = 8 ∨ r = 9.
Lemma reg8_codes r pfx c v : reg8_p r pfx c = Some v → r8_code r.
Proof.
  unfold reg8_p, r8_code. intros H. destruct r as [|p|p]; [lia| |done].
  do 4 (destruct p as [p|p|]; try lia; try done).
Qed.
Lemma does_read_r8 c tmp r pfx v Q σ : cpu_ok c → host c σ → is_reg tmp → reg8_p r pfx c = Some v →
  (∀ σ', sets (emit_read_r8 tmp r pfx).2 v σ σ' → Q σ') → does (emit_read_r8 tmp r pfx).1 Q σ.
Proof using Hl.
  intros Hc H Ht Hv HQ. unfold emit_read_r8 in *. unfold reg8_p in Hv.
  destruct (Z.eqb_spec r 7) as [->|H7].
  { apply does_none, HQ. injection Hv as <-. split; [|done]. intros q. cbn. destruct (Z.eqb_spec q R_A) as [->|]; [|done].
    by eapply host_rA. }
  assert (r = 0 ∨ r = 1 ∨ r = 2 ∨ r = 3 ∨ r = 4 ∨ r = 5 ∨ (r = 8 ∨ r = 9)) as Hr.
  { destruct (reg8_codes r pfx c v Hv); lia. }
  destruct Hr as [->|[->|[->|[->|[->|[->|Hr]]]]]]; cbn [r8_host_pair fst snd] in *; try injection Hv as <-.
  1, 3, 5: eapply does_high; [done|regs|pinned_vals; reflexivity|in_range|]; intros σ' Hs; apply HQ.
  4-6: eapply does_low; [done|regs|pinned_vals; reflexivity|]; intros σ' Hs; apply HQ.
  1-6: revert Hs; unfold rBC, rDE, rHL; by rewrite ?word_of_hi, ?word_of_lo by in_range.
  assert (r8_host_pair r = None) as -> by (destruct Hr as [->| ->]; done). cbn [fst snd] in *.
  eapply does_movzx_r32_m8; [done| |by apply (get_half l Hl c σ H)|by apply default_reg8_byte|].
  - destruct Hr as [->| ->]; unfold reg8_offset_p; destruct (pfx =? 0xFD); side.
  - apply HQ. unfold reg8_p. destruct Hr as [->| ->]; injection Hv as <-; by split.
Qed.

(** Rotated down, overwritten, rotated back. *)
Lemma ror_high w : is_word w → (w >>' 8) |' trunc D32 (w <<' 24) = (w >>' 8) + u8 w * 16777216.
Proof.
  intros Hw. replace (trunc D32 (w <<' 24)) with (u8 w <<' 24).
  - rewrite lor_shift_add; [done|lia| |apply u8_byte]. pose proof (byte_hi w Hw) as Hb. unfold is_byte in Hb. lia.
  - rewrite !Z.shiftl_mul_pow2 by lia. unfold trunc, u8. cbn [modulus]. change (2 ^ 24) with 16777216.
    change 4294967296 with (256 * 16777216). by rewrite Z.mul_mod_distr_r.
Qed.
Lemma rol_high lo v : is_byte lo → is_byte v →
  trunc D32 ((v + lo * 16777216) <<' 8) |' ((v + lo * 16777216) >>' 24) = word_of lo v.
Proof.
  unfold is_byte. intros Hl' Hv. rewrite word_of_add by (unfold is_byte; lia). rewrite Z.shiftl_mul_pow2, Z.shiftr_div_pow2 by lia.
  unfold trunc. cbn [modulus]. change (2 ^ 8) with 256. change (2 ^ 24) with 16777216.
  replace ((v + lo * 16777216) / 16777216) with lo by (Z.to_euclidean_division_equations; lia).
  replace (((v + lo * 16777216) * 256) mod 4294967296) with (v <<' 8).
  - rewrite Z.lor_comm, lor_shift_add by lia. change (2 ^ 8) with 256. lia.
  - rewrite Z.shiftl_mul_pow2 by lia. change (2 ^ 8) with 256. Z.to_euclidean_division_equations. lia.
Qed.
Lemma merge8_split X v hi : is_byte v → is_byte hi → u8 X = hi → merge B8 X v = X - hi + v.
Proof. intros Hv Hh <-. unfold merge. by rewrite (trunc_B8 X), (trunc_B8 v), (u8_id v). Qed.
Lemma does_write_high pr src w v Q σ : is_reg pr → is_reg src → src ≠ pr → xr σ pr = w → is_word w → xr σ src = v → is_byte v →
  (∀ σ', sets pr (word_of (u8 w) v) σ σ' → Q σ') →
  does (emit_ror_r32_imm pr 8 +> emit_mov_r8_r8 pr src +> emit_rol_r32_imm pr 8) Q σ.
Proof.
  intros Hp Hs Hne Ew Hw Ev Hv HQ. pose proof (byte_hi w Hw) as Hhi. pose proof (u8_byte w) as Hlo.
  apply does_then. eapply does_shift_r32_imm; [side|done|lia|rewrite Ew; in_range|right; right; left; split; reflexivity|].
  intros f1. rewrite Ew. change (32 - 8) with 24. rewrite ror_high by done.
  apply does_then, does_mov_r8_r8; [done..|]. xs. rewrite Z.eqb_refl. replace (src =? pr) with false by (symmetry; by apply Z.eqb_neq).
  rewrite Ev, (merge8_split _ v (w >>' 8)) by (done || unfold is_byte, u8 in *; Z.to_euclidean_division_equations; lia).
  replace ((w >>' 8) + u8 w * 16777216 - (w >>' 8) + v) with (v + u8 w * 16777216) by lia.
  eapply does_shift_r32_imm; [side|done|lia| |right; right; right; split; reflexivity|].
  { xs. rewrite Z.eqb_refl. unfold is_dword, is_byte in *. lia. }
  intros f2. xs. rewrite Z.eqb_refl. change (32 - 8) with 24. rewrite rol_high by done.
  apply HQ. split; [|done]. intros q. xs. by destruct (q =? pr).
Qed.
Lemma does_write_low pr src w v Q σ : is_reg pr → is_reg src → xr σ pr = w → is_word w → xr σ src = v → is_byte v →
  (∀ σ', sets pr (word_of v (w >>' 8)) σ σ' → Q σ') → does (emit_mov_r8_r8 pr src) Q σ.
Proof.
  intros Hp Hs Ew Hw Ev Hv HQ. apply does_mov_r8_r8; [done..|]. rewrite Ew, Ev, merge8_word, u8_id by done.
  apply HQ. by split.
Qed.

(** A register code is a pinned pair's half, A, or half of IX or IY. *)
Lemma r8_pair_codes r pr hi : r8_host_pair r = Some (pr, hi) →
  r = 0 ∧ pr = R_BC ∧ hi = true ∨ r = 1 ∧ pr = R_BC ∧ hi = false ∨ r = 2 ∧ pr = R_DE ∧ hi = true ∨
  r = 3 ∧ pr = R_DE ∧ hi = false ∨ r = 4 ∧ pr = R_HL ∧ hi = true ∨ r = 5 ∧ pr = R_HL ∧ hi = false.
Proof.
  unfold r8_host_pair. destruct r as [|p|p]; [|do 3 (try destruct p as [p|p|]); try done|done]; intros [= <- <-]; intuition.
Qed.
Lemma r8_no_pair r : r8_code r → r ≠ 7 → r8_host_pair r = None → r = 8 ∨ r = 9.
Proof.
  intros [[Hr|Hr]|Hr] H7 Hp; [|done|done]. exfalso.
  assert (r = 0 ∨ r = 1 ∨ r = 2 ∨ r = 3 ∨ r = 4 ∨ r = 5) as E by lia. decompose [or] E; by subst.
Qed.
Lemma pair_word c σ r pr hi : cpu_ok c → host c σ → r8_host_pair r = Some (pr, hi) → is_word (xr σ pr) ∧ is_reg pr ∧ ¬ scratch pr ∧ pr ≠ R_A.
Proof.
  intros Hc H Hp. destruct (r8_pair_codes r pr hi Hp) as [E|[E|[E|[E|[E|E]]]]]; destruct E as (_ & -> & _); pinned_vals;
    split_and!; in_range; regs.
Qed.
(** The word a pair holds once its half is [v]. *)
Definition half_set (hi : bool) (w v : Z) : Z := if hi then word_of (u8 w) v else word_of v (w >>' 8).
Lemma half_set_word hi w v : is_word w → is_byte v → is_word (half_set hi w v).
Proof. intros. unfold half_set. destruct hi; in_range. Qed.
Lemma host_sets_pair c σ σ' r pfx pr hi v : cpu_ok c → host c σ → is_byte v → r8_host_pair r = Some (pr, hi) →
  sets pr (half_set hi (xr σ pr) v) σ σ' → host (set_reg8_p r pfx v c) σ'.
Proof.
  intros Hc H Hv Hp [E Em]. pose proof H as [Hr Hm]. destruct Hr.
  assert (∀ a, at_ l σ' a = at_ l σ a) as Ea by (intros a; apply Em).
  assert (hmem l c σ') as Hm' by (destruct Hm; split; intros; rewrite Ea; auto).
  destruct (r8_pair_codes r pr hi Hp) as [F|[F|[F|[F|[F|F]]]]]; destruct F as (-> & -> & ->); cbn [half_set] in E;
    (split; [|by destruct Hm'; split]); split; rewrite E; xs; try done;
    unfold set_reg8_p, rBC, rDE, rHL; pinned_vals; unfold rBC, rDE, rHL; by rewrite ?word_of_lo, ?word_of_hi by in_range.
Qed.
Lemma sets_other r v σ σ' q : sets r v σ σ' → q ≠ r → xr σ' q = xr σ q.
Proof. intros [E _] Hq. rewrite E. by destruct (Z.eqb_spec q r). Qed.
Lemma sets_at r v σ σ' : sets r v σ σ' → xr σ' r = v.
Proof. intros [E _]. by rewrite E, Z.eqb_refl. Qed.

Lemma does_write_r8 c r pfx src v Q σ : cpu_ok c → host c σ → r8_code r → scratch src ∨ src = R_A →
  xr σ src = v → is_byte v →
  (∀ σ', host (set_reg8_p r pfx v c) σ' → (∀ q, scratch q → xr σ' q = xr σ q) → Q σ') →
  does (emit_write_r8 r pfx src) Q σ.
Proof using Hl.
  intros Hc H Hr Hsrc Ev Hv HQ. assert (is_reg src) as Hs by (destruct Hsrc; regs).
  assert (∀ q g, scratch q → ¬ scratch g → q ≠ g) as Hk by (intros ? ? ? ? ->; done).
  unfold emit_write_r8. destruct (Z.eqb_spec r 7) as [->|H7].
  { apply does_if.
    - intros _. apply does_mov_r32_r32; [regs|done|rewrite Ev; in_range|]. rewrite Ev. apply HQ; [by apply host_A|].
      intros q Hq. xs. destruct (Z.eqb_spec q R_A); [subst; regs|done].
    - intros Hq. destruct (Z.eqb_spec src R_A) as [->|]; [|done]. apply HQ; [|done].
      eapply host_ext; [exact H|..]; try done. cbn. rewrite <- Ev. by eapply host_rA. }
  destruct (r8_host_pair r) as [[pr hi]|] eqn:Hp.
  - destruct (pair_word c σ r pr hi Hc H Hp) as (Hw & Hpr & Hns & HnA).
    assert (src ≠ pr) as Hne by (destruct Hsrc; [by apply Hk|congruence]).
    assert (∀ σ', sets pr (half_set hi (xr σ pr) v) σ σ' → Q σ') as HQ'.
    { intros σ' Hs'. apply HQ; [by eapply host_sets_pair|]. intros q Hq. eapply sets_other; [done|by apply Hk]. }
    destruct hi; [eapply does_write_high|eapply does_write_low]; eauto.
  - destruct (r8_no_pair r Hr H7 Hp) as [Hr'|Hr']; (eapply does_mov_m8_r8; [done| |cbn; eapply ea_cpu; [done|by eapply host_rCPU|]|]);
      subst r; unfold reg8_offset_p; try (destruct (pfx =? 0xFD); side; off).
    + rewrite Ev. apply HQ; [|done]. by apply (host_half l Hl c σ 8 pfx v); [..|left|].
    + rewrite Ev. apply HQ; [|done]. by apply (host_half l Hl c σ 9 pfx v); [..|right|].
Qed.

Lemma does_write_r8_imm c r pfx v Q σ : cpu_ok c → host c σ → r8_code r → is_byte v →
  (∀ σ', host (set_reg8_p r pfx v c) σ' → Q σ') → does (emit_write_r8_imm r pfx v) Q σ.
Proof using Hl.
  intros Hc H Hr Hv HQ. unfold emit_write_r8_imm. destruct (Z.eqb_spec r 7) as [->|H7].
  { apply does_mov_r32_imm32; [regs|in_range|]. apply HQ. by apply host_A. }
  destruct (r8_host_pair r) as [[pr hi]|] eqn:Hp.
  - destruct (pair_word c σ r pr hi Hc H Hp) as (Hw & Hpr & _ & _).
    assert (∀ σ', sets pr (half_set hi (xr σ pr) v) σ σ' → Q σ') as HQ'.
    { intros σ' Hs'. apply HQ. by eapply host_sets_pair. }
    destruct hi.
    + apply does_then. eapply does_alu_r32_imm; [side|done|unfold int32; lia|in_range|reflexivity|left; split; reflexivity|].
      intros f. change (trunc D32 255) with 255. rewrite lo_land. 
      assert (sets pr (u8 (xr σ pr)) σ (set_xf f (set_reg pr (u8 (xr σ pr)) σ))) as S1 by by split.
      apply does_if; intros Hz.
      * assert (0 <= v <<' 8 < 65536) as Hv8 by (rewrite Z.shiftl_mul_pow2 by lia; unfold is_byte in Hv; lia).
        eapply does_alu_r32_imm; [side|done|unfold int32; lia|rewrite (sets_at _ _ _ _ S1); in_range
          |apply trunc_dword; unfold is_dword; lia|right; left; split; reflexivity|].
        intros f2. apply HQ'. split; [|done]. intros q. xs. rewrite Z.eqb_refl. destruct (q =? pr); [|done].
        cbn [half_set]. unfold word_of. by rewrite Z.shiftl_mul_pow2 by lia.
      * apply HQ'. destruct S1 as [E Em]. split; [|done]. intros q. rewrite E. destruct (q =? pr); [|done].
        unfold nz in Hz. apply negb_false_iff, Z.eqb_eq in Hz as ->. cbn [half_set]. unfold word_of. 
        by rewrite Z.shiftl_0_l, Z.lor_0_r.
    + apply does_mov_r8_imm8; [done..|]. rewrite merge8_word, u8_id by done. apply HQ'. by split.
  - destruct (r8_no_pair r Hr H7 Hp) as [Hr'|Hr']; (eapply does_mov_m8_imm8; [done| |cbn; eapply ea_cpu; [done|by eapply host_rCPU|]|]);
      subst r; unfold reg8_offset_p; try (destruct (pfx =? 0xFD); side; off); apply HQ.
    + by apply (host_half l Hl c σ 8 pfx v); [..|left|].
    + by apply (host_half l Hl c σ 9 pfx v); [..|right|].
Qed.

(** ** Addresses *)

Lemma ea_base b o σ : 0 <= xr σ b + o < 2 ^ 64 → ea b None 0 o σ = xr σ b + o.
Proof. intros H. unfold ea. rewrite Z.add_0_r. by apply u64_small. Qed.
Lemma lea_trunc b o σ : trunc D32 (ea b None 0 o σ) = (xr σ b + o) mod 4294967296.
Proof.
  unfold ea, trunc, u64. cbn [modulus]. rewrite Z.add_0_r.
  change 18446744073709551616 with (4294967296 * 4294967296). by rewrite Z.mod_mod_divide by by exists 4294967296.
Qed.
Lemma u16_mod32 v : u16 (v mod 4294967296) = u16 v.
Proof. unfold u16. by rewrite Z.mod_mod_divide by by exists 65536. Qed.
(** [(uint16_t)(src + delta)]. *)
Lemma does_addr_plus dst src delta Q σ : is_reg dst → is_reg src → int32 delta →
  (∀ σ', sets dst (u16 (xr σ src + delta)) σ σ' → Q σ') → does (emit_addr_plus dst src delta) Q σ.
Proof.
  intros Hd Hs Hi HQ. apply does_then. eapply does_lea_r32; [done|by repeat split; try apply Hs; try apply Hi; left|apply lea_trunc|].
  apply does_movzx_r32_r16; [done..|]. apply HQ. split; [|done]. intros q. xs. rewrite Z.eqb_refl, u16_mod32. by destruct (q =? dst).
Qed.
Lemma sets_trans r v w σ1 σ2 σ3 : sets r v σ1 σ2 → sets r w σ2 σ3 → sets r w σ1 σ3.
Proof. intros [E1 M1] [E2 M2]. split; [|intros a; by rewrite M2, M1]. intros q. rewrite E2, E1. by destruct (q =? r). Qed.
Lemma sets_set r v f σ : sets r v σ (set_xf f (set_reg r v σ)).
Proof. by split. Qed.

Definition idx_value (pfx : Z) c : Z := if pfx =? 0xFD then rIY c else rIX c.
Lemma idx_value_word pfx c : cpu_ok c → is_word (idx_value pfx c).
Proof. unfold idx_value. in_range. Qed.
Lemma does_idx_load c dst pfx Q σ : cpu_ok c → host c σ → is_reg dst →
  Q (set_reg dst (idx_value pfx c) σ) → does (emit_movzx_r32_m16 dst R_CPU X64_NOREG (idx_reg_offset pfx)) Q σ.
Proof using Hl.
  intros Hc H Hd HQ. eapply does_movzx_r32_m16; [done| |by apply (get_ctx16 l Hl c)|by apply idx_value_word|done].
  unfold idx_reg_offset. destruct (pfx =? 0xFD); side; off.
Qed.
Lemma effective_idx d x c : has_idx d = true → effective_addr d x c = u16 (idx_value (prefix d) c + disp d).
Proof.
  unfold has_idx, effective_addr, idx_value. destruct (Z.eqb_spec (prefix d) 0xDD) as [E|]; [by rewrite E|]. cbn [orb]. by intros ->.
Qed.
Lemma does_idx_eff_addr c dst d x Q σ : cpu_ok c → host c σ → is_reg dst → has_idx d = true → -128 <= disp d <= 127 →
  (∀ σ', sets dst (effective_addr d x c) σ σ' → Q σ') → does (emit_idx_eff_addr dst (prefix d) (disp d)) Q σ.
Proof using Hl.
  intros Hc H Hd Hi Hr HQ. rewrite effective_idx in HQ by done. pose proof (idx_value_word (prefix d) c Hc) as Hw.
  apply does_then, (does_idx_load c); [done..|]. apply does_if.
  - intros _. refine (does_addr_plus dst dst (disp d) Q _ Hd Hd _ _); [unfold int32; lia|]. intros σ' Hs. apply HQ. revert Hs. xs. rewrite Z.eqb_refl.
    apply sets_trans with (v := idx_value (prefix d) c). by split.
  - intros E%negb_false_iff%Z.eqb_eq. apply HQ. rewrite E, Z.add_0_r, u16_id by done. by split.
Qed.

(** ** Memory *)

Definition gdoes (g : generator) (k : nat) (Q : xstate → Prop) (σ : xstate) : Prop := ∃ σ', gruns l slow g k σ σ' ∧ Q σ'.
Lemma gdoes_lift a Q σ : does a Q σ → gdoes (lift a) 0 Q σ.
Proof. intros (σ' & H & HQ). exists σ'. split; [by apply gruns_lift|done]. Qed.
Lemma gdoes_then a b j k Q σ : gdoes a j (gdoes b k Q) σ → gdoes (a +>> b) (j + k) Q σ.
Proof. intros (σ1 & Ha & σ2 & Hb & HQ). exists σ2. split; [by eapply gruns_then|done]. Qed.
Lemma gdoes_eq g j k Q σ : gdoes g j Q σ → j = k → gdoes g k Q σ.
Proof. by intros ? ->. Qed.

(** A load needs only the memory and its base. *)
Lemma hmem_same c σ σ' : hmem l c σ → (∀ a, xm σ' a = xm σ a) → hmem l c σ'.
Proof. intros [] Em. split; intros; unfold at_ in *; rewrite Em; auto. Qed.
Lemma does_load_m c dst a i Q σ : cpu_ok c → hmem l c σ → xr σ R_MEM = mem_p l → is_reg dst → is_reg i → i ≠ 4 →
  xr σ i = a → is_word a → Q (set_reg dst (mget (mem c) a) σ) → does (emit_movzx_r32_m8 dst R_MEM i 0) Q σ.
Proof using Hl.
  intros Hc Hm Hb Hd Hi H4 <- Ha HQ. eapply does_movzx_r32_m8; [done| | |apply mget_byte, ok_mem, Hc|exact HQ].
  - repeat split; try regs. right. split; [regs|done].
  - unfold mem_op, index_of. rewrite (proj2 (Z.ltb_ge i 0)) by regs. cbn [get nbytes_of].
    rewrite (ea_mem l Hl), (ld1 l Hl) by first [done | by apply guest_mem]. by apply (hm_mem l _ _ Hm).
Qed.
Lemma does_load c dst a i Q σ : cpu_ok c → host c σ → is_reg dst → is_reg i → i ≠ 4 → xr σ i = a → is_word a →
  Q (set_reg dst (mget (mem c) a) σ) → does (emit_movzx_r32_m8 dst R_MEM i 0) Q σ.
Proof using Hl.
  intros Hc H Hd Hi H4 Ea Ha HQ. eapply does_load_m; try done; apply H.
Qed.
Lemma does_load_abs c dst a Q σ : cpu_ok c → host c σ → is_reg dst → is_word a →
  Q (set_reg dst (mget (mem c) a) σ) → does (emit_movzx_r32_m8 dst R_MEM X64_NOREG a) Q σ.
Proof using Hl.
  intros Hc H Hd Ha HQ. eapply does_movzx_r32_m8; [done| |by apply (get_guest_abs l Hl c)|apply mget_byte, ok_mem, Hc|exact HQ].
  repeat split; try regs; [by left|unfold is_word in Ha; lia..].
Qed.
Lemma does_store c i s a v Q σ : host c σ → is_reg i → i ≠ 4 → is_reg s → xr σ i = a → is_word a → xr σ s = v → is_byte v →
  (host (set_mem (mset a v (mem c)) c) (st8 P (mem_p l + a) v σ) → Q (st8 P (mem_p l + a) v σ)) →
  does (emit_mov_m8_r8 R_MEM i 0 s) Q σ.
Proof using Hl.
  intros H Hi H4 Hs Ea Ha Ev Hv HQ. eapply does_mov_m8_r8; [done| | |].
  - repeat split; try regs. right. by split.
  - unfold index_of. rewrite (proj2 (Z.ltb_ge i 0)) by regs. rewrite (ea_mem l Hl) by (subst; first [apply H|done]). by rewrite Ea.
  - rewrite Ev. apply HQ. by apply host_mem.
Qed.
(** The check after a store: the bitmap test and the branch to the slow path. *)
Lemma gdoes_smc_branch c reg imm n Q σ : host c σ → is_Some (zf (xf σ)) →
  (∀ σ', host c σ' → Q σ') → gdoes (emit_smc_branch reg imm n) 1 Q σ.
Proof using Hslow.
  intros H Hz HQ. destruct (gruns_smc_branch l slow Hslow reg imm n σ Hz) as (σ' & Hg & Hj).
  exists σ'. split; [done|]. apply HQ. by eapply host_rejoins.
Qed.
Lemma gdoes_smc_check_dyn c i Q σ : host c σ → is_reg i → i ≠ 4 →
  (∀ σ', host c σ' → Q σ') → gdoes (emit_smc_check_dyn i) 1 Q σ.
Proof using Hslow.
  intros H Hi H4 HQ. apply (gdoes_then _ _ 0 1), gdoes_lift, does_cmp_m8_imm8.
  - repeat split; try regs; try (unfold AUX_BITMAP_OFF; lia). right. by split.
  - in_range.
  - intros f Hf. eapply gdoes_smc_branch; [by apply host_xf|done|done].
Qed.
Lemma gdoes_smc_check_imm c nn n Q σ : host c σ → is_word nn →
  (∀ σ', host c σ' → Q σ') → gdoes (emit_smc_check_imm nn n) 1 Q σ.
Proof using Hslow.
  intros H Hw HQ. assert (is_mem R_AUX X64_NOREG (AUX_BITMAP_OFF + nn)) as Hm.
  { repeat split; try regs; [by left|unfold AUX_BITMAP_OFF, is_word in *; lia..]. }
  apply (gdoes_then _ _ 0 1), gdoes_lift. destruct (n =? 2).
  - apply does_cmp_m16_imm8; [done|unfold int8; lia|]. intros f Hf. eapply gdoes_smc_branch; [by apply host_xf|done|done].
  - apply does_cmp_m8_imm8; [done|in_range|]. intros f Hf. eapply gdoes_smc_branch; [by apply host_xf|done|done].
Qed.
Lemma gdoes_storeb c i s a v Q σ : host c σ → is_reg i → i ≠ 4 → is_reg s → xr σ i = a → is_word a → xr σ s = v → is_byte v →
  (∀ σ', host (set_mem (mset a v (mem c)) c) σ' → Q σ') → gdoes (emit_guest_storeb_smc s i) 1 Q σ.
Proof using Hl Hslow.
  intros H Hi H4 Hs Ea Ha Ev Hv HQ. apply (gdoes_then _ _ 0 1), gdoes_lift. eapply does_store; try done.
  intros H'. by eapply gdoes_smc_check_dyn.
Qed.
Lemma gdoes_storeb_imm c i a v Q σ : host c σ → is_reg i → i ≠ 4 → xr σ i = a → is_word a → is_byte v →
  (∀ σ', host (set_mem (mset a v (mem c)) c) σ' → Q σ') → gdoes (emit_guest_storeb_imm_smc v i) 1 Q σ.
Proof using Hl Hslow.
  intros H Hi H4 Ea Ha Hv HQ. apply (gdoes_then _ _ 0 1), gdoes_lift. eapply does_mov_m8_imm8; [done| | |].
  - repeat split; try regs. right. by split.
  - unfold index_of. rewrite (proj2 (Z.ltb_ge i 0)) by regs. rewrite (ea_mem l Hl) by (subst; first [apply H|done]). by rewrite Ea.
  - eapply gdoes_smc_check_dyn; [by apply host_mem|done..].
Qed.

(** ** The stack and 16-bit memory *)

Context (Hmi : mirrored l = z80_mem_mirrored).

Definition mset16 (a v : Z) (m : memory) : memory := mset (u16 (a + 1)) (v >>' 8) (mset a (u8 v) m).
Lemma mem_w16_mem `{Host W} a v (s : mach W) : is_word a → (mem_w16 a v s).1 = set_mem (mset16 a v (mem s.1)) s.1.
Proof. intros Ha. unfold mem_w16, mem_w, mset16. cbn [fst snd]. by rewrite (u16_id a), (u16_id (u16 (a + 1))) by in_range. Qed.
(** Across the top only where the memory is mirrored. *)
Lemma host_store16 c σ a v : host c σ → is_word a → is_word v → mirrored l = true ∨ a ≠ 0xFFFF →
  host (set_mem (mset16 a v (mem c)) c) (st P 2 (mem_p l + a) v σ).
Proof using Hl.
  intros H Ha Hv Hor. cbn [st]. rewrite <- (st8_u8 l (mem_p l + a) v), <- Z.add_assoc.
  pose proof (host_mem l Hl c σ a (u8 v) H Ha ltac:(in_range)) as H1.
  assert (is_byte (v >>' 8)) as Hb by in_range.
  destruct (Z.eqb_spec a 0xFFFF) as [->|Hne].
  - destruct Hor as [Hm|]; [|done].
    assert (∀ τ, st8 P (mem_p l + (0xFFFF + 1)) (v >>' 8) τ = st8 P (mem_p l + 0) (v >>' 8) τ) as ->.
    { intros τ. unfold st8. destruct (lo_mem l Hl). rewrite !u64_small by lia. change (0xFFFF + 1) with 0x10000.
      by rewrite (lo_mirror l Hl Hm), Z.add_0_r. }
    by apply (host_mem l Hl _ _ 0 (v >>' 8) H1); [in_range|].
  - unfold mset16. rewrite (u16_id (a + 1)) by off. apply (host_mem l Hl _ _ (a + 1) (v >>' 8) H1); [off|done].
Qed.

(** Only the registers of [rs] may have changed. *)
Definition keeps (rs : list Z) (σ σ' : xstate) : Prop := (∀ q, q ∉ rs → xr σ' q = xr σ q) ∧ ∀ a, xm σ' a = xm σ a.
Lemma keeps_sets r v σ σ' : sets r v σ σ' → keeps [r] σ σ'.
Proof. intros [E Em]. split; [|done]. intros q Hq. rewrite E. destruct (Z.eqb_spec q r); [|done]. subst. destruct Hq. by left. Qed.

Lemma keeps_mono rs rs' σ σ' : keeps rs σ σ' → rs ⊆ rs' → keeps rs' σ σ'.
Proof. intros [E Em] Hs. split; [|done]. intros q Hq. apply E. intros Hin. apply Hq. by apply Hs. Qed.
Lemma keeps_trans rs σ1 σ2 σ3 : keeps rs σ1 σ2 → keeps rs σ2 σ3 → keeps rs σ1 σ3.
Proof. intros [E1 M1] [E2 M2]. split; [|intros a; by rewrite M2, M1]. intros q Hq. by rewrite E2, E1. Qed.
Lemma keeps_set r v rs σ : r ∈ rs → keeps rs σ (set_reg r v σ).
Proof. intros Hr. split; [|done]. intros q Hq. cbn [xr set_reg]. unfold upd. destruct (Z.eqb_spec q r); [|done]. subst. done. Qed.
Lemma keeps_xf f rs σ σ' : keeps rs σ σ' → keeps rs σ (set_xf f σ').
Proof. done. Qed.
Lemma host_keeps c rs σ σ' : host c σ → Forall scratch rs → keeps rs σ σ' → host c σ'.
Proof.
  intros H Hs [E Em]. eapply host_same; [done| |intros a; apply Em]. intros g Hg. apply E. intros Hin.
  rewrite Forall_forall in Hs. pose proof (scratch_not_guest g g (Hs g Hin) Hg) as F. by rewrite Z.eqb_refl in F.
Qed.

Lemma does_sp_add c delta Q σ : cpu_ok c → host c σ → int8 delta →
  (∀ σ', sets R_SP (u16 (rSP c + delta)) σ σ' → host (set_rSP (u16 (rSP c + delta)) c) σ' → Q σ') →
  does (emit_sp_add delta) Q σ.
Proof.
  intros Hc H Hd HQ. eapply does_alu_r16_imm8; [side|regs|done|left; split; reflexivity|].
  intros f. pinned_vals. rewrite merge16_word by in_range. rewrite u16_id by in_range. apply HQ; [by split|].
  by apply host_xf, host_SP.
Qed.

(** The word at SP into [dst]. *)
Definition emit_load16_sp (dst : Z) : emitter :=
  if z80_mem_mirrored then emit_movzx_r32_m16 dst R_MEM R_SP 0
  else
    emit_movzx_r32_m8 dst R_MEM R_SP 0 +> emit_addr_plus T1 R_SP 1 +> emit_movzx_r32_m8 T1 R_MEM T1 0 +>
    emit_shl_r32_imm T1 8 +> emit_alu_r32_r32 X64_ALU_OR dst T1.
Lemma shl8_or lo hi : is_byte lo → is_byte hi → lo |' trunc D32 (hi <<' 8) = word_of lo hi.
Proof.
  intros Hlo Hhi. rewrite trunc_dword; [done|]. unfold is_dword, is_byte in *. rewrite Z.shiftl_mul_pow2 by lia. lia.
Qed.
Lemma does_load16_sp c dst Q σ : cpu_ok c → host c σ → is_reg dst → dst ≠ T1 → dst ≠ R_MEM → dst ≠ R_SP →
  (∀ σ', keeps [dst; T1] σ σ' → xr σ' dst = mget16 (mem c) (rSP c) → Q σ') → does (emit_load16_sp dst) Q σ.
Proof using Hl Hmi Hslow.
  intros Hc H Hd H1 HM HS HQ. unfold emit_load16_sp. pose proof (ok_rSP _ Hc) as Hsp. pose proof (ok_mem _ Hc) as Hmem.
  destruct z80_mem_mirrored eqn:Em.
  - eapply does_movzx_r32_m16; [done|side|by apply (get_stack16 l Hl c σ Hc H)|in_range|]. apply HQ.
    + apply keeps_set. set_solver.
    + xs. by rewrite Z.eqb_refl.
  - apply does_then, (does_load c dst (rSP c)); [done|done|done|regs|regs|by eapply host_rSP|done|]. 
    apply does_then, does_addr_plus; [regs|regs|unfold int32; lia|]. intros σ2 [E2 M2].
    assert (xr σ2 T1 = u16 (rSP c + 1)) as ET1.
    { rewrite E2. xs. eqs. by pinned_vals. }
    assert (∀ q, q ≠ dst → q ≠ T1 → xr σ2 q = xr σ q) as Eq.
    { intros q Hq Hq1. rewrite E2. xs. by eqs. }
    apply does_then. eapply (does_load_m c T1); [done| |rewrite Eq by regs; by eapply host_rMEM|regs|regs|regs|exact ET1|in_range|].
    { eapply hmem_same; [apply H|]. intros a. by rewrite M2. }
    apply does_then. eapply does_shift_r32_imm; [side|regs|lia| |left; split; reflexivity|].
    { xs. apply byte_dword, mget_byte, Hmem. }
    intros f1. xs. 
    assert (xr σ2 dst = mget (mem c) (rSP c)) as Ed.
    { rewrite E2. xs. by eqs. }
    eapply does_alu_r32_r32; [side|done|regs| | |left; split; reflexivity|].
    { xs. eqs. rewrite Ed. apply byte_dword, mget_byte, Hmem. }
    { xs. apply trunc_range. }
    intros f2. xs. eqs. rewrite Ed, shl8_or by by apply mget_byte. apply HQ.
    + split; [|exact M2]. intros q Hq. rewrite !not_elem_of_cons in Hq. destruct Hq as (Hq & Hq1 & _). xs. eqs. by apply Eq.
    + xs. eqs. unfold mget16. by rewrite (u16_id (rSP c)).
Qed.

Lemma does_pop16 c dst Q σ : cpu_ok c → host c σ → is_reg dst → dst ≠ T1 → dst ≠ R_MEM → dst ≠ R_SP →
  (∀ σ', keeps [dst; T1; R_SP] σ σ' → xr σ' dst = mget16 (mem c) (rSP c) → xr σ' R_SP = u16 (rSP c + 2) → Q σ') →
  does (emit_pop16_into dst) Q σ.
Proof using Hl Hmi Hslow.
  intros Hc H Hd H1 HM HS HQ. apply does_then, (does_load16_sp c dst); [done..|]. intros σ1 Hk E1.
  eapply does_alu_r16_imm8; [side|regs|unfold int8; lia|left; split; reflexivity|].
  intros f. assert (xr σ1 R_SP = rSP c) as ES.
  { rewrite (proj1 Hk) by (rewrite !not_elem_of_cons; split_and!; [done|regs|apply not_elem_of_nil]). by eapply host_rSP. }
  rewrite ES, merge16_word, (u16_id (u16 _)) by in_range. apply HQ.
  - destruct Hk as [E Em]. split; [|done]. intros q Hq. rewrite !not_elem_of_cons in Hq. destruct Hq as (? & ? & ? & _).
    cbn [xr set_xf set_reg]. unfold upd. rewrite (proj2 (Z.eqb_neq q _)) by done. apply E.
    rewrite !not_elem_of_cons. split_and!; [done|done|apply not_elem_of_nil].
  - rewrite <- E1. xs. by eqs.
  - xs. done.
Qed.

(** Two byte stores. *)
Definition emit_store16_sp (val : Z) : emitter :=
  emit_mov_m8_r8 R_MEM R_SP 0 val +> emit_addr_plus T1 R_SP 1 +> emit_mov_r32_r32 T2 val +>
  emit_shr_r32_imm T2 8 +> emit_mov_m8_r8 R_MEM T1 0 T2.
Lemma does_store_low c i s a w Q σ : host c σ → is_reg i → i ≠ 4 → is_reg s → xr σ i = a → is_word a → xr σ s = w →
  (host (set_mem (mset a (u8 w) (mem c)) c) (st8 P (mem_p l + a) w σ) → Q (st8 P (mem_p l + a) w σ)) →
  does (emit_mov_m8_r8 R_MEM i 0 s) Q σ.
Proof using Hl.
  intros H Hi H4 Hs Ea Ha Ev HQ. eapply does_mov_m8_r8; [done| | |].
  - repeat split; try regs. right. by split.
  - unfold index_of. rewrite (proj2 (Z.ltb_ge i 0)) by regs. rewrite (ea_mem l Hl) by (subst; first [apply H|done]). by rewrite Ea.
  - rewrite Ev. apply HQ. rewrite <- (st8_u8 l). by apply host_mem; [..|in_range].
Qed.
Lemma does_store16_sp c val v Q σ : cpu_ok c → host c σ → is_reg val → val ≠ T1 → xr σ val = v → is_word v →
  (∀ σ', host (set_mem (mset16 (rSP c) v (mem c)) c) σ' → (∀ q, q ≠ T1 → q ≠ T2 → xr σ' q = xr σ q) → Q σ') →
  does (emit_store16_sp val) Q σ.
Proof using Hl Hslow.
  intros Hc H Hv Hv1 Ev Hw HQ. pose proof (ok_rSP _ Hc) as Hsp.
  apply does_then. eapply (does_store_low c R_SP val (rSP c)); [done|regs|regs|done|by eapply host_rSP|done|exact Ev|].
  intros H1. apply does_then, does_addr_plus; [regs|regs|unfold int32; lia|]. intros σ2 [E2 M2].
  assert (xr σ2 T1 = u16 (rSP c + 1)) as ET1 by (rewrite E2; xs; by pinned_vals).
  assert (xr σ2 val = v) as Ev2 by (rewrite E2; xs; by eqs).
  assert (host (set_mem (mset (rSP c) (u8 v) (mem c)) c) σ2) as H2.
  { eapply host_sets; [exact H1| |by split]. regs. }
  apply does_seq2. eapply does_high; [regs|done|exact Ev2|done|]. intros σ3 [E3 M3].
  eapply (does_store _ T1 T2 (u16 (rSP c + 1)) (v >>' 8)).
  { eapply host_sets; [exact H2| |by split]. regs. }
  1-3: regs. 1: rewrite E3; xs; exact ET1. 1: in_range. 1: rewrite E3; by xs. 1: in_range.
  intros H4. apply HQ; [exact H4|]. intros q Hq1 Hq2. cbn [xr st8]. rewrite E3, E2. xs. by eqs.
Qed.

Lemma does_push16 c val v Q σ : cpu_ok c → host c σ → is_reg val → val ≠ T1 → val ≠ R_SP → xr σ val = v → is_word v →
  (∀ σ', host (set_mem (mset16 (u16 (rSP c - 2)) v (mem c)) (set_rSP (u16 (rSP c - 2)) c)) σ' → Q σ') →
  does (emit_push16 val) Q σ.
Proof using Hl Hmi Hslow.
  intros Hc H Hv Hv1 HvS Ev Hw HQ. apply does_then, (does_sp_add c); [done|done|unfold int8; lia|].
  change (rSP c + -2) with (rSP c - 2). intros σ1 [E1 M1] H1.
  assert (xr σ1 val = v) as Ev1 by (rewrite E1; by eqs).
  destruct z80_mem_mirrored.
  - eapply does_mov_m16_r16; [done|side| |].
    + cbn. rewrite (ea_mem l Hl) by first [by apply H1 | rewrite E1; xs; in_range]. rewrite E1. by xs.
    + rewrite Ev1. apply HQ. apply (host_store16 _ _ (u16 (rSP c - 2)) v H1); [in_range|done|by left].
  - eapply does_store16_sp; [|exact H1|done|done|exact Ev1|done|]; [in_range|]. intros σ' H' _. by apply HQ.
Qed.
End Access.
