(* ===== verification/FlagsX64.v ===== *)
(** * FlagsX64: host flags, F and the flag mask

    The arithmetic under the inline ALU of src/dbt/dbt_x64.c: SF, ZF, AF, CF
    and OF after an 8-bit ADD, ADC, SUB, SBB or CMP are the interpreter's S,
    Z, H, C and V, and F put together from the parts a mask asks for agrees
    with the interpreter's F under that mask. *)

From Stdlib Require Import ZArith Lia Bool List.
From stdpp Require Import base option gmap list.
From S2P Require Import Prelude X86 Cpu Decode Interp InterpOk InterpSpec JitFlagsOk.

Open Scope list_scope.
Open Scope Z_scope.
Open Scope z80_scope.

Set Default Proof Using "Type".

(** ** Host flags and Z80 flags *)

Definition LAHF_BITS : Z := FLAG_S |' FLAG_Z |' FLAG_H |' FLAG_C.

(** SF, ZF, AF, CF and OF of the host are S, Z, H, C and V of the guest. *)
Definition host_flags_match (fl : flags) (f : Z) : bool :=
  match lahf_byte fl, vf fl, cf fl with
  | Some b, Some v, Some k =>
      (b &' LAHF_BITS =? f &' LAHF_BITS) && Z.testbit b 1 && (0 <=? b) && (b <? 256) &&
      (f &' FLAG_PV =? flag_if v FLAG_PV) && (f &' FLAG_C =? Z.b2z k)
  | _, _, _ => false
  end.
Lemma add_flags_match a b k : is_byte a → is_byte b →
  host_flags_match (X86.add_flags B8 a b (Z.b2z k)) (adc_flags a b (Z.b2z k)) = true.
Proof.
  revert a b. destruct k;
    [refine (forall_bytes2 (λ a b, host_flags_match (X86.add_flags B8 a b 1) (adc_flags a b 1)) _)
    |refine (forall_bytes2 (λ a b, host_flags_match (X86.add_flags B8 a b 0) (adc_flags a b 0)) _)]; by vm_compute.
Qed.
Lemma sub_flags_match a b k : is_byte a → is_byte b →
  host_flags_match (X86.sub_flags B8 a b (Z.b2z k)) (sbc_flags a b (Z.b2z k)) = true.
Proof.
  revert a b. destruct k;
    [refine (forall_bytes2 (λ a b, host_flags_match (X86.sub_flags B8 a b 1) (sbc_flags a b 1)) _)
    |refine (forall_bytes2 (λ a b, host_flags_match (X86.sub_flags B8 a b 0) (sbc_flags a b 0)) _)]; by vm_compute.
Qed.

(** ** Assembling F under a mask *)

Lemma nz_testbit m n : 0 <= n → Z.testbit m n = true → nz m = true.
Proof. intros Hn H. unfold nz. destruct (Z.eqb_spec m 0) as [->|]; [by rewrite Z.bits_0 in H|done]. Qed.
Lemma byte_bit x n : is_byte x → Z.testbit x n = true → 0 <= n < 8.
Proof.
  intros Hx H. destruct (Z.ltb_spec n 0); [by rewrite Z.testbit_neg_r in H|]. split; [done|].
  destruct (Z.ltb_spec n 8); [done|]. destruct (proj1 (bounded_testbit 8 x ltac:(lia)) Hx) as [_ E]. by rewrite E in H.
Qed.
(** Bits of a mask are decided one by one. *)
Lemma masked_ext x y m : is_byte m → (∀ n, 0 <= n < 8 → Z.testbit m n = true → Z.testbit x n = Z.testbit y n) → x &' m = y &' m.
Proof.
  intros Hm H. apply Z.bits_inj'. intros n Hn. rewrite !Z.land_spec.
  destruct (Z.testbit m n) eqn:E; [|by rewrite !andb_false_r]. rewrite H; [done|by eapply byte_bit|done].
Qed.

(** F as [emit_alu_flags] puts it together from LAHF's byte, V and the byte
    the undocumented bits come from. *)
Definition arith_f (is_sub : bool) (fmask b : Z) (v : bool) (xy : Z) : Z :=
  let lahf_bits := fmask &' LAHF_BITS in
  let keep := lahf_bits |' (if is_sub then FLAG_N else 0) in
  let f := if nz lahf_bits then b &' keep else if is_sub && nz (fmask &' FLAG_N) then FLAG_N else 0 in
  let f := if nz (fmask &' FLAG_PV) then f |' (Z.b2z v <<' 2) else f in
  if nz (fmask &' (FLAG_5 |' FLAG_3)) then f |' (xy &' (FLAG_5 |' FLAG_3)) else f.
Definition whole_f (is_sub : bool) (b : Z) (v : bool) (xy : Z) : Z :=
  (b &' LAHF_BITS) |' flag_if is_sub FLAG_N |' flag_if v FLAG_PV |' (xy &' (FLAG_5 |' FLAG_3)).
Lemma arith_f_masked is_sub fmask b v xy : is_byte fmask → Z.testbit b 1 = true →
  arith_f is_sub fmask b v xy &' fmask = whole_f is_sub b v xy &' fmask.
Proof.
  intros Hm Hb. apply masked_ext; [done|]. intros n Hn Hbit. unfold arith_f, whole_f. cbv zeta.
  assert (∀ k, Z.testbit k n = true → nz (fmask &' k) = true) as Hnz.
  { intros k Hk. apply (nz_testbit _ n); [lia|]. by rewrite Z.land_spec, Hbit, Hk. }
  assert (n = 0 ∨ n = 1 ∨ n = 2 ∨ n = 3 ∨ n = 4 ∨ n = 5 ∨ n = 6 ∨ n = 7) as En by lia.
  destruct En as [->|[->|[->|[->|[->|[->|[->| ->]]]]]]];
    rewrite ?(Hnz LAHF_BITS), ?(Hnz FLAG_PV), ?(Hnz (FLAG_5 |' FLAG_3)), ?(Hnz FLAG_N) by done;
    destruct is_sub, v; repeat case_match;
    rewrite ?Z.lor_spec, ?Z.land_spec, ?Hbit, ?Z.lor_spec, ?Z.land_spec, ?Hb, ?Hbit; cbn [flag_if Z.b2z];
    rewrite ?andb_true_r, ?andb_false_r, ?orb_false_r; try done.
Qed.
Lemma arith_f_byte is_sub fmask b v xy : is_byte b → is_byte (arith_f is_sub fmask b v xy).
Proof.
  intros Hb. unfold arith_f. cbv zeta. repeat case_match; destruct v; cbn [Z.b2z]; repeat apply byte_lor;
    try (apply byte_land; done); try apply byte_land_r; by vm_compute.
Qed.

(** Carry of the guest is bit 0 of F. *)
Lemma carry_in_bit f : carry_in f = Z.b2z (Z.testbit f 0).
Proof.
  unfold carry_in. change FLAG_C with (2 ^ 0). rewrite nz_land_pow2 by lia. by destruct (Z.testbit f 0).
Qed.

(** A byte is put together from its parts. *)
Lemma whole_f_of is_sub b v xy f : is_byte f → f &' LAHF_BITS = b &' LAHF_BITS → f &' FLAG_PV = flag_if v FLAG_PV →
  f &' FLAG_N = flag_if is_sub FLAG_N → f &' (FLAG_5 |' FLAG_3) = xy &' (FLAG_5 |' FLAG_3) → f = whole_f is_sub b v xy.
Proof.
  intros Hf E1 E2 E3 E4. unfold whole_f. rewrite <- E1, <- E2, <- E3, <- E4. apply Z.eqb_eq.
  apply (forall_bytes (λ f, f =? f &' LAHF_BITS |' f &' FLAG_N |' f &' FLAG_PV |' f &' (FLAG_5 |' FLAG_3))); [by vm_compute|done].
Qed.
(** What the ALU specification needs of the interpreter's F. *)
Record flags_from (is_sub : bool) (fl : flags) (xy f : Z) : Prop := {
  ff_byte : is_byte f;
  ff_match : host_flags_match fl f = true;
  ff_N : f &' FLAG_N = flag_if is_sub FLAG_N;
  ff_xy : f &' (FLAG_5 |' FLAG_3) = xy &' (FLAG_5 |' FLAG_3)
}.
Lemma flags_from_parts is_sub fl xy f : flags_from is_sub fl xy f → ∃ b v k,
  lahf_byte fl = Some b ∧ vf fl = Some v ∧ cf fl = Some k ∧ is_byte b ∧ Z.testbit b 1 = true ∧
  f = whole_f is_sub b v xy ∧ f &' FLAG_C = Z.b2z k.
Proof.
  intros [Hb Hm HN Hx]. unfold host_flags_match in Hm.
  destruct (lahf_byte fl) as [b|], (vf fl) as [v|], (cf fl) as [k|]; try done. rewrite !andb_true_iff, !Z.eqb_eq in Hm.
  destruct Hm as (((((E1 & E2) & E3%Z.leb_le) & E4%Z.ltb_lt) & E5) & E6). exists b, v, k. split_and!; try done.
  by apply whole_f_of.
Qed.
Lemma adc_flags_from a b k : is_byte a → is_byte b →
  flags_from false (X86.add_flags B8 a b (Z.b2z k)) (u8 (a + b + Z.b2z k)) (adc_flags a b (Z.b2z k)).
Proof.
  intros Ha Hb. split; [apply byte_adc_flags|by apply add_flags_match| |].
  all: apply Z.eqb_eq; revert a b Ha Hb; destruct k; cbn [Z.b2z].
  1: refine (forall_bytes2 (λ a b, adc_flags a b 1 &' FLAG_N =? flag_if false FLAG_N) _); by vm_compute.
  1: refine (forall_bytes2 (λ a b, adc_flags a b 0 &' FLAG_N =? flag_if false FLAG_N) _); by vm_compute.
  1: refine (forall_bytes2 (λ a b, adc_flags a b 1 &' (FLAG_5 |' FLAG_3) =? u8 (a + b + 1) &' (FLAG_5 |' FLAG_3)) _); by vm_compute.
  1: refine (forall_bytes2 (λ a b, adc_flags a b 0 &' (FLAG_5 |' FLAG_3) =? u8 (a + b + 0) &' (FLAG_5 |' FLAG_3)) _); by vm_compute.
Qed.
Lemma sbc_flags_from a b k : is_byte a → is_byte b →
  flags_from true (X86.sub_flags B8 a b (Z.b2z k)) (u8 (a - b - Z.b2z k)) (sbc_flags a b (Z.b2z k)).
Proof.
  intros Ha Hb. split; [apply byte_sbc_flags|by apply sub_flags_match| |].
  all: apply Z.eqb_eq; revert a b Ha Hb; destruct k; cbn [Z.b2z].
  1: refine (forall_bytes2 (λ a b, sbc_flags a b 1 &' FLAG_N =? flag_if true FLAG_N) _); by vm_compute.
  1: refine (forall_bytes2 (λ a b, sbc_flags a b 0 &' FLAG_N =? flag_if true FLAG_N) _); by vm_compute.
  1: refine (forall_bytes2 (λ a b, sbc_flags a b 1 &' (FLAG_5 |' FLAG_3) =? u8 (a - b - 1) &' (FLAG_5 |' FLAG_3)) _); by vm_compute.
  1: refine (forall_bytes2 (λ a b, sbc_flags a b 0 &' (FLAG_5 |' FLAG_3) =? u8 (a - b - 0) &' (FLAG_5 |' FLAG_3)) _); by vm_compute.
Qed.
(** CP: SUB's flags, the undocumented bits from the operand. *)
Lemma cp_flags_from a b : is_byte a → is_byte b →
  flags_from true (X86.sub_flags B8 a b 0) b (cp_flags a b (u8 (a - b))).
Proof.
  intros Ha Hb. split; [apply byte_cp_flags| | |]; [|apply Z.eqb_eq..]; revert a b Ha Hb.
  - refine (forall_bytes2 (λ a b, host_flags_match (X86.sub_flags B8 a b 0) (cp_flags a b (u8 (a - b)))) _); by vm_compute.
  - refine (forall_bytes2 (λ a b, cp_flags a b (u8 (a - b)) &' FLAG_N =? flag_if true FLAG_N) _); by vm_compute.
  - refine (forall_bytes2 (λ a b, cp_flags a b (u8 (a - b)) &' (FLAG_5 |' FLAG_3) =? b &' (FLAG_5 |' FLAG_3)) _); by vm_compute.
Qed.
