(* ===== verification/AluX64Ok.v ===== *)
(** * AluX64Ok: the inline 8-bit ALU computes the interpreter's flags

    [emit_alu_inline] of TransX64 on the host machine: the emitted ADD, ADC,
    SUB, SBC, AND, OR, XOR and CP leave the interpreter's A, and in F every
    bit of the mask as the interpreter leaves it, whatever the operand is and
    for all 256 masks.  The half-carry comes from LAHF, overflow from SETO,
    and the undocumented bits from the result or, for CP, the operand. *)

From Stdlib Require Import ZArith Lia Bool List.
From stdpp Require Import base option gmap list.
From S2P Require Import Prelude X86 EmitX64 EmitX64Ok Cpu Decode Interp InterpOk InterpSpec Translate JitFlags JitFlagsOk.
From S2P Require Import TransX64 HostX64 RulesX64 GuestX64 FlagsX64.

Open Scope list_scope.
Open Scope Z_scope.
Open Scope z80_scope.

Set Default Proof Using "Type".

(** The interpreter's operation. *)
Definition alu_exec (op : alu_kind) : Z → z80_cpu → z80_cpu :=
  match op with
  | ALU_ADD => alu_ADD | ALU_ADC => alu_ADC | ALU_SUB => alu_SUB | ALU_SBC => alu_SBC
  | ALU_AND => alu_AND | ALU_OR => alu_OR | ALU_XOR => alu_XOR | ALU_CP => alu_CP
  end.

Section Alu.
Context `{CE : CodeEnv} (l : layout) (Hl : layout_ok l) (slow : xstate → xstate) (Hslow : ∀ σ, rejoins l σ (slow σ)).
Local Abbreviation host := (host l).
Local Abbreviation P := (phys l).
Local Abbreviation does := (does l slow).
Implicit Types (σ : xstate) (c : z80_cpu) (Q : xstate → Prop).

Definition src_operand (src : alu_src) : operand :=
  match src with SRC_IMM i => OImm (s8 (u8 i)) | SRC_REG r => OReg r | SRC_MEM b i d => mem_op b i d end.
(** Sources that do not depend on the registers the ALU code overwrites. *)
Definition src_ok (src : alu_src) : Prop :=
  match src with
  | SRC_IMM i => is_byte i
  | SRC_REG r => is_reg r ∧ r ≠ T0 ∧ r ≠ T3 ∧ r ≠ R_F
  | SRC_MEM b i d => is_mem b i d ∧ b ≠ T0 ∧ b ≠ T1 ∧ b ≠ T3 ∧ b ≠ R_F ∧ i ≠ T0 ∧ i ≠ T1 ∧ i ≠ T3 ∧ i ≠ R_F
  end.
Lemma alu8_src_encodes x src : is_alu_code x → src_ok src → encodes (emit_alu8_src x src) (IAlu (alu_of x) B8 (OReg R_A) (src_operand src)).
Proof.
  intros Hx Hs. destruct src; cbn [src_ok emit_alu8_src src_operand] in *.
  - apply enc_alu_r8_imm8; [done|regs|apply u8_byte].
  - apply enc_alu_r8_r8; [done|regs|apply Hs].
  - apply enc_alu_r8_m8; [done|regs|apply Hs].
Qed.
(** Clearing T3 or testing the carry does not change the operand. *)
Lemma src_stable src σ σ' : src_ok src → (∀ r, r ≠ T3 → xr σ' r = xr σ r) → xm σ' = xm σ →
  get P B8 (src_operand src) σ' = get P B8 (src_operand src) σ.
Proof.
  intros Hs Hr Hm. destruct src as [i|r|b i d]; cbn [src_operand get mem_op] in *; [done|by rewrite Hr by apply Hs|].
  assert (ea b (index_of i) 0 d σ' = ea b (index_of i) 0 d σ) as ->.
  { unfold ea, index_of. rewrite Hr by apply Hs. destruct (i <? 0); [done|]. by rewrite Hr by apply Hs. }
  cbn [nbytes_of ld]. unfold ld8. by rewrite Hm.
Qed.

(** ** F from the host flags *)

Lemma host_keeps_F c σ σ' f : host c σ → keeps [R_F; T0; T1; T3] σ σ' → xr σ' R_F = f → host (set_rF f c) σ'.
Proof.
  intros H [E Em] Ef. eapply host_same; [by apply (host_F l c σ f)| |intros a; apply Em].
  intros g Hg. cbn [xr set_reg]. unfold upd. destruct (Z.eqb_spec g R_F) as [->|Hn]; [done|]. apply E.
  intros Hin. rewrite !elem_of_cons, elem_of_nil in Hin.
  assert (g ≠ T0 ∧ g ≠ T1 ∧ g ≠ T3) as (? & ? & ?); [|tauto].
  unfold guest_reg in Hg. rewrite !elem_of_cons, elem_of_nil in Hg. decompose [or] Hg; subst; try done; split_and!; regs.
Qed.

(** Where the undocumented bits come from. *)
Definition xy_from_src (op : alu_kind) (src : alu_src) (xy : Z) σ : Prop :=
  match op, src with
  | ALU_CP, SRC_IMM i => i = xy
  | ALU_CP, SRC_REG r => u8 (xr σ r) = xy ∧ is_reg r ∧ r ≠ T0 ∧ r ≠ T3 ∧ r ≠ R_F
  | ALU_CP, SRC_MEM _ _ _ => False
  | _, _ => xr σ R_A = xy
  end.

(** The three steps: V, the LAHF part, the undocumented bits. *)
Lemma does_flags_v fmask v Q σ : vf (xf σ) = Some v → (nz (fmask &' FLAG_PV) = true → xr σ T3 = 0) →
  (∀ σ', keeps [T3] σ σ' → xf σ' = xf σ → (nz (fmask &' FLAG_PV) = true → xr σ' T3 = Z.b2z v) → Q σ') →
  does (emit_if (nz (fmask &' FLAG_PV)) (emit_setcc_r8 X64_CC_O T3)) Q σ.
Proof.
  intros Hv H3 HQ. apply does_if; intros Hw; [|by apply HQ; [split| |rewrite Hw]].
  eapply does_setcc_r8; [side|regs|unfold cond; cbn; by rewrite Hv|]. rewrite (H3 Hw).
  apply HQ; [by apply keeps_set; left|done|]. intros _. xs. by destruct v.
Qed.
Lemma does_flags_lahf (is_sub : bool) fmask b Q σ : lahf_byte (xf σ) = Some b → is_byte b → is_byte fmask →
  (∀ σ', keeps [R_F; T0] σ σ' →
    xr σ' R_F = (if nz (fmask &' LAHF_BITS) then b &' ((fmask &' LAHF_BITS) |' (if is_sub then FLAG_N else 0))
                 else if is_sub && nz (fmask &' FLAG_N) then FLAG_N else 0) → Q σ') →
  does (if nz (fmask &' (FLAG_S |' FLAG_Z |' FLAG_H |' FLAG_C))
        then emit_lahf +> emit_movzx_r32_ah R_F +>
             emit_alu_r32_imm X64_ALU_AND R_F ((fmask &' (FLAG_S |' FLAG_Z |' FLAG_H |' FLAG_C)) |' (if is_sub then FLAG_N else 0))
        else emit_mov_r32_imm32 R_F (if is_sub && nz (fmask &' FLAG_N) then FLAG_N else 0)) Q σ.
Proof.
  intros Hb Hbb Hm HQ. change (FLAG_S |' FLAG_Z |' FLAG_H |' FLAG_C) with LAHF_BITS. destruct (nz (fmask &' LAHF_BITS)).
  - assert (is_byte ((fmask &' LAHF_BITS) |' (if is_sub then FLAG_N else 0))) as Hk.
    { apply byte_lor; [by apply byte_land|]. destruct is_sub; by vm_compute. }
    apply does_then. eapply does_lahf; [done|done|]. intros x Hx.
    apply does_then, does_movzx_r32_ah; [regs|]. xs. rewrite Hx.
    eapply does_alu_r32_imm; [side|regs|unfold int32, is_byte in *; lia|xs; by apply byte_dword|apply trunc_byte; done
      |left; split; reflexivity|].
    intros f. apply HQ; [|by xs]. split; [|done]. intros q Hq. rewrite !not_elem_of_cons in Hq. destruct Hq as (? & ? & _).
    xs. by eqs.
  - apply does_mov_r32_imm32; [regs|destruct (is_sub && nz (fmask &' FLAG_N)); by vm_compute|].
    apply HQ; [apply keeps_set; by left|by xs].
Qed.
Lemma does_flags_or_v fmask v f Q σ : xr σ R_F = f → is_byte f → (nz (fmask &' FLAG_PV) = true → xr σ T3 = Z.b2z v) →
  (∀ σ', keeps [R_F; T3] σ σ' → xr σ' R_F = (if nz (fmask &' FLAG_PV) then f |' (Z.b2z v <<' 2) else f) → Q σ') →
  does (emit_if (nz (fmask &' FLAG_PV)) (emit_shl_r32_imm T3 2 +> emit_alu_r32_r32 X64_ALU_OR R_F T3)) Q σ.
Proof.
  intros Ef Hf H3 HQ. apply does_if; intros Hw; rewrite Hw in *; [|by apply HQ].
  specialize (H3 eq_refl). apply does_then. eapply does_shift_r32_imm; [side|regs|lia| |left; split; reflexivity|].
  { rewrite H3. destruct v; by vm_compute. }
  intros f1. rewrite H3. assert (trunc D32 (Z.b2z v <<' 2) = Z.b2z v <<' 2) as -> by by destruct v.
  eapply does_alu_r32_r32; [side|regs|regs|xs; rewrite Ef; by apply byte_dword|xs; by destruct v|left; split; reflexivity|].
  intros f2. apply HQ; [|xs; by rewrite Ef]. split; [|done]. intros q Hq. rewrite !not_elem_of_cons in Hq. destruct Hq as (? & ? & _).
  xs. by eqs.
Qed.
(** [F |= reg & XY] through T0. *)
Lemma does_or_xy xy f a Q σ : xr σ R_F = f → is_byte f → is_byte xy →
  (∀ K : xstate → Prop, (∀ σ', keeps [T0] σ σ' → xr σ' T0 = xy → K σ') → does a K σ) →
  (∀ σ', keeps [R_F; T0] σ σ' → xr σ' R_F = f |' (xy &' (FLAG_5 |' FLAG_3)) → Q σ') →
  does (a +> emit_alu_r32_imm X64_ALU_AND T0 (FLAG_5 |' FLAG_3) +> emit_alu_r32_r32 X64_ALU_OR R_F T0) Q σ.
Proof.
  intros Ef Hf Hxy Ha HQ. apply does_then, Ha. intros σ1 [E1 M1] ET.
  apply does_then. eapply does_alu_r32_imm; [side|regs|vm_compute; split; congruence|rewrite ET; by apply byte_dword|reflexivity|left; split; reflexivity|].
  intros f1. change (trunc D32 (FLAG_5 |' FLAG_3)) with (FLAG_5 |' FLAG_3). rewrite ET.
  assert (xr σ1 R_F = f) as Ef1 by (rewrite E1; [done|rewrite not_elem_of_cons; split; [regs|apply not_elem_of_nil]]).
  eapply does_alu_r32_r32; [side|regs|regs|xs; rewrite Ef1; by apply byte_dword|xs; by apply byte_dword, byte_land|left; split; reflexivity|].
  intros f2. apply HQ; [|xs; by rewrite Ef1]. split; [|done]. intros q Hq. rewrite !not_elem_of_cons in Hq. destruct Hq as (? & ? & _).
  xs. eqs. apply E1. rewrite not_elem_of_cons. split; [done|apply not_elem_of_nil].
Qed.

Lemma keeps_at q rs σ σ' : keeps rs σ σ' → q ∉ rs → xr σ' q = xr σ q.
Proof. intros [E _] Hq. by apply E. Qed.
Ltac not_in := rewrite !not_elem_of_cons; split_and!; [first [assumption|regs]..|apply not_elem_of_nil].

Lemma does_alu_flags op fmask src xy spec Q σ :
  is_byte fmask → nz fmask = true → flags_from (is_sub_op op) (xf σ) xy spec → is_byte xy → is_byte (xr σ R_F) →
  (nz (fmask &' FLAG_PV) = true → xr σ T3 = 0) →
  (nz (fmask &' (FLAG_5 |' FLAG_3)) = true → xy_from_src op src xy σ) →
  (∀ σ' f, keeps [R_F; T0; T1; T3] σ σ' → xr σ' R_F = f → is_byte f → f &' fmask = spec &' fmask → Q σ') →
  does (emit_alu_flags op fmask src) Q σ.
Proof.
  intros Hm Hnz Hff Hxy HF H3 Hsrc HQ. destruct (flags_from_parts _ _ _ _ Hff) as (b & v & k & Eb & Ev & Ek & Hb & Hb1 & Espec & EC).
  unfold emit_alu_flags. cbv zeta. destruct (Z.eqb_spec fmask FLAG_C) as [->|HC].
  { eapply does_setcc_r8; [side|regs|unfold cond; cbn; by rewrite Ek|].
    replace (merge B8 (xr σ R_F) (Z.b2z k)) with (Z.b2z k).
    - apply (HQ _ (Z.b2z k)); [apply keeps_set; by left|by xs|by destruct k|]. rewrite EC. by destruct k.
    - rewrite merge8_byte by done. by destruct k. }
  apply does_then. eapply does_flags_v; [done|done|]. intros σ1 K1 F1 T1'.
  apply does_then, (does_flags_lahf (is_sub_op op) fmask b); [by rewrite F1|done|done|]. intros σ2 K2 E2.
  set (f2 := if nz (fmask &' LAHF_BITS) then _ else _) in E2.
  assert (is_byte f2) as Hf2.
  { subst f2. destruct (nz (fmask &' LAHF_BITS)); [by apply byte_land|]. destruct (is_sub_op op && _); by vm_compute. }
  assert (keeps [R_F; T0; T3] σ σ2) as K12.
  { eapply keeps_trans; [eapply keeps_mono; [exact K1|]|eapply keeps_mono; [exact K2|]]; intros q; rewrite !elem_of_cons, elem_of_nil; tauto. }
  apply does_then, (does_flags_or_v fmask v f2); [done|done|intros Hw; rewrite (keeps_at _ _ _ _ K2) by not_in; by apply T1'|].
  intros σ3 K3 E3. set (f3 := if nz (fmask &' FLAG_PV) then _ else _) in E3.
  assert (is_byte f3) as Hf3.
  { subst f3. destruct (nz (fmask &' FLAG_PV)); [|done]. apply byte_lor; [done|by destruct v]. }
  assert (keeps [R_F; T0; T3] σ σ3) as K13.
  { eapply keeps_trans; [exact K12|eapply keeps_mono; [exact K3|]]. intros q. rewrite !elem_of_cons, elem_of_nil. tauto. }
  assert (∀ σ', keeps [R_F; T0] σ3 σ' → xr σ' R_F = (if nz (fmask &' (FLAG_5 |' FLAG_3)) then f3 |' (xy &' (FLAG_5 |' FLAG_3)) else f3) → Q σ') as HQ'.
  { intros σ' K4 E4. apply (HQ σ' (arith_f (is_sub_op op) fmask b v xy)).
    - eapply keeps_trans; [eapply keeps_mono; [exact K13|]|eapply keeps_mono; [exact K4|]]; intros q; rewrite !elem_of_cons, elem_of_nil; tauto.
    - rewrite E4. unfold arith_f. cbv zeta. fold f2. by fold f3.
    - by apply arith_f_byte.
    - rewrite Espec. by apply arith_f_masked. }
  apply does_if; intros Hw; rewrite Hw in HQ'; [|by apply HQ'].
  specialize (Hsrc Hw).
  assert (∀ r, is_reg r → xr σ3 r = xy → does (emit_mov_r32_r32 T0 r +> emit_alu_r32_imm X64_ALU_AND T0 (FLAG_5 |' FLAG_3) +> emit_alu_r32_r32 X64_ALU_OR R_F T0) Q σ3) as Hmov.
  { intros r Hr Er. apply (does_or_xy xy f3); [done..| |done]. intros K HK.
    apply does_mov_r32_r32; [regs|done|rewrite Er; in_range|]. rewrite Er. apply HK; [apply keeps_set; by left|by xs]. }
  destruct op; try (apply Hmov; [regs|rewrite (keeps_at _ _ _ _ K13) by not_in; exact Hsrc]).
  destruct src as [i|r|]; cbn [xy_from_src] in Hsrc; [| |done].
  - subst i. apply does_if; intros Hi.
    + eapply does_alu_r32_imm; [side|regs| |rewrite E3; in_range| |right; left; split; reflexivity|].
      * assert (is_byte (xy &' (FLAG_5 |' FLAG_3))) by (by apply byte_land). unfold int32, is_byte in *. lia.
      * apply trunc_byte. by apply byte_land.
      * intros f. apply HQ'; [apply keeps_set; by left|]. xs. by rewrite E3.
    + apply HQ'; [by split|]. unfold nz in Hi. apply negb_false_iff, Z.eqb_eq in Hi. rewrite Hi, Z.lor_0_r. done.
  - destruct Hsrc as (Er & Hr & H0 & H3' & HrF). apply (does_or_xy xy f3); [done..| |done]. intros K HK.
    apply does_movzx_r32_r8; [regs|done|]. apply HK; [apply keeps_set; by left|]. xs.
    by rewrite (keeps_at _ _ _ _ K13) by not_in.
Qed.

(** ** The operations *)

Lemma masked_0 m x y : nz m = false → x &' m = y &' m.
Proof. unfold nz. intros ->%negb_false_iff%Z.eqb_eq. by rewrite !Z.land_0_r. Qed.
Lemma nz_disjoint a m : nz (a &' m) = false → a &' m = 0.
Proof. unfold nz. by intros ->%negb_false_iff%Z.eqb_eq. Qed.

(** A logic instruction, then the table. *)
Lemma does_alu_logic x (is_and : bool) fmask src b r fl c Q σ :
  is_alu_code x → (∀ τ, alu (alu_of x) B8 (rA c) b τ = Some (r, fl)) → alu_of x ≠ CMP →
  cpu_ok c → host c σ → is_byte fmask → src_ok src → get P B8 (src_operand src) σ = b → is_byte r →
  (∀ σ' f, host (set_rF f (set_rA r c)) σ' → is_byte f → f &' fmask = (logic_flags r |' flag_if is_and FLAG_H) &' fmask → Q σ') →
  does (emit_alu_logic x is_and fmask src) Q σ.
Proof using Hl.
  intros Hx Halu Hcmp Hc H Hm Hs Eb Hr HQ. pose proof (ok_rA _ Hc) as Ha.
  apply does_then. eapply does_alu8; [by apply alu8_src_encodes|pinned_vals; done|pinned_vals; reflexivity|exact Eb|apply Halu|done|].
  set (σ1 := set_xf _ _). assert (host (set_rA r c) σ1) as H1.
  { subst σ1. apply host_xf. destruct (alu_of x); try done; by apply host_A. }
  clearbody σ1. apply does_if; intros Hnz.
  2: { apply (HQ _ (rF c)); [|by apply ok_rF|by apply masked_0]. eapply host_ext; [exact H1|done..]. }
  destruct (f_table_cells r Hr) as (Et & _ & _ & _).
  assert (xr σ1 R_A = r) as ER by (by rewrite (host_rA l _ _ H1)).
  assert (get P B8 (mem_op R_AUX R_A FT_LOGIC) σ1 = logic_flags r) as Eg.
  { rewrite <- Et, <- ER. apply (get_table l Hl (set_rA r c) σ1 H1). rewrite ER. unfold FT_LOGIC, is_byte in *. lia. }
  apply does_then. eapply does_movzx_r32_m8; [regs|side; unfold FT_LOGIC; lia|exact Eg|apply byte_logic_flags|].
  pose proof (host_F l _ _ (logic_flags r) H1) as H2. pose proof (byte_logic_flags r) as Hlf.
  apply does_if; intros HH.
  - apply andb_true_iff in HH as [-> _]. eapply does_alu_r32_imm; [side|regs|by vm_compute|xs; in_range|reflexivity|right; left; split; reflexivity|].
    intros f. xs. change (trunc D32 FLAG_H) with FLAG_H. apply (HQ _ (logic_flags r |' FLAG_H)); [|apply byte_lor; [done|by vm_compute]|done].
    eapply host_ext; [apply host_xf, (host_F l _ _ _ H2)|done..].
  - apply (HQ _ (logic_flags r)); [eapply host_ext; [exact H2|done..]|done|].
    destruct is_and; cbn [flag_if andb] in *; [|by rewrite Z.lor_0_r].
    rewrite Z.land_lor_distr_l, (Z.land_comm FLAG_H), (nz_disjoint _ _ HH). by rewrite Z.lor_0_r.
Qed.

(** ADD, ADC, SUB, SBC and CP: the instruction with its carry, then F. *)
Definition takes_carry (op : alu_kind) : bool := match op with ALU_ADC | ALU_SBC => true | _ => false end.
Definition is_cp (op : alu_kind) : bool := match op with ALU_CP => true | _ => false end.
Lemma does_alu_arith op fmask src b r fl spec c Q σ :
  is_alu_code (alu_code op) → (if alu_of (alu_code op) is CMP then true else false) = is_cp op →
  (∀ τ, (takes_carry op = true → cf τ = Some (Z.testbit (rF c) 0)) →
    alu (alu_of (alu_code op)) B8 (rA c) b τ = Some (r, fl)) →
  flags_from (is_sub_op op) fl (if is_cp op then b else r) spec →
  cpu_ok c → host c σ → is_byte fmask → src_ok src → get P B8 (src_operand src) σ = b → is_byte b → is_byte r →
  (is_cp op = true → nz (fmask &' (FLAG_5 |' FLAG_3)) = true → if src is SRC_MEM _ _ _ then False else True) →
  (∀ σ' f, host (set_rF f (if is_cp op then c else set_rA r c)) σ' → is_byte f → f &' fmask = spec &' fmask → Q σ') →
  does (emit_alu_arith op fmask src) Q σ.
Proof using Hl.
  intros Hx Hcp Halu Hff Hc H Hm Hs Eb Hb Hr Hmem HQ. pose proof (ok_rA _ Hc) as Ha.
  assert (∀ σ1, (∀ q, q ≠ T3 → xr σ1 q = xr σ q) → xm σ1 = xm σ → host c σ1) as Hst.
  { intros σ1 E Em. eapply host_same; [exact H| |intros a; unfold at_; by rewrite Em]. intros g Hg. apply E. intros ->.
    apply (scratch_not_guest T3 T3) in Hg; [|regs]. by rewrite Z.eqb_refl in Hg. }
  assert (∀ σ1, (∀ q, q ≠ T3 → xr σ1 q = xr σ q) → xm σ1 = xm σ → (nz (fmask &' FLAG_PV) = true → xr σ1 T3 = 0) →
    (takes_carry op = true → cf (xf σ1) = Some (Z.testbit (rF c) 0)) →
    does (emit_alu8_src (alu_code op) src +> emit_if (nz fmask) (emit_alu_flags op fmask src)) Q σ1) as Hmain.
  { intros σ1 E1 M1 H3 Hk. pose proof (Hst σ1 E1 M1) as H1.
    assert (get P B8 (src_operand src) σ1 = b) as Eb1 by (rewrite <- Eb; by apply src_stable).
    apply does_then. eapply does_alu8; [by apply alu8_src_encodes|pinned_vals; done|pinned_vals; reflexivity|exact Eb1|by apply Halu|done|].
    set (σ2 := set_xf fl _).
    assert (host (if is_cp op then c else set_rA r c) σ2) as H2.
    { subst σ2. apply host_xf. destruct (alu_of (alu_code op)); rewrite <- Hcp; try done; by apply host_A. }
    assert (xf σ2 = fl) as F2 by done.
    assert (nz (fmask &' FLAG_PV) = true → xr σ2 T3 = 0) as H32.
    { intros Hw. rewrite <- (H3 Hw). subst σ2. destruct (alu_of (alu_code op)); by xs. }
    assert (nz (fmask &' (FLAG_5 |' FLAG_3)) = true → xy_from_src op src (if is_cp op then b else r) σ2) as Hxy.
    { intros Hw. specialize (Hmem) as Hmem'. destruct op; cbn [is_cp] in *; try (apply (host_rA l _ σ2 H2)).
      specialize (Hmem' eq_refl Hw). subst σ2. cbn [alu_of alu_code X64_ALU_CMP]. destruct src as [i|q|]; cbn [xy_from_src]; [| |done].
      - rewrite <- Eb. cbn [src_operand get src_ok] in *. rewrite (u8_id i Hs). symmetry. by apply s8_trunc.
      - split; [exact Eb1|exact Hs]. }
    clearbody σ2. apply does_if; intros Hnz.
    - assert (xr σ2 R_F = rF c) as EF by (rewrite (host_rF l _ _ H2); by destruct (is_cp op)).
      eapply (does_alu_flags op fmask src _ spec); [done|done|by rewrite F2|by destruct (is_cp op)|rewrite EF; by apply ok_rF|done|done|].
      intros σ' f K Ef Hf Hsp. apply (HQ σ' f); [|done|done]. by eapply host_keeps_F.
    - apply (HQ σ2 (rF c)); [|by apply ok_rF|by apply masked_0]. eapply host_ext; [exact H2|by destruct (is_cp op)..]. }
  assert (∀ σ1, (∀ q, q ≠ T3 → xr σ1 q = xr σ q) → xm σ1 = xm σ → (nz (fmask &' FLAG_PV) = true → xr σ1 T3 = 0) →
    does (match op with ALU_ADC | ALU_SBC => emit_bt_r32_imm8 R_F 0 | _ => emit_none end +>
          emit_alu8_src (alu_code op) src +> emit_if (nz fmask) (emit_alu_flags op fmask src)) Q σ1) as Hbt.
  { intros σ1 E1 M1 H3. pose proof (Hst σ1 E1 M1) as H1. apply does_then.
    destruct op; try (apply does_none, Hmain; done); (apply does_bt_r32_imm8; [regs|lia|pinned_vals; in_range|]);
      pinned_vals; apply Hmain; done. }
  apply does_then, does_if; intros Hw.
  - apply does_zero; [regs|]. intros f. apply Hbt; [|done|by xs]. intros q Hq. xs. by eqs.
  - apply Hbt; [done|done|congruence].
Qed.

(** The flags the five operations leave. *)
Lemma alu_exec_arith op b c : cpu_ok c → is_byte b → (op ≠ ALU_AND ∧ op ≠ ALU_OR ∧ op ≠ ALU_XOR) →
  ∃ r fl, is_byte r ∧
  (∀ τ, (takes_carry op = true → cf τ = Some (Z.testbit (rF c) 0)) →
    alu (alu_of (alu_code op)) B8 (rA c) b τ = Some (r, fl)) ∧
  flags_from (is_sub_op op) fl (if is_cp op then b else r) (rF (alu_exec op b c)) ∧
  (∀ σ f, host (set_rF f (if is_cp op then c else set_rA r c)) σ → host (set_rF f (alu_exec op b c)) σ).
Proof.
  intros Hc Hb Hop. pose proof (ok_rA _ Hc) as Ha.
  destruct op; try tauto; clear Hop.
  - exists (u8 (rA c + b)), (X86.add_flags B8 (rA c) b 0). split_and!; [in_range|done| |].
    + cbn [is_cp is_sub_op]. change (rF (alu_exec ALU_ADD b c)) with (add_flags (rA c) b (u8 (rA c + b))).
      rewrite add_flags_adc by done. pose proof (adc_flags_from (rA c) b false Ha Hb) as E. cbn [Z.b2z] in E. by rewrite Z.add_0_r in E.
    + intros σ f H. by eapply host_ext; [exact H|..].
  - exists (u8 (rA c + b + Z.b2z (Z.testbit (rF c) 0))), (X86.add_flags B8 (rA c) b (Z.b2z (Z.testbit (rF c) 0))).
    split_and!; [in_range|intros τ Hk; unfold alu; cbn; by rewrite Hk| |].
    + cbn [is_cp is_sub_op]. change (rF (alu_exec ALU_ADC b c)) with (adc_flags (rA c) b (carry_in (rF c))).
      rewrite carry_in_bit. by apply adc_flags_from.
    + intros σ f H. eapply host_ext; [exact H|..]; try done. cbn. by rewrite carry_in_bit.
  - exists (u8 (rA c - b)), (X86.sub_flags B8 (rA c) b 0). split_and!; [in_range|done| |].
    + cbn [is_cp is_sub_op]. change (rF (alu_exec ALU_SUB b c)) with (sub_flags (rA c) b (u8 (rA c - b))).
      rewrite sub_flags_sbc by done. pose proof (sbc_flags_from (rA c) b false Ha Hb) as E. cbn [Z.b2z] in E. by rewrite Z.sub_0_r in E.
    + intros σ f H. by eapply host_ext; [exact H|..].
  - exists (u8 (rA c - b - Z.b2z (Z.testbit (rF c) 0))), (X86.sub_flags B8 (rA c) b (Z.b2z (Z.testbit (rF c) 0))).
    split_and!; [in_range|intros τ Hk; unfold alu; cbn; by rewrite Hk| |].
    + cbn [is_cp is_sub_op]. change (rF (alu_exec ALU_SBC b c)) with (sbc_flags (rA c) b (carry_in (rF c))).
      rewrite carry_in_bit. by apply sbc_flags_from.
    + intros σ f H. eapply host_ext; [exact H|..]; try done. cbn. by rewrite carry_in_bit.
  - exists (u8 (rA c - b)), (X86.sub_flags B8 (rA c) b 0). split_and!; [in_range|done| |].
    + cbn [is_cp is_sub_op]. by apply cp_flags_from.
    + intros σ f H. by eapply host_ext; [exact H|..].
Qed.

(** ** [emit_alu_inline] *)

(** Memory operands are read through registers the ALU code leaves alone. *)
Lemma does_alu_inline op fmask src b c Q σ :
  cpu_ok c → host c σ → is_byte fmask → src_ok src → get P B8 (src_operand src) σ = b → is_byte b →
  (∀ σ' f, host (set_rF f (alu_exec op b c)) σ' → is_byte f → f &' fmask = rF (alu_exec op b c) &' fmask → Q σ') →
  does (emit_alu_inline op fmask src) Q σ.
Proof using Hl.
  intros Hc H Hm Hs Eb Hb HQ. pose proof (ok_rA _ Hc) as Ha.
  assert (∀ src', (op ≠ ALU_AND ∧ op ≠ ALU_OR ∧ op ≠ ALU_XOR) → src_ok src' → ∀ σ1, host c σ1 → get P B8 (src_operand src') σ1 = b →
    (is_cp op = true → nz (fmask &' (FLAG_5 |' FLAG_3)) = true → if src' is SRC_MEM _ _ _ then False else True) →
    does (emit_alu_arith op fmask src') Q σ1) as Har.
  { intros src' Hop Hs' σ1 H1 Eb1 Hcp. destruct (alu_exec_arith op b c Hc Hb Hop) as (r & fl & Hr & Halu & Hff & Hh).
    eapply (does_alu_arith op fmask src' b r fl); try done.
    - destruct op; by vm_compute.
    - by destruct op.
    - intros σ' f H' Hf Hsp. apply (HQ σ' f); [by apply Hh|done|done]. }
  assert (∀ x is_and r, (op, x, is_and) = (ALU_AND, X64_ALU_AND, true) ∨ (op, x, is_and) = (ALU_OR, X64_ALU_OR, false) ∨
    (op, x, is_and) = (ALU_XOR, X64_ALU_XOR, false) → r = rA (alu_exec op b c) →
    does (emit_alu_logic x is_and fmask src) Q σ) as Hlog.
  { intros x is_and r Hop ->. assert (is_byte (rA (alu_exec op b c))) as Hr.
    { destruct Hop as [[= -> -> ->]|[[= -> -> ->]|[= -> -> ->]]]; cbn; in_range. }
    pose proof (byte_logic_flags (rA (alu_exec op b c))) as Hlf.
    assert (logic_flags (rA (alu_exec op b c)) |' flag_if is_and FLAG_H = rF (alu_exec op b c)) as EF.
    { destruct Hop as [[= -> -> ->]|[[= -> -> ->]|[= -> -> ->]]]; apply Z.eqb_eq;
        [refine (forall_bytes (λ r, logic_flags r |' flag_if true FLAG_H =? ((logic_flags r &~ FLAG_N) &~ FLAG_C) |' FLAG_H) _ _ Hr)
        |refine (forall_bytes (λ r, logic_flags r |' flag_if false FLAG_H =? ((logic_flags r &~ FLAG_N) &~ FLAG_C) &~ FLAG_H) _ _ Hr)
        |refine (forall_bytes (λ r, logic_flags r |' flag_if false FLAG_H =? ((logic_flags r &~ FLAG_N) &~ FLAG_C) &~ FLAG_H) _ _ Hr)];
        by vm_compute. }
    eapply (does_alu_logic x is_and fmask src b (rA (alu_exec op b c)) (X86.logic_flags B8 (rA (alu_exec op b c)))); try done.
    - destruct Hop as [[= -> -> ->]|[[= -> -> ->]|[= -> -> ->]]]; by vm_compute.
    - intros τ. by destruct Hop as [[= -> -> ->]|[[= -> -> ->]|[= -> -> ->]]].
    - by destruct Hop as [[= -> -> ->]|[[= -> -> ->]|[= -> -> ->]]].
    - intros σ' f H' Hf Hsp. apply (HQ σ' f); [|done|by rewrite <- EF].
      destruct Hop as [[= -> -> ->]|[[= -> -> ->]|[= -> -> ->]]]; eapply host_ext; try exact H'; done. }
  destruct op; cbn [emit_alu_inline]; try (eapply Har; done || (split_and!; done)); try (eapply Hlog; [tauto|reflexivity]).
  destruct (nz fmask) eqn:Hnz; cbn [negb].
  2: { apply does_none, (HQ σ (rF c)); [by eapply host_ext; [exact H|..]|by apply ok_rF|by apply masked_0]. }
  destruct src as [i|q|mb mi md]; try (apply Har; [split_and!; done|done..]).
  destruct (nz (fmask &' (FLAG_5 |' FLAG_3))) eqn:Hxy; [|by apply Har; [split_and!; done|done..|congruence]].
  apply does_then. eapply does_movzx_r32_m8; [regs|apply Hs|exact Eb|done|]. apply Har; [split_and!; done| | | |done].
  - split_and!; regs.
  - apply host_scratch; [done|regs].
  - cbn [src_operand get]. xs. by apply u8_id.
Qed.
End Alu.
