(* ===== verification/OpsX64Ok.v ===== *)
(** * OpsX64Ok: loads, 16-bit operations and the stack

    The code of each straight-line instruction family of [emit_op] takes the
    host's picture of a Z80 state to the picture of the state the interpreter
    reaches ([lands]): every register and byte of memory, MEMPTR where the
    liveness pass kept its store, and F under the mask.  This file covers the
    families outside the 8-bit ALU and the CB page. *)

From Stdlib Require Import ZArith Lia Bool List.
From stdpp Require Import base option gmap list.
From S2P Require Import Prelude X86 EmitX64 EmitX64Ok Cpu Decode Interp InterpOk InterpSpec Translate Block Liveness JitFlags JitFlagsOk.
From S2P Require Import TransX64 HostX64 RulesX64 GuestX64 FlagsX64.

Open Scope list_scope.
Open Scope Z_scope.
Open Scope z80_scope.

Set Default Proof Using "Type".

(** The picture of what the interpreter leaves, up to dead F bits and a dead
    MEMPTR store. *)
Definition lands (l : layout) (c0 : z80_cpu) (fmask : Z) (store : bool) (c' : z80_cpu) (σ : xstate) : Prop :=
  ∃ f, is_byte f ∧ f &' fmask = rF c' &' fmask ∧ host l (touch f (if store then memptr c' else memptr c0) c') σ.

(** ** The ADD16 table under a mask *)

Lemma add16_cell_at i : 0 <= i < ADD16_TABLE_LEN → table_at z80_add16_table i = add16_cell i.
Proof. intros Hi. unfold z80_add16_table. by rewrite table_at_map. Qed.
Lemma add16_cell_bits t : 0 <= t < ADD16_TABLE_LEN →
  is_byte (add16_cell t) ∧ add16_cell t &' 0xC6 = 0 ∧ ∀ x : bool, add16_cell (t ^' flag_if x 0x10) &' 0x29 = add16_cell t &' 0x29.
Proof.
  intros Ht. split; [apply u8_byte|].
  set (p := λ t, (add16_cell t &' 0xC6 =? 0) && (add16_cell (t ^' 0x10) &' 0x29 =? add16_cell t &' 0x29)).
  assert (p t = true) as [H1%Z.eqb_eq H2%Z.eqb_eq]%andb_true_iff by (apply (forall_zseq p 0 512); [by vm_compute|exact Ht]).
  split; [done|]. intros []; cbn [flag_if]; [done|by rewrite Z.lxor_0_r].
Qed.
Lemma land_bit a m n : a &' m = 0 → Z.testbit m n = true → Z.testbit a n = false.
Proof. intros E Hm. pose proof (f_equal (λ x, Z.testbit x n) E) as H. cbv beta in H. by rewrite Z.land_spec, Hm, andb_true_r, Z.bits_0 in H. Qed.
Lemma land_same_bit a b m n : a &' m = b &' m → Z.testbit m n = true → Z.testbit a n = Z.testbit b n.
Proof. intros E Hm. pose proof (f_equal (λ x, Z.testbit x n) E) as H. cbv beta in H. by rewrite !Z.land_spec, Hm, !andb_true_r in H. Qed.
(** F of ADD HL,rr as the code puts it together: the index may leave out the
    half-carry correction when H is dead or the operands are equal. *)
Definition add16_f (fmask f i : Z) : Z :=
  if nz (fmask &' 0x3B) then
    (f &' (FLAG_S |' FLAG_Z |' FLAG_PV)) |' (if nz (fmask &' (FLAG_C |' FLAG_H |' FLAG_5 |' FLAG_3)) then add16_cell i else 0)
  else f.
Lemma add16_f_masked fmask f a b i : is_byte fmask → is_byte f → is_word a → is_word b →
  i = (if nz (fmask &' FLAG_H) && negb (a =? b) then ((a + b) ^' ((a ^' b) &' 0x1000)) >>' 8 else (a + b) >>' 8) →
  add16_f fmask f i &' fmask = add16_flags f a b &' fmask ∧ is_byte (add16_f fmask f i) ∧ 0 <= i < ADD16_TABLE_LEN.
Proof.
  intros Hm Hf Ha Hb Ei. pose proof (add16_index_range a b Ha Hb) as Ht. rewrite add16_table_at, add16_cell_at by done.
  assert (0 <= (a + b) >>' 8 < ADD16_TABLE_LEN) as Ht0.
  { rewrite Z.shiftr_div_pow2 by lia. unfold is_word, ADD16_TABLE_LEN in *. change (2 ^ 8) with 256.
    split; [apply Z.div_pos; lia|apply Z.div_lt_upper_bound; lia]. }
  set (t := ((a + b) ^' _) >>' 8) in *. assert (∃ x : bool, t = ((a + b) >>' 8) ^' flag_if x 0x10) as [x Et] by (eexists; apply add16_index).
  destruct (add16_cell_bits t Ht) as (Bt & Zt & _). destruct (add16_cell_bits _ Ht0) as (B0 & Z0 & Xt).
  assert (0 <= i < ADD16_TABLE_LEN) as Hi by (rewrite Ei; destruct (_ && _); done).
  destruct (add16_cell_bits i Hi) as (Bi & Zi & _).
  assert (add16_cell i &' 0x29 = add16_cell t &' 0x29) as Xi by (rewrite Ei; destruct (_ && _); [done|rewrite Et; symmetry; apply Xt]).
  assert (nz (fmask &' FLAG_H) = true → i = t) as HH.
  { intros Hh. rewrite Ei, Hh. cbn [andb]. destruct (Z.eqb_spec a b) as [->|]; [|done]. cbn [negb]. subst t.
    by rewrite Z.lxor_nilpotent, Z.land_0_l, Z.lxor_0_r. }
  assert (is_byte (add16_f fmask f i)) as Hbyte.
  { unfold add16_f. destruct (nz (fmask &' 0x3B)); [|done]. apply byte_lor; [by apply byte_land|]. apply byte_if; [exact Bi|in_range]. }
  split; [|done]. apply masked_ext; [done|]. intros n Hn Hbit. unfold add16_f.
  assert (∀ k, Z.testbit k n = true → nz (fmask &' k) = true) as Hnz.
  { intros k Hk. apply (nz_testbit _ n); [lia|]. by rewrite Z.land_spec, Hbit, Hk. }
  assert (n = 0 ∨ n = 1 ∨ n = 2 ∨ n = 3 ∨ n = 4 ∨ n = 5 ∨ n = 6 ∨ n = 7) as En by lia.
  destruct En as [->|[->|[->|[->|[->|[->|[->| ->]]]]]]];
    rewrite ?(Hnz 0x3B), ?(Hnz (FLAG_C |' FLAG_H |' FLAG_5 |' FLAG_3)) by done; rewrite ?Z.lor_spec, ?Z.land_spec.
  1, 4, 6: by rewrite (land_same_bit _ _ 0x29 _ Xi).
  3: by rewrite HH by by apply Hnz.
  all: repeat case_match; rewrite ?Z.lor_spec, ?Z.land_spec, ?(land_bit _ 0xC6 _ Zi), ?(land_bit _ 0xC6 _ Zt), ?Z.bits_0 by done; 
    cbn [FLAG_S FLAG_Z FLAG_PV Z.lor Z.testbit]; by rewrite ?andb_true_r, ?andb_false_r, ?orb_false_r.
Qed.

Section Ops.
Context `{CE : CodeEnv} (l : layout) (Hl : layout_ok l) (slow : xstate → xstate) (Hslow : ∀ σ, rejoins l σ (slow σ)).
Context (Hmi : mirrored l = z80_mem_mirrored).
Context `{HW : Host W} (w : W) (fmask : Z) (store : bool) (Hfm : is_byte fmask).
Local Abbreviation host := (host l).
Local Abbreviation P := (phys l).
Local Abbreviation does := (does l slow).
Local Abbreviation gdoes := (gdoes l slow).
Implicit Types (σ : xstate) (c : z80_cpu) (Q : xstate → Prop) (d : z80_decoded).

(** A state whose F and MEMPTR are the interpreter's. *)
Lemma lands_host c0 c1 c' σ : host c1 σ → cpu_ok c' → rF c1 = rF c' → memptr c1 = (if store then memptr c' else memptr c0) →
  rA c' = rA c1 → rBC c' = rBC c1 → rDE c' = rDE c1 → rHL c' = rHL c1 →
  rSP c' = rSP c1 → rIX c' = rIX c1 → rIY c' = rIY c1 → mem c' = mem c1 → lands l c0 fmask store c' σ.
Proof.
  intros H Hc EF EM. intros. exists (rF c'). split_and!; [by apply ok_rF|done|].
  eapply host_ext; [exact H|..]; try done.
Qed.
Lemma lands_flags c0 c1 c' f σ : host c1 σ → is_byte f → f &' fmask = rF c' &' fmask → rF c1 = f →
  memptr c1 = (if store then memptr c' else memptr c0) →
  rA c' = rA c1 → rBC c' = rBC c1 → rDE c' = rDE c1 → rHL c' = rHL c1 →
  rSP c' = rSP c1 → rIX c' = rIX c1 → rIY c' = rIY c1 → mem c' = mem c1 → lands l c0 fmask store c' σ.
Proof.
  intros H Hf Hfm' EF EM. intros. exists f. split_and!; [done|done|]. eapply host_ext; [exact H|..]; try done.
Qed.
Lemma if_const (b : bool) (x : Z) : x = if b then x else x.
Proof. by destruct b. Qed.
(** The picture is that of [c1], and MEMPTR was not written. *)
Ltac land H := eapply lands_host; [exact H|in_range|try reflexivity; try apply if_const..].

(** ** Loads *)

Lemma reg8_of r pfx c : r8_code r → reg8_p r pfx c = Some (default 0 (reg8_p r pfx c)).
Proof.
  intros [[Hr|Hr]|Hr]; unfold reg8_p.
  - assert (r = 0 ∨ r = 1 ∨ r = 2 ∨ r = 3 ∨ r = 4 ∨ r = 5) as E by lia. decompose [or] E; by subst.
  - by subst.
  - destruct Hr as [->| ->]; done.
Qed.
Lemma r8_code_ok r : reg8_offset_ok r = true → r8_code r ∧ r ≠ 6.
Proof.
  unfold reg8_offset_ok, r8_code. destruct r as [|p|p]; [lia| |done]. do 4 (try destruct p as [p|p|]); try done; lia.
Qed.
Lemma touch_id' c : c = touch (rF c) (memptr c) c.
Proof. done. Qed.

Lemma set_reg8_p_rest r pfx v c : memptr (set_reg8_p r pfx v c) = memptr c ∧ rF (set_reg8_p r pfx v c) = rF c.
Proof. destruct (neutral_F _ (set_reg8_p_neutral r pfx v) c). done. Qed.
Lemma write_rr_rest r v c : memptr (write_rr r v c) = memptr c ∧ rF (write_rr r v c) = rF c.
Proof. destruct (neutral_F _ (write_rr_neutral r v) c). done. Qed.

(** *** MEMPTR *)

Lemma does_memptr_imm c v Q σ : host c σ → is_word v → (∀ σ', host (set_memptr v c) σ' → Q σ') → does (emit_set_memptr_imm v) Q σ.
Proof using Hl.
  intros H Hv HQ. eapply does_mov_m16_imm16; [done|side; unfold OFF_MEMPTR; lia|apply (ea_cpu l Hl); [by eapply host_rCPU|off]|].
  apply HQ. by apply host_memptr.
Qed.
Lemma does_memptr_reg c r v Q σ : host c σ → is_reg r → u16 (xr σ r) = v →
  (∀ σ', host (set_memptr v c) σ' → Q σ') → does (emit_mov_m16_r16 R_CPU X64_NOREG OFF_MEMPTR r) Q σ.
Proof using Hl.
  intros H Hr Ev HQ. eapply does_mov_m16_r16; [done|side; unfold OFF_MEMPTR; lia|apply (ea_cpu l Hl); [by eapply host_rCPU|off]|].
  rewrite (st_trunc l 2 _ (xr σ r) v).
  - apply HQ. apply host_memptr; [done|done|subst v; in_range].
  - subst v. change (2 ^ (8 * Z.of_nat 2)) with 65536. unfold u16. by rewrite Z.mod_mod.
Qed.
(** [MEMPTR = rr + 1]. *)
Lemma does_memptr_rr_plus_one c pr v Q σ : host c σ → is_reg pr → xr σ pr = v → is_word v →
  (∀ σ', host (set_memptr (u16 (v + 1)) c) σ' → Q σ') → does (emit_set_memptr_rr_plus_one pr) Q σ.
Proof using Hl.
  intros H Hr Ev Hv HQ. apply does_then. eapply does_lea_r32; [regs|side|apply lea_trunc|].
  eapply (does_memptr_reg c); [apply host_scratch; [done|regs]|regs| |exact HQ]. xs. by rewrite u16_mod32, Ev.
Qed.
(** [MEMPTR = (A << 8) | low]. *)
Lemma does_memptr_quirk_imm c lo Q σ : cpu_ok c → host c σ → is_byte lo →
  (∀ σ', host (set_memptr (word_of lo (rA c)) c) σ' → Q σ') → does (emit_set_memptr_quirk_imm lo) Q σ.
Proof using Hl.
  intros Hc H Hlo HQ. pose proof (ok_rA _ Hc) as Ha. assert (0 <= rA c <<' 8 < 65536) as Ha8.
  { rewrite Z.shiftl_mul_pow2 by lia. unfold is_byte in Ha. lia. }
  apply does_then, does_mov_r32_r32; [regs|regs|pinned_vals; in_range|]. pinned_vals.
  apply does_then. eapply does_shift_r32_imm; [side|regs|lia|xs; in_range|left; split; reflexivity|].
  intros f1. xs. rewrite (trunc_dword (rA c <<' 8)) by (unfold is_dword; lia). apply does_then, does_if; intros Hz.
  - eapply does_alu_r32_imm; [side|regs|unfold int32, is_byte in *; lia|xs; unfold is_dword; lia|by apply trunc_byte|right; left; split; reflexivity|].
    intros f2. eapply (does_memptr_reg c); [by repeat (apply host_xf || (apply host_scratch; [|regs]))|regs| |exact HQ].
    xs. rewrite Z.lor_comm. change (lo |' rA c <<' 8) with (word_of lo (rA c)). apply u16_id. in_range.
  - unfold nz in Hz. apply negb_false_iff, Z.eqb_eq in Hz as ->.
    eapply (does_memptr_reg c); [by repeat (apply host_xf || (apply host_scratch; [|regs]))|regs| |exact HQ].
    xs. change (u16 (rA c <<' 8) = word_of 0 (rA c)). unfold word_of. rewrite Z.lor_0_l. apply u16_id. exact Ha8.
Qed.
Lemma does_memptr_quirk_rr c pr v Q σ : cpu_ok c → host c σ → is_reg pr → xr σ pr = v → is_word v →
  (∀ σ', host (set_memptr (word_of (u8 (v + 1)) (rA c)) c) σ' → Q σ') → does (emit_set_memptr_quirk_rr pr) Q σ.
Proof using Hl.
  intros Hc H Hp Ev Hv HQ. pose proof (ok_rA _ Hc) as Ha. assert (0 <= rA c <<' 8 < 65536) as Ha8.
  { rewrite Z.shiftl_mul_pow2 by lia. unfold is_byte in Ha. lia. }
  apply does_then. eapply does_lea_r32; [regs|side|apply lea_trunc|].
  apply does_then, does_movzx_r32_r8; [regs|regs|]. xs.
  assert (u8 ((xr σ pr + 1) mod 4294967296) = u8 (v + 1)) as ->.
  { rewrite Ev. unfold u8. by rewrite Z.mod_mod_divide by by exists 16777216. }
  apply does_then, does_mov_r32_r32; [regs|regs|xs; pinned_vals; in_range|]. pinned_vals.
  apply does_then. eapply does_shift_r32_imm; [side|regs|lia|xs; in_range|left; split; reflexivity|].
  intros f1. xs. rewrite (trunc_dword (rA c <<' 8)) by (unfold is_dword; lia).
  apply does_then. eapply does_alu_r32_r32; [side|regs|regs|xs; in_range|xs; unfold is_dword; lia|left; split; reflexivity|].
  intros f2. eapply (does_memptr_reg c); [by repeat (apply host_xf || (apply host_scratch; [|regs]))|regs| |exact HQ].
  xs. apply u16_id. change (is_word (word_of (u8 (v + 1)) (rA c))). in_range.
Qed.

(** Without an index prefix the half registers are never IY's. *)
Lemma no_idx_pfx d : has_idx d = false → (prefix d =? 0xFD) = false.
Proof. unfold has_idx. by intros [_ H]%orb_false_iff. Qed.
Lemma reg8_p_no_idx r d c : has_idx d = false → reg8_p r (prefix d) c = reg8_p r 0 c.
Proof. intros H%no_idx_pfx. unfold reg8_p. by rewrite H. Qed.
Lemma set_reg8_p_no_idx r d v c : has_idx d = false → set_reg8_p r (prefix d) v c = set_reg8_p r 0 v c.
Proof. intros H%no_idx_pfx. unfold set_reg8_p. by rewrite H. Qed.

Lemma set_reg8_own r pfx c : cpu_ok c → r8_code r → set_reg8_p r pfx (default 0 (reg8_p r pfx c)) c = c.
Proof.
  intros Hc [[Hr|Hr]|Hr].
  - assert (r = 0 ∨ r = 1 ∨ r = 2 ∨ r = 3 ∨ r = 4 ∨ r = 5) as E by lia. decompose [or] E; by subst.
  - by subst.
  - destruct Hr as [->| ->]; unfold set_reg8_p, reg8_p; cbn [from_option id]; unfold id; destruct (pfx =? 0xFD); by rewrite word_of_split by in_range.
Qed.

(** A guest register in T1, or A in its own. *)
Lemma read_T1 c r pfx : cpu_ok c → r8_code r → let v := default 0 (reg8_p r pfx c) in
  ∃ code src, emit_read_r8 T1 r pfx = (code, src) ∧ (src = T1 ∨ src = R_A) ∧ is_byte v ∧
  ∀ σ Q, host c σ → (∀ σ', host c σ' → xr σ' src = v → (∀ q, q ≠ T1 → xr σ' q = xr σ q) → Q σ') → does code Q σ.
Proof using Hl.
  intros Hc Hr v. pose proof (reg8_of r pfx c Hr) as Ev. fold v in Ev. clearbody v.
  pose proof (does_read_r8 l Hl slow c T1 r pfx v) as Hrd. destruct (emit_read_r8 T1 r pfx) as [code src] eqn:Er.
  exists code, src. split; [done|]. cbn [fst snd] in Hrd.
  assert (src = T1 ∨ src = R_A ∧ r = 7) as Hsrc.
  { revert Er. unfold emit_read_r8. destruct (Z.eqb_spec r 7); [intros [= _ <-]; by right|].
    destruct (r8_host_pair r) as [[? []]|]; intros [= _ <-]; by left. }
  split; [tauto|]. split; [by eapply reg8_p_byte|]. intros σ Q H HQ. apply Hrd; [done|done|regs|done|]. intros σ1 Hs.
  apply HQ; [|by eapply sets_at|].
  - destruct Hsrc as [->|[-> ->]]; [eapply host_sets; [done| |done]; regs|].
    injection Ev as Ev. eapply host_ext; [by eapply host_sets_A|..]; done.
  - intros q Hq. destruct Hsrc as [->|[-> ->]]; [by eapply sets_other|].
    destruct Hs as [E _]. rewrite E. destruct (Z.eqb_spec q R_A) as [->|]; [|done]. injection Ev as <-. symmetry. by eapply host_rA.
Qed.

Section Op.
Set Default Proof Using "All".
Context (c : z80_cpu) (σ : xstate) (Hc : cpu_ok c) (Hh : host c σ).
Local Abbreviation lands' := (lands l c fmask store).

Lemma op_ld_r_n d : reg8_offset_ok (reg1 d) = true → is_byte (Decode.imm8 d) →
  does (emit_write_r8_imm (reg1 d) (prefix d) (Decode.imm8 d)) (lands' (op_LD_R_N d (c, w)).1) σ.
Proof using All.
  intros [Hr H6]%r8_code_ok Hi. apply (does_write_r8_imm l Hl slow c); try done. intros σ' H'.
  unfold op_LD_R_N, write_reg8. rewrite (proj2 (Z.eqb_neq _ 6)) by done. land H'.
  destruct (set_reg8_p_rest (reg1 d) (prefix d) (Decode.imm8 d) c) as [E _]. cbn [on_cpu fst]. rewrite E. apply if_const.
Qed.

(** *** Register and memory forms of LD *)

Lemma mem_w_1 a v : is_word a → (mem_w a v (c, w)).1 = set_mem (mset a v (mem c)) c.
Proof. intros Ha. unfold mem_w. cbn [fst snd]. by rewrite u16_id. Qed.
Lemma rHL_word : is_word (rHL c). Proof. in_range. Qed.

(** Landing after a store, and after a register write. *)
Lemma land_store a v c' σ' : host (set_mem (mset a v (mem c)) c) σ' → is_byte v → c' = set_mem (mset a v (mem c)) c → lands' c' σ'.
Proof. intros H Hv ->. land H. Qed.
Lemma land_reg r pfx v c' σ' : host (set_reg8_p r pfx v c) σ' → is_byte v → c' = set_reg8_p r pfx v c → lands' c' σ'.
Proof.
  intros H Hv ->. pose proof (ok_set_reg8_p r pfx v c Hc Hv) as Hc'. land H.
  destruct (set_reg8_p_rest r pfx v c) as [E _]. rewrite E. apply if_const.
Qed.
Lemma op_ld_r_r d : (if reg1 d =? 6 then negb (has_idx d) && reg8_offset_ok (reg2 d)
    else if reg2 d =? 6 then negb (has_idx d) && reg8_offset_ok (reg1 d)
    else reg8_offset_ok (reg1 d) && reg8_offset_ok (reg2 d)) = true →
  ∃ k, (k <= 2)%nat ∧ gdoes (gen_ld_r_r d) k (lands' (op_LD_R_R d (c, w)).1) σ.
Proof.
  intros Hacc. unfold gen_ld_r_r, op_LD_R_R, write_reg8, read_reg8. cbn [fst snd].
  destruct (Z.eqb_spec (reg1 d) 6) as [E6|H6].
  { apply andb_true_iff in Hacc as [Hx [Hr2 H26]%r8_code_ok]. apply negb_true_iff in Hx.
    destruct (Z.eqb_spec (reg2 d) 6) as [|_]; [done|]. exists (0 + 1)%nat. split; [lia|].
    destruct (read_T1 c (reg2 d) 0 Hc Hr2) as (code & src & -> & Hsrc & Hv & Hrd).
    apply gdoes_then, gdoes_lift, Hrd; [done|]. intros σ1 H1 E1 _.
    eapply (gdoes_storeb l Hl slow Hslow c); [done|regs|regs|destruct Hsrc; regs|pinned_vals; reflexivity|in_range|exact E1|done|].
    intros σ' H'. eapply land_store; [exact H'|done|]. rewrite effective_addr_plain, mem_w_1 by (done || in_range).
    by rewrite (reg8_p_no_idx (reg2 d) d) by done. }
  exists 0%nat. split; [lia|]. apply gdoes_lift. destruct (Z.eqb_spec (reg2 d) 6) as [E26|H26].
  { apply andb_true_iff in Hacc as [Hx [Hr1 _]%r8_code_ok]. apply negb_true_iff in Hx.
    assert (is_byte (mget (mem c) (rHL c))) as Hv by in_range.
    rewrite effective_addr_plain by done. unfold on_cpu. cbn [fst snd]. rewrite set_reg8_p_no_idx by done. destruct (Z.eqb_spec (reg1 d) 7) as [E7|H7].
    - eapply (does_load l Hl slow c); [done|done|regs|regs|regs|pinned_vals; reflexivity|in_range|].
      eapply (land_reg 7 0); [by apply host_A|exact Hv|]. by rewrite E7.
    - apply does_then. eapply (does_load l Hl slow c); [done|done|regs|regs|regs|pinned_vals; reflexivity|in_range|].
      apply (does_write_r8 l Hl slow c _ _ _ (mget (mem c) (rHL c))); [done|apply host_scratch; [done|regs]|done|left; regs|by xs|done|].
      intros σ' H' _. by eapply land_reg. }
  apply andb_true_iff in Hacc as [[Hr1 _]%r8_code_ok [Hr2 _]%r8_code_ok].
  destruct (Z.eqb_spec (reg1 d) (reg2 d)) as [E12|H12].
  { apply does_none. pose proof (reg8_of (reg2 d) (prefix d) c Hr2) as Ev.
    eapply (land_reg (reg1 d) (prefix d)); [|by eapply reg8_p_byte|reflexivity].
    by rewrite E12, set_reg8_own. }
  destruct (Z.eqb_spec (reg1 d) 7) as [E7|H7].
  - pose proof (reg8_of (reg2 d) (prefix d) c Hr2) as Ev. set (v := default 0 _) in *.
    assert (is_byte v) as Hv by by eapply reg8_p_byte.
    eapply (does_read_r8 l Hl slow c); [done|done|regs|exact Ev|]. intros σ1 Hs.
    assert ((emit_read_r8 R_A (reg2 d) (prefix d)).2 = R_A) as ER.
    { unfold emit_read_r8. destruct (reg2 d =? 7); [done|]. by destruct (r8_host_pair (reg2 d)) as [[? []]|]. }
    rewrite ER in Hs. eapply (land_reg 7 0); [by eapply host_sets_A|exact Hv|]. by rewrite E7.
  - destruct (read_T1 c (reg2 d) (prefix d) Hc Hr2) as (code & src & -> & Hsrc & Hv & Hrd).
    apply does_then, Hrd; [done|]. intros σ1 H1 E1 _.
    eapply (does_write_r8 l Hl slow c); [done|exact H1|done|destruct Hsrc; [left; regs|by right]|exact E1|done|].
    intros σ' H' _. by eapply land_reg.
Qed.

Lemma write_rr_host pr v σ' r : host c σ → is_word v → rr_host_p r 0 = Some pr → σ' = set_reg pr v σ → host (write_rr r v c) σ'.
Proof.
  intros H Hv Hp ->. unfold rr_host_p in Hp. cbn [andb orb Z.eqb] in Hp. rewrite andb_false_r in Hp.
  destruct r as [|p|p]; [| |done]; [|do 2 (try destruct p as [p|p|]); try done]; injection Hp as <-; cbn [write_rr].
  - by apply host_BC.
  - by apply host_SP.
  - by apply host_HL.
  - by apply host_DE.
Qed.
(** IX or IY for HL under an index prefix, and their word in the context. *)
Lemma rr_host_idx r d : 0 <= r <= 3 →
  rr_host_p r (prefix d) = if (r =? 2) && has_idx d then None else rr_host_p r 0.
Proof.
  intros Hr. unfold rr_host_p, has_idx. destruct ((r =? 2) && _) eqn:E; [done|]. cbn [andb orb Z.eqb]. by rewrite andb_false_r.
Qed.
Lemma rr_host_some r : 0 <= r <= 3 → ∃ pr, rr_host_p r 0 = Some pr ∧ is_reg pr ∧ xr σ pr = read_rr r c ∧ ¬ scratch pr ∧ pr ≠ R_CPU.
Proof.
  intros Hr. assert (r = 0 ∨ r = 1 ∨ r = 2 ∨ r = 3) as E by lia.
  decompose [or] E; subst; eexists; (split; [reflexivity|]); (split; [regs|]); (split; [pinned_vals; done|]); split; regs.
Qed.
Definition set_idx (pfx v : Z) (c : z80_cpu) : z80_cpu := if pfx =? 0xFD then set_rIY v c else set_rIX v c.
Lemma does_idx_store_imm pfx v Q σ1 : host c σ1 → is_word v → (∀ σ', host (set_idx pfx v c) σ' → Q σ') →
  does (emit_mov_m16_imm16 R_CPU X64_NOREG (idx_reg_offset pfx) v) Q σ1.
Proof.
  intros H Hv HQ. unfold idx_reg_offset, set_idx in *. destruct (pfx =? 0xFD);
    (eapply does_mov_m16_imm16; [done|side; off|apply (ea_cpu l Hl); [by eapply host_rCPU|off]|]); apply HQ; [by apply host_IY|by apply host_IX].
Qed.
Lemma does_idx_store c1 pfx r v Q σ1 : host c1 σ1 → is_reg r → u16 (xr σ1 r) = v →
  (∀ σ', host (set_idx pfx v c1) σ' → (∀ q, xr σ' q = xr σ1 q) → Q σ') →
  does (emit_mov_m16_r16 R_CPU X64_NOREG (idx_reg_offset pfx) r) Q σ1.
Proof.
  intros H Hr Ev HQ. assert (is_word v) as Hv by (subst v; in_range).
  assert (∀ a, st P 2 a (xr σ1 r) σ1 = st P 2 a v σ1) as Est.
  { intros a. apply st_trunc. subst v. change (2 ^ (8 * Z.of_nat 2)) with 65536. unfold u16. by rewrite Z.mod_mod. }
  unfold idx_reg_offset, set_idx in *. destruct (pfx =? 0xFD);
    (eapply does_mov_m16_r16; [done|side; off|apply (ea_cpu l Hl); [by eapply host_rCPU|off]|]);
    rewrite Est; apply HQ; try done; [by apply host_IY|by apply host_IX].
Qed.
Lemma set_idx_eq d v c1 : has_idx d = true → set_idx (prefix d) v c1 = set_idx16 (prefix d) v c1.
Proof.
  unfold has_idx, set_idx, set_idx16. destruct (Z.eqb_spec (prefix d) 0xDD) as [E|]; [by rewrite E|]. cbn [orb]. by intros ->.
Qed.
Lemma idx16_eq d c1 : has_idx d = true → idx16 (prefix d) c1 = idx_value (prefix d) c1.
Proof.
  unfold has_idx, idx_value, idx16. destruct (Z.eqb_spec (prefix d) 0xDD) as [E|]; [by rewrite E|]. cbn [orb]. by intros ->.
Qed.
Lemma idx16_plain d c1 : has_idx d = false → idx16 (prefix d) c1 = rHL c1.
Proof. unfold has_idx, idx16. by intros [-> ->]%orb_false_iff. Qed.
Lemma set_idx16_plain d v c1 : has_idx d = false → set_idx16 (prefix d) v c1 = set_HL v c1.
Proof. unfold has_idx, set_idx16. by intros [-> ->]%orb_false_iff. Qed.
Lemma set_idx_rest pfx v c1 : memptr (set_idx pfx v c1) = memptr c1.
Proof. unfold set_idx. by destruct (pfx =? 0xFD). Qed.
Lemma ok_set_idx pfx v c1 : cpu_ok c1 → is_word v → cpu_ok (set_idx pfx v c1).
Proof. unfold set_idx. intros. destruct (pfx =? 0xFD); in_range. Qed.
(** Landing on a state that is the one of the picture. *)
Lemma land_same c' σ' : host c' σ' → cpu_ok c' → memptr c' = memptr c → lands' c' σ'.
Proof. intros H H' E. eapply lands_host; try exact H; try done. rewrite E. apply if_const. Qed.

Lemma op_ld_rr_nn d : (reg1 d <=? 3) = true → 0 <= reg1 d → is_word (imm16 d) →
  does (match rr_host_p (reg1 d) (prefix d) with
        | Some host => emit_mov_r32_imm32 host (imm16 d)
        | None => emit_mov_m16_imm16 R_CPU X64_NOREG (idx_reg_offset (prefix d)) (imm16 d)
        end) (lands' (op_LD_RR_NN d c)) σ.
Proof.
  intros H3%Z.leb_le H0 Hi. rewrite rr_host_idx by lia. unfold op_LD_RR_NN.
  destruct ((reg1 d =? 2) && has_idx d) eqn:E.
  - apply andb_true_iff in E as [E2%Z.eqb_eq Hx]. rewrite E2. cbn [Z.eqb Pos.eqb andb].
    apply does_idx_store_imm; [done|done|]. intros σ' H'. 
    assert ((if prefix d =? 0xDD then set_rIX (imm16 d) c else if prefix d =? 0xFD then set_rIY (imm16 d) c else write_rr 2 (imm16 d) c)
      = set_idx (prefix d) (imm16 d) c) as ->.
    { unfold has_idx in Hx. unfold set_idx. destruct (Z.eqb_spec (prefix d) 0xDD) as [->|]; [done|]. cbn [orb] in Hx. by rewrite Hx. }
    apply land_same; [done|by apply ok_set_idx|apply set_idx_rest].
  - destruct (rr_host_some (reg1 d) ltac:(lia)) as (pr & Ep & Hpr & _). rewrite Ep.
    apply does_mov_r32_imm32; [done|in_range|].
    assert ((if reg1 d =? 3 then set_rSP (imm16 d) c
      else if (reg1 d =? 2) && (prefix d =? 0xDD) then set_rIX (imm16 d) c
      else if (reg1 d =? 2) && (prefix d =? 0xFD) then set_rIY (imm16 d) c
      else write_rr (reg1 d) (imm16 d) c) = write_rr (reg1 d) (imm16 d) c) as ->.
    { destruct (Z.eqb_spec (reg1 d) 3) as [->|]; [done|]. destruct (reg1 d =? 2); [|done]. cbn [andb] in *.
      unfold has_idx in E. apply orb_false_iff in E as [-> ->]. done. }
    apply land_same; [by eapply write_rr_host|by apply ok_write_rr|by apply write_rr_rest].
Qed.

Definition disp_ok d : Prop := -128 <= disp d <= 127.
Lemma ea_word d : is_word (effective_addr d (rHL c) c).
Proof. apply effective_addr_word; in_range. Qed.
(** T2 holds the address of an indexed operand. *)
Lemma does_ea d Q : has_idx d = true → disp_ok d →
  (∀ σ', host c σ' → xr σ' T2 = effective_addr d (rHL c) c → Q σ') → does (emit_idx_eff_addr T2 (prefix d) (disp d)) Q σ.
Proof.
  intros Hx Hd HQ. apply (does_idx_eff_addr l Hl slow c T2 d (rHL c)); [done|done|regs|done|done|].
  intros σ' Hs. apply HQ; [|by eapply sets_at]. eapply host_sets; [done| |done]. regs.
Qed.
Lemma write_6 d v : (write_reg8 6 v d (c, w)).1 = set_mem (mset (effective_addr d (rHL c) c) v (mem c)) c.
Proof. apply mem_w_1, ea_word. Qed.

Lemma op_ld_hl_n d : has_idx d = false → is_byte (Decode.imm8 d) →
  gdoes (emit_guest_storeb_imm_smc (Decode.imm8 d) R_HL) 1 (lands' (op_LD_HL_N d (c, w)).1) σ.
Proof.
  intros Hx Hi. eapply (gdoes_storeb_imm l Hl slow Hslow c); [done|regs|regs|pinned_vals; reflexivity|in_range|done|].
  intros σ' H'. eapply land_store; [exact H'|done|]. unfold op_LD_HL_N. by rewrite write_6, effective_addr_plain.
Qed.
Lemma op_ld_a_hl_ind d : has_idx d = true → disp_ok d →
  does (emit_idx_eff_addr T2 (prefix d) (disp d) +> emit_movzx_r32_m8 R_A R_MEM T2 0) (lands' (op_LD_A_HL_ind d c)) σ.
Proof.
  intros Hx Hd. apply does_then, does_ea; [done|done|]. intros σ1 H1 E1.
  eapply (does_load l Hl slow c); [done|exact H1|regs|regs|regs|exact E1|apply ea_word|].
  apply (land_reg 7 0 (mget (mem c) (effective_addr d (rHL c) c))); [by apply host_A|in_range|done].
Qed.
Lemma op_ld_hl_a_ind d : has_idx d = true → disp_ok d →
  gdoes (lift (emit_idx_eff_addr T2 (prefix d) (disp d)) +>> emit_guest_storeb_smc R_A T2) 1 (lands' (op_LD_HL_A_ind d (c, w)).1) σ.
Proof.
  intros Hx Hd. apply (gdoes_then l slow _ _ 0 1), gdoes_lift, does_ea; [done|done|]. intros σ1 H1 E1.
  eapply (gdoes_storeb l Hl slow Hslow c); [exact H1|regs|regs|regs|exact E1|apply ea_word|by eapply host_rA|in_range|].
  intros σ' H'. eapply land_store; [exact H'|in_range|]. apply write_6.
Qed.
Lemma op_ld_r_hl_ind d : has_idx d = true → disp_ok d → 0 <= reg2 d <= 7 → reg8_offset_ok (reg2 d) = true →
  does (emit_idx_eff_addr T2 (prefix d) (disp d) +>
        if reg2 d =? 7 then emit_movzx_r32_m8 R_A R_MEM T2 0
        else emit_movzx_r32_m8 T1 R_MEM T2 0 +> emit_write_r8 (reg2 d) 0 T1) (lands' (op_LD_R_HL_ind d (c, w)).1) σ.
Proof.
  intros Hx Hd Hr7 [Hr H6]%r8_code_ok. apply does_then, does_ea; [done|done|]. intros σ1 H1 E1.
  assert (is_byte (mget (mem c) (effective_addr d (rHL c) c))) as Hv by in_range.
  assert ((op_LD_R_HL_ind d (c, w)).1 = set_reg8_p (reg2 d) 0 (mget (mem c) (effective_addr d (rHL c) c)) c) as ->.
  { unfold op_LD_R_HL_ind, write_reg8. rewrite (proj2 (Z.eqb_neq _ 6)) by done. cbn [fst].
    assert (reg2 d = 0 ∨ reg2 d = 1 ∨ reg2 d = 2 ∨ reg2 d = 3 ∨ reg2 d = 4 ∨ reg2 d = 5 ∨ reg2 d = 7) as E by lia.
    decompose [or] E; by match goal with H : reg2 d = _ |- _ => rewrite H end. }
  destruct (Z.eqb_spec (reg2 d) 7) as [E7|H7].
  - eapply (does_load l Hl slow c); [done|exact H1|regs|regs|regs|exact E1|apply ea_word|].
    eapply (land_reg 7 0); [by apply host_A|exact Hv|]. by rewrite E7.
  - apply does_then. eapply (does_load l Hl slow c); [done|exact H1|regs|regs|regs|exact E1|apply ea_word|].
    eapply (does_write_r8 l Hl slow c); [done|apply host_scratch; [done|regs]|done|left; regs|by xs|done|].
    intros σ' H' _. by eapply land_reg.
Qed.
Lemma op_ld_hl_r_ind d : has_idx d = true → disp_ok d → 0 <= reg2 d <= 7 → reg8_offset_ok (reg2 d) = true →
  gdoes (let '(code, src) := emit_read_r8 T1 (reg2 d) 0 in
         lift (emit_idx_eff_addr T2 (prefix d) (disp d) +> code) +>> emit_guest_storeb_smc src T2) 1
    (lands' (op_LD_HL_R_ind d (c, w)).1) σ.
Proof.
  intros Hx Hd Hr7 [Hr H6]%r8_code_ok. destruct (read_T1 c (reg2 d) 0 Hc Hr) as (code & src & -> & Hsrc & Hv & Hrd).
  apply (gdoes_then l slow _ _ 0 1), gdoes_lift, does_then, does_ea; [done|done|]. intros σ1 H1 E1.
  apply Hrd; [done|]. intros σ2 H2 E2 Ek.
  eapply (gdoes_storeb l Hl slow Hslow c); [exact H2|regs|regs|destruct Hsrc; regs|rewrite Ek by regs; exact E1|apply ea_word|exact E2|done|].
  intros σ' H'. eapply land_store; [exact H'|done|]. unfold op_LD_HL_R_ind. rewrite write_6. unfold read_reg8.
  rewrite (proj2 (Z.eqb_neq _ 6)) by done. cbn [fst].
  assert (reg2 d = 0 ∨ reg2 d = 1 ∨ reg2 d = 2 ∨ reg2 d = 3 ∨ reg2 d = 4 ∨ reg2 d = 5 ∨ reg2 d = 7) as E by lia.
  decompose [or] E; by match goal with H : reg2 d = _ |- _ => rewrite H end.
Qed.
Lemma op_ld_hl_n_ind d : has_idx d = true → disp_ok d → is_byte (Decode.imm8 d) →
  gdoes (lift (emit_idx_eff_addr T2 (prefix d) (disp d)) +>> emit_guest_storeb_imm_smc (Decode.imm8 d) T2) 1
    (lands' (op_LD_HL_N d (c, w)).1) σ.
Proof.
  intros Hx Hd Hi. apply (gdoes_then l slow _ _ 0 1), gdoes_lift, does_ea; [done|done|]. intros σ1 H1 E1.
  eapply (gdoes_storeb_imm l Hl slow Hslow c); [exact H1|regs|regs|exact E1|apply ea_word|done|].
  intros σ' H'. eapply land_store; [exact H'|done|]. apply write_6.
Qed.

(** *** A and memory at BC, DE and nn *)

(** MEMPTR is written or not. *)
Lemma land_memptr c1 p c' σ' : cpu_ok c1 → is_word p → rF c' = rF c1 → memptr c' = p → memptr c1 = memptr c →
  rA c' = rA c1 → rBC c' = rBC c1 → rDE c' = rDE c1 → rHL c' = rHL c1 →
  rSP c' = rSP c1 → rIX c' = rIX c1 → rIY c' = rIY c1 → mem c' = mem c1 →
  host (if store then set_memptr p c1 else c1) σ' → lands' c' σ'.
Proof.
  intros H1 Hp EF EM E1. intros. exists (rF c1). split_and!; [by apply ok_rF|by rewrite EF|].
  eapply host_ext; [eassumption|..]; destruct store; try done.
Qed.
Lemma op_ld_a_rr pr v : is_reg pr → pr ≠ 4 → pr ≠ R_A → xr σ pr = v → is_word v →
  does (emit_movzx_r32_m8 R_A R_MEM pr 0 +> emit_if store (emit_set_memptr_rr_plus_one pr))
    (lands' (set_memptr (u16 (v + 1)) (set_rA (mget (mem c) v) c))) σ.
Proof.
  intros Hp H4 HA Ev Hv. apply does_then. eapply (does_load l Hl slow c); [done|done|regs|done|done|exact Ev|done|].
  pose proof (host_A l c σ (mget (mem c) v) Hh) as H1. apply does_if; intros Hst.
  - eapply does_memptr_rr_plus_one; [exact H1|done|xs; eqs; exact Ev|done|]. intros σ' H'.
    apply (land_memptr (set_rA (mget (mem c) v) c) (u16 (v + 1))); try done; [in_range|in_range|by rewrite Hst].
  - apply (land_memptr (set_rA (mget (mem c) v) c) (u16 (v + 1))); try done; [in_range|in_range|by rewrite Hst].
Qed.
Lemma op_ld_rr_a pr v c' : is_reg pr → pr ≠ 4 → pr ≠ R_A → ¬ scratch pr → pr ∈ [R_BC; R_DE] → xr σ pr = v → is_word v →
  c' = set_memptr (word_of (u8 (v + 1)) (rA c)) (set_mem (mset v (rA c) (mem c)) c) →
  gdoes (emit_guest_storeb_smc R_A pr +>> lift (emit_if store (emit_set_memptr_quirk_rr pr))) 1 (lands' c') σ.
Proof.
  intros Hp H4 HA Hns Hin Ev Hv ->. eapply gdoes_eq; [apply (gdoes_then l slow _ _ 1 0)|lia].
  eapply (gdoes_storeb l Hl slow Hslow c); [done|done|done|regs|exact Ev|done|by eapply host_rA|in_range|].
  intros σ1 H1. set (c1 := set_mem (mset v (rA c) (mem c)) c) in *. assert (cpu_ok c1) as Hc1 by (subst c1; in_range).
  apply gdoes_lift, does_if; intros Hst.
  - eapply (does_memptr_quirk_rr c1 pr v); [done|done|done| |done|].
    + rewrite <- Ev. rewrite !elem_of_cons, elem_of_nil in Hin. destruct Hin as [->|[->|[]]]; pinned_vals; done.
    + intros σ' H'. apply (land_memptr c1 (word_of (u8 (v + 1)) (rA c))); try done; [in_range|by rewrite Hst].
  - apply (land_memptr c1 (word_of (u8 (v + 1)) (rA c))); try done; [in_range|by rewrite Hst].
Qed.
Lemma op_ld_a_nn d : is_word (imm16 d) →
  does (emit_movzx_r32_m8 R_A R_MEM X64_NOREG (imm16 d) +> emit_if store (emit_set_memptr_imm (u16 (imm16 d + 1))))
    (lands' (op_LD_A_NN d c)) σ.
Proof.
  intros Hi. apply does_then. eapply (does_load_abs l Hl slow c); [done|done|regs|done|].
  pose proof (host_A l c σ (mget (mem c) (imm16 d)) Hh) as H1. apply does_if; intros Hst.
  - eapply does_memptr_imm; [exact H1|in_range|]. intros σ' H'.
    apply (land_memptr (set_rA (mget (mem c) (imm16 d)) c) (u16 (imm16 d + 1))); try done; [in_range|in_range|by rewrite Hst].
  - apply (land_memptr (set_rA (mget (mem c) (imm16 d)) c) (u16 (imm16 d + 1))); try done; [in_range|in_range|by rewrite Hst].
Qed.

Lemma does_store_abs c1 a r v Q σ1 : host c1 σ1 → is_reg r → is_word a → xr σ1 r = v →
  (∀ σ', host (set_mem (mset a (u8 v) (mem c1)) c1) σ' → (∀ q, xr σ' q = xr σ1 q) → Q σ') →
  does (emit_mov_m8_r8 R_MEM X64_NOREG a r) Q σ1.
Proof.
  intros H Hr Ha Ev HQ. eapply does_mov_m8_r8; [done|side|apply (ea_mem_abs l Hl); [by eapply host_rMEM|done]|].
  rewrite Ev. apply HQ; [|done]. rewrite <- (st8_u8 l). by apply host_mem; [..|in_range].
Qed.
Lemma op_ld_nn_a d : is_word (imm16 d) →
  gdoes (lift (emit_mov_m8_r8 R_MEM X64_NOREG (imm16 d) R_A) +>> emit_smc_check_imm (imm16 d) 1 +>>
         lift (emit_if store (emit_set_memptr_quirk_imm (u8 ((imm16 d + 1) &' 0xFF))))) 1 (lands' (op_LD_NN_A d (c, w)).1) σ.
Proof.
  intros Hi. apply (gdoes_then l slow _ _ 0 1), gdoes_lift. eapply does_store_abs; [done|regs|done|by eapply host_rA|].
  rewrite u8_id by in_range. intros σ1 H1 _. set (c1 := set_mem (mset (imm16 d) (rA c) (mem c)) c) in *.
  assert (cpu_ok c1) as Hc1 by (subst c1; in_range).
  eapply gdoes_eq; [apply (gdoes_then l slow _ _ 1 0)|lia].
  eapply (gdoes_smc_check_imm l slow Hslow c1); [done|done|]. intros σ2 H2.
  assert ((op_LD_NN_A d (c, w)).1 = set_memptr (word_of (u8 (imm16 d + 1)) (rA c)) c1) as ->.
  { unfold op_LD_NN_A, mem_w. cbn [fst snd on_cpu]. by rewrite u16_id. }
  rewrite lo_land, (u8_id (u8 (imm16 d + 1))) by in_range.
  apply gdoes_lift, does_if; intros Hst.
  - eapply (does_memptr_quirk_imm c1); [done|done|in_range|]. intros σ' H'.
    apply (land_memptr c1 (word_of (u8 (imm16 d + 1)) (rA c))); try done; [in_range|by rewrite Hst].
  - apply (land_memptr c1 (word_of (u8 (imm16 d + 1)) (rA c))); try done; [in_range|by rewrite Hst].
Qed.

(** *** 16-bit memory *)

Lemma set_idx16_rest pfx v c1 : memptr (set_idx16 pfx v c1) = memptr c1 ∧ rF (set_idx16 pfx v c1) = rF c1.
Proof. destruct (neutral_F _ (set_idx16_neutral pfx v) c1). done. Qed.
(** The word at nn: whole, or byte by byte at FFFF. *)
Lemma does_load16_abs dst nn Q σ1 : host c σ1 → is_reg dst → dst ≠ T0 → dst ≠ R_MEM → is_word nn →
  (∀ σ', keeps [dst; T0] σ1 σ' → xr σ' dst = mget16 (mem c) nn → Q σ') →
  does (if negb (nn =? 0xFFFF) then emit_movzx_r32_m16 dst R_MEM X64_NOREG nn
        else emit_movzx_r32_m8 dst R_MEM X64_NOREG nn +> emit_movzx_r32_m8 T0 R_MEM X64_NOREG (u16 (nn + 1)) +>
             emit_shl_r32_imm T0 8 +> emit_alu_r32_r32 X64_ALU_OR dst T0) Q σ1.
Proof.
  intros H Hd H0 HM Hn HQ. pose proof (ok_mem _ Hc) as Hmem. destruct (Z.eqb_spec nn 0xFFFF) as [->|Hne]; cbn [negb].
  - apply does_then, (does_load_abs l Hl slow c); [done|done|done|by vm_compute|].
    change (u16 (0xFFFF + 1)) with 0. apply does_then.
    eapply does_movzx_r32_m8; [regs|side| |by apply mget_byte|].
    { transitivity (get P B8 (mem_op R_MEM X64_NOREG 0) σ1); [|apply (get_guest_abs l Hl c σ1 H); by vm_compute].
      cbn [get mem_op index_of X64_NOREG nbytes_of ld]. unfold ld8, ea. xs. by eqs. }
    apply does_then. eapply does_shift_r32_imm; [side|regs|lia| |left; split; reflexivity|].
    { xs. apply byte_dword, mget_byte, Hmem. }
    intros f1. eapply does_alu_r32_r32; [side|done|regs| | |left; split; reflexivity|].
    { xs. eqs. apply byte_dword, mget_byte, Hmem. }
    { xs. apply trunc_range. }
    intros f2. xs. eqs. rewrite shl8_or by by apply mget_byte. apply HQ.
    + split; [|done]. intros q Hq. rewrite !not_elem_of_cons in Hq. destruct Hq as (? & ? & _). xs. by eqs.
    + xs. eqs. done.
  - eapply does_movzx_r32_m16; [done|side|by apply (get_guest16_abs l Hl c σ1 Hc H)|by apply mget16_word|].
    apply HQ; [|xs; by eqs]. apply keeps_set. by left.
Qed.
Lemma op_ld_hl_indnn d : is_word (imm16 d) → does (gen_ld_hl_indnn d store) (lands' (op_LD_HL_indNN d c)) σ.
Proof.
  intros Hi. unfold gen_ld_hl_indnn. cbv zeta. set (v := mget16 (mem c) (imm16 d)).
  assert (is_word v) as Hv by (subst v; in_range).
  assert (∀ σ1 c1, host c1 σ1 → c1 = set_idx16 (prefix d) v c →
    does (emit_if store (emit_set_memptr_imm (u16 (imm16 d + 1)))) (lands' (op_LD_HL_indNN d c)) σ1) as Hend.
  { intros σ1 c1 H1 E1. assert (cpu_ok c1) as Hc1 by (subst c1; by apply ok_set_idx16).
    assert (memptr c1 = memptr c) as Em by (subst c1; by apply set_idx16_rest).
    assert (op_LD_HL_indNN d c = set_memptr (u16 (imm16 d + 1)) c1) as -> by (by subst c1).
    apply does_if; intros Hst.
    - eapply does_memptr_imm; [exact H1|in_range|]. intros σ' H'.
      apply (land_memptr c1 (u16 (imm16 d + 1))); try done; [in_range|by rewrite Hst].
    - apply (land_memptr c1 (u16 (imm16 d + 1))); try done; [in_range|by rewrite Hst]. }
  destruct (has_idx d) eqn:Hx.
  - apply does_then, does_load16_abs; [done|regs|regs|regs|done|]. intros σ1 K1 E1.
    apply does_then, does_if; [|done]. intros _.
    eapply (does_idx_store c); [|regs|rewrite E1; by apply u16_id|].
    + eapply host_keeps; [exact Hh| |exact K1]. repeat constructor; regs.
    + intros σ2 H2 _. eapply Hend; [exact H2|]. by apply set_idx_eq.
  - apply does_then, does_load16_abs; [done|regs|regs|regs|done|]. intros σ1 K1 E1. apply does_then, does_if; [done|]. intros _.
    eapply (Hend σ1 (set_HL v c)); [|by rewrite set_idx16_plain].
    destruct K1 as [Ek Em]. eapply host_same; [by apply (host_HL l c σ v)| |intros a; apply Em].
    intros g Hg. cbn [xr set_reg]. unfold upd. destruct (Z.eqb_spec g R_HL) as [->|Hne]; [exact E1|]. apply Ek.
    rewrite !not_elem_of_cons. split_and!; [done| |apply not_elem_of_nil]. intros ->.
    apply (scratch_not_guest T0 T0) in Hg; [|regs]. by rewrite Z.eqb_refl in Hg.
Qed.

Definition gdo (g : generator) Q σ : Prop := ∃ k, (k <= 2)%nat ∧ gdoes g k Q σ.
(** The two bytes of [src] at nn, with their checks: at FFFF one by one, the
    second byte taken from [src] after the first check, so that [src] has to
    be HL there and not a scratch register. *)
Definition nn_stores (nn src : Z) : generator :=
  if negb (nn =? 0xFFFF) then lift (emit_mov_m16_r16 R_MEM X64_NOREG nn src) +>> emit_smc_check_imm nn 2
  else
    lift (emit_mov_m8_r8 R_MEM X64_NOREG nn src) +>> emit_smc_check_imm nn 1 +>>
    lift (emit_mov_r32_r32 T3 src +> emit_shr_r32_imm T3 8 +> emit_mov_m8_r8 R_MEM X64_NOREG (u16 (nn + 1)) T3) +>>
    emit_smc_check_imm (u16 (nn + 1)) 1.
Lemma gdoes_nn_stores nn src v Q σ1 : host c σ1 → is_word nn → is_reg src → xr σ1 src = v → is_word v →
  (nn = 0xFFFF → src = R_HL) → (∀ σ', host (set_mem (mset16 nn v (mem c)) c) σ' → Q σ') →
  ∃ k, (k <= 2)%nat ∧ gdoes (nn_stores nn src) k Q σ1.
Proof.
  intros H Hn Hs Ev Hv Hff HQ. unfold nn_stores. destruct (Z.eqb_spec nn 0xFFFF) as [E|Hne]; cbn [negb].
  - exists (0 + (1 + (0 + 1)))%nat. split; [lia|]. specialize (Hff E) as ->.
    apply gdoes_then, gdoes_lift. eapply does_store_abs; [done|done|done|exact Ev|]. intros σ2 H2 _.
    set (c2 := set_mem _ c) in H2.
    apply gdoes_then, (gdoes_smc_check_imm l slow Hslow c2); [done|done|]. intros σ3 H3.
    assert (xr σ3 R_HL = v) as E3 by (rewrite <- Ev; pinned_vals; done).
    apply gdoes_then, gdoes_lift, does_seq2. eapply does_high; [regs|regs|exact E3|done|]. intros σ4 S4.
    eapply (does_store_abs c2); [|regs|in_range|by eapply sets_at|].
    { eapply host_sets; [exact H3| |exact S4]. regs. }
    intros σ5 H5 _. rewrite u8_id in H5 by in_range.
    eapply (gdoes_smc_check_imm l slow Hslow); [exact H5|in_range|]. intros σ6 H6. by apply HQ.
  - exists (0 + 1)%nat. split; [lia|]. apply gdoes_then, gdoes_lift.
    eapply does_mov_m16_r16; [done|side|apply (ea_mem_abs l Hl); [by eapply host_rMEM|done]|]. rewrite Ev.
    eapply (gdoes_smc_check_imm l slow Hslow); [|done|exact HQ]. apply host_store16; [done|done|done|done|by right].
Qed.
Lemma op_ld_nn_hl d : is_word (imm16 d) → (has_idx d = true → imm16 d ≠ 0xFFFF) →
  gdo (gen_ld_nn_hl d store) (lands' (op_LD_NN_HL d (c, w)).1) σ.
Proof.
  intros Hi Hff. set (nn := imm16 d) in *. set (v := idx16 (prefix d) c).
  assert (is_word v) as Hv by (subst v; by apply idx16_word).
  set (c1 := set_mem (mset16 nn v (mem c)) c).
  assert (cpu_ok c1) as Hc1 by (subst c1; unfold mset16; in_range).
  assert ((op_LD_NN_HL d (c, w)).1 = set_memptr (u16 (nn + 1)) c1) as ->.
  { unfold op_LD_NN_HL. fold nn v. unfold on_cpu. cbn [fst]. by rewrite mem_w16_mem. }
  assert (∀ σ1, host c1 σ1 → gdoes (lift (emit_if store (emit_set_memptr_imm (u16 (nn + 1))))) 0 (lands' (set_memptr (u16 (nn + 1)) c1)) σ1) as Hend.
  { intros σ1 H1. apply gdoes_lift, does_if; intros Hst.
    - eapply does_memptr_imm; [exact H1|in_range|]. intros σ' H'.
      apply (land_memptr c1 (u16 (nn + 1))); try done; [in_range|by rewrite Hst].
    - apply (land_memptr c1 (u16 (nn + 1))); try done; [in_range|by rewrite Hst]. }
  set (src := if has_idx d then T3 else R_HL).
  assert (∀ σ1, host c σ1 → xr σ1 src = v → ∃ k, (k <= 2)%nat ∧
    gdoes (nn_stores nn src +>> lift (emit_if store (emit_set_memptr_imm (u16 (nn + 1))))) k (lands' (set_memptr (u16 (nn + 1)) c1)) σ1) as Hst.
  { intros σ1 H1 E1. edestruct (gdoes_nn_stores nn src v) as (k & Hk & Hg); try exact H1; try exact E1; try done.
    - subst src. destruct (has_idx d); regs.
    - intros E. subst src. destruct (has_idx d); [by destruct Hff|done].
    - exists (k + 0)%nat. split; [lia|]. by apply gdoes_then. }
  destruct (has_idx d) eqn:Hx; subst src.
  - destruct (Hst (set_reg T3 (idx_value (prefix d) c) σ)) as (k & Hk & Hg).
    + apply host_scratch; [done|regs].
    + xs. subst v. by rewrite idx16_eq.
    + exists (0 + k)%nat. split; [lia|]. unfold gen_ld_nn_hl. cbv zeta. fold nn. rewrite Hx.
      apply gdoes_then, gdoes_lift, does_if; [|done]. intros _. apply (does_idx_load l Hl slow c); [done|done|regs|exact Hg].
  - destruct (Hst σ Hh) as (k & Hk & Hg).
    + subst v. rewrite idx16_plain by done. by eapply host_rHL.
    + exists (0 + k)%nat. split; [lia|]. unfold gen_ld_nn_hl. cbv zeta. fold nn. rewrite Hx.
      apply gdoes_then, gdoes_lift, does_if; [done|]. intros _. exact Hg.
Qed.

(** *** 16-bit registers *)

(** The new value of a pair in its own register. *)
Lemma land_rr r pr v σ' : 0 <= r <= 3 → rr_host_p r 0 = Some pr → is_word v → sets pr v σ σ' → lands' (write_rr r v c) σ'.
Proof.
  intros Hr Hp Hv [E Em]. apply land_same; [|by apply ok_write_rr|by apply write_rr_rest].
  eapply host_same; [eapply write_rr_host; [done|exact Hv|exact Hp|reflexivity]| |intros a; apply Em]. intros g _. by rewrite E.
Qed.
Definition incdec (is_inc : bool) (v : Z) : Z := u16 (if is_inc then v + 1 else v - 1).
(** INC and DEC of a pair, in one function. *)
Definition op_incdec_rr (is_inc : bool) d : z80_cpu :=
  if (reg1 d =? 2) && has_idx d then set_idx (prefix d) (incdec is_inc (idx_value (prefix d) c)) c
  else write_rr (reg1 d) (incdec is_inc (read_rr (reg1 d) c)) c.
Lemma op_incdec_eq (is_inc : bool) d : 0 <= reg1 d <= 3 → (if is_inc then op_INC_RR d c else op_DEC_RR d c) = op_incdec_rr is_inc d.
Proof.
  intros Hr. assert (∀ g : Z → Z, (if reg1 d =? 3 then set_rSP (g (rSP c)) c
    else if (reg1 d =? 2) && (prefix d =? 0xDD) then set_rIX (g (rIX c)) c
    else if (reg1 d =? 2) && (prefix d =? 0xFD) then set_rIY (g (rIY c)) c
    else write_rr (reg1 d) (g (read_rr (reg1 d) c)) c) =
    if (reg1 d =? 2) && has_idx d then set_idx (prefix d) (g (idx_value (prefix d) c)) c
    else write_rr (reg1 d) (g (read_rr (reg1 d) c)) c) as E.
  { intros g. unfold has_idx, set_idx, idx_value. destruct (Z.eqb_spec (reg1 d) 3) as [->|]; [done|].
    destruct (reg1 d =? 2); cbn [andb]; [|done]. destruct (Z.eqb_spec (prefix d) 0xDD) as [->|]; [done|]. cbn [orb]. by destruct (prefix d =? 0xFD). }
  destruct is_inc; [exact (E (λ v, u16 (v + 1)))|exact (E (λ v, u16 (v - 1)))].
Qed.
Lemma incdec_word b v : is_word (incdec b v).
Proof. unfold incdec. in_range. Qed.
Lemma op_incdec_rr_ok (is_inc : bool) d : 0 <= reg1 d <= 3 → does (gen_incdec_rr d is_inc) (lands' (op_incdec_rr is_inc d)) σ.
Proof.
  intros Hr. unfold gen_incdec_rr, op_incdec_rr. rewrite rr_host_idx by done. destruct ((reg1 d =? 2) && has_idx d) eqn:E.
  - pose proof (idx_value_word (prefix d) c Hc) as Hw.
    assert (∀ σ', host (set_idx (prefix d) (incdec is_inc (idx_value (prefix d) c)) c) σ' →
      lands' (set_idx (prefix d) (incdec is_inc (idx_value (prefix d) c)) c) σ') as HL.
    { intros σ' H'. apply land_same; [done|apply ok_set_idx; [done|apply incdec_word]|apply set_idx_rest]. }
    assert (incdec is_inc (idx_value (prefix d) c) = u16 (idx_value (prefix d) c + (if is_inc then 1 else -1))) as Ei.
    { unfold incdec. destruct is_inc; done. }
    eapply does_incdec_m16; [| |by apply (get_ctx16 l Hl c)|].
    + unfold idx_reg_offset. destruct (prefix d =? 0xFD); side; off.
    + apply (ea_cpu l Hl); [by eapply host_rCPU|]. unfold idx_reg_offset. destruct (prefix d =? 0xFD); off.
    + intros f. apply HL, host_xf. fold (idx_value (prefix d) c). rewrite <- Ei. unfold idx_reg_offset, set_idx.
      destruct (prefix d =? 0xFD); [apply host_IY|apply host_IX]; try done; apply incdec_word.
  - destruct (rr_host_some (reg1 d) Hr) as (pr & Ep & Hpr & Ev & _). rewrite Ep.
    pose proof (read_rr_word (reg1 d) c Hc) as Hw. rewrite <- Ev in Hw.
    destruct is_inc; (eapply does_alu_r16_imm8; [done|done|unfold int8; lia|first [left; split; reflexivity|right; split; reflexivity]|]);
      intros f; rewrite merge16_word by done; (eapply land_rr; [done|exact Ep|apply incdec_word|]); rewrite <- Ev;
      (split; [|done]); intros q; xs; unfold incdec; by rewrite u16_id by in_range.
Qed.

Lemma op_ex_de_hl : does (emit_mov_r32_r32 T0 R_DE +> emit_mov_r32_r32 R_DE R_HL +> emit_mov_r32_r32 R_HL T0) (lands' (op_EX_DE_HL c)) σ.
Proof.
  apply does_then, does_mov_r32_r32; [regs|regs|pinned_vals; in_range|]. apply does_then, does_mov_r32_r32; [regs|regs|xs; pinned_vals; in_range|].
  apply does_mov_r32_r32; [regs|regs|xs; pinned_vals; in_range|]. xs. pinned_vals.
  apply land_same; [|unfold op_EX_DE_HL; in_range|done].
  unfold op_EX_DE_HL. apply (host_HL l); [|in_range]. apply (host_DE l); [|in_range]. apply host_scratch; [done|regs].
Qed.
Lemma op_ld_sp_hl d : does (if has_idx d then emit_movzx_r32_m16 R_SP R_CPU X64_NOREG (idx_reg_offset (prefix d))
    else emit_mov_r32_r32 R_SP R_HL) (lands' (op_LD_SP_HL d c)) σ.
Proof.
  unfold op_LD_SP_HL. destruct (has_idx d) eqn:Hx.
  - apply (does_idx_load l Hl slow c); [done|done|regs|]. rewrite idx16_eq by done.
    apply land_same; [by apply host_SP|pose proof (idx_value_word (prefix d) c Hc); in_range|done].
  - apply does_mov_r32_r32; [regs|regs|pinned_vals; in_range|]. pinned_vals. rewrite idx16_plain by done.
    apply land_same; [by apply host_SP|in_range|done].
Qed.

(** *** The stack *)

Lemma land_push v σ' : is_word v →
  host (set_mem (mset16 (u16 (rSP c - 2)) v (mem c)) (set_rSP (u16 (rSP c - 2)) c)) σ' → lands' (push16 v (c, w)).1 σ'.
Proof.
  intros Hv H. assert ((push16 v (c, w)).1 = set_mem (mset16 (u16 (rSP c - 2)) v (mem c)) (set_rSP (u16 (rSP c - 2)) c)) as ->.
  { unfold push16. rewrite mem_w16_mem; [done|]. cbn [on_cpu fst]. in_range. }
  apply land_same; [done| |done]. unfold mset16. in_range.
Qed.
Lemma op_push_rr d : 0 <= reg1 d <= 4 → (reg1 d = 4 → has_idx d = true) → does (gen_push_rr d) (lands' (op_PUSH_RR d (c, w)).1) σ.
Proof.
  intros Hr H4. unfold gen_push_rr, op_PUSH_RR. cbn [fst]. destruct (Z.leb_spec (reg1 d) 2) as [H2|H2].
  - destruct (rr_host_some (reg1 d) ltac:(lia)) as (pr & Ep & Hpr & Ev & Hns & _). rewrite Ep. cbn [from_option id].
    rewrite (proj2 (Z.eqb_neq _ 4)), (proj2 (Z.eqb_neq _ 3)) by lia. unfold id.
    eapply (does_push16 l Hl slow Hslow Hmi c); [done|done|done| | |exact Ev|by apply read_rr_word|].
    + intros ->. apply Hns. regs.
    + intros ->. unfold rr_host_p in Ep. assert (reg1 d = 0 ∨ reg1 d = 1 ∨ reg1 d = 2) as E by lia.
      decompose [or] E; match goal with H : reg1 d = _ |- _ => rewrite H in Ep end; discriminate Ep.
    + intros σ' H'. apply land_push; [by apply read_rr_word|done].
  - destruct (Z.eqb_spec (reg1 d) 3) as [E3|H3].
    + rewrite E3. cbn [Z.eqb Pos.eqb].
      apply does_then, does_mov_r32_r32; [regs|regs|pinned_vals; in_range|]. pinned_vals.
      pose proof (ok_rA _ Hc) as Ha. assert (0 <= rA c <<' 8 < 65536) as Ha8.
      { rewrite Z.shiftl_mul_pow2 by lia. unfold is_byte in Ha. lia. }
      apply does_then. eapply does_shift_r32_imm; [side|regs|lia|xs; in_range|left; split; reflexivity|].
      intros f1. xs. rewrite (trunc_dword (rA c <<' 8)) by (unfold is_dword; lia).
      apply does_then. eapply does_alu_r32_r32; [side|regs|regs|xs; unfold is_dword; lia|xs; pinned_vals; in_range|left; split; reflexivity|].
      intros f2. xs. pinned_vals. rewrite Z.lor_comm. change (rF c |' rA c <<' 8) with (rAF c).
      eapply (does_push16 l Hl slow Hslow Hmi c); [done|by repeat (apply host_xf || (apply host_scratch; [|regs]))|regs|regs|regs|by xs|in_range|].
      intros σ' H'. apply land_push; [in_range|done].
    + assert (reg1 d = 4) as E4 by lia. rewrite E4. cbn [Z.eqb Pos.eqb]. specialize (H4 E4).
      apply does_then, (does_idx_load l Hl slow c); [done|done|regs|].
      change (if prefix d =? 0xFD then rIY c else rIX c) with (idx_value (prefix d) c). pose proof (idx_value_word (prefix d) c Hc).
      eapply (does_push16 l Hl slow Hslow Hmi c); [done|apply host_scratch; [done|regs]|regs|regs|regs|by xs|done|].
      intros σ' H'. by apply land_push.
Qed.

(** A pair and SP set. *)
Lemma host_keeps_pair pr v r s : rr_host_p r 0 = Some pr → 0 <= r <= 2 → is_word v →
  host (write_rr r v (set_rSP s c)) (set_reg pr v (set_reg R_SP s σ)).
Proof.
  intros Ep Hr Hv. pose proof (host_SP l c σ s Hh) as H1. assert (r = 0 ∨ r = 1 ∨ r = 2) as E by lia.
  decompose [or] E; subst; injection Ep as <-; cbn [write_rr]; [by apply host_BC|by apply host_DE|by apply host_HL].
Qed.
Lemma op_pop_rr d : 0 <= reg1 d <= 4 → (reg1 d = 4 → has_idx d = true) → does (gen_pop_rr d) (lands' (op_POP_RR d c)) σ.
Proof.
  intros Hr H4. unfold gen_pop_rr, op_POP_RR. cbv zeta. set (v := mget16 (mem c) (rSP c)). set (c1 := set_rSP (u16 (rSP c + 2)) c).
  assert (is_word v) as Hv by (subst v; in_range). assert (cpu_ok c1) as Hc1 by (subst c1; in_range).
  destruct (Z.leb_spec (reg1 d) 2) as [H2|H2].
  - destruct (rr_host_some (reg1 d) ltac:(lia)) as (pr & Ep & Hpr & Ev & Hns & _). rewrite Ep. cbn [from_option id]. unfold id.
    rewrite (proj2 (Z.eqb_neq _ 4)), (proj2 (Z.eqb_neq _ 3)) by lia.
    assert (pr ≠ R_MEM ∧ pr ≠ R_SP ∧ pr ≠ T1) as (HM & HS & H1).
    { unfold rr_host_p in Ep. assert (reg1 d = 0 ∨ reg1 d = 1 ∨ reg1 d = 2) as E by lia.
      decompose [or] E; match goal with H : reg1 d = _ |- _ => rewrite H in Ep end; injection Ep as <-; split_and!; regs. }
    eapply (does_pop16 l Hl slow Hslow Hmi c); try done. intros σ1 [Ek Em] E1 ES. fold v in E1.
    apply land_same; [|by apply ok_write_rr|exact (proj1 (write_rr_rest (reg1 d) v c1))].
    eapply host_same; [eapply (host_keeps_pair pr v); [exact Ep|lia|done]| |intros a; apply Em].
    intros g Hg. cbn [xr set_reg]. unfold upd. destruct (Z.eqb_spec g pr) as [->|Hg1]; [exact E1|].
    destruct (Z.eqb_spec g R_SP) as [->|Hg2]; [exact ES|]. apply Ek. rewrite !not_elem_of_cons.
    split_and!; [done| |done|apply not_elem_of_nil]. intros ->. apply (scratch_not_guest T1 T1) in Hg; [|regs]. by rewrite Z.eqb_refl in Hg.
  - destruct (Z.eqb_spec (reg1 d) 3) as [E3|H3].
    + rewrite E3. cbn [Z.eqb Pos.eqb]. pose proof (ok_mem _ Hc) as Hmem. pose proof (ok_rSP _ Hc) as Hsp.
      assert (set_AF v c1 = set_rF (mget (mem c) (rSP c)) (set_rA (mget (mem c) (u16 (rSP c + 1))) c1)) as ->.
      { unfold set_AF. subst v. unfold mget16. by rewrite word_of_lo, word_of_hi, (u16_id (rSP c)) by in_range. }
      set (lo := mget (mem c) (rSP c)). set (hi := mget (mem c) (u16 (rSP c + 1))).
      assert (is_byte lo ∧ is_byte hi) as [Hlo Hhi] by (split; by apply mget_byte).
      apply does_then. eapply (does_load l Hl slow c); [done|done|regs|regs|regs|pinned_vals; reflexivity|done|].
      assert (host (set_rF lo c) (set_reg R_F lo σ)) as H1 by by apply host_F.
      assert (∀ σ1, host (set_rF lo c) σ1 → does (emit_sp_add 2) (lands' (set_rF lo (set_rA hi c1))) (set_reg R_A hi σ1)) as Hend.
      { intros σ1 H1'. pose proof (host_A l _ _ hi H1') as H2'. eapply (does_sp_add l slow); [|exact H2'|unfold int8; lia|]; [in_range|].
        intros σ2 _ H3'. apply land_same; [|in_range|done]. eapply host_ext; [exact H3'|..]; done. }
      apply does_then. destruct z80_mem_mirrored eqn:Emi.
      * eapply does_movzx_r32_m8; [regs|side| |exact Hhi|by apply Hend].
        change (mem_op R_MEM R_SP 1) with (OMem R_MEM (Some R_SP) 0 1). cbn [get nbytes_of].
        fold lo.
        assert (ea R_MEM (Some R_SP) 0 1 (set_reg R_F lo σ) = mem_p l + (rSP c + 1)) as ->.
        { unfold ea. xs. pinned_vals. erewrite host_rMEM by eassumption.
          rewrite Z.shiftl_0_r, <- Z.add_assoc. apply u64_small. destruct (lo_mem l Hl). unfold is_word in Hsp. lia. }
        cbn [ld]. rewrite Z.mul_0_r, Z.add_0_r. subst hi. destruct (decide (rSP c = 0xFFFF)) as [Ef|Hne].
        -- unfold ld8. rewrite Ef. change (0xFFFF + 1) with 0x10000. change (u16 0x10000) with 0.
           rewrite u64_small by (destruct (lo_mem l Hl); lia). rewrite (lo_mirror l Hl) by done.
           pose proof (hm_mem l c σ (proj2 Hh) 0 ltac:(by vm_compute)) as E. rewrite Z.add_0_r in E. exact E.
        -- assert (is_word (rSP c + 1)) as Hw1 by off. rewrite (ld8_at l Hl) by by apply guest_mem. rewrite u16_id by done.
           exact (hm_mem l c σ (proj2 Hh) _ Hw1).
      * apply does_then, does_addr_plus; [regs|regs|unfold int32; lia|]. intros σ1 S1.
        assert (xr σ1 T1 = u16 (rSP c + 1)) as E1 by (rewrite (sets_at _ _ _ _ S1); xs; by pinned_vals).
        assert (host (set_rF lo c) σ1) as H2' by (eapply host_sets; [exact H1| |exact S1]; regs).
        eapply (does_load l Hl slow (set_rF lo c)); [in_range|exact H2'|regs|regs|regs|exact E1|in_range|]. by apply Hend.
    + assert (reg1 d = 4) as E4 by lia. rewrite E4. cbn [Z.eqb Pos.eqb]. specialize (H4 E4).
      apply does_then, (does_pop16 l Hl slow Hslow Hmi c); [done|done|regs|regs|regs|regs|]. intros σ1 [Ek Em] E1 ES. fold v in E1.
      assert (host c1 σ1) as H1.
      { eapply host_same; [by apply (host_SP l c σ (u16 (rSP c + 2)))| |intros a; apply Em]. intros g Hg. cbn [xr set_reg]. unfold upd.
        destruct (Z.eqb_spec g R_SP) as [->|Hg2]; [exact ES|]. apply Ek. rewrite !not_elem_of_cons.
        split_and!; [|..|done|apply not_elem_of_nil]; intros ->;
          [apply (scratch_not_guest T0 T0) in Hg|apply (scratch_not_guest T1 T1) in Hg]; try regs; by rewrite Z.eqb_refl in Hg. }
      eapply (does_idx_store c1); [exact H1|regs|rewrite E1; by apply u16_id|]. intros σ2 H2' _.
      change (if prefix d =? 0xFD then set_rIY v c1 else set_rIX v c1) with (set_idx (prefix d) v c1).
      apply land_same; [exact H2'|by apply ok_set_idx|by rewrite set_idx_rest].
Qed.

(** The exchange in memory: T0 gets the word at SP, [cur] goes there. *)
Lemma does_exchange cur v Q σ1 : host c σ1 → cur = T3 ∨ cur = R_HL → xr σ1 cur = v → is_word v →
  (∀ σ', host (set_mem (mset16 (rSP c) v (mem c)) c) σ' → xr σ' T0 = mget16 (mem c) (rSP c) → Q σ') →
  does (if z80_mem_mirrored then emit_movzx_r32_m16 T0 R_MEM R_SP 0 +> emit_mov_m16_r16 R_MEM R_SP 0 cur
   else
     emit_movzx_r32_m8 T0 R_MEM R_SP 0 +> emit_addr_plus T1 R_SP 1 +> emit_movzx_r32_m8 T2 R_MEM T1 0 +>
     emit_shl_r32_imm T2 8 +> emit_alu_r32_r32 X64_ALU_OR T0 T2 +> emit_mov_m8_r8 R_MEM R_SP 0 cur +>
     emit_mov_r32_r32 T2 cur +> emit_shr_r32_imm T2 8 +> emit_mov_m8_r8 R_MEM T1 0 T2) Q σ1.
Proof.
  intros H Hcur Ev Hv HQ. pose proof (ok_rSP _ Hc) as Hsp. pose proof (ok_mem _ Hc) as Hmem.
  assert (is_reg cur ∧ cur ≠ T0 ∧ cur ≠ T1 ∧ cur ≠ T2) as (Hr & H0 & H1 & H2) by (destruct Hcur as [->| ->]; split_and!; regs).
  destruct z80_mem_mirrored eqn:Emi.
  - apply does_then. eapply does_movzx_r32_m16; [regs|side|by apply (get_stack16 l Hl c σ1 Hc H)|in_range|].
    eapply does_mov_m16_r16; [done|side| |].
    { cbn [index_of]. change (index_of R_SP) with (Some R_SP). rewrite (ea_mem l Hl) by (xs; first [by eapply host_rMEM|pinned_vals; done]). xs. pinned_vals. reflexivity. }
    xs. eqs. rewrite Ev. apply HQ; [|done]. apply host_store16; [done|apply host_scratch; [done|regs]|done|done|by left].
  - apply does_then. eapply (does_load l Hl slow c); [done|exact H|regs|regs|regs|pinned_vals; reflexivity|done|].
    apply does_then, does_addr_plus; [regs|regs|unfold int32; lia|]. intros σ2 S2.
    assert (xr σ2 T1 = u16 (rSP c + 1)) as E2 by (rewrite (sets_at _ _ _ _ S2); xs; by pinned_vals).
    assert (host c σ2) as H2' by (eapply host_sets; [apply host_scratch; [exact H|]| |exact S2]; regs).
    apply does_then. eapply (does_load l Hl slow c); [done|exact H2'|regs|regs|regs|exact E2|in_range|].
    apply does_then. eapply does_shift_r32_imm; [side|regs|lia|xs; apply byte_dword; by apply mget_byte|left; split; reflexivity|].
    intros f1. xs.
    assert (xr σ2 T0 = mget (mem c) (rSP c)) as E20 by (rewrite (sets_other _ _ _ _ T0 S2) by regs; by xs).
    assert (xr σ2 cur = v) as E2c by (rewrite (sets_other _ _ _ _ cur S2) by done; xs; by eqs).
    apply does_then. eapply does_alu_r32_r32; [side|regs|regs|xs; rewrite E20; apply byte_dword; by apply mget_byte|xs; apply trunc_range|left; split; reflexivity|].
    intros f2. xs. rewrite E20, shl8_or by by apply mget_byte.
    set (σ3 := set_xf f2 _). assert (host c σ3) as H3 by (subst σ3; repeat (apply host_xf || (apply host_scratch; [|regs])); done).
    assert (xr σ3 cur = v) as E3c by (subst σ3; xs; by eqs).
    assert (xr σ3 T1 = u16 (rSP c + 1)) as E31 by (subst σ3; xs; exact E2).
    assert (xr σ3 T0 = mget16 (mem c) (rSP c)) as E30.
    { subst σ3. xs. unfold mget16. by rewrite (u16_id (rSP c)). }
    clearbody σ3. apply does_then. eapply (does_store_low l Hl slow c R_SP cur (rSP c)); [exact H3|regs|regs|done|by eapply host_rSP|done|exact E3c|].
    intros H4. apply does_seq2. eapply does_high; [regs|done|exact E3c|done|]. intros σ5 S5.
    eapply (does_store l Hl slow _ T1 T2 (u16 (rSP c + 1)) (v >>' 8)).
    { eapply host_sets; [exact H4| |exact S5]. regs. }
    1-3: regs. 1: rewrite (sets_other _ _ _ _ T1 S5) by regs; exact E31. 1: in_range. 1: by apply (sets_at _ _ _ _ S5). 1: in_range.
    intros H6. apply HQ; [exact H6|]. cbn [xr st8]. rewrite (sets_other _ _ _ _ T0 S5) by regs. exact E30.
Qed.
Lemma op_ex_sp_hl d : does (gen_ex_sp_hl d store) (lands' (op_EX_SP_HL d (c, w)).1) σ.
Proof.
  unfold gen_ex_sp_hl. cbv zeta. set (v := mget16 (mem c) (rSP c)). set (u := idx16 (prefix d) c).
  assert (is_word v) as Hv by (subst v; in_range). assert (is_word u) as Hu by (subst u; by apply idx16_word).
  set (c1 := set_mem (mset16 (rSP c) u (mem c)) c). assert (cpu_ok c1) as Hc1 by (subst c1; unfold mset16; in_range).
  set (c2 := set_idx16 (prefix d) v c1). assert (cpu_ok c2) as Hc2 by (subst c2; by apply ok_set_idx16).
  assert (memptr c2 = memptr c) as Em2 by (subst c2; exact (proj1 (set_idx16_rest (prefix d) v c1))).
  assert ((op_EX_SP_HL d (c, w)).1 = set_memptr v c2) as ->.
  { unfold op_EX_SP_HL, on_cpu. cbn [fst]. rewrite mem_w16_mem by in_range. done. }
  assert (∀ σ1, host c2 σ1 → xr σ1 T0 = v → does (emit_if store (emit_mov_m16_r16 R_CPU X64_NOREG OFF_MEMPTR T0)) (lands' (set_memptr v c2)) σ1) as Hend.
  { intros σ1 H1 E1. apply does_if; intros Hst.
    - eapply (does_memptr_reg c2); [exact H1|regs|rewrite E1; by apply u16_id|]. intros σ' H'.
      apply (land_memptr c2 v); try done; by rewrite Hst.
    - apply (land_memptr c2 v); try done; by rewrite Hst. }
  destruct (has_idx d) eqn:Hx.
  - apply does_then, does_if; [|done]. intros _. apply (does_idx_load l Hl slow c); [done|done|regs|].
    apply does_then, (does_exchange T3 u); [apply host_scratch; [done|regs]|by left|xs; subst u; by rewrite idx16_eq|done|].
    intros σ1 H1 E1. apply does_then. eapply (does_idx_store c1); [exact H1|regs|rewrite E1; by apply u16_id|].
    intros σ2 H2 E2. apply Hend; [|by rewrite E2]. subst c2. by rewrite <- set_idx_eq.
  - apply does_then, does_if; [done|]. intros _.
    apply does_then, (does_exchange R_HL u); [done|by right|subst u; rewrite idx16_plain by done; by eapply host_rHL|done|].
    intros σ1 H1 E1. apply does_then, does_mov_r32_r32; [regs|regs|rewrite E1; in_range|]. rewrite E1.
    apply Hend; [|by xs]. subst c2. rewrite set_idx16_plain by done. by apply host_HL.
Qed.

(** *** ADD HL,rr *)

Definition add16_dst d : Z := idx16 (prefix d) c.
Definition add16_src d : Z := if reg1 d =? 2 then add16_dst d else read_rr (reg1 d) c.
Lemma op_add_hl_rr_eq d : 0 <= reg1 d <= 3 → op_ADD_HL_RR d c =
  set_idx16 (prefix d) (u16 (add16_dst d + add16_src d))
    (with_f (add16_flags (rF c) (add16_dst d) (add16_src d)) (set_memptr (u16 (add16_dst d + 1)) c)).
Proof.
  intros Hr. unfold op_ADD_HL_RR, add16_src. fold (add16_dst d). cbv zeta.
  destruct (Z.eqb_spec (reg1 d) 3) as [E|]; [by rewrite E|]. by destruct (reg1 d =? 2).
Qed.
(** The bits that index the table: T0 from the two operands. *)
Lemma does_add16_index dst src a b self Q σ1 : is_reg dst → is_reg src → dst ≠ T0 → src ≠ T0 → xr σ1 dst = a → xr σ1 src = b →
  is_word a → is_word b → xr σ1 T3 = a + b → (self = true → a = b) →
  (∀ σ' i, keeps [T0] σ1 σ' → i = (if nz (fmask &' FLAG_H) && negb (a =? b) then ((a + b) ^' ((a ^' b) &' 0x1000)) >>' 8 else (a + b) >>' 8) →
    xr σ' T0 = i → Q σ') →
  does ((if nz (fmask &' FLAG_H) && negb self then
        emit_mov_r32_r32 T0 dst +> emit_alu_r32_r32 X64_ALU_XOR T0 src +>
        emit_alu_r32_imm X64_ALU_AND T0 0x1000 +> emit_alu_r32_r32 X64_ALU_XOR T0 T3
      else emit_mov_r32_r32 T0 T3) +> emit_shr_r32_imm T0 8) Q σ1.
Proof.
  intros Hd Hs Hd0 Hs0 Ea Eb Ha Hb E3 Hself HQ.
  assert (is_dword (a + b)) as Hab by (unfold is_dword, is_word in *; lia).
  set (t := if nz (fmask &' FLAG_H) && negb self then (a + b) ^' ((a ^' b) &' 0x1000) else a + b).
  assert (is_dword t) as Ht. { subst t. destruct (nz (fmask &' FLAG_H) && negb self); [|exact Hab]. apply lxor_dword; [done|]. apply land_dword; [in_range|by vm_compute]. }
  apply does_then.
  assert (∀ K : xstate → Prop, (∀ σ', keeps [T0] σ1 σ' → xr σ' T0 = t → K σ') → does (if nz (fmask &' FLAG_H) && negb self then
        emit_mov_r32_r32 T0 dst +> emit_alu_r32_r32 X64_ALU_XOR T0 src +>
        emit_alu_r32_imm X64_ALU_AND T0 0x1000 +> emit_alu_r32_r32 X64_ALU_XOR T0 T3
      else emit_mov_r32_r32 T0 T3) K σ1) as Hidx.
  { intros K HK. subst t. destruct (nz (fmask &' FLAG_H) && negb self).
    - apply does_then, does_mov_r32_r32; [regs|done|rewrite Ea; in_range|]. rewrite Ea.
      apply does_then. eapply does_alu_r32_r32; [side|regs|done|xs; in_range|xs; eqs; rewrite Eb; in_range|right; split; reflexivity|].
      intros f1. xs. eqs. rewrite Eb.
      apply does_then. eapply does_alu_r32_imm; [side|regs|unfold int32; lia|xs; in_range|reflexivity|left; split; reflexivity|].
      intros f2. xs. change (trunc D32 0x1000) with 0x1000.
      assert (is_dword ((a ^' b) &' 0x1000)) by (apply land_dword; [in_range|by vm_compute]).
      eapply does_alu_r32_r32; [side|regs|regs|xs; done|xs; by rewrite E3|right; split; reflexivity|].
      intros f3. apply HK; [|xs; by rewrite E3, Z.lxor_comm]. split; [|done]. intros q Hq. rewrite !not_elem_of_cons in Hq. destruct Hq as (? & _). xs. by eqs.
    - apply does_mov_r32_r32; [regs|regs|by rewrite E3|]. apply HK; [apply keeps_set; by left|xs; done]. }
  apply Hidx. intros σ2 K2 E2. eapply does_shift_r32_imm; [side|regs|lia|by rewrite E2|right; left; split; reflexivity|].
  intros f. rewrite E2. apply (HQ _ (t >>' 8)); [| |xs; done].
  - eapply keeps_trans; [exact K2|]. apply keeps_xf, keeps_set. by left.
  - subst t. destruct (nz (fmask &' FLAG_H)); cbn [andb]; [|done]. destruct self; cbn [negb].
    + rewrite (Hself eq_refl), Z.eqb_refl. done.
    + destruct (Z.eqb_spec a b) as [->|]; cbn [negb]; [|done]. by rewrite Z.lxor_nilpotent, Z.land_0_l, Z.lxor_0_r.
Qed.

(** The flags at the end, from T0. *)
Lemma does_add16_flags c1 a b i Q σ1 : cpu_ok c1 → host c1 σ1 → rF c1 = rF c → is_word a → is_word b →
  i = (if nz (fmask &' FLAG_H) && negb (a =? b) then ((a + b) ^' ((a ^' b) &' 0x1000)) >>' 8 else (a + b) >>' 8) →
  (nz (fmask &' (FLAG_C |' FLAG_H |' FLAG_5 |' FLAG_3)) = true → xr σ1 T0 = i) →
  (∀ σ' f, host (set_rF f c1) σ' → is_byte f → f &' fmask = add16_flags (rF c) a b &' fmask → Q σ') →
  does (emit_if (nz (fmask &' 0x3B))
    (emit_alu_r32_imm X64_ALU_AND R_F (FLAG_S |' FLAG_Z |' FLAG_PV) +>
     emit_if (nz (fmask &' (FLAG_C |' FLAG_H |' FLAG_5 |' FLAG_3)))
       (emit_movzx_r32_m8 T0 R_AUX T0 FT_ADD16 +> emit_alu_r32_r32 X64_ALU_OR R_F T0))) Q σ1.
Proof.
  intros Hc1 H EF Ha Hb Ei E0 HQ. pose proof (ok_rF _ Hc) as Hf.
  destruct (add16_f_masked fmask (rF c) a b i Hfm Hf Ha Hb Ei) as (Hmask & Hbyte & Hi). unfold add16_f in Hmask, Hbyte.
  apply does_if; intros Hw; rewrite Hw in *; [|by apply (HQ σ1 (rF c)); [eapply host_ext; [exact H|..]| |]].
  apply does_then. eapply does_alu_r32_imm; [side|regs|vm_compute; split; congruence|pinned_vals; rewrite EF; in_range|reflexivity|left; split; reflexivity|].
  intros f1. pinned_vals. rewrite EF. change (trunc D32 (FLAG_S |' FLAG_Z |' FLAG_PV)) with (FLAG_S |' FLAG_Z |' FLAG_PV).
  set (fl := rF c &' (FLAG_S |' FLAG_Z |' FLAG_PV)) in *. assert (is_byte fl) as Hfl by (by apply byte_land).
  pose proof (host_F l c1 σ1 fl H) as H2. apply does_if; intros Hw2; rewrite Hw2 in *.
  - specialize (E0 eq_refl). destruct (add16_cell_bits i Hi) as (Bi & _).
    apply does_then. eapply does_movzx_r32_m8; [regs|side; vm_compute; split; congruence| |exact Bi|].
    { unfold mem_op. change (index_of T0) with (Some T0).
      transitivity (table_at z80_add16_table i); [|by apply add16_cell_at]. rewrite <- E0.
      change (xr σ1 T0) with (xr (set_xf f1 (set_reg R_F fl σ1)) T0).
      apply (get_add16 l Hl (set_rF fl c1)); [by apply host_xf|]. xs. rewrite E0. exact Hi. }
    eapply does_alu_r32_r32; [side|regs|regs|xs; in_range|xs; in_range|left; split; reflexivity|].
    intros f2. xs. apply (HQ _ (fl |' add16_cell i)); [|done|done].
    eapply host_ext; [apply host_xf, (host_F l (set_rF fl c1)), host_scratch; [apply host_xf, H2|regs]|..]; done.
  - rewrite Z.lor_0_r in *. apply (HQ _ fl); [by apply host_xf|done|done].
Qed.
Lemma lea_sum b i σ1 : is_word (xr σ1 b) → is_word (xr σ1 i) → trunc D32 (ea b (Some i) 0 0 σ1) = xr σ1 b + xr σ1 i.
Proof.
  unfold is_word. intros Hb Hi. unfold ea. rewrite Z.shiftl_0_r, Z.add_0_r, u64_small by lia. apply trunc_dword. unfold is_dword. lia.
Qed.
Lemma op_add_hl_rr d : 0 <= reg1 d <= 3 → does (gen_add_hl_rr d fmask store) (lands' (op_ADD_HL_RR d c)) σ.
Proof.
  intros Hr. rewrite op_add_hl_rr_eq by done. unfold gen_add_hl_rr. cbv zeta.
  set (a := add16_dst d). set (b := add16_src d).
  assert (is_word a) as Ha by (subst a; by apply idx16_word).
  assert (is_word b) as Hb by (subst b; unfold add16_src; destruct (reg1 d =? 2); [done|by apply read_rr_word]).
  set (dst := if has_idx d then T1 else R_HL). set (src := if reg1 d =? 2 then dst else default (-1) (rr_host_p (reg1 d) 0)).
  destruct (rr_host_some (reg1 d) Hr) as (pr & Ep & Hpr & Ev & Hns & _).
  assert (is_reg dst ∧ dst ≠ T0 ∧ dst ≠ T2 ∧ dst ≠ T3) as (Hd & Hd0 & Hd2 & Hd3) by (subst dst; destruct (has_idx d); split_and!; regs).
  assert (is_reg src ∧ src ≠ T0 ∧ src ≠ T2 ∧ src ≠ T3 ∧ src ≠ 4) as (Hs & Hs0 & Hs2 & Hs3 & Hs4).
  { subst src. rewrite Ep. cbn [from_option id]. unfold id. destruct (reg1 d =? 2); [split_and!; try done; subst dst; destruct (has_idx d); regs|].
    unfold rr_host_p in Ep. cbn [andb orb Z.eqb] in Ep. rewrite andb_false_r in Ep.
    assert (reg1 d = 0 ∨ reg1 d = 1 ∨ reg1 d = 2 ∨ reg1 d = 3) as E by lia.
    decompose [or] E; match goal with H : reg1 d = _ |- _ => rewrite H in Ep end; injection Ep as <-; split_and!; regs. }
  (* the operands in place *)
  assert (∀ K : xstate → Prop, (∀ σ1, host c σ1 → xr σ1 dst = a → xr σ1 src = b → K σ1) →
    does (emit_if (has_idx d) (emit_movzx_r32_m16 T1 R_CPU X64_NOREG (idx_reg_offset (prefix d)))) K σ) as Hload.
  { intros K HK. assert (∀ σ1, host c σ1 → xr σ1 dst = a → (∀ q, ¬ scratch q → xr σ1 q = xr σ q) → K σ1) as HK'.
    { intros σ1 H1 E1 Eq. apply HK; [done|done|]. subst src b. unfold add16_src. destruct (reg1 d =? 2); [exact E1|].
      rewrite Ep. cbn [from_option id]. unfold id. by rewrite Eq. }
    apply does_if; intros Hx; subst dst; rewrite Hx in *.
    - apply (does_idx_load l Hl slow c); [done|done|regs|]. apply HK'; [apply host_scratch; [done|regs]|xs; subst a; unfold add16_dst; by rewrite idx16_eq|].
      intros q Hq. xs. destruct (Z.eqb_spec q T1) as [->|]; [destruct Hq; regs|done].
    - apply HK'; [done|subst a; unfold add16_dst; rewrite idx16_plain by done; by eapply host_rHL|done]. }
  apply does_then, Hload. intros σ1 H1 Ea Eb.
  assert (index_of src = Some src) as Eix by (unfold index_of; by rewrite (proj2 (Z.ltb_ge src 0)) by regs).
  apply does_then. eapply does_lea_r32; [regs| |rewrite Eix; apply lea_sum; [rewrite Ea; done|rewrite Eb; done]|].
  { repeat split; try regs. right. by split. }
  rewrite Ea, Eb. set (σ2 := set_reg T3 (a + b) σ1).
  assert (host c σ2) as H2 by (apply host_scratch; [done|regs]).
  assert (xr σ2 dst = a ∧ xr σ2 src = b ∧ xr σ2 T3 = a + b) as (Ea2 & Eb2 & E32) by (subst σ2; split_and!; xs; by eqs).
  clearbody σ2. set (c1 := if store then set_memptr (u16 (a + 1)) c else c).
  assert (cpu_ok c1) as Hc1 by (subst c1; destruct store; in_range).
  assert (∀ K : xstate → Prop, (∀ σ3, host c1 σ3 → xr σ3 dst = a → xr σ3 src = b → xr σ3 T3 = a + b → K σ3) →
    does (emit_if store (emit_lea_r32 T2 dst X64_NOREG 1 +> emit_mov_m16_r16 R_CPU X64_NOREG OFF_MEMPTR T2)) K σ2) as Hmp.
  { intros K HK. apply does_if; intros Hst; subst c1; rewrite Hst in *; [|by apply HK].
    apply does_then. eapply does_lea_r32; [regs|side|apply lea_trunc|]. rewrite Ea2.
    eapply does_mov_m16_r16; [regs|side; unfold OFF_MEMPTR; lia|apply (ea_cpu l Hl); [xs; by eapply host_rCPU|off]|].
    xs. rewrite (st_trunc l 2 _ _ (u16 (a + 1))).
    2: { change (2 ^ (8 * Z.of_nat 2)) with 65536. unfold u16. rewrite Z.mod_mod by lia. apply (u16_mod32 (a + 1)). }
    apply HK; [apply host_memptr; [done|apply host_scratch; [done|regs]|in_range]|..]; cbn [st st8 xr set_reg]; unfold upd; by eqs. }
  apply does_then, Hmp. intros σ3 H3 Ea3 Eb3 E33. clear Hmp Hload.
  set (i := if nz (fmask &' FLAG_H) && negb (a =? b) then ((a + b) ^' ((a ^' b) &' 0x1000)) >>' 8 else (a + b) >>' 8).
  assert ((reg1 d =? 2) = true → a = b) as Hself by (intros Hs'; subst b; unfold add16_src; by rewrite Hs').
  assert (∀ σ5, host (set_idx16 (prefix d) (u16 (a + b)) c1) σ5 → (nz (fmask &' (FLAG_C |' FLAG_H |' FLAG_5 |' FLAG_3)) = true → xr σ5 T0 = i) →
    does (emit_if (nz (fmask &' 0x3B))
      (emit_alu_r32_imm X64_ALU_AND R_F (FLAG_S |' FLAG_Z |' FLAG_PV) +>
       emit_if (nz (fmask &' (FLAG_C |' FLAG_H |' FLAG_5 |' FLAG_3)))
         (emit_movzx_r32_m8 T0 R_AUX T0 FT_ADD16 +> emit_alu_r32_r32 X64_ALU_OR R_F T0)))
      (lands' (set_idx16 (prefix d) (u16 (a + b)) (with_f (add16_flags (rF c) a b) (set_memptr (u16 (a + 1)) c)))) σ5) as Hfl.
  { intros σ5 H5 E5. eapply (does_add16_flags (set_idx16 (prefix d) (u16 (a + b)) c1) a b i); [apply ok_set_idx16; [done|in_range]|exact H5| |done|done|reflexivity|done|].
    { rewrite (proj2 (set_idx16_rest _ _ _)). subst c1. by destruct store. }
    intros σ6 f H6 Hf Ef. eapply (lands_flags c (set_rF f (set_idx16 (prefix d) (u16 (a + b)) c1))); [exact H6|done| |done|..];
      [rewrite (proj2 (set_idx16_rest _ _ _)); exact Ef|..]; subst c1; unfold set_idx16;
      destruct store, (prefix d =? 0xDD), (prefix d =? 0xFD); reflexivity. }
  assert (∀ σ4, keeps [T0] σ3 σ4 → (nz (fmask &' (FLAG_C |' FLAG_H |' FLAG_5 |' FLAG_3)) = true → xr σ4 T0 = i) →
    does (emit_movzx_r32_r16 dst T3 +> emit_if (has_idx d) (emit_mov_m16_r16 R_CPU X64_NOREG (idx_reg_offset (prefix d)) T1) +>
      emit_if (nz (fmask &' 0x3B))
      (emit_alu_r32_imm X64_ALU_AND R_F (FLAG_S |' FLAG_Z |' FLAG_PV) +>
       emit_if (nz (fmask &' (FLAG_C |' FLAG_H |' FLAG_5 |' FLAG_3)))
         (emit_movzx_r32_m8 T0 R_AUX T0 FT_ADD16 +> emit_alu_r32_r32 X64_ALU_OR R_F T0)))
      (lands' (set_idx16 (prefix d) (u16 (a + b)) (with_f (add16_flags (rF c) a b) (set_memptr (u16 (a + 1)) c)))) σ4) as Htail.
  { intros σ4 K4 E4. assert (host c1 σ4) as H4 by (eapply host_keeps; [exact H3| |exact K4]; repeat constructor; regs).
    assert (xr σ4 T3 = a + b) as E43.
    { rewrite (proj1 K4); [done|]. rewrite not_elem_of_cons. split; [regs|apply not_elem_of_nil]. }
    apply does_then, does_movzx_r32_r16; [done|regs|]. rewrite E43. apply does_then, does_if; intros Hx; subst dst; rewrite Hx in *.
    - eapply (does_idx_store c1 (prefix d) T1 (u16 (a + b))); [apply host_scratch; [done|regs]|regs|xs; apply u16_id; in_range|].
      intros σ5 H5 Eq. rewrite <- set_idx_eq in Hfl |- * by done. rewrite set_idx_eq in Hfl |- * by done. apply Hfl; [by rewrite <- set_idx_eq|].
      intros Hw. rewrite Eq. xs. by apply E4.
    - apply Hfl; [rewrite set_idx16_plain by done; apply host_HL; [done|in_range]|]. intros Hw. xs. by apply E4. }
  apply does_then, does_if; intros Hw.
  - eapply (does_add16_index dst src a b (reg1 d =? 2)); try eassumption. intros σ4 i' K4 Ei E4. subst i'. by apply Htail.
  - apply Htail; [done|congruence].
Qed.
End Op.
End Ops.
