(* ===== verification/ArithX64Ok.v ===== *)
(** * ArithX64Ok: INC, DEC, rotates, the CB page and the flag operations

    The families of [emit_op] that compute F: ALU A,s over the inline ALU,
    INC and DEC of a byte, the accumulator rotates, DAA, CPL, SCF and CCF,
    and the CB page in its register, (HL), (IX+d) and copying forms. *)

From Stdlib Require Import ZArith Lia Bool List.
From stdpp Require Import base option gmap list.
From S2P Require Import Prelude X86 EmitX64 EmitX64Ok Cpu Decode Interp InterpOk InterpSpec Translate Block Liveness JitFlags JitFlagsOk.
From S2P Require Import TransX64 HostX64 RulesX64 GuestX64 FlagsX64 AluX64Ok OpsX64Ok.

Open Scope list_scope.
Open Scope Z_scope.
Open Scope z80_scope.

Set Default Proof Using "Type".

(** ** Flags kept apart *)

(** C kept from F beside a table entry that leaves it clear. *)
Definition keep_c_f (fmask f t : Z) : Z :=
  if nz (fmask &' (0xFF &~ FLAG_C)) then (if nz (fmask &' FLAG_C) then t |' (f &' FLAG_C) else t) else f.
Lemma keep_c_masked fmask f t : is_byte fmask → is_byte f → is_byte t → t &' FLAG_C = 0 →
  keep_c_f fmask f t &' fmask = ((f &' FLAG_C) |' t) &' fmask ∧ is_byte (keep_c_f fmask f t).
Proof.
  intros Hm Hf Ht Htc. split.
  2: { unfold keep_c_f. repeat case_match; try done. apply byte_lor; [done|by apply byte_land]. }
  apply masked_ext; [done|]. intros n Hn Hbit. unfold keep_c_f.
  assert (∀ k, Z.testbit k n = true → nz (fmask &' k) = true) as Hnz.
  { intros k Hk. apply (nz_testbit _ n); [lia|]. by rewrite Z.land_spec, Hbit, Hk. }
  destruct (Z.eqb_spec n 0) as [->|Hn0].
  - rewrite (Hnz FLAG_C) by done. rewrite !Z.lor_spec, (land_bit t FLAG_C 0 Htc) by done.
    destruct (nz _); rewrite ?Z.lor_spec, ?(land_bit t FLAG_C 0 Htc), Z.land_spec by done; change (Z.testbit FLAG_C 0) with true;
      by rewrite ?orb_false_r, ?andb_true_r.
  - assert (Z.testbit FLAG_C n = false) as Hc by (change FLAG_C with (2 ^ 0); rewrite Z.pow2_bits_eqb by lia; by destruct (Z.eqb_spec 0 n); [lia|]).
    rewrite (Hnz (0xFF &~ FLAG_C)).
    + rewrite Z.lor_spec, Z.land_spec, Hc, andb_false_r, orb_false_l.
      destruct (nz _); [|done]. by rewrite Z.lor_spec, Z.land_spec, Hc, andb_false_r, orb_false_r.
    + rewrite Z.ldiff_spec, Hc, andb_true_r.
      change 0xFF with (Z.ones 8). apply Z.ones_spec_low. lia.
Qed.

(** ** A byte in a register of the code *)

Section Arith.
Context `{CE : CodeEnv} (l : layout) (Hl : layout_ok l) (slow : xstate → xstate) (Hslow : ∀ σ, rejoins l σ (slow σ)).
Context (fmask : Z) (store : bool) (Hfm : is_byte fmask).
Local Abbreviation host := (host l).
Local Abbreviation P := (phys l).
Local Abbreviation does := (does l slow).
Local Abbreviation gdoes := (gdoes l slow).
Implicit Types (σ : xstate) (c : z80_cpu) (Q : xstate → Prop) (d : z80_decoded).

(** A byte the code works on: in T1, or in A's own register. *)
Definition holds (src v : Z) c σ : Prop := (src = T1 ∧ host c σ ∧ xr σ T1 = v) ∨ (src = R_A ∧ host (set_rA v c) σ).
Lemma holds_reg src v c σ : holds src v c σ → is_reg src ∧ src ≠ T0 ∧ src ≠ T2 ∧ src ≠ T3 ∧ src ≠ T4 ∧ src ≠ R_F ∧ xr σ src = v.
Proof.
  intros [(-> & _ & E)|(-> & H)]; (split; [regs|]); split_and!; try regs; by rewrite (host_rA l _ _ H).
Qed.
Lemma holds_F src v c σ f : holds src v c σ → holds src v (set_rF f c) (set_reg R_F f σ).
Proof. intros [(-> & H & E)|(-> & H)]; [left|right]; split_and!; try done; [by apply host_F|by apply (host_F l (set_rA v c))]. Qed.
Lemma holds_set src v v' c σ : holds src v c σ → holds src v' c (set_reg src v' σ).
Proof.
  intros [(-> & H & E)|(-> & H)]; [left|right]; split_and!; try done; [apply host_scratch; [done|regs]|].
  eapply host_ext; [apply (host_A l (set_rA v c)), H|..]; done.
Qed.
Lemma holds_scratch src v c σ q x : holds src v c σ → scratch q → q ≠ T1 → holds src v c (set_reg q x σ).
Proof.
  intros [(-> & H & E)|(-> & H)] Hq Hn; [left|right]; split_and!; try done; try by apply host_scratch.
  xs. by eqs.
Qed.
Lemma holds_xf src v c σ f : holds src v c σ → holds src v c (set_xf f σ).
Proof. intros [(-> & H & E)|(-> & H)]; [left|right]; split_and!; try done; by apply host_xf. Qed.
Lemma holds_rF src v c σ : holds src v c σ → xr σ R_F = rF c.
Proof. intros [(-> & H & E)|(-> & H)]; by rewrite (host_rF l _ _ H). Qed.
Lemma holds_ext src v c c' σ : holds src v c σ → rA c' = rA c → rF c' = rF c → rBC c' = rBC c → rDE c' = rDE c → rHL c' = rHL c →
  rSP c' = rSP c → rIX c' = rIX c → rIY c' = rIY c → memptr c' = memptr c → mem c' = mem c → holds src v c' σ.
Proof. intros [(-> & H & E)|(-> & H)]; [left|right]; split_and!; try done; by eapply host_ext. Qed.
(** Table entries at the byte. *)
Lemma holds_table src v c σ o : holds src v c σ → 0 <= v + o < 1024 →
  get P B8 (mem_op R_AUX src o) σ = table_at z80_f_tables (o + v).
Proof using Hl.
  intros H Ho. destruct (holds_reg _ _ _ _ H) as (Hr & _ & _ & _ & _ & _ & E).
  unfold mem_op, index_of. rewrite (proj2 (Z.ltb_ge src 0)) by regs. rewrite <- E.
  destruct H as [(-> & H & _)|(-> & H)]; eapply (get_table l Hl); try exact H; by rewrite E.
Qed.

(** Loading F from a row of the tables. *)
Lemma does_table_F src v c o t Q σ : holds src v c σ → is_byte v → 0 <= o → o + 256 <= 1024 → table_at z80_f_tables (o + v) = t → is_byte t →
  (∀ σ', holds src v (set_rF t c) σ' → (∀ q, q ≠ R_F → xr σ' q = xr σ q) → Q σ') →
  does (emit_movzx_r32_m8 R_F R_AUX src o) Q σ.
Proof using Hl.
  intros H Hv H0 H1 Et Ht HQ. destruct (holds_reg _ _ _ _ H) as (Hr & Hs).
  eapply does_movzx_r32_m8; [regs| |etransitivity; [eapply holds_table; [exact H|unfold is_byte in *; lia]|exact Et]|exact Ht|].
  - destruct H as [(-> & _)|(-> & _)]; side; unfold is_byte in *; lia.
  - apply HQ; [by apply holds_F|]. intros q Hq. xs. by eqs.
Qed.
(** [F |= T0]. *)
Lemma does_or_F src v c x Q σ : holds src v c σ → is_byte (rF c) → xr σ T0 = x → is_byte x →
  (∀ σ', holds src v (set_rF (rF c |' x) c) σ' → (∀ q, q ≠ R_F → xr σ' q = xr σ q) → Q σ') →
  does (emit_alu_r32_r32 X64_ALU_OR R_F T0) Q σ.
Proof.
  intros H HF E0 Hx HQ. pose proof (holds_rF _ _ _ _ H) as EF.
  eapply does_alu_r32_r32; [side|regs|regs|rewrite EF; in_range|rewrite E0; in_range|left; split; reflexivity|].
  intros f. rewrite EF, E0. apply HQ; [by apply holds_xf, holds_F|]. intros q Hq. xs. by eqs.
Qed.

(** ** INC and DEC of a byte *)

Definition step8 (is_inc : bool) (v : Z) : Z := u8 (if is_inc then v + 1 else v - 1).
Definition step_flags (is_inc : bool) (f v : Z) : Z := if is_inc then inc_flags f v else dec_flags f v.
Definition step_row (is_inc : bool) : Z := if is_inc then FT_INC else FT_DEC.
Lemma step_table is_inc v : is_byte v → let t := table_at z80_f_tables (step_row is_inc + v) in
  is_byte t ∧ t &' FLAG_C = 0 ∧ ∀ f, step_flags is_inc f v = (f &' FLAG_C) |' t.
Proof.
  intros Hv t. destruct (f_table_cells v Hv) as (_ & _ & Ei & Ed).
  assert (is_byte t ∧ t &' FLAG_C = 0) as [Ht Htc].
  { subst t. set (p := λ v, (0 <=? table_at z80_f_tables (step_row is_inc + v)) && (table_at z80_f_tables (step_row is_inc + v) <? 256) &&
      (table_at z80_f_tables (step_row is_inc + v) &' FLAG_C =? 0)).
    assert (p v = true) as H by (apply (forall_bytes p); [destruct is_inc; by vm_compute|done]).
    apply andb_true_iff in H as [[H1%Z.leb_le H2%Z.ltb_lt]%andb_true_iff H3%Z.eqb_eq]. done. }
  split_and!; [done|done|]. intros f. subst t. by destruct is_inc; [apply Ei|apply Ed].
Qed.
(** C in T0 when it has to survive. *)
Lemma does_keep_c src v c (b : bool) Q σ : holds src v c σ → cpu_ok c →
  (∀ σ', holds src v c σ' → (b = true → xr σ' T0 = rF c &' FLAG_C) → (∀ q, q ≠ T0 → xr σ' q = xr σ q) → Q σ') →
  does (emit_if b (emit_mov_r32_r32 T0 R_F +> emit_alu_r32_imm X64_ALU_AND T0 FLAG_C)) Q σ.
Proof.
  intros H Hc HQ. pose proof (holds_rF _ _ _ _ H) as EF. apply does_if; intros Hb; [|by apply HQ; [| congruence|]].
  apply does_then, does_mov_r32_r32; [regs|regs|rewrite EF; in_range|]. rewrite EF.
  eapply does_alu_r32_imm; [side|regs|vm_compute; split; congruence|xs; in_range|reflexivity|left; split; reflexivity|].
  intros f. xs. change (trunc D32 FLAG_C) with FLAG_C. apply HQ.
  - apply holds_xf, holds_scratch; [apply holds_scratch; [done|regs|regs]|regs|regs].
  - intros _. by xs.
  - intros q Hq. xs. by eqs.
Qed.
Lemma does_incdec8 src v (is_inc : bool) c Q σ : cpu_ok c → holds src v c σ → is_byte v →
  (∀ σ' f, holds src (step8 is_inc v) (set_rF f c) σ' → xr σ' T2 = xr σ T2 → is_byte f →
    f &' fmask = step_flags is_inc (rF c) (step8 is_inc v) &' fmask → Q σ') →
  does (emit_incdec8_inline src is_inc fmask) Q σ.
Proof using Hl Hfm.
  intros Hc H Hv HQ. unfold emit_incdec8_inline. cbv zeta. pose proof (ok_rF _ Hc) as HF.
  set (rest := nz (fmask &' (0xFF &~ FLAG_C))). set (v' := step8 is_inc v). assert (is_byte v') as Hv' by (subst v'; unfold step8; in_range).
  destruct (step_table is_inc v' Hv') as (Ht & Htc & Esp). set (t := table_at _ _) in *.
  destruct (keep_c_masked fmask (rF c) t Hfm HF Ht Htc) as [Hmask Hbyte]. rewrite <- Esp in Hmask. unfold keep_c_f in *. fold rest in Hmask, Hbyte.
  apply does_then, (does_keep_c src v c); [done|done|]. intros σ1 H1 E1 Eq1.
  destruct (holds_reg _ _ _ _ H1) as (Hr & H0 & H2 & H3 & H4 & HsF & Ev).
  assert (∀ K : xstate → Prop, (∀ σ', holds src v' c σ' → (∀ q, q ≠ src → xr σ' q = xr σ1 q) → K σ') →
    does (if is_inc then emit_inc_r8 src else emit_dec_r8 src) K σ1) as Hstep.
  { intros K HK. assert (∀ f, K (set_xf f (set_reg src v' σ1))) as HK'.
    { intros f. apply HK; [apply holds_xf; by eapply holds_set|]. intros q Hq. xs. by eqs. }
    subst v'. destruct is_inc; [apply does_inc_r8|apply does_dec_r8]; try done; intros f;
      rewrite Ev, merge8_byte, u8_id by in_range; apply HK'. }
  apply does_then, Hstep. intros σ2 H2' Eq2.
  assert (xr σ2 T2 = xr σ T2) as E22 by (rewrite Eq2, Eq1 by (assumption || regs || congruence); done).
  apply does_if; intros Hrest; rewrite Hrest in *; [|apply (HQ _ (rF c)); [by eapply holds_ext; [exact H2'|..]|done|done|done]].
  apply does_then. change (if is_inc then FT_INC else FT_DEC) with (step_row is_inc).
  eapply (does_table_F src v' c _ t); [done|done|destruct is_inc; by vm_compute|destruct is_inc; by vm_compute|done|done|].
  intros σ3 H3' Eq3. cbn [andb] in *. apply does_if; intros Hk; rewrite Hk in *.
  - eapply (does_or_F src v' (set_rF t c) (rF c &' FLAG_C)); [exact H3'|done| |by apply byte_land|].
    { rewrite Eq3, Eq2 by (regs || congruence). by apply E1. }
    intros σ4 H4' Eq4. apply (HQ _ (t |' (rF c &' FLAG_C))); [by eapply holds_ext; [exact H4'|..]| |done|done].
    rewrite Eq4, Eq3 by regs. done.
  - apply (HQ _ t); [done| |done|done]. rewrite Eq3 by regs. done.
Qed.

(** ** Rotates and shifts *)

(** The instruction of each group; 6 is SLL, not one instruction. *)
Definition group_op (g : Z) : shift_op :=
  match g with 0 => ROL | 1 => ROR | 2 => RCL | 3 => RCR | 4 => SHL | 5 => SAR | 6 => SHL | _ => SHR end.
Definition rotates_in (g : Z) : bool := (g =? 2) || (g =? 3).
Definition after_shift (g v : Z) (k : bool) : Z := if g =? 6 then u8 (v <<' 1) else (cb_shift g v k).2.
Definition shift_agrees (g v : Z) (k : bool) : bool :=
  match shift (group_op g) B8 v 1 (mk_flags (Some k) None None None None None) with
  | Some (r, fl) => (r =? after_shift g v k) && (0 <=? r) && (r <? 256) && match cf fl with Some c => Bool.eqb c (cb_shift g v k).1 | None => false end
  | None => false
  end.
Lemma shift_agrees_all g v k : 0 <= g < 8 → is_byte v → shift_agrees g v k = true.
Proof.
  intros Hg Hv. assert (g = 0 ∨ g = 1 ∨ g = 2 ∨ g = 3 ∨ g = 4 ∨ g = 5 ∨ g = 6 ∨ g = 7) as E by lia.
  decompose [or] E; subst g; refine (forall_bytes (λ v, shift_agrees _ v k) _ v Hv); destruct k; by vm_compute.
Qed.
(** Only RCL and RCR read a flag, the carry. *)
Lemma shift_spec g v k f : 0 <= g < 8 → is_byte v → (rotates_in g = true → cf f = Some k) →
  ∃ fl, shift (group_op g) B8 v 1 f = Some (after_shift g v k, fl) ∧ cf fl = Some (cb_shift g v k).1 ∧ is_byte (after_shift g v k).
Proof.
  intros Hg Hv Hk. pose proof (shift_agrees_all g v k Hg Hv) as H. unfold shift_agrees in H.
  assert (∃ r fl, shift (group_op g) B8 v 1 f = Some (r, fl) ∧
    ∃ fl0, shift (group_op g) B8 v 1 (mk_flags (Some k) None None None None None) = Some (r, fl0) ∧ cf fl0 = cf fl) as (r & fl & E & fl0 & E0 & Ec).
  { assert (g = 0 ∨ g = 1 ∨ g = 2 ∨ g = 3 ∨ g = 4 ∨ g = 5 ∨ g = 6 ∨ g = 7) as Eg by lia.
    decompose [or] Eg; subst g; cbn [group_op]; unfold shift; cbn [Z.eqb Pos.eqb bits Z.leb Z.compare Pos.compare Pos.compare_cont cf];
      rewrite ?Hk by done; cbn [mbind option_bind]; do 2 eexists; (split; [reflexivity|]); eexists; (split; [reflexivity|reflexivity]). }
  rewrite E0, Ec in H. rewrite !andb_true_iff in H. destruct H as (((-> %Z.eqb_eq & H0%Z.leb_le) & H1%Z.ltb_lt) & H2).
  destruct (cf fl) as [b|] eqn:Eb; [|done]. apply Bool.eqb_prop in H2 as ->. exists fl. done.
Qed.

Lemma does_shift1 x g src v c k Q σ : is_shift x (group_op g) → 0 <= g < 8 → holds src v c σ → is_byte v →
  (rotates_in g = true → cf (xf σ) = Some k) →
  (∀ σ', holds src (after_shift g v k) c σ' → cf (xf σ') = Some (cb_shift g v k).1 → (∀ q, q ≠ src → xr σ' q = xr σ q) → Q σ') →
  does (emit_shift_r8_imm x src 1) Q σ.
Proof.
  intros Hx Hg H Hv Hk HQ. destruct (shift_spec g v k (xf σ) Hg Hv Hk) as (fl & Es & Ec & Hb).
  destruct (holds_reg _ _ _ _ H) as (Hr & _ & _ & _ & _ & _ & Ev).
  eapply does_shift_r8_imm; [exact Hx|exact Hr|exact Ev|done|exact Es|done|].
  apply HQ; [apply holds_xf; by eapply holds_set|exact Ec|]. intros q Hq. xs. by eqs.
Qed.
(** With the carry of F in. *)
Lemma does_shift_carry x g src v c Q σ : is_shift x (group_op g) → 0 <= g < 8 → holds src v c σ → is_byte v → cpu_ok c →
  (∀ σ', holds src (after_shift g v (Z.testbit (rF c) 0)) c σ' → cf (xf σ') = Some (cb_shift g v (Z.testbit (rF c) 0)).1 →
    (∀ q, q ≠ src → xr σ' q = xr σ q) → Q σ') →
  does (emit_bt_r32_imm8 R_F 0 +> emit_shift_r8_imm x src 1) Q σ.
Proof.
  intros Hx Hg H Hv Hc HQ. pose proof (holds_rF _ _ _ _ H) as EF.
  apply does_then, does_bt_r32_imm8; [regs|lia|rewrite EF; in_range|]. rewrite EF.
  eapply (does_shift1 x g src v c); [done|done|by apply holds_xf|done|done|]. intros σ' H' Ec Eq. by apply HQ.
Qed.
(** CF into T0, which was cleared. *)
Lemma does_carry_T0 src v c (b k : bool) Q σ : holds src v c σ → cf (xf σ) = Some k → (b = true → xr σ T0 = 0) →
  (∀ σ', holds src v c σ' → (b = true → xr σ' T0 = Z.b2z k) → (∀ q, q ≠ T0 → xr σ' q = xr σ q) → Q σ') →
  does (emit_if b (emit_setcc_r8 X64_CC_C T0)) Q σ.
Proof.
  intros H Ek H0 HQ. apply does_if; intros Hb; [|by apply HQ; [| congruence|]].
  eapply does_setcc_r8; [side|regs|unfold cond; cbn; by rewrite Ek|]. rewrite (H0 Hb).
  replace (merge B8 0 _) with (Z.b2z k) by (by destruct k).
  apply HQ; [apply holds_scratch; [done|regs|regs]|intros _; by xs|]. intros q Hq. xs. by eqs.
Qed.
Lemma does_clear_T0 src v c (b : bool) Q σ : holds src v c σ →
  (∀ σ', holds src v c σ' → (b = true → xr σ' T0 = 0) → (∀ q, q ≠ T0 → xr σ' q = xr σ q) → Q σ') →
  does (emit_if b (emit_alu_r32_r32 X64_ALU_XOR T0 T0)) Q σ.
Proof.
  intros H HQ. apply does_if; intros Hb; [|by apply HQ; [|congruence|]].
  apply does_zero; [regs|]. intros f. apply HQ; [apply holds_xf, holds_scratch; [done|regs|regs]|intros _; by xs|]. intros q Hq. xs. by eqs.
Qed.

(** The rotate, and CF in T0 when C is live: what RLCA to RRA and the CB
    groups share. *)
Definition emit_group (g v : Z) : emitter :=
  match g with
  | 0 => emit_shift_r8_imm X64_SH_ROL v 1
  | 1 => emit_shift_r8_imm X64_SH_ROR v 1
  | 2 => emit_bt_r32_imm8 R_F 0 +> emit_shift_r8_imm X64_SH_RCL v 1
  | 3 => emit_bt_r32_imm8 R_F 0 +> emit_shift_r8_imm X64_SH_RCR v 1
  | 4 => emit_shift_r8_imm X64_SH_SHL v 1
  | 5 => emit_shift_r8_imm X64_SH_SAR v 1
  | 6 => emit_shift_r8_imm X64_SH_SHL v 1 +> emit_if (nz (fmask &' FLAG_C)) (emit_setcc_r8 X64_CC_C T0) +>
         emit_alu_r8_imm8 X64_ALU_OR v 1
  | _ => emit_shift_r8_imm X64_SH_SHR v 1
  end.
Lemma does_group g src v c Q σ : 0 <= g < 8 → holds src v c σ → is_byte v → cpu_ok c →
  (nz (fmask &' FLAG_C) = true → xr σ T0 = 0) → let r := cb_shift g v (Z.testbit (rF c) 0) in
  (∀ σ', holds src r.2 c σ' → (nz (fmask &' FLAG_C) = true → xr σ' T0 = Z.b2z r.1) → xr σ' T2 = xr σ T2 → Q σ') →
  does (emit_group g src +> emit_if (nz (fmask &' FLAG_C) && negb (g =? 6)) (emit_setcc_r8 X64_CC_C T0)) Q σ.
Proof.
  intros Hg H Hv Hc H0 r HQ. destruct (holds_reg _ _ _ _ H) as (Hr & Hs0 & Hs2 & _).
  assert (∀ σ1, g ≠ 6 → holds src (after_shift g v (Z.testbit (rF c) 0)) c σ1 → cf (xf σ1) = Some r.1 → (∀ q, q ≠ src → xr σ1 q = xr σ q) →
    does (emit_if (nz (fmask &' FLAG_C) && negb (g =? 6)) (emit_setcc_r8 X64_CC_C T0)) Q σ1) as Hend.
  { intros σ1 H6 H1 Ec Eq. unfold after_shift in H1. rewrite (proj2 (Z.eqb_neq g 6)) in H1 |- * by done. cbn [negb]. rewrite andb_true_r.
    eapply (does_carry_T0 src r.2 c); [done|done|intros Hb; rewrite Eq by congruence; by apply H0|].
    intros σ2 H2 E2 Eq2. apply HQ; [done|done|]. rewrite Eq2, Eq by (regs || congruence). done. }
  apply does_then. destruct (Z.eqb_spec g 6) as [->|H6].
  - change (emit_group 6 src) with (emit_shift_r8_imm X64_SH_SHL src 1 +> emit_if (nz (fmask &' FLAG_C)) (emit_setcc_r8 X64_CC_C T0) +>
      emit_alu_r8_imm8 X64_ALU_OR src 1).
    apply does_then. eapply (does_shift1 _ 6 src v c (Z.testbit (rF c) 0)); [by vm_compute|done|done|done|done|]. intros σ1 H1 Ec Eq.
    apply does_then. eapply (does_carry_T0 src _ c); [exact H1|exact Ec|intros Hb; rewrite Eq by congruence; by apply H0|].
    intros σ2 H2 E2 Eq2. destruct (holds_reg _ _ _ _ H2) as (_ & _ & _ & _ & _ & _ & Ev2).
    eapply does_alu_r8_imm8; [side|done|by vm_compute|right; left; split; reflexivity|].
    intros f. change (negb true) with false. rewrite andb_false_r. apply does_none. rewrite Ev2. change (after_shift 6 v _) with (u8 (v <<' 1)).
    assert (is_byte (u8 (u8 (v <<' 1)) |' 1)) as Hb1 by (apply byte_lor; [in_range|by vm_compute]).
    rewrite merge8_byte, u8_id by in_range.
    assert (u8 (u8 (v <<' 1)) |' 1 = r.2) as ->.
    { subst r. change (u8 (u8 (v <<' 1)) |' 1 = u8 ((v <<' 1) |' 1)). apply Z.eqb_eq.
      refine (forall_bytes (λ v, u8 (u8 (v <<' 1)) |' 1 =? u8 ((v <<' 1) |' 1)) _ v Hv). by vm_compute. }
    apply HQ; [apply holds_xf; by eapply holds_set|intros Hb; xs; eqs; by apply E2|].
    xs. eqs. rewrite Eq2, Eq by (regs || congruence). done.
  - assert (g = 0 ∨ g = 1 ∨ g = 2 ∨ g = 3 ∨ g = 4 ∨ g = 5 ∨ g = 7) as Eg by lia.
    assert (∀ x, is_shift x (group_op g) → rotates_in g = false → does (emit_shift_r8_imm x src 1)
      (does (emit_if (nz (fmask &' FLAG_C) && negb false) (emit_setcc_r8 X64_CC_C T0)) Q) σ) as Hone.
    { intros x Hx Hrot. eapply (does_shift1 x g src v c (Z.testbit (rF c) 0)); [done|done|done|done|congruence|].
      intros σ1 H1 Ec Eq. by apply Hend. }
    assert (∀ x, is_shift x (group_op g) → does (emit_bt_r32_imm8 R_F 0 +> emit_shift_r8_imm x src 1)
      (does (emit_if (nz (fmask &' FLAG_C) && negb false) (emit_setcc_r8 X64_CC_C T0)) Q) σ) as Htwo.
    { intros x Hx. eapply (does_shift_carry x g src v c); [done|done|done|done|done|]. intros σ1 H1 Ec Eq. by apply Hend. }
    decompose [or] Eg; subst g; cbn [emit_group];
      lazymatch goal with |- RulesX64.does _ _ (then_emit _ _) _ _ => apply Htwo | |- _ => apply Hone end; by vm_compute.
Qed.

(** ** The accumulator rotates *)

(** F &= S|Z|P/V. *)
Lemma does_and_F m c f Q σ : host c σ → xr σ R_F = f → is_byte f → 0 <= m < 256 →
  (∀ σ', host (set_rF (f &' m) c) σ' → (∀ q, q ≠ R_F → xr σ' q = xr σ q) → Q σ') →
  does (emit_alu_r32_imm X64_ALU_AND R_F m) Q σ.
Proof.
  intros H EF Hf Hm HQ. eapply does_alu_r32_imm; [side|regs|unfold int32; lia|rewrite EF; in_range|apply trunc_byte; done|left; split; reflexivity|].
  intros f1. rewrite EF. apply HQ; [by apply host_xf, host_F|]. intros q Hq. xs. by eqs.
Qed.
Lemma does_or_F_imm m c f Q σ : host c σ → xr σ R_F = f → is_byte f → 0 <= m < 256 →
  (∀ σ', host (set_rF (f |' m) c) σ' → (∀ q, q ≠ R_F → xr σ' q = xr σ q) → Q σ') →
  does (emit_alu_r32_imm X64_ALU_OR R_F m) Q σ.
Proof.
  intros H EF Hf Hm HQ. eapply does_alu_r32_imm; [side|regs|unfold int32; lia|rewrite EF; in_range|apply trunc_byte; done|right; left; split; reflexivity|].
  intros f1. rewrite EF. apply HQ; [by apply host_xf, host_F|]. intros q Hq. xs. by eqs.
Qed.
Lemma does_or_F_reg r x c f Q σ : host c σ → xr σ R_F = f → is_byte f → is_reg r → xr σ r = x → is_byte x →
  (∀ σ', host (set_rF (f |' x) c) σ' → (∀ q, q ≠ R_F → xr σ' q = xr σ q) → Q σ') →
  does (emit_alu_r32_r32 X64_ALU_OR R_F r) Q σ.
Proof.
  intros H EF Hf Hr Er Hx HQ. eapply does_alu_r32_r32; [side|regs|done|rewrite EF; in_range|rewrite Er; in_range|left; split; reflexivity|].
  intros f1. rewrite EF, Er. apply HQ; [by apply host_xf, host_F|]. intros q Hq. xs. by eqs.
Qed.
(** [F |= A & (5|3)]. *)
Lemma does_or_xy_A c Q σ : cpu_ok c → host c σ →
  (∀ σ', host (set_rF (rF c |' (rA c &' (FLAG_5 |' FLAG_3))) c) σ' → Q σ') →
  does (emit_mov_r32_r32 T0 R_A +> emit_alu_r32_imm X64_ALU_AND T0 (FLAG_5 |' FLAG_3) +> emit_alu_r32_r32 X64_ALU_OR R_F T0) Q σ.
Proof.
  intros Hc H HQ. apply (does_or_xy l slow (rA c) (rF c)); [pinned_vals; done|in_range|in_range| |].
  - intros K HK. apply does_mov_r32_r32; [regs|regs|pinned_vals; in_range|]. pinned_vals. apply HK; [apply keeps_set; by left|by xs].
  - intros σ' HK E. apply HQ. eapply host_keeps_F; [exact H| |exact E]. eapply keeps_mono; [exact HK|]. intros q. rewrite !elem_of_cons, elem_of_nil. tauto.
Qed.

Definition rot_group (t : z80_op_type) : Z := match t with Z80_OP_RLCA => 0 | Z80_OP_RRCA => 1 | Z80_OP_RLA => 2 | _ => 3 end.
Definition op_rot (t : z80_op_type) c : z80_cpu :=
  match t with Z80_OP_RLCA => op_RLCA c | Z80_OP_RRCA => op_RRCA c | Z80_OP_RLA => op_RLA c | _ => op_RRA c end.
Lemma nz_FLAG_C f : nz (f &' FLAG_C) = Z.testbit f 0.
Proof. change FLAG_C with (2 ^ 0). by apply nz_land_pow2. Qed.
Lemma op_rot_eq t c : cpu_ok c → let r := cb_shift (rot_group t) (rA c) (Z.testbit (rF c) 0) in
  op_rot t c = set_rF (rot_a_flags (rF c) r.2 r.1) (set_rA r.2 c).
Proof.
  intros Hc r. pose proof (ok_rA _ Hc) as Ha.
  assert (u8 ((rA c >>' 1) |' ((rA c &' 1) <<' 7)) = (rA c >>' 1) |' flag_if (nz (rA c &' 1)) 0x80) as E1.
  { apply Z.eqb_eq. refine (forall_bytes (λ a, u8 ((a >>' 1) |' ((a &' 1) <<' 7)) =? (a >>' 1) |' flag_if (nz (a &' 1)) 0x80) _ _ Ha). by vm_compute. }
  subst r. destruct t; cbn [op_rot rot_group cb_shift fst snd]; unfold op_RLCA, op_RRCA, op_RLA, op_RRA; cbv zeta;
    rewrite ?E1, ?nz_FLAG_C, ?carry_in_bit; done.
Qed.
(** F as the code leaves it, from the old F, the new A and the carry. *)
Definition rot_f (f a : Z) (k : bool) : Z :=
  if nz (fmask &' 0x3B) then
    let g := f &' (FLAG_S |' FLAG_Z |' FLAG_PV) in
    let g := if nz (fmask &' FLAG_C) then g |' Z.b2z k else g in
    if nz (fmask &' (FLAG_5 |' FLAG_3)) then g |' (a &' (FLAG_5 |' FLAG_3)) else g
  else f.
Lemma rot_f_masked f a k : is_byte f → is_byte a → rot_f f a k &' fmask = rot_a_flags f a k &' fmask ∧ is_byte (rot_f f a k).
Proof using Hfm.
  intros Hf Ha. split.
  2: { unfold rot_f. repeat case_match; try done; repeat apply byte_lor; try (by apply byte_land); destruct k; by vm_compute. }
  apply masked_ext; [done|]. intros n Hn Hbit. unfold rot_f, rot_a_flags. cbv zeta.
  assert (∀ k, Z.testbit k n = true → nz (fmask &' k) = true) as Hnz.
  { intros k' Hk. apply (nz_testbit _ n); [lia|]. by rewrite Z.land_spec, Hbit, Hk. }
  assert (n = 0 ∨ n = 1 ∨ n = 2 ∨ n = 3 ∨ n = 4 ∨ n = 5 ∨ n = 6 ∨ n = 7) as En by lia.
  decompose [or] En; subst n; clear En; rewrite ?(Hnz 0x3B), ?(Hnz FLAG_C), ?(Hnz (FLAG_5 |' FLAG_3)) by done;
    repeat case_match; rewrite ?Z.lor_spec, ?Z.land_spec, ?Z.lor_spec, ?Z.land_spec; destruct k; cbn [flag_if Z.b2z];
    cbn [FLAG_S FLAG_Z FLAG_PV FLAG_5 FLAG_3 FLAG_C Z.lor Pos.lor Z.testbit Pos.testbit];
    rewrite ?andb_true_r, ?andb_false_r, ?orb_false_r, ?orb_false_l; done.
Qed.
Lemma op_rot_a t c σ : cpu_ok c → host c σ → t ∈ [Z80_OP_RLCA; Z80_OP_RRCA; Z80_OP_RLA; Z80_OP_RRA] →
  does (gen_rot_a t fmask) (lands l c fmask store (op_rot t c)) σ.
Proof using Hl Hfm.
  intros Hc H Ht. pose proof (ok_rA _ Hc) as Ha. pose proof (ok_rF _ Hc) as HF. rewrite op_rot_eq by done. set (r := cb_shift _ _ _).
  assert (is_byte r.2) as Hr by (subst r; by apply cb_shift_byte).
  assert (0 <= rot_group t < 8) as Hg by (destruct t; cbn; lia).
  assert (∀ σ1, host (set_rA r.2 c) σ1 → (nz (fmask &' FLAG_C) = true → xr σ1 T0 = Z.b2z r.1) →
    does (emit_if (nz (fmask &' 0x3B))
      (emit_alu_r32_imm X64_ALU_AND R_F (FLAG_S |' FLAG_Z |' FLAG_PV) +>
       emit_if (nz (fmask &' FLAG_C)) (emit_alu_r32_r32 X64_ALU_OR R_F T0) +>
       emit_if (nz (fmask &' (FLAG_5 |' FLAG_3)))
         (emit_mov_r32_r32 T0 R_A +> emit_alu_r32_imm X64_ALU_AND T0 (FLAG_5 |' FLAG_3) +> emit_alu_r32_r32 X64_ALU_OR R_F T0)))
      (lands l c fmask store (set_rF (rot_a_flags (rF c) r.2 r.1) (set_rA r.2 c))) σ1) as Hend.
  { intros σ1 H1 E1. destruct (rot_f_masked (rF c) r.2 r.1 HF Hr) as [Hmask Hbyte].
    assert (∀ σ', host (set_rF (rot_f (rF c) r.2 r.1) (set_rA r.2 c)) σ' → lands l c fmask store (set_rF (rot_a_flags (rF c) r.2 r.1) (set_rA r.2 c)) σ') as HL.
    { intros σ' H'. eapply (lands_flags l fmask store); [exact H'|exact Hbyte|exact Hmask|reflexivity|cbn; by destruct store|done..]. }
    unfold rot_f in HL. cbv zeta in HL. apply does_if; intros Hw; rewrite Hw in HL; [|apply HL; by eapply host_ext; [exact H1|..]].
    assert (is_byte (rF c &' (FLAG_S |' FLAG_Z |' FLAG_PV))) as Hg1 by by apply byte_land.
    apply does_then. eapply (does_and_F _ (set_rA r.2 c) (rF c)); [exact H1|rewrite (host_rF l _ _ H1); done|done|by vm_compute|].
    intros σ2 H2 Eq2. apply does_then.
    assert (∀ σ3 g, host (set_rF g (set_rA r.2 c)) σ3 → is_byte g → g = (if nz (fmask &' FLAG_C) then rF c &' (FLAG_S |' FLAG_Z |' FLAG_PV) |' Z.b2z r.1 else rF c &' (FLAG_S |' FLAG_Z |' FLAG_PV)) →
      does (emit_if (nz (fmask &' (FLAG_5 |' FLAG_3)))
         (emit_mov_r32_r32 T0 R_A +> emit_alu_r32_imm X64_ALU_AND T0 (FLAG_5 |' FLAG_3) +> emit_alu_r32_r32 X64_ALU_OR R_F T0))
      (lands l c fmask store (set_rF (rot_a_flags (rF c) r.2 r.1) (set_rA r.2 c))) σ3) as Hxy.
    { intros σ3 g H3 Hgb Eg. rewrite <- Eg in HL. apply does_if; intros Hx; rewrite Hx in HL; [|by apply HL].
      eapply (does_or_xy_A (set_rF g (set_rA r.2 c))); [in_range|done|]. intros σ4 H4. by apply HL. }
    apply does_if; intros Hk.
    - eapply (does_or_F_reg T0 (Z.b2z r.1)); [exact H2|by rewrite (host_rF l _ _ H2)|done|regs|rewrite Eq2 by regs; by apply E1|by destruct r.1|].
      intros σ3 H3 _. eapply Hxy; [exact H3| |by rewrite Hk]. apply byte_lor; [done|by destruct r.1].
    - eapply Hxy; [exact H2|done|by rewrite Hk]. }
  unfold gen_rot_a. cbv zeta. apply does_then.
  assert (holds R_A (rA c) c σ) as H0 by (right; split; [done|by eapply host_ext; [exact H|..]]).
  eapply (does_clear_T0 R_A (rA c) c); [done|]. intros σ1 H1 E1 _.
  assert (∀ K, (∀ σ', host (set_rA r.2 c) σ' → (nz (fmask &' FLAG_C) = true → xr σ' T0 = Z.b2z r.1) → K σ') →
    does (emit_group (rot_group t) R_A +> emit_if (nz (fmask &' FLAG_C)) (emit_setcc_r8 X64_CC_C T0)) K σ1) as Hrot.
  { intros K HK. pose proof (does_group (rot_group t) R_A (rA c) c K σ1 Hg H1 Ha Hc E1) as Hd. cbv zeta in Hd. fold r in Hd.
    replace (negb (rot_group t =? 6)) with true in Hd by (by destruct t). rewrite andb_true_r in Hd. apply Hd.
    intros σ' [(? & _)|(_ & H')] E' _; [done|]. by apply HK. }
  rewrite !elem_of_cons, elem_of_nil in Ht.
  destruct Ht as [->|[->|[->|[->|[]]]]]; cbn [rot_group emit_group] in Hrot; apply does_seq2, Hrot; exact Hend.
Qed.

(** ** DAA, CPL, SCF and CCF *)

Lemma op_daa c σ : cpu_ok c → host c σ → does (gen_daa fmask) (lands l c fmask store (op_DAA c)) σ.
Proof using Hl Hfm.
  intros Hc H. pose proof (ok_rA _ Hc) as Ha. pose proof (ok_rF _ Hc) as HF.
  set (k := rF c &' (FLAG_C |' FLAG_N |' FLAG_H)). assert (is_byte k) as Hk by (by apply byte_land).
  set (i := (k <<' 8) |' rA c).
  pose proof (daa_index_range (rA c) (rF c) Ha HF) as Hi. pose proof (daa_table_at (rA c) (rF c) Ha HF) as Et. fold k i in Hi, Et.
  assert (is_byte (daa (rA c) (rF c)).1 ∧ is_byte (daa (rA c) (rF c)).2) as [Hb1 Hb2] by (apply daa_byte).
  assert (op_DAA c = with_f (daa (rA c) (rF c)).2 (set_rA (daa (rA c) (rF c)).1 c)) as -> by (unfold op_DAA; by destruct (daa _ _)).
  set (a' := (daa _ _).1) in *. set (f' := (daa _ _).2) in *. clearbody a' f'.
  assert (0 <= k <<' 8 < 65536) as Hk8 by (rewrite Z.shiftl_mul_pow2 by lia; unfold is_byte in Hk; lia).
  unfold gen_daa. apply does_then, does_mov_r32_r32; [regs|regs|pinned_vals; in_range|]. pinned_vals.
  apply does_then. eapply does_alu_r32_imm; [side|regs|vm_compute; split; congruence|xs; in_range|reflexivity|left; split; reflexivity|].
  intros f1. xs. change (trunc D32 (FLAG_C |' FLAG_N |' FLAG_H)) with (FLAG_C |' FLAG_N |' FLAG_H). fold k.
  apply does_then. eapply does_shift_r32_imm; [side|regs|lia|xs; in_range|left; split; reflexivity|].
  intros f2. xs. rewrite (trunc_dword (k <<' 8)) by (unfold is_dword; lia).
  apply does_then. eapply does_alu_r32_r32; [side|regs|regs|xs; unfold is_dword; lia|xs; pinned_vals; in_range|left; split; reflexivity|].
  intros f3. xs. pinned_vals. fold i. set (σ1 := set_xf f3 _).
  assert (host c σ1) as H1 by (subst σ1; repeat (apply host_xf || (apply host_scratch; [|regs])); done).
  assert (xr σ1 T0 = i) as E1 by (subst σ1; by xs). clearbody σ1.
  apply does_then. eapply does_movzx_r32_m16_sib; [regs|repeat split; try regs; [right; split; regs|off..]|lia|done| |by apply (word_of_word a' f')|].
  { change (index_of T0) with (Some T0). rewrite <- Et, <- E1. apply (get_daa l Hl c σ1 H1); [by rewrite E1|]. rewrite E1, Et. by apply word_of_word. }
  apply does_then, does_movzx_r32_r8; [regs|regs|]. xs. rewrite word_of_lo by done.
  assert (host (set_rA a' c) (set_reg R_A a' (set_reg T0 (word_of a' f') σ1))) as H2 by (apply host_A, host_scratch; [done|regs]).
  apply does_if; intros Hw.
  - apply does_movzx_r32_ah; [regs|]. xs. rewrite word_of_hi, u8_id by done.
    eapply (lands_flags l fmask store c (set_rF f' (set_rA a' c))); [by apply host_F|exact Hb2|done|done|by destruct store|done..].
  - eapply (lands_flags l fmask store c (set_rA a' c)); [exact H2|exact HF|by apply masked_0|done|by destruct store|done..].
Qed.

Lemma op_cpl c σ : cpu_ok c → host c σ → does (gen_cpl fmask) (lands l c fmask store (op_CPL c)) σ.
Proof using Hl Hfm.
  intros Hc H. pose proof (ok_rA _ Hc) as Ha. pose proof (ok_rF _ Hc) as HF. unfold gen_cpl.
  set (a := u8 (Z.lnot (rA c))). assert (is_byte a) as Hab by (subst a; in_range).
  assert (rA c ^' 0xFF = a) as Ex.
  { apply Z.eqb_eq. refine (forall_bytes (λ a, a ^' 0xFF =? u8 (Z.lnot a)) _ _ Ha). by vm_compute. }
  apply does_then. eapply does_alu_r8_imm8; [side|regs|by vm_compute|right; right; split; reflexivity|].
  intros f1. pinned_vals. rewrite (u8_id (rA c)), Ex, merge8_byte, (u8_id a) by done.
  assert (host (set_rA a c) (set_xf f1 (set_reg R_A a σ))) as H1 by by apply host_xf, host_A.
  set (σ1 := set_xf f1 _) in *. clearbody σ1.
  set (g := ((rF c &' (0xFF &~ (FLAG_5 |' FLAG_3))) |' (FLAG_H |' FLAG_N)) |' (a &' (FLAG_5 |' FLAG_3))).
  assert (rF (op_CPL c) = g) as Eg.
  { unfold op_CPL. cbv zeta. fold a. cbn [with_f rF set_rF set_rQ set_rA rA]. subst g.
    apply Z.eqb_eq. unfold xy_from.
    refine (forall_bytes2 (λ f a, (f &~ (FLAG_5 |' FLAG_3)) |' FLAG_H |' FLAG_N |' (a &' (FLAG_5 |' FLAG_3)) =?
      ((f &' (0xFF &~ (FLAG_5 |' FLAG_3))) |' (FLAG_H |' FLAG_N)) |' (a &' (FLAG_5 |' FLAG_3))) _ _ _ HF Hab). by vm_compute. }
  assert (∀ σ' f, host (set_rF f (set_rA a c)) σ' → is_byte f → f &' fmask = g &' fmask → lands l c fmask store (op_CPL c) σ') as HL.
  { intros σ' f H' Hf Ef. eapply (lands_flags l fmask store c (set_rF f (set_rA a c))); [exact H'|exact Hf|by rewrite Eg|done|by destruct store|done..]. }
  apply does_if; intros Hw.
  - apply does_then. eapply (does_and_F _ (set_rA a c) (rF c)); [done|by rewrite (host_rF l _ _ H1)|done|by vm_compute|]. intros σ2 H2 _.
    apply does_then. eapply (does_or_F_imm _ _ _); [exact H2|by rewrite (host_rF l _ _ H2)|by apply byte_land|by vm_compute|]. intros σ3 H3 _.
    eapply does_or_xy_A; [|exact H3|].
    { assert (is_byte ((rF c &' (0xFF &~ (FLAG_5 |' FLAG_3))) |' (FLAG_H |' FLAG_N))) by (apply byte_lor; [by apply byte_land|by vm_compute]). in_range. }
    intros σ4 H4. eapply (HL σ4 g); [by eapply host_ext; [exact H4|..]| |done]. rewrite <- Eg. apply ok_rF. unfold op_CPL; in_range.
  - apply (HL σ1 (rF c)); [by eapply host_ext; [exact H1|..]|done|].
    assert (fmask &' 0x3A = 0) as Ez by by apply nz_disjoint. apply masked_ext; [done|]. intros n Hn Hbit.
    assert (Z.testbit 0x3A n = false) as Hb.
    { pose proof (f_equal (λ x, Z.testbit x n) Ez) as E. cbv beta in E. by rewrite Z.land_spec, Hbit, Z.bits_0 in E. }
    subst g. assert (n = 0 ∨ n = 2 ∨ n = 6 ∨ n = 7) as En.
    { assert (n = 0 ∨ n = 1 ∨ n = 2 ∨ n = 3 ∨ n = 4 ∨ n = 5 ∨ n = 6 ∨ n = 7) as E by lia. decompose [or] E; subst; try done; tauto. }
    decompose [or] En; subst n; rewrite !Z.lor_spec, !Z.land_spec;
      cbn [FLAG_S FLAG_Z FLAG_PV FLAG_5 FLAG_3 FLAG_C FLAG_H FLAG_N Z.lor Pos.lor Z.testbit Pos.testbit Z.ldiff Pos.ldiff N.succ_double];
      by rewrite ?andb_true_r, ?andb_false_r, ?orb_false_r.
Qed.

(** What the code knows of [cpu->q]: set, clear, or to be read. *)
Definition q_known (prev_q q : Z) σ : Prop :=
  if 0 <? prev_q then q ≠ 0 else if prev_q =? 0 then q = 0 else at_ l σ (cpu_p l + OFF_Q) = q ∧ is_byte q.
Definition emit_q_src (prev_q : Z) : emitter :=
  if 0 <? prev_q then emit_mov_r32_r32 T3 R_A
  else if prev_q =? 0 then emit_mov_r32_r32 T3 R_A +> emit_alu_r32_r32 X64_ALU_OR T3 R_F
  else
    emit_movzx_r32_m8 T0 R_CPU X64_NOREG OFF_Q +> emit_mov_r32_r32 T3 R_A +>
    emit_alu_r32_r32 X64_ALU_OR T3 R_F +> emit_test_r32_r32 T0 T0 +> emit_cmovcc_r32_r32 X64_CC_NZ T3 R_A.
Lemma q_xy_src_byte q c : cpu_ok c → is_byte (q_xy_src q c).
Proof. intros Hc. unfold q_xy_src. destruct (nz q); [in_range|]. apply byte_lor; in_range. Qed.
Lemma does_q_src prev_q q c Q σ : cpu_ok c → host c σ → q_known prev_q q σ →
  (∀ σ', host c σ' → xr σ' T3 = q_xy_src q c → Q σ') → does (emit_q_src prev_q) Q σ.
Proof using Hl.
  intros Hc H Hq HQ. unfold emit_q_src, q_known, q_xy_src, nz in *. pose proof (ok_rA _ Hc) as Ha. pose proof (ok_rF _ Hc) as HF.
  assert (is_byte (rA c |' rF c)) as Haf by by apply byte_lor.
  destruct (0 <? prev_q).
  { rewrite (proj2 (Z.eqb_neq q 0)) in HQ by done. apply does_mov_r32_r32; [regs|regs|pinned_vals; in_range|]. pinned_vals.
    apply HQ; [apply host_scratch; [done|regs]|by xs]. }
  destruct (prev_q =? 0).
  { subst q. apply does_then, does_mov_r32_r32; [regs|regs|pinned_vals; in_range|]. pinned_vals.
    eapply does_alu_r32_r32; [side|regs|regs|xs; in_range|xs; pinned_vals; in_range|left; split; reflexivity|].
    intros f. xs. pinned_vals. apply HQ; [repeat (apply host_xf || (apply host_scratch; [|regs])); done|by xs]. }
  destruct Hq as [Eq Hqb].
  apply does_then. eapply (does_movzx_r32_m8 l slow T0 _ _ _ q); [regs|side; unfold OFF_Q; lia| |done|].
  { cbn [mem_op get nbytes_of index_of X64_NOREG]. change (index_of X64_NOREG) with (@None Z). rewrite (ea_cpu l Hl) by (first [by eapply host_rCPU|off]).
    rewrite (ld1 l Hl) by (apply guest_cpu; off). exact Eq. }
  apply does_then, does_mov_r32_r32; [regs|regs|xs; pinned_vals; in_range|]. xs. pinned_vals.
  apply does_then. eapply does_alu_r32_r32; [side|regs|regs|xs; in_range|xs; pinned_vals; in_range|left; split; reflexivity|].
  intros f. xs. pinned_vals.
  apply does_then, does_test_r32_r32; [regs|regs|xs; in_range|xs; in_range|]. xs.
  eapply (does_cmovcc_r32_r32 l slow X64_CC_NZ T3 R_A (negb (q =? 0))); [side|regs|regs|xs; in_range|xs; pinned_vals; in_range| |].
  { cbn [xf set_xf]. rewrite Z.land_diag. reflexivity. }
  xs. pinned_vals. apply HQ; [repeat (apply host_xf || (apply host_scratch; [|regs])); done|by xs].
Qed.

(** F from the new S|Z|P/V, H, N and C bits. *)
Definition emit_scf_body (is_scf : bool) : emitter :=
  if is_scf then
    emit_alu_r32_imm X64_ALU_AND R_F (FLAG_S |' FLAG_Z |' FLAG_PV) +> emit_alu_r32_imm X64_ALU_OR R_F FLAG_C
  else
    emit_mov_r32_r32 T0 R_F +> emit_alu_r32_imm X64_ALU_AND T0 FLAG_C +> emit_mov_r32_r32 T2 T0 +>
    emit_alu_r32_imm X64_ALU_XOR T2 1 +> emit_shl_r32_imm T0 4 +>
    emit_alu_r32_imm X64_ALU_AND R_F (FLAG_S |' FLAG_Z |' FLAG_PV) +>
    emit_alu_r32_r32 X64_ALU_OR R_F T2 +> emit_alu_r32_r32 X64_ALU_OR R_F T0.
Definition scf_bits (is_scf : bool) (f : Z) : Z :=
  if is_scf then (f &' (FLAG_S |' FLAG_Z |' FLAG_PV)) |' FLAG_C
  else (f &' (FLAG_S |' FLAG_Z |' FLAG_PV)) |' flag_if (nz (f &' FLAG_C)) FLAG_H |' flag_if (negb (nz (f &' FLAG_C))) FLAG_C.
Lemma does_scf_body (is_scf : bool) c Q σ : cpu_ok c → host c σ →
  (∀ σ', host (set_rF (scf_bits is_scf (rF c)) c) σ' → xr σ' T3 = xr σ T3 → Q σ') → does (emit_scf_body is_scf) Q σ.
Proof.
  intros Hc H HQ. pose proof (ok_rF _ Hc) as HF. unfold emit_scf_body. destruct is_scf; cbn [scf_bits] in HQ.
  - apply does_then. eapply (does_and_F _ c (rF c)); [done|pinned_vals; done|done|by vm_compute|]. intros σ1 H1 E1.
    eapply does_or_F_imm; [exact H1|by rewrite (host_rF l _ _ H1)|by apply byte_land|by vm_compute|]. intros σ2 H2 E2.
    apply HQ; [by eapply host_ext; [exact H2|..]|]. rewrite E2, E1 by regs. done.
  - set (k := rF c &' FLAG_C). assert (is_byte k) as Hk by by apply byte_land.
    assert (is_byte (k ^' 1) ∧ is_byte (k <<' 4) ∧ scf_bits false (rF c) = ((rF c &' (FLAG_S |' FLAG_Z |' FLAG_PV)) |' (k ^' 1)) |' (k <<' 4)) as (Hx & Hs & Eb).
    { assert (forall f, is_byte f → (0 <=? (f &' FLAG_C) ^' 1) && ((f &' FLAG_C) ^' 1 <? 256) && (0 <=? (f &' FLAG_C) <<' 4) && ((f &' FLAG_C) <<' 4 <? 256) &&
        (scf_bits false f =? ((f &' (FLAG_S |' FLAG_Z |' FLAG_PV)) |' ((f &' FLAG_C) ^' 1)) |' ((f &' FLAG_C) <<' 4)) = true) as Hall.
      { refine (forall_bytes (λ f, (0 <=? (f &' FLAG_C) ^' 1) && ((f &' FLAG_C) ^' 1 <? 256) && (0 <=? (f &' FLAG_C) <<' 4) && ((f &' FLAG_C) <<' 4 <? 256) &&
        (scf_bits false f =? ((f &' (FLAG_S |' FLAG_Z |' FLAG_PV)) |' ((f &' FLAG_C) ^' 1)) |' ((f &' FLAG_C) <<' 4))) _). by vm_compute. }
      specialize (Hall _ HF). fold k in Hall. rewrite !andb_true_iff in Hall. unfold is_byte. split_and!; lia. }
    change ((rF c &' (FLAG_S |' FLAG_Z |' FLAG_PV)) |' flag_if (nz (rF c &' FLAG_C)) FLAG_H |' flag_if (negb (nz (rF c &' FLAG_C))) FLAG_C) with (scf_bits false (rF c)) in HQ.
    rewrite Eb in HQ. clear Eb.
    apply does_then, does_mov_r32_r32; [regs|regs|pinned_vals; in_range|]. pinned_vals.
    apply does_then. eapply does_alu_r32_imm; [side|regs|vm_compute; split; congruence|xs; in_range|reflexivity|left; split; reflexivity|].
    intros f1. xs. change (trunc D32 FLAG_C) with FLAG_C. fold k.
    apply does_then, does_mov_r32_r32; [regs|regs|xs; in_range|]. xs.
    apply does_then. eapply does_alu_r32_imm; [side|regs|vm_compute; split; congruence|xs; in_range|reflexivity|right; right; left; split; reflexivity|].
    intros f2. xs. change (trunc D32 1) with 1.
    apply does_then. eapply does_shift_r32_imm; [side|regs|lia|xs; in_range|left; split; reflexivity|].
    intros f3. xs. rewrite (trunc_dword (k <<' 4)) by in_range. set (σ1 := set_xf f3 _).
    assert (host c σ1 ∧ xr σ1 T2 = k ^' 1 ∧ xr σ1 T0 = k <<' 4 ∧ xr σ1 T3 = xr σ T3) as (H1 & E2 & E0 & E3).
    { subst σ1. split_and!; [repeat (apply host_xf || (apply host_scratch; [|regs])); done|by xs..]. }
    clearbody σ1. apply does_then. eapply (does_and_F _ c (rF c)); [done|pinned_vals; done|done|by vm_compute|]. intros σ2 H2 Q2.
    apply does_then. eapply (does_or_F_reg T2 (k ^' 1)); [exact H2|by rewrite (host_rF l _ _ H2)|by apply byte_land|regs|by rewrite Q2 by regs|done|]. intros σ3 H3 Q3.
    eapply (does_or_F_reg T0 (k <<' 4)); [exact H3|by rewrite (host_rF l _ _ H3)|apply byte_lor; [by apply byte_land|done]|regs|by rewrite Q3, Q2 by regs|done|]. intros σ4 H4 Q4.
    apply HQ; [by eapply host_ext; [exact H4|..]|]. by rewrite Q4, Q3, Q2 by regs.
Qed.

Definition op_scf_ccf (is_scf : bool) (q : Z) c : z80_cpu := if is_scf then op_SCF q c else op_CCF q c.
Lemma op_scf_ccf_eq is_scf q c : op_scf_ccf is_scf q c = with_f (scf_bits is_scf (rF c) |' xy_from (q_xy_src q c)) c.
Proof. destruct is_scf; done. Qed.
Lemma op_scf (is_scf : bool) prev_q q c σ : cpu_ok c → host c σ → q_known prev_q q σ →
  does (gen_scf_ccf is_scf prev_q fmask) (lands l c fmask store (op_scf_ccf is_scf q c)) σ.
Proof using Hl Hfm.
  intros Hc H Hq. pose proof (ok_rF _ Hc) as HF. rewrite op_scf_ccf_eq. pose proof (q_xy_src_byte q c Hc) as Hx. set (x := q_xy_src q c) in *.
  assert (is_byte (scf_bits is_scf (rF c))) as Hb.
  { destruct is_scf; cbn [scf_bits]; repeat apply byte_lor; try (by apply byte_land); try (by vm_compute); destruct (nz _); by vm_compute. }
  set (g := scf_bits is_scf (rF c) |' xy_from x).
  assert (is_byte g) as Hg by (apply byte_lor; [done|by apply byte_land]).
  assert (∀ σ' f, host (set_rF f c) σ' → is_byte f → f &' fmask = g &' fmask → lands l c fmask store (with_f g c) σ') as HL.
  { intros σ' f H' Hf Ef. eapply (lands_flags l fmask store c (set_rF f c)); [exact H'|exact Hf|exact Ef|done|by destruct store|done..]. }
  unfold gen_scf_ccf. destruct (nz (fmask &' 0x3B)) eqn:Hw; cbn [negb].
  - apply does_then. eapply (does_q_src prev_q q c); [done|done|done|]. intros σ1 H1 E1.
    apply does_then. eapply (does_scf_body is_scf c); [done|done|]. intros σ2 H2 E2. rewrite E1 in E2.
    apply does_then. eapply does_alu_r32_imm; [side|regs|vm_compute; split; congruence|rewrite E2; in_range|reflexivity|left; split; reflexivity|].
    intros f1. rewrite E2. change (trunc D32 (FLAG_5 |' FLAG_3)) with (FLAG_5 |' FLAG_3). fold x.
    eapply (does_or_F_reg T3 (x &' (FLAG_5 |' FLAG_3))); [apply host_xf, host_scratch; [exact H2|regs]|exact (host_rF l _ _ H2)|done|regs|by xs|by apply byte_land|].
    intros σ3 H3 _. apply (HL σ3 g); [by eapply host_ext; [exact H3|..]|done|done].
  - apply does_none, (HL σ (rF c)); [by eapply host_ext; [exact H|..]|done|].
    assert (fmask &' 0x3B = 0) as Ez by by apply nz_disjoint. apply masked_ext; [done|]. intros n Hn Hbit.
    assert (Z.testbit 0x3B n = false) as Hb3.
    { pose proof (f_equal (λ x, Z.testbit x n) Ez) as E. cbv beta in E. by rewrite Z.land_spec, Hbit, Z.bits_0 in E. }
    assert (n = 2 ∨ n = 6 ∨ n = 7) as En.
    { assert (n = 0 ∨ n = 1 ∨ n = 2 ∨ n = 3 ∨ n = 4 ∨ n = 5 ∨ n = 6 ∨ n = 7) as E by lia. decompose [or] E; subst; try done; tauto. }
    subst g. unfold xy_from. rewrite Z.lor_spec, Z.land_spec.
    assert (Z.testbit (scf_bits is_scf (rF c)) n = Z.testbit (rF c) n) as ->.
    { destruct is_scf; cbn [scf_bits]; rewrite ?Z.lor_spec, Z.land_spec; decompose [or] En; subst n; try (destruct (nz (rF c &' FLAG_C))); by destruct (Z.testbit (rF c) _). }
    decompose [or] En; subst n; cbn [FLAG_5 FLAG_3 Z.lor Pos.lor Z.testbit Pos.testbit]; by rewrite ?andb_false_r, ?orb_false_r.
Qed.

(** ** Memory operands *)

Context `{HW : Host W} (w : W).
(** The register the address of a memory operand is in. *)
Definition areg d : Z := if has_idx d then T2 else R_HL.
Lemma areg_reg d : is_reg (areg d) ∧ areg d ≠ 4 ∧ areg d ≠ T1 ∧ areg d ≠ R_A ∧ areg d ≠ R_F ∧ areg d ≠ T0.
Proof. unfold areg. destruct (has_idx d); split_and!; regs. Qed.
Definition addr_of d c : Z := effective_addr d (rHL c) c.
Lemma addr_word d c : cpu_ok c → is_word (addr_of d c).
Proof. intros Hc. apply effective_addr_word; in_range. Qed.
Lemma does_addr d c Q σ : cpu_ok c → host c σ → -128 <= disp d <= 127 →
  (∀ σ', host c σ' → xr σ' (areg d) = addr_of d c → Q σ') →
  does (emit_if (has_idx d) (emit_idx_eff_addr T2 (prefix d) (disp d))) Q σ.
Proof using Hl.
  intros Hc H Hd HQ. unfold areg in HQ. apply does_if; intros Hx; rewrite Hx in HQ.
  - apply (does_idx_eff_addr l Hl slow c T2 d (rHL c)); [done|done|regs|done|done|]. intros σ' Hs.
    apply HQ; [|by eapply sets_at]. eapply host_sets; [done| |done]. regs.
  - apply HQ; [done|]. unfold addr_of. rewrite effective_addr_plain by done. by eapply host_rHL.
Qed.
(** The byte there, in T1. *)
Lemma does_load_T1 d c Q σ : cpu_ok c → host c σ → xr σ (areg d) = addr_of d c →
  (∀ σ', holds T1 (mget (mem c) (addr_of d c)) c σ' → xr σ' T2 = xr σ T2 → xr σ' (areg d) = addr_of d c → Q σ') →
  does (emit_movzx_r32_m8 T1 R_MEM (areg d) 0) Q σ.
Proof using Hl.
  intros Hc H Ea HQ. destruct (areg_reg d) as (Hr & H4 & H1 & _).
  eapply (does_load l Hl slow c); [done|exact H|regs|done|done|exact Ea|by apply addr_word|].
  apply HQ; [left; split_and!; [done|apply host_scratch; [done|regs]|by xs]|by xs|]. xs. by eqs.
Qed.
(** The address is still there after work on T1 that leaves T2 alone. *)
Lemma areg_kept d v c c' σ σ' : xr σ (areg d) = addr_of d c → host c σ → holds T1 v c' σ' → xr σ' T2 = xr σ T2 → rHL c' = rHL c →
  xr σ' (areg d) = addr_of d c.
Proof.
  intros Ea H H' E2 EH. rewrite <- Ea. unfold areg. destruct (has_idx d); [done|].
  destruct H' as [(_ & H' & _)|(? & _)]; [|done]. by rewrite (host_rHL l _ _ H'), EH, (host_rHL l _ _ H).
Qed.
Lemma mem_w_pair a v c : is_word a → (mem_w a v (c, w)).1 = set_mem (mset a v (mem c)) c.
Proof. intros Ha. unfold mem_w. cbn [fst snd]. by rewrite u16_id. Qed.

(** ** INC and DEC of a register or memory byte *)

Definition op_step_hl (is_inc : bool) d c : z80_cpu := (if is_inc then op_INC_HL_ind d (c, w) else op_DEC_HL_ind d (c, w)).1.
Lemma op_step_hl_eq (is_inc : bool) d c : cpu_ok c → let v := step8 is_inc (mget (mem c) (addr_of d c)) in
  op_step_hl is_inc d c = with_f (step_flags is_inc (rF c) v) (set_mem (mset (addr_of d c) v (mem c)) c).
Proof.
  intros Hc v. pose proof (addr_word d c Hc) as Ha.
  destruct is_inc; unfold op_step_hl, op_INC_HL_ind, op_DEC_HL_ind, on_cpu; cbn [fst snd]; fold (addr_of d c); by rewrite mem_w_pair.
Qed.
Lemma step_hl (is_inc : bool) d c σ : cpu_ok c → host c σ → xr σ (areg d) = addr_of d c →
  does (emit_movzx_r32_m8 T1 R_MEM (areg d) 0 +> emit_incdec8_inline T1 is_inc fmask)
    (gdoes (emit_guest_storeb_smc T1 (areg d)) 1 (lands l c fmask store (op_step_hl is_inc d c))) σ.
Proof using Hl Hslow Hfm.
  intros Hc H Ea. destruct (areg_reg d) as (Hr & H4 & H1 & _). pose proof (addr_word d c Hc) as Hw.
  rewrite op_step_hl_eq by done. set (v := mget (mem c) (addr_of d c)). assert (is_byte v) as Hv by (subst v; in_range).
  apply does_then, (does_load_T1 d c); [done|done|done|]. intros σ1 H1' E2 Ea1.
  eapply (does_incdec8 T1 v is_inc c); [done|exact H1'|done|]. intros σ2 f H2 E22 Hf Ef.
  assert (xr σ2 (areg d) = addr_of d c) as Ea2 by (eapply (areg_kept d _ c (set_rF f c) σ σ2); [done|done|exact H2|congruence|done]).
  destruct H2 as [(_ & H2 & E1)|(? & _)]; [|done].
  eapply (gdoes_storeb l Hl slow Hslow (set_rF f c) (areg d)); [exact H2|done|done|regs|exact Ea2|done|exact E1|unfold step8; in_range|].
  intros σ3 H3. eapply (lands_flags l fmask store c); [exact H3|exact Hf|exact Ef|reflexivity|by destruct store|done..].
Qed.
Lemma op_incdec_hl_ind (is_inc : bool) d c σ : cpu_ok c → host c σ → -128 <= disp d <= 127 →
  gdoes (gen_incdec_hl_ind d is_inc fmask) 1 (lands l c fmask store (op_step_hl is_inc d c)) σ.
Proof using Hl Hslow Hfm.
  intros Hc H Hd. apply (gdoes_then l slow _ _ 0 1), gdoes_lift, does_then, (does_addr d c); [done|done|done|].
  intros σ1 H1 E1. by apply step_hl.
Qed.

(** The high half of a pair, in place. *)
Lemma step_high (is_inc : bool) x : is_word x →
  u16 (trunc D32 (if is_inc then x + 256 else x - 256)) = word_of (u8 x) (step8 is_inc (x >>' 8)).
Proof.
  intros Hx. rewrite word_of_add by (unfold step8; apply u8_byte || (pose proof (u8_byte (if is_inc then (x >>' 8) + 1 else (x >>' 8) - 1)); unfold is_byte in *; lia)).
  unfold step8, u8, u16, trunc. cbn [modulus]. rewrite Z.shiftr_div_pow2 by lia. change (2 ^ 8) with 256. unfold is_word in Hx.
  destruct is_inc; Z.to_euclidean_division_equations; lia.
Qed.
Definition op_step_r (is_inc : bool) d c : z80_cpu := (if is_inc then op_INC_R d (c, w) else op_DEC_R d (c, w)).1.
Lemma op_step_r_eq (is_inc : bool) d c : reg1 d ≠ 6 → r8_code (reg1 d) → let v := step8 is_inc (default 0 (reg8_p (reg1 d) (prefix d) c)) in
  op_step_r is_inc d c = with_f (step_flags is_inc (rF c) v) (set_reg8_p (reg1 d) (prefix d) v c).
Proof.
  intros H6 Hr v. unfold op_step_r, op_INC_R, op_DEC_R. rewrite (proj2 (Z.eqb_neq _ 6)) by done. subst v.
  cbn [fst]. pose proof (reg8_of (reg1 d) (prefix d) c Hr) as E. destruct (reg8_p (reg1 d) (prefix d) c) as [p|]; [|done]. by destruct is_inc.
Qed.
(** F and the register written: the end of the register forms. *)
Lemma land_step is_inc r pfx v f c σ' : is_byte f → f &' fmask = step_flags is_inc (rF c) v &' fmask →
  host (set_rF f (set_reg8_p r pfx v c)) σ' → lands l c fmask store (with_f (step_flags is_inc (rF c) v) (set_reg8_p r pfx v c)) σ'.
Proof.
  intros Hf Ef H'. eapply (lands_flags l fmask store c); [exact H'|exact Hf|exact Ef|reflexivity| |done..].
  cbn. destruct (set_reg8_p_rest r pfx v c) as [-> _]. by destruct store.
Qed.

(** A guest register into the working byte, and back. *)
Lemma read_holds c r pfx : cpu_ok c → r8_code r → let v := default 0 (reg8_p r pfx c) in
  ∃ code src, emit_read_r8 T1 r pfx = (code, src) ∧ is_byte v ∧ (src = R_A → r = 7) ∧
  ∀ σ Q, host c σ → (∀ σ', holds src v c σ' → host c σ' → (∀ q, q ≠ T1 → xr σ' q = xr σ q) → Q σ') → does code Q σ.
Proof using Hl.
  intros Hc Hr v. destruct (read_T1 l Hl slow c r pfx Hc Hr) as (code & src & E & Hsrc & Hv & Hrd). fold v in Hv, Hrd.
  exists code, src. split_and!; [done|done| |].
  - intros ->. revert E. unfold emit_read_r8. destruct (Z.eqb_spec r 7); [done|].
    destruct (r8_host_pair r) as [[? []]|]; intros [= _ E]; discriminate E.
  - intros σ Q H HQ. apply Hrd; [done|]. intros σ' H' E' Ek. apply HQ; [|done|done]. destruct Hsrc as [->| ->]; [by left|right].
    split; [done|]. eapply host_ext; [exact H'|..]; try done. cbn. rewrite <- E'. by eapply host_rA.
Qed.
Lemma write_holds c r pfx src v Q σ : cpu_ok c → holds src v c σ → r8_code r → (src = R_A → r = 7) → is_byte v →
  (∀ σ', host (set_reg8_p r pfx v c) σ' → (∀ q, scratch q → xr σ' q = xr σ q) → Q σ') → does (emit_write_r8 r pfx src) Q σ.
Proof using Hl.
  intros Hc H Hr H7 Hv HQ. destruct H as [(-> & H & E)|(-> & H)].
  - eapply (does_write_r8 l Hl slow c); [done|exact H|done|left; regs|exact E|done|exact HQ].
  - specialize (H7 eq_refl) as ->. unfold emit_write_r8. cbn [Z.eqb Pos.eqb]. apply does_if; [done|]. intros _. by apply HQ.
Qed.
Lemma set_reg8_F r pfx v f c : set_reg8_p r pfx v (set_rF f c) = set_rF f (set_reg8_p r pfx v c).
Proof. unfold set_reg8_p. repeat case_match; done. Qed.

Lemma does_incdec_high (is_inc : bool) d c pr σ : cpu_ok c → host c σ → r8_host_pair (reg1 d) = Some (pr, true) →
  let v := step8 is_inc (default 0 (reg8_p (reg1 d) (prefix d) c)) in
  does (gen_incdec_high pr is_inc fmask) (lands l c fmask store (with_f (step_flags is_inc (rF c) v) (set_reg8_p (reg1 d) (prefix d) v c))) σ.
Proof using Hl Hfm.
  intros Hc H Hp v. pose proof (ok_rF _ Hc) as HF. destruct (pair_word l c σ (reg1 d) pr true Hc H Hp) as (Hw & Hpr & Hns & HnA).
  set (x := xr σ pr) in *.
  assert (step8 is_inc (x >>' 8) = v ∧ is_byte v) as [Ev Hv].
  { split; [|unfold v, step8; in_range]. subst v x. f_equal.
    destruct (r8_pair_codes _ _ _ Hp) as [F|[F|[F|[F|[F|F]]]]]; destruct F as (E & -> & F); try done; rewrite E; pinned_vals;
      cbn [reg8_p from_option]; unfold rBC, rDE, rHL; by rewrite word_of_hi by in_range. }
  destruct (step_table is_inc v Hv) as (Ht & Htc & Esp). set (t := table_at _ _) in *.
  destruct (keep_c_masked fmask (rF c) t Hfm HF Ht Htc) as [Hmask Hbyte]. rewrite <- Esp in Hmask. unfold keep_c_f in *.
  set (rest := nz (fmask &' (0xFF &~ FLAG_C))) in *. unfold gen_incdec_high. cbv zeta. fold rest.
  assert (∀ σ' f, host (set_rF f (set_reg8_p (reg1 d) (prefix d) v c)) σ' → is_byte f → f &' fmask = step_flags is_inc (rF c) v &' fmask →
    lands l c fmask store (with_f (step_flags is_inc (rF c) v) (set_reg8_p (reg1 d) (prefix d) v c)) σ') as HL by (intros; by eapply land_step).
  assert (is_dword x) as Hx by in_range. assert (pr ≠ T0 ∧ pr ≠ T1 ∧ pr ≠ R_F ∧ pr ≠ R_AUX) as (Hp0 & Hp1 & HpF & HpX).
  { destruct (r8_pair_codes _ _ _ Hp) as [F|[F|[F|[F|[F|F]]]]]; destruct F as (_ & -> & _); split_and!; regs. }
  apply does_then. assert (holds T1 (xr σ T1) c σ) as H0 by (left; done). eapply (does_keep_c T1 _ c); [exact H0|done|]. intros σ1 H1' E1 Eq1.
  destruct H1' as [(_ & H1 & _)|(? & _)]; [|done].
  assert (xr σ1 pr = x) as Ex1 by (rewrite Eq1 by done; done).
  apply does_then. eapply (does_alu_r32_imm l slow _ pr 0x100 0x100 (trunc D32 (if is_inc then x + 256 else x - 256)));
    [destruct is_inc; side|done|unfold int32; lia|rewrite Ex1; done|reflexivity|rewrite Ex1; destruct is_inc; [right; right; right; left|right; right; right; right]; split; reflexivity|].
  intros f1. apply does_then, does_movzx_r32_r16; [done|done|]. xs. rewrite Z.eqb_refl, step_high, Ev by done.
  set (σ2 := set_reg pr _ _).
  assert (sets pr (half_set true (xr σ1 pr) v) σ1 σ2) as S2.
  { split; [|done]. intros q. subst σ2. xs. rewrite Ex1. cbn [half_set]. by destruct (q =? pr). }
  assert (host (set_reg8_p (reg1 d) (prefix d) v c) σ2) as H2 by (eapply host_sets_pair; [exact Hc|exact H1|done|exact Hp|exact S2]).
  assert (xr σ2 T0 = xr σ1 T0) as E20 by (by eapply sets_other).
  assert (xr σ2 pr = word_of (u8 x) v) as E2p by (rewrite (sets_at _ _ _ _ S2), Ex1; done).
  clearbody σ2. set (c2 := set_reg8_p (reg1 d) (prefix d) v c) in *.
  assert (rF c2 = rF c) as EF by exact (proj2 (set_reg8_p_rest _ _ _ _)).
  apply does_if; intros Hrest; rewrite Hrest in *.
  2: { apply (HL σ2 (rF c)); [|done|done]. rewrite <- EF. eapply host_ext; [exact H2|..]; done. }
  apply does_seq2. eapply does_high; [regs|done|exact E2p|in_range|]. rewrite word_of_hi by in_range. intros σ3 S3.
  assert (holds T1 v c2 σ3) as H3.
  { left. split_and!; [done| |by eapply sets_at]. eapply host_sets; [exact H2| |exact S3]. regs. }
  apply does_then. change (if is_inc then FT_INC else FT_DEC) with (step_row is_inc).
  eapply (does_table_F T1 v c2 _ t); [exact H3|done|destruct is_inc; by vm_compute|destruct is_inc; by vm_compute|done|done|].
  intros σ4 H4 Eq4. cbn [andb] in *. apply does_if; intros Hk; rewrite Hk in *.
  - eapply (does_or_F T1 v (set_rF t c2) (rF c &' FLAG_C)); [exact H4|done| |by apply byte_land|].
    { rewrite Eq4 by regs. rewrite (sets_other _ _ _ _ T0 S3) by regs. rewrite E20. by apply E1. }
    intros σ5 [(_ & H5 & _)|(? & _)] _; [|done]. apply (HL σ5 (t |' (rF c &' FLAG_C))); [by eapply host_ext; [exact H5|..]|done|done].
  - destruct H4 as [(_ & H4 & _)|(? & _)]; [|done]. by apply (HL σ4 t).
Qed.

Lemma op_incdec_r (is_inc : bool) d c σ : cpu_ok c → host c σ →
  (if reg1 d =? 6 then negb (has_idx d) else reg8_offset_ok (reg1 d)) = true →
  ∃ k, (k <= 2)%nat ∧ gdoes (gen_incdec_r d is_inc fmask) k (lands l c fmask store (op_step_r is_inc d c)) σ.
Proof using Hl Hslow Hfm.
  intros Hc H Hacc. unfold gen_incdec_r. destruct (Z.eqb_spec (reg1 d) 6) as [E6|H6].
  { exists (0 + 1)%nat. split; [lia|]. apply negb_true_iff in Hacc as Hx.
    assert (op_step_r is_inc d c = op_step_hl is_inc d c) as ->.
    { unfold op_step_r, op_step_hl, op_INC_R, op_DEC_R. by rewrite E6. }
    assert (areg d = R_HL) as Ea by (unfold areg; by rewrite Hx). rewrite <- Ea.
    apply gdoes_then, gdoes_lift, step_hl; [done|done|]. rewrite Ea. unfold addr_of. rewrite effective_addr_plain by done. by eapply host_rHL. }
  exists 0%nat. split; [lia|]. apply gdoes_lift. apply r8_code_ok in Hacc as [Hr _]. rewrite op_step_r_eq by done. cbv zeta.
  destruct (Z.eqb_spec (reg1 d) 7) as [E7|H7].
  { rewrite E7. change (default 0 (reg8_p 7 (prefix d) c)) with (rA c).
    eapply (does_incdec8 R_A (rA c) is_inc c); [done|right; split; [done|by eapply host_ext; [exact H|..]]|in_range|].
    intros σ1 f [(? & _)|(_ & H1)] _ Hf Ef; [done|]. eapply land_step; [exact Hf|exact Ef|]. by eapply host_ext; [exact H1|..]. }
  destruct (r8_host_pair (reg1 d)) as [[pr []]|] eqn:Hp; [by apply (does_incdec_high is_inc d c pr)|..].
  all: destruct (read_holds c (reg1 d) (prefix d) Hc Hr) as (code & src & -> & Hv & HA & Hrd).
  all: apply does_then, Hrd; [done|]; intros σ1 H1 _ _.
  all: apply does_then; eapply (does_incdec8 src _ is_inc c); [done|exact H1|done|]; intros σ2 f H2 _ Hf Ef.
  all: eapply (write_holds (set_rF f c)); [in_range|exact H2|done|done|unfold step8; in_range|]; intros σ3 H3 _.
  all: eapply land_step; [exact Hf|exact Ef|]; by rewrite <- set_reg8_F.
Qed.

(** ** ALU A,s *)

Lemma alu_exec_memptr op b c : memptr (alu_exec op b c) = memptr c.
Proof. by destruct op. Qed.
(** The inline ALU lands on the interpreter's operation. *)
Lemma land_alu op src b c σ : cpu_ok c → host c σ → src_ok src → get P B8 (src_operand src) σ = b → is_byte b →
  does (emit_alu_inline op fmask src) (lands l c fmask store (alu_exec op b c)) σ.
Proof using Hl Hfm.
  intros Hc H Hs Eb Hb. eapply (does_alu_inline l Hl slow op fmask src b c); [done|done|done|done|done|done|].
  intros σ' f H' Hf Ef. eapply (lands_flags l fmask store c); [exact H'|exact Hf|exact Ef|reflexivity| |done..].
  cbn. rewrite alu_exec_memptr. by destruct store.
Qed.
Lemma mem_src_ok i : is_reg i → i ≠ 4 → i ≠ T0 → i ≠ T1 → i ≠ T3 → i ≠ R_F → src_ok (SRC_MEM R_MEM i 0).
Proof. intros. cbn [src_ok]. split_and!; try done. repeat split; try regs. right. split; regs. Qed.
Lemma get_mem_src c σ i a : host c σ → is_reg i → xr σ i = a → is_word a → get P B8 (src_operand (SRC_MEM R_MEM i 0)) σ = mget (mem c) a.
Proof using Hl.
  intros H Hi <- Ha. cbn [src_operand]. unfold mem_op, index_of. rewrite (proj2 (Z.ltb_ge i 0)) by regs. by apply (get_guest l Hl c σ H).
Qed.
Lemma op_alu_n op d c σ : cpu_ok c → host c σ → is_byte (Decode.imm8 d) →
  does (emit_alu_inline op fmask (SRC_IMM (Decode.imm8 d))) (lands l c fmask store (alu_exec op (Decode.imm8 d) c)) σ.
Proof using Hl Hfm.
  intros Hc H Hi. apply land_alu; [done|done|done| |done]. cbn [src_operand get]. by rewrite (u8_id (Decode.imm8 d)), s8_trunc.
Qed.
Lemma op_alu_ind op d c σ : cpu_ok c → host c σ → has_idx d = true → -128 <= disp d <= 127 →
  does (emit_idx_eff_addr T2 (prefix d) (disp d) +> emit_alu_inline op fmask (SRC_MEM R_MEM T2 0))
    (lands l c fmask store (alu_exec op (read_reg8 6 d c) c)) σ.
Proof using Hl Hfm.
  intros Hc H Hx Hd. apply does_then, (does_idx_eff_addr l Hl slow c T2 d (rHL c)); [done|done|regs|done|done|]. intros σ1 S1.
  assert (host c σ1) as H1 by (eapply host_sets; [exact H| |exact S1]; regs).
  change (read_reg8 6 d c) with (mget (mem c) (addr_of d c)). pose proof (addr_word d c Hc).
  apply land_alu; [done|done|apply mem_src_ok; regs| |in_range].
  eapply get_mem_src; [done|regs|by eapply sets_at|done].
Qed.
Lemma op_alu_r op d c σ : cpu_ok c → host c σ → (if reg1 d =? 6 then negb (has_idx d) else reg8_offset_ok (reg1 d)) = true →
  does (let '(code, src) := emit_alu_src_from_reg (reg1 d) (prefix d) in code +> emit_alu_inline op fmask src)
    (lands l c fmask store (alu_exec op (read_reg8 (reg1 d) d c) c)) σ.
Proof using Hl Hfm.
  intros Hc H Hacc. unfold emit_alu_src_from_reg, read_reg8. destruct (Z.eqb_spec (reg1 d) 6) as [E6|H6].
  { apply negb_true_iff in Hacc. rewrite effective_addr_plain by done. apply does_then, does_none.
    apply land_alu; [done|done|apply mem_src_ok; regs| |in_range]. eapply get_mem_src; [done|regs|by eapply host_rHL|in_range]. }
  apply r8_code_ok in Hacc as [Hr _]. destruct (Z.eqb_spec (reg1 d) 7) as [E7|H7].
  { apply does_then, does_none. rewrite E7. change (default 0 (reg8_p 7 (prefix d) c)) with (rA c).
    apply land_alu; [done|done|cbn [src_ok]; split_and!; regs| |in_range]. cbn [src_operand get]. pinned_vals. by apply u8_id; in_range. }
  pose proof (default_reg8_byte (reg1 d) (prefix d) c Hc) as Hv. set (v := default 0 _) in *.
  destruct (r8_host_pair (reg1 d)) as [[pr []]|] eqn:Hp.
  - destruct (pair_word l c σ (reg1 d) pr true Hc H Hp) as (Hw & Hpr & _). apply does_then.
    eapply (does_high l slow T1 pr (xr σ pr)); [regs|done|done|done|]. intros σ1 S1.
    assert (host c σ1) as H1 by (eapply host_sets; [exact H| |exact S1]; regs).
    apply land_alu; [done|done|cbn [src_ok]; split_and!; regs| |done]. cbn [src_operand get]. rewrite (sets_at _ _ _ _ S1).
    transitivity (xr σ pr >>' 8); [rewrite trunc_B8; apply u8_id; in_range|]. subst v.
    destruct (r8_pair_codes _ _ _ Hp) as [F|[F|[F|[F|[F|F]]]]]; destruct F as (E & -> & F); try done; rewrite E; pinned_vals;
      cbn [reg8_p from_option]; unfold rBC, rDE, rHL; by rewrite word_of_hi by in_range.
  - destruct (pair_word l c σ (reg1 d) pr false Hc H Hp) as (Hw & Hpr & Hns & _). apply does_then, does_none.
    apply land_alu; [done|done| | |done].
    { cbn [src_ok]. destruct (r8_pair_codes _ _ _ Hp) as [F|[F|[F|[F|[F|F]]]]]; destruct F as (_ & -> & _); split_and!; regs. }
    cbn [src_operand get]. rewrite trunc_B8. subst v.
    destruct (r8_pair_codes _ _ _ Hp) as [F|[F|[F|[F|[F|F]]]]]; destruct F as (E & -> & F); try done; rewrite E; pinned_vals;
      cbn [reg8_p from_option]; unfold rBC, rDE, rHL; by rewrite word_of_lo by in_range.
  - destruct (r8_no_pair (reg1 d) Hr H7 Hp) as [E|E]; apply does_then, does_none; (apply land_alu; [done|done| | |done]).
    1, 3: rewrite E; cbn [src_ok reg8_offset_p]; destruct (prefix d =? 0xFD); split_and!; try regs; try (unfold X64_NOREG; regs); side; off.
    all: cbn [src_operand]; apply (get_half l Hl c σ H); rewrite E; auto.
Qed.

(** ** The CB page *)

Lemma cb_shift_flags_eq k r : is_byte r → cb_shift_flags k r = logic_flags r |' Z.b2z k.
Proof.
  intros Hr. apply Z.eqb_eq. destruct k;
    [refine (forall_bytes (λ r, cb_shift_flags true r =? logic_flags r |' 1) _ r Hr)
    |refine (forall_bytes (λ r, cb_shift_flags false r =? logic_flags r |' 0) _ r Hr)]; by vm_compute.
Qed.
Lemma does_rotshift g src v c Q σ : 0 <= g < 8 → holds src v c σ → is_byte v → cpu_ok c →
  let r := cb_shift g v (Z.testbit (rF c) 0) in
  (∀ σ' f, holds src r.2 (set_rF f c) σ' → xr σ' T2 = xr σ T2 → is_byte f → f &' fmask = cb_shift_flags r.1 r.2 &' fmask → Q σ') →
  does (emit_cb_rotshift_inline g src fmask) Q σ.
Proof using Hl Hfm.
  intros Hg H Hv Hc r HQ. pose proof (ok_rF _ Hc) as HF. assert (is_byte r.2) as Hr by (subst r; by apply cb_shift_byte).
  pose proof (cb_shift_flags_eq r.1 r.2 Hr) as EF. pose proof (byte_logic_flags r.2) as Hlf.
  unfold emit_cb_rotshift_inline. cbv zeta. apply does_then. eapply (does_clear_T0 src v c); [exact H|]. intros σ1 H1 E1 Eq1.
  assert (∀ σ2, holds src r.2 c σ2 → (nz (fmask &' FLAG_C) = true → xr σ2 T0 = Z.b2z r.1) → xr σ2 T2 = xr σ T2 →
    does (emit_if (nz fmask) (emit_movzx_r32_m8 R_F R_AUX src FT_LOGIC +> emit_if (nz (fmask &' FLAG_C)) (emit_alu_r32_r32 X64_ALU_OR R_F T0))) Q σ2) as Hend.
  { intros σ2 H2 E2 E22. apply does_if; intros Hw.
    2: { apply (HQ σ2 (rF c)); [by eapply holds_ext; [exact H2|..]|done|done|by apply masked_0]. }
    apply does_then. destruct (f_table_cells r.2 Hr) as (Et & _).
    eapply (does_table_F src r.2 c _ (logic_flags r.2)); [exact H2|done|by vm_compute|by vm_compute|exact Et|done|]. intros σ3 H3 Eq3.
    apply does_if; intros Hk.
    - eapply (does_or_F src r.2 (set_rF (logic_flags r.2) c) (Z.b2z r.1)); [exact H3|done|rewrite Eq3 by regs; by apply E2|by destruct r.1|].
      intros σ4 H4 Eq4. apply (HQ σ4 (logic_flags r.2 |' Z.b2z r.1)).
      + by eapply holds_ext; [exact H4|..].
      + by rewrite Eq4, Eq3 by regs.
      + apply byte_lor; [done|by destruct r.1].
      + by rewrite EF.
    - apply (HQ σ3 (logic_flags r.2)); [exact H3|by rewrite Eq3 by regs|done|].
      rewrite EF, Z.land_lor_distr_l. destruct r.1; cbn [Z.b2z]; [|by rewrite Z.lor_0_r].
      rewrite (Z.land_comm 1). change 1 with FLAG_C at 1. rewrite (nz_disjoint _ _ Hk). by rewrite Z.lor_0_r. }
  pose proof (does_group g src v c) as Hgr.
  assert (∀ K, (∀ σ', holds src r.2 c σ' → (nz (fmask &' FLAG_C) = true → xr σ' T0 = Z.b2z r.1) → xr σ' T2 = xr σ1 T2 → K σ') →
    does (emit_group g src +> emit_if (nz (fmask &' FLAG_C) && negb (g =? 6)) (emit_setcc_r8 X64_CC_C T0)) K σ1) as Hrot.
  { intros K HK. by apply (does_group g src v c). }
  apply does_seq2. apply Hrot. intros σ2 H2 E2 E22. apply Hend; [done|done|]. rewrite E22, Eq1 by regs. done.
Qed.

(** BIT: F from the tested bit and the byte the undocumented bits come from. *)
Lemma bit_flags_eq f v n x : is_byte f → is_byte v → is_byte x → 0 <= n < 8 →
  cb_bit_flags f v n x =
  ((f &' FLAG_C) |' (if nz (v &' (1 <<' n)) then (if n =? 7 then FLAG_S else 0) |' FLAG_H else FLAG_Z |' FLAG_PV |' FLAG_H)) |' (x &' (FLAG_5 |' FLAG_3)).
Proof.
  intros Hf Hv Hx Hn. unfold cb_bit_flags, xy_from. cbv zeta. f_equal. rewrite <- !Z.lor_assoc. f_equal.
  by destruct (nz _), (n =? 7).
Qed.
Lemma does_bit n src v xy x c Q σ : cpu_ok c → holds src v c σ → host c σ → is_byte v → 0 <= n < 8 →
  (xy = src ∧ x = v ∨ xy = T3 ∧ xr σ T3 = x) → is_byte x →
  (∀ σ', host (set_rF (cb_bit_flags (rF c) v n x) c) σ' → Q σ') → does (emit_cb_bit_inline n src xy) Q σ.
Proof.
  intros Hc H Hh Hv Hn Hxy Hx HQ. pose proof (ok_rF _ Hc) as HF. rewrite bit_flags_eq in HQ by done.
  destruct (holds_reg _ _ _ _ H) as (Hr & H0 & H2 & H3 & H4 & HsF & Ev).
  assert (u8 (1 <<' n) = 1 <<' n ∧ is_byte (1 <<' n)) as [Eu Hm].
  { assert (n = 0 ∨ n = 1 ∨ n = 2 ∨ n = 3 ∨ n = 4 ∨ n = 5 ∨ n = 6 ∨ n = 7) as E by lia. decompose [or] E; subst; by vm_compute. }
  set (b := nz (v &' (1 <<' n))) in *. set (t4 := (if n =? 7 then FLAG_S else 0) |' FLAG_H) in *.
  assert (is_byte t4) as Ht4 by (subst t4; destruct (n =? 7); by vm_compute).
  set (m := if b then t4 else FLAG_Z |' FLAG_PV |' FLAG_H) in *. assert (is_byte m) as Hm' by (subst m; destruct b; [done|by vm_compute]).
  apply does_then. eapply (does_and_F FLAG_C c (rF c)); [done|pinned_vals; done|done|by vm_compute|]. intros σ1 H1 Q1.
  apply does_then, does_test_r8_imm8; [done|rewrite Eu; done|]. rewrite Q1 by done. rewrite Ev, Eu, (u8_id v) by done.
  apply does_then, does_mov_r32_imm32; [regs|by vm_compute|]. apply does_then, does_mov_r32_imm32; [regs|in_range|].
  apply does_then. eapply (does_cmovcc_r32_r32 l slow X64_CC_NZ T0 T4 b); [side|regs|regs|xs; by vm_compute|xs; in_range| |].
  { cbn [xf set_xf set_reg]. unfold b, nz. reflexivity. }
  xs. fold m. match goal with |- RulesX64.does _ _ _ _ ?s => set (σ2 := s) end.
  assert (host (set_rF (rF c &' FLAG_C) c) σ2) as H2' by (subst σ2; repeat first [apply host_xf | apply host_scratch; [|regs]]; done).
  assert (xr σ2 T0 = m) as E0 by (subst σ2; by xs).
  assert (xr σ2 xy = x) as Exy.
  { subst σ2. destruct Hxy as [[-> ->]|[-> E]]; xs; [eqs; by rewrite Q1 by done|by rewrite Q1 by regs]. }
  assert (is_reg xy ∧ xy ≠ T0 ∧ xy ≠ R_F) as (Hxr & Hx0 & HxF) by (destruct Hxy as [[-> _]|[-> _]]; split_and!; try done; regs).
  clearbody σ2. apply does_then.
  eapply (does_or_F_reg T0 m); [exact H2'|by rewrite (host_rF l _ _ H2')|by apply byte_land|regs|done|done|]. intros σ3 H3' Q3.
  assert (is_byte ((rF c &' FLAG_C) |' m)) as Hb3 by (apply byte_lor; [by apply byte_land|done]).
  apply (does_or_xy l slow x ((rF c &' FLAG_C) |' m)); [by rewrite (host_rF l _ _ H3')|done|done| |].
  - intros K HK. apply does_mov_r32_r32; [regs|done|rewrite Q3, Exy by done; in_range|]. rewrite Q3, Exy by done. apply HK; [apply keeps_set; by left|by xs].
  - intros σ4 K4 E4. apply HQ. eapply host_ext; [eapply host_keeps_F; [exact H3'| |exact E4]|..]; try done.
    eapply keeps_mono; [exact K4|]. intros q. rewrite !elem_of_cons, elem_of_nil. tauto.
Qed.

Definition cb_r d : Z := Decode.imm8 d &' 7.
Definition cb_g d : Z := (Decode.imm8 d >>' 3) &' 7.
Lemma cb_fields d : is_byte (Decode.imm8 d) → 0 <= cb_r d < 8 ∧ 0 <= cb_g d < 8 ∧
  let f := Decode.imm8 d >>' 6 in
  (f = 0 ∨ f = 1 ∨ f = 2 ∨ f = 3) ∧ ((0x40 <=? Decode.imm8 d) && (Decode.imm8 d <? 0x80)) = (f =? 1) ∧
  ((0x80 <=? Decode.imm8 d) && (Decode.imm8 d <? 0xC0)) = (f =? 2) ∧ (0xC0 <=? Decode.imm8 d) = (f =? 3).
Proof.
  intros Hi. unfold cb_r, cb_g. cbv zeta.
  set (p := λ s, (0 <=? s &' 7) && (s &' 7 <? 8) && (0 <=? (s >>' 3) &' 7) && ((s >>' 3) &' 7 <? 8) && (0 <=? s >>' 6) && (s >>' 6 <? 4) &&
    Bool.eqb ((0x40 <=? s) && (s <? 0x80)) (s >>' 6 =? 1) && Bool.eqb ((0x80 <=? s) && (s <? 0xC0)) (s >>' 6 =? 2) && Bool.eqb (0xC0 <=? s) (s >>' 6 =? 3)).
  assert (p (Decode.imm8 d) = true) as H by (apply (forall_bytes p); [by vm_compute|done]). unfold p in H. clear p.
  rewrite !andb_true_iff in H. destruct H as ((((((((? & ?) & ?) & ?) & ?) & ?) & E1%Bool.eqb_prop) & E2%Bool.eqb_prop) & E3%Bool.eqb_prop).
  split_and!; try done; lia.
Qed.
Lemma cb_addr_eq d c : cb_addr d c = addr_of d c.
Proof. unfold cb_addr, addr_of, effective_addr, cb_indexed. destruct (prefix d =? 0xDD); [done|]. by destruct (prefix d =? 0xFD). Qed.
(** The interpreter's write-back on the CPU alone. *)
Definition cb_put d (result : Z) c : z80_cpu :=
  if cb_mem d (cb_r d) then
    let c' := set_mem (mset (addr_of d c) result (mem c)) c in
    if has_idx d && negb (cb_r d =? 6) then set_reg8_p (cb_r d) 0 result c' else c'
  else set_reg8_p (cb_r d) 0 result c.
Lemma cb_write_eq d result c : cpu_ok c → (cb_write d (cb_r d) result (c, w)).1 = cb_put d result c.
Proof.
  intros Hc. unfold cb_write, cb_put. change (cb_indexed d) with (has_idx d). rewrite cb_addr_eq. pose proof (addr_word d c Hc).
  destruct (cb_mem d (cb_r d)); [|done]. destruct (has_idx d && _); cbn [on_cpu fst]; by rewrite mem_w_pair.
Qed.
Definition op_cb d c : z80_cpu :=
  let v := cb_operand d (cb_r d) c in
  let f := Decode.imm8 d >>' 6 in
  if f =? 1 then
    with_f (cb_bit_flags (rF c) v (cb_g d) (if has_idx d then addr_of d c >>' 8 else if cb_r d =? 6 then memptr c >>' 8 else v)) c
  else if f =? 2 then cb_put d (v &~ (1 <<' cb_g d)) c
  else if f =? 3 then cb_put d (v |' (1 <<' cb_g d)) c
  else let r := cb_shift (cb_g d) v (Z.testbit (rF c) 0) in with_f (cb_shift_flags r.1 r.2) (cb_put d r.2 c).
Lemma op_cb_eq d c : cpu_ok c → is_byte (Decode.imm8 d) → (op_CB d (c, w)).1 = op_cb d c.
Proof.
  intros Hc Hi. destruct (cb_fields d Hi) as (_ & _ & _ & E1 & E2 & E3). unfold op_CB, op_cb. cbv zeta.
  fold (cb_r d) (cb_g d). change (cb_indexed d) with (has_idx d). rewrite E1, E2, E3, cb_addr_eq, nz_FLAG_C. cbn [fst].
  destruct (_ =? 1); [done|]. destruct (_ =? 2); [by rewrite cb_write_eq|]. destruct (_ =? 3); [by rewrite cb_write_eq|].
  destruct (cb_shift _ _ _) as [k r]. cbn [on_cpu fst snd]. by rewrite cb_write_eq.
Qed.
Lemma cb_read_byte d c : cpu_ok c → is_byte (cb_operand d (cb_r d) c).
Proof. intros Hc. unfold cb_operand. destruct (cb_mem _ _); [in_range|by apply default_reg8_byte]. Qed.
Lemma cb_put_rest d v c : memptr (cb_put d v c) = memptr c ∧ rF (cb_put d v c) = rF c.
Proof. unfold cb_put. destruct (cb_mem _ _); [destruct (has_idx d && _)|]; try done; exact (set_reg8_p_rest _ _ _ _). Qed.
Lemma cb_put_F d v f c : cb_put d v (set_rF f c) = set_rF f (cb_put d v c).
Proof. unfold cb_put. destruct (cb_mem _ _); [destruct (has_idx d && _)|]; try done; [apply (set_reg8_F _ _ _ _ (set_mem _ c))|apply set_reg8_F]. Qed.
Lemma ok_cb_put d v c : cpu_ok c → is_byte v → cpu_ok (cb_put d v c).
Proof.
  intros Hc Hv. unfold cb_put. assert (cpu_ok (set_mem (mset (addr_of d c) v (mem c)) c)) by (pose proof (addr_word d c Hc); in_range).
  destruct (cb_mem _ _); [destruct (has_idx d && _)|]; try done; by apply ok_set_reg8_p.
Qed.

(** *** RES and SET *)

Lemma set_reg8_mem r pfx v m c : set_reg8_p r pfx v (set_mem m c) = set_mem m (set_reg8_p r pfx v c) ∧ mem (set_reg8_p r pfx v c) = mem c.
Proof. unfold set_reg8_p. split; repeat case_match; done. Qed.
Lemma cb_r_code d : is_byte (Decode.imm8 d) → cb_r d ≠ 6 → r8_code (cb_r d).
Proof. intros Hi H6. destruct (cb_fields d Hi) as (Hr & _). unfold r8_code. lia. Qed.
(** The copy to a register, and the store. *)
Lemma does_cb_store d v c Q σ : cpu_ok c → is_byte (Decode.imm8 d) → holds T1 v c σ → xr σ (areg d) = addr_of d c → cb_mem d (cb_r d) = true → is_byte v →
  (∀ σ', host (cb_put d v c) σ' → Q σ') →
  does (emit_if (has_idx d && negb (cb_r d =? 6)) (emit_write_r8 (cb_r d) 0 T1)) (gdoes (emit_guest_storeb_smc T1 (areg d)) 1 Q) σ.
Proof using Hl Hslow.
  intros Hc Hi H Ea Hm Hv HQ. unfold cb_put in HQ. rewrite Hm in HQ. pose proof (addr_word d c Hc) as Hw. destruct (areg_reg d) as (Hr & H4 & _).
  pose proof H as [(_ & Hh & E1)|(? & _)]; [|done].
  apply does_if; intros Hcp; rewrite Hcp in HQ.
  - apply andb_true_iff in Hcp as [Hx H6%negb_true_iff%Z.eqb_neq].
    eapply (write_holds c (cb_r d) 0 T1 v); [done|exact H|by apply cb_r_code|done|done|]. intros σ1 H1 Eq1.
    assert (areg d = T2) as Er by (unfold areg; by rewrite Hx).
    eapply (gdoes_storeb l Hl slow Hslow (set_reg8_p (cb_r d) 0 v c) (areg d) T1 (addr_of d c) v); [exact H1|done|done|regs| |done|by rewrite Eq1 by regs|done|].
    { rewrite <- Ea, Er. apply Eq1. regs. }
    intros σ2 H2. apply HQ. destruct (set_reg8_mem (cb_r d) 0 v (mset (addr_of d c) v (mem c)) c) as [-> Em]. by rewrite Em in H2.
  - eapply (gdoes_storeb l Hl slow Hslow c (areg d) T1 (addr_of d c) v); [exact Hh|done|done|regs|done|done|done|done|exact HQ].
Qed.

(** The mask of a bit number; RES keeps the others. *)
Definition bit_apply (res : bool) (n v : Z) : Z := if res then v &~ (1 <<' n) else v |' (1 <<' n).
Definition bit_m8 (res : bool) (n : Z) : Z := if res then u8 (Z.lnot (u8 (1 <<' n))) else u8 (1 <<' n).
Lemma bit_apply_eq (res : bool) n v : 0 <= n < 8 → is_byte v →
  is_byte (bit_m8 res n) ∧ is_byte (bit_apply res n v) ∧ (if res then v &' bit_m8 res n else v |' bit_m8 res n) = bit_apply res n v.
Proof.
  intros Hn Hv. set (p := λ v, (0 <=? bit_m8 res n) && (bit_m8 res n <? 256) && (0 <=? bit_apply res n v) && (bit_apply res n v <? 256) &&
    ((if res then v &' bit_m8 res n else v |' bit_m8 res n) =? bit_apply res n v)).
  assert (p v = true) as H.
  { assert (n = 0 ∨ n = 1 ∨ n = 2 ∨ n = 3 ∨ n = 4 ∨ n = 5 ∨ n = 6 ∨ n = 7) as E by lia.
    decompose [or] E; subst n; apply (forall_bytes p); first [destruct res; by vm_compute|done]. }
  unfold p in H. clear p. rewrite !andb_true_iff in H. unfold is_byte. split_and!; lia.
Qed.
(** The same on the high half of a pair. *)
Lemma bit_high (res : bool) n x : 0 <= n < 8 → is_word x →
  (if res then x &' trunc D32 (Z.lnot (u8 (1 <<' n) <<' 8)) else x |' trunc D32 (u8 (1 <<' n) <<' 8)) = word_of (u8 x) (bit_apply res n (x >>' 8)) ∧
  int32 (if res then Z.lnot (u8 (1 <<' n) <<' 8) else u8 (1 <<' n) <<' 8).
Proof.
  intros Hn Hx. split.
  2: { assert (n = 0 ∨ n = 1 ∨ n = 2 ∨ n = 3 ∨ n = 4 ∨ n = 5 ∨ n = 6 ∨ n = 7) as E by lia.
       decompose [or] E; subst n; destruct res; vm_compute; split; congruence. }
  pose proof (word_of_split x Hx) as Ex. unfold word_of in *.
  set (p := λ v, (if res then v &' trunc D32 (Z.lnot (u8 (1 <<' n) <<' 8)) =? v else true)).
  set (q := λ v, (if res then (v <<' 8) &' trunc D32 (Z.lnot (u8 (1 <<' n) <<' 8)) =? bit_apply res n v <<' 8
    else (v <<' 8) |' trunc D32 (u8 (1 <<' n) <<' 8) =? bit_apply res n v <<' 8)).
  assert (p (u8 x) = true ∧ q (x >>' 8) = true) as [Hp Hq].
  { assert (n = 0 ∨ n = 1 ∨ n = 2 ∨ n = 3 ∨ n = 4 ∨ n = 5 ∨ n = 6 ∨ n = 7) as E by lia.
    decompose [or] E; subst n; (split; [apply (forall_bytes p)|apply (forall_bytes q)]); first [by (destruct res; vm_compute)|in_range]. }
  unfold p in Hp. unfold q in Hq. clear p q. destruct res.
  - apply Z.eqb_eq in Hp, Hq. rewrite <- Ex at 1. rewrite Z.land_lor_distr_l, Hp, Hq. reflexivity.
  - apply Z.eqb_eq in Hq. rewrite <- Ex at 1. rewrite <- Z.lor_assoc, Hq. reflexivity.
Qed.
Lemma does_bit_reg (res : bool) n src v c Q σ : 0 <= n < 8 → holds src v c σ → is_byte v →
  (∀ σ', holds src (bit_apply res n v) c σ' → (∀ q, q ≠ src → xr σ' q = xr σ q) → Q σ') →
  does (emit_alu_r8_imm8 (if res then X64_ALU_AND else X64_ALU_OR) src (bit_m8 res n)) Q σ.
Proof.
  intros Hn H Hv HQ. destruct (holds_reg _ _ _ _ H) as (Hr & _ & _ & _ & _ & _ & Ev). destruct (bit_apply_eq res n v Hn Hv) as (Hm & Hb & Eb).
  destruct res; (eapply does_alu_r8_imm8; [side|done|exact Hm|first [left; split; reflexivity|right; left; split; reflexivity]|]);
    intros f; rewrite Ev, (u8_id v) by done; rewrite Eb, merge8_byte, u8_id by done;
    (apply HQ; [apply holds_xf; by eapply holds_set|]); intros q Hq; xs; by eqs.
Qed.
Lemma resset_value d c : cb_operand d (cb_r d) c = (if cb_mem d (cb_r d) then mget (mem c) (addr_of d c) else default 0 (reg8_p (cb_r d) 0 c)).
Proof. unfold cb_operand. by rewrite cb_addr_eq. Qed.

(** Register forms: no code but the operation. *)
Lemma resset_reg (res : bool) d c σ : cpu_ok c → host c σ → is_byte (Decode.imm8 d) → cb_mem d (cb_r d) = false →
  does (if cb_r d =? 7 then emit_alu_r8_imm8 (if res then X64_ALU_AND else X64_ALU_OR) R_A (bit_m8 res (cb_g d))
        else match r8_host_pair (cb_r d) with
        | Some (pr, false) => emit_alu_r8_imm8 (if res then X64_ALU_AND else X64_ALU_OR) pr (bit_m8 res (cb_g d))
        | Some (pr, true) =>
            if res then emit_alu_r32_imm X64_ALU_AND pr (Z.lnot (u8 (1 <<' cb_g d) <<' 8))
            else emit_alu_r32_imm X64_ALU_OR pr (u8 (1 <<' cb_g d) <<' 8)
        | None => emit_alu_m8_imm8 (if res then X64_ALU_AND else X64_ALU_OR) R_CPU X64_NOREG (reg8_offset_p (cb_r d) (prefix d)) (bit_m8 res (cb_g d))
        end)
    (lands l c fmask store (cb_put d (bit_apply res (cb_g d) (cb_operand d (cb_r d) c)) c)) σ.
Proof using Hl.
  intros Hc H Hi Hm. destruct (cb_fields d Hi) as (Hr & Hg & _).
  pose proof (cb_read_byte d c Hc) as Hv. rewrite resset_value, Hm in Hv |- *. set (v := default 0 _) in *.
  assert (cb_r d ≠ 6) as H6 by (unfold cb_mem in Hm; apply orb_false_iff in Hm as [_ ?%Z.eqb_neq]; done).
  destruct (bit_apply_eq res (cb_g d) v Hg Hv) as (Hm8 & Hb & Eb).
  assert (∀ σ', host (set_reg8_p (cb_r d) 0 (bit_apply res (cb_g d) v) c) σ' → lands l c fmask store (cb_put d (bit_apply res (cb_g d) v) c) σ') as HL.
  { intros σ' H'. eapply (lands_host l fmask store c); [exact H'|by apply ok_cb_put|..]; unfold cb_put; rewrite Hm; try done.
    rewrite (proj1 (set_reg8_p_rest _ _ _ _)). by destruct store. }
  destruct (Z.eqb_spec (cb_r d) 7) as [E7|H7].
  { eapply (does_bit_reg res _ R_A v c); [done| |done|].
    - right. split; [done|]. eapply host_ext; [exact H|..]; try done. subst v. by rewrite E7.
    - intros σ' [(? & _)|(_ & H')] _; [done|]. apply HL. rewrite E7. done. }
  destruct (r8_host_pair (cb_r d)) as [[pr []]|] eqn:Hp.
  - destruct (pair_word l c σ (cb_r d) pr true Hc H Hp) as (Hw & Hpr & _). destruct (bit_high res (cb_g d) (xr σ pr) Hg Hw) as [Eh Hi32].
    assert (xr σ pr >>' 8 = v) as Ev.
    { subst v. destruct (r8_pair_codes _ _ _ Hp) as [F|[F|[F|[F|[F|F]]]]]; destruct F as (E & -> & F); try done; rewrite E; pinned_vals;
      cbn [reg8_p from_option]; unfold rBC, rDE, rHL; by rewrite word_of_hi by in_range. }
    rewrite Ev in Eh.
    destruct res; (eapply does_alu_r32_imm; [side|done|exact Hi32|in_range|reflexivity|first [left; split; reflexivity|right; left; split; reflexivity]|]);
      intros f; rewrite Eh; apply HL, host_xf; (eapply host_sets_pair; [exact Hc|exact H|done|exact Hp|]); by split.
  - destruct (pair_word l c σ (cb_r d) pr false Hc H Hp) as (Hw & Hpr & _).
    assert (u8 (xr σ pr) = v) as Ev.
    { subst v. destruct (r8_pair_codes _ _ _ Hp) as [F|[F|[F|[F|[F|F]]]]]; destruct F as (E & -> & F); try done; rewrite E; pinned_vals;
      cbn [reg8_p from_option]; unfold rBC, rDE, rHL; by rewrite word_of_lo by in_range. }
    destruct res; (eapply does_alu_r8_imm8; [side|done|exact Hm8|first [left; split; reflexivity|right; left; split; reflexivity]|]);
      intros f; rewrite Ev, Eb, merge8_word, u8_id by done; apply HL, host_xf; (eapply host_sets_pair; [exact Hc|exact H|done|exact Hp|]); by split.
  - destruct (r8_no_pair (cb_r d)) as [E|E]; [unfold r8_code; lia|done|done|lia..].
Qed.

(** Landing on a write-back. *)
Lemma land_put d v c σ' : cpu_ok c → is_byte v → host (cb_put d v c) σ' → lands l c fmask store (cb_put d v c) σ'.
Proof.
  intros Hc Hv H'. destruct (cb_put_rest d v c) as [EM EF]. eapply (lands_host l fmask store c); [exact H'|by apply ok_cb_put|done| |done..].
  rewrite EM. by destruct store.
Qed.
(** In memory: one instruction, or through T1 when the result is copied. *)
Definition emit_resset_mem (res : bool) d : emitter :=
  emit_alu_m8_imm8 (if res then X64_ALU_AND else X64_ALU_OR) R_MEM (areg d) 0 (bit_m8 res (cb_g d)).
Lemma resset_mem (res : bool) d c σ : cpu_ok c → host c σ → is_byte (Decode.imm8 d) → cb_mem d (cb_r d) = true → xr σ (areg d) = addr_of d c →
  gdoes (if negb (has_idx d && negb (cb_r d =? 6)) then lift (emit_resset_mem res d) +>> emit_smc_check_dyn (areg d)
    else lift (emit_movzx_r32_m8 T1 R_MEM (areg d) 0 +> emit_alu_r8_imm8 (if res then X64_ALU_AND else X64_ALU_OR) T1 (bit_m8 res (cb_g d)) +>
           emit_write_r8 (cb_r d) 0 T1) +>> emit_guest_storeb_smc T1 (areg d)) 1
    (lands l c fmask store (cb_put d (bit_apply res (cb_g d) (cb_operand d (cb_r d) c)) c)) σ.
Proof using Hl Hslow.
  intros Hc H Hi Hm Ea. destruct (cb_fields d Hi) as (_ & Hg & _). rewrite resset_value, Hm. set (v := mget (mem c) (addr_of d c)).
  assert (is_byte v) as Hv by (subst v; in_range). destruct (bit_apply_eq res (cb_g d) v Hg Hv) as (Hm8 & Hb & Eb).
  destruct (areg_reg d) as (Hr & H4 & H1 & _). pose proof (addr_word d c Hc) as Hw.
  assert (∀ σ', host (cb_put d (bit_apply res (cb_g d) v) c) σ' → lands l c fmask store (cb_put d (bit_apply res (cb_g d) v) c) σ') as HL
    by (intros; by apply land_put).
  destruct (has_idx d && negb (cb_r d =? 6)) eqn:Hcp; cbn [negb].
  - apply (gdoes_then l slow _ _ 0 1), gdoes_lift, does_then, (does_load_T1 d c); [done|done|done|]. intros σ1 H1' _ Ea1. fold v in H1'.
    apply does_then. eapply (does_bit_reg res (cb_g d) T1 v c); [done|exact H1'|done|]. intros σ2 H2 Eq2.
    pose proof (does_cb_store d (bit_apply res (cb_g d) v) c (lands l c fmask store (cb_put d (bit_apply res (cb_g d) v) c)) σ2 Hc Hi H2) as Hst. rewrite Hcp in Hst. apply Hst; [by rewrite Eq2|done|done|exact HL].
  - assert (is_mem R_MEM (areg d) 0) as Hmem by (repeat split; try regs; right; by split).
    assert (ea R_MEM (index_of (areg d)) 0 0 σ = mem_p l + addr_of d c) as Eea.
    { unfold index_of. rewrite (proj2 (Z.ltb_ge _ 0)) by regs. rewrite (ea_mem l Hl), Ea by (rewrite ?Ea; first [by eapply host_rMEM|done]). done. }
    assert (get P B8 (mem_op R_MEM (areg d) 0) σ = v) as Eg by (apply (get_mem_src c σ (areg d) (addr_of d c)); done).
    apply (gdoes_then l slow _ _ 0 1), gdoes_lift. unfold emit_resset_mem.
    assert (∀ f, gdoes (emit_smc_check_dyn (areg d)) 1 (lands l c fmask store (cb_put d (bit_apply res (cb_g d) v) c))
      (set_xf f (st8 P (mem_p l + addr_of d c) (bit_apply res (cb_g d) v) σ))) as Hend.
    { intros f. eapply (gdoes_smc_check_dyn l slow Hslow (set_mem (mset (addr_of d c) (bit_apply res (cb_g d) v) (mem c)) c));
        [apply host_xf, host_mem; done|done|done|]. intros σ' H'. apply HL. unfold cb_put. by rewrite Hm, Hcp. }
    destruct res; (eapply does_alu_m8_imm8; [side|exact Hmem|exact Hm8|exact Eea|exact Eg|first [left; split; reflexivity|right; split; reflexivity]|]);
      rewrite Eb; exact Hend.
Qed.

(** ** The CB page, whole *)

Lemma land_rotshift d k r f c σ' : cpu_ok c → is_byte f → f &' fmask = cb_shift_flags k r &' fmask → host (set_rF f (cb_put d r c)) σ' →
  lands l c fmask store (with_f (cb_shift_flags k r) (cb_put d r c)) σ'.
Proof.
  intros Hc Hf Ef H'. eapply (lands_flags l fmask store c); [exact H'|exact Hf|exact Ef|reflexivity| |done..].
  cbn. rewrite (proj1 (cb_put_rest d r c)). by destruct store.
Qed.
Lemma lands_bit f c σ' : host (set_rF f c) σ' → is_byte f → lands l c fmask store (with_f f c) σ'.
Proof. intros H' Hf. eapply (lands_flags l fmask store c); [exact H'|exact Hf|done|done|by destruct store|done..]. Qed.
(** BIT when nothing but C is live. *)
Lemma land_bit_dead v n x c σ' : host c σ' → cpu_ok c → is_byte v → is_byte x → 0 <= n < 8 → nz (fmask &' (0xFF &~ FLAG_C)) = false →
  lands l c fmask store (with_f (cb_bit_flags (rF c) v n x) c) σ'.
Proof using Hfm.
  intros H' Hc Hv Hx Hn Hd. pose proof (ok_rF _ Hc) as HF.
  eapply (lands_flags l fmask store c c); [exact H'|exact HF| |done|by destruct store|done..].
  cbn [with_f rF set_rF set_rQ]. rewrite bit_flags_eq by done. apply nz_disjoint in Hd. apply masked_ext; [done|]. intros k Hk Hbit.
  assert (k = 0) as ->.
  { pose proof (f_equal (λ x, Z.testbit x k) Hd) as E. cbv beta in E. rewrite Z.land_spec, Hbit, Z.bits_0 in E. cbn [andb] in E.
    assert (k = 0 ∨ k = 1 ∨ k = 2 ∨ k = 3 ∨ k = 4 ∨ k = 5 ∨ k = 6 ∨ k = 7) as Ek by lia. by decompose [or] Ek; subst. }
  rewrite !Z.lor_spec, !Z.land_spec. change (Z.testbit (FLAG_5 |' FLAG_3) 0) with false. change (Z.testbit FLAG_C 0) with true.
  rewrite andb_true_r, andb_false_r, orb_false_r. destruct (nz _), (n =? 7); by rewrite orb_false_r.
Qed.

(** The register form. *)
Lemma op_cb_reg d c σ : cpu_ok c → host c σ → is_byte (Decode.imm8 d) → cb_mem d (cb_r d) = false →
  ∃ k, (k <= 2)%nat ∧ gdoes (gen_cb d fmask).1 k (lands l c fmask store (op_cb d c)) σ.
Proof using Hl Hfm.
  intros Hc H Hi Hm. destruct (cb_fields d Hi) as (Hr & Hg & Hfam & _).
  pose proof Hm as [Hx H6]%orb_false_iff. change (cb_indexed d) with (has_idx d) in Hx. apply Z.eqb_neq in H6.
  pose proof (cb_read_byte d c Hc) as Hv. set (v := cb_operand d (cb_r d) c) in *.
  assert (v = default 0 (reg8_p (cb_r d) 0 c)) as Ev by (subst v; unfold cb_operand; by rewrite Hm).
  exists (0 + 0)%nat. split; [lia|]. unfold gen_cb, op_cb. cbv zeta. fold (cb_r d) (cb_g d) v. rewrite Hx, (proj2 (Z.eqb_neq (cb_r d) 6)) by done.
  destruct (read_holds c (cb_r d) 0 Hc (cb_r_code d Hi H6)) as (code & src & Er & _ & HA & Hrd). rewrite <- Ev in Hrd. rewrite Er.
  assert (∀ res : bool, gdoes (lift (emit_if false (emit_idx_eff_addr T2 (prefix d) (disp d))) +>> gen_cb_resset d None) (0 + 0)
    (lands l c fmask store (cb_put d (bit_apply (Decode.imm8 d >>' 6 =? 2) (cb_g d) v) c)) σ) as Hrs.
  { intros _. apply gdoes_then, gdoes_lift, does_if; [done|]. intros _. unfold gen_cb_resset. cbv zeta. fold (cb_r d) (cb_g d).
    apply gdoes_lift. by apply (resset_reg (Decode.imm8 d >>' 6 =? 2) d c). }
  destruct Hfam as [E|[E|[E|E]]]; rewrite E in *; cbn [Z.eqb Pos.eqb orb] in *.
  - cbn [fst]. apply gdoes_then, gdoes_lift, does_if; [done|]. intros _.
    apply (gdoes_then l slow _ _ 0 0), gdoes_lift, does_then, Hrd; [done|]. intros σ1 H1 _ _.
    eapply (does_rotshift (cb_g d) src v c); [done|exact H1|done|done|]. intros σ2 f H2 _ Hf Ef. apply gdoes_lift.
    set (r := cb_shift _ _ _) in *. assert (is_byte r.2) as Hrb by (by apply cb_shift_byte).
    eapply (write_holds (set_rF f c)); [in_range|exact H2|by apply cb_r_code|done|done|]. intros σ3 H3 _.
    eapply land_rotshift; [done|exact Hf|exact Ef|]. rewrite <- cb_put_F. unfold cb_put. by rewrite Hm.
  - destruct (nz (fmask &' (0xFF &~ FLAG_C))) eqn:Hd; cbn [negb fst].
    + apply gdoes_then, gdoes_lift, does_if; [done|]. intros _. apply gdoes_lift, does_then, Hrd; [done|]. intros σ1 H1 Hh1 _.
      apply does_then, does_none. eapply (does_bit (cb_g d) src v src v c); [done|exact H1|done|done|done|by left|done|].
      intros σ2 H2. apply lands_bit; [exact H2|apply byte_cb_bit_flags].
    + apply gdoes_then, gdoes_lift, does_if; [done|]. intros _. apply gdoes_lift, Hrd; [done|]. intros σ1 _ H1 _. by apply land_bit_dead.
  - exact (Hrs true).
  - exact (Hrs false).
Qed.

(** The memory forms. *)
Lemma op_cb_mem d c σ : cpu_ok c → host c σ → is_byte (Decode.imm8 d) → -128 <= disp d <= 127 → cb_mem d (cb_r d) = true →
  ∃ k, (k <= 2)%nat ∧ gdoes (gen_cb d fmask).1 k (lands l c fmask store (op_cb d c)) σ.
Proof using Hl Hslow Hfm.
  intros Hc H Hi Hdi Hm. destruct (cb_fields d Hi) as (Hr & Hg & Hfam & _).
  pose proof (cb_read_byte d c Hc) as Hv. set (v := cb_operand d (cb_r d) c) in *.
  assert (v = mget (mem c) (addr_of d c)) as Ev by (subst v; by rewrite resset_value, Hm).
  destruct (areg_reg d) as (Har & H4 & Ha1 & _). pose proof (addr_word d c Hc) as Hw.
  unfold gen_cb, op_cb. cbv zeta. fold (cb_r d) (cb_g d) v.
  assert ((if has_idx d then Some T2 else if cb_r d =? 6 then Some R_HL else None) = Some (areg d)) as Eaddr.
  { unfold areg. unfold cb_mem in Hm. change (cb_indexed d) with (has_idx d) in Hm. destruct (has_idx d); [done|]. cbn [orb] in Hm. by rewrite Hm. }
  rewrite Eaddr.
  assert (∀ g k Q, (k <= 2)%nat → (∀ σ1, host c σ1 → xr σ1 (areg d) = addr_of d c → gdoes g k Q σ1) →
    ∃ k, (k <= 2)%nat ∧ gdoes (lift (emit_if (has_idx d) (emit_idx_eff_addr T2 (prefix d) (disp d))) +>> g) k Q σ) as Hea.
  { intros g k Q Hk HQ. exists (0 + k)%nat. split; [done|]. apply gdoes_then, gdoes_lift, (does_addr d c); [done|done|done|exact HQ]. }
  destruct Hfam as [E|[E|[E|E]]]; rewrite E; cbn [Z.eqb Pos.eqb orb fst].
  - apply (Hea _ 1%nat); [lia|]. intros σ1 H1 E1. apply (gdoes_then l slow _ _ 0 1), gdoes_lift, does_then, (does_load_T1 d c); [done|done|done|].
    intros σ2 H2 E22 E2. rewrite <- Ev in H2.
    eapply (does_rotshift (cb_g d) T1 v c); [done|exact H2|done|done|]. intros σ3 f H3 E32 Hf Ef.
    set (r := cb_shift _ _ _) in *. assert (is_byte r.2) as Hrb by (by apply cb_shift_byte).
    apply (gdoes_then l slow _ _ 0 1), gdoes_lift.
    eapply (does_cb_store d r.2 (set_rF f c)); [in_range|done|exact H3| |done|done|].
    + change (addr_of d (set_rF f c)) with (addr_of d c). eapply (areg_kept d r.2 c (set_rF f c) σ1 σ3); [done|done|exact H3|congruence|done].
    + intros σ4 H4'. eapply land_rotshift; [done|exact Hf|exact Ef|]. by rewrite <- cb_put_F.
  - assert (cb_r d = 6 ∨ has_idx d = true) as Hri.
    { unfold cb_mem in Hm. change (cb_indexed d) with (has_idx d) in Hm. apply orb_true_iff in Hm as [?|?%Z.eqb_eq]; auto. }
    assert (is_byte (if has_idx d then addr_of d c >>' 8 else if cb_r d =? 6 then memptr c >>' 8 else v)) as Hxb.
    { destruct (has_idx d); [in_range|]. destruct (cb_r d =? 6); in_range. }
    destruct (nz (fmask &' (0xFF &~ FLAG_C))) eqn:Hd; cbn [negb fst].
    2: { apply (Hea _ 0%nat); [lia|]. intros σ1 H1 E1. apply gdoes_lift, (does_load_T1 d c); [done|done|done|].
         intros σ2 [(_ & H2 & _)|(? & _)] _ _; [|done]. by apply land_bit_dead. }
    assert (∀ σ2 x, holds T1 v c σ2 → host c σ2 → xr σ2 T3 = x → is_byte x →
      does (emit_cb_bit_inline (cb_g d) T1 T3) (lands l c fmask store (with_f (cb_bit_flags (rF c) v (cb_g d) x) c)) σ2) as Hbit.
    { intros σ2 x H2 Hh2 Ex Hx. eapply (does_bit (cb_g d) T1 v T3 x c); [done|exact H2|done|done|done|by right|done|].
      intros σ3 H3. apply lands_bit; [exact H3|apply byte_cb_bit_flags]. }
    destruct (has_idx d) eqn:Hx.
    + cbn [fst]. apply (Hea _ 0%nat); [lia|]. intros σ1 H1 E1. apply gdoes_lift, does_then, (does_load_T1 d c); [done|done|done|].
      intros σ2 H2 _ E2. rewrite <- Ev in H2. unfold areg in E2. rewrite Hx in E2.
      apply does_then. eapply (does_high l slow T3 T2 (addr_of d c)); [regs|regs|exact E2|done|]. intros σ3 S3.
      assert (holds T1 v c σ3) as H3.
      { destruct H2 as [(_ & H2 & Et)|(? & _)]; [|done]. left. split_and!; [done|eapply host_sets; [exact H2| |exact S3]; regs|].
        by rewrite (sets_other _ _ _ _ T1 S3) by regs. }
      apply Hbit; [done|by destruct H3 as [(_ & H3 & _)|(? & _)]|by eapply sets_at|done].
    + destruct Hri as [E6|?]; [|done]. rewrite E6 in *. cbn [Z.eqb Pos.eqb fst] in *.
      apply (Hea _ 0%nat); [lia|]. intros σ1 H1 E1. apply gdoes_lift, does_then, (does_load_T1 d c); [done|done|done|].
      intros σ2 H2 _ E2. rewrite <- Ev in H2. pose proof H2 as [(_ & Hh2 & Et)|(? & _)]; [|done].
      apply does_then. eapply does_movzx_r32_m8; [regs|side; unfold OFF_MEMPTR; lia|exact (get_memptr_hi l Hl c σ2 Hh2)|done|].
      apply Hbit; [apply holds_scratch; [exact H2|regs|regs]|apply host_scratch; [done|regs]|by xs|done].
  - apply (Hea _ 1%nat); [lia|]. intros σ1 H1 E1. unfold gen_cb_resset. cbv zeta. fold (cb_r d) (cb_g d). rewrite E. cbn [Z.eqb Pos.eqb].
    exact (resset_mem true d c σ1 Hc H1 Hi Hm E1).
  - apply (Hea _ 1%nat); [lia|]. intros σ1 H1 E1. unfold gen_cb_resset. cbv zeta. fold (cb_r d) (cb_g d). rewrite E. cbn [Z.eqb Pos.eqb].
    exact (resset_mem false d c σ1 Hc H1 Hi Hm E1).
Qed.
Lemma op_cb_page d c σ : cpu_ok c → host c σ → is_byte (Decode.imm8 d) → -128 <= disp d <= 127 →
  ∃ k, (k <= 2)%nat ∧ gdoes (gen_cb d fmask).1 k (lands l c fmask store (op_CB d (c, w)).1) σ.
Proof using Hl Hslow Hfm.
  intros Hc H Hi Hd. rewrite op_cb_eq by done. destruct (cb_mem d (cb_r d)) eqn:Hm; [by apply op_cb_mem|by apply op_cb_reg].
Qed.
End Arith.
