(* ===== verification/OpX64Ok.v ===== *)
(** * OpX64Ok: emit_op is the interpreter

    The families of OpsX64Ok and ArithX64Ok put together: for every
    straight-line instruction the translator accepts, the bytes [emit_op]
    appends run on the host from the picture of a Z80 state to the picture
    of the state the interpreter's [exec] reaches.  A concrete layout and
    host state at the end show the hypotheses can hold. *)

From Stdlib Require Import ZArith Lia Bool List.
From stdpp Require Import base option gmap list.
From S2P Require Import Prelude X86 EmitX64 EmitX64Ok Cpu Decode Interp InterpOk Translate Block Liveness JitFlags JitFlagsOk.
From S2P Require Import TransX64 HostX64 RulesX64 GuestX64 AluX64Ok OpsX64Ok ArithX64Ok.

Open Scope list_scope.
Open Scope Z_scope.
Open Scope z80_scope.

Set Default Proof Using "Type".

(** ** What the decoder puts in an indexed load *)

(** The other register of LD r,(IX+d) is never a half register. *)
Definition ind_reg_ok (d : z80_decoded) : bool :=
  match dtype d with Z80_OP_LD_R_HL_ind | Z80_OP_LD_HL_R_ind => (0 <=? reg2 d) && (reg2 d <=? 7) | _ => true end.
Lemma ind_reg_ed m pc op d : is_byte op → ind_reg_ok (decode_ed m pc op d) = true.
Proof. apply (forall_bytes (λ op, ind_reg_ok (decode_ed m pc op d))). by vm_compute. Qed.
Lemma ind_reg_main m pc op d : is_byte op → dtype d = Z80_OP_UNKNOWN → ind_reg_ok (decode_main m pc op d) = true.
Proof.
  intros Hop Hd. pose proof (forall_bytes (λ op, ind_reg_ok (decode_main m pc op (ty Z80_OP_UNKNOWN d))) ltac:(by vm_compute) op Hop) as H.
  destruct d; simpl in *. subst. exact H.
Qed.
Lemma ind_reg_idx m pc op d d' : decode_idx m pc op d = Some d' → ind_reg_ok d' = true.
Proof. unfold decode_idx. repeat case_match; intros; simplify_eq; done. Qed.
Lemma ind_reg_half d : ind_reg_ok (half_remap d) = ind_reg_ok d.
Proof. unfold half_remap, ind_reg_ok. destruct d as [[]]; reflexivity. Qed.
Lemma ind_reg_decoded m pc : mem_ok m → ind_reg_ok (z80_decode_one m pc) = true.
Proof.
  intros Hm. unfold z80_decode_one. destruct (skip_prefixes 4 m 0 pc 1) as [[p pc'] n]. unfold decode_opcode.
  assert (∀ a, is_byte (mget m a)) as Hb by apply Hm. case_match; [unfold decode_cb; by destruct (nz p)|].
  case_match; [by apply ind_reg_ed|]. case_match; [|by apply ind_reg_main]. unfold decode_indexed.
  destruct (needs_disp _); match goal with |- context [decode_idx ?m ?p ?o ?d] => destruct (decode_idx m p o d) eqn:Hi end;
    first [by eapply ind_reg_idx | rewrite ind_reg_half; by apply ind_reg_main].
Qed.

(** ** The families *)

(** Instructions [emit_op] translates to code that falls through and calls
    no C helper but the store check's. *)
Definition straight_line (t : z80_op_type) : bool :=
  negb (is_uncond_ender t) && negb (is_cond_ender t) &&
  match t with Z80_OP_LDIR | Z80_OP_LDDR | Z80_OP_IN_A_N | Z80_OP_OUT_N_A => false | _ => true end.
Definition alu_form (t : z80_op_type) : bool :=
  match t with
  | Z80_OP_ADD_A_R | Z80_OP_ADC_A_R | Z80_OP_SUB_A_R | Z80_OP_SBC_A_R | Z80_OP_AND_A_R | Z80_OP_OR_A_R | Z80_OP_XOR_A_R | Z80_OP_CP_A_R
  | Z80_OP_ADD_A_N | Z80_OP_ADC_A_N | Z80_OP_SUB_A_N | Z80_OP_SBC_A_N | Z80_OP_AND_A_N | Z80_OP_OR_A_N | Z80_OP_XOR_A_N | Z80_OP_CP_A_N
  | Z80_OP_ADD_A_HL_ind | Z80_OP_ADC_A_HL_ind | Z80_OP_SUB_A_HL_ind | Z80_OP_SBC_A_HL_ind
  | Z80_OP_AND_A_HL_ind | Z80_OP_OR_A_HL_ind | Z80_OP_XOR_A_HL_ind | Z80_OP_CP_A_HL_ind => true
  | _ => false
  end.
Definition load_form (t : z80_op_type) : bool :=
  match t with
  | Z80_OP_LD_R_N | Z80_OP_LD_R_R | Z80_OP_LD_RR_NN | Z80_OP_LD_HL_N | Z80_OP_LD_A_HL_ind | Z80_OP_LD_HL_A_ind
  | Z80_OP_LD_R_HL_ind | Z80_OP_LD_HL_R_ind | Z80_OP_LD_HL_N_ind | Z80_OP_LD_A_BC | Z80_OP_LD_A_DE | Z80_OP_LD_BC_A | Z80_OP_LD_DE_A
  | Z80_OP_LD_A_NN | Z80_OP_LD_NN_A | Z80_OP_LD_HL_indNN | Z80_OP_LD_NN_HL => true
  | _ => false
  end.

Section Op.
Context `{CE : CodeEnv} (l : layout) (Hl : layout_ok l) (slow : xstate → xstate) (Hslow : ∀ σ, rejoins l σ (slow σ)).
Context (Hmi : mirrored l = z80_mem_mirrored) `{HW : Host W} (w : W) (fmask : Z) (store : bool) (Hfm : is_byte fmask).
Context (c : z80_cpu) (σ : xstate) (Hc : cpu_ok c) (Hh : host l c σ).
Local Abbreviation does := (does l slow).
Local Abbreviation gdoes := (gdoes l slow).

(** The code of [d] lands where [exec] does. *)
Definition op_lands (d : z80_decoded) (old_pc prev_q q : Z) : Prop :=
  (exec d old_pc q (c, w)).1 = RC_OK ∧
  ∃ k, (k <= 2)%nat ∧ gdoes (emit_op d prev_q fmask store).1 k (lands l c fmask store (exec d old_pc q (c, w)).2.1) σ.
Lemma by_does a Q : does a Q σ → ∃ k, (k <= 2)%nat ∧ gdoes (lift a) k Q σ.
Proof. intros H. exists 0%nat. split; [lia|by apply gdoes_lift]. Qed.
Lemma by_gdoes g k Q : (k <= 2)%nat → gdoes g k Q σ → ∃ k, (k <= 2)%nat ∧ gdoes g k Q σ.
Proof. intros. by exists k. Qed.

Context (traps ports : bool) (pc_after : Z) (d : z80_decoded) (Hd : dec_ok 8 d) (Hacc : can_translate traps ports d pc_after = true).

Lemma alu_lands old_pc prev_q q : alu_form (dtype d) = true → op_lands d old_pc prev_q q.
Proof using Hl Hfm Hc Hh Hd Hacc.
  intros Ht. pose proof (ok_imm8 _ _ Hd) as Hi. pose proof (ok_disp _ _ Hd) as Hdi. revert Hacc. unfold op_lands, can_translate, emit_op, exec.
  pose proof (op_alu_r l Hl slow fmask store Hfm) as Hr. pose proof (op_alu_n l Hl slow fmask store Hfm) as Hn.
  pose proof (op_alu_ind l Hl slow fmask store Hfm) as Hx.
  destruct (emit_alu_src_from_reg (reg1 d) (prefix d)) as [code src] eqn:Es.
  destruct (dtype d); try discriminate Ht; intros Ha; (split; [reflexivity|]); apply by_does; cbn [alu_op_for];
  first [ match goal with |- context [emit_alu_inline ?op _ src] => specialize (Hr op d c σ Hc Hh Ha); rewrite Es in Hr; exact Hr end
        | match goal with |- context [emit_alu_inline ?op _ (SRC_IMM _)] => exact (Hn op d c σ Hc Hh Hi) end
        | match goal with |- context [emit_alu_inline ?op _ (SRC_MEM _ _ _)] => exact (Hx op d c σ Hc Hh Ha Hdi) end ].
Qed.

Lemma stack_reg (b : bool) r : 0 <= r → (if r <=? 2 then true else if r =? 3 then negb b else if r =? 4 then b else false) = true → 0 <= r <= 4.
Proof. intros H0. destruct (Z.leb_spec r 2); [lia|]. destruct (Z.eqb_spec r 3); [lia|]. destruct (Z.eqb_spec r 4); [lia|done]. Qed.
Lemma load_lands old_pc prev_q q : load_form (dtype d) = true → ind_reg_ok d = true →
  (dtype d = Z80_OP_LD_NN_HL → has_idx d = true → imm16 d ≠ 0xFFFF) → op_lands d old_pc prev_q q.
Proof using All.
  intros Ht Hind Hff. pose proof Hd as []. revert Hacc Hind Hff. unfold op_lands, can_translate, emit_op, exec, ind_reg_ok.
  pose proof (ok_rBC c Hc) as HBC. pose proof (ok_rDE c Hc) as HDE.
  pose proof (host_rBC l c σ Hh) as EBC. pose proof (host_rDE l c σ Hh) as EDE.
  pose proof (op_ld_a_rr l Hl slow Hslow Hmi w fmask store Hfm c σ Hc Hh) as Har. pose proof (op_ld_rr_a l Hl slow Hslow Hmi w fmask store Hfm c σ Hc Hh) as Hra.
  destruct (dtype d); try discriminate Ht; intros Ha Hind Hff; (split; [reflexivity|]); cbn [fst].
  - apply by_does. by apply (op_ld_r_n l Hl slow Hslow Hmi w fmask store Hfm c σ Hc Hh).
  - by apply (op_ld_r_r l Hl slow Hslow Hmi w fmask store Hfm c σ Hc Hh).
  - apply by_does. apply (op_ld_rr_nn l Hl slow Hslow Hmi w fmask store Hfm c σ Hc Hh); try done; lia.
  - apply (by_gdoes _ 1); [lia|]. apply negb_true_iff in Ha. by apply (op_ld_hl_n l Hl slow Hslow Hmi w fmask store Hfm c σ Hc Hh).
  - apply by_does. by apply (Har R_BC (rBC c)).
  - apply by_does. by apply (Har R_DE (rDE c)).
  - apply by_does. by apply (op_ld_a_nn l Hl slow Hslow Hmi w fmask store Hfm c σ Hc Hh).
  - apply (by_gdoes _ 1); [lia|]. apply (Hra R_BC (rBC c)); try done; [regs|by left|]. cbn [run op_LD_BC_A on_cpu fst snd]. by rewrite (mem_w_pair w).
  - apply (by_gdoes _ 1); [lia|]. apply (Hra R_DE (rDE c)); try done; [regs|right; by left|]. cbn [run op_LD_DE_A on_cpu fst snd]. by rewrite (mem_w_pair w).
  - apply (by_gdoes _ 1); [lia|]. by apply (op_ld_nn_a l Hl slow Hslow Hmi w fmask store Hfm c σ Hc Hh).
  - apply by_does. by apply (op_ld_hl_indnn l Hl slow Hslow Hmi w fmask store Hfm c σ Hc Hh).
  - by apply (op_ld_nn_hl l Hl slow Hslow Hmi w fmask store Hfm c σ Hc Hh); [|apply Hff].
  - apply by_does. by apply (op_ld_a_hl_ind l Hl slow Hslow Hmi w fmask store Hfm c σ Hc Hh).
  - apply (by_gdoes _ 1); [lia|]. by apply (op_ld_hl_a_ind l Hl slow Hslow Hmi w fmask store Hfm c σ Hc Hh).
  - apply by_does. apply andb_true_iff in Ha as [Hx Hr]. apply (op_ld_r_hl_ind l Hl slow Hslow Hmi w fmask store Hfm c σ Hc Hh); try done. lia.
  - apply (by_gdoes _ 1); [lia|]. apply andb_true_iff in Ha as [Hx Hr].
    pose proof (op_ld_hl_r_ind l Hl slow Hslow Hmi w fmask store Hfm c σ Hc Hh d Hx) as H. destruct (emit_read_r8 T1 (reg2 d) 0). apply H; try done. lia.
  - apply (by_gdoes _ 1); [lia|]. by apply (op_ld_hl_n_ind l Hl slow Hslow Hmi w fmask store Hfm c σ Hc Hh).
Qed.

Lemma rest_lands old_pc prev_q q : straight_line (dtype d) = true → alu_form (dtype d) = false → load_form (dtype d) = false →
  q_known l prev_q q σ → op_lands d old_pc prev_q q.
Proof using All.
  intros Ht Hna Hnl Hq. pose proof Hd as []. revert Hacc. unfold op_lands, can_translate, emit_op, exec.
  pose proof (op_rot_a l Hl slow fmask store Hfm) as Hrot. pose proof (op_scf l Hl slow fmask store Hfm) as Hscf.
  destruct (dtype d) eqn:Et; try discriminate Ht; try discriminate Hna; try discriminate Hnl; intros Ha; try discriminate Ha;
    (split; [reflexivity|]); cbn [fst].
  - apply by_does, does_none. by apply (land_same l Hl slow Hslow Hmi w fmask store Hfm c σ Hc Hh).
  - apply by_does. by apply (op_ld_sp_hl l Hl slow Hslow Hmi w fmask store Hfm c σ Hc Hh).
  - apply by_does. apply (op_push_rr l Hl slow Hslow Hmi w fmask store Hfm c σ Hc Hh); [by apply (stack_reg (has_idx d)); [lia|]|]. intros E4. by rewrite E4 in Ha.
  - apply by_does. apply (op_pop_rr l Hl slow Hslow Hmi w fmask store Hfm c σ Hc Hh); [by apply (stack_reg (has_idx d)); [lia|]|]. intros E4. by rewrite E4 in Ha.
  - by apply (op_incdec_r l Hl slow Hslow fmask store Hfm w true).
  - by apply (op_incdec_r l Hl slow Hslow fmask store Hfm w false).
  - apply by_does. apply Z.leb_le in Ha. change (pure (op_INC_RR d) (c, w)).2.1 with (if true then op_INC_RR d c else op_DEC_RR d c).
    rewrite (op_incdec_eq l Hl slow Hslow Hmi w fmask store Hfm c σ Hc Hh true) by lia. apply (op_incdec_rr_ok l Hl slow Hslow Hmi w fmask store Hfm c σ Hc Hh). lia.
  - apply by_does. apply Z.leb_le in Ha. change (pure (op_DEC_RR d) (c, w)).2.1 with (if false then op_INC_RR d c else op_DEC_RR d c).
    rewrite (op_incdec_eq l Hl slow Hslow Hmi w fmask store Hfm c σ Hc Hh false) by lia. apply (op_incdec_rr_ok l Hl slow Hslow Hmi w fmask store Hfm c σ Hc Hh). lia.
  - apply by_does. by apply (op_ex_de_hl l Hl slow Hslow Hmi w fmask store Hfm c σ Hc Hh).
  - apply by_does. apply Z.leb_le in Ha. apply (op_add_hl_rr l Hl slow Hslow Hmi w fmask store Hfm c σ Hc Hh). lia.
  - apply by_does. by apply (op_cpl l Hl slow fmask store Hfm).
  - apply by_does. by apply (Hscf true prev_q q).
  - apply by_does. by apply (Hscf false prev_q q).
  - apply by_does. by apply (op_daa l Hl slow fmask store Hfm).
  - by apply (op_cb_page l Hl slow Hslow fmask store Hfm w).
  - apply by_does. apply (Hrot Z80_OP_RLCA c σ Hc Hh). by repeat constructor.
  - apply by_does. apply (Hrot Z80_OP_RRCA c σ Hc Hh). by repeat constructor.
  - apply by_does. apply (Hrot Z80_OP_RLA c σ Hc Hh). by repeat constructor.
  - apply by_does. apply (Hrot Z80_OP_RRA c σ Hc Hh). by repeat constructor.
  - apply (by_gdoes _ 1); [lia|]. by apply (op_incdec_hl_ind l Hl slow Hslow fmask store Hfm w true).
  - apply (by_gdoes _ 1); [lia|]. by apply (op_incdec_hl_ind l Hl slow Hslow fmask store Hfm w false).
  - apply by_does. by apply (op_ex_sp_hl l Hl slow Hslow Hmi w fmask store Hfm c σ Hc Hh).
Qed.

(** What is needed of an instruction for [emit_op] to be right about it. *)
Lemma emit_op_lands old_pc prev_q q : straight_line (dtype d) = true → ind_reg_ok d = true →
  (dtype d = Z80_OP_LD_NN_HL → has_idx d = true → imm16 d ≠ 0xFFFF) → q_known l prev_q q σ → op_lands d old_pc prev_q q.
Proof using All.
  intros Ht Hind Hff Hq. destruct (alu_form (dtype d)) eqn:Ea; [by apply alu_lands|].
  destruct (load_form (dtype d)) eqn:El; [by apply load_lands|by apply rest_lands].
Qed.
End Op.

(** ** A host state *)

(** Guest memory at 100000h, mirrored; the context and the aux block well
    apart. *)
Definition lay : layout := mk_layout (λ a, if a =? 0x110000 then 0x100000 else a) 0x1000000 0x100000 0x2000000 true.
Lemma lay_ok : layout_ok lay.
Proof.
  split; unfold guest_addr, in_cpu, in_mem, in_aux, CTX_SIZE, AUX_SIZE; cbn [cpu_p mem_p aux_p lay mirrored phys]; intros; try lia; try done.
  destruct (Z.eqb_spec a 0x110000), (Z.eqb_spec b 0x110000); lia.
Qed.
Definition lay_env : CodeEnv := {| post_store_at := 0; port_in_at := 0; port_out_at := 0; ldir_at := 0; lddr_at := 0;
  loop_fill_at := 0; loop_copy_at := 0; filtercopy_at := 0; z80_mem_mirrored := true |}.

Definition ctx_byte (c : z80_cpu) (o : Z) : Z :=
  if o =? OFF_IXL then u8 (rIX c) else if o =? OFF_IXH then rIX c >>' 8
  else if o =? OFF_IYL then u8 (rIY c) else if o =? OFF_IYH then rIY c >>' 8
  else if o =? OFF_MEMPTR then u8 (memptr c) else if o =? OFF_MEMPTR + 1 then memptr c >>' 8
  else if o =? OFF_Q then rQ c else 0.
(** The flag tables; the code bitmap and the cache behind them are [code]. *)
Definition aux_byte (code : Z → Z) (i : Z) : Z :=
  if i <? 1024 then table_at z80_f_tables i
  else if i <? FT_ADD16 then
    let w := table_at z80_daa_table ((i - FT_DAA) / 2) in if Z.even i then u8 w else w >>' 8
  else if i <? FT_ADD16 + ADD16_TABLE_LEN then table_at z80_add16_table (i - FT_ADD16)
  else code (i - AUX_BITMAP_OFF).
Definition picture (code : Z → Z) (c : z80_cpu) : xstate :=
  mk_x (λ r, if r =? R_CPU then cpu_p lay else if r =? R_MEM then mem_p lay else if r =? R_AUX then aux_p lay
        else if r =? R_HL then rHL c else if r =? R_BC then rBC c else if r =? R_DE then rDE c else if r =? R_SP then rSP c
        else if r =? R_A then rA c else if r =? R_F then rF c else 0)
    (mk_flags None None None None None None)
    (λ a, if (mem_p lay <=? a) && (a <? mem_p lay + 0x10000) then mget (mem c) (a - mem_p lay)
          else if (cpu_p lay <=? a) && (a <? cpu_p lay + CTX_SIZE) then ctx_byte c (a - cpu_p lay)
          else if (aux_p lay <=? a) && (a <? aux_p lay + AUX_SIZE) then aux_byte code (a - aux_p lay) else 0).
Lemma picture_mem code c a : is_word a → at_ lay (picture code c) (mem_p lay + a) = mget (mem c) a.
Proof.
  intros Ha. unfold at_, picture. cbn [xm lay mem_p phys]. unfold is_word in Ha.
  destruct (Z.eqb_spec (0x100000 + a) 0x110000); [lia|].
  destruct (Z.leb_spec 0x100000 (0x100000 + a)); [|lia]. destruct (Z.ltb_spec (0x100000 + a) (0x100000 + 0x10000)); [|lia].
  cbn [andb]. f_equal. lia.
Qed.
Lemma picture_ctx code c o : 0 <= o < CTX_SIZE → at_ lay (picture code c) (cpu_p lay + o) = ctx_byte c o.
Proof.
  intros Ho. unfold at_, picture. cbn [xm lay mem_p cpu_p phys]. unfold CTX_SIZE in *.
  destruct (Z.eqb_spec (0x1000000 + o) 0x110000); [lia|].
  destruct (Z.leb_spec 0x100000 (0x1000000 + o)); [|lia]. destruct (Z.ltb_spec (0x1000000 + o) (0x100000 + 0x10000)); [lia|].
  destruct (Z.leb_spec 0x1000000 (0x1000000 + o)); [|lia]. destruct (Z.ltb_spec (0x1000000 + o) (0x1000000 + 240)); [|lia].
  cbn [andb]. f_equal. lia.
Qed.
Lemma picture_aux code c i : 0 <= i < AUX_SIZE → at_ lay (picture code c) (aux_p lay + i) = aux_byte code i.
Proof.
  intros Hi. unfold at_, picture. cbn [xm lay mem_p cpu_p aux_p phys]. unfold CTX_SIZE, AUX_SIZE in *.
  destruct (Z.eqb_spec (0x2000000 + i) 0x110000); [lia|].
  destruct (Z.leb_spec 0x100000 (0x2000000 + i)); [|lia]. destruct (Z.ltb_spec (0x2000000 + i) (0x100000 + 0x10000)); [lia|].
  destruct (Z.leb_spec 0x1000000 (0x2000000 + i)); [|lia]. destruct (Z.ltb_spec (0x2000000 + i) (0x1000000 + 240)); [lia|].
  destruct (Z.leb_spec 0x2000000 (0x2000000 + i)); [|lia]. destruct (Z.ltb_spec (0x2000000 + i) (0x2000000 + 0x20000)); [|lia].
  cbn [andb]. f_equal. lia.
Qed.
(** The picture of any CPU. *)
Lemma picture_host code c : host lay c (picture code c).
Proof.
  split; split; intros; try done; rewrite ?picture_ctx, ?picture_aux by off; try done; try by apply picture_mem.
  all: unfold aux_byte.
  - by rewrite (proj2 (Z.ltb_lt i 1024)) by lia.
  - rewrite (proj2 (Z.ltb_ge _ 1024)), (proj2 (Z.ltb_lt _ FT_ADD16)) by off.
    replace (FT_DAA + 2 * i - FT_DAA) with (i * 2) by lia. rewrite Z.div_mul by lia.
    replace (Z.even (FT_DAA + 2 * i)) with true; [done|]. rewrite Z.even_add, Z.even_mul. done.
  - rewrite (proj2 (Z.ltb_ge _ 1024)), (proj2 (Z.ltb_lt _ FT_ADD16)) by off.
    replace (FT_DAA + 2 * i + 1 - FT_DAA) with (1 + i * 2) by lia. rewrite Z.div_add by lia. change (1 / 2 + i) with (0 + i). rewrite Z.add_0_l.
    replace (Z.even (FT_DAA + 2 * i + 1)) with false; [done|]. rewrite Z.even_add, Z.even_add, Z.even_mul. done.
  - rewrite (proj2 (Z.ltb_ge _ 1024)), (proj2 (Z.ltb_ge _ FT_ADD16)), (proj2 (Z.ltb_lt _ (FT_ADD16 + _))) by off.
    f_equal. lia.
Qed.

(** ** The theorem *)

(** C3: one translated instruction does what the interpreter does.  For
    every straight-line Z80 instruction the x86-64 translator accepts (loads
    and stores in all addressing modes, the stack, 8- and 16-bit arithmetic,
    rotates, DAA, CPL, SCF, CCF and the CB page), whatever the flag mask and
    whether or not the MEMPTR store was kept, the host instructions the bytes
    of [emit_op] disassemble to, run from a host state that holds the Z80
    state, stop in one that holds the interpreter's next state: all registers
    and memory, F on every bit of the mask, and MEMPTR where its store was
    kept.  The bytes are the same wherever they are appended, as long as the
    list of slow paths has room for the at most two the code records; those
    slow paths, when taken, can change scratch registers at will.
    LD (0FFFFh),IX is the one exception. *)
Theorem emitted_op_correct `{CE : CodeEnv} `{HW : Host W} l slow (w : W) fmask store c σ traps ports m pc pc_after prev_q q :
  layout_ok l → (∀ σ, rejoins l σ (slow σ)) → mirrored l = z80_mem_mirrored → is_byte fmask →
  cpu_ok c → host l c σ → q_known l prev_q q σ → mem_ok m → is_word pc →
  let d := z80_decode_one m pc in
  can_translate traps ports d pc_after = true → straight_line (dtype d) = true →
  (dtype d = Z80_OP_LD_NN_HL → has_idx d = true → imm16 d ≠ 0xFFFF) →
  ∃ k σ' s', (k <= 2)%nat ∧ gruns l slow (emit_op d prev_q fmask store).1 k σ σ' ∧
    exec d pc q (c, w) = (RC_OK, s') ∧ lands l c fmask store s'.1 σ'.
Proof.
  intros Hl Hslow Hmi Hfm Hc Hh Hq Hm Hpc d Ha Ht Hff.
  destruct (emit_op_lands l Hl slow Hslow Hmi w fmask store Hfm c σ Hc Hh traps ports pc_after d (decode_ok m pc Hm Hpc) Ha pc prev_q q)
    as (Hrc & k & Hk & σ' & Hg & HL); [done|by apply ind_reg_decoded|done|done|].
  exists k, σ', (exec d pc q (c, w)).2. split_and!; [done|done| |done].
  destruct (exec d pc q (c, w)) as [rc s']. cbn [fst snd] in *. by rewrite Hrc.
Qed.

(** SET 3,(IX-2),B at 100h: an indexed store with a copied result, under a
    mask that leaves MEMPTR out. *)
Definition op_cpu : z80_cpu := set_rIX 0x8000 (set_mem (mset_list 0x100 [0xDD; 0xCB; 0xFE; 0xD8] ∅) (set_rPC 0x104 (set_rA 0x12 z80_cpu_init))).
Example emitted_op_correct_witness :
  ∃ k σ' s', (k <= 2)%nat ∧
    gruns lay (λ σ, σ) (@emit_op lay_env (z80_decode_one (mem op_cpu) 0x100) 0 0xFF false).1 k (picture (λ _, 0) op_cpu) σ' ∧
    exec (z80_decode_one (mem op_cpu) 0x100) 0x100 0 (op_cpu, tt) = (RC_OK, s') ∧ lands lay op_cpu 0xFF false s'.1 σ'.
Proof.
  apply (emitted_op_correct (CE := lay_env) lay (λ σ, σ) tt 0xFF false op_cpu (picture (λ _, 0) op_cpu) true true (mem op_cpu) 0x100 0x104 0 0).
  - exact lay_ok.
  - apply rejoins_refl.
  - reflexivity.
  - by vm_compute.
  - unfold op_cpu. pose proof z80_cpu_init_ok. in_range.
  - apply picture_host.
  - reflexivity.
  - unfold op_cpu. pose proof z80_cpu_init_ok. in_range.
  - by vm_compute.
  - vm_compute. reflexivity.
  - vm_compute. reflexivity.
  - vm_compute. discriminate.
Defined.

(** ** The exception *)

(** A store to a byte marked as code goes the slow way. *)
Lemma gdoes_store_marked `{CE : CodeEnv} l slow nn Q (σ : xstate) : layout_ok l → xr σ R_AUX = aux_p l → is_word nn →
  0 < at_ l σ (aux_p l + (AUX_BITMAP_OFF + nn)) < 256 → (∀ f, Q (slow (set_xf f σ))) →
  gdoes l slow (emit_smc_check_imm nn 1) 1 Q σ.
Proof.
  intros Hl Ex Hn Hb HQ. apply (gdoes_then l slow _ _ 0 1), gdoes_lift. change (1 =? 2) with false. cbv iota.
  eapply does_emit; [apply enc_cmp_m8_imm8; [|by vm_compute]|done|reflexivity|].
  { repeat split; try regs; [by left|unfold AUX_BITMAP_OFF, is_word in *; lia..]. }
  set (f := X86.sub_flags _ _ _ _).
  assert (zf f = Some false) as Hz.
  { subst f. cbn [X86.sub_flags result_flags zf]. f_equal. apply Z.eqb_neq. unfold mem_op. cbn [index_of X64_NOREG get nbytes_of].
    change (index_of X64_NOREG) with (@None Z). unfold ea. rewrite Ex, Z.add_0_r. 
    assert (guest_addr l (aux_p l + (AUX_BITMAP_OFF + nn))) as Hg by (apply guest_aux; off).
    rewrite u64_small by (by apply (guest_range l Hl)). rewrite (ld1 l Hl) by done.
    change (trunc B8 (s8 0)) with 0. rewrite !Z.sub_0_r, trunc_B8, u8_id by (unfold is_byte; lia). lia. }
  exists (slow (set_xf f σ)). split; [|apply HQ]. exists [IJcc X64_CC_NE 0]. split.
  - exists [0x0F; 0x85; 0; 0; 0; 0]. split; [intros rest; by vm_compute|].
    intros [e sl d ab] Hst. cbn [g_slow g_emit] in *. unfold emit_smc_branch. cbn [g_slow g_emit].
    rewrite (proj2 (Nat.ltb_lt _ _)) by lia. cbn. rewrite length_app. cbn. split_and!; [done|lia|done|done].
  - cbn [exec_seq]. rewrite cond_NE. cbn [xf set_xf]. by rewrite Hz.
Qed.

(** LD (0FFFFh),IX, with IX = 1234h and byte FFFF marked as code; the slow
    path leaves 0 in R10, which a C helper may. *)
Definition ffff_cpu : z80_cpu := set_rIX 0x1234 (set_mem (mset_list 0x100 [0xDD; 0x22; 0xFF; 0xFF] ∅) (set_rPC 0x104 z80_cpu_init)).
Definition ffff_host : xstate := picture (λ a, if a =? 0xFFFF then 1 else 0) ffff_cpu.
Definition clobber (σ : xstate) : xstate := set_reg T3 0 σ.
Lemma clobber_rejoins l σ : rejoins l σ (clobber σ).
Proof. split; [|done]. intros r Hr. unfold clobber. xs. destruct (Z.eqb_spec r T3) as [->|]; [|done]. exfalso. revert Hr. unfold pinned. by vm_compute; set_solver. Qed.

(** C23: LD (0FFFFh),IX may store the wrong byte.  The code keeps IX in R10,
    a caller-saved register, across the check of the first store; when byte
    FFFF is marked as code and its slow path leaves R10 changed, the byte at
    0000 comes from what is left there and the host no longer holds the
    interpreter's state. *)
Theorem ffff_store_loses_byte :
  let d := z80_decode_one (mem ffff_cpu) 0x100 in
  can_translate true true d 0x104 = true ∧ straight_line (dtype d) = true ∧ (∀ σ, rejoins lay σ (clobber σ)) ∧ host lay ffff_cpu ffff_host ∧
  ∃ σ', gruns lay clobber (@emit_op lay_env d 0 0xFF true).1 2 ffff_host σ' ∧
    mget (mem (exec d 0x100 0 (ffff_cpu, tt)).2.1) 0 = 0x12 ∧ at_ lay σ' (mem_p lay) = 0 ∧
    ¬ lands lay ffff_cpu 0xFF true (exec d 0x100 0 (ffff_cpu, tt)).2.1 σ'.
Proof.
  set (d := z80_decode_one (mem ffff_cpu) 0x100). cbv zeta.
  assert (d = mk_dec Z80_OP_LD_NN_HL 0xDD 0x22 0 0 0 0xFFFF 0 0 4) as Ed by (by vm_compute).
  clearbody d. subst d.
  split_and!; [by vm_compute|by vm_compute|apply clobber_rejoins|apply picture_host|].
  assert (gdoes lay clobber (@emit_op lay_env (mk_dec Z80_OP_LD_NN_HL 0xDD 0x22 0 0 0 0xFFFF 0 0 4) 0 0xFF true).1 2 (λ σ', at_ lay σ' (mem_p lay) = 0) ffff_host)
    as (σ' & Hg & E0).
  { pose proof lay_ok as Hl. pose proof (picture_host (λ a, if a =? 0xFFFF then 1 else 0) ffff_cpu) as Hh. fold ffff_host in Hh.
    assert (at_ lay ffff_host (aux_p lay + (AUX_BITMAP_OFF + 0xFFFF)) = 1 ∧ at_ lay ffff_host (aux_p lay + (AUX_BITMAP_OFF + 0)) = 0) as [Eb1 Eb0]
      by (split; vm_compute; reflexivity).
    assert (cpu_ok ffff_cpu) as Hc by (unfold ffff_cpu; pose proof z80_cpu_init_ok; in_range).
    cbn [emit_op dtype fst]. unfold gen_ld_nn_hl. cbv zeta. change (has_idx _) with true. cbn [imm16 prefix]. change (negb (0xFFFF =? 0xFFFF)) with false. cbv iota.
    apply (gdoes_then lay clobber _ _ 0 2), gdoes_lift, does_if; [intros _|done].
    apply (does_idx_load lay Hl clobber ffff_cpu); [done|done|regs|].
    apply (gdoes_then lay clobber _ _ 2 0), (gdoes_then lay clobber _ _ 0 2), gdoes_lift.
    eapply does_mov_m8_r8; [regs|side|by apply (ea_mem_abs lay Hl); [eapply host_rMEM, host_scratch; [exact Hh|regs]|by vm_compute]|].
    apply (gdoes_then lay clobber _ _ 1 1), (gdoes_store_marked lay clobber); [done|done|by vm_compute|vm_compute; split; reflexivity|].
    intros f. match goal with |- gdoes _ _ _ _ _ ?s => set (σ1 := s) end. assert (xr σ1 T3 = 0) as E3 by done.
    set (c1 := set_mem (mset 0xFFFF 0x34 (mem ffff_cpu)) ffff_cpu).
    assert (host lay c1 σ1) as H1.
    { subst σ1. apply host_scratch; [|regs]. apply host_xf. rewrite <- st8_u8. apply host_mem; [done|apply host_scratch; [exact Hh|regs]|by vm_compute|by vm_compute]. }
    clearbody σ1. apply (gdoes_then lay clobber _ _ 0 1), gdoes_lift, does_seq2.
    eapply (does_high lay clobber T3 T3 0); [regs|regs|exact E3|by vm_compute|]. intros σ2 S2.
    assert (host lay c1 σ2) as H2 by (eapply host_sets; [exact H1| |exact S2]; regs). change (u16 (0xFFFF + 1)) with 0.
    eapply does_mov_m8_r8; [regs|side|by apply (ea_mem_abs lay Hl); [eapply host_rMEM; exact H2|by vm_compute]|].
    rewrite (sets_at _ _ _ _ S2).
    eapply (gdoes_smc_check_imm lay clobber (clobber_rejoins lay)); [apply (host_mem lay Hl c1 σ2 0 0 H2); by vm_compute|by vm_compute|].
    intros σ3 H3. apply gdoes_lift, does_if; [intros _|done]. 
    eapply (does_memptr_imm lay Hl clobber); [exact H3|by vm_compute|]. intros σ4 [_ H4].
    pose proof (hm_mem _ _ _ H4 0 ltac:(by vm_compute)) as E. rewrite Z.add_0_r in E. rewrite E. by vm_compute. }
  exists σ'. assert (mget (mem (exec (mk_dec Z80_OP_LD_NN_HL 0xDD 0x22 0 0 0 0xFFFF 0 0 4) 0x100 0 (ffff_cpu, tt)).2.1) 0 = 0x12) as Em by (by vm_compute).
  split_and!; [exact Hg|exact Em|exact E0|]. intros (f & _ & _ & [_ H]).
  pose proof (hm_mem _ _ _ H 0 ltac:(by vm_compute)) as E. rewrite Z.add_0_r, E0 in E. cbn [touch set_rF set_memptr mem] in E. 
  change (0 = mget (mem (exec (mk_dec Z80_OP_LD_NN_HL 0xDD 0x22 0 0 0 0xFFFF 0 0 4) 0x100 0 (ffff_cpu, tt)).2.1) 0) in E. by rewrite Em in E.
Qed.
