(* ===== verification/BlockX64Ok.v ===== *)
(** * BlockX64Ok: the code of a stretch of a block is the interpreter's run

    [emitted_op_correct] (OpX64Ok) and the liveness pass (LivenessOk) put
    together: the bytes phase 3 emits for consecutive straight-line
    instructions, each under the masks phase 2 gave it, take a host state
    that holds the Z80's but for dead flags and a dead MEMPTR to one that
    holds the interpreter's in the same sense. *)

From Stdlib Require Import ZArith Lia Bool List.
From stdpp Require Import base option gmap list.
From S2P Require Import Prelude X86 EmitX64 EmitX64Ok Cpu Decode Interp InterpOk Translate Block Scan Liveness LivenessOk JitFlags JitFlagsOk.
From S2P Require Import TransX64 HostX64 RulesX64 GuestX64 AluX64Ok OpsX64Ok ArithX64Ok OpX64Ok.

Open Scope list_scope.
Open Scope Z_scope.
Open Scope z80_scope.

Set Default Proof Using "Type".

(** ** The Q bit *)

Section Q.
Context `{HW : Host W}.

Lemma set_reg8_p_q r pfx v c : rQ (set_reg8_p r pfx v c) = rQ c.
Proof. unfold set_reg8_p. repeat case_match; reflexivity. Qed.
Lemma write_rr_q r v c : rQ (write_rr r v c) = rQ c.
Proof. unfold write_rr. repeat case_match; reflexivity. Qed.
Lemma set_idx16_q pfx v c : rQ (set_idx16 pfx v c) = rQ c.
Proof. unfold set_idx16. repeat case_match; reflexivity. Qed.
Lemma write_reg8_q r v d (s : mach W) : rQ (write_reg8 r v d s).1 = rQ s.1.
Proof. unfold write_reg8. case_match; [reflexivity|apply set_reg8_p_q]. Qed.
Lemma cb_write_q d r v (s : mach W) : rQ (cb_write d r v s).1 = rQ s.1.
Proof. unfold cb_write. repeat case_match; try reflexivity; cbn [on_cpu fst]; by rewrite set_reg8_p_q. Qed.

(** What [emit_op] reports of F is what the interpreter does to Q. *)
Definition reports (r q : Z) : Prop := r = OP_SETS_F_INLINE ∧ q = 1 ∨ r = OP_FALL_THROUGH ∧ q = 0.

Lemma reports_cb `{CE : CodeEnv} d fmask (s : mach W) : is_byte (imm8 d) → rQ s.1 = 0 →
  reports (gen_cb d fmask).2 (rQ (op_CB d s).1).
Proof.
  intros Hb Hq. rewrite op_CB_family by done. unfold gen_cb, reports, cb_rot.
  assert (imm8 d >>' 6 = 0 ∨ imm8 d >>' 6 = 1 ∨ imm8 d >>' 6 = 2 ∨ imm8 d >>' 6 = 3) as Hf.
  { unfold is_byte in Hb. rewrite Z.shiftr_div_pow2 by lia. Z.div_mod_to_equations; lia. }
  destruct Hf as [->|[->|[->| ->]]]; cbn [Z.eqb Pos.eqb orb fst snd]; rewrite ?cb_write_q; [| |by right..].
  - left. destruct (cb_shift _ _ _). split; [|done]. by repeat case_match.
  - left. split; [|done]. by repeat case_match.
Qed.

Lemma reports_op `{CE : CodeEnv} traps ports d pa prev_q fmask store old q (s : mach W) : dec_ok 8 d →
  can_translate traps ports d pa = true → straight_line (dtype d) = true → rQ s.1 = 0 →
  reports (emit_op d prev_q fmask store).2 (rQ (exec d old q s).2.1).
Proof.
  intros Hd Hacc Hsl Hq. pose proof (ok_imm8 _ _ Hd) as Hb.
  destruct (dtype d) eqn:Et; try discriminate Hsl; try (exfalso; unfold can_translate in Hacc; rewrite Et in Hacc; discriminate Hacc);
    unfold emit_op, exec; rewrite Et.
  all: try (right; split; [reflexivity|]; exact Hq).
  all: try (left; split; [reflexivity|]; reflexivity).
  - right. split; [done|]. change (rQ (write_reg8 (reg1 d) (imm8 d) d s).1 = 0). by rewrite write_reg8_q.
  - right. split; [done|]. unfold run, op_LD_R_R. cbn [snd]. by rewrite write_reg8_q.
  - right. split; [done|]. cbn [snd fst pure on_cpu]. unfold op_LD_RR_NN. repeat case_match; try exact Hq. by rewrite write_rr_q.
  - right. split; [done|]. cbn [snd fst pure on_cpu]. unfold op_POP_RR. cbv zeta. repeat case_match; try exact Hq. by rewrite write_rr_q.
  - left. destruct (emit_alu_src_from_reg _ _). done.
  - left. destruct (emit_alu_src_from_reg _ _). done.
  - left. destruct (emit_alu_src_from_reg _ _). done.
  - left. destruct (emit_alu_src_from_reg _ _). done.
  - left. destruct (emit_alu_src_from_reg _ _). done.
  - left. destruct (emit_alu_src_from_reg _ _). done.
  - left. split; [done|]. unfold can_translate in Hacc. rewrite Et in Hacc. cbn [snd run]. unfold op_INC_R.
    destruct (accept_inc_dec d Hacc) as [->|Hr]; [done|]. case_match; [done|]. by rewrite (reg8_p_some _ _ _ Hr).
  - left. split; [done|]. unfold can_translate in Hacc. rewrite Et in Hacc. cbn [snd run]. unfold op_DEC_R.
    destruct (accept_inc_dec d Hacc) as [->|Hr]; [done|]. case_match; [done|]. by rewrite (reg8_p_some _ _ _ Hr).
  - right. split; [done|]. cbn [snd fst pure on_cpu]. unfold op_INC_RR. repeat case_match; try exact Hq. by rewrite write_rr_q.
  - right. split; [done|]. cbn [snd fst pure on_cpu]. unfold op_DEC_RR. repeat case_match; try exact Hq. by rewrite write_rr_q.
  - left. split; [done|]. cbn [snd fst pure on_cpu]. unfold op_ADD_HL_RR. cbv zeta. by rewrite ?set_idx16_q.
  - right. split; [done|]. cbn [snd fst pure on_cpu]. unfold op_LD_HL_indNN. cbn. by rewrite set_idx16_q.
  - by apply reports_cb.
  - right. split; [done|]. unfold run, op_LD_R_HL_ind. cbn [snd]. by rewrite write_reg8_q.
  - right. destruct (emit_read_r8 _ _ _). split; [done|]. unfold run, op_LD_HL_R_ind. cbn [snd]. by rewrite write_reg8_q.
  - left. destruct (emit_alu_src_from_reg _ _). done.
  - left. destruct (emit_alu_src_from_reg _ _). done.
  - right. split; [done|]. cbn [snd run]. unfold op_EX_SP_HL. cbn. rewrite set_idx16_q. exact Hq.
Qed.
End Q.

(** ** One instruction after the other *)

(** The instructions [emitted_op_correct] speaks of. *)
Definition translates_plainly (o : op_at) : Prop :=
  straight_line (dtype o.1) = true ∧ ind_reg_ok o.1 = true ∧
  (dtype o.1 = Z80_OP_LD_NN_HL → has_idx o.1 = true → imm16 o.1 ≠ 0xFFFF).

Section Stretch.
Context `{CE : CodeEnv} (l : layout) (Hl : layout_ok l) (slow : xstate → xstate) (Hslow : ∀ σ, rejoins l σ (slow σ)).
Context (Hmi : mirrored l = z80_mem_mirrored) `{HW : Host W, !HostOk W, !HostBlind W} (traps ports : bool).

Lemma straight_branch d : straight_line (dtype d) = true → is_branch d = false.
Proof. unfold straight_line, is_branch. by destruct (is_uncond_ender _), (is_cond_ender _). Qed.

(** The host's picture leaves out PC, Q and the instruction count. *)
Lemma host_advance d c σ : host l c σ → host l (advance d c) σ.
Proof. intros [[] []]. by split; split. Qed.
Lemma host_bump f p c σ : host l (touch f p c) σ → host l (touch f p (bump_insn c)) σ.
Proof. intros [[] []]. by split; split. Qed.

Lemma drop_dead_lands fmask store f (s s' : mach W) : is_byte f → f &' fmask = rF s'.1 &' fmask →
  drop_dead fmask store f s s' = on_cpu (touch f (if store then memptr s'.1 else memptr s.1)) s'.
Proof.
  intros Hf E. unfold drop_dead. rewrite <- E, u8_id by done. do 2 f_equal.
  apply Z.bits_inj'. intros n Hn. rewrite Z.lor_spec, Z.land_spec, Z.ldiff_spec. by destruct (Z.testbit f n), (Z.testbit fmask n).
Qed.

Lemma cpu_ok_touch f p c : cpu_ok c → is_byte f → is_word p → cpu_ok (touch f p c).
Proof. intros Hc Hf Hp. unfold touch. in_range. Qed.

(** One instruction: the code under its masks keeps the host in agreement
    with the interpreter, and what [emit_op] reports tells Q. *)
Lemma op_agrees live mlive d pa prev_q (s s' : mach W) σ :
  can_translate traps ports d pa = true → dec_ok 8 d → translates_plainly (d, pa) → is_byte live → cpu_ok s.1 → cpu_ok s'.1 →
  agree (live_before d live) (mptr_before d mlive) s s' → host l s'.1 σ → q_known l prev_q (rQ s'.1) σ →
  let gr := emit_op d prev_q live (mptr_store d mlive) in
  ∃ s1 s1' k σ1, step_dec d s = (RC_OK, s1) ∧ rPC s1.1 = u16 (rPC s.1 + nbytes d) ∧ agree live mlive s1 s1' ∧ cpu_ok s1'.1 ∧
    (k <= 2)%nat ∧ gruns l slow gr.1 k σ σ1 ∧ host l s1'.1 σ1 ∧ reports gr.2 (rQ s1'.1).
Proof using Hl Hslow Hmi HostOk0 HostBlind0.
  intros Hacc Hd (Hsl & Hind & Hff) Hlive Hs Hs' Hag Hh Hq gr. cbn [fst] in Hsl, Hind, Hff.
  set (c1 := advance d s'.1). assert (cpu_ok c1) as Hc1 by by apply ok_advance.
  destruct (emit_op_lands l Hl slow Hslow Hmi s'.2 live (mptr_store d mlive) Hlive c1 σ Hc1 (host_advance d _ _ Hh) traps ports pa d Hd Hacc
    (rPC s'.1) prev_q (rQ s'.1) Hsl Hind Hff Hq) as (Hrc & k & Hk & σ1 & Hg & f & Hf & Ef & Hhost).
  pose proof (reports_op traps ports d pa prev_q live (mptr_store d mlive) (rPC s'.1) (rQ s'.1) (c1, s'.2) Hd Hacc Hsl eq_refl) as Hr.
  destruct (step_agree traps ports live mlive f d pa s s' Hacc (straight_branch d Hsl) Hd Hlive Hs Hag) as (s1 & s1' & E1 & E1' & Hpc & Hag1).
  pose proof (ok_step_dec d s' Hs' Hd) as Hok. rewrite E1' in Hok. cbn [snd] in Hok.
  unfold step_dec in E1'. change (on_cpu (advance d) s') with ((c1, s'.2) : mach W) in E1'.
  destruct (exec d (rPC s'.1) (rQ s'.1) (c1, s'.2)) as [rc s2]. cbn [fst snd] in *. subst rc. injection E1' as <-.
  rewrite (drop_dead_lands live (mptr_store d mlive) f s' (on_cpu bump_insn s2) Hf Ef) in Hag1.
  eexists s1, _, k, σ1. split_and!; [done|done|exact Hag1| |done|done| |].
  - apply cpu_ok_touch; [done..|]. destruct (mptr_store d mlive); [apply Hok|apply Hs'].
  - change (memptr (on_cpu bump_insn s2).1) with (memptr s2.1). by apply host_bump.
  - exact Hr.
Qed.

(** The mode a tail is given fits Q. *)
Definition tail_q (q_mode q : Z) : Prop := q_mode = Q_SET ∧ q = 1 ∨ q_mode = Q_CLEAR ∧ q = 0.

(** A stretch, under the masks of whatever follows it. *)
Lemma ops_agree n pc ops (s s' : mach W) prev_q q_mode σ :
  chained pc ops → accepted traps ports ops → Forall translates_plainly (firstn n ops) → is_word pc →
  rPC s.1 = pc → cpu_ok s.1 → cpu_ok s'.1 → agree (liveness ops).2.1 (liveness ops).2.2 s s' → host l s'.1 σ → q_known l prev_q (rQ s'.1) σ →
  let '(g, q_mode') := emit_ops (firstn n ops) (liveness ops).1 prev_q q_mode in
  let rest := liveness (skipn n ops) in
  ∃ s1 s1' k σ1, run_ops (firstn n ops) s = (RC_OK, s1) ∧ agree rest.2.1 rest.2.2 s1 s1' ∧ cpu_ok s1'.1 ∧
    (k <= 2 * n)%nat ∧ gruns l slow g k σ σ1 ∧ host l s1'.1 σ1 ∧
    (firstn n ops ≠ [] ∨ tail_q q_mode (rQ s'.1) → tail_q q_mode' (rQ s1'.1)).
Proof using Hl Hslow Hmi HostOk0 HostBlind0.
  revert pc ops s s' prev_q q_mode σ. induction n as [|n IH]; intros pc ops s s' prev_q q_mode σ Hch Hacc Hp Hpc Hs Hok Hok' Hag Hh Hq.
  { cbn. exists s, s', 0%nat, σ. split_and!; try done; [apply gruns_lift, runs_none|by intros [?|?]]. }
  destruct ops as [|[d pa] ops].
  { cbn. exists s, s', 0%nat, σ. split_and!; try done; [lia|apply gruns_lift, runs_none|by intros [?|?]]. }
  destruct Hch as (-> & Hd & Hch). apply Forall_cons in Hacc as [Hac Hacc]. cbn [firstn] in *. apply Forall_cons in Hp as [Hpd Hp].
  cbn [fst snd] in Hac. cbn [skipn]. pose proof (liveness_byte ops) as Hlb. cbn [liveness emit_ops run_ops] in *.
  specialize (IH (u16 (pc + nbytes d)) ops). destruct (liveness ops) as [masks [live mlive]]. cbn [fst snd] in *.
  destruct (op_agrees live mlive d _ prev_q s s' σ Hac Hd Hpd Hlb Hok Hok' Hag Hh Hq) as (s1 & s1' & k & σ1 & E1 & Hpc1 & Hag1 & Hok1' & Hk & Hg & Hh1 & Hr).
  pose proof (ok_step_dec d s Hok Hd) as Hok1. rewrite E1 in *. cbn [snd] in Hok1. rewrite Hs in Hpc1. rewrite Hpc1, Z.eqb_refl.
  destruct (emit_op d prev_q live (mptr_store d mlive)) as [g r]. cbn [fst snd] in *.
  set (q1 := if nz (r &' OP_MODIFIES_F) then Q_KEEP else if nz (r &' OP_SETS_F_INLINE) then Q_SET else Q_CLEAR).
  assert (tail_q q1 (rQ s1'.1)) as Hq1 by (unfold q1; destruct Hr as [[-> ->]|[-> ->]]; [by left|by right]).
  assert (q_known l (if negb (q1 =? Q_CLEAR) then 1 else 0) (rQ s1'.1) σ1) as Hqk by (destruct Hq1 as [[-> ->]|[-> ->]]; by cbn).
  specialize (IH s1 s1' _ q1 σ1 Hch Hacc Hp (u16_word _) Hpc1 Hok1 Hok1' Hag1 Hh1 Hqk).
  destruct (emit_ops (firstn n ops) masks _ q1) as [g' q2]. destruct IH as (s2 & s2' & k2 & σ2 & E2 & Hag2 & Hok2 & Hk2 & Hg2 & Hh2 & Hq2).
  exists s2, s2', (k + k2)%nat, σ2. split_and!; try done; [lia|by eapply gruns_then|].
  intros _. apply Hq2. by right.
Qed.

Lemma liveness_skipn i ops : skipn i (liveness ops).1 = (liveness (skipn i ops)).1.
Proof.
  revert i. induction ops as [|[d pa] ops IH]; intros [|i]; try done. specialize (IH i). cbn [skipn liveness].
  destruct (liveness ops) as [masks [live mlive]]. exact IH.
Qed.
End Stretch.

(** ** The theorem *)

(** Straight-line, and not the one instruction [emitted_op_correct] leaves
    out, LD (0FFFFh),IX. *)
Definition plain_op (o : op_at) : bool :=
  straight_line (dtype o.1) && negb (is_type Z80_OP_LD_NN_HL o.1 && has_idx o.1 && (imm16 o.1 =? 0xFFFF)).
Lemma plain_translates m pc ops : mem_ok m → is_word pc → decodes m pc ops → Forall (λ o, ind_reg_ok o.1 = true) ops.
Proof.
  intros Hm. revert pc. induction ops as [|[d pa] ops IH]; intros pc Hpc; [by constructor|].
  intros (<- & -> & Hd). constructor; [by apply ind_reg_decoded|]. apply (IH (u16 (pc + nbytes (z80_decode_one m pc)))); [in_range|done].
Qed.
Lemma plainly o : ind_reg_ok o.1 = true → plain_op o = true → translates_plainly o.
Proof.
  unfold plain_op, translates_plainly, is_type. intros Hi [Hs Hx]%andb_true_iff. split_and!; [done..|].
  intros Et Hh E. rewrite Et, Hh, E in Hx. by rewrite bool_decide_true in Hx.
Qed.

(** C4: translated stretches of a block do what the interpreter does.  Take
    a block the translator scans and any [n] consecutive instructions of it,
    from the [i]-th on, that are straight-line (see [emitted_op_correct]).
    Let the host hold a Z80 state that differs from the interpreter's only
    in F bits and a MEMPTR that phase 2 found dead there.  Then the bytes
    phase 3 emits for them, each instruction under its own masks and with
    what it knows of Q, run to a host state that holds what the interpreter
    leaves after the same [n] instructions, again but for what is dead
    there; the mode passed to the block's tail tells the interpreter's Q.
    A host that holds the interpreter's own state is such a host, and after
    a block's last instruction nothing is dead.  Slow paths of stores, at
    most two an instruction, may change scratch registers at will. *)
Theorem emitted_stretch_correct `{CE : CodeEnv} `{HW : Host W, !HostOk W, !HostBlind W} l slow traps ports m pc ops e i n prev_q (s s' : mach W) σ :
  layout_ok l → (∀ σ, rejoins l σ (slow σ)) → mirrored l = z80_mem_mirrored →
  mem_ok m → is_word pc → scan_block traps ports m pc = Some (ops, e) →
  skipn i ops ≠ [] → (0 < n)%nat → forallb plain_op (firstn n (skipn i ops)) = true →
  cpu_ok s.1 → cpu_ok s'.1 → rPC s.1 = head_pc (skipn i ops) → host l s'.1 σ → q_known l prev_q (rQ s'.1) σ →
  let before := (liveness (skipn i ops)).2 in
  let after := (liveness (skipn (i + n) ops)).2 in
  agree before.1 before.2 s s' →
  let '(code, q_mode) := emit_ops (firstn n (skipn i ops)) (skipn i (liveness ops).1) prev_q Q_CLEAR in
  ∃ s1 s1' k σ1, run_ops (firstn n (skipn i ops)) s = (RC_OK, s1) ∧ agree after.1 after.2 s1 s1' ∧
    (k <= 2 * n)%nat ∧ gruns l slow code k σ σ1 ∧ host l s1'.1 σ1 ∧ tail_q q_mode (rQ s1.1).
Proof.
  intros Hl Hslow Hmi Hm Hpc Hscan Hne Hn Hplain Hs Hs' Hp Hh Hq before after Hag.
  destruct (scan_block_spec traps ports m Hm pc ops e Hpc Hscan) as (Hch & Hdec & Hacc & _).
  destruct (chained_skipn i pc ops Hpc Hch Hne) as [Hw Hch'].
  assert (Forall translates_plainly (firstn n (skipn i ops))) as Hp'.
  { pose proof (plain_translates m pc ops Hm Hpc Hdec) as Hi. apply (Forall_drop _ i) in Hi. apply (Forall_take _ n) in Hi.
    apply Forall_forall. intros o Ho. rewrite Forall_forall in Hi. apply plainly; [by apply Hi|].
    apply (proj1 (forallb_forall _ _) Hplain). by apply list_elem_of_In. }
  pose proof (ops_agree l Hl slow Hslow Hmi traps ports n _ (skipn i ops) s s' prev_q Q_CLEAR σ Hch' (accepted_skipn traps ports i ops Hacc) Hp' Hw Hp Hs Hs' Hag Hh Hq) as H.
  rewrite liveness_skipn. subst after. rewrite Nat.add_comm, <- skipn_skipn. destruct (emit_ops _ _ _ _) as [code q_mode].
  destruct H as (s1 & s1' & k & σ1 & E & Ha & _ & Hk & Hg & Hh1 & Hq1). exists s1, s1', k, σ1. split_and!; try done.
  destruct Ha as (f & p & -> & _). apply Hq1. left. destruct (skipn i ops), n; [done|done|lia|done].
Qed.

(** A picture says what the code before the first instruction knows of Q. *)
Lemma picture_q c : cpu_ok c → q_known lay (-1) (rQ c) (picture (λ _, 0) c).
Proof. intros Hc. change (at_ lay (picture (λ _, 0) c) (cpu_p lay + OFF_Q) = rQ c ∧ is_byte (rQ c)). rewrite picture_ctx by off. split; [done|by apply Hc]. Qed.

(** XOR A; ADD A,B; LD (HL),A; SCF; RET, all but the RET, from the entry. *)
Definition stretch_cpu : z80_cpu :=
  set_rPC 0x100 (set_rB 0x80 (set_rH 0x80 (set_mem (mset_list 0x100 [0xAF; 0x80; 0x77; 0x37; 0xC9] ∅) z80_cpu_init))).
Lemma stretch_facts : cpu_ok stretch_cpu ∧ rPC stretch_cpu = 0x100 ∧
  ∃ ops, scan_block true true (mem stretch_cpu) 0x100 = Some (ops, 0x105) ∧ (liveness (skipn 4 ops)).2 = (0xFF, true) ∧
    forallb plain_op (firstn 4 ops) = true ∧ head_pc ops = 0x100 ∧ ops ≠ [].
Proof.
  split; [unfold stretch_cpu; pose proof z80_cpu_init_ok; in_range|]. split; [done|].
  set (ops := ops_of true true (mem stretch_cpu) 0x100).
  assert (scan_block true true (mem stretch_cpu) 0x100 = Some (ops, 0x105)) as Hscan by (subst ops; by vm_compute).
  assert ((liveness (skipn 4 ops)).2 = (0xFF, true)) as Ha by (subst ops; by vm_compute).
  assert (forallb plain_op (firstn 4 ops) = true) as Hp by (subst ops; by vm_compute).
  assert (head_pc ops = 0x100) as Hh by (subst ops; by vm_compute).
  exists ops. split; [exact Hscan|]. split; [exact Ha|]. split; [exact Hp|]. split; [exact Hh|]. clear -Hh. clearbody ops. intros ->. by vm_compute in Hh.
Qed.
Example emitted_stretch_correct_witness :
  ∃ ops, scan_block true true (mem stretch_cpu) 0x100 = Some (ops, 0x105) ∧
  let '(code, q_mode) := @emit_ops lay_env (firstn 4 ops) (liveness ops).1 (-1) Q_CLEAR in
  ∃ s1 s1' k σ1, run_ops (firstn 4 ops) (stretch_cpu, tt) = (RC_OK, s1) ∧ agree 0xFF true s1 s1' ∧ (k <= 8)%nat ∧
    gruns lay (λ σ, σ) code k (picture (λ _, 0) stretch_cpu) σ1 ∧ host lay s1'.1 σ1 ∧ tail_q q_mode (rQ s1.1).
Proof.
  destruct stretch_facts as (Hc & Hpc & ops & Hscan & Ha & Hp & Hh & Hne). exists ops. split; [done|]. revert Hc Hpc Hscan. generalize stretch_cpu. intros c Hc Hpc Hscan.
  pose proof (emitted_stretch_correct (CE := lay_env) lay (λ σ, σ) true true (mem c) 0x100 ops 0x105 0 4 (-1)
    (c, tt) (c, tt) (picture (λ _, 0) c) lay_ok (rejoins_refl lay) eq_refl (ok_mem _ Hc) ltac:(in_range) Hscan Hne ltac:(lia) Hp Hc Hc
    (eq_trans Hpc (eq_sym Hh)) (picture_host _ _) (picture_q c Hc)) as H.
  cbv zeta in H. change (skipn (0 + 4) ops) with (skipn 4 ops) in H. rewrite Ha in H. apply H. by apply agree_refl.
Defined.
